(* ===== verification/_CoqProject ===== *)
-Q . S2P
Prelude.v
ListHead.v
Message.v
CString.v
Arena.v
Table.v
KState.v
Paging.v
Thread.v
Channel.v
ChannelGraph.v
Vm.v
Ipc.v
Timer.v
Proc.v
KServer.v
System.v
WaitState.v
IpcSafety.v
IpcSpec.v
PageTransfer.v
Util.v
HashTable.v
Malloc.v
Printf.v
Screen.v
Symbols.v
UserIpc.v
Driver.v
Ps2.v
Stubs.v
Pci.v
Virtio.v
Shell.v
Font.v
Gui.v
Initfs.v
Elf.v
AllocPages.v
Setup.v
Machine.v
Memmgr.v
Appmgr.v
EnaLexer.v
EnaParser.v
EnaGrammar.v
EnaHash.v
EnaUtf8.v
EnaHeap.v
EnaGc.v
EnaEval.v
EnaShape.v
EnaIdent.v
EnaRun.v
EnaStart.v
EnaWhile.v
EnaScripts.v
EnaTests.v
MyosMem.v
MyosNet.v
MyosSend.v
MyosChecksum.v
MyosDhcp.v
MyosDns.v
MyosTcp.v
MyosHttp.v
MyosInit.v
