(* ===== verification/Prelude.v ===== *)
(** * Resea, ena and myos: a microkernel, a script interpreter and a network stack

    Models of three C programs of this archive and of the properties they are meant to
    have: the operating system Resea, kept in [src/resea-old-c-userland], the
    interpreter of the language ena, kept in [src/tiny-script-interpreter], and the
    network stack of the kernel myos, kept in [src/myos/kernel].  File and function
    names below are relative to these directories.

    ** The programs

    Resea is a microkernel for x86-64.  The kernel ([kernel/]) has processes,
    threads, channels, page tables and timers.  A thread sends a message to a
    channel it owns; the message goes to the channel linked with it, and from
    there to the channel it transfers to, where another thread receives it.
    Everything else is done by servers that exchange messages: a thread of the
    kernel itself (the kernel server, [kernel/server.c]) creates processes and
    threads, maps memory, and delivers interrupts and timeouts; the first user
    process, [servers/memmgr], owns the physical memory, fills the pages of the
    programs it starts and connects clients with servers.  Programs are linked
    with [libs/libresea] (strings, vectors, hash tables, heap, output, system
    calls) and [libs/libserver] (the main loop of a server).

    ena is a small object-oriented language.  Its interpreter ([src/]) reads a script
    with a hand-written lexer ([lexer.c]) and a recursive descent parser ([parser.c])
    and evaluates the syntax tree ([eval.c]).  Values are objects in a pool of fixed
    size with a conservative mark and sweep collector ([gc.c]); names are interned
    ([internal.c]); methods, scopes and maps are hash tables ([hash.c]); the classes of
    integers, strings, lists and maps are built in.

    myos is a kernel that serves a web page.  Its network stack ([net/]) has Ethernet
    frames ([net.c]), ARP, IP, ICMP, UDP and TCP, gets its address by DHCP, asks for names
    by DNS, and has an HTTP server that sends a file of the file system ([core/fs.c]).

    ** How the model is organised

    The basis:
    - [Prelude] (this file): the outcomes of C code, the state monad [M], integers
      at their width ([u8], [u16], [u32], [u64]), arrays with bounds, the hint
      database [resea] and the tactics of the development.
    - [ListHead]: the intrusive lists of [libs/libcommon/include/list.h] on a store
      of nodes.  [list_h_refines_queues] allows the other files to represent a
      list head by the sequence of its elements.
    - [Message]: constants and macros of [types.h] and [message.h], messages with
      their payload fields, and the message headers generated from
      [misc/interfaces.idl].
    - [CString]: [libs/libresea/string.c], on byte arrays with bounds.

    The kernel:
    - [Arena]: object pools ([kernel/memory.c]); [Table]: identifier tables
      ([kernel/include/table.h]); [Paging]: four-level page tables
      ([kernel/arch/x64/paging.c]).
    - [KState]: the state of the kernel, one record per C structure and a finite map
      from addresses to records for each kind of object; an access to an address
      that is not in its map is undefined behaviour.
    - [Thread] ([kernel/thread.c], [kernel/arch/x64/thread.c]), [Channel]
      ([kernel/channel.c]), [Vm] (vm areas and pagers), [Ipc] ([kernel/ipc.c] and
      the page fault handler), [Timer] ([kernel/timer.c]), [Proc]
      ([kernel/process.c]), [KServer] ([kernel/server.c]), [System]
      ([kernel/boot.c], the interrupt entry and the running system).
    - [Screen] ([kernel/arch/x64/screen.c]), [Symbols] (the symbol table of
      [tools/link.py] and its lookup in [kernel/debug.c] and
      [libs/libresea/backtrace.c]), [Setup] ([kernel/arch/x64/setup.c]: the memory
      map for memmgr, interrupt gates and the TSS descriptor), [Machine] (the rest of
      [setup.c], [apic.c], [mp.c] and [serial.c], over the classes [Machine] and
      [Platform] of what the hardware does).
    - [ChannelGraph], [WaitState], [IpcSafety], [IpcSpec], [PageTransfer]: the
      theorems about channels and IPC that need more than one of these.

    User programs:
    - [Util], [HashTable], [Malloc], [Printf]: the rest of [libs/libresea].
    - [UserIpc]: system calls, client stubs and [libs/libserver], over the class
      [Kernel] of what a kernel offers a program.
    - [Initfs], [Elf], [AllocPages], [Memmgr]: [servers/memmgr], [libs/libelf] and
      [tools/mkinitfs.py].
    - [Driver]: [libs/libdriver] and the state of a server with static variables,
      over the class [Ports] of the I/O ports; [Stubs]: the client stubs that
      [tools/genstub.py] generates.
    - [Ps2] ([servers/ps2]), [Pci] ([servers/pci]) and [Virtio] ([libs/libvirtio] and
      [servers/virtio_blk]): drivers, over the classes [Controller], [Bridge],
      [ConfigSpace] and [Memory] of what the hardware does.  The class [ConfigSpace]
      of [Virtio] is discharged by the PCI server running on a bridge.
    - [Gui] and [Font] ([servers/gui]): the console on a framebuffer.
    - [Appmgr] ([servers/appmgr]), [Shell] ([apps/shell], [apps/hello] and
      [libs/libapp]): the manager of applications and the applications.

    ena:
    - [EnaLexer] ([lexer.c], [utils.c]) and [EnaParser] ([parser.c]): the lexer on the
      characters of a script, and every rule of the parser.  [EnaGrammar]: the grammar
      of programs as an inductive relation between sequences of tokens and trees.
      [EnaShape]: the sorts of nodes and the signatures of node types.
    - [EnaHash] ([hash.c]): tables of chains, over the class [HashMethods] of the
      functions on keys, with the laws [HashLaws].  [EnaIdent]: interned names.
    - [EnaHeap]: the state [ena_vm] of an interpreter, its objects ([eval.h]), the
      collector ([gc.c]), scopes and variables ([internal.c]), over the class [Host] of
      what the collector sees of registers and stack.  [EnaGc]: reachability.
    - [EnaEval] ([eval.c], [api.c], [builtins.c], [list.c], [map.c], [string.c],
      [main.c]): the built-in classes, the evaluator with a monad for errors and for the
      unwinding of [return], [break] and [continue], and the main program.  [EnaUtf8]:
      the functions on UTF-8 of [string.c].  [EnaRun]: the steps of the evaluator.
      [EnaStart]: a new interpreter.  [EnaWhile]: scripts with variables and loops, from
      their text to their output.  [EnaScripts] and [EnaTests]: examples, and the test
      scripts of the repository.

    myos:
    - [MyosMem]: bytes and numbers, and [lib/string.c], [net/endian.c] and
      [setMACAddress].  [MyosNet]: the state [struct NetInfo] and the whole of [net/] and
      [core/fs.c], over the class [Machine] of what is on the stack before a function
      writes to it.
    - [MyosSend]: the bytes of the sent packets.  [MyosChecksum]: the checksums of IP and
      TCP.  [MyosDhcp]: the messages of a DHCP server.  [MyosDns]: questions of names.
      [MyosTcp]: connections and transfers.  [MyosHttp]: the web server.  [MyosInit]:
      the start of the network and the tables.

    ** How C code is represented

    A function is a definition of the type [M S A := S -> outcome (A * S)].  An
    outcome is [Done] with the result and the new state, [Panic] (a failed
    assertion, a [PANIC], or the loop a panic ends in), [Undef] (undefined
    behaviour: a null or dangling pointer, an index outside an array, memory that
    was not written), or [Fuel].  A theorem that says that something is [Done]
    therefore excludes panics and undefined behaviour.  Unsigned arithmetic is
    written with its wrap-around.

    A function that calls [thread_switch] does not return until its thread is
    switched to again.  Such functions return [CRet v], or [CBlock fs] where [fs]
    are the C functions then active; [System.Sys.step] runs system calls,
    interrupts and page faults from user mode, and resumes the frames of a thread
    that is switched to.  One CPU is modelled; the release build
    ([DEBUG_BUILD] not defined) with [CONFIG_FASTPATH] is.

    ** Fuel

    Loops whose number of rounds is not bounded by an argument have fuel, and
    [Fuel] is an outcome of its own, never a result.  The theorems either show that
    the fuel given by the definition is enough ([channel_decref_terminates]: the
    number of live channels bounds the recursion of [channel_decref];
    [format_terminates]: the length of the format bounds the loop;
    [kmalloc_safe], [hash_refines_map] and others: their conclusion is [Done]) or
    hold for every fuel above a stated bound.  [link_page] and [unlink_page] have
    fuel for their outer loop because the loop of [link_page] need not end
    ([Paging.link_page_never_returns]).  The loops of servers run for the messages
    that arrive.  The parser and the evaluator of ena have fuel for their recursion:
    the length of the script, and a few rounds more, is enough for the parser
    ([parse_correct]), twice the rounds of the semantics more for the evaluator
    ([script_runs]).  The recursion of the collector is bounded by the size of the
    pool ([gc_exact]).  The loop over the options of DHCP has fuel: one round more than
    there are options is enough ([dhcp_acquires]), and for one packet no fuel is
    ([dhcp_option_hangs]).  The exceptions that the switch of the FPU state raises in
    itself are counted by fuel, and no amount is enough ([lazy_fpu_switch_recurses]); the
    same holds for the jumps of a [return] in a loop ([return_in_loop_never_ends]).

    ** What is shown

    - IPC: from a state with the invariant, every system call, resumption and
      interrupt-free step of threads that exchange inline messages ends without a
      panic, keeps the invariant and loses no thread ([ipc_safety]); boot
      establishes the invariant ([boot_establishes_invariant]); a send delivers the
      message and wakes the receiver ([ipc_send_delivers]); the fast path does what
      the slow path does ([fastpath_equals_slowpath]); the booted kernel serves a
      request of its first process ([boot_and_print]); a page payload moves the
      pages from the sender to the receiver ([page_payload_moves]).
    - Channels: counted references are safe ([channel_references_safe]) and
      [channel_decref] terminates.
    - Scheduler: the run queue invariant, round robin; what the lazy switch of the FPU
      state does ([lazy_fpu_switch_recurses]).
    - Memory: page tables ([link_page_resolve], [unlink_page_resolve]), object
      pools, identifier tables, the page allocator of memmgr, the heap of programs.
    - Libraries: lists, strings, vectors and hash tables below 32 keys refine their
      abstract counterparts ([hash_refines_map] says what it assumes of the traits); number and format output; error replies.
    - memmgr: the initial file system reads what the image tool writes, page
      filling, program names, progress of service discovery; the ELF parser.
    - Devices and boot: the text screen shows the end of what was written
      ([screen_shows_text]); the memory zones of memmgr are the free memory the
      boot loader reports, clamped to what is mapped ([boot_zones],
      [Setup.memory_map_exact]); symbol lookup ([Symbols.find_symbol_correct]); from the MP table to the
      handler, the path of an interrupt ([interrupt_path]); the keyboard and mouse
      driver decodes both byte streams whatever their interleaving
      ([ps2_interrupt], [Ps2.key_map_bounds]); the PCI server finds exactly the first
      matching device ([pci_search]) and the virtio library, talking to it, the
      capability it looks for ([capability_search]); the parts of a virtqueue
      ([virtq_layout]); the pixels of the console are the text ([gui_shows_text]).
    - Applications: the exit code of an application reaches the program that waits
      for it ([exit_reaches_waiter]); the shell is a line editor ([shell_edits]).
    - ena, the front end: a text that writes a program of the grammar, which is stated
      apart from the parser, is parsed to its tree, the only one it has
      ([parse_correct]); whatever the script, the
      trees have the shapes the evaluator reads, up to three places where an operand
      can be missing ([parse_shaped]).
    - ena, the run time: a collection frees what cannot be reached from the modules, the
      registers and the stack, and keeps what can be reached, modules that are not in
      the list of modules apart ([gc_exact]); hash tables are maps from
      keys to sequences of values ([ena_hash_refines]); interning is a bijection
      ([intern_correct]); the functions on UTF-8 decode what the encoding writes
      ([utf8_roundtrip]); a script of declarations, assignments, conditions, loops and
      [print], over integers and booleans, has the output, the error and the variables
      that a semantics without tokens, trees and objects gives it, as long as the pool
      has room without a collection ([script_runs]).
    - myos: the frame of a short request and the acknowledgements after it make the machine
      send the page, through every layer ([http_get_served], [MyosTcp.tcp_transfer]); the
      machine gets its address from the offer and the acknowledgement of a server
      ([dhcp_acquires]); the checksum of IP is the one a receiver expects exactly if the
      last addition has no carry ([ip_checksum_exact]); the query for a name
      ([dns_query_sent]).
    - Where the code does not do what it means to, a theorem shows what it does
      ([unlink_panics], [noblock_ignored], [link_page_maps_extra_page],
      [hash_rehash_overflows], [page_faults_exhaust_appmgr], [virtq_layout],
      [lazy_fpu_switch_recurses], [return_in_loop_never_ends], [remove_first_dangles], [EnaGrammar.else_rejected],
      [dhcp_option_hangs], [MyosInit.init_leaves_table], and
      plain theorems of [Table], [Vm], [Paging], [CString], [AllocPages], [Memmgr],
      [Printf], [Util], [Pci], [Virtio], [Gui], [Appmgr], [EnaGc] and [EnaScripts]).

    ** Not modelled

    Assembly ([boot.S], [handler.S], the IPC entry).  The
    benchmarks and the kernel tests, which only exercise the system.  Debug builds (ASan, stack canaries, the kernel debugger), the walk
    of backtraces, and log messages ([TRACE], [INFO], [WARN]), which have no effect
    but their output.  The text templates and the IDL parser of [tools/genstub.py]: the
    stubs it generates are modelled, its parser is a build tool.  What is outside the
    sources is a parameter: the pages [malloc] gets, the hash function of a hash
    table, the contents of uninitialised message buffers, the boot arguments and
    the image of the initial file system.

    Of ena: printing and freeing of syntax trees and of the interpreter, the text of
    error messages and stack traces, [ena_stringify], objects of the host, and the dumps of
    the debug build.  [setjmp] and [longjmp] are the results of the evaluator's monad; the words of
    the registers and the stack in each collection are a parameter.

    Of myos: the driver of the network card, the rest of the kernel (paging, tasks,
    exceptions, output, start) and the calls of [print].  A read behind an object of the
    C code, where the machine would find other data, is [Undef].

    The other programs of the archive are not modelled: earlier and later kernels of the
    same author that repeat this one's design, programs in other languages, and copies of
    third-party code. *)
From stdpp Require Export base numbers list gmap.
From Stdlib Require Export ZArith Lia.
Open Scope Z_scope.

(** ** Outcomes of C code *)

(** What a piece of C code does: it returns a value, it stops the kernel or the
    process ([PANIC], [BUG], [ASSERT], [assert]), or it leaves the defined
    behaviour of C (a read or a write outside a live object).  [Fuel] is not a
    behaviour of the code: a fuelled definition ran out of fuel. *)
Inductive outcome (A : Type) : Type :=
| Done (a : A)
| Panic
| Undef
| Fuel.
Arguments Done {A} _.
Arguments Panic {A}.
Arguments Undef {A}.
Arguments Fuel {A}.

Definition outcome_bind {A B : Type} (m : outcome A) (k : A -> outcome B) : outcome B :=
  match m with
  | Done a => k a
  | Panic => Panic
  | Undef => Undef
  | Fuel => Fuel
  end.

Notation "x <-- m ;; k" := (outcome_bind m (fun x => k)) (at level 60, m at next level, right associativity).

(** Code that reads and writes a state [S]. *)
Definition M (S A : Type) : Type := S -> outcome (A * S).

Section Combinators.
Context {S : Type}.
Implicit Types (A B : Type).

Definition ret {A} (a : A) : M S A := fun s => Done (a, s).

Definition bind {A B} (m : M S A) (k : A -> M S B) : M S B :=
  fun s =>
    match m s with
    | Done (a, s') => k a s'
    | Panic => Panic
    | Undef => Undef
    | Fuel => Fuel
    end.

Definition get : M S S := fun s => Done (s, s).
Definition gets {A} (f : S -> A) : M S A := fun s => Done (f s, s).
Definition put (s : S) : M S unit := fun _ => Done (tt, s).
Definition modify (f : S -> S) : M S unit := fun s => Done (tt, f s).
Definition panic {A} : M S A := fun _ => Panic.
Definition undef {A} : M S A := fun _ => Undef.
Definition no_fuel {A} : M S A := fun _ => Fuel.

(** [ASSERT(b)] and [assert(b)]. *)
Definition c_assert (b : bool) : M S unit := if b then ret tt else panic.

(** Reading a value that must be there, such as a live object. *)
Definition need {A} (o : option A) : M S A :=
  match o with Some a => ret a | None => undef end.

(** Outcomes without a state. *)
Definition lift {A} (o : outcome A) : M S A :=
  fun s => outcome_bind o (fun a => Done (a, s)).
End Combinators.

Declare Scope resea_scope.
Delimit Scope resea_scope with resea.
Notation "x <- m ;; k" := (bind m (fun x => k))
  (at level 60, m at next level, right associativity) : resea_scope.
Notation "'let*' p := m 'in' k" := (bind m (fun p => k))
  (at level 10, p pattern, m at level 100, k at level 200) : resea_scope.
Notation "m ;;; k" := (bind m (fun _ => k))
  (at level 60, right associativity) : resea_scope.
Open Scope resea_scope.

(** ** Triples *)

(** [hoare P m Q]: from a state with [P], if [m] returns then [Q] holds of its
    result and final state.  [total P m Q] says that [m] does return. *)
Definition hoare {S A} (P : S -> Prop) (m : M S A) (Q : A -> S -> Prop) : Prop :=
  forall s, P s -> forall a s', m s = Done (a, s') -> Q a s'.

Definition total {S A} (P : S -> Prop) (m : M S A) (Q : A -> S -> Prop) : Prop :=
  forall s, P s -> exists a s', m s = Done (a, s') /\ Q a s'.

Section Triples.
Context {S : Type}.

Lemma bind_done {A B} (m : M S A) (k : A -> M S B) s b s'' :
  bind m k s = Done (b, s'') ->
  exists a s', m s = Done (a, s') /\ k a s' = Done (b, s'').
Proof.
  unfold bind. destruct (m s) as [[a s'] | | |]; try discriminate. eauto.
Qed.

Lemma bind_intro {A B} (m : M S A) (k : A -> M S B) s a s' r :
  m s = Done (a, s') -> k a s' = r -> bind m k s = r.
Proof. unfold bind. intros -> <-. reflexivity. Qed.

Lemma hoare_ret {A} (a : A) (P : S -> Prop) : hoare P (ret a) (fun b s => b = a /\ P s).
Proof. intros s HP b s' [= <- <-]. auto. Qed.

Lemma hoare_bind {A B} (P : S -> Prop) (R : A -> S -> Prop) (Q : B -> S -> Prop)
    (m : M S A) (k : A -> M S B) :
  hoare P m R -> (forall a, hoare (R a) (k a) Q) -> hoare P (bind m k) Q.
Proof.
  intros Hm Hk s HP b s'' H.
  destruct (bind_done _ _ _ _ _ H) as (a & s' & H1 & H2). eapply Hk; eauto.
Qed.

Lemma hoare_conseq {A} (P P' : S -> Prop) (Q Q' : A -> S -> Prop) (m : M S A) :
  hoare P' m Q' -> (forall s, P s -> P' s) -> (forall a s, Q' a s -> Q a s) -> hoare P m Q.
Proof. unfold hoare. eauto. Qed.

Lemma total_hoare {A} (P : S -> Prop) (m : M S A) (Q : A -> S -> Prop) :
  total P m Q -> hoare P m Q.
Proof.
  intros H s HP a s' E. destruct (H s HP) as (b & t & E' & HQ). congruence.
Qed.
End Triples.

(** ** Machine integers *)

Definition u8 (x : Z) : Z := x mod 2 ^ 8.
Definition u16 (x : Z) : Z := x mod 2 ^ 16.
Definition u32 (x : Z) : Z := x mod 2 ^ 32.
Definition u64 (x : Z) : Z := x mod 2 ^ 64.
Definition s8 (x : Z) : Z := (x + 2 ^ 7) mod 2 ^ 8 - 2 ^ 7.
Definition s16 (x : Z) : Z := (x + 2 ^ 15) mod 2 ^ 16 - 2 ^ 15.
Definition s32 (x : Z) : Z := (x + 2 ^ 31) mod 2 ^ 32 - 2 ^ 31.
Definition s64 (x : Z) : Z := (x + 2 ^ 63) mod 2 ^ 64 - 2 ^ 63.

(** Addition of two [int]s: signed overflow is undefined. *)
Definition int_add (x y : Z) : outcome Z :=
  if (- 2 ^ 31 <=? x + y) && (x + y <? 2 ^ 31) then Done (x + y) else Undef.

(** A C truth value. *)
Definition truthy (x : Z) : bool := negb (x =? 0).

Lemma u64_small x : 0 <= x < 2 ^ 64 -> u64 x = x.
Proof. intros. unfold u64. rewrite Z.mod_small; lia. Qed.

Lemma u32_small x : 0 <= x < 2 ^ 32 -> u32 x = x.
Proof. intros. unfold u32. rewrite Z.mod_small; lia. Qed.

Lemma s32_small x : - 2 ^ 31 <= x < 2 ^ 31 -> s32 x = x.
Proof. intros. unfold s32. rewrite Z.mod_small; lia. Qed.

Lemma u64_range x : 0 <= u64 x < 2 ^ 64.
Proof. apply Z.mod_pos_bound. lia. Qed.

Lemma truthy_true x : truthy x = true <-> x <> 0.
Proof. unfold truthy. destruct (Z.eqb_spec x 0); simpl; split; congruence. Qed.

Lemma truthy_false x : truthy x = false <-> x = 0.
Proof. unfold truthy. destruct (Z.eqb_spec x 0); simpl; split; congruence. Qed.

(** ** Arrays indexed by C integers *)

(** [a[i]] for an array of known length: outside it the access is undefined. *)
Definition arr_get {A} (a : list A) (i : Z) : option A :=
  if i <? 0 then None else a !! Z.to_nat i.

Definition arr_set {A} (a : list A) (i : Z) (x : A) : option (list A) :=
  if (i <? 0) || (Z.of_nat (length a) <=? i) then None
  else Some (<[Z.to_nat i := x]> a).

(** The index of the first element with a property, as a search loop that stops
    finds it, and of the last one, as a loop that goes on finds it. *)
Fixpoint find_index {A} (f : A -> bool) (l : list A) (i : Z) : option Z :=
  match l with
  | [] => None
  | x :: l => if f x then Some i else find_index f l (i + 1)
  end.
Definition find_last {A} (f : A -> bool) (l : list A) : option Z :=
  match find_index f (rev l) 0 with
  | Some i => Some (Z.of_nat (length l) - 1 - i)
  | None => None
  end.

Lemma find_index_Some {A} (f : A -> bool) l : forall i k, find_index f l i = Some k ->
  i <= k < i + Z.of_nat (length l) /\ exists x, l !! Z.to_nat (k - i) = Some x /\ f x = true.
Proof.
  induction l as [|x l IH]; intros i k E; [done|]. simpl in E. destruct (f x) eqn:Ef.
  - injection E as ->. split; [simpl; lia|]. exists x. rewrite Z.sub_diag. done.
  - apply IH in E as (Hk & y & Hy & Hf). split; [simpl; lia|]. exists y. split; [|done].
    replace (Z.to_nat (k - i)) with (S (Z.to_nat (k - (i + 1)))) by lia. done.
Qed.

Lemma find_index_is_Some {A} (f : A -> bool) l i : Exists (fun x => f x = true) l -> is_Some (find_index f l i).
Proof.
  intros H. revert i. induction H as [x l H|x l H IH]; intros i; simpl; [rewrite H; by eexists|].
  destruct (f x); [by eexists | apply IH].
Qed.

Lemma find_index_None {A} (f : A -> bool) l i : Forall (fun x => f x = false) l -> find_index f l i = None.
Proof. intros H. revert i. induction H as [|x l H _ IH]; intros i; simpl; [done|]. rewrite H. apply IH. Qed.

Lemma find_index_first {A} (f : A -> bool) l : forall i k y, find_index f l i = Some k ->
  0 <= y -> i + y < k -> exists x, l !! Z.to_nat y = Some x /\ f x = false.
Proof.
  induction l as [|x l IH]; intros i k y E Hy Hk; [done|]. simpl in E. destruct (f x) eqn:Ef; [injection E; lia|].
  destruct (Z.eq_dec y 0) as [->|Hne]; [by exists x|].
  destruct (IH (i + 1) k (y - 1) E) as (z & Hz & Hf); [lia|lia|]. exists z. split; [|done].
  replace (Z.to_nat y) with (S (Z.to_nat (y - 1))) by lia. done.
Qed.

Lemma find_app {A} (f : A -> bool) l1 l2 :
  List.find f (l1 ++ l2) = match List.find f l1 with Some x => Some x | None => List.find f l2 end.
Proof. induction l1 as [|x l1 IH]; [done|]. simpl. by destruct (f x). Qed.

Lemma find_ext {A} (f g : A -> bool) l : (forall x, f x = g x) -> List.find f l = List.find g l.
Proof. intros H. induction l as [|x l IH]; [done|]. simpl. by rewrite H, IH. Qed.

Lemma arr_get_Some {A} (a : list A) i x :
  arr_get a i = Some x <-> 0 <= i /\ a !! Z.to_nat i = Some x.
Proof.
  unfold arr_get. destruct (Z.ltb_spec i 0); split; intros; intuition (try lia); congruence.
Qed.

Lemma arr_get_is_Some {A} (a : list A) i :
  is_Some (arr_get a i) <-> 0 <= i < Z.of_nat (length a).
Proof.
  unfold arr_get. destruct (Z.ltb_spec i 0).
  - split; [intros [? [=]] | lia].
  - rewrite lookup_lt_is_Some. lia.
Qed.

Lemma arr_set_Some {A} (a : list A) i x :
  0 <= i < Z.of_nat (length a) -> arr_set a i x = Some (<[Z.to_nat i := x]> a).
Proof.
  intros. unfold arr_set.
  destruct (Z.ltb_spec i 0); [lia|]. destruct (Z.leb_spec (Z.of_nat (length a)) i); [lia|].
  reflexivity.
Qed.

Lemma arr_set_inv {A} (a b : list A) i x :
  arr_set a i x = Some b -> 0 <= i < Z.of_nat (length a) /\ b = <[Z.to_nat i := x]> a.
Proof.
  unfold arr_set. destruct (Z.ltb_spec i 0); [discriminate|].
  destruct (Z.leb_spec (Z.of_nat (length a)) i); simpl; [discriminate|].
  intros [= <-]. split; [lia | reflexivity].
Qed.

Lemma arr_set_length {A} (a b : list A) i x :
  arr_set a i x = Some b -> length b = length a.
Proof. intros [_ ->]%arr_set_inv. apply length_insert. Qed.

Lemma arr_get_set {A} (a b : list A) i j x :
  arr_set a i x = Some b -> arr_get b j = if j =? i then Some x else arr_get a j.
Proof.
  intros [Hi ->]%arr_set_inv. unfold arr_get.
  destruct (Z.ltb_spec j 0), (Z.eqb_spec j i); try lia; auto.
  - subst. apply list_lookup_insert_eq. lia.
  - apply list_lookup_insert_ne. lia.
Qed.

(** Blocks of an array: [memcpy] and [memset] on elements. *)
Definition arr_read {A} (a : list A) (i n : Z) : option (list A) :=
  if (0 <=? i) && (0 <=? n) && (i + n <=? Z.of_nat (length a))
  then Some (take (Z.to_nat n) (drop (Z.to_nat i) a)) else None.

Definition arr_write {A} (a : list A) (i : Z) (l : list A) : option (list A) :=
  if (0 <=? i) && (i + Z.of_nat (length l) <=? Z.of_nat (length a))
  then Some (take (Z.to_nat i) a ++ l ++ drop (Z.to_nat i + length l) a) else None.

Lemma arr_read_spec {A} (a : list A) i n :
  0 <= i -> 0 <= n -> i + n <= Z.of_nat (length a) ->
  exists l, arr_read a i n = Some l /\ Z.of_nat (length l) = n /\
    forall j, 0 <= j < n -> arr_get l j = arr_get a (i + j).
Proof.
  intros Hi Hn Hb. unfold arr_read. rewrite (proj2 (Z.leb_le 0 i) Hi), (proj2 (Z.leb_le 0 n) Hn), (proj2 (Z.leb_le _ _) Hb).
  eexists. split; [reflexivity|]. split; [rewrite length_take, length_drop; lia|].
  intros j Hj. unfold arr_get. destruct (Z.ltb_spec j 0), (Z.ltb_spec (i + j) 0); try lia.
  rewrite lookup_take_lt, lookup_drop by lia. f_equal. lia.
Qed.

Lemma arr_write_spec {A} (a l : list A) i :
  0 <= i -> i + Z.of_nat (length l) <= Z.of_nat (length a) ->
  exists b, arr_write a i l = Some b /\ length b = length a /\
    forall j, arr_get b j = if (i <=? j) && (j <? i + Z.of_nat (length l)) then arr_get l (j - i) else arr_get a j.
Proof.
  intros Hi Hb. unfold arr_write. rewrite (proj2 (Z.leb_le 0 i) Hi), (proj2 (Z.leb_le _ _) Hb).
  eexists. split; [reflexivity|]. split; [rewrite !length_app, length_take, length_drop; lia|].
  intros j. unfold arr_get. destruct (Z.ltb_spec j 0); [destruct (Z.leb_spec i j); [lia | done]|].
  destruct (Z.leb_spec i j); simpl.
  - rewrite lookup_app_r by (rewrite length_take; lia). rewrite length_take.
    destruct (Z.ltb_spec j (i + Z.of_nat (length l))), (Z.ltb_spec (j - i) 0); try lia.
    + rewrite lookup_app_l by lia. f_equal. lia.
    + rewrite lookup_app_r, lookup_drop by lia. f_equal. lia.
  - rewrite lookup_app_l by (rewrite length_take; lia). apply lookup_take_lt. lia.
Qed.

(** ** Automation *)

Create HintDb resea.
#[export] Hint Resolve u64_small u32_small s32_small : resea.

Ltac deex :=
  repeat match goal with
  | H : exists _, _ |- _ => destruct H as [? H]
  | H : _ /\ _ |- _ => destruct H
  end.

(** Split a successful run of a sequence of statements into its steps. *)
Ltac mstep H :=
  let a := fresh "a" in let s := fresh "s" in let H1 := fresh "Hrun" in
  apply bind_done in H; destruct H as (a & s & H1 & H).

(** Replace goals on Boolean comparisons of integers by propositions. *)
Ltac zbool :=
  repeat match goal with
  | H : (_ =? _) = true |- _ => apply Z.eqb_eq in H
  | H : (_ =? _) = false |- _ => apply Z.eqb_neq in H
  | H : (_ <? _) = true |- _ => apply Z.ltb_lt in H
  | H : (_ <? _) = false |- _ => apply Z.ltb_ge in H
  | H : (_ <=? _) = true |- _ => apply Z.leb_le in H
  | H : (_ <=? _) = false |- _ => apply Z.leb_gt in H
  | H : negb _ = true |- _ => apply negb_true_iff in H
  | H : negb _ = false |- _ => apply negb_false_iff in H
  | H : (_ && _)%bool = true |- _ => apply andb_true_iff in H; destruct H
  | H : (_ || _)%bool = false |- _ => apply orb_false_iff in H; destruct H
  end.
