(* ===== verification/ListHead.v ===== *)
(** * Intrusive doubly linked lists

    The circular lists of [libs/libcommon/include/list.h], which every queue of
    the kernel and of the page allocator is built from.  The nodes live in a
    store of [struct list_head]; the operations are the pointer updates of the
    header file.  [dll s h l] says that the list head [h] owns the nodes [l], in
    order.  The last part proves that a store with any number of lists refines a
    map from list heads to plain sequences, which is how the other files of this
    development represent the queues of the kernel. *)
From S2P Require Import Prelude.

(** [struct list_head]. *)
Record list_head := ListHead { prev : Z; next : Z }.

Definition INVALID_POINTER : Z := 0xdeaddead.
Definition NULL : Z := 0.

(** Allocated nodes; an access to any other address is undefined. *)
Abbreviation store := (gmap Z list_head).

Module ListH.

Definition load (p : Z) : M store list_head := fun s => need (s !! p) s.

Definition set_prev (p v : Z) : M store unit :=
  n <- load p ;; modify (<[p := ListHead v (next n)]>).

Definition set_next (p v : Z) : M store unit :=
  n <- load p ;; modify (<[p := ListHead (prev n) v]>).

Definition list_is_empty (l : Z) : M store bool :=
  n <- load l ;; ret (next n =? l).

Definition list_insert (prev next new : Z) : M store unit :=
  set_prev new prev ;;;
  set_next new next ;;;
  set_prev next new ;;;
  set_next prev new.

Definition list_init (l : Z) : M store unit :=
  set_prev l l ;;;
  set_next l l.

Definition list_remove (to_remove : Z) : M store unit :=
  n1 <- load to_remove ;;
  set_next (prev n1) (next n1) ;;;
  n2 <- load to_remove ;;
  set_prev (next n2) (prev n2) ;;;
  set_next to_remove INVALID_POINTER ;;;
  set_prev to_remove INVALID_POINTER.

Definition list_push_back (l new_tail : Z) : M store unit :=
  n <- load l ;; list_insert (prev n) l new_tail.

Definition list_pop_front (l : Z) : M store Z :=
  n <- load l ;;
  let head := next n in
  if head =? l then ret NULL
  else
    h <- load head ;;
    let nxt := next h in
    set_next l nxt ;;;
    set_prev nxt l ;;;
    ret head.

(** [LIST_FOR_EACH(elem, list, ...)] from [elem] on; the result is the sequence
    of nodes the body ran on.  The successor is read before the body runs. *)
Fixpoint LIST_FOR_EACH (fuel : nat) (l : Z) (body : Z -> M store unit) (elem : Z)
    : M store (list Z) :=
  match fuel with
  | O => no_fuel
  | S fuel =>
      if elem =? l then ret []
      else
        n <- load elem ;;
        body elem ;;;
        rest <- LIST_FOR_EACH fuel l body (next n) ;;
        ret (elem :: rest)
  end.

Definition list_for_each (fuel : nat) (l : Z) (body : Z -> M store unit) : M store (list Z) :=
  n <- load l ;; LIST_FOR_EACH fuel l body (next n).

End ListH.
Import ListH.

(** ** The list predicate *)

Definition next_of (s : store) (p : Z) : option Z := next <$> s !! p.
Definition prev_of (s : store) (p : Z) : option Z := prev <$> s !! p.

(** [b] follows [a]. *)
Definition link (s : store) (a b : Z) : Prop := next_of s a = Some b /\ prev_of s b = Some a.

(** The nodes [l] lie between [a] and [b]. *)
Fixpoint chain (s : store) (a : Z) (l : list Z) (b : Z) : Prop :=
  match l with
  | [] => link s a b
  | x :: l' => link s a x /\ chain s x l' b
  end.

Definition dll (s : store) (h : Z) (l : list Z) : Prop := NoDup (h :: l) /\ chain s h l h.

Lemma chain_app s a l1 x l2 b :
  chain s a (l1 ++ x :: l2) b <-> chain s a l1 x /\ chain s x l2 b.
Proof.
  revert a. induction l1 as [|y l1 IH]; intros a; simpl; [tauto|]. rewrite IH. tauto.
Qed.

Lemma chain_frame s s' a l b :
  (forall x, x ∈ a :: l -> next_of s' x = next_of s x) ->
  (forall x, x ∈ l ++ [b] -> prev_of s' x = prev_of s x) ->
  chain s a l b -> chain s' a l b.
Proof.
  revert a. induction l as [|y l IH]; intros a Hn Hp; simpl; unfold link.
  - rewrite Hn, Hp by set_solver. tauto.
  - rewrite (Hn a), (Hp y) by set_solver. intros [Hl Hc]. split; [exact Hl|].
    apply IH; [| | exact Hc]; intros; [apply Hn | apply Hp]; set_solver.
Qed.

Lemma chain_next s a l b x : x ∈ a :: l -> chain s a l b -> is_Some (s !! x).
Proof.
  revert a. induction l as [|y l IH]; intros a Hx; simpl; unfold link, next_of.
  - apply list_elem_of_singleton in Hx as ->. destruct (s !! a); naive_solver.
  - intros [[Ha _] Hc]. apply elem_of_cons in Hx as [->|Hx]; [destruct (s !! a); naive_solver|].
    eauto.
Qed.

Lemma dll_alloc s h l x : dll s h l -> x ∈ h :: l -> is_Some (s !! x).
Proof. intros [_ Hc] Hx. eapply chain_next; eauto. Qed.

Lemma dll_frame s s' h l :
  (forall x, x ∈ h :: l -> s' !! x = s !! x) -> dll s h l -> dll s' h l.
Proof.
  intros H [Hnd Hc]. split; [exact Hnd|].
  apply (chain_frame s); [| |exact Hc]; intros x Hx; unfold next_of, prev_of; rewrite H; auto.
  set_solver.
Qed.

Lemma dll_next s h l : dll s h l -> next_of s h = Some (hd h l).
Proof. intros [_ Hc]. destruct l; simpl in *; unfold link in *; tauto. Qed.

Lemma dll_prev s h l : dll s h l -> prev_of s h = Some (List.last l h).
Proof.
  intros [_ Hc]. destruct l as [|t l _] using rev_ind; [apply Hc|].
  rewrite List.last_last. apply chain_app in Hc as [_ [_ H]]. exact H.
Qed.

(** ** Field updates *)

Lemma load_ok s p : is_Some (s !! p) -> exists n, load p s = Done (n, s) /\
  next_of s p = Some (next n) /\ prev_of s p = Some (prev n).
Proof.
  intros [n H]. exists n. unfold load, need, next_of, prev_of. rewrite H. auto.
Qed.

Lemma load_next s p v : next_of s p = Some v ->
  exists n, load p s = Done (n, s) /\ next n = v.
Proof.
  unfold next_of, load, need. destruct (s !! p) as [n|]; simpl; [|discriminate].
  intros [= <-]. eauto.
Qed.

Lemma load_prev s p v : prev_of s p = Some v ->
  exists n, load p s = Done (n, s) /\ prev n = v.
Proof.
  unfold prev_of, load, need. destruct (s !! p) as [n|]; simpl; [|discriminate].
  intros [= <-]. eauto.
Qed.

(** What a pointer update does to the two link functions of the store. *)
Definition writes (s s' : store) (fn fp : Z -> option (option Z)) : Prop :=
  dom s' = dom s /\
  (forall x, next_of s' x = default (next_of s x) (fn x)) /\
  (forall x, prev_of s' x = default (prev_of s x) (fp x)).

Definition at_ (p : Z) (v : Z) (x : Z) : option (option Z) :=
  if decide (x = p) then Some (Some v) else None.
Definition nowhere (x : Z) : option (option Z) := None.

Lemma set_next_ok s p v : is_Some (s !! p) ->
  exists s', set_next p v s = Done (tt, s') /\ writes s s' (at_ p v) nowhere.
Proof.
  intros [n H]. eexists. split.
  - unfold set_next, bind, load, need. rewrite H. reflexivity.
  - split; [rewrite dom_insert_L; apply elem_of_dom_2 in H; set_solver|].
    unfold next_of, prev_of, at_, nowhere.
    split; intros x; rewrite lookup_insert; repeat case_decide; subst; simpl; try done.
    rewrite H. reflexivity.
Qed.

Lemma set_prev_ok s p v : is_Some (s !! p) ->
  exists s', set_prev p v s = Done (tt, s') /\ writes s s' nowhere (at_ p v).
Proof.
  intros [n H]. eexists. split.
  - unfold set_prev, bind, load, need. rewrite H. reflexivity.
  - split; [rewrite dom_insert_L; apply elem_of_dom_2 in H; set_solver|].
    unfold next_of, prev_of, at_, nowhere.
    split; intros x; rewrite lookup_insert; repeat case_decide; subst; simpl; try done.
    rewrite H. reflexivity.
Qed.

(** Later writes win. *)
Definition then_ (f g : Z -> option (option Z)) (x : Z) : option (option Z) :=
  match g x with Some v => Some v | None => f x end.

Lemma writes_trans s s' s'' fn fp gn gp :
  writes s s' fn fp -> writes s' s'' gn gp -> writes s s'' (then_ fn gn) (then_ fp gp).
Proof.
  intros (D1 & N1 & P1) (D2 & N2 & P2). unfold writes, then_.
  split; [congruence|].
  split; intros x; rewrite ?N2, ?P2, ?N1, ?P1; [destruct (gn x) | destruct (gp x)]; done.
Qed.

Lemma writes_alloc s s' fn fp x : writes s s' fn fp -> is_Some (s !! x) -> is_Some (s' !! x).
Proof. intros (D & _) H. apply elem_of_dom. rewrite D. by apply elem_of_dom. Qed.

Lemma list_insert_ok s p n new :
  is_Some (s !! p) -> is_Some (s !! n) -> is_Some (s !! new) ->
  exists s', list_insert p n new s = Done (tt, s') /\
    writes s s' (then_ (at_ new n) (at_ p new)) (then_ (at_ new p) (at_ n new)).
Proof.
  intros Hp Hn Hw. unfold list_insert, bind.
  destruct (set_prev_ok s new p Hw) as (s1 & -> & W1).
  destruct (set_next_ok s1 new n) as (s2 & -> & W2); [by eapply writes_alloc|].
  pose proof (writes_trans _ _ _ _ _ _ _ W1 W2) as W12.
  destruct (set_prev_ok s2 n new) as (s3 & -> & W3); [by eapply writes_alloc|].
  pose proof (writes_trans _ _ _ _ _ _ _ W12 W3) as W13.
  destruct (set_next_ok s3 p new) as (s4 & -> & W4); [by eapply writes_alloc|].
  exists s4. split; [done|].
  destruct (writes_trans _ _ _ _ _ _ _ W13 W4) as (D & N & P).
  split; [exact D|].
  split; intros x; rewrite ?N, ?P; unfold then_, at_, nowhere; repeat case_decide; done.
Qed.

Lemma list_remove_ok s a x b :
  is_Some (s !! a) -> is_Some (s !! b) -> prev_of s x = Some a -> next_of s x = Some b -> a <> x ->
  exists s', list_remove x s = Done (tt, s') /\
    writes s s' (then_ (at_ a b) (at_ x INVALID_POINTER))
                (then_ (at_ b a) (at_ x INVALID_POINTER)).
Proof.
  intros Ha Hb Hp Hn Hne.
  assert (Hx : is_Some (s !! x)) by (unfold next_of in Hn; destruct (s !! x); naive_solver).
  destruct (load_ok s x Hx) as (n1 & L1 & N1 & P1).
  unfold list_remove, bind. rewrite L1.
  replace (prev n1) with a by congruence. replace (next n1) with b by congruence.
  destruct (set_next_ok s a b Ha) as (s1 & -> & W1).
  destruct (load_ok s1 x) as (n2 & L2 & N2 & P2); [by eapply writes_alloc|]. rewrite L2.
  replace (next n2) with b.
  2: { destruct W1 as (_ & E & _). rewrite E in N2. unfold at_ in N2.
       case_decide; simpl in *; congruence. }
  replace (prev n2) with a.
  2: { destruct W1 as (_ & _ & E). rewrite E in P2. unfold nowhere in P2. simpl in *. congruence. }
  destruct (set_prev_ok s1 b a) as (s2 & -> & W2); [by eapply writes_alloc|].
  pose proof (writes_trans _ _ _ _ _ _ _ W1 W2) as W12.
  destruct (set_next_ok s2 x INVALID_POINTER) as (s3 & -> & W3); [by eapply writes_alloc|].
  pose proof (writes_trans _ _ _ _ _ _ _ W12 W3) as W13.
  destruct (set_prev_ok s3 x INVALID_POINTER) as (s4 & -> & W4); [by eapply writes_alloc|].
  exists s4. split; [done|].
  destruct (writes_trans _ _ _ _ _ _ _ W13 W4) as (D & N & P).
  split; [exact D|].
  split; intros y; rewrite ?N, ?P; unfold then_, at_, nowhere; repeat case_decide; done.
Qed.

Lemma writes_frame s s' fn fp x :
  writes s s' fn fp -> fn x = None -> fp x = None -> s' !! x = s !! x.
Proof.
  intros (D & N & P) Hn Hp. specialize (N x). specialize (P x). rewrite Hn in N. rewrite Hp in P.
  unfold next_of, prev_of in *. simpl in *.
  assert (Hd : x ∈ dom s' <-> x ∈ dom s) by (rewrite D; done).
  rewrite !elem_of_dom in Hd.
  destruct (s' !! x) as [[]|], (s !! x) as [[]|]; simpl in *; try naive_solver.
Qed.

Lemma writes_next s s' fn fp x v : writes s s' fn fp -> fn x = Some v -> next_of s' x = v.
Proof. intros (_ & N & _) H. rewrite N, H. done. Qed.

Lemma writes_prev s s' fn fp x v : writes s s' fn fp -> fp x = Some v -> prev_of s' x = v.
Proof. intros (_ & _ & P) H. rewrite P, H. done. Qed.

(** Evaluate the effect functions at a node that is known to differ from, or to
    equal, the nodes written. *)
Ltac at_solve :=
  unfold then_, at_, nowhere; repeat case_decide; subst; try done; try congruence; exfalso; set_solver.

(** ** Effect of the operations on a list *)

Lemma init_dll s h : is_Some (s !! h) ->
  exists s', list_init h s = Done (tt, s') /\ dll s' h [] /\ dom s' = dom s /\
    forall x, x <> h -> s' !! x = s !! x.
Proof.
  intros Hh. unfold list_init, bind.
  destruct (set_prev_ok s h h Hh) as (s1 & -> & W1).
  destruct (set_next_ok s1 h h) as (s2 & -> & W2); [by eapply writes_alloc|].
  pose proof (writes_trans _ _ _ _ _ _ _ W1 W2) as W.
  exists s2. split; [done|]. split; [|split].
  - split; [apply NoDup_singleton|]. split;
      [eapply writes_next | eapply writes_prev]; try exact W; at_solve.
  - apply W.
  - intros x Hx. eapply writes_frame; [exact W | |]; at_solve.
Qed.

Lemma push_back_dll s h l n :
  dll s h l -> is_Some (s !! n) -> n ∉ h :: l ->
  exists s', list_push_back h n s = Done (tt, s') /\ dll s' h (l ++ [n]) /\ dom s' = dom s /\
    forall x, x ∉ h :: n :: l -> s' !! x = s !! x.
Proof.
  intros Hd Hn Hin. pose proof (dll_prev _ _ _ Hd) as Hp.
  destruct (load_prev _ _ _ Hp) as (nd & L & E).
  set (t := List.last l h) in *.
  assert (Ht : t ∈ h :: l).
  { subst t. destruct l as [|y l _] using rev_ind; simpl; [set_solver|].
    rewrite List.last_last. set_solver. }
  unfold list_push_back, bind. rewrite L, E.
  destruct (list_insert_ok s t h n) as (s' & -> & W);
    [by eapply dll_alloc | eapply dll_alloc; [exact Hd | set_solver] | done |].
  exists s'. split; [done|]. split; [|split; [apply W|]].
  2: { intros x Hx. eapply writes_frame; [exact W | |]; at_solve. }
  destruct Hd as [Hnd Hc]. split.
  { apply NoDup_cons in Hnd as [Hh Hl]. apply NoDup_cons. split; [set_solver|].
    apply NoDup_app. split_and!; [done | set_solver | apply NoDup_singleton]. }
  destruct l as [|y l _] using rev_ind; simpl in *; subst t.
  - repeat split; first [eapply writes_next | eapply writes_prev]; try exact W; at_solve.
  - rewrite List.last_last in *. rewrite <- app_assoc. simpl.
    apply chain_app in Hc as [Hc1 Hc2].
    apply NoDup_cons in Hnd as [Hh Hl]. apply NoDup_app in Hl as (_ & Hdisj & _).
    apply chain_app. split.
    + eapply chain_frame; [| |exact Hc1]; intros x Hx;
        unfold next_of, prev_of; destruct W as (_ & N & P);
        fold (next_of s' x) (prev_of s' x) (next_of s x) (prev_of s x);
        rewrite ?N, ?P; at_solve.
    + simpl. repeat split; first [eapply writes_next | eapply writes_prev]; try exact W; at_solve.
Qed.

(** The neighbours of an element. *)
Lemma dll_neighbours s h l1 x l2 :
  dll s h (l1 ++ x :: l2) ->
  prev_of s x = Some (List.last l1 h) /\ next_of s x = Some (hd h l2).
Proof.
  intros [_ Hc]. apply chain_app in Hc as [H1 H2]. split.
  - destruct l1 as [|y l1 _] using rev_ind; [apply H1|].
    rewrite List.last_last. apply chain_app in H1 as [_ [_ H1]]. exact H1.
  - destruct l2; simpl in H2; unfold link in H2; simpl; tauto.
Qed.

Lemma last_in (l : list Z) d : List.last l d ∈ d :: l.
Proof.
  destruct l as [|y l _] using rev_ind; simpl; [set_solver|]. rewrite List.last_last. set_solver.
Qed.

Lemma hd_in (l : list Z) d : hd d l ∈ d :: l.
Proof. destruct l; simpl; set_solver. Qed.

Lemma at_eq p v : at_ p v p = Some (Some v).
Proof. unfold at_. by rewrite decide_True. Qed.

Lemma at_ne p v x : x <> p -> at_ p v x = None.
Proof. intros. unfold at_. by rewrite decide_False. Qed.

Lemma then_none f g x : g x = None -> then_ f g x = f x.
Proof. unfold then_. by intros ->. Qed.

(** Joining two chains by one link. *)
Lemma chain_join s s' h l1 x l2 fn fp :
  NoDup (h :: l1 ++ x :: l2) -> chain s h (l1 ++ x :: l2) h ->
  writes s s' (then_ (at_ (List.last l1 h) (hd h l2)) fn) (then_ (at_ (hd h l2) (List.last l1 h)) fp) ->
  (forall y, y <> x -> fn y = None) -> (forall y, y <> x -> fp y = None) ->
  chain s' h (l1 ++ l2) h.
Proof.
  intros Hnd Hc W Hfn Hfp. pose proof W as (_ & N & P).
  assert (Hnd' : NoDup (l1 ++ x :: l2) /\ h ∉ l1 ++ x :: l2) by (apply NoDup_cons in Hnd; tauto).
  destruct Hnd' as [Hnd' Hh]. apply NoDup_app in Hnd' as (Hl1 & Hdj & Hl2).
  apply NoDup_cons in Hl2 as [Hx2 Hl2].
  assert (Hx : forall y, y ∈ h :: l1 ++ l2 -> y <> x).
  { intros y Hy ->. apply elem_of_cons in Hy as [->|Hy]; [set_solver|].
    apply elem_of_app in Hy as [Hy|Hy]; [|done]. apply (Hdj x Hy). set_solver. }
  assert (Hlast : List.last l1 h ∈ h :: l1 ++ l2) by (pose proof (last_in l1 h); set_solver).
  assert (Hhd : hd h l2 ∈ h :: l1 ++ l2) by (pose proof (hd_in l2 h); set_solver).
  assert (Nn : forall y, y ∈ h :: l1 ++ l2 -> y <> List.last l1 h -> next_of s' y = next_of s y).
  { intros y Hy Hne. rewrite N, then_none, at_ne by auto. done. }
  assert (Pn : forall y, y ∈ h :: l1 ++ l2 -> y <> hd h l2 -> prev_of s' y = prev_of s y).
  { intros y Hy Hne. rewrite P, then_none, at_ne by auto. done. }
  assert (Hlink : link s' (List.last l1 h) (hd h l2)).
  { split; [rewrite N | rewrite P]; rewrite then_none, at_eq by auto; done. }
  clear N P W Hfn Hfp Hlast Hhd.
  apply chain_app in Hc as [H1 H2].
  assert (Hsuf : match l2 with [] => True | y :: l => chain s' y l h end).
  { destruct l2 as [|y l]; [done|]. destruct H2 as [_ H2]. apply NoDup_cons in Hl2 as [Hy _].
    eapply chain_frame; [| |exact H2]; intros z Hz.
    - apply Nn; [set_solver|]. intros ->. pose proof (last_in l1 h) as Hla.
      apply elem_of_cons in Hla as [Hla|Hla]; [rewrite Hla in Hz; set_solver|].
      apply (Hdj _ Hla). set_solver.
    - apply Pn; [set_solver|]. simpl. intros ->. set_solver. }
  destruct l1 as [|t l1 _] using rev_ind; simpl in *.
  - destruct l2; simpl in *; auto.
  - rewrite List.last_last in *. apply chain_app in H1 as [H1 _].
    apply NoDup_app in Hl1 as (_ & Ht & _).
    rewrite <- app_assoc. simpl. apply chain_app. split.
    + eapply chain_frame; [| |exact H1]; intros z Hz.
      * apply Nn; [set_solver|]. intros ->. set_solver.
      * apply Pn; [set_solver|]. intros ->. pose proof (hd_in l2 h) as Hla.
        apply elem_of_cons in Hla as [Hla|Hla]; [rewrite Hla in Hz; set_solver|].
        eapply (Hdj (hd h l2)); set_solver.
    + destruct l2; simpl in *; auto.
Qed.

Lemma NoDup_drop_mid (h : Z) l1 x l2 : NoDup (h :: l1 ++ x :: l2) -> NoDup (h :: l1 ++ l2).
Proof.
  rewrite !NoDup_cons, !NoDup_app, NoDup_cons. intros (H1 & H2 & H3 & _ & H4).
  split; [set_solver|]. split; [done|]. split; [|done].
  intros y Hy Hy'. apply (H3 y Hy). set_solver.
Qed.

Lemma remove_dll s h l1 x l2 :
  dll s h (l1 ++ x :: l2) ->
  exists s', list_remove x s = Done (tt, s') /\ dll s' h (l1 ++ l2) /\ dom s' = dom s /\
    forall y, y ∉ h :: l1 ++ x :: l2 -> s' !! y = s !! y.
Proof.
  intros Hd. destruct (dll_neighbours _ _ _ _ _ Hd) as [Hp Hn].
  pose proof (last_in l1 h). pose proof (hd_in l2 h).
  assert (Hne : List.last l1 h <> x).
  { destruct Hd as [Hnd _]. apply NoDup_cons in Hnd as [Hh Hl].
    apply NoDup_app in Hl as (_ & Hdj & _). set_solver. }
  destruct (list_remove_ok s (List.last l1 h) x (hd h l2)) as (s' & E & W);
    [eapply dll_alloc; [exact Hd|set_solver] | eapply dll_alloc; [exact Hd|set_solver] | done.. |].
  exists s'. split; [done|]. split; [|split; [apply W|]].
  - destruct Hd as [Hnd Hc]. split; [by eapply NoDup_drop_mid|].
    eapply chain_join; [exact Hnd | exact Hc | exact W | |]; intros y Hy; at_solve.
  - intros y Hy. eapply writes_frame; [exact W | |]; at_solve.
Qed.

Lemma pop_front_dll s h x l :
  dll s h (x :: l) ->
  exists s', list_pop_front h s = Done (x, s') /\ dll s' h l /\ dom s' = dom s /\
    forall y, y ∉ h :: x :: l -> s' !! y = s !! y.
Proof.
  intros Hd. pose proof (dll_next _ _ _ Hd) as Hh.
  destruct (dll_neighbours s h [] x l Hd) as [_ Hn]. simpl in *.
  pose proof (hd_in l h) as Hin.
  assert (Hxh : x <> h) by (destruct Hd as [Hnd _]; apply NoDup_cons in Hnd; set_solver).
  destruct (load_next _ _ _ Hh) as (n1 & L1 & E1).
  destruct (load_next _ _ _ Hn) as (n2 & L2 & E2).
  unfold list_pop_front, bind. rewrite L1, E1.
  destruct (Z.eqb_spec x h); [done|]. rewrite L2, E2.
  destruct (set_next_ok s h (hd h l)) as (s1 & -> & W1);
    [eapply dll_alloc; [exact Hd | set_solver]|].
  destruct (set_prev_ok s1 (hd h l) h) as (s2 & -> & W2).
  { eapply writes_alloc; [exact W1|]. eapply dll_alloc; [exact Hd | set_solver]. }
  assert (W : writes s s2 (then_ (at_ h (hd h l)) nowhere) (then_ (at_ (hd h l) h) nowhere)).
  { destruct (writes_trans _ _ _ _ _ _ _ W1 W2) as (D & N & P). split; [exact D|].
    split; intros y; rewrite ?N, ?P; unfold then_, at_, nowhere; repeat case_decide; done. }
  exists s2. split; [done|]. split; [|split; [apply W|]].
  - destruct Hd as [Hnd Hc]. split; [by apply (NoDup_drop_mid h [] x l)|].
    apply (chain_join s s2 h [] x l nowhere nowhere); [exact Hnd | exact Hc | exact W | |]; done.
  - intros y Hy. eapply writes_frame; [exact W | |]; at_solve.
Qed.

Lemma pop_front_nil s h : dll s h [] -> list_pop_front h s = Done (NULL, s).
Proof.
  intros Hd. destruct (load_next _ _ _ (dll_next _ _ _ Hd)) as (n & L & E). simpl in E.
  unfold list_pop_front, bind. rewrite L, E, Z.eqb_refl. reflexivity.
Qed.

Lemma is_empty_dll s h l : dll s h l -> list_is_empty h s = Done (bool_decide (l = []), s).
Proof.
  intros Hd. destruct (load_next _ _ _ (dll_next _ _ _ Hd)) as (n & L & E).
  unfold list_is_empty, bind. rewrite L, E. unfold ret. f_equal. f_equal.
  destruct l as [|x l]; simpl; [rewrite Z.eqb_refl; done|].
  destruct Hd as [Hnd _]. apply NoDup_cons in Hnd as [Hh _].
  destruct (Z.eqb_spec x h); [set_solver | done].
Qed.

(** ** Iteration *)

(** A loop body that leaves the other elements of the list alone: it may remove
    the element it is called on, nothing else. *)
Definition well_behaved (h : Z) (body : Z -> M store unit) : Prop :=
  forall s l1 x l2, dll s h (l1 ++ x :: l2) ->
    exists s', body x s = Done (tt, s') /\ (dll s' h (l1 ++ x :: l2) \/ dll s' h (l1 ++ l2)).

Lemma for_each_from h body : well_behaved h body ->
  forall rest fuel s l1, (length rest < fuel)%nat -> dll s h (l1 ++ rest) ->
  exists s' l', LIST_FOR_EACH fuel h body (hd h rest) s = Done (rest, s') /\
    dll s' h (l1 ++ l') /\ sublist l' rest.
Proof.
  intros Hb. induction rest as [|x rest IH]; intros fuel s l1 Hf Hd;
    (destruct fuel as [|fuel]; [simpl in Hf; lia|]); simpl.
  - rewrite Z.eqb_refl. exists s, []. auto.
  - destruct (Z.eqb_spec x h) as [->|Hne].
    { destruct Hd as [Hnd _]. apply NoDup_cons in Hnd as [Hh _]. set_solver. }
    destruct (dll_neighbours _ _ _ _ _ Hd) as [_ Hn].
    destruct (load_next _ _ _ Hn) as (n & L & E). unfold bind at 1. rewrite L.
    destruct (Hb _ _ _ _ Hd) as (s1 & E1 & Hd1). unfold bind at 1. rewrite E1, E.
    simpl in Hf.
    destruct Hd1 as [Hd1|Hd1].
    + destruct (IH fuel s1 (l1 ++ [x])) as (s2 & l' & E2 & Hd2 & Hs);
        [lia | by rewrite <- app_assoc|].
      exists s2, (x :: l'). unfold bind. rewrite E2. rewrite <- app_assoc in Hd2.
      split; [done|]. split; [done | by constructor].
    + destruct (IH fuel s1 l1) as (s2 & l' & E2 & Hd2 & Hs); [lia | done|].
      exists s2, l'. unfold bind. rewrite E2. split; [done|]. split; [done | by constructor].
Qed.

(** [LIST_FOR_EACH] runs its body on every element of the list exactly once
    and in order, and ends, also when the body removes the element it runs on
    (the way [timer_interrupt_handler] and [process_destroy] use it): a fuel
    larger than the length of the list is enough, and what is left is a
    sublist. *)
Theorem for_each_visits_all (s : store) (h : Z) (l : list Z) (body : Z -> M store unit)
    (fuel : nat) (Hd : dll s h l) (Hb : well_behaved h body) (Hf : (length l < fuel)%nat) :
  exists s' l', list_for_each fuel h body s = Done (l, s') /\ dll s' h l' /\ sublist l' l.
Proof.
  destruct (load_next _ _ _ (dll_next _ _ _ Hd)) as (n & L & E).
  destruct (for_each_from h body Hb l fuel s [] Hf Hd) as (s' & l' & H1 & H2 & H3).
  exists s', l'. unfold list_for_each, bind at 1. rewrite L, E. auto.
Qed.

(** ** Refinement: a store of lists implements a map of sequences *)

Abbreviation queues := (gmap Z (list Z)).

Inductive queue_op :=
| QInit (h : Z)
| QEmpty (h : Z)
| QPush (h n : Z)
| QPop (h : Z)
| QRemove (n : Z).

(** The node [n] is the head or an element of some list. *)
Definition in_use (A : queues) (n : Z) : bool :=
  existsb (fun p : Z * list Z => bool_decide (n ∈ p.1 :: p.2)) (map_to_list A).

Definition is_element (A : queues) (n : Z) : bool :=
  existsb (fun p : Z * list Z => bool_decide (n ∈ p.2)) (map_to_list A).

(** The specification: what an operation does to the sequences, when the caller
    respects the discipline of intrusive lists (a node is in one list at most,
    only linked nodes are removed).  [D] is the set of allocated nodes. *)
Definition queue_spec (D : gset Z) (op : queue_op) (A : queues) : option (Z * queues) :=
  match op with
  | QInit h =>
      if bool_decide (h ∈ D) && negb (is_element A h) then Some (0, <[h := []]> A) else None
  | QEmpty h => l ← A !! h; Some (if bool_decide (l = []) then 1 else 0, A)
  | QPush h n =>
      l ← A !! h;
      if bool_decide (n ∈ D) && negb (in_use A n) then Some (0, <[h := l ++ [n]]> A) else None
  | QPop h =>
      l ← A !! h;
      Some (match l with [] => (NULL, A) | x :: l' => (x, <[h := l']> A) end)
  | QRemove n =>
      if is_element A n then Some (0, (fun l => filter (fun y => y <> n) l) <$> A) else None
  end.

(** The implementation. *)
Definition queue_impl (op : queue_op) : M store Z :=
  match op with
  | QInit h => list_init h ;;; ret 0
  | QEmpty h => b <- list_is_empty h ;; ret (if b : bool then 1 else 0)
  | QPush h n => list_push_back h n ;;; ret 0
  | QPop h => list_pop_front h
  | QRemove n => list_remove n ;;; ret 0
  end.

(** The store [s] holds exactly the lists of [A], on disjoint nodes. *)
Definition represents (s : store) (A : queues) : Prop :=
  (forall h l, A !! h = Some l -> dll s h l) /\
  (forall h h' l l', h <> h' -> A !! h = Some l -> A !! h' = Some l' -> (h :: l) ## (h' :: l')).

Lemma in_use_false A n h l : in_use A n = false -> A !! h = Some l -> n ∉ h :: l.
Proof.
  intros H Hl. unfold in_use in H.
  intros Hin. apply not_true_iff_false in H. apply H.
  apply existsb_exists. exists (h, l). split; [|by apply bool_decide_eq_true].
  apply list_elem_of_In, elem_of_map_to_list. done.
Qed.

Lemma is_element_false A n h l : is_element A n = false -> A !! h = Some l -> n ∉ l.
Proof.
  intros H Hl Hin. apply not_true_iff_false in H. apply H.
  unfold is_element. apply existsb_exists. exists (h, l). split; [|by apply bool_decide_eq_true].
  apply list_elem_of_In, elem_of_map_to_list. done.
Qed.

Lemma is_element_true A n : is_element A n = true -> exists h l, A !! h = Some l /\ n ∈ l.
Proof.
  unfold is_element. intros H. apply existsb_exists in H as ((h & l) & Hin & Hb).
  apply list_elem_of_In, elem_of_map_to_list in Hin. apply bool_decide_eq_true in Hb. eauto.
Qed.

(** Changing one list only. *)
Lemma represents_update s s' A h l0 l' :
  represents s A -> dll s' h l' ->
  (forall x, x ∉ h :: l0 ++ l' -> s' !! x = s !! x) ->
  (forall h' l2, h' <> h -> A !! h' = Some l2 -> (h :: l0 ++ l') ## (h' :: l2)) ->
  represents s' (<[h := l']> A).
Proof.
  intros [Hd Hdj] Hd' Hfr Hsep. split.
  - intros h2 l2 H2. apply lookup_insert_Some in H2 as [[<- <-]|[Hne H2]]; [done|].
    eapply dll_frame; [|by apply Hd]. intros x Hx. apply Hfr.
    intros Hx'. eapply (Hsep h2 l2); eauto.
  - intros h2 h3 l2 l3 Hne H2 H3.
    apply lookup_insert_Some in H2 as [[<- <-]|[Hne2 H2]];
    apply lookup_insert_Some in H3 as [[<- <-]|[Hne3 H3]]; try done.
    + specialize (Hsep h3 l3). set_solver.
    + specialize (Hsep h2 l2). set_solver.
    + eapply Hdj; eauto.
Qed.

Lemma represents_sep s A h l h' l2 :
  represents s A -> A !! h = Some l -> h' <> h -> A !! h' = Some l2 -> (h :: l) ## (h' :: l2).
Proof. intros [_ Hdj] H Hne H'. eapply Hdj; eauto. Qed.

Lemma filter_ne_notin (l : list Z) n : n ∉ l -> filter (fun y => y <> n) l = l.
Proof.
  induction l as [|x l IH]; intros H; [done|].
  rewrite filter_cons_True by set_solver. f_equal. apply IH. set_solver.
Qed.

Lemma filter_ne_mid (l1 l2 : list Z) n :
  n ∉ l1 -> n ∉ l2 -> filter (fun y => y <> n) (l1 ++ n :: l2) = l1 ++ l2.
Proof.
  intros H1 H2. rewrite filter_app, filter_cons_False by tauto.
  by rewrite !filter_ne_notin.
Qed.

(** Removing a node from the list that holds it leaves the other lists as they
    are. *)
Lemma filter_all_insert s A h l1 n l2 :
  represents s A -> A !! h = Some (l1 ++ n :: l2) ->
  (fun l => filter (fun y => y <> n) l) <$> A = <[h := l1 ++ l2]> A.
Proof.
  intros HR Hl. apply map_eq. intros h'. rewrite lookup_fmap, lookup_insert. case_decide as He.
  - subst h'. rewrite Hl. simpl. f_equal.
    destruct HR as [Hd _]. destruct (Hd _ _ Hl) as [Hnd _].
    apply NoDup_cons in Hnd as [_ Hnd]. apply NoDup_app in Hnd as (_ & Hdj & Hn2).
    apply NoDup_cons in Hn2 as [Hn2 _]. apply filter_ne_mid; [|done].
    intros Hin. apply (Hdj n Hin). set_solver.
  - destruct (A !! h') as [l'|] eqn:Hl'; simpl; [|done]. f_equal.
    apply filter_ne_notin. intros Hin.
    apply (represents_sep s A h (l1 ++ n :: l2) h' l' HR Hl (not_eq_sym He) Hl' n); set_solver.
Qed.

Lemma queue_init_refines s A h :
  represents s A -> h ∈ dom s -> is_element A h = false ->
  exists s', list_init h s = Done (tt, s') /\ represents s' (<[h := []]> A) /\ dom s' = dom s.
Proof.
  intros HR Hh Hel. destruct (init_dll s h) as (s' & E & Hd & D & F); [by apply elem_of_dom|].
  exists s'. split; [done|]. split; [|done].
  apply (represents_update s s' A h [] []); auto.
  - intros x Hx. apply F. set_solver.
  - intros h' l2 Hne Hl2. pose proof (is_element_false _ _ _ _ Hel Hl2). set_solver.
Qed.

Lemma queue_push_refines s A h l n :
  represents s A -> A !! h = Some l -> n ∈ dom s -> in_use A n = false ->
  exists s', list_push_back h n s = Done (tt, s') /\ represents s' (<[h := l ++ [n]]> A) /\
    dom s' = dom s.
Proof.
  intros HR Hl Hn Hu. pose proof (in_use_false _ _ _ _ Hu Hl) as Hnl.
  destruct (push_back_dll s h l n) as (s' & E & Hd & D & F);
    [by apply HR | by apply elem_of_dom | done |].
  exists s'. split; [done|]. split; [|done].
  apply (represents_update s s' A h l (l ++ [n])); auto.
  - intros x Hx. apply F. set_solver.
  - intros h' l2 Hne Hl2. pose proof (in_use_false _ _ _ _ Hu Hl2).
    pose proof (represents_sep _ _ _ _ _ _ HR Hl Hne Hl2). set_solver.
Qed.

Lemma queue_pop_refines s A h x l :
  represents s A -> A !! h = Some (x :: l) ->
  exists s', list_pop_front h s = Done (x, s') /\ represents s' (<[h := l]> A) /\ dom s' = dom s.
Proof.
  intros HR Hl. destruct (pop_front_dll s h x l) as (s' & E & Hd & D & F); [by apply HR|].
  exists s'. split; [done|]. split; [|done].
  apply (represents_update s s' A h (x :: l) l); auto.
  - intros y Hy. apply F. set_solver.
  - intros h' l2 Hne Hl2. pose proof (represents_sep _ _ _ _ _ _ HR Hl Hne Hl2). set_solver.
Qed.

Lemma queue_remove_refines s A n :
  represents s A -> is_element A n = true ->
  exists s', list_remove n s = Done (tt, s') /\
    represents s' ((fun l => filter (fun y => y <> n) l) <$> A) /\ dom s' = dom s.
Proof.
  intros HR Hel. apply is_element_true in Hel as (h & l & Hl & Hin).
  apply list_elem_of_split in Hin as (l1 & l2 & ->).
  destruct (remove_dll s h l1 n l2) as (s' & E & Hd & D & F); [by apply HR|].
  exists s'. split; [done|]. split; [|done].
  rewrite (filter_all_insert s A h l1 n l2) by done.
  apply (represents_update s s' A h (l1 ++ n :: l2) (l1 ++ l2)); auto.
  - intros y Hy. apply F. set_solver.
  - intros h' l' Hne Hl'. pose proof (represents_sep _ _ _ _ _ _ HR Hl Hne Hl'). set_solver.
Qed.

Lemma queue_step_refines s A op r A' :
  represents s A -> queue_spec (dom s) op A = Some (r, A') ->
  exists s', queue_impl op s = Done (r, s') /\ represents s' A' /\ dom s' = dom s.
Proof.
  intros HR Hs. destruct op as [h|h|h n|h|n]; simpl in *; unfold bind, ret.
  - case_bool_decide as Hh; simpl in Hs; [|done]. destruct (is_element A h) eqn:Hel; [done|].
    injection Hs as <- <-. destruct (queue_init_refines s A h) as (s' & -> & ?); eauto.
  - destruct (A !! h) as [l|] eqn:Hl; [|done]. injection Hs as <- <-.
    rewrite (is_empty_dll s h l) by (by apply HR). eauto.
  - destruct (A !! h) as [l|] eqn:Hl; [|done]. simpl in Hs.
    case_bool_decide as Hn; simpl in Hs; [|done]. destruct (in_use A n) eqn:Hu; [done|].
    injection Hs as <- <-. destruct (queue_push_refines s A h l n) as (s' & -> & ?); eauto.
  - destruct (A !! h) as [[|x l]|] eqn:Hl; [| |done]; injection Hs as <- <-.
    + rewrite pop_front_nil by (by apply HR). eauto.
    + by apply queue_pop_refines.
  - destruct (is_element A n) eqn:Hel; [|done]. injection Hs as <- <-.
    destruct (queue_remove_refines s A n) as (s' & -> & ?); eauto.
Qed.

(** Sequences of operations, with their results. *)
Fixpoint run_impl (ops : list queue_op) : M store (list Z) :=
  match ops with
  | [] => ret []
  | op :: ops => r <- queue_impl op ;; rs <- run_impl ops ;; ret (r :: rs)
  end.

Fixpoint run_spec (D : gset Z) (ops : list queue_op) (A : queues) : option (list Z * queues) :=
  match ops with
  | [] => Some ([], A)
  | op :: ops =>
      match queue_spec D op A with
      | Some (r, A1) =>
          match run_spec D ops A1 with
          | Some (rs, A2) => Some (r :: rs, A2)
          | None => None
          end
      | None => None
      end
  end.

(** C26: the list operations of [list.h], run in any order on any number of
    lists that share one store, return exactly what the same operations on
    plain sequences return, and leave a store that represents the resulting
    sequences: push back appends, pop front takes the oldest element (or NULL),
    remove deletes the node from the list that holds it, and no operation
    disturbs another list. *)
Theorem list_h_refines_queues (s : store) (A A' : queues) (ops : list queue_op) (rs : list Z)
    (HR : represents s A) (Hspec : run_spec (dom s) ops A = Some (rs, A')) :
  exists s', run_impl ops s = Done (rs, s') /\ represents s' A'.
Proof.
  revert s A rs HR Hspec. induction ops as [|op ops IH]; intros s A rs HR Hspec; simpl in *.
  - injection Hspec as <- <-. unfold ret. eauto.
  - destruct (queue_spec (dom s) op A) as [[r A1]|] eqn:E1; [|done].
    destruct (run_spec (dom s) ops A1) as [[rs' A2]|] eqn:E2; [|done].
    injection Hspec as <- <-.
    destruct (queue_step_refines _ _ _ _ _ HR E1) as (s1 & R1 & HR1 & D1).
    rewrite <- D1 in E2. destruct (IH _ _ _ HR1 E2) as (s2 & R2 & HR2).
    exists s2. unfold bind. rewrite R1, R2. auto.
Qed.

(** ** Concrete stores *)

Definition blank : list_head := ListHead 0 0.

(** Two heads (100 and 200) and three nodes. *)
Definition demo_store : store :=
  list_to_map ((fun p => (p, blank)) <$> [100; 200; 1; 2; 3]).

Definition demo_ops : list queue_op :=
  [QInit 100; QInit 200; QPush 100 1; QPush 100 2; QPush 100 3; QRemove 2; QPush 200 2;
   QPop 100; QEmpty 100; QPop 100; QPop 100; QEmpty 100; QPop 200].

Lemma list_h_refines_queues_witness :
  exists s', run_impl demo_ops demo_store = Done ([0; 0; 0; 0; 0; 0; 0; 1; 0; 3; 0; 1; 2], s') /\
    represents s' (<[100 := []]> (<[200 := []]> ∅)).
Proof.
  apply (list_h_refines_queues demo_store ∅ _ demo_ops).
  - split; intros; done.
  - vm_compute. reflexivity.
Defined.

Lemma remove_even_well_behaved h :
  well_behaved h (fun x => if Z.even x then list_remove x else ret tt).
Proof.
  intros s l1 x l2 Hd. destruct (Z.even x).
  - destruct (remove_dll _ _ _ _ _ Hd) as (s' & E & Hd' & _). eauto.
  - exists s. auto.
Qed.

Definition demo_list : store :=
  match run_impl [QInit 100; QPush 100 1; QPush 100 2; QPush 100 3] demo_store with
  | Done (_, s) => s
  | _ => ∅
  end.

Lemma demo_list_dll : dll demo_list 100 [1; 2; 3].
Proof.
  split; [|vm_compute; repeat split].
  repeat (apply NoDup_cons; split; [set_solver|]). apply NoDup_nil_2.
Qed.

Lemma for_each_visits_all_witness :
  exists s' l', list_for_each 4 100 (fun x => if Z.even x then list_remove x else ret tt) demo_list
      = Done ([1; 2; 3], s') /\ dll s' 100 l' /\ sublist l' [1; 2; 3].
Proof.
  apply (for_each_visits_all demo_list 100 [1; 2; 3]).
  - apply demo_list_dll.
  - apply remove_even_well_behaved.
  - simpl. lia.
Defined.
