(* ===== verification/Message.v ===== *)
(** * Types, error codes and messages

    The constants and macros of [libs/libcommon/include/types.h] and
    [message.h], the message headers that [tools/genstub.py] generates from
    [misc/interfaces.idl], and the typed access to the inline payload of a
    message.  The release build is modelled ([DEBUG_BUILD] is not defined). *)
From S2P Require Import Prelude.
From Stdlib Require Import Btauto.

(** ** types.h *)

Definition PAGE_SIZE : Z := 4096.
Definition POW2 (order : Z) : Z := Z.shiftl 1 order.
Definition ALIGN_DOWN (value align : Z) : Z := Z.land value (Z.lnot (align - 1)).
Definition ALIGN_UP (value align : Z) : Z := ALIGN_DOWN (value + align - 1) align.

(** [enum error_codes]. *)
Definition OK : Z := 0.
Definition DONT_REPLY : Z := 1.
Definition ERR_OUT_OF_MEMORY : Z := 2.
Definition ERR_OUT_OF_RESOURCE : Z := 3.
Definition ERR_UNIMPLEMENTED : Z := 4.
Definition ERR_INVALID_CID : Z := 5.
Definition ERR_INVALID_MSG : Z := 6.
Definition ERR_INVALID_PAYLOAD : Z := 7.
Definition ERR_INVALID_MESSAGE : Z := 8.
Definition ERR_INVALID_SYSCALL : Z := 9.
Definition ERR_INVALID_PAGE_PAYLOAD : Z := 10.
Definition ERR_NO_LONGER_LINKED : Z := 11.
Definition ERR_CHANNEL_CLOSED : Z := 12.
Definition ERR_UNEXPECTED_MESSAGE : Z := 13.
Definition ERR_BAD_REQUEST : Z := 14.
Definition ERR_NOT_FOUND : Z := 15.
Definition ERR_NOT_ACCEPTABLE : Z := 16.
Definition ERR_TOO_SHORT : Z := 17.
Definition ERR_TOO_LARGE : Z := 18.
Definition ERR_IM_A_TEAPOT : Z := 19.
Definition ERR_ALREADY_RECEVING : Z := 20.
Definition ERR_WOULD_BLOCK : Z := 21.
Definition ERR_NEEDS_RETRY : Z := 22.

(** ** message.h *)

Definition SYSCALL_IPC : Z := 0.
Definition SYSCALL_OPEN : Z := 1.
Definition SYSCALL_CLOSE : Z := 2.
Definition SYSCALL_LINK : Z := 3.
Definition SYSCALL_TRANSFER : Z := 4.
Definition SYSCALL_NOTIFY : Z := 5.
Definition SYSCALL_NOP : Z := 6.

Definition IPC_SEND : Z := Z.shiftl 1 8.
Definition IPC_RECV : Z := Z.shiftl 1 9.
Definition IPC_NOBLOCK : Z := Z.shiftl 1 10.
Definition SYSCALL_TYPE (syscall_id : Z) : Z := Z.land syscall_id 0xff.

Definition MSG_INLINE_LEN_OFFSET : Z := 0.
Definition MSG_TYPE_OFFSET : Z := 16.
Definition MSG_PAGE_PAYLOAD : Z := Z.shiftl 1 11.
Definition MSG_CHANNEL_PAYLOAD : Z := Z.shiftl 1 12.
Definition INLINE_PAYLOAD_LEN (header : Z) : Z :=
  Z.land (Z.shiftr header MSG_INLINE_LEN_OFFSET) 0x7ff.
Definition PAGE_PAYLOAD_ADDR (page : Z) : Z := Z.land page 0xfffffffffffff000.
Definition INTERFACE_ID (header : Z) : Z :=
  Z.shiftr (Z.land (Z.shiftr header MSG_TYPE_OFFSET) 0xffff) 8.
Definition INLINE_PAYLOAD_LEN_MAX : Z := 480.
Definition ERROR_TO_HEADER (error : Z) : Z := u32 (Z.shiftl (u32 (- error)) MSG_TYPE_OFFSET).

Definition NOTIFICATION_INTERFACE : Z := 100.
Definition NOTIFICATION_MSG : Z :=
  Z.shiftl (Z.lor (Z.shiftl NOTIFICATION_INTERFACE 8) 1) MSG_TYPE_OFFSET.
Definition NOTIFY_INTERRUPT : Z := Z.shiftl 1 0.
Definition NOTIFY_TIMER : Z := Z.shiftl 1 1.

Definition PAGE_PAYLOAD (addr order : Z) : Z := Z.lor addr order.
Definition PAGE_BASE (addr order : Z) : Z := Z.lor addr order.
Definition PAGE_ORDER (page : Z) : Z := Z.land page 0x1f.

Definition SMALLSTRING_LEN_MAX : Z := 128.

(** [struct message].  [data] is the inline payload as bytes; the IPC buffers of
    threads lie in a page of their own, so [data] runs to the end of that page
    ([DATA_AREA] bytes of it are in every buffer), past the
    [INLINE_PAYLOAD_LEN_MAX] bytes of the structure. *)
Record message := Message {
  header : Z;
  from : Z;
  notification : Z;
  channel : Z;
  page : Z;
  data : list Z
}.

Definition set_header (h : Z) (m : message) : message :=
  Message h (from m) (notification m) (channel m) (page m) (data m).
Definition set_from (f : Z) (m : message) : message :=
  Message (header m) f (notification m) (channel m) (page m) (data m).
Definition set_notification (n : Z) (m : message) : message :=
  Message (header m) (from m) n (channel m) (page m) (data m).
Definition set_channel (c : Z) (m : message) : message :=
  Message (header m) (from m) (notification m) c (page m) (data m).
Definition set_page (p : Z) (m : message) : message :=
  Message (header m) (from m) (notification m) (channel m) p (data m).
Definition set_data (d : list Z) (m : message) : message :=
  Message (header m) (from m) (notification m) (channel m) (page m) d.

(** [sizeof(struct thread_info)] up to the message is 24 bytes and the payload
    starts 32 bytes into the message. *)
Definition DATA_AREA : Z := PAGE_SIZE - 24 - 32.

(** ** Little-endian fields of the inline payload *)

Fixpoint load_le (n : nat) (bs : list Z) : Z :=
  match n, bs with
  | S n, b :: bs => b + 256 * load_le n bs
  | _, _ => 0
  end.

Fixpoint store_le (n : nat) (v : Z) (bs : list Z) : list Z :=
  match n, bs with
  | S n, _ :: bs => v mod 256 :: store_le n (v / 256) bs
  | _, _ => bs
  end.

(** The field of [n] bytes at offset [off]. *)
Definition field (off n : nat) (d : list Z) : Z := load_le n (drop off d).
Definition set_field (off n : nat) (v : Z) (d : list Z) : list Z :=
  take off d ++ store_le n v (drop off d).

(** ** genstub.py: message headers *)

(** [<INTERFACE>_<NAME>_MSG]: interface and message ids, payload flags, inline
    length. *)
Definition MSG_REPLY_FLAG : Z := Z.shiftl 1 7.
Definition idl_header (interface id : Z) (has_page has_channel : bool) (inline_len : Z) : Z :=
  Z.lor (Z.lor (Z.lor (Z.shiftl (Z.lor (Z.shiftl interface 8) id) MSG_TYPE_OFFSET)
                      (if has_page then MSG_PAGE_PAYLOAD else 0))
               (if has_channel then MSG_CHANNEL_PAYLOAD else 0))
        (Z.shiftl inline_len MSG_INLINE_LEN_OFFSET).
Definition idl_reply (interface id : Z) (has_page has_channel : bool) (inline_len : Z) : Z :=
  idl_header interface (Z.lor MSG_REPLY_FLAG id) has_page has_channel inline_len.

Definition RUNTIME_EXIT_MSG := idl_header 1 1 false false 4.
Definition RUNTIME_PRINTCHAR_MSG := idl_header 1 2 false false 1.
Definition RUNTIME_PRINTCHAR_REPLY_MSG := idl_reply 1 2 false false 0.
Definition PROCESS_CREATE_MSG := idl_header 2 1 false false SMALLSTRING_LEN_MAX.
Definition PROCESS_CREATE_REPLY_MSG := idl_reply 2 1 false false (4 + 4).
Definition PROCESS_DESTROY_MSG := idl_header 2 2 false false 4.
Definition PROCESS_ADD_PAGER_MSG := idl_header 2 3 false false (4 + 4 + 8 + 8 + 1).
Definition PROCESS_ADD_PAGER_REPLY_MSG := idl_reply 2 3 false false 0.
Definition PROCESS_SEND_CHANNEL_MSG := idl_header 2 4 false true 4.
Definition PROCESS_SEND_CHANNEL_REPLY_MSG := idl_reply 2 4 false false 0.
Definition THREAD_SPAWN_MSG := idl_header 3 1 false false (4 + 8 + 8 + 8 + 8).
Definition THREAD_SPAWN_REPLY_MSG := idl_reply 3 1 false false 4.
Definition THREAD_DESTROY_MSG := idl_header 3 2 false false 4.
Definition TIMER_SET_MSG := idl_header 4 1 false true (4 + 4).
Definition TIMER_SET_REPLY_MSG := idl_reply 4 1 false false 4.
Definition TIMER_CLEAR_MSG := idl_header 4 2 false false 4.
Definition TIMER_CLEAR_REPLY_MSG := idl_reply 4 2 false false 0.
Definition SERVER_CONNECT_MSG := idl_header 10 1 false false 1.
Definition SERVER_CONNECT_REPLY_MSG := idl_reply 10 1 false true 0.
Definition MEMORY_ALLOC_PAGES_MSG := idl_header 11 1 false false 8.
Definition MEMORY_ALLOC_PAGES_REPLY_MSG := idl_reply 11 1 true false 0.
Definition MEMORY_ALLOC_PHY_PAGES_MSG := idl_header 11 2 false false (8 + 8).
Definition MEMORY_ALLOC_PHY_PAGES_REPLY_MSG := idl_reply 11 2 true false 8.
Definition PAGER_FILL_MSG := idl_header 12 1 false false (4 + 8 + 8).
Definition PAGER_FILL_REPLY_MSG := idl_reply 12 1 true false 0.
Definition MEMMGR_GET_FRAMEBUFFER_MSG := idl_header 13 1 false false 0.
Definition MEMMGR_GET_FRAMEBUFFER_REPLY_MSG := idl_reply 13 1 true false (4 + 4 + 1).
Definition DISCOVERY_PUBLICIZE_MSG := idl_header 14 1 false true 1.
Definition DISCOVERY_PUBLICIZE_REPLY_MSG := idl_reply 14 1 false false 0.
Definition DISCOVERY_CONNECT_MSG := idl_header 14 2 false false 1.
Definition DISCOVERY_CONNECT_REPLY_MSG := idl_reply 14 2 false true 0.
Definition IO_ALLOW_IOMAPPED_IO_MSG := idl_header 15 1 false false 0.
Definition IO_ALLOW_IOMAPPED_IO_REPLY_MSG := idl_reply 15 1 false false 0.
Definition IO_LISTEN_IRQ_MSG := idl_header 15 2 false true 1.
Definition IO_LISTEN_IRQ_REPLY_MSG := idl_reply 15 2 false false 0.
Definition FS_OPEN_MSG := idl_header 16 1 false false (SMALLSTRING_LEN_MAX + 1).
Definition FS_OPEN_REPLY_MSG := idl_reply 16 1 false false 4.
Definition FS_READ_MSG := idl_header 16 3 false false (4 + 8 + 8).
Definition FS_READ_REPLY_MSG := idl_reply 16 3 true false 0.
Definition API_CREATE_APP_MSG := idl_header 20 1 false false SMALLSTRING_LEN_MAX.
Definition API_CREATE_APP_REPLY_MSG := idl_reply 20 1 false false 4.
Definition API_START_APP_MSG := idl_header 20 2 false false 4.
Definition API_START_APP_REPLY_MSG := idl_reply 20 2 false false 0.
Definition API_JOIN_APP_MSG := idl_header 20 3 false false 4.
Definition API_JOIN_APP_REPLY_MSG := idl_reply 20 3 false false 1.
Definition API_EXIT_APP_MSG := idl_header 20 4 false false 1.

(** ** Lemmas *)

Lemma land_ones_mod x n : 0 <= n -> Z.land x (Z.ones n) = x mod 2 ^ n.
Proof. apply Z.land_ones. Qed.

Lemma PAGE_PAYLOAD_ADDR_mod p : 0 <= p < 2 ^ 64 -> PAGE_PAYLOAD_ADDR p = p - p mod PAGE_SIZE.
Proof.
  intros Hp. unfold PAGE_PAYLOAD_ADDR, PAGE_SIZE.
  replace 0xfffffffffffff000 with (Z.ldiff (Z.ones 64) (Z.ones 12)) by reflexivity.
  assert (E : Z.land p (Z.ldiff (Z.ones 64) (Z.ones 12)) = Z.ldiff (Z.land p (Z.ones 64)) (Z.ones 12)).
  { apply Z.bits_inj'. intros i Hi. rewrite !Z.land_spec, !Z.ldiff_spec, Z.land_spec. btauto. }
  rewrite E, Z.land_ones, Z.mod_small by lia.
  rewrite Z.ldiff_ones_r, Z.shiftr_div_pow2, Z.shiftl_mul_pow2 by lia.
  change 4096 with (2 ^ 12). pose proof (Z.div_mod p (2 ^ 12)). lia.
Qed.

Lemma PAGE_ORDER_mod p : PAGE_ORDER p = p mod 32.
Proof. unfold PAGE_ORDER. change 0x1f with (Z.ones 5). rewrite land_ones_mod by lia. reflexivity. Qed.

Lemma INLINE_PAYLOAD_LEN_mod h : INLINE_PAYLOAD_LEN h = h mod 2048.
Proof.
  unfold INLINE_PAYLOAD_LEN, MSG_INLINE_LEN_OFFSET. rewrite Z.shiftr_0_r.
  change 0x7ff with (Z.ones 11). rewrite land_ones_mod by lia. reflexivity.
Qed.

(** The number of inline bytes a header can ask for fits the page of the buffer. *)
Lemma INLINE_PAYLOAD_LEN_bound h : 0 <= INLINE_PAYLOAD_LEN h < DATA_AREA.
Proof.
  rewrite INLINE_PAYLOAD_LEN_mod. unfold DATA_AREA, PAGE_SIZE.
  pose proof (Z.mod_pos_bound h 2048). lia.
Qed.

(** A disjunction of disjoint bit fields is a sum. *)
Lemma lor_low_add a b n : 0 <= n -> a mod 2 ^ n = 0 -> 0 <= b < 2 ^ n -> Z.lor a b = a + b.
Proof.
  intros Hn Ha Hb. rewrite <- Z.lxor_lor, <- Z.add_nocarry_lxor; [reflexivity| |];
    (apply Z.bits_inj'; intros i Hi; rewrite Z.land_spec, Z.bits_0;
     destruct (Z.lt_ge_cases i n) as [Hlt|Hge];
     [ rewrite <- (Z.mod_pow2_bits_low a n i), Ha, Z.bits_0 by lia; reflexivity
     | rewrite <- (Z.mod_small b (2 ^ n)), Z.mod_pow2_bits_high by lia; apply andb_false_r ]).
Qed.

Lemma PAGE_PAYLOAD_sum addr order :
  addr mod PAGE_SIZE = 0 -> 0 <= order < 32 -> PAGE_PAYLOAD addr order = addr + order.
Proof.
  intros Ha Ho. unfold PAGE_PAYLOAD. apply (lor_low_add _ _ 12); [lia | exact Ha | lia].
Qed.

(** A page payload packs a page address and an order without losing either:
    for a page-aligned 64-bit address and an order below 32, [PAGE_PAYLOAD_ADDR]
    and [PAGE_ORDER] of [PAGE_PAYLOAD(addr, order)] give [addr] and [order]
    back. *)
Theorem page_payload_roundtrip (addr order : Z)
    (Haddr : 0 <= addr < 2 ^ 64) (Hal : addr mod PAGE_SIZE = 0) (Hord : 0 <= order < 32) :
  PAGE_PAYLOAD_ADDR (PAGE_PAYLOAD addr order) = addr /\
  PAGE_ORDER (PAGE_PAYLOAD addr order) = order.
Proof.
  rewrite PAGE_PAYLOAD_sum by auto. unfold PAGE_SIZE in *.
  assert (addr <= 2 ^ 64 - 4096).
  { pose proof (Z.div_mod addr 4096). pose proof (Z.div_lt_upper_bound addr 4096 (2 ^ 52)). lia. }
  assert (Hm : (addr + order) mod 4096 = order).
  { rewrite <- Zplus_mod_idemp_l, Hal. apply Z.mod_small. lia. }
  split.
  - rewrite PAGE_PAYLOAD_ADDR_mod by lia. unfold PAGE_SIZE. lia.
  - rewrite PAGE_ORDER_mod. rewrite <- Zplus_mod_idemp_l.
    replace (addr mod 32) with 0; [apply Z.mod_small; lia|].
    symmetry. apply Z.mod_divide; [lia|]. apply Z.mod_divide in Hal; [|lia].
    destruct Hal as [q ->]. exists (q * 128). lia.
Qed.

Lemma page_payload_roundtrip_witness :
  PAGE_PAYLOAD_ADDR (PAGE_PAYLOAD 0x4003000 12) = 0x4003000 /\
  PAGE_ORDER (PAGE_PAYLOAD 0x4003000 12) = 12.
Proof. apply (page_payload_roundtrip 0x4003000 12); [lia | reflexivity | lia]. Defined.

Lemma length_store_le n v bs : length (store_le n v bs) = length bs.
Proof. revert v bs. induction n; intros v [|b bs]; simpl; auto. Qed.

Lemma length_set_field off n v d : length (set_field off n v d) = length d.
Proof.
  unfold set_field. rewrite length_app, length_store_le, length_take, length_drop. lia.
Qed.

Lemma load_store_le n v bs :
  (n <= length bs)%nat -> load_le n (store_le n v bs) = v mod 256 ^ Z.of_nat n.
Proof.
  revert v bs. induction n as [|n IH]; intros v bs Hl; [simpl; rewrite Z.mod_1_r; done|].
  destruct bs as [|b bs]; [simpl in Hl; lia|]. simpl in Hl. cbn [store_le load_le].
  rewrite IH by lia. rewrite Nat2Z.inj_succ, Z.pow_succ_r by lia.
  rewrite Z.rem_mul_r by lia. lia.
Qed.

(** Reading back the field that was written. *)
Lemma field_set_field off n v d :
  (off + n <= length d)%nat -> field off n (set_field off n v d) = v mod 256 ^ Z.of_nat n.
Proof.
  intros H. unfold field, set_field. rewrite drop_app_length'; [|rewrite length_take; lia].
  apply load_store_le. rewrite length_drop. lia.
Qed.

Lemma load_le_app n bs1 bs2 :
  (n <= length bs1)%nat -> load_le n (bs1 ++ bs2) = load_le n bs1.
Proof.
  revert bs1. induction n as [|n IH]; intros [|b bs1] H; simpl in *; try lia; auto.
  f_equal. f_equal. apply IH. lia.
Qed.

Lemma drop_store_le n m v bs :
  (n <= m)%nat -> drop m (store_le n v bs) = drop m bs.
Proof.
  revert m v bs. induction n as [|n IH]; intros m v [|b bs] H; simpl; auto.
  destruct m; [lia|]. simpl. apply IH. lia.
Qed.

(** Fields that do not overlap are independent. *)
Lemma field_set_field_ne off n v off' n' d :
  (off + n <= length d)%nat -> (off' + n' <= off \/ off + n <= off')%nat ->
  field off' n' (set_field off n v d) = field off' n' d.
Proof.
  intros Hl H. unfold field, set_field. destruct H as [H|H].
  - rewrite drop_app_le by (rewrite length_take; lia).
    rewrite load_le_app; [|rewrite length_drop, length_take; lia].
    rewrite <- (take_drop off d) at 2. rewrite drop_app_le by (rewrite length_take; lia).
    rewrite load_le_app; [done|rewrite length_drop, length_take; lia].
  - rewrite drop_app_ge by (rewrite length_take; lia).
    rewrite length_take, Nat.min_l by lia. rewrite drop_store_le by lia.
    rewrite drop_drop. f_equal. f_equal. lia.
Qed.
