(* ===== verification/CString.v ===== *)
(** * C strings and memory

    The string and memory functions of [libs/libresea/string.c].  A pointer is
    the list of the bytes from it to the end of the object it points into;
    reading or writing past that end is undefined. *)
From S2P Require Import Prelude Message.

(** Comparisons of integers that differ by a subtraction. *)
Ltac zcompare :=
  match goal with
  | |- (?a ?= ?b) = (?c ?= ?d) => destruct (Z.compare_spec a b), (Z.compare_spec c d); try done; lia
  | |- (?a ?= ?b) = _ => destruct (Z.compare_spec a b); try done; lia
  end.

Module CStr.

(** ** strlen, strcmp, strncmp, memcmp *)

Fixpoint strlen (s : list Z) : outcome Z :=
  match s with
  | [] => Undef
  | c :: s => if c =? 0 then Done 0 else outcome_bind (strlen s) (fun n => Done (n + 1))
  end.

Fixpoint strcmp (s1 s2 : list Z) : outcome Z :=
  match s1, s2 with
  | c1 :: r1, c2 :: r2 =>
      if negb (c1 =? 0) && negb (c2 =? 0) && (c1 =? c2) then strcmp r1 r2 else Done (c1 - c2)
  | _, _ => Undef
  end.

Fixpoint strncmp (s1 s2 : list Z) (len : nat) : outcome Z :=
  match len with
  | O => Done 0
  | S len =>
      match s1, s2 with
      | c1 :: r1, c2 :: r2 =>
          if negb (c1 =? 0) && negb (c2 =? 0) && (c1 =? c2) then strncmp r1 r2 len else Done (c1 - c2)
      | _, _ => Undef
      end
  end.

Fixpoint memcmp (p q : list Z) (len : nat) : outcome Z :=
  match len with
  | O => Done 0
  | S len =>
      match p, q with
      | b1 :: p, b2 :: q => if b1 =? b2 then memcmp p q len else Done (b1 - b2)
      | _, _ => Undef
      end
  end.

(** ** Copying *)

(** The loop of [strncpy_s] from index [i] on; [strcpy_s] is the same without a
    limit on the characters to copy. *)
Fixpoint copy_loop (n : nat) (i dst_len : Z) (dst src : list Z) (copy_len : option Z) : outcome (list Z) :=
  let finish := match arr_set dst i 0 with Some dst => Done dst | None => Undef end in
  match n with
  | O => Fuel
  | S n =>
      if i <? u64 (dst_len - 1) then
        match arr_get src i with
        | None => Undef
        | Some c =>
            if c =? 0 then finish
            else if match copy_len with Some l => negb (0 <? l) | None => false end then finish
            else
              match arr_set dst i c with
              | Some dst => copy_loop n (i + 1) dst_len dst src (option_map (fun l => l - 1) copy_len)
              | None => Undef
              end
        end
      else finish
  end.

Definition strcpy_s (dst : list Z) (dst_len : Z) (src : list Z) : outcome (list Z) :=
  copy_loop (S (length src)) 0 dst_len dst src None.

Definition strncpy_s (dst : list Z) (dst_len : Z) (src : list Z) (copy_len : Z) : outcome (list Z) :=
  copy_loop (S (length src)) 0 dst_len dst src (Some copy_len).

Fixpoint memset (dst : list Z) (ch : Z) (len : nat) : outcome (list Z) :=
  match len, dst with
  | O, _ => Done dst
  | S len, _ :: dst => outcome_bind (memset dst ch len) (fun d => Done (u8 ch :: d))
  | S _, [] => Undef
  end.

(** Of objects that do not overlap. *)
Fixpoint memcpy {A} (dst src : list A) (len : nat) : outcome (list A) :=
  match len, dst, src with
  | O, _, _ => Done dst
  | S len, _ :: dst, b :: src => outcome_bind (memcpy dst src len) (fun d => Done (b :: d))
  | S _, _, _ => Undef
  end.

Definition memcpy_s {A} (dst : list A) (dst_len : Z) (src : list A) (copy_len : Z) : outcome (list A) :=
  if copy_len <=? dst_len then memcpy dst src (Z.to_nat copy_len) else Panic.

End CStr.
Import CStr.

(** ** Strings *)

(** [s] points to the characters [l] and the NUL that ends them. *)
Definition c_string (s l : list Z) : Prop := exists rest, s = l ++ 0 :: rest /\ Forall (fun c => c <> 0) l.

Lemma c_string_cons c s l : c_string (c :: s) l ->
  (c = 0 /\ l = []) \/ (c <> 0 /\ exists l', l = c :: l' /\ c_string s l').
Proof.
  intros (rest & Hs & Hl). destruct l as [|x l]; simpl in Hs; injection Hs as -> ->; [by left|].
  inversion Hl; subst. right. split; [done|]. exists l. split; [done|]. by exists rest.
Qed.

Lemma c_string_nil l : ~ c_string [] l.
Proof. intros (rest & H & _). by destruct l. Qed.

Lemma strlen_ok s l : c_string s l -> strlen s = Done (Z.of_nat (length l)).
Proof.
  revert l. induction s as [|c s IH]; intros l H; [by apply c_string_nil in H|].
  apply c_string_cons in H as [[-> ->]|(Hc & l' & -> & H)]; [done|].
  simpl. destruct (Z.eqb_spec c 0); [done|]. rewrite (IH l' H). simpl. f_equal. lia.
Qed.

(** Lexicographic order of character sequences; the shorter one comes first. *)
Fixpoint lex (l1 l2 : list Z) : comparison :=
  match l1, l2 with
  | [], [] => Eq
  | [], c :: _ => (0 ?= c)
  | c :: _, [] => (c ?= 0)
  | c1 :: l1, c2 :: l2 => match c1 ?= c2 with Eq => lex l1 l2 | r => r end
  end.

(** [strcmp] decides the equality of two C strings and orders them
    lexicographically by the first character in which they differ (the NUL that
    ends a string counting as 0), without reading past their ends. *)
Theorem strcmp_correct (s1 s2 l1 l2 : list Z) (H1 : c_string s1 l1) (H2 : c_string s2 l2) :
  exists d, strcmp s1 s2 = Done d /\ (d ?= 0) = lex l1 l2 /\ (d = 0 <-> l1 = l2).
Proof.
  revert s2 l1 l2 H1 H2. induction s1 as [|c1 s1 IH]; intros s2 l1 l2 H1 H2; [by apply c_string_nil in H1|].
  destruct s2 as [|c2 s2]; [by apply c_string_nil in H2|]. cbn [strcmp].
  apply c_string_cons in H1 as [[-> ->]|(Hc1 & l1' & -> & H1)];
    apply c_string_cons in H2 as [[-> ->]|(Hc2 & l2' & -> & H2)]; cbn [lex Z.eqb negb andb].
  - exists 0. done.
  - eexists. split; [reflexivity|]. split; [zcompare | split; [lia | done]].
  - destruct (Z.eqb_spec c1 0); [done|]. cbn [negb andb]. eexists. split; [reflexivity|].
    split; [zcompare | split; [lia | done]].
  - destruct (Z.eqb_spec c1 0), (Z.eqb_spec c2 0); try done. cbn [negb andb].
    destruct (Z.eqb_spec c1 c2) as [->|Hne].
    + rewrite Z.compare_refl. destruct (IH s2 l1' l2' H1 H2) as (d & -> & Hd & Hz).
      exists d. split; [done|]. split; [done|]. rewrite Hz. split; congruence.
    + exists (c1 - c2). split; [done|]. split; [|split; [lia | congruence]].
      destruct (Z.compare_spec c1 c2); [done | zcompare..].
Qed.

Lemma strcmp_correct_witness :
  exists d, strcmp [97; 98; 0; 99] [97; 100; 0] = Done d /\ (d ?= 0) = Lt /\ (d = 0 <-> [97; 98] = [97; 100]).
Proof.
  apply (strcmp_correct [97; 98; 0; 99] [97; 100; 0] [97; 98] [97; 100]).
  - exists [99]. split; [reflexivity | repeat constructor; lia].
  - exists []. split; [reflexivity | repeat constructor; lia].
Defined.

(** ** strcpy_s and strncpy_s *)

Lemma u64_pred n : 1 <= n < 2 ^ 64 -> u64 (n - 1) = n - 1.
Proof. intros. apply u64_small. lia. Qed.

Lemma insert_middle {A} (d tail : list A) x y : <[length d := x]> (d ++ y :: tail) = d ++ x :: tail.
Proof. rewrite insert_app_r_alt by lia. by rewrite Nat.sub_diag. Qed.

(** The copy so far, the next characters, and what is left of the destination. *)
Lemma copy_loop_ok l : forall rest d i tail n dst_len copy_len,
  Forall (fun c => c <> 0) l -> Z.of_nat (length d) = i ->
  1 <= dst_len < 2 ^ 64 -> dst_len <= Z.of_nat (length d + length tail) -> i < dst_len ->
  (length l < n)%nat ->
  let k := (Nat.min (length l) (Nat.min (Z.to_nat (dst_len - 1 - i)) (from_option Z.to_nat (length l) copy_len)))%nat in
  copy_loop n i dst_len (d ++ tail) (d ++ l ++ 0 :: rest) copy_len = Done (d ++ take k l ++ 0 :: drop (S k) tail).
Proof.
  induction l as [|c l IH]; intros rest d i tail n dst_len copy_len Hl Hi Hd Htail Hlt Hn k; subst k;
    (destruct n as [|n]; [simpl in Hn; lia|]); cbn [copy_loop]; rewrite u64_pred by lia.
  - rewrite Nat.min_0_l. simpl.
    assert (Hend : arr_set (d ++ tail) i 0 = Some (d ++ 0 :: drop 1 tail)).
    { rewrite arr_set_Some by (rewrite length_app; lia). f_equal.
      replace (Z.to_nat i) with (length d) by lia.
      destruct tail; [simpl in *; lia | by rewrite insert_middle]. }
    rewrite Hend. destruct (Z.ltb_spec i (dst_len - 1)); [|done].
    assert (Hc : arr_get (d ++ 0 :: rest) i = Some 0).
    { apply arr_get_Some. split; [lia|]. replace (Z.to_nat i) with (length d + 0)%nat by lia.
      by rewrite lookup_app_r, Nat.add_sub_swap, Nat.sub_diag by lia. }
    by rewrite Hc.
  - inversion Hl as [|? ? Hc0 Hl']; subst. 
    assert (Hend : arr_set (d ++ tail) (Z.of_nat (length d)) 0 = Some (d ++ 0 :: drop 1 tail)).
    { rewrite arr_set_Some by (rewrite length_app; lia). f_equal.
      rewrite Nat2Z.id. destruct tail; [simpl in *; lia | by rewrite insert_middle]. }
    assert (Hc : arr_get (d ++ (c :: l) ++ 0 :: rest) (Z.of_nat (length d)) = Some c).
    { apply arr_get_Some. split; [lia|]. rewrite Nat2Z.id. cbn [app]. by rewrite list_lookup_middle. }
    rewrite Hend, Hc.
    destruct (Z.ltb_spec (Z.of_nat (length d)) (dst_len - 1)) as [Hlt'|Hge].
    2: { replace (Z.to_nat (dst_len - 1 - Z.of_nat (length d))) with 0%nat by lia. 
         by rewrite Nat.min_0_l, Nat.min_0_r. }
    destruct (Z.eqb_spec c 0); [done|].
    destruct (match copy_len with Some l => negb (0 <? l) | None => false end) eqn:Hcl.
    { destruct copy_len as [cl|]; [|done]. apply negb_true_iff in Hcl. zbool. simpl from_option.
      replace (Z.to_nat cl) with 0%nat by lia. by rewrite !Nat.min_0_r. }
    destruct tail as [|x tail]; [simpl in *; lia|].
    rewrite arr_set_Some by (rewrite length_app; simpl; lia). rewrite Nat2Z.id.
    rewrite insert_middle. cbn [app].
    rewrite (cons_middle c d tail), (app_assoc d [c] tail).
    rewrite (cons_middle c d (l ++ 0 :: rest)), (app_assoc d [c] (l ++ 0 :: rest)).
    rewrite IH; try (rewrite ?length_app; simpl in *; lia); [|done].
    rewrite <- app_assoc. cbn [app].
    assert (Hk : Nat.min (length (c :: l)) (Nat.min (Z.to_nat (dst_len - 1 - Z.of_nat (length d)))
        (from_option Z.to_nat (length (c :: l)) copy_len)) =
      S (Nat.min (length l) (Nat.min (Z.to_nat (dst_len - 1 - (Z.of_nat (length d) + 1)))
        (from_option Z.to_nat (length l) (option_map (fun l => l - 1) copy_len))))).
    { destruct copy_len as [cl|]; cbn [from_option option_map length]; [|lia].
      apply negb_false_iff in Hcl. zbool. lia. }
    rewrite Hk. done.
Qed.

(** [strcpy_s] copies as much of the string as fits and terminates the copy:
    for a destination of [dst_len] >= 1 bytes the result holds the first
    [min (strlen src) (dst_len - 1)] characters of the source followed by NUL,
    and the bytes after that are unchanged. *)
Theorem strcpy_s_correct (dst src l : list Z) (dst_len : Z)
    (Hsrc : c_string src l) (Hlen : 1 <= dst_len <= Z.of_nat (length dst)) (Hw : dst_len < 2 ^ 64) :
  let k := Nat.min (length l) (Z.to_nat (dst_len - 1)) in
  strcpy_s dst dst_len src = Done (take k l ++ 0 :: drop (S k) dst).
Proof.
  destruct Hsrc as (rest & -> & Hl). intros k. unfold strcpy_s.
  pose proof (copy_loop_ok l rest [] 0 dst (S (length (l ++ 0 :: rest))) dst_len None Hl eq_refl) as E.
  cbn [app length from_option Nat.add] in E. rewrite E; [|lia..|rewrite length_app; lia].
  rewrite Z.sub_0_r. replace (Nat.min _ (Nat.min _ _)) with k by (unfold k; lia). done.
Qed.

Lemma strcpy_s_correct_witness :
  strcpy_s [1; 2; 3; 4] 3 [97; 98; 99; 0] = Done [97; 98; 0; 4].
Proof.
  apply (strcpy_s_correct [1; 2; 3; 4] [97; 98; 99; 0] [97; 98; 99] 3).
  - exists []. split; [reflexivity | repeat constructor; lia].
  - simpl; lia.
  - lia.
Defined.

(** ** Growable strings *)

(** [struct string]: [None] is a byte of the buffer that was never written. *)
Record string_t := MkString { sdata : list (option Z); slen : Z; scapacity : Z }.

Definition STRING_INITIAL_CAPACITY : Z := 8.

Module Str.

(** A fresh buffer from [malloc]. *)
Definition malloc_bytes (n : Z) : list (option Z) := replicate (Z.to_nat n) None.

Definition string_new : string_t := MkString (malloc_bytes STRING_INITIAL_CAPACITY) 0 STRING_INITIAL_CAPACITY.

Definition string_get_char (str : string_t) (index : Z) : outcome Z :=
  if index <? slen str then
    match arr_get (sdata str) index with Some (Some c) => Done c | _ => Undef end
  else Panic.

Definition string_set_char (str : string_t) (index ch : Z) : outcome string_t :=
  if index <? slen str then
    match arr_set (sdata str) index (Some ch) with
    | Some d => Done (MkString d (slen str) (scapacity str))
    | None => Undef
    end
  else Panic.

Definition string_resize (str : string_t) (new_capacity : Z) : outcome string_t :=
  if scapacity str <? new_capacity then
    outcome_bind (memcpy (malloc_bytes new_capacity) (sdata str) (Z.to_nat (slen str + 1)))
      (fun d => Done (MkString d (slen str) new_capacity))
  else Panic.

(** The loop that copies the characters, and the final NUL. *)
Fixpoint append_loop (str : string_t) (cstr : list Z) : outcome string_t :=
  match cstr with
  | [] => Undef
  | c :: cstr =>
      match arr_set (sdata str) (slen str) (Some c) with
      | None => Undef
      | Some d =>
          if c =? 0 then Done (MkString d (slen str) (scapacity str))
          else append_loop (MkString d (slen str + 1) (scapacity str)) cstr
      end
  end.

Definition string_append_cstr (str : string_t) (cstr : list Z) : outcome string_t :=
  outcome_bind (strlen cstr) (fun cstr_len =>
  outcome_bind
    (if scapacity str <? slen str + cstr_len + 1
     then string_resize str ((slen str + cstr_len + 1) * 2) else Done str)
    (fun str => append_loop str cstr)).

Definition string_from (cstr : list Z) : outcome string_t := string_append_cstr string_new cstr.

(** The inner loop of [string_find_cstr]: do the tail and the needle agree up to
    the end of the shorter one? *)
Fixpoint agree (tail needle : list Z) : outcome bool :=
  match tail with
  | [] => Undef
  | c :: tail =>
      if c =? 0 then Done true
      else
        match needle with
        | [] => Undef
        | n :: needle => if n =? 0 then Done true else if c =? n then agree tail needle else Done false
        end
  end.

Fixpoint find_loop (start : Z) (cstr needle : list Z) : outcome Z :=
  match cstr with
  | [] => Undef
  | c :: rest =>
      if c =? 0 then Done (- 1)
      else outcome_bind (agree cstr needle) (fun m => if m then Done start else find_loop (start + 1) rest needle)
  end.

(** The buffer up to the first byte that was never written. *)
Fixpoint written (d : list (option Z)) : list Z :=
  match d with Some c :: d => c :: written d | _ => [] end.

Definition string_find_cstr (haystack : string_t) (needle : list Z) : outcome Z :=
  find_loop 0 (written (sdata haystack)) needle.

Definition string_startswith_cstr (str : string_t) (prefix : list Z) : outcome bool :=
  outcome_bind (string_find_cstr str prefix) (fun r => Done (r =? 0)).

End Str.
Import Str.

(** [str] holds the characters [l]; [term] says whether the NUL is there, which is
    not so for the result of [string_new]. *)
Record str_rep (str : string_t) (l : list Z) (term : bool) : Prop := {
  sr_len : slen str = Z.of_nat (length l);
  sr_chars : Forall (fun c => c <> 0) l;
  sr_cap : scapacity str = Z.of_nat (length (sdata str));
  sr_room : slen str < scapacity str;
  sr_data : exists rest, sdata str = map Some l ++ rest;
  sr_term : term = true -> exists rest, sdata str = map Some (l ++ [0]) ++ rest
}.

Lemma append_loop_ok cs : forall d l cap c_rest rest,
  Forall (fun c => c <> 0) cs -> d = map Some l ++ rest -> (length cs < length rest)%nat ->
  append_loop (MkString d (Z.of_nat (length l)) cap) (cs ++ 0 :: c_rest) =
    Done (MkString (map Some (l ++ cs ++ [0]) ++ drop (S (length cs)) rest)
            (Z.of_nat (length (l ++ cs))) cap).
Proof.
  induction cs as [|c cs IH]; intros d l cap c_rest rest Hcs -> Hlen;
    (destruct rest as [|x rest]; [simpl in Hlen; lia|]);
    cbn [append_loop app sdata slen]; unfold sdata, slen, scapacity;
    (rewrite arr_set_Some by (rewrite length_app, length_map; simpl; lia));
    (replace (Z.to_nat (Z.of_nat (length l))) with (length (map Some l)) by (rewrite length_map; lia));
    rewrite insert_middle.
  - simpl. rewrite app_nil_r, map_app, <- app_assoc. simpl. by rewrite drop_0.
  - inversion Hcs; subst. destruct (Z.eqb_spec c 0); [done|].
    replace (Z.of_nat (length l) + 1) with (Z.of_nat (length (l ++ [c]))) by (rewrite length_app; simpl; lia).
    rewrite (IH _ (l ++ [c]) cap c_rest rest); [| done | by rewrite map_app, <- app_assoc | simpl in Hlen; lia].
    rewrite <- !app_assoc. simpl. done.
Qed.

Lemma memcpy_ok {A} (dst src : list A) n :
  (n <= length dst)%nat -> (n <= length src)%nat -> memcpy dst src n = Done (take n src ++ drop n dst).
Proof.
  revert dst src. induction n as [|n IH]; intros dst src Hd Hs; [destruct dst, src; done|].
  destruct dst, src; simpl in *; try lia. rewrite IH by lia. done.
Qed.

(** Appending to a growable string.  Whatever [string_new] or earlier appends
    left, [string_append_cstr] succeeds (growing the buffer when needed, as long
    as the length fits an [int]), the string then holds the old characters
    followed by the appended ones, NUL-terminated, inside its capacity. *)
Theorem string_append_correct (str : string_t) (l cstr cs : list Z) (term : bool)
    (Hs : str_rep str l term) (Hc : c_string cstr cs) :
  exists str', string_append_cstr str cstr = Done str' /\ str_rep str' (l ++ cs) true.
Proof.
  destruct Hc as (crest & -> & Hcs). destruct Hs as [Hlen Hch Hcap Hroom [rest Hd] _].
  unfold string_append_cstr. rewrite (strlen_ok _ cs) by (by exists crest). simpl.
  assert (Hbuf : exists rest' cap,
    (if scapacity str <? slen str + Z.of_nat (length cs) + 1
     then string_resize str ((slen str + Z.of_nat (length cs) + 1) * 2) else Done str) =
      Done (MkString (map Some l ++ rest') (Z.of_nat (length l)) cap) /\
    cap = Z.of_nat (length (map Some l ++ rest')) /\ (length cs < length rest')%nat).
  { destruct (Z.ltb_spec (scapacity str) (slen str + Z.of_nat (length cs) + 1)) as [Hlt|Hge].
    - unfold string_resize. destruct (Z.ltb_spec (scapacity str) ((slen str + Z.of_nat (length cs) + 1) * 2)); [|lia].
      set (cap := (slen str + Z.of_nat (length cs) + 1) * 2) in *.
      rewrite memcpy_ok; [| unfold malloc_bytes; rewrite length_replicate; lia | lia].
      cbn [outcome_bind]. rewrite Hd. replace (Z.to_nat (slen str + 1)) with (length (map Some l) + 1)%nat
        by (rewrite length_map; lia).
      rewrite take_app_add, <- app_assoc.
      eexists (take 1 rest ++ drop (length (map Some l) + 1) (malloc_bytes cap)), cap.
      rewrite <- Hlen. split; [done|]. unfold malloc_bytes.
      rewrite !length_app, length_take, length_drop, length_replicate, length_map.
      rewrite Hd, length_app, length_map in Hcap. lia.
    - exists rest, (scapacity str). destruct str as [d n cap]. simpl in *. subst. rewrite length_app, length_map in *.
      split; [done|]. lia. }
  destruct Hbuf as (rest' & cap & -> & Hcap' & Hroom'). cbn [outcome_bind].
  rewrite (append_loop_ok cs _ l cap crest rest' Hcs eq_refl Hroom').
  eexists. split; [reflexivity|]. rewrite length_app, length_map in Hcap'. constructor; cbn [sdata slen scapacity].
  - done.
  - by apply Forall_app.
  - rewrite !length_app, length_map, length_drop, !length_app. simpl. lia.
  - rewrite length_app. lia.
  - exists ([Some 0] ++ drop (S (length cs)) rest'). rewrite (app_assoc l cs), map_app, <- app_assoc. done.
  - intros _. exists (drop (S (length cs)) rest'). by rewrite <- app_assoc.
Qed.

Lemma string_new_rep : str_rep string_new [] false.
Proof. constructor; try done. by exists (sdata string_new). Qed.

Lemma string_append_correct_witness :
  exists str', string_append_cstr string_new [104; 105; 0] = Done str' /\ str_rep str' [104; 105] true.
Proof.
  apply (string_append_correct string_new [] [104; 105; 0] [104; 105] false).
  - exact string_new_rep.
  - exists []. split; [reflexivity | repeat constructor; lia].
Defined.

(** ** Searching *)

Lemma agree_ok l : forall needle n r1 r2,
  Forall (fun c => c <> 0) l -> Forall (fun c => c <> 0) n -> needle = n ++ 0 :: r2 ->
  agree (l ++ 0 :: r1) needle = Done (bool_decide (take (length n) l = take (length l) n)).
Proof.
  induction l as [|c l IH]; intros needle n r1 r2 Hl Hn ->; simpl.
  - rewrite take_nil. done.
  - inversion Hl; subst. destruct (Z.eqb_spec c 0); [done|]. destruct n as [|x n]; simpl; [done|].
    inversion Hn; subst. destruct (Z.eqb_spec x 0); [done|]. destruct (Z.eqb_spec c x) as [->|Hne].
    + rewrite (IH _ n r1 r2) by done. f_equal. apply bool_decide_ext. split; congruence.
    + rewrite bool_decide_eq_false_2; [done | congruence].
Qed.

(** What [string_find_cstr] finds.  It returns the least position at which the
    rest of the haystack and the needle agree as far as both go, and -1 if there
    is none.  A position whose rest is at least as long as the needle is a real
    occurrence; near the end of the haystack a proper prefix of the needle is
    enough. *)
Theorem string_find_spec (str : string_t) (l needle n : list Z)
    (Hs : str_rep str l true) (Hn : c_string needle n) :
  exists r, string_find_cstr str needle = Done r /\
    let agrees (k : nat) := take (length n) (drop k l) = take (length (drop k l)) n in
    (r = -1 /\ (forall k, (k < length l)%nat -> ~ agrees k) \/
     exists k, r = Z.of_nat k /\ (k < length l)%nat /\ agrees k /\ (forall j, (j < k)%nat -> ~ agrees j) /\
       ((length n <= length l - k)%nat -> exists rest, drop k l = n ++ rest)).
Proof.
  destruct Hn as (r2 & -> & Hn). destruct Hs as [_ Hch _ _ _ Hterm]. destruct (Hterm eq_refl) as [rest Hd].
  unfold string_find_cstr. rewrite Hd.
  assert (Hw : exists r1, written (map Some (l ++ [0]) ++ rest) = l ++ 0 :: r1).
  { clear. induction l as [|c l [r1 IH]]; simpl; [eauto|]. exists r1. by rewrite IH. }
  destruct Hw as [r1 ->]. clear Hd Hterm.
  assert (G : forall t pre, l = pre ++ t ->
    (forall j, (j < length pre)%nat -> take (length n) (drop j l) <> take (length (drop j l)) n) ->
    exists r, find_loop (Z.of_nat (length pre)) (t ++ 0 :: r1) (n ++ 0 :: r2) = Done r /\
      (r = -1 /\ (forall k, (k < length l)%nat -> take (length n) (drop k l) <> take (length (drop k l)) n) \/
       exists k, r = Z.of_nat k /\ (k < length l)%nat /\ take (length n) (drop k l) = take (length (drop k l)) n /\
         (forall j, (j < k)%nat -> take (length n) (drop j l) <> take (length (drop j l)) n))).
  { induction t as [|c t IH]; intros pre Hl Hpre; cbn [app find_loop].
    - rewrite app_nil_r in Hl. subst pre. exists (-1). split; [done|]. by left.
    - assert (Hc : c <> 0 /\ Forall (fun c => c <> 0) t).
      { rewrite Hl in Hch. apply Forall_app in Hch as [_ Hch]. by inversion Hch. }
      destruct Hc as [Hc Ht]. destruct (Z.eqb_spec c 0); [done|].
      assert (Hdrop : drop (length pre) l = c :: t) by (by rewrite Hl, drop_app_length).
      change (c :: t ++ 0 :: r1) with ((c :: t) ++ 0 :: r1).
      rewrite (agree_ok (c :: t) _ n r1 r2) by (done || by constructor). cbn [outcome_bind].
      case_bool_decide as Ha.
      + exists (Z.of_nat (length pre)). split; [done|]. right. exists (length pre). split; [done|].
        split; [rewrite Hl, length_app; simpl; lia|]. rewrite Hdrop. done.
      + replace (Z.of_nat (length pre) + 1) with (Z.of_nat (length (pre ++ [c]))) by (rewrite length_app; simpl; lia).
        apply IH; [by rewrite <- app_assoc|]. intros j Hj. rewrite length_app in Hj. simpl in Hj.
        destruct (decide (j = length pre)) as [->|]; [by rewrite Hdrop | apply Hpre; lia]. }
  destruct (G l [] eq_refl) as (r & E & Hr); [simpl; lia|]. exists r. split; [exact E|].
  destruct Hr as [?|(k & -> & Hk & Ha & Hj)]; [by left | right]. exists k. repeat split; auto.
  intros Hlen. exists (drop (length n) (drop k l)).
  rewrite <- (take_drop (length n) (drop k l)) at 1. f_equal. rewrite Ha. apply take_ge. rewrite length_drop. lia.
Qed.

Definition ex_str : string_t := MkString (map Some [97; 98; 0] ++ [None]) 2 4.

(** Searching "ab" for "bc" gives 1: the end of the haystack counts as a match. *)
Lemma string_find_spec_witness : string_find_cstr ex_str [98; 99; 0] = Done 1.
Proof.
  destruct (string_find_spec ex_str [97; 98] [98; 99; 0] [98; 99]) as (r & E & _).
  - constructor; try done; [repeat constructor; lia | exists [Some 0; None] | exists [None]]; reflexivity.
  - exists []. split; [reflexivity | repeat constructor; lia].
  - rewrite E. vm_compute in E. injection E as <-. reflexivity.
Defined.
