(* ===== verification/Arena.v ===== *)
(** * Kernel memory pools

    [struct kmalloc_arena] of [kernel/memory.c]: a pool of objects of one size.
    The free list holds runs of consecutive free objects; a run is allocated from
    its end, and a freed object becomes a run of length one.  The free list is a
    queue of [list.h], represented by the sequence of its elements (see
    [ListHead]). *)
From S2P Require Import Prelude Message.

(** [struct free_list]: its own address and [num_objects]. *)
Record free_run := FreeRun { run_addr : Z; run_num : Z }.

Record kmalloc_arena := KmallocArena {
  free_list : list free_run;
  object_size : Z;
  num_objects : Z
}.

(** [sizeof(struct free_list)] in the release build. *)
Definition SIZEOF_FREE_LIST : Z := 24.

Definition OBJECT_ARENA_ADDR : Z := 0xffff800001000000.
Definition OBJECT_ARENA_LEN : Z := 0x400000.
Definition PAGE_ARENA_ADDR : Z := 0xffff800001400000.
Definition PAGE_ARENA_LEN : Z := 0xc00000.
Definition OBJ_MAX_SIZE : Z := 256.

Module Arena.

Definition add_free_list (addr num : Z) : M kmalloc_arena unit :=
  modify (fun a => KmallocArena (free_list a ++ [FreeRun addr num]) (object_size a) (num_objects a)).

Definition arena_init (addr arena_size obj_size : Z) : M kmalloc_arena unit :=
  c_assert (obj_size <? arena_size) ;;;
  c_assert (SIZEOF_FREE_LIST <? arena_size) ;;;
  let num := arena_size / obj_size in
  put (KmallocArena [] obj_size num) ;;;
  add_free_list addr num.

Definition kmalloc_from : M kmalloc_arena Z :=
  a <- get ;;
  match free_list a with
  | [] => panic
  | r :: rest =>
      let n := u64 (run_num r - 1) in
      put (KmallocArena (if 0 <? n then rest ++ [FreeRun (run_addr r) n] else rest)
             (object_size a) (num_objects a)) ;;;
      ret (u64 (run_addr r + u64 (n * object_size a)))
  end.

Definition kfree (ptr : Z) : M kmalloc_arena unit := add_free_list ptr 1.

(** The arguments of the two pools in [memory_init]. *)
Definition object_arena_init : M kmalloc_arena unit :=
  arena_init OBJECT_ARENA_ADDR OBJECT_ARENA_LEN OBJ_MAX_SIZE.
Definition page_arena_init : M kmalloc_arena unit :=
  arena_init PAGE_ARENA_ADDR PAGE_ARENA_LEN PAGE_SIZE.

End Arena.
Import Arena.

(** ** Free objects *)

Definition run_objs (size : Z) (r : free_run) : list Z :=
  (fun i => run_addr r + i * size) <$> seqZ 0 (run_num r).

Definition free_objs (a : kmalloc_arena) : list Z :=
  free_list a ≫= run_objs (object_size a).

(** All the objects of a pool. *)
Definition slots (base size num : Z) : list Z := (fun i => base + i * size) <$> seqZ 0 num.

(** The pool and its live objects together are exactly the slots. *)
Record arena_inv (base size num : Z) (a : kmalloc_arena) (live : list Z) : Prop := {
  inv_size : object_size a = size;
  inv_num : num_objects a = num;
  inv_pos : 0 < size;
  inv_base : 0 <= base /\ base + num * size <= 2 ^ 64;
  inv_runs : Forall (fun r => 1 <= run_num r < 2 ^ 64) (free_list a);
  inv_partition : free_objs a ++ live ≡ₚ slots base size num
}.

Lemma slots_NoDup base size num : 0 < size -> NoDup (slots base size num).
Proof.
  intros Hs. apply NoDup_fmap_2_strong; [|apply NoDup_seqZ].
  intros i j _ _ H. nia.
Qed.

Lemma elem_of_slots base size num x :
  x ∈ slots base size num <-> exists i, x = base + i * size /\ 0 <= i < num.
Proof.
  unfold slots. rewrite list_elem_of_fmap. setoid_rewrite elem_of_seqZ. naive_solver.
Qed.

Lemma run_objs_last size r :
  1 <= run_num r ->
  run_objs size r =
    run_objs size (FreeRun (run_addr r) (run_num r - 1)) ++ [run_addr r + (run_num r - 1) * size].
Proof.
  intros H. unfold run_objs; simpl. replace (run_num r) with ((run_num r - 1) + 1) at 1 by lia.
  rewrite seqZ_app, fmap_app by lia. f_equal.
Qed.

Lemma arena_inv_in base size num a live x :
  arena_inv base size num a live -> x ∈ free_objs a ++ live -> exists i, x = base + i * size /\ 0 <= i < num.
Proof. intros H Hx. apply elem_of_slots. by rewrite <- (inv_partition _ _ _ _ _ H). Qed.

(** ** Operations *)

Lemma arena_init_ok base len size a :
  0 < size < len -> SIZEOF_FREE_LIST < len -> 0 < base -> base + len <= 2 ^ 64 ->
  exists a', arena_init base len size a = Done (tt, a') /\ arena_inv base size (len / size) a' [].
Proof.
  intros Hs Hl Hb Hlen. unfold arena_init, bind, c_assert.
  destruct (Z.ltb_spec size len); [|lia].
  destruct (Z.ltb_spec SIZEOF_FREE_LIST len); [|lia].
  simpl. eexists. split; [reflexivity|].
  pose proof (Z.div_mod len size). pose proof (Z.mod_pos_bound len size).
  assert (1 <= len / size) by (apply Z.div_le_lower_bound; lia).
  constructor; simpl; [done | done | lia | | |].
  - split; [lia|]. nia.
  - repeat constructor; simpl; [lia|]. assert (len / size <= len) by (apply Z.div_le_upper_bound; nia). lia.
  - unfold free_objs, run_objs, slots. simpl. rewrite !app_nil_r. done.
Qed.

Lemma kmalloc_ok base size num a live :
  arena_inv base size num a live -> free_list a <> [] ->
  exists p a', kmalloc_from a = Done (p, a') /\ (p ∉ live) /\ arena_inv base size num a' (p :: live).
Proof.
  intros HI Hne. unfold kmalloc_from, bind, get, put, ret.
  destruct (free_list a) as [|r rest] eqn:Hfl; [done|].
  pose proof (inv_runs _ _ _ _ _ HI) as Hr. rewrite Hfl in Hr. inversion Hr as [|? ? Hr1 Hr2]; subst.
  pose proof (inv_size _ _ _ _ _ HI) as Hsz.
  set (p := run_addr r + (run_num r - 1) * size).
  assert (Hperm : p :: free_objs (KmallocArena
      (if 0 <? run_num r - 1 then rest ++ [FreeRun (run_addr r) (run_num r - 1)] else rest)
      (object_size a) (num_objects a)) ≡ₚ free_objs a).
  { unfold free_objs. rewrite Hfl. simpl. rewrite Hsz, (run_objs_last size r) by lia. fold p.
    destruct (Z.ltb_spec 0 (run_num r - 1)).
    - rewrite bind_app. simpl. rewrite app_nil_r.
      rewrite <- app_assoc. simpl. rewrite <- Permutation_middle. f_equiv.
      apply Permutation_app_comm.
    - replace (run_num r - 1) with 0 by lia. unfold run_objs at 2. simpl. done. }
  assert (Hin : p ∈ free_objs a) by (rewrite <- Hperm; set_solver).
  destruct (arena_inv_in base size num a live p) as (i & Hpi & Hi); [done | set_solver|].
  pose proof (inv_base _ _ _ _ _ HI) as [Hb1 Hb2]. pose proof (inv_pos _ _ _ _ _ HI) as Hpos.
  assert (Hpr : 0 <= p < 2 ^ 64) by (rewrite Hpi; nia).
  assert (Hmod : u64 (run_addr r + u64 (u64 (run_num r - 1) * object_size a)) = p).
  { rewrite (u64_small (run_num r - 1)) by lia. rewrite Hsz. unfold u64.
    rewrite Zplus_mod_idemp_r. apply Z.mod_small. exact Hpr. }
  assert (Hnd : NoDup (free_objs a ++ live)).
  { rewrite (inv_partition _ _ _ _ _ HI). by apply slots_NoDup. }
  rewrite Hmod, (u64_small (run_num r - 1)) by lia.
  eexists _, _. split; [reflexivity|]. split.
  - apply NoDup_app in Hnd as (_ & Hdj & _). auto.
  - split; simpl; try apply HI; [|].
    + destruct (Z.ltb_spec 0 (run_num r - 1)); [|done].
      apply Forall_app. split; [done|]. repeat constructor; simpl; lia.
    + rewrite <- Permutation_middle.
      rewrite app_comm_cons, Hperm. apply HI.
Qed.

Lemma kmalloc_panic base size num a live :
  arena_inv base size num a live -> kmalloc_from a = Panic <-> live ≡ₚ slots base size num.
Proof.
  intros HI. split.
  - unfold kmalloc_from, bind, get, put, ret.
    destruct (free_list a) as [|r rest] eqn:Hfl; [|done]. intros _.
    pose proof (inv_partition _ _ _ _ _ HI) as Hp. unfold free_objs in Hp. rewrite Hfl in Hp. exact Hp.
  - intros Hlive. destruct (free_list a) as [|r rest] eqn:Hfl.
    { unfold kmalloc_from, bind, get. rewrite Hfl. reflexivity. }
    exfalso. pose proof (inv_partition _ _ _ _ _ HI) as Hp. rewrite <- Hlive in Hp.
    apply Permutation_length in Hp. rewrite length_app in Hp.
    assert (length (free_objs a) = 0%nat) as H0 by lia.
    pose proof (inv_runs _ _ _ _ _ HI) as Hr. unfold free_objs in H0. rewrite Hfl in *.
    inversion Hr; subst. simpl in H0. rewrite length_app in H0. unfold run_objs in H0.
    rewrite length_fmap, length_seqZ in H0. lia.
Qed.

Lemma kfree_ok base size num a l1 p l2 :
  arena_inv base size num a (l1 ++ p :: l2) ->
  exists a', kfree p a = Done (tt, a') /\ arena_inv base size num a' (l1 ++ l2).
Proof.
  intros HI. eexists. split; [reflexivity|]. split; simpl; try apply HI.
  - apply Forall_app. split; [apply HI|]. repeat constructor; simpl; lia.
  - rewrite <- (inv_partition _ _ _ _ _ HI).
    rewrite (app_assoc (free_objs a)), <- (Permutation_middle (free_objs a ++ l1)), <- app_assoc.
    rewrite app_comm_cons. f_equiv. unfold free_objs. simpl.
    rewrite bind_app. simpl. unfold run_objs at 2. simpl.
    rewrite Z.mul_0_l, Z.add_0_r. rewrite <- Permutation_cons_append. done.
Qed.

(** ** Reachable pools *)

(** A pool together with the objects handed out and not yet freed. *)
Inductive arena_step : kmalloc_arena * list Z -> kmalloc_arena * list Z -> Prop :=
| step_kmalloc a live p a' :
    kmalloc_from a = Done (p, a') -> arena_step (a, live) (a', p :: live)
| step_kfree a l1 p l2 a' :
    kfree p a = Done (tt, a') -> arena_step (a, l1 ++ p :: l2) (a', l1 ++ l2).

Definition arena_reachable (base len size : Z) (st : kmalloc_arena * list Z) : Prop :=
  exists a0 a, arena_init base len size a0 = Done (tt, a) /\ rtc arena_step (a, []) st.

Lemma arena_step_inv base size num st st' :
  arena_inv base size num st.1 st.2 -> arena_step st st' -> arena_inv base size num st'.1 st'.2.
Proof.
  intros HI Hstep. destruct Hstep as [a live p a' E | a l1 p l2 a' E]; simpl in *.
  - destruct (kmalloc_ok base size num a live HI) as (p' & a'' & E' & _ & HI').
    + intros Hnil. unfold kmalloc_from, bind, get in E. rewrite Hnil in E. done.
    + congruence.
  - destruct (kfree_ok base size num a l1 p l2 HI) as (a'' & E' & HI'). congruence.
Qed.

Lemma arena_reachable_inv base len size st :
  0 < size < len -> SIZEOF_FREE_LIST < len -> 0 < base -> base + len <= 2 ^ 64 ->
  arena_reachable base len size st -> arena_inv base size (len / size) st.1 st.2.
Proof.
  intros H1 H2 H3 H4 (a0 & a & E & Hr).
  destruct (arena_init_ok base len size a0) as (a' & E' & HI); try done.
  assert (a' = a) as -> by congruence. clear E E'.
  remember (a, []) as st0 eqn:E0.
  assert (HI0 : arena_inv base size (len / size) st0.1 st0.2) by (by subst).
  clear E0 HI. induction Hr as [|x y z Hxy Hyz IH]; [done|].
  apply IH. eapply arena_step_inv; eauto.
Qed.

(** C27: in every state a pool can reach by allocating objects and freeing live
    ones, the live objects are pairwise distinct slots of the pool, inside its
    memory and [object_size] bytes apart, so no two live objects overlap; and an
    allocation either hands out a slot that is not live, or panics, which it
    does exactly when every object of the pool is live. *)
Theorem kmalloc_safe (base len size : Z) (a : kmalloc_arena) (live : list Z)
    (Hsize : 0 < size < len) (Hlen : SIZEOF_FREE_LIST < len)
    (Hbase : 0 < base) (Hend : base + len <= 2 ^ 64)
    (Hr : arena_reachable base len size (a, live)) :
  NoDup live /\
  (forall p, p ∈ live -> base <= p /\ p + size <= base + len) /\
  (forall p q, p ∈ live -> q ∈ live -> p < q -> p + size <= q) /\
  ((exists p a', kmalloc_from a = Done (p, a') /\ (p ∉ live) /\
      arena_reachable base len size (a', p :: live))
   \/ (kmalloc_from a = Panic /\ Z.of_nat (length live) = len / size)).
Proof.
  pose proof (arena_reachable_inv _ _ _ _ Hsize Hlen Hbase Hend Hr) as HI. simpl in HI.
  assert (Hsl : forall p, p ∈ live -> exists i, p = base + i * size /\ 0 <= i < len / size).
  { intros p Hp. eapply arena_inv_in; [exact HI | set_solver]. }
  assert (Hdiv : len / size * size <= len) by (rewrite Z.mul_comm; apply Z.mul_div_le; lia).
  split_and!.
  - pose proof (slots_NoDup base size (len / size)) as Hnd.
    rewrite <- (inv_partition _ _ _ _ _ HI) in Hnd. apply NoDup_app in Hnd; [tauto | lia].
  - intros p Hp. destruct (Hsl p Hp) as (i & -> & Hi). split; [nia|].
    assert ((i + 1) * size <= len / size * size) by (apply Z.mul_le_mono_nonneg_r; lia). lia.
  - intros p q Hp Hq Hlt. destruct (Hsl p Hp) as (i & -> & Hi).
    destruct (Hsl q Hq) as (j & -> & Hj).
    assert (i < j) by (apply (Z.mul_lt_mono_pos_r size); lia).
    assert ((i + 1) * size <= j * size) by (apply Z.mul_le_mono_nonneg_r; lia). lia.
  - destruct (free_list a) eqn:Hfl.
    + right. assert (E : kmalloc_from a = Panic).
      { unfold kmalloc_from, bind, get. by rewrite Hfl. }
      split; [done|]. apply (kmalloc_panic _ _ _ _ _ HI) in E.
      apply Permutation_length in E. rewrite E. unfold slots. rewrite length_fmap, length_seqZ.
      assert (0 <= len / size) by (apply Z.div_pos; lia). lia.
    + left. destruct (kmalloc_ok _ _ _ _ _ HI) as (p & a' & E & Hp & _); [by rewrite Hfl|].
      exists p, a'. split_and!; [done | done |].
      destruct Hr as (a0 & a1 & E0 & Hr). exists a0, a1. split; [done|].
      eapply rtc_r; [exact Hr|]. by constructor.
Qed.

(** A pool of four objects: three allocations, then one of them freed. *)
Definition demo_arena : kmalloc_arena :=
  KmallocArena [FreeRun 4096 1; FreeRun 4608 1] 256 4.

Lemma demo_arena_reachable : arena_reachable 4096 1024 256 (demo_arena, [4352; 4864]).
Proof.
  eexists (KmallocArena [] 0 0), _. split; [vm_compute; reflexivity|].
  eapply rtc_l; [apply step_kmalloc; vm_compute; reflexivity|].
  eapply rtc_l; [apply step_kmalloc; vm_compute; reflexivity|].
  eapply rtc_l; [apply step_kmalloc; vm_compute; reflexivity|].
  eapply rtc_l; [apply (step_kfree _ [4352] 4608 [4864]); vm_compute; reflexivity|].
  apply rtc_refl.
Qed.

Lemma kmalloc_safe_witness :
  NoDup [4352; 4864] /\
  (forall p, p ∈ [4352; 4864] -> 4096 <= p /\ p + 256 <= 4096 + 1024) /\
  (forall p q, p ∈ [4352; 4864] -> q ∈ [4352; 4864] -> p < q -> p + 256 <= q) /\
  ((exists p a', kmalloc_from demo_arena = Done (p, a') /\ (p ∉ [4352; 4864]) /\
      arena_reachable 4096 1024 256 (a', [p; 4352; 4864]))
   \/ (kmalloc_from demo_arena = Panic /\ Z.of_nat (length [4352; 4864]) = 1024 / 256)).
Proof.
  apply (kmalloc_safe 4096 1024 256 demo_arena [4352; 4864]);
    [lia | unfold SIZEOF_FREE_LIST; lia | lia | lia | apply demo_arena_reachable].
Defined.
