(* ===== verification/Table.v ===== *)
(** * Tables of kernel objects

    [struct table] of [kernel/include/table.h]: an array of pointers that
    allocates identifiers (channel, process and thread ids, timers) and looks
    objects up by them.  An entry is NULL (free), [RESERVED] (allocated, no value
    yet) or a pointer. *)
From S2P Require Import Prelude Message Arena.
Import Arena.

Definition ID_START : Z := 1.
Definition RESERVED : Z := 0xcafecafe.

(** [entries] is the page that holds the array, [tvals] its content. *)
Record table := Table { entries : Z; tvals : list Z; num_entries : Z }.

Module Tbl.

Definition SIZEOF_PTR : Z := 8.

(** [KMALLOC(arena, size)]. *)
Definition KMALLOC (size : Z) : M kmalloc_arena Z :=
  a <- get ;;
  c_assert (size <=? object_size a) ;;;
  kmalloc_from.

Definition table_init : M kmalloc_arena table :=
  page <- KMALLOC PAGE_SIZE ;;
  let num := PAGE_SIZE / SIZEOF_PTR in
  ret (Table page (replicate (Z.to_nat num) 0) num).

Definition table_destroy (t : table) : M kmalloc_arena unit := kfree (entries t).

(** The loop of [table_alloc] from entry [i] on. *)
Fixpoint alloc_from (n : nat) (i : Z) (t : table) : outcome (Z * table) :=
  match n with
  | O => Done (0, t)
  | S n =>
      if i <? num_entries t then
        match arr_get (tvals t) i with
        | None => Undef
        | Some v =>
            if v =? 0 then
              match arr_set (tvals t) i RESERVED with
              | Some es => Done (i, Table (entries t) es (num_entries t))
              | None => Undef
              end
            else alloc_from n (i + 1) t
        end
      else Done (0, t)
  end.

Definition table_alloc (t : table) : outcome (Z * table) :=
  alloc_from (Z.to_nat (num_entries t)) ID_START t.

Definition table_free (t : table) (id : Z) : outcome table :=
  match arr_set (tvals t) id 0 with
  | Some es => Done (Table (entries t) es (num_entries t))
  | None => Undef
  end.

Definition table_set (t : table) (id value : Z) : outcome table :=
  match arr_get (tvals t) id with
  | None => Undef
  | Some v =>
      if negb (v =? RESERVED) then Panic
      else if (id =? 0) || (num_entries t <=? id) then Panic
      else
        match arr_set (tvals t) id value with
        | Some es => Done (Table (entries t) es (num_entries t))
        | None => Undef
        end
  end.

Definition table_get (t : table) (id : Z) : outcome Z :=
  if num_entries t <=? id then Done 0
  else match arr_get (tvals t) id with Some v => Done v | None => Undef end.

End Tbl.
Import Tbl.

(** ** Specification: a partial map from identifiers *)

Inductive slot := Reserved | Value (v : Z).

Abbreviation id_map := (gmap Z slot).

Definition slot_val (o : option slot) : Z :=
  match o with None => 0 | Some Reserved => RESERVED | Some (Value v) => v end.

Definition slot_ok (x : slot) : Prop :=
  match x with Reserved => True | Value v => v <> 0 /\ v <> RESERVED end.

(** [t] holds the map [A]; entry 0 is never used. *)
Record table_rep (n : Z) (t : table) (A : id_map) : Prop := {
  rep_num : num_entries t = n;
  rep_len : Z.of_nat (length (tvals t)) = n;
  rep_val : forall i, 0 <= i < n -> arr_get (tvals t) i = Some (slot_val (A !! i));
  rep_dom : forall i x, A !! i = Some x -> ID_START <= i < n /\ slot_ok x
}.

Inductive table_op :=
| TAlloc
| TSet (id v : Z)
| TGet (id : Z)
| TFree (id : Z).

(** The least free identifier from [i] on, if there is one below [n]. *)
Fixpoint least_free (fuel : nat) (i : Z) (A : id_map) : option Z :=
  match fuel with
  | O => None
  | S fuel => match A !! i with None => Some i | Some _ => least_free fuel (i + 1) A end
  end.

(** What the operations mean on the map, for callers that set only reserved
    identifiers, to a proper pointer, and free only allocated ones. *)
Definition table_spec (n : Z) (op : table_op) (A : id_map) : option (Z * id_map) :=
  match op with
  | TAlloc =>
      Some (match least_free (Z.to_nat (n - ID_START)) ID_START A with
            | Some i => (i, <[i := Reserved]> A)
            | None => (0, A)
            end)
  | TSet id v =>
      if (v =? 0) || (v =? RESERVED) then None
      else match A !! id with Some Reserved => Some (0, <[id := Value v]> A) | _ => None end
  | TGet id => if 0 <=? id then Some (slot_val (A !! id), A) else None
  | TFree id => match A !! id with Some _ => Some (0, delete id A) | None => None end
  end.

Definition table_impl (op : table_op) : M table Z :=
  match op with
  | TAlloc => fun t => table_alloc t
  | TSet id v => fun t => outcome_bind (table_set t id v) (fun t' => Done (0, t'))
  | TGet id => fun t => outcome_bind (table_get t id) (fun v => Done (v, t))
  | TFree id => fun t => outcome_bind (table_free t id) (fun t' => Done (0, t'))
  end.

Lemma rep_lookup n t A i : table_rep n t A -> n <= i \/ i < 0 -> A !! i = None.
Proof.
  intros HR Hi. destruct (A !! i) eqn:E; [|done].
  apply (rep_dom _ _ _ HR) in E. unfold ID_START in E. lia.
Qed.

(** One entry changes. *)
Lemma rep_update n t A id o :
  table_rep n t A -> 0 <= id < n ->
  (forall x, o = Some x -> ID_START <= id /\ slot_ok x) ->
  exists es, arr_set (tvals t) id (slot_val o) = Some es /\
    table_rep n (Table (entries t) es (num_entries t)) (partial_alter (fun _ => o) id A).
Proof.
  intros HR Hid Ho. pose proof (rep_len _ _ _ HR) as Hl.
  destruct (arr_set (tvals t) id (slot_val o)) as [es|] eqn:E.
  2: { rewrite arr_set_Some in E by lia. done. }
  exists es. split; [done|]. split; simpl.
  - apply HR.
  - rewrite (arr_set_length _ _ _ _ E). exact Hl.
  - intros i Hi. rewrite (arr_get_set _ _ _ _ _ E). destruct (Z.eqb_spec i id) as [->|Hne].
    + by rewrite lookup_partial_alter_eq.
    + rewrite lookup_partial_alter_ne by done. by apply HR.
  - intros i x Hx. destruct (decide (i = id)) as [->|Hne].
    + rewrite lookup_partial_alter_eq in Hx. apply Ho in Hx. lia || (destruct Hx; split; [lia|done]).
    + rewrite lookup_partial_alter_ne in Hx by done. by apply (rep_dom _ _ _ HR) in Hx.
Qed.

Lemma slot_val_zero n t A i : table_rep n t A -> slot_val (A !! i) = 0 <-> A !! i = None.
Proof.
  intros HR. destruct (A !! i) as [[|v]|] eqn:E; simpl; split; try done.
  apply (rep_dom _ _ _ HR) in E. naive_solver.
Qed.

Lemma alloc_from_ok n t A : table_rep n t A ->
  forall fuel fuel' i, ID_START <= i -> (Z.to_nat (n - i) <= fuel)%nat -> fuel' = Z.to_nat (n - i) ->
  exists t', alloc_from fuel i t =
      Done (match least_free fuel' i A with Some j => j | None => 0 end, t') /\
    table_rep n t' (match least_free fuel' i A with Some j => <[j := Reserved]> A | None => A end).
Proof.
  intros HR. pose proof (rep_num _ _ _ HR) as Hn. unfold ID_START.
  induction fuel as [|fuel IH]; intros fuel' i Hi Hf ->; cbn [alloc_from].
  - replace (Z.to_nat (n - i)) with 0%nat by lia. simpl. eauto.
  - rewrite Hn. destruct (Z.ltb_spec i n).
    2: { replace (Z.to_nat (n - i)) with 0%nat by lia. simpl. eauto. }
    rewrite (rep_val _ _ _ HR) by lia.
    replace (Z.to_nat (n - i)) with (S (Z.to_nat (n - (i + 1)))) by lia. cbn [least_free].
    destruct (A !! i) as [x|] eqn:E.
    + destruct (Z.eqb_spec (slot_val (Some x)) 0) as [E0|_].
      { rewrite <- E in E0. apply (slot_val_zero n t A i HR) in E0. congruence. }
      apply IH; [lia | lia | reflexivity].
    + simpl. destruct (rep_update n t A i (Some Reserved) HR) as (es & Ees & HR');
        [lia | intros ? [= <-]; unfold ID_START; simpl; split; [lia|done]|].
      simpl in Ees. rewrite Ees. eexists. split; [reflexivity|]. rewrite Hn in HR'. exact HR'.
Qed.

Lemma table_step_refines n t A op r A' :
  ID_START < n -> table_rep n t A -> table_spec n op A = Some (r, A') ->
  exists t', table_impl op t = Done (r, t') /\ table_rep n t' A'.
Proof.
  intros Hn1 HR Hs. pose proof (rep_num _ _ _ HR) as Hn. destruct op as [|id v|id|id]; simpl in *.
  - unfold table_alloc. rewrite Hn.
    destruct (alloc_from_ok n t A HR (Z.to_nat n) (Z.to_nat (n - ID_START)) ID_START)
      as (t' & E & HR'); [lia | unfold ID_START; lia | done |].
    injection Hs as Hs. rewrite E. destruct (least_free _ _ _); injection Hs as <- <-; eauto.
  - destruct (Z.eqb_spec v 0) as [|Hv0]; [done|].
    destruct (Z.eqb_spec v RESERVED) as [|HvR]; [done|]. simpl in Hs.
    destruct (A !! id) as [[|]|] eqn:E; try done. injection Hs as <- <-.
    pose proof (rep_dom _ _ _ HR _ _ E) as [Hid _]. unfold table_set.
    unfold ID_START in *. rewrite (rep_val _ _ _ HR) by lia. rewrite E. simpl.
    rewrite Hn. destruct (Z.eqb_spec id 0); [lia|]. destruct (Z.leb_spec n id); [lia|]. simpl.
    destruct (rep_update n t A id (Some (Value v)) HR) as (es & Ees & HR');
      [lia | intros ? [= <-]; unfold ID_START; simpl; split; [lia|done]|].
    simpl in Ees. rewrite Ees. simpl. eexists. split; [reflexivity|]. rewrite Hn in HR'. exact HR'.
  - destruct (Z.leb_spec 0 id); [|done]. injection Hs as <- <-. unfold table_get. rewrite Hn.
    destruct (Z.leb_spec n id).
    + rewrite (rep_lookup n t A id HR) by lia. simpl. eauto.
    + rewrite (rep_val _ _ _ HR) by lia. simpl. eauto.
  - destruct (A !! id) as [x|] eqn:E; [|done]. injection Hs as <- <-.
    pose proof (rep_dom _ _ _ HR _ _ E) as [Hid _]. unfold ID_START in Hid. unfold table_free.
    destruct (rep_update n t A id None HR) as (es & Ees & HR'); [lia | done |].
    simpl in Ees. rewrite Ees. simpl. eexists. split; [reflexivity|]. exact HR'.
Qed.

Fixpoint table_run (ops : list table_op) : M table (list Z) :=
  match ops with
  | [] => ret []
  | op :: ops => r <- table_impl op ;; rs <- table_run ops ;; ret (r :: rs)
  end.

Fixpoint table_run_spec (n : Z) (ops : list table_op) (A : id_map) : option (list Z * id_map) :=
  match ops with
  | [] => Some ([], A)
  | op :: ops =>
      match table_spec n op A with
      | Some (r, A1) =>
          match table_run_spec n ops A1 with
          | Some (rs, A2) => Some (r :: rs, A2)
          | None => None
          end
      | None => None
      end
  end.

Lemma table_run_ok n ops : ID_START < n -> forall t A rs A',
  table_rep n t A -> table_run_spec n ops A = Some (rs, A') ->
  exists t', table_run ops t = Done (rs, t') /\ table_rep n t' A'.
Proof.
  intros Hn. induction ops as [|op ops IH]; intros t A rs A' HR Hs; simpl in *.
  - injection Hs as <- <-. unfold ret. eauto.
  - destruct (table_spec n op A) as [[r A1]|] eqn:E1; [|done].
    destruct (table_run_spec n ops A1) as [[rs' A2]|] eqn:E2; [|done]. injection Hs as <- <-.
    destruct (table_step_refines _ _ _ _ _ _ Hn HR E1) as (t1 & R1 & HR1).
    destruct (IH _ _ _ _ HR1 E2) as (t2 & R2 & HR2).
    exists t2. unfold bind. rewrite R1, R2. auto.
Qed.

(** The table that [table_init] builds, in the page at [page]. *)
Definition fresh_table (page : Z) : table :=
  Table page (replicate (Z.to_nat (PAGE_SIZE / SIZEOF_PTR)) 0) (PAGE_SIZE / SIZEOF_PTR).

Lemma fresh_table_rep page : table_rep (PAGE_SIZE / SIZEOF_PTR) (fresh_table page) ∅.
Proof.
  split; try done.
  intros i Hi. apply arr_get_Some. split; [lia|]. rewrite lookup_empty.
  unfold fresh_table, tvals, slot_val. apply lookup_replicate. split; [done|]. lia.
Qed.

(** C31: a table behaves as a partial map from identifiers to pointers.  Started
    on the table [table_init] returns, any sequence of operations that gets identifiers that
    are not negative, sets only reserved ones and frees only allocated ones runs without
    stopping the kernel or leaving the array, and returns what the map returns:
    [table_alloc] gives the least unused identifier in 1..511 (0 when there is
    none), [table_get] the pointer last set (NULL for 0, for identifiers of 512 and more and
    for free ones).  (A negative identifier makes [table_get] read outside the array,
    [table_get_negative].) *)
Theorem table_refines_map (a a' : kmalloc_arena) (t : table)
    (ops : list table_op) (rs : list Z) (A : id_map)
    (Hinit : table_init a = Done (t, a'))
    (Hspec : table_run_spec (PAGE_SIZE / SIZEOF_PTR) ops ∅ = Some (rs, A)) :
  exists t', table_run ops t = Done (rs, t') /\ table_rep (PAGE_SIZE / SIZEOF_PTR) t' A.
Proof.
  unfold table_init in Hinit. mstep Hinit. unfold ret in Hinit. injection Hinit as <- <-.
  eapply table_run_ok; [done | apply fresh_table_rep | exact Hspec].
Qed.

Definition demo_page_arena : kmalloc_arena := KmallocArena [FreeRun 0x5000 3] 4096 3.

Lemma table_refines_map_witness :
  exists t', table_run [TAlloc; TSet 1 0xa00; TAlloc; TSet 2 0xb00; TFree 1; TAlloc; TSet 1 0xc00;
                        TGet 1; TGet 2; TGet 3; TGet 0; TGet 600] (fresh_table 0x7000)
    = Done ([1; 0; 2; 0; 0; 1; 0; 0xc00; 0xb00; 0; 0; 0], t') /\
    table_rep 512 t' (<[1 := Value 0xc00]> (<[2 := Value 0xb00]> ∅)).
Proof.
  apply (table_refines_map demo_page_arena (KmallocArena [FreeRun 0x5000 2] 4096 3)
           (fresh_table 0x7000)
           [TAlloc; TSet 1 0xa00; TAlloc; TSet 2 0xb00; TFree 1; TAlloc; TSet 1 0xc00;
            TGet 1; TGet 2; TGet 3; TGet 0; TGet 600]).
  - vm_compute. reflexivity.
  - vm_compute. reflexivity.
Defined.

(** [table_get] checks its identifier against the size of the table only: for
    every negative identifier, which system calls pass through from user
    programs, it reads outside the array. *)
Theorem table_get_negative (n : Z) (t : table) (A : id_map) (id : Z)
    (HR : table_rep n t A) (Hn : 0 <= n) (Hid : id < 0) : table_get t id = Undef.
Proof.
  unfold table_get. rewrite (rep_num _ _ _ HR). destruct (Z.leb_spec n id); [lia|].
  unfold arr_get. destruct (Z.ltb_spec id 0); [done | lia].
Qed.

Lemma table_get_negative_witness : table_get (fresh_table 0x7000) (-5) = Undef.
Proof. apply (table_get_negative 512 (fresh_table 0x7000) ∅); [apply fresh_table_rep | lia | lia]. Defined.
