(* ===== verification/KState.v ===== *)
(** * The state of the kernel

    The data structures of the kernel ([thread.h], [channel.h], [process.h],
    [memory.h], [timer.h], [server.h] of [kernel/include]) as records, kept in
    finite maps keyed by the address of the object, and the accesses the C code
    makes through pointers.  A queue of [list.h] is the sequence of the objects
    in it. *)
From S2P Require Import Prelude Message Arena Table.
Import Arena Tbl.

Definition NULL : Z := 0.

(** Sizes of the kernel objects, for [KMALLOC]. *)
Definition SIZEOF_CHANNEL : Z := 80.
Definition SIZEOF_THREAD : Z := 160.
Definition SIZEOF_PROCESS : Z := 128.
Definition SIZEOF_VMAREA : Z := 56.
Definition SIZEOF_TIMER : Z := 48.
Definition SIZEOF_IRQ_LISTENER : Z := 32.
Definition SIZEOF_MESSAGE : Z := 512.

(** A word of the stack that a new thread starts on: a number, or the address of
    one of the two assembly routines that enter it. *)
Inductive stack_word :=
| Word (v : Z)
| x64_start_kernel_thread
| x64_start_user_thread.

(** [struct arch_thread].  [a_stack] are the words [rsp] points to in a thread
    that has not run yet; after that the stack belongs to the running code. *)
Record arch_thread := ArchThread {
  a_rsp : Z;
  a_kernel_stack : Z;
  a_cr3 : Z;
  a_info : Z;
  a_xsave_area : Z;
  a_rflags_ormask : Z;
  a_stack : list stack_word
}.

(** Where a thread that left the CPU inside the kernel continues.  A frame is one
    active C function with the local variables it still needs; the innermost
    function is the first frame of [t_kont]. *)
Inductive frame :=
| FSend (ch header syscall : Z) (kbuf : bool)
    (* sys_ipc: in the loop that waits for a receiver *)
| FSendPage (ch receiver syscall : Z) (kbuf dst_kbuf : bool) (page page_base : Z)
    (* sys_ipc: page_fault_handler runs for the page payload *)
| FRecv (recv_ch : Z) (kbuf : bool)
    (* sys_ipc: waits for a message *)
| FRecvFast (recv_ch : Z) (kbuf : bool)
    (* sys_ipc_fastpath: waits for a message *)
| FKernelIpc
    (* kernel_ipc: sys_ipc runs *)
| FUserPager
    (* user_pager: kernel_ipc runs *)
| FPageFault (vma vaddr : Z)
    (* page_fault_handler: the pager runs *)
| FException
    (* x64_handle_interrupt: page_fault_handler runs *)
| FSyscall
    (* the system call entry: syscall_handler runs *)
| FTimer (timer next ticks : Z)
    (* timer_interrupt_handler: the handler of a timer runs *)
| FServerMain
    (* kernel_server_main: the thread starts *)
| FServerRecv (server_ch : Z)
    (* mainloop of the kernel server: waits for a request *)
| FServerSend (server_ch : Z).
    (* mainloop of the kernel server: sends the reply *)

(** [struct thread] and the [struct thread_info] page it points to.  [t_use_kbuf] says
    which of the two buffers [ipc_buffer] points to; [t_kont] and [t_retval] stand for the
    kernel stack and the register the next return to user mode delivers. *)
Record thread := Thread {
  t_tid : Z;
  t_process : Z;
  t_blocked : bool;
  t_abort_reason : Z;
  t_blocked_on : Z;
  t_kernel_stack : Z;
  t_info : Z;
  t_kernel_ipc_buffer : Z;
  t_arch : arch_thread;
  t_self : Z;
  t_arg : Z;
  t_page_base : Z;
  t_info_msg : message;
  t_kbuf : message;
  t_use_kbuf : bool;
  t_kont : list frame;
  t_retval : Z
}.

(** [struct channel]. *)
Record channel_t := Channel {
  c_process : Z;
  c_cid : Z;
  c_ref_count : Z;
  c_destructed : bool;
  c_notification : Z;
  c_linked_with : Z;
  c_transfer_to : Z;
  c_receiver : Z;
  c_queue : list Z
}.

(** [struct process]. *)
Record process := Process {
  p_pid : Z;
  p_name : list Z;
  p_vmareas : list Z;
  p_threads : list Z;
  p_pml4 : Z;
  p_channels : table;
  p_channel_list : list Z
}.

(** The functions that vm areas and timers point to. *)
Inductive pager_t := initfs_pager | straight_map_pager | user_pager.
Inductive timer_handler := thread_switch_by_timeout | user_timer_handler.

(** [struct vmarea]. *)
Record vmarea := Vmarea {
  v_start : Z;
  v_end : Z;
  v_pager : pager_t;
  v_arg : Z;
  v_flags : Z
}.

(** [struct irq_listener]. *)
Record irq_listener := IrqListener { irq : Z; irq_ch : Z }.

(** The registers of the CPU that the kernel switches, [current_fpu_owner] of its
    [struct cpuvar], and the memory that holds saved FPU states.  The register GS.base is
    [current] below. *)
Record cpu_t := Cpu {
  cr3 : Z;
  user_gs_base : Z;
  tss_rsp0 : Z;
  cr0_ts : bool;
  current_fpu_owner : Z;
  fpu_regs : Z;
  xsave_mem : Z -> Z
}.

(** [struct timer]. *)
Record timer := Timer {
  tm_id : Z;
  tm_current : Z;
  tm_interval : Z;
  tm_handler : timer_handler;
  tm_arg : Z
}.

(** The kernel: its heap, one finite map per kind of object and keyed by address, its
    memory pools, and its global variables.  An address that is not in the map of the kind
    a pointer is used at is not a live object of that kind.  [initfs_addr] is the
    address of [__initfs]; [uninit] and [uninit_word] are
    the content of memory that was allocated and not written. *)
Record kstate := KState {
  object_arena : kmalloc_arena;
  page_arena : kmalloc_arena;
  threads : gmap Z thread;
  channels : gmap Z channel_t;
  processes : gmap Z process;
  vmareas : gmap Z vmarea;
  timer_objs : gmap Z timer;
  irq_objs : gmap Z irq_listener;
  ptmem : gmap Z (list Z);
  process_table : table;
  process_list : list Z;
  kernel_process : Z;
  init_process : Z;
  runqueue : list Z;
  current : Z;
  idle_thread : Z;
  cpu : cpu_t;
  timers : table;
  active_timers : list Z;
  user_timers : table;
  irq_listeners : table;
  active_irq_listeners : list Z;
  kernel_server_ch : Z;
  enabled_irqs : list Z;
  console : list Z;
  initfs_addr : Z;
  uninit : Z -> message;
  uninit_word : Z -> Z
}.

(** ** Field updates *)

Definition set_t_tid (v : Z) (t : thread) : thread :=
  Thread v (t_process t) (t_blocked t) (t_abort_reason t) (t_blocked_on t) (t_kernel_stack
    t) (t_info t) (t_kernel_ipc_buffer t) (t_arch t) (t_self t) (t_arg t) (t_page_base t)
    (t_info_msg t) (t_kbuf t) (t_use_kbuf t) (t_kont t) (t_retval t).
Definition set_t_process (v : Z) (t : thread) : thread :=
  Thread (t_tid t) v (t_blocked t) (t_abort_reason t) (t_blocked_on t) (t_kernel_stack t)
    (t_info t) (t_kernel_ipc_buffer t) (t_arch t) (t_self t) (t_arg t) (t_page_base t)
    (t_info_msg t) (t_kbuf t) (t_use_kbuf t) (t_kont t) (t_retval t).
Definition set_t_blocked (v : bool) (t : thread) : thread :=
  Thread (t_tid t) (t_process t) v (t_abort_reason t) (t_blocked_on t) (t_kernel_stack t)
    (t_info t) (t_kernel_ipc_buffer t) (t_arch t) (t_self t) (t_arg t) (t_page_base t)
    (t_info_msg t) (t_kbuf t) (t_use_kbuf t) (t_kont t) (t_retval t).
Definition set_t_abort_reason (v : Z) (t : thread) : thread :=
  Thread (t_tid t) (t_process t) (t_blocked t) v (t_blocked_on t) (t_kernel_stack t)
    (t_info t) (t_kernel_ipc_buffer t) (t_arch t) (t_self t) (t_arg t) (t_page_base t)
    (t_info_msg t) (t_kbuf t) (t_use_kbuf t) (t_kont t) (t_retval t).
Definition set_t_blocked_on (v : Z) (t : thread) : thread :=
  Thread (t_tid t) (t_process t) (t_blocked t) (t_abort_reason t) v (t_kernel_stack t)
    (t_info t) (t_kernel_ipc_buffer t) (t_arch t) (t_self t) (t_arg t) (t_page_base t)
    (t_info_msg t) (t_kbuf t) (t_use_kbuf t) (t_kont t) (t_retval t).
Definition set_t_kernel_stack (v : Z) (t : thread) : thread :=
  Thread (t_tid t) (t_process t) (t_blocked t) (t_abort_reason t) (t_blocked_on t) v
    (t_info t) (t_kernel_ipc_buffer t) (t_arch t) (t_self t) (t_arg t) (t_page_base t)
    (t_info_msg t) (t_kbuf t) (t_use_kbuf t) (t_kont t) (t_retval t).
Definition set_t_info (v : Z) (t : thread) : thread :=
  Thread (t_tid t) (t_process t) (t_blocked t) (t_abort_reason t) (t_blocked_on t)
    (t_kernel_stack t) v (t_kernel_ipc_buffer t) (t_arch t) (t_self t) (t_arg t)
    (t_page_base t) (t_info_msg t) (t_kbuf t) (t_use_kbuf t) (t_kont t) (t_retval t).
Definition set_t_kernel_ipc_buffer (v : Z) (t : thread) : thread :=
  Thread (t_tid t) (t_process t) (t_blocked t) (t_abort_reason t) (t_blocked_on t)
    (t_kernel_stack t) (t_info t) v (t_arch t) (t_self t) (t_arg t) (t_page_base t)
    (t_info_msg t) (t_kbuf t) (t_use_kbuf t) (t_kont t) (t_retval t).
Definition set_t_arch (v : arch_thread) (t : thread) : thread :=
  Thread (t_tid t) (t_process t) (t_blocked t) (t_abort_reason t) (t_blocked_on t)
    (t_kernel_stack t) (t_info t) (t_kernel_ipc_buffer t) v (t_self t) (t_arg t)
    (t_page_base t) (t_info_msg t) (t_kbuf t) (t_use_kbuf t) (t_kont t) (t_retval t).
Definition set_t_self (v : Z) (t : thread) : thread :=
  Thread (t_tid t) (t_process t) (t_blocked t) (t_abort_reason t) (t_blocked_on t)
    (t_kernel_stack t) (t_info t) (t_kernel_ipc_buffer t) (t_arch t) v (t_arg t)
    (t_page_base t) (t_info_msg t) (t_kbuf t) (t_use_kbuf t) (t_kont t) (t_retval t).
Definition set_t_arg (v : Z) (t : thread) : thread :=
  Thread (t_tid t) (t_process t) (t_blocked t) (t_abort_reason t) (t_blocked_on t)
    (t_kernel_stack t) (t_info t) (t_kernel_ipc_buffer t) (t_arch t) (t_self t) v
    (t_page_base t) (t_info_msg t) (t_kbuf t) (t_use_kbuf t) (t_kont t) (t_retval t).
Definition set_t_page_base (v : Z) (t : thread) : thread :=
  Thread (t_tid t) (t_process t) (t_blocked t) (t_abort_reason t) (t_blocked_on t)
    (t_kernel_stack t) (t_info t) (t_kernel_ipc_buffer t) (t_arch t) (t_self t) (t_arg t) v
    (t_info_msg t) (t_kbuf t) (t_use_kbuf t) (t_kont t) (t_retval t).
Definition set_t_info_msg (v : message) (t : thread) : thread :=
  Thread (t_tid t) (t_process t) (t_blocked t) (t_abort_reason t) (t_blocked_on t)
    (t_kernel_stack t) (t_info t) (t_kernel_ipc_buffer t) (t_arch t) (t_self t) (t_arg t)
    (t_page_base t) v (t_kbuf t) (t_use_kbuf t) (t_kont t) (t_retval t).
Definition set_t_kbuf (v : message) (t : thread) : thread :=
  Thread (t_tid t) (t_process t) (t_blocked t) (t_abort_reason t) (t_blocked_on t)
    (t_kernel_stack t) (t_info t) (t_kernel_ipc_buffer t) (t_arch t) (t_self t) (t_arg t)
    (t_page_base t) (t_info_msg t) v (t_use_kbuf t) (t_kont t) (t_retval t).
Definition set_t_use_kbuf (v : bool) (t : thread) : thread :=
  Thread (t_tid t) (t_process t) (t_blocked t) (t_abort_reason t) (t_blocked_on t)
    (t_kernel_stack t) (t_info t) (t_kernel_ipc_buffer t) (t_arch t) (t_self t) (t_arg t)
    (t_page_base t) (t_info_msg t) (t_kbuf t) v (t_kont t) (t_retval t).
Definition set_t_kont (v : list frame) (t : thread) : thread :=
  Thread (t_tid t) (t_process t) (t_blocked t) (t_abort_reason t) (t_blocked_on t)
    (t_kernel_stack t) (t_info t) (t_kernel_ipc_buffer t) (t_arch t) (t_self t) (t_arg t)
    (t_page_base t) (t_info_msg t) (t_kbuf t) (t_use_kbuf t) v (t_retval t).
Definition set_t_retval (v : Z) (t : thread) : thread :=
  Thread (t_tid t) (t_process t) (t_blocked t) (t_abort_reason t) (t_blocked_on t)
    (t_kernel_stack t) (t_info t) (t_kernel_ipc_buffer t) (t_arch t) (t_self t) (t_arg t)
    (t_page_base t) (t_info_msg t) (t_kbuf t) (t_use_kbuf t) (t_kont t) v.

Definition set_c_process (v : Z) (c : channel_t) : channel_t :=
  Channel v (c_cid c) (c_ref_count c) (c_destructed c) (c_notification c) (c_linked_with
    c) (c_transfer_to c) (c_receiver c) (c_queue c).
Definition set_c_cid (v : Z) (c : channel_t) : channel_t :=
  Channel (c_process c) v (c_ref_count c) (c_destructed c) (c_notification c)
    (c_linked_with c) (c_transfer_to c) (c_receiver c) (c_queue c).
Definition set_c_ref_count (v : Z) (c : channel_t) : channel_t :=
  Channel (c_process c) (c_cid c) v (c_destructed c) (c_notification c) (c_linked_with c)
    (c_transfer_to c) (c_receiver c) (c_queue c).
Definition set_c_destructed (v : bool) (c : channel_t) : channel_t :=
  Channel (c_process c) (c_cid c) (c_ref_count c) v (c_notification c) (c_linked_with c)
    (c_transfer_to c) (c_receiver c) (c_queue c).
Definition set_c_notification (v : Z) (c : channel_t) : channel_t :=
  Channel (c_process c) (c_cid c) (c_ref_count c) (c_destructed c) v (c_linked_with c)
    (c_transfer_to c) (c_receiver c) (c_queue c).
Definition set_c_linked_with (v : Z) (c : channel_t) : channel_t :=
  Channel (c_process c) (c_cid c) (c_ref_count c) (c_destructed c) (c_notification c) v
    (c_transfer_to c) (c_receiver c) (c_queue c).
Definition set_c_transfer_to (v : Z) (c : channel_t) : channel_t :=
  Channel (c_process c) (c_cid c) (c_ref_count c) (c_destructed c) (c_notification c)
    (c_linked_with c) v (c_receiver c) (c_queue c).
Definition set_c_receiver (v : Z) (c : channel_t) : channel_t :=
  Channel (c_process c) (c_cid c) (c_ref_count c) (c_destructed c) (c_notification c)
    (c_linked_with c) (c_transfer_to c) v (c_queue c).
Definition set_c_queue (v : list Z) (c : channel_t) : channel_t :=
  Channel (c_process c) (c_cid c) (c_ref_count c) (c_destructed c) (c_notification c)
    (c_linked_with c) (c_transfer_to c) (c_receiver c) v.

Definition set_p_pid (v : Z) (p : process) : process :=
  Process v (p_name p) (p_vmareas p) (p_threads p) (p_pml4 p) (p_channels p)
    (p_channel_list p).
Definition set_p_name (v : list Z) (p : process) : process :=
  Process (p_pid p) v (p_vmareas p) (p_threads p) (p_pml4 p) (p_channels p)
    (p_channel_list p).
Definition set_p_vmareas (v : list Z) (p : process) : process :=
  Process (p_pid p) (p_name p) v (p_threads p) (p_pml4 p) (p_channels p) (p_channel_list
    p).
Definition set_p_threads (v : list Z) (p : process) : process :=
  Process (p_pid p) (p_name p) (p_vmareas p) v (p_pml4 p) (p_channels p) (p_channel_list
    p).
Definition set_p_pml4 (v : Z) (p : process) : process :=
  Process (p_pid p) (p_name p) (p_vmareas p) (p_threads p) v (p_channels p)
    (p_channel_list p).
Definition set_p_channels (v : table) (p : process) : process :=
  Process (p_pid p) (p_name p) (p_vmareas p) (p_threads p) (p_pml4 p) v (p_channel_list p).
Definition set_p_channel_list (v : list Z) (p : process) : process :=
  Process (p_pid p) (p_name p) (p_vmareas p) (p_threads p) (p_pml4 p) (p_channels p) v.

Definition set_tm_current (v : Z) (t : timer) : timer :=
  Timer (tm_id t) v (tm_interval t) (tm_handler t) (tm_arg t).

Definition set_cr3 (v : Z) (c : cpu_t) : cpu_t :=
  Cpu v (user_gs_base c) (tss_rsp0 c) (cr0_ts c) (current_fpu_owner c) (fpu_regs c)
    (xsave_mem c).
Definition set_user_gs_base (v : Z) (c : cpu_t) : cpu_t :=
  Cpu (cr3 c) v (tss_rsp0 c) (cr0_ts c) (current_fpu_owner c) (fpu_regs c) (xsave_mem c).
Definition set_tss_rsp0 (v : Z) (c : cpu_t) : cpu_t :=
  Cpu (cr3 c) (user_gs_base c) v (cr0_ts c) (current_fpu_owner c) (fpu_regs c) (xsave_mem
    c).
Definition set_cr0_ts (v : bool) (c : cpu_t) : cpu_t :=
  Cpu (cr3 c) (user_gs_base c) (tss_rsp0 c) v (current_fpu_owner c) (fpu_regs c)
    (xsave_mem c).
Definition set_current_fpu_owner (v : Z) (c : cpu_t) : cpu_t :=
  Cpu (cr3 c) (user_gs_base c) (tss_rsp0 c) (cr0_ts c) v (fpu_regs c) (xsave_mem c).
Definition set_fpu_regs (v : Z) (c : cpu_t) : cpu_t :=
  Cpu (cr3 c) (user_gs_base c) (tss_rsp0 c) (cr0_ts c) (current_fpu_owner c) v (xsave_mem
    c).
Definition set_xsave_mem (v : Z -> Z) (c : cpu_t) : cpu_t :=
  Cpu (cr3 c) (user_gs_base c) (tss_rsp0 c) (cr0_ts c) (current_fpu_owner c) (fpu_regs c)
    v.

Definition set_object_arena (v : kmalloc_arena) (s : kstate) : kstate :=
  KState v (page_arena s) (threads s) (channels s) (processes s) (vmareas s) (timer_objs
    s) (irq_objs s) (ptmem s) (process_table s) (process_list s) (kernel_process s)
    (init_process s) (runqueue s) (current s) (idle_thread s) (cpu s) (timers s)
    (active_timers s) (user_timers s) (irq_listeners s) (active_irq_listeners s)
    (kernel_server_ch s) (enabled_irqs s) (console s) (initfs_addr s) (uninit s)
    (uninit_word s).
Definition set_page_arena (v : kmalloc_arena) (s : kstate) : kstate :=
  KState (object_arena s) v (threads s) (channels s) (processes s) (vmareas s) (timer_objs
    s) (irq_objs s) (ptmem s) (process_table s) (process_list s) (kernel_process s)
    (init_process s) (runqueue s) (current s) (idle_thread s) (cpu s) (timers s)
    (active_timers s) (user_timers s) (irq_listeners s) (active_irq_listeners s)
    (kernel_server_ch s) (enabled_irqs s) (console s) (initfs_addr s) (uninit s)
    (uninit_word s).
Definition set_threads (v : gmap Z thread) (s : kstate) : kstate :=
  KState (object_arena s) (page_arena s) v (channels s) (processes s) (vmareas s)
    (timer_objs s) (irq_objs s) (ptmem s) (process_table s) (process_list s) (kernel_process
    s) (init_process s) (runqueue s) (current s) (idle_thread s) (cpu s) (timers s)
    (active_timers s) (user_timers s) (irq_listeners s) (active_irq_listeners s)
    (kernel_server_ch s) (enabled_irqs s) (console s) (initfs_addr s) (uninit s)
    (uninit_word s).
Definition set_channels (v : gmap Z channel_t) (s : kstate) : kstate :=
  KState (object_arena s) (page_arena s) (threads s) v (processes s) (vmareas s)
    (timer_objs s) (irq_objs s) (ptmem s) (process_table s) (process_list s) (kernel_process
    s) (init_process s) (runqueue s) (current s) (idle_thread s) (cpu s) (timers s)
    (active_timers s) (user_timers s) (irq_listeners s) (active_irq_listeners s)
    (kernel_server_ch s) (enabled_irqs s) (console s) (initfs_addr s) (uninit s)
    (uninit_word s).
Definition set_processes (v : gmap Z process) (s : kstate) : kstate :=
  KState (object_arena s) (page_arena s) (threads s) (channels s) v (vmareas s)
    (timer_objs s) (irq_objs s) (ptmem s) (process_table s) (process_list s) (kernel_process
    s) (init_process s) (runqueue s) (current s) (idle_thread s) (cpu s) (timers s)
    (active_timers s) (user_timers s) (irq_listeners s) (active_irq_listeners s)
    (kernel_server_ch s) (enabled_irqs s) (console s) (initfs_addr s) (uninit s)
    (uninit_word s).
Definition set_vmareas (v : gmap Z vmarea) (s : kstate) : kstate :=
  KState (object_arena s) (page_arena s) (threads s) (channels s) (processes s) v
    (timer_objs s) (irq_objs s) (ptmem s) (process_table s) (process_list s) (kernel_process
    s) (init_process s) (runqueue s) (current s) (idle_thread s) (cpu s) (timers s)
    (active_timers s) (user_timers s) (irq_listeners s) (active_irq_listeners s)
    (kernel_server_ch s) (enabled_irqs s) (console s) (initfs_addr s) (uninit s)
    (uninit_word s).
Definition set_timer_objs (v : gmap Z timer) (s : kstate) : kstate :=
  KState (object_arena s) (page_arena s) (threads s) (channels s) (processes s) (vmareas
    s) v (irq_objs s) (ptmem s) (process_table s) (process_list s) (kernel_process s)
    (init_process s) (runqueue s) (current s) (idle_thread s) (cpu s) (timers s)
    (active_timers s) (user_timers s) (irq_listeners s) (active_irq_listeners s)
    (kernel_server_ch s) (enabled_irqs s) (console s) (initfs_addr s) (uninit s)
    (uninit_word s).
Definition set_irq_objs (v : gmap Z irq_listener) (s : kstate) : kstate :=
  KState (object_arena s) (page_arena s) (threads s) (channels s) (processes s) (vmareas
    s) (timer_objs s) v (ptmem s) (process_table s) (process_list s) (kernel_process s)
    (init_process s) (runqueue s) (current s) (idle_thread s) (cpu s) (timers s)
    (active_timers s) (user_timers s) (irq_listeners s) (active_irq_listeners s)
    (kernel_server_ch s) (enabled_irqs s) (console s) (initfs_addr s) (uninit s)
    (uninit_word s).
Definition set_ptmem (v : gmap Z (list Z)) (s : kstate) : kstate :=
  KState (object_arena s) (page_arena s) (threads s) (channels s) (processes s) (vmareas
    s) (timer_objs s) (irq_objs s) v (process_table s) (process_list s) (kernel_process s)
    (init_process s) (runqueue s) (current s) (idle_thread s) (cpu s) (timers s)
    (active_timers s) (user_timers s) (irq_listeners s) (active_irq_listeners s)
    (kernel_server_ch s) (enabled_irqs s) (console s) (initfs_addr s) (uninit s)
    (uninit_word s).
Definition set_process_table (v : table) (s : kstate) : kstate :=
  KState (object_arena s) (page_arena s) (threads s) (channels s) (processes s) (vmareas
    s) (timer_objs s) (irq_objs s) (ptmem s) v (process_list s) (kernel_process s)
    (init_process s) (runqueue s) (current s) (idle_thread s) (cpu s) (timers s)
    (active_timers s) (user_timers s) (irq_listeners s) (active_irq_listeners s)
    (kernel_server_ch s) (enabled_irqs s) (console s) (initfs_addr s) (uninit s)
    (uninit_word s).
Definition set_process_list (v : list Z) (s : kstate) : kstate :=
  KState (object_arena s) (page_arena s) (threads s) (channels s) (processes s) (vmareas
    s) (timer_objs s) (irq_objs s) (ptmem s) (process_table s) v (kernel_process s)
    (init_process s) (runqueue s) (current s) (idle_thread s) (cpu s) (timers s)
    (active_timers s) (user_timers s) (irq_listeners s) (active_irq_listeners s)
    (kernel_server_ch s) (enabled_irqs s) (console s) (initfs_addr s) (uninit s)
    (uninit_word s).
Definition set_kernel_process (v : Z) (s : kstate) : kstate :=
  KState (object_arena s) (page_arena s) (threads s) (channels s) (processes s) (vmareas
    s) (timer_objs s) (irq_objs s) (ptmem s) (process_table s) (process_list s) v
    (init_process s) (runqueue s) (current s) (idle_thread s) (cpu s) (timers s)
    (active_timers s) (user_timers s) (irq_listeners s) (active_irq_listeners s)
    (kernel_server_ch s) (enabled_irqs s) (console s) (initfs_addr s) (uninit s)
    (uninit_word s).
Definition set_init_process (v : Z) (s : kstate) : kstate :=
  KState (object_arena s) (page_arena s) (threads s) (channels s) (processes s) (vmareas
    s) (timer_objs s) (irq_objs s) (ptmem s) (process_table s) (process_list s)
    (kernel_process s) v (runqueue s) (current s) (idle_thread s) (cpu s) (timers s)
    (active_timers s) (user_timers s) (irq_listeners s) (active_irq_listeners s)
    (kernel_server_ch s) (enabled_irqs s) (console s) (initfs_addr s) (uninit s)
    (uninit_word s).
Definition set_runqueue (v : list Z) (s : kstate) : kstate :=
  KState (object_arena s) (page_arena s) (threads s) (channels s) (processes s) (vmareas
    s) (timer_objs s) (irq_objs s) (ptmem s) (process_table s) (process_list s)
    (kernel_process s) (init_process s) v (current s) (idle_thread s) (cpu s) (timers s)
    (active_timers s) (user_timers s) (irq_listeners s) (active_irq_listeners s)
    (kernel_server_ch s) (enabled_irqs s) (console s) (initfs_addr s) (uninit s)
    (uninit_word s).
Definition set_current (v : Z) (s : kstate) : kstate :=
  KState (object_arena s) (page_arena s) (threads s) (channels s) (processes s) (vmareas
    s) (timer_objs s) (irq_objs s) (ptmem s) (process_table s) (process_list s)
    (kernel_process s) (init_process s) (runqueue s) v (idle_thread s) (cpu s) (timers s)
    (active_timers s) (user_timers s) (irq_listeners s) (active_irq_listeners s)
    (kernel_server_ch s) (enabled_irqs s) (console s) (initfs_addr s) (uninit s)
    (uninit_word s).
Definition set_idle_thread (v : Z) (s : kstate) : kstate :=
  KState (object_arena s) (page_arena s) (threads s) (channels s) (processes s) (vmareas
    s) (timer_objs s) (irq_objs s) (ptmem s) (process_table s) (process_list s)
    (kernel_process s) (init_process s) (runqueue s) (current s) v (cpu s) (timers s)
    (active_timers s) (user_timers s) (irq_listeners s) (active_irq_listeners s)
    (kernel_server_ch s) (enabled_irqs s) (console s) (initfs_addr s) (uninit s)
    (uninit_word s).
Definition set_cpu (v : cpu_t) (s : kstate) : kstate :=
  KState (object_arena s) (page_arena s) (threads s) (channels s) (processes s) (vmareas
    s) (timer_objs s) (irq_objs s) (ptmem s) (process_table s) (process_list s)
    (kernel_process s) (init_process s) (runqueue s) (current s) (idle_thread s) v (timers
    s) (active_timers s) (user_timers s) (irq_listeners s) (active_irq_listeners s)
    (kernel_server_ch s) (enabled_irqs s) (console s) (initfs_addr s) (uninit s)
    (uninit_word s).
Definition set_timers (v : table) (s : kstate) : kstate :=
  KState (object_arena s) (page_arena s) (threads s) (channels s) (processes s) (vmareas
    s) (timer_objs s) (irq_objs s) (ptmem s) (process_table s) (process_list s)
    (kernel_process s) (init_process s) (runqueue s) (current s) (idle_thread s) (cpu s) v
    (active_timers s) (user_timers s) (irq_listeners s) (active_irq_listeners s)
    (kernel_server_ch s) (enabled_irqs s) (console s) (initfs_addr s) (uninit s)
    (uninit_word s).
Definition set_active_timers (v : list Z) (s : kstate) : kstate :=
  KState (object_arena s) (page_arena s) (threads s) (channels s) (processes s) (vmareas
    s) (timer_objs s) (irq_objs s) (ptmem s) (process_table s) (process_list s)
    (kernel_process s) (init_process s) (runqueue s) (current s) (idle_thread s) (cpu s)
    (timers s) v (user_timers s) (irq_listeners s) (active_irq_listeners s)
    (kernel_server_ch s) (enabled_irqs s) (console s) (initfs_addr s) (uninit s)
    (uninit_word s).
Definition set_user_timers (v : table) (s : kstate) : kstate :=
  KState (object_arena s) (page_arena s) (threads s) (channels s) (processes s) (vmareas
    s) (timer_objs s) (irq_objs s) (ptmem s) (process_table s) (process_list s)
    (kernel_process s) (init_process s) (runqueue s) (current s) (idle_thread s) (cpu s)
    (timers s) (active_timers s) v (irq_listeners s) (active_irq_listeners s)
    (kernel_server_ch s) (enabled_irqs s) (console s) (initfs_addr s) (uninit s)
    (uninit_word s).
Definition set_irq_listeners (v : table) (s : kstate) : kstate :=
  KState (object_arena s) (page_arena s) (threads s) (channels s) (processes s) (vmareas
    s) (timer_objs s) (irq_objs s) (ptmem s) (process_table s) (process_list s)
    (kernel_process s) (init_process s) (runqueue s) (current s) (idle_thread s) (cpu s)
    (timers s) (active_timers s) (user_timers s) v (active_irq_listeners s)
    (kernel_server_ch s) (enabled_irqs s) (console s) (initfs_addr s) (uninit s)
    (uninit_word s).
Definition set_active_irq_listeners (v : list Z) (s : kstate) : kstate :=
  KState (object_arena s) (page_arena s) (threads s) (channels s) (processes s) (vmareas
    s) (timer_objs s) (irq_objs s) (ptmem s) (process_table s) (process_list s)
    (kernel_process s) (init_process s) (runqueue s) (current s) (idle_thread s) (cpu s)
    (timers s) (active_timers s) (user_timers s) (irq_listeners s) v (kernel_server_ch s)
    (enabled_irqs s) (console s) (initfs_addr s) (uninit s) (uninit_word s).
Definition set_kernel_server_ch (v : Z) (s : kstate) : kstate :=
  KState (object_arena s) (page_arena s) (threads s) (channels s) (processes s) (vmareas
    s) (timer_objs s) (irq_objs s) (ptmem s) (process_table s) (process_list s)
    (kernel_process s) (init_process s) (runqueue s) (current s) (idle_thread s) (cpu s)
    (timers s) (active_timers s) (user_timers s) (irq_listeners s) (active_irq_listeners s)
    v (enabled_irqs s) (console s) (initfs_addr s) (uninit s) (uninit_word s).
Definition set_enabled_irqs (v : list Z) (s : kstate) : kstate :=
  KState (object_arena s) (page_arena s) (threads s) (channels s) (processes s) (vmareas
    s) (timer_objs s) (irq_objs s) (ptmem s) (process_table s) (process_list s)
    (kernel_process s) (init_process s) (runqueue s) (current s) (idle_thread s) (cpu s)
    (timers s) (active_timers s) (user_timers s) (irq_listeners s) (active_irq_listeners s)
    (kernel_server_ch s) v (console s) (initfs_addr s) (uninit s) (uninit_word s).
Definition set_console (v : list Z) (s : kstate) : kstate :=
  KState (object_arena s) (page_arena s) (threads s) (channels s) (processes s) (vmareas
    s) (timer_objs s) (irq_objs s) (ptmem s) (process_table s) (process_list s)
    (kernel_process s) (init_process s) (runqueue s) (current s) (idle_thread s) (cpu s)
    (timers s) (active_timers s) (user_timers s) (irq_listeners s) (active_irq_listeners s)
    (kernel_server_ch s) (enabled_irqs s) v (initfs_addr s) (uninit s) (uninit_word s).
Definition set_initfs_addr (v : Z) (s : kstate) : kstate :=
  KState (object_arena s) (page_arena s) (threads s) (channels s) (processes s) (vmareas
    s) (timer_objs s) (irq_objs s) (ptmem s) (process_table s) (process_list s)
    (kernel_process s) (init_process s) (runqueue s) (current s) (idle_thread s) (cpu s)
    (timers s) (active_timers s) (user_timers s) (irq_listeners s) (active_irq_listeners s)
    (kernel_server_ch s) (enabled_irqs s) (console s) v (uninit s) (uninit_word s).
Definition set_uninit (v : Z -> message) (s : kstate) : kstate :=
  KState (object_arena s) (page_arena s) (threads s) (channels s) (processes s) (vmareas
    s) (timer_objs s) (irq_objs s) (ptmem s) (process_table s) (process_list s)
    (kernel_process s) (init_process s) (runqueue s) (current s) (idle_thread s) (cpu s)
    (timers s) (active_timers s) (user_timers s) (irq_listeners s) (active_irq_listeners s)
    (kernel_server_ch s) (enabled_irqs s) (console s) (initfs_addr s) v (uninit_word s).
Definition set_uninit_word (v : Z -> Z) (s : kstate) : kstate :=
  KState (object_arena s) (page_arena s) (threads s) (channels s) (processes s) (vmareas
    s) (timer_objs s) (irq_objs s) (ptmem s) (process_table s) (process_list s)
    (kernel_process s) (init_process s) (runqueue s) (current s) (idle_thread s) (cpu s)
    (timers s) (active_timers s) (user_timers s) (irq_listeners s) (active_irq_listeners s)
    (kernel_server_ch s) (enabled_irqs s) (console s) (initfs_addr s) (uninit s) v.

(** ** Accesses through pointers *)

Abbreviation K := (M kstate).

Definition load_thread (p : Z) : K thread := fun s => need (threads s !! p) s.
Definition load_channel (p : Z) : K channel_t := fun s => need (channels s !! p) s.
Definition load_process (p : Z) : K process := fun s => need (processes s !! p) s.
Definition load_vmarea (p : Z) : K vmarea := fun s => need (vmareas s !! p) s.
Definition load_timer (p : Z) : K timer := fun s => need (timer_objs s !! p) s.
Definition load_irq (p : Z) : K irq_listener := fun s => need (irq_objs s !! p) s.

Definition store_thread (p : Z) (t : thread) : K unit :=
  modify (fun s => set_threads (<[p := t]> (threads s)) s).
Definition store_channel (p : Z) (c : channel_t) : K unit :=
  modify (fun s => set_channels (<[p := c]> (channels s)) s).
Definition store_process (p : Z) (x : process) : K unit :=
  modify (fun s => set_processes (<[p := x]> (processes s)) s).
Definition store_vmarea (p : Z) (x : vmarea) : K unit :=
  modify (fun s => set_vmareas (<[p := x]> (vmareas s)) s).
Definition store_timer (p : Z) (x : timer) : K unit :=
  modify (fun s => set_timer_objs (<[p := x]> (timer_objs s)) s).
Definition store_irq (p : Z) (x : irq_listener) : K unit :=
  modify (fun s => set_irq_objs (<[p := x]> (irq_objs s)) s).

(** [p->field = ...] for an object that must be live. *)
Definition upd_thread (p : Z) (f : thread -> thread) : K unit :=
  t <- load_thread p ;; store_thread p (f t).
Definition upd_channel (p : Z) (f : channel_t -> channel_t) : K unit :=
  c <- load_channel p ;; store_channel p (f c).
Definition upd_process (p : Z) (f : process -> process) : K unit :=
  x <- load_process p ;; store_process p (f x).
Definition upd_timer (p : Z) (f : timer -> timer) : K unit :=
  x <- load_timer p ;; store_timer p (f x).

(** ** Memory pools *)

Definition on_object_arena {A} (m : M kmalloc_arena A) : K A :=
  fun s =>
    match m (object_arena s) with
    | Done (x, a) => Done (x, set_object_arena a s)
    | Panic => Panic
    | Undef => Undef
    | Fuel => Fuel
    end.

Definition on_page_arena {A} (m : M kmalloc_arena A) : K A :=
  fun s =>
    match m (page_arena s) with
    | Done (x, a) => Done (x, set_page_arena a s)
    | Panic => Panic
    | Undef => Undef
    | Fuel => Fuel
    end.

Definition kmalloc_object (size : Z) : K Z := on_object_arena (KMALLOC size).
Definition kmalloc_page (size : Z) : K Z := on_page_arena (KMALLOC size).
Definition kfree_object (p : Z) : K unit := on_object_arena (kfree p).
Definition kfree_page (p : Z) : K unit := on_page_arena (kfree p).

(** ** Queues *)

(** [list_push_back]: linking a node that is already in the list breaks it. *)
Definition q_push (x : Z) (l : list Z) : outcome (list Z) :=
  if bool_decide (x ∈ l) then Undef else Done (l ++ [x]).

(** [list_remove]: the links of a node that is in no list are not valid. *)
Definition q_remove (x : Z) (l : list Z) : outcome (list Z) :=
  if bool_decide (x ∈ l) then Done (filter (fun y => y <> x) l) else Undef.

(** The element after [x], as [LIST_FOR_EACH] reads it. *)
Fixpoint q_next (x : Z) (l : list Z) : option Z :=
  match l with
  | [] => None
  | y :: l' => if y =? x then Some (hd NULL l') else q_next x l'
  end.

(** [LIST_FOR_EACH] over a queue that the body may change: the successor of the
    current element is read before the body runs, and an element that is no
    longer in the queue when the loop reaches it has no valid links. [NULL]
    stands for the list head, where the loop ends. *)
Fixpoint for_each (fuel : nat) (queue : kstate -> option (list Z)) (body : Z -> K unit) (elem : Z)
    : K unit :=
  match fuel with
  | O => no_fuel
  | S fuel =>
      if elem =? NULL then ret tt
      else
        l <- (fun s => need (queue s) s) ;;
        nxt <- need (q_next elem l) ;;
        body elem ;;;
        for_each fuel queue body nxt
  end.

Definition for_each_in (fuel : nat) (queue : kstate -> option (list Z)) (body : Z -> K unit)
    : K unit :=
  l <- (fun s => need (queue s) s) ;;
  for_each fuel queue body (hd NULL l).

(** ** The current thread and its message buffers *)

Definition CURRENT : K Z := gets current.

Definition buf (kbuf : bool) (t : thread) : message := if kbuf then t_kbuf t else t_info_msg t.
Definition set_buf (kbuf : bool) (m : message) (t : thread) : thread :=
  if kbuf then set_t_kbuf m t else set_t_info_msg m t.

(** The message [ipc_buffer] points to. *)
Definition ipc_buffer (t : thread) : message := buf (t_use_kbuf t) t.
Definition set_ipc_buffer (m : message) (t : thread) : thread := set_buf (t_use_kbuf t) m t.

(** ** Small states for the examples *)

Definition ex_message : message := Message 0 0 0 0 0 (replicate 64 0).
Definition ex_thread (tid process : Z) (blocked : bool) : thread :=
  Thread tid process blocked OK NULL 0 0 0 (ArchThread 0 0 0 0 (0x900000 + tid) 0 []) 0 0 0
    ex_message ex_message false [] 0.
Definition ex_table : table := Table 0 (replicate 8 0) 8.
Definition ex_arena : kmalloc_arena := KmallocArena [] 256 0.
Definition ex_kstate : kstate :=
  KState ex_arena ex_arena ∅ ∅ ∅ ∅ ∅ ∅ ∅ ex_table [] NULL NULL [] NULL NULL
    (Cpu 0 0 0 true NULL 0 (fun _ => 0)) ex_table [] ex_table ex_table [] NULL [] [] 0
    (fun _ => ex_message) (fun _ => 0).
