(* ===== verification/Paging.v ===== *)
(** * Page tables

    The four-level page tables of [kernel/arch/x64/paging.c].  The pages that
    hold tables are kept in a map from physical addresses to arrays of 512
    entries; new tables come from the page pool. *)
From S2P Require Import Prelude Message Arena Table.
From Stdlib Require Import Btauto.
Import Arena Tbl.

Record pagemem := PageMem { pm_arena : kmalloc_arena; pm_tables : gmap Z (list Z) }.

Definition KERNEL_BASE_ADDR : Z := 0xffff800000000000.
Definition KERNEL_PML4_PADDR : Z := 0x00700000.
Definition PAGE_ENTRY_NUM : Z := 512.
Definition PAGE_PRESENT : Z := 1.
Definition PAGE_WRITABLE : Z := 2.
Definition PAGE_USER : Z := 4.

Definition from_paddr (addr : Z) : Z := u64 (addr + KERNEL_BASE_ADDR).
Definition into_paddr (addr : Z) : Z := u64 (addr - KERNEL_BASE_ADDR).

Definition is_valid_page_base_addr (page_base : Z) : bool :=
  negb (page_base =? 0) && (page_base <? KERNEL_BASE_ADDR).

Definition NTH_LEVEL_INDEX (level vaddr : Z) : Z :=
  Z.land (Z.shiftr vaddr ((level - 1) * 9 + 12)) 0x1ff.
Definition ENTRY_PADDR (entry : Z) : Z := Z.land entry 0x7ffffffffffff000.

Module Paging.

(** [table[index]] for the table at the physical address [table]. *)
Definition read_entry (table index : Z) : M pagemem Z :=
  fun s => need (es ← pm_tables s !! table; arr_get es index) s.

Definition write_entry (table index v : Z) : M pagemem unit :=
  fun s =>
    match es ← pm_tables s !! table; arr_set es index v with
    | Some es => Done (tt, PageMem (pm_arena s) (<[table := es]> (pm_tables s)))
    | None => Undef
    end.

Definition alloc_page : M pagemem Z :=
  fun s =>
    match KMALLOC PAGE_SIZE (pm_arena s) with
    | Done (p, a) => Done (p, PageMem a (pm_tables s))
    | Panic => Panic
    | Undef => Undef
    | Fuel => Fuel
    end.

(** Store the content of a whole page. *)
Definition fill_page (page : Z) (es : list Z) : M pagemem unit :=
  modify (fun s => PageMem (pm_arena s) (<[into_paddr page := es]> (pm_tables s))).

Definition page_table_init : M pagemem Z :=
  pml4 <- alloc_page ;;
  es <- (fun s => need (pm_tables s !! KERNEL_PML4_PADDR) s) ;;
  fill_page pml4 es ;;;
  write_entry (into_paddr pml4) 0 0 ;;;
  ret (into_paddr pml4).

(** The inner loop of [link_page] over the levels [n + 1], ..., 2. *)
Fixpoint link_walk (n : nat) (table vaddr attrs : Z) : M pagemem Z :=
  match n with
  | O => ret table
  | S n' =>
      let level := Z.of_nat n + 1 in
      let index := NTH_LEVEL_INDEX level vaddr in
      entry <- read_entry table index ;;
      (if entry =? 0 then
         page <- alloc_page ;;
         (if page =? 0 then panic else ret tt) ;;;
         fill_page page (replicate (Z.to_nat PAGE_ENTRY_NUM) 0) ;;;
         write_entry table index (into_paddr page)
       else ret tt) ;;;
      entry <- read_entry table index ;;
      write_entry table index (Z.lor (ENTRY_PADDR entry) attrs) ;;;
      entry <- read_entry table index ;;
      link_walk n' (ENTRY_PADDR entry) vaddr attrs
  end.

(** The loop that fills entries of one page table: [k] entries are left in it. *)
Fixpoint link_entries (k : nat) (table index vaddr paddr remaining attrs : Z)
    : M pagemem (Z * Z * Z) :=
  match k with
  | O => ret (vaddr, paddr, remaining)
  | S k =>
      if (0 <? remaining) && (index <? PAGE_ENTRY_NUM) then
        write_entry table index (Z.lor paddr attrs) ;;;
        link_entries k table (index + 1) (u64 (vaddr + PAGE_SIZE)) (u64 (paddr + PAGE_SIZE))
          (remaining - 1) attrs
      else ret (vaddr, paddr, remaining)
  end.

(** The outer loop; [remaining] starts from [num_pages] in every round. *)
Fixpoint link_loop (fuel : nat) (pml4 vaddr paddr num_pages attrs : Z) : M pagemem unit :=
  match fuel with
  | O => no_fuel
  | S fuel =>
      table <- link_walk 3 pml4 vaddr attrs ;;
      let index := NTH_LEVEL_INDEX 1 vaddr in
      let* (vaddr', paddr', remaining) :=
        link_entries (Z.to_nat (PAGE_ENTRY_NUM - index)) table index vaddr paddr num_pages attrs in
      if remaining =? 0 then ret tt
      else link_loop fuel pml4 vaddr' paddr' num_pages attrs
  end.

Definition link_page (fuel : nat) (pml4 vaddr paddr num_pages flags : Z) : M pagemem unit :=
  c_assert (vaddr <? KERNEL_BASE_ADDR) ;;;
  link_loop fuel pml4 vaddr paddr num_pages (Z.lor PAGE_PRESENT flags).

Fixpoint unlink_walk (n : nat) (table vaddr : Z) : M pagemem Z :=
  match n with
  | O => ret table
  | S n' =>
      let index := NTH_LEVEL_INDEX (Z.of_nat n + 1) vaddr in
      entry <- read_entry table index ;;
      c_assert (negb (entry =? 0)) ;;;
      unlink_walk n' (ENTRY_PADDR entry) vaddr
  end.

Fixpoint unlink_entries (k : nat) (table index vaddr remaining : Z) : M pagemem (Z * Z) :=
  match k with
  | O => ret (vaddr, remaining)
  | S k =>
      if (0 <? remaining) && (index <? PAGE_ENTRY_NUM) then
        write_entry table index 0 ;;;
        unlink_entries k table (index + 1) (u64 (vaddr + PAGE_SIZE)) (remaining - 1)
      else ret (vaddr, remaining)
  end.

Fixpoint unlink_loop (fuel : nat) (pml4 vaddr remaining : Z) : M pagemem unit :=
  if remaining <=? 0 then ret tt
  else
    match fuel with
    | O => no_fuel
    | S fuel =>
        table <- unlink_walk 3 pml4 vaddr ;;
        let index := NTH_LEVEL_INDEX 1 vaddr in
        let* (vaddr', remaining') :=
          unlink_entries (Z.to_nat (PAGE_ENTRY_NUM - index)) table index vaddr remaining in
        unlink_loop fuel pml4 vaddr' remaining'
    end.

Definition unlink_page (fuel : nat) (pml4 vaddr num_pages : Z) : M pagemem unit :=
  c_assert (vaddr <? KERNEL_BASE_ADDR) ;;;
  unlink_loop fuel pml4 vaddr num_pages.

(** The loop of [resolve_paddr_from_vaddr]: [None] is its early return of 0.
    The test for a bigger page reads the table of the next level at the index
    of this one, as the code does. *)
Fixpoint resolve_walk (n : nat) (table level i vaddr : Z) : M pagemem (option (Z * Z)) :=
  if i <=? 1 then ret (Some (table, level))
  else
    match n with
    | O => no_fuel
    | S n =>
        let index := NTH_LEVEL_INDEX level vaddr in
        entry <- read_entry table index ;;
        if entry =? 0 then ret None
        else
          let table' := ENTRY_PADDR entry in
          big <- read_entry table' index ;;
          resolve_walk n table' (level - 1) (i - (if truthy (Z.land big 0x80) then 2 else 1)) vaddr
    end.

Definition resolve_paddr_from_vaddr (pml4 vaddr : Z) : M pagemem Z :=
  w <- resolve_walk 3 pml4 4 4 vaddr ;;
  match w with
  | None => ret 0
  | Some (table, level) =>
      entry <- read_entry table (NTH_LEVEL_INDEX level vaddr) ;;
      if entry =? 0 then ret 0
      else
        let offset := if level =? 2 then u64 (Z.shiftl (NTH_LEVEL_INDEX (level - 1) vaddr) 12) else 0 in
        ret (u64 (ENTRY_PADDR entry + offset))
  end.

End Paging.
Import Paging.

(** ** Index and entry arithmetic *)

Definition level_shift (level : Z) : Z := 12 + 9 * (level - 1).

Lemma NTH_LEVEL_INDEX_mod level v :
  1 <= level -> NTH_LEVEL_INDEX level v = (v / 2 ^ level_shift level) mod 512.
Proof.
  intros H. unfold NTH_LEVEL_INDEX, level_shift. change 0x1ff with (Z.ones 9).
  rewrite land_ones_mod, Z.shiftr_div_pow2 by lia.
  replace ((level - 1) * 9 + 12) with (12 + 9 * (level - 1)) by lia. reflexivity.
Qed.

Lemma NTH_LEVEL_INDEX_range level v : 1 <= level -> 0 <= NTH_LEVEL_INDEX level v < 512.
Proof. intros H. rewrite NTH_LEVEL_INDEX_mod by done. apply Z.mod_pos_bound. lia. Qed.

(** The part of a user address above a level and its index make the part above
    the next level. *)
Lemma prefix_step level v :
  1 <= level ->
  v / 2 ^ level_shift (level + 1) * 512 + NTH_LEVEL_INDEX level v = v / 2 ^ level_shift level.
Proof.
  intros H. rewrite NTH_LEVEL_INDEX_mod by done. unfold level_shift.
  replace (2 ^ (12 + 9 * (level + 1 - 1))) with (2 ^ (12 + 9 * (level - 1)) * 512).
  2: { change 512 with (2 ^ 9). rewrite <- Z.pow_add_r by lia. f_equal. lia. }
  rewrite <- Z.div_div by lia. set (q := v / 2 ^ (12 + 9 * (level - 1))).
  pose proof (Z.div_mod q 512). lia.
Qed.

Lemma user_pml4_index v : 0 <= v < 2 ^ 47 -> NTH_LEVEL_INDEX 4 v < 256.
Proof.
  intros H. rewrite NTH_LEVEL_INDEX_mod by lia. change (level_shift 4) with 39.
  assert (v / 2 ^ 39 < 256) by (apply Z.div_lt_upper_bound; lia).
  assert (0 <= v / 2 ^ 39) by (apply Z.div_pos; lia).
  rewrite Z.mod_small; lia.
Qed.

Lemma ENTRY_PADDR_lor p a :
  p mod PAGE_SIZE = 0 -> 0 <= p < 2 ^ 63 -> 0 <= a < PAGE_SIZE -> ENTRY_PADDR (Z.lor p a) = p.
Proof.
  unfold PAGE_SIZE, ENTRY_PADDR. intros Hp Hr Ha.
  replace 0x7ffffffffffff000 with (Z.ldiff (Z.ones 63) (Z.ones 12)) by reflexivity.
  apply Z.bits_inj'. intros i Hi. rewrite Z.land_spec, Z.lor_spec, Z.ldiff_spec.
  assert (Hlow : i < 12 -> Z.testbit p i = false).
  { intros. rewrite <- (Z.mod_pow2_bits_low p 12) by lia. change (2 ^ 12) with 4096.
    rewrite Hp. apply Z.bits_0. }
  assert (Hhigh : 12 <= i -> Z.testbit a i = false).
  { intros. rewrite <- (Z.mod_small a (2 ^ 12)) by lia. apply Z.mod_pow2_bits_high. lia. }
  assert (Htop : 63 <= i -> Z.testbit p i = false).
  { intros. rewrite <- (Z.mod_small p (2 ^ 63)) by lia. apply Z.mod_pow2_bits_high. lia. }
  destruct (Z.lt_ge_cases i 12).
  - rewrite (Z.ones_spec_low 12 i), Hlow by lia. btauto.
  - rewrite (Z.ones_spec_high 12 i), Hhigh by lia. destruct (Z.lt_ge_cases i 63).
    + rewrite (Z.ones_spec_low 63 i) by lia. btauto.
    + rewrite (Z.ones_spec_high 63 i), Htop by lia. btauto.
Qed.

Lemma ENTRY_PADDR_aligned p : p mod PAGE_SIZE = 0 -> 0 <= p < 2 ^ 63 -> ENTRY_PADDR p = p.
Proof.
  intros. rewrite <- (Z.lor_0_r p) at 1. apply ENTRY_PADDR_lor; auto. unfold PAGE_SIZE. lia.
Qed.

Lemma entry_bit7 p a :
  p mod PAGE_SIZE = 0 -> Z.testbit a 7 = false -> Z.testbit (Z.lor p a) 7 = false.
Proof.
  unfold PAGE_SIZE. intros Hp Ha. rewrite Z.lor_spec, Ha, orb_false_r.
  rewrite <- (Z.mod_pow2_bits_low p 12) by lia. change (2 ^ 12) with 4096. rewrite Hp. apply Z.bits_0.
Qed.

Lemma entry_nonzero p a : 0 <= p -> 0 < a -> Z.lor p a <> 0.
Proof. intros Hp Ha H. apply Z.lor_eq_0_iff in H. lia. Qed.

Lemma bit7_land e : Z.testbit e 7 = false -> truthy (Z.land e 0x80) = false.
Proof.
  intros H. apply truthy_false. apply Z.bits_inj'. intros i Hi.
  rewrite Z.land_spec, Z.bits_0. change 0x80 with (2 ^ 7). rewrite Z.pow2_bits_eqb by lia.
  destruct (Z.eqb_spec 7 i) as [<-|]; [by rewrite H | apply andb_false_r].
Qed.

(** ** Translations *)

Definition entry_at (s : pagemem) (table index : Z) : option Z :=
  es ← pm_tables s !! table; arr_get es index.

(** What a table of level [n + 1] translates [v] to; 0 when it is not mapped. *)
Fixpoint trans (n : nat) (s : pagemem) (table v : Z) : Z :=
  match entry_at s table (NTH_LEVEL_INDEX (Z.of_nat n + 1) v) with
  | None => 0
  | Some e =>
      if e =? 0 then 0
      else match n with O => ENTRY_PADDR e | S n => trans n s (ENTRY_PADDR e) v end
  end.

(** The table of level 1 for [v], if the tables above it are there. *)
Fixpoint find_table (n : nat) (s : pagemem) (table v : Z) : option Z :=
  match n with
  | O => Some table
  | S n' =>
      match entry_at s table (NTH_LEVEL_INDEX (Z.of_nat n + 1) v) with
      | None => None
      | Some e => if e =? 0 then None else find_table n' s (ENTRY_PADDR e) v
      end
  end.

(** Indices of the user half. *)
Definition user_index (level index : Z) : Prop :=
  0 <= index < (if level =? 4 then 256 else 512).

(** A page table of a process.  [owner] gives each table page its level and the
    part of the address space it translates (the address bits above that level),
    so that no page is used in two places. *)
Record pt_wf (root : Z) (owner : gmap Z (Z * Z)) (s : pagemem) : Prop := {
  wf_root : owner !! root = Some (4, 0);
  wf_level : forall p l pre, owner !! p = Some (l, pre) -> 1 <= l <= 4;
  wf_addr : forall p l pre, owner !! p = Some (l, pre) -> p mod PAGE_SIZE = 0 /\ 0 <= p < 2 ^ 63;
  wf_present : forall p l pre, owner !! p = Some (l, pre) ->
    exists es, pm_tables s !! p = Some es /\ length es = 512%nat;
  wf_bit7 : forall p l pre i e, owner !! p = Some (l, pre) -> l <= 3 ->
    entry_at s p i = Some e -> Z.testbit e 7 = false;
  wf_child : forall p l pre i e, owner !! p = Some (l, pre) -> 2 <= l -> user_index l i ->
    entry_at s p i = Some e -> e <> 0 ->
    owner !! ENTRY_PADDR e = Some (l - 1, pre * 512 + i)
}.

(** The pool of table pages: aligned, and no free page is in use. *)
Record pool_ok (owner : gmap Z (Z * Z)) (s : pagemem) : Prop := {
  pool_size : object_size (pm_arena s) = PAGE_SIZE;
  pool_inv : exists base num live, arena_inv base PAGE_SIZE num (pm_arena s) live;
  pool_free : forall p, p ∈ free_objs (pm_arena s) ->
    p <> 0 /\ 0 < into_paddr p < 2 ^ 63 /\ into_paddr p mod PAGE_SIZE = 0 /\
    owner !! into_paddr p = None;
  pool_inj : forall p q, p ∈ free_objs (pm_arena s) -> q ∈ free_objs (pm_arena s) ->
    into_paddr p = into_paddr q -> p = q
}.

Lemma entry_at_Some root owner s p l pre i :
  pt_wf root owner s -> owner !! p = Some (l, pre) -> 0 <= i < 512 ->
  exists e, entry_at s p i = Some e.
Proof.
  intros HW Ho Hi. destruct (wf_present _ _ _ HW _ _ _ Ho) as (es & Hes & Hlen).
  unfold entry_at. rewrite Hes. simpl. apply arr_get_is_Some. lia.
Qed.

Lemma read_entry_spec s table index e :
  entry_at s table index = Some e -> read_entry table index s = Done (e, s).
Proof. unfold read_entry, entry_at. intros ->. reflexivity. Qed.

Lemma user_index_of level v :
  1 <= level <= 4 -> 0 <= v < 2 ^ 47 -> user_index level (NTH_LEVEL_INDEX level v).
Proof.
  intros Hl Hv. unfold user_index. pose proof (NTH_LEVEL_INDEX_range level v).
  destruct (Z.eqb_spec level 4) as [->|]; [pose proof (user_pml4_index v Hv)|]; lia.
Qed.

(** The path of [v] through a table that translates it stays well-formed. *)
Lemma child_owner root owner s t n v e :
  pt_wf root owner s -> 0 <= v < 2 ^ 47 -> (n < 3)%nat ->
  owner !! t = Some (Z.of_nat n + 2, v / 2 ^ level_shift (Z.of_nat n + 3)) ->
  entry_at s t (NTH_LEVEL_INDEX (Z.of_nat n + 2) v) = Some e -> e <> 0 ->
  owner !! ENTRY_PADDR e = Some (Z.of_nat n + 1, v / 2 ^ level_shift (Z.of_nat n + 2)).
Proof.
  intros HW Hv Hn Ho He Hne.
  rewrite (wf_child _ _ _ HW _ _ _ (NTH_LEVEL_INDEX (Z.of_nat n + 2) v) e Ho);
    [| lia | apply user_index_of; lia | done | done].
  f_equal. f_equal; [lia|].
  replace (Z.of_nat n + 3) with ((Z.of_nat n + 2) + 1) by lia. apply prefix_step. lia.
Qed.

(** ** resolve_paddr_from_vaddr *)

Lemma resolve_walk_spec root owner s v :
  pt_wf root owner s -> 0 <= v < 2 ^ 47 ->
  forall n t, (n <= 3)%nat ->
  owner !! t = Some (Z.of_nat n + 1, v / 2 ^ level_shift (Z.of_nat n + 2)) ->
  resolve_walk n t (Z.of_nat n + 1) (Z.of_nat n + 1) v s =
    Done ((fun t1 => (t1, 1)) <$> find_table n s t v, s).
Proof.
  intros HW Hv. induction n as [|n IH]; intros t Hn Ho; [reflexivity|].
  replace (Z.of_nat (S n) + 1) with (Z.of_nat n + 2) in * by lia.
  replace (Z.of_nat (S n) + 2) with (Z.of_nat n + 3) in * by lia.
  destruct (entry_at_Some root owner s t _ _ (NTH_LEVEL_INDEX (Z.of_nat n + 2) v) HW Ho)
    as [e He]; [apply NTH_LEVEL_INDEX_range; lia|].
  cbn [resolve_walk find_table]. destruct (Z.leb_spec (Z.of_nat n + 2) 1); [lia|].
  replace (Z.of_nat (S n) + 1) with (Z.of_nat n + 2) by lia.
  unfold bind at 1. rewrite (read_entry_spec _ _ _ _ He), He.
  destruct (Z.eqb_spec e 0) as [->|Hne]; [reflexivity|].
  pose proof (child_owner root owner s t n v e HW Hv ltac:(lia) Ho He Hne) as Hc.
  destruct (entry_at_Some root owner s (ENTRY_PADDR e) _ _ (NTH_LEVEL_INDEX (Z.of_nat n + 2) v) HW Hc)
    as [b Hb]; [apply NTH_LEVEL_INDEX_range; lia|].
  unfold bind. rewrite (read_entry_spec _ _ _ _ Hb).
  rewrite bit7_land by (eapply wf_bit7; [exact HW | exact Hc | lia | exact Hb]).
  replace (Z.of_nat n + 2 - 1) with (Z.of_nat n + 1) by lia.
  apply IH; [lia | exact Hc].
Qed.

Lemma trans_find n s t v :
  trans n s t v =
    match find_table n s t v with
    | Some t1 =>
        match entry_at s t1 (NTH_LEVEL_INDEX 1 v) with
        | Some e => if e =? 0 then 0 else ENTRY_PADDR e
        | None => 0
        end
    | None => 0
    end.
Proof.
  revert t. induction n as [|n IH]; intros t; [reflexivity|].
  cbn [trans find_table]. destruct (entry_at s t _) as [e|]; [|done].
  destruct (e =? 0); [done | apply IH].
Qed.

Lemma find_table_owner root owner s v :
  pt_wf root owner s -> 0 <= v < 2 ^ 47 ->
  forall n t t1, (n <= 3)%nat ->
  owner !! t = Some (Z.of_nat n + 1, v / 2 ^ level_shift (Z.of_nat n + 2)) ->
  find_table n s t v = Some t1 -> owner !! t1 = Some (1, v / 2 ^ 21).
Proof.
  intros HW Hv. induction n as [|n IH]; intros t t1 Hn Ho Hf; cbn [find_table] in Hf.
  - injection Hf as <-. exact Ho.
  - replace (Z.of_nat (S n) + 1) with (Z.of_nat n + 2) in * by lia.
    replace (Z.of_nat (S n) + 2) with (Z.of_nat n + 3) in * by lia.
    destruct (entry_at s t _) as [e|] eqn:He; [|done].
    destruct (Z.eqb_spec e 0) as [|Hne]; [done|].
    eapply IH; [lia | | exact Hf]. eapply child_owner; eauto; lia.
Qed.

Lemma root_owner root owner s v :
  pt_wf root owner s -> 0 <= v < 2 ^ 47 ->
  owner !! root = Some (Z.of_nat 3 + 1, v / 2 ^ level_shift (Z.of_nat 3 + 2)).
Proof.
  intros HW Hv. rewrite (wf_root _ _ _ HW). change (level_shift (Z.of_nat 3 + 2)) with 48.
  rewrite Z.div_small by lia. reflexivity.
Qed.

Lemma ENTRY_PADDR_range e : 0 <= ENTRY_PADDR e < 2 ^ 63.
Proof.
  unfold ENTRY_PADDR.
  replace (Z.land e 0x7ffffffffffff000)
    with (Z.land (Z.land e 0x7ffffffffffff000) (Z.ones 63)).
  - rewrite Z.land_ones by lia. apply Z.mod_pos_bound. lia.
  - rewrite <- Z.land_assoc. reflexivity.
Qed.

Lemma resolve_spec root owner s v :
  pt_wf root owner s -> 0 <= v < 2 ^ 47 ->
  resolve_paddr_from_vaddr root v s = Done (trans 3 s root v, s).
Proof.
  intros HW Hv. unfold resolve_paddr_from_vaddr, bind.
  pose proof (resolve_walk_spec root owner s v HW Hv 3 root ltac:(lia) (root_owner _ _ _ _ HW Hv)) as E.
  change (Z.of_nat 3 + 1) with 4 in E. rewrite E, trans_find.
  destruct (find_table 3 s root v) as [t1|] eqn:Hf; simpl; [|reflexivity].
  pose proof (find_table_owner root owner s v HW Hv 3 root t1 ltac:(lia) (root_owner _ _ _ _ HW Hv) Hf) as Ho1.
  destruct (entry_at_Some root owner s t1 _ _ (NTH_LEVEL_INDEX 1 v) HW Ho1) as [e He];
    [apply NTH_LEVEL_INDEX_range; lia|].
  rewrite (read_entry_spec _ _ _ _ He), He. destruct (Z.eqb_spec e 0); [reflexivity|].
  unfold ret. pose proof (ENTRY_PADDR_range e). rewrite Z.add_0_r, u64_small by lia. reflexivity.
Qed.

(** ** Writes *)

Definition set_entry (s : pagemem) (table index v : Z) : pagemem :=
  PageMem (pm_arena s) (alter (fun es => <[Z.to_nat index := v]> es) table (pm_tables s)).

Lemma write_entry_spec s t i v e :
  entry_at s t i = Some e -> write_entry t i v s = Done (tt, set_entry s t i v).
Proof.
  unfold write_entry, entry_at, set_entry. destruct (pm_tables s !! t) as [es|] eqn:Hes; [|done].
  simpl. intros He. rewrite arr_set_Some by (apply arr_get_is_Some; eauto).
  do 3 f_equal. apply map_eq. intros j. destruct (decide (j = t)) as [->|].
  - by rewrite lookup_alter_eq, Hes, lookup_insert_eq.
  - by rewrite lookup_alter_ne, lookup_insert_ne by done.
Qed.

Lemma entry_at_set s t i v e p j :
  entry_at s t i = Some e ->
  entry_at (set_entry s t i v) p j = if (p =? t) && (j =? i) then Some v else entry_at s p j.
Proof.
  unfold entry_at, set_entry. simpl. intros He. destruct (Z.eqb_spec p t) as [->|]; simpl.
  - rewrite lookup_alter_eq. destruct (pm_tables s !! t) as [es|]; [|done]. simpl in *.
    apply (arr_get_set es). apply arr_set_Some, arr_get_is_Some. eauto.
  - by rewrite lookup_alter_ne by done.
Qed.

Lemma set_entry_twice s t i v v' : set_entry (set_entry s t i v) t i v' = set_entry s t i v'.
Proof.
  unfold set_entry. simpl. f_equal. apply map_eq. intros j. destruct (decide (j = t)) as [->|].
  - rewrite !lookup_alter_eq. destruct (pm_tables s !! t); simpl; [|done].
    by rewrite list_insert_insert_eq.
  - by rewrite !lookup_alter_ne by done.
Qed.

Lemma present_set s t i v p es :
  pm_tables s !! p = Some es -> length es = 512%nat ->
  exists es', pm_tables (set_entry s t i v) !! p = Some es' /\ length es' = 512%nat.
Proof.
  intros Hes Hl. simpl. destruct (decide (p = t)) as [->|].
  - rewrite lookup_alter_eq, Hes. simpl. eexists. split; [done|]. by rewrite length_insert.
  - rewrite lookup_alter_ne by done. eauto.
Qed.

Lemma set_entry_wf root owner s t i v e l pre :
  pt_wf root owner s -> owner !! t = Some (l, pre) -> entry_at s t i = Some e ->
  Z.testbit v 7 = false ->
  (2 <= l -> v <> 0 -> owner !! ENTRY_PADDR v = Some (l - 1, pre * 512 + i)) ->
  pt_wf root owner (set_entry s t i v).
Proof.
  intros HW Ho He Hb Hc. destruct HW as [H1 H2 H3 H4 H5 H6]. constructor; auto.
  - intros p l' pre' Hp. destruct (H4 _ _ _ Hp) as (es & Hes & Hl). eapply present_set; eauto.
  - intros p l' pre' j e' Hp Hl. rewrite (entry_at_set _ _ _ _ _ _ _ He).
    destruct ((p =? t) && (j =? i)) eqn:B; [by intros [= <-] | eauto].
  - intros p l' pre' j e' Hp Hl Hj. rewrite (entry_at_set _ _ _ _ _ _ _ He).
    destruct ((p =? t) && (j =? i)) eqn:B; [|eauto].
    intros [= <-] Hne. zbool. subst. rewrite Ho in Hp. injection Hp as <- <-. auto.
Qed.

(** A fresh table page. *)
Definition add_table (s : pagemem) (a : kmalloc_arena) (p : Z) : pagemem :=
  PageMem a (<[p := replicate 512 0]> (pm_tables s)).

Lemma entry_at_add s a np p j :
  entry_at (add_table s a np) p j =
    if p =? np then arr_get (replicate 512 0) j else entry_at s p j.
Proof.
  unfold entry_at, add_table, pm_tables at 1. destruct (Z.eqb_spec p np) as [->|].
  - by rewrite lookup_insert_eq.
  - by rewrite lookup_insert_ne by done.
Qed.

Lemma arr_get_replicate {A} n (x y : A) j : arr_get (replicate n x) j = Some y -> y = x.
Proof. intros [_ H]%arr_get_Some. apply lookup_replicate in H. tauto. Qed.

Lemma add_table_wf root owner s a np l pre :
  pt_wf root owner s -> owner !! np = None -> 1 <= l <= 3 ->
  np mod PAGE_SIZE = 0 -> 0 <= np < 2 ^ 63 ->
  pt_wf root (<[np := (l, pre)]> owner) (add_table s a np).
Proof.
  intros [H1 H2 H3 H4 H5 H6] Hn Hl Hm Hr.
  assert (Hnew : forall p x, <[np := (l, pre)]> owner !! p = Some x ->
    (p = np /\ x = (l, pre)) \/ (p <> np /\ owner !! p = Some x)).
  { intros p x. destruct (decide (p = np)) as [->|].
    - rewrite lookup_insert_eq. intros [= <-]. auto.
    - rewrite lookup_insert_ne by done. auto. }
  constructor.
  - rewrite lookup_insert_ne; [done | congruence].
  - intros p l' pre' [[-> [= -> ->]]|[? ?]]%Hnew; [lia | eauto].
  - intros p l' pre' [[-> [= -> ->]]|[? ?]]%Hnew; [done | eauto].
  - intros p l' pre' [[-> [= -> ->]]|[? Hp]]%Hnew.
    + exists (replicate 512 0). split; [apply lookup_insert_eq | apply length_replicate].
    + destruct (H4 _ _ _ Hp) as (es & Hes & ?). exists es. split; [|done].
      rewrite <- Hes. by apply lookup_insert_ne.
  - intros p l' pre' j e [[-> [= -> ->]]|[? Hp]]%Hnew Hl'; rewrite entry_at_add.
    + rewrite Z.eqb_refl. intros ->%arr_get_replicate. apply Z.bits_0.
    + destruct (Z.eqb_spec p np); [done | eauto].
  - intros p l' pre' j e [[-> [= -> ->]]|[? Hp]]%Hnew Hl' Hj; rewrite entry_at_add.
    + rewrite Z.eqb_refl. by intros ->%arr_get_replicate.
    + destruct (Z.eqb_spec p np); [done|]. intros He Hne.
      pose proof (H6 _ _ _ _ _ Hp Hl' Hj He Hne) as Hc.
      rewrite lookup_insert_ne; [done | congruence].
Qed.

(** ** What writes to the tables change in the translation *)

Definition empty_table (s : pagemem) (p : Z) : Prop :=
  forall j e, entry_at s p j = Some e -> e = 0.

Lemma trans_empty n s p w : empty_table s p -> trans n s p w = 0.
Proof.
  intros H. destruct n; cbn [trans]; destruct (entry_at s p _) eqn:E; try done;
    by rewrite (H _ _ E).
Qed.

(** An entry of an upper level may change if it keeps pointing to the same
    table, or if it was 0 and now points to an empty table. *)
Definition same_target (s s' : pagemem) (p l j : Z) : Prop :=
  entry_at s' p j = entry_at s p j \/
  2 <= l /\ exists e e', entry_at s p j = Some e /\ entry_at s' p j = Some e' /\ e' <> 0 /\
    (e <> 0 /\ ENTRY_PADDR e' = ENTRY_PADDR e \/ e = 0 /\ empty_table s' (ENTRY_PADDR e')).

Lemma trans_same_target root owner s s' w :
  pt_wf root owner s -> 0 <= w < 2 ^ 47 ->
  (forall p l pre j, owner !! p = Some (l, pre) -> same_target s s' p l j) ->
  forall n t, (n <= 3)%nat ->
  owner !! t = Some (Z.of_nat n + 1, w / 2 ^ level_shift (Z.of_nat n + 2)) ->
  trans n s' t w = trans n s t w.
Proof.
  intros HW Hw Hs. induction n as [|n IH]; intros t Hn Ho; cbn [trans].
  - destruct (Hs _ _ _ (NTH_LEVEL_INDEX (Z.of_nat 0 + 1) w) Ho) as [->|[? _]]; [done | lia].
  - replace (Z.of_nat (S n) + 1) with (Z.of_nat n + 2) in * by lia.
    replace (Z.of_nat (S n) + 2) with (Z.of_nat n + 3) in * by lia.
    destruct (Hs _ _ _ (NTH_LEVEL_INDEX (Z.of_nat n + 2) w) Ho)
      as [->|(_ & e & e' & He & -> & Hne' & Hcase)].
    + destruct (entry_at s t _) as [e|] eqn:He; [|done].
      destruct (Z.eqb_spec e 0) as [|Hne]; [done|].
      apply IH; [lia|]. eapply child_owner; eauto; lia.
    + rewrite He. destruct (Z.eqb_spec e' 0); [done|].
      destruct Hcase as [[Hne Heq]|[-> Hemp]].
      * destruct (Z.eqb_spec e 0); [done|]. rewrite Heq.
        apply IH; [lia|]. eapply child_owner; eauto; lia.
      * by apply trans_empty.
Qed.

(** Writes to a table of level 1 keep the walk. *)
Lemma find_table_pt root owner s s' t1 pre w :
  pt_wf root owner s -> 0 <= w < 2 ^ 47 -> owner !! t1 = Some (1, pre) ->
  (forall p j, p <> t1 -> entry_at s' p j = entry_at s p j) ->
  forall n t, (n <= 3)%nat ->
  owner !! t = Some (Z.of_nat n + 1, w / 2 ^ level_shift (Z.of_nat n + 2)) ->
  find_table n s' t w = find_table n s t w.
Proof.
  intros HW Hw Ho1 Hs. induction n as [|n IH]; intros t Hn Ho; cbn [find_table]; [done|].
  rewrite Hs.
  2: { intros ->. rewrite Ho1 in Ho. injection Ho as E _. lia. }
  replace (Z.of_nat (S n) + 1) with (Z.of_nat n + 2) in * by lia.
  replace (Z.of_nat (S n) + 2) with (Z.of_nat n + 3) in * by lia.
  destruct (entry_at s t _) as [e|] eqn:He; [|done].
  destruct (Z.eqb_spec e 0); [done|]. apply IH; [lia|]. eapply child_owner; eauto; lia.
Qed.

Lemma NTH_LEVEL_INDEX_prefix level v w :
  2 <= level -> v / 2 ^ 21 = w / 2 ^ 21 -> NTH_LEVEL_INDEX level v = NTH_LEVEL_INDEX level w.
Proof.
  intros Hl H. rewrite !NTH_LEVEL_INDEX_mod by lia. unfold level_shift.
  replace (12 + 9 * (level - 1)) with (21 + 9 * (level - 2)) by lia.
  rewrite Z.pow_add_r by lia. rewrite <- !Z.div_div by lia. by rewrite H.
Qed.

Lemma find_table_prefix n s t v w :
  v / 2 ^ 21 = w / 2 ^ 21 -> find_table n s t v = find_table n s t w.
Proof.
  intros H. revert t. induction n as [|n IH]; intros t; cbn [find_table]; [done|].
  rewrite (NTH_LEVEL_INDEX_prefix _ v w) by (lia || done).
  destruct (entry_at s t _) as [e|]; [|done]. by rewrite IH.
Qed.

Lemma trans_pt root owner s s' t1 v w :
  pt_wf root owner s -> 0 <= v < 2 ^ 47 -> 0 <= w < 2 ^ 47 ->
  find_table 3 s root v = Some t1 ->
  (forall p j, p <> t1 -> entry_at s' p j = entry_at s p j) ->
  trans 3 s' root w =
    if w / 2 ^ 21 =? v / 2 ^ 21 then
      match entry_at s' t1 (NTH_LEVEL_INDEX 1 w) with
      | Some e => if e =? 0 then 0 else ENTRY_PADDR e
      | None => 0
      end
    else trans 3 s root w.
Proof.
  intros HW Hv Hw Hf Hs.
  pose proof (find_table_owner _ _ _ _ HW Hv 3 root t1 ltac:(lia) (root_owner _ _ _ _ HW Hv) Hf) as Ho1.
  rewrite !trans_find.
  rewrite (find_table_pt root owner s s' t1 _ w HW Hw Ho1 Hs 3 root ltac:(lia) (root_owner _ _ _ _ HW Hw)).
  destruct (Z.eqb_spec (w / 2 ^ 21) (v / 2 ^ 21)) as [E|E].
  - by rewrite (find_table_prefix 3 s root w v E), Hf.
  - destruct (find_table 3 s root w) as [t2|] eqn:Hf2; [|done].
    pose proof (find_table_owner _ _ _ _ HW Hw 3 root t2 ltac:(lia) (root_owner _ _ _ _ HW Hw) Hf2) as Ho2.
    rewrite Hs; [done|]. intros ->. congruence.
Qed.

(** ** link_page *)

Lemma alloc_page_ok owner s :
  pool_ok owner s -> (0 < length (free_objs (pm_arena s)))%nat ->
  exists p a, alloc_page s = Done (p, PageMem a (pm_tables s)) /\
    p ∈ free_objs (pm_arena s) /\ free_objs (pm_arena s) ≡ₚ p :: free_objs a /\
    (forall x, pool_ok (<[into_paddr p := x]> owner) (PageMem a (pm_tables s))).
Proof.
  intros [Hsz (base & num & live & HI) Hfree Hinj] Hlen.
  destruct (kmalloc_ok base PAGE_SIZE num (pm_arena s) live HI) as (p & a & E & Hp & HI').
  { intros Hnil. unfold free_objs in Hlen. rewrite Hnil in Hlen. simpl in Hlen. lia. }
  assert (Hperm : free_objs (pm_arena s) ≡ₚ p :: free_objs a).
  { apply (Permutation_app_inv_r live). simpl. rewrite (inv_partition _ _ _ _ _ HI).
    rewrite <- (inv_partition _ _ _ _ _ HI'). symmetry. apply Permutation_middle. }
  assert (Hnd : NoDup (p :: free_objs a)).
  { rewrite <- Hperm. assert (NoDup (free_objs (pm_arena s) ++ live)) as Hn.
    { rewrite (inv_partition _ _ _ _ _ HI). apply slots_NoDup. unfold PAGE_SIZE. lia. }
    by apply NoDup_app in Hn as (? & _). }
  apply NoDup_cons in Hnd as [Hpa _].
  assert (Hin : forall q, q ∈ free_objs a -> q ∈ free_objs (pm_arena s) /\ q <> p).
  { intros q Hq. split; [rewrite Hperm; by right | by intros ->]. }
  assert (Hp' : p ∈ free_objs (pm_arena s)) by (rewrite Hperm; left).
  exists p, a. split; [|split; [done|split; [done|]]].
  - unfold alloc_page, KMALLOC, bind, get, c_assert.
    assert (Hle : (PAGE_SIZE <=? object_size (pm_arena s)) = true) by (rewrite Hsz; reflexivity).
    rewrite Hle. unfold ret. by rewrite E.
  - intros x. constructor; unfold pm_arena.
    + apply HI'.
    + eauto.
    + intros q [Hq Hne]%Hin. destruct (Hfree q Hq) as (? & ? & ? & Ho).
      repeat split; try tauto. rewrite lookup_insert_ne; [done|]. intros Heq. by apply Hne, Hinj.
    + intros q r [Hq _]%Hin [Hr _]%Hin. auto.
Qed.

Lemma pool_ok_set owner s t i v : pool_ok owner s -> pool_ok owner (set_entry s t i v).
Proof. intros [? ? ? ?]. by constructor. Qed.

(** What an operation on the tables of [owner] may change: it writes only these
    tables and the free pages it adds to them. *)
Record framed (owner owner' : gmap Z (Z * Z)) (s s' : pagemem) : Prop := {
  fr_owner : owner ⊆ owner';
  fr_tables : forall q, owner' !! q = None -> pm_tables s' !! q = pm_tables s !! q;
  fr_new : forall q, is_Some (owner' !! q) -> owner !! q = None ->
    exists p, p ∈ free_objs (pm_arena s) /\ q = into_paddr p;
  fr_free : forall p, p ∈ free_objs (pm_arena s') -> p ∈ free_objs (pm_arena s)
}.

Lemma framed_refl owner s : framed owner owner s s.
Proof. constructor; auto. intros q [x Hx]. congruence. Qed.

Lemma framed_trans o1 o2 o3 s1 s2 s3 :
  framed o1 o2 s1 s2 -> framed o2 o3 s2 s3 -> framed o1 o3 s1 s3.
Proof.
  intros [HO1 HT1 HN1 HF1] [HO2 HT2 HN2 HF2]. constructor; [by etrans | | | auto].
  - intros q Hq. rewrite HT2 by done. apply HT1. by eapply lookup_weaken_None.
  - intros q H3 H1. destruct (o2 !! q) eqn:E; [apply HN1; eauto|].
    destruct (HN2 q H3 E) as (p & Hp & ->). eauto.
Qed.

Lemma framed_set owner s t i v : is_Some (owner !! t) -> framed owner owner s (set_entry s t i v).
Proof.
  intros [x Hx]. constructor; auto.
  - intros q Hq. simpl. rewrite lookup_alter_ne; [done | congruence].
  - intros q [y Hy]. congruence.
Qed.

Lemma framed_add owner s a p x :
  owner !! into_paddr p = None -> free_objs (pm_arena s) ≡ₚ p :: free_objs a ->
  framed owner (<[into_paddr p := x]> owner) s (add_table s a (into_paddr p)).
Proof.
  intros Hn Hperm. constructor.
  - by apply insert_subseteq.
  - intros q [_ Hq]%lookup_insert_None. simpl. by rewrite lookup_insert_ne.
  - intros q [y [[<- _]|[_ Hy]]%lookup_insert_Some] Hq; [|congruence].
    exists p. split; [rewrite Hperm; left | done].
  - intros q Hq. rewrite Hperm. by right.
Qed.

(** Other page tables keep their translations. *)
Lemma framed_other root o1 o2 o2' s s' :
  pt_wf root o1 s -> pool_ok o1 s -> o1 ##ₘ o2 -> framed o2 o2' s s' -> pool_ok o2' s' ->
  pt_wf root o1 s' /\ pool_ok o1 s' /\ o1 ##ₘ o2' /\
  forall w, 0 <= w < 2 ^ 47 -> trans 3 s' root w = trans 3 s root w.
Proof.
  intros HW HP HD [_ HT HN HF] [Hsz Hinv _ Hinj].
  assert (HD' : o1 ##ₘ o2').
  { apply map_disjoint_spec. intros q x y H1 H2.
    destruct (o2 !! q) eqn:E; [by eapply map_disjoint_spec|].
    destruct (HN q (mk_is_Some _ _ H2) E) as (p & Hp & ->).
    destruct (pool_free _ _ HP p Hp) as (_ & _ & _ & Hn). congruence. }
  assert (Ht : forall p x, o1 !! p = Some x -> pm_tables s' !! p = pm_tables s !! p).
  { intros p x Hp. apply HT. by eapply map_disjoint_Some_l. }
  assert (He : forall p x j, o1 !! p = Some x -> entry_at s' p j = entry_at s p j).
  { intros p x j Hp. unfold entry_at. by rewrite (Ht p x Hp). }
  split; [|split; [|split; [done|]]].
  - destruct HW as [H1 H2 H3 H4 H5 H6]. constructor; auto.
    + intros p l pre Hp. rewrite (Ht _ _ Hp). eauto.
    + intros p l pre i e Hp Hl. rewrite (He _ _ _ Hp). eauto.
    + intros p l pre i e Hp Hl Hi. rewrite (He _ _ _ Hp). eauto.
  - constructor; auto. intros p Hp. by apply (pool_free _ _ HP), HF.
  - intros w Hw. apply (trans_same_target root o1); auto; [|by apply root_owner with s].
    intros p l pre j Hp. left. eauto.
Qed.

Section Walk.
Variable attrs : Z.
Hypothesis Hattrs : 0 < attrs < PAGE_SIZE.
Hypothesis Hattrs7 : Z.testbit attrs 7 = false.

(** What a round of the walk establishes. *)
Record walked (root : Z) (owner owner' : gmap Z (Z * Z)) (s s' : pagemem) (pages : nat) : Prop := {
  wk_wf : pt_wf root owner' s';
  wk_pool : pool_ok owner' s';
  wk_frame : framed owner owner' s s';
  wk_free : (length (free_objs (pm_arena s)) <= length (free_objs (pm_arena s')) + pages)%nat;
  wk_trans : forall w, 0 <= w < 2 ^ 47 -> trans 3 s' root w = trans 3 s root w
}.

Lemma walked_refl root owner s : pt_wf root owner s -> pool_ok owner s -> walked root owner owner s s 0.
Proof. intros. constructor; auto using framed_refl. lia. Qed.

Lemma walked_owner root owner owner' s s' n : walked root owner owner' s s' n -> owner ⊆ owner'.
Proof. intros H. apply (fr_owner _ _ _ _ (wk_frame _ _ _ _ _ _ H)). Qed.

Lemma walked_le root o1 o2 s1 s2 n m : walked root o1 o2 s1 s2 n -> (n <= m)%nat -> walked root o1 o2 s1 s2 m.
Proof. intros [? ? ? ? ?] ?. constructor; auto. lia. Qed.

Lemma walked_trans root o1 o2 o3 s1 s2 s3 n m :
  walked root o1 o2 s1 s2 n -> walked root o2 o3 s2 s3 m -> walked root o1 o3 s1 s3 (n + m).
Proof.
  intros [? ? ? ? H1] [? ? ? ? H2]. constructor; auto; [by eapply framed_trans | lia |].
  intros w Hw. by rewrite H2, H1.
Qed.

(** The entry is there: it gets the attributes. *)
Lemma walked_attrs root owner s t i l pre e :
  pt_wf root owner s -> pool_ok owner s -> owner !! t = Some (l, pre) -> 2 <= l -> user_index l i ->
  entry_at s t i = Some e -> e <> 0 ->
  walked root owner owner s (set_entry s t i (Z.lor (ENTRY_PADDR e) attrs)) 0.
Proof.
  intros HW HP Ho Hl Hi He Hne.
  pose proof (wf_child _ _ _ HW _ _ _ _ _ Ho Hl Hi He Hne) as Hc.
  destruct (wf_addr _ _ _ HW _ _ _ Hc) as [Hal Hr].
  assert (Hpa : ENTRY_PADDR (Z.lor (ENTRY_PADDR e) attrs) = ENTRY_PADDR e)
    by (apply ENTRY_PADDR_lor; auto; lia).
  constructor; auto; [| by apply pool_ok_set | by apply framed_set | simpl; lia |].
  - eapply set_entry_wf; eauto; [by apply entry_bit7 | intros; by rewrite Hpa].
  - intros w Hw. apply (trans_same_target root owner); auto; [|by apply root_owner with s].
    intros p l' pre' j Hp. unfold same_target. rewrite (entry_at_set _ _ _ _ _ _ _ He).
    destruct ((p =? t) && (j =? i)) eqn:B; [|by left]. zbool. subst p j.
    rewrite Ho in Hp. injection Hp as <- <-. right. split; [done|].
    eexists _, _. split; [exact He|]. split; [done|]. split; [apply entry_nonzero; lia | auto].
Qed.

(** The entry is 0: an empty table is put there. *)
Lemma walked_fresh root owner s a pg t i l pre :
  let np := into_paddr pg in
  pt_wf root owner s -> owner !! np = None -> np mod PAGE_SIZE = 0 -> 0 < np < 2 ^ 63 ->
  pool_ok (<[np := (l - 1, pre * 512 + i)]> owner) (PageMem a (pm_tables s)) ->
  free_objs (pm_arena s) ≡ₚ pg :: free_objs a ->
  owner !! t = Some (l, pre) -> 2 <= l -> user_index l i -> entry_at s t i = Some 0 ->
  walked root owner (<[np := (l - 1, pre * 512 + i)]> owner) s
    (set_entry (add_table s a np) t i (Z.lor np attrs)) 1.
Proof.
  intros np HW Hn Hal Hr HP Hfree Ho Hl Hi He.
  assert (t <> np) by congruence.
  assert (Hl4 : l <= 4) by (apply (wf_level _ _ _ HW) in Ho; lia).
  assert (Hpa : ENTRY_PADDR (Z.lor np attrs) = np) by (apply ENTRY_PADDR_lor; auto; lia).
  assert (He' : entry_at (add_table s a np) t i = Some 0).
  { rewrite entry_at_add. by destruct (Z.eqb_spec t np). }
  assert (Ho' : <[np := (l - 1, pre * 512 + i)]> owner !! t = Some (l, pre))
    by (rewrite lookup_insert_ne by congruence; done).
  constructor; auto.
  - eapply set_entry_wf; [| exact Ho' | exact He' | by apply entry_bit7 |].
    + apply add_table_wf; auto; lia.
    + intros. rewrite Hpa, lookup_insert_eq. done.
  - apply pool_ok_set. destruct HP. by constructor.
  - eapply framed_trans; [by apply framed_add | apply framed_set; eauto].
  - rewrite Hfree. simpl. lia.
  - intros w Hw. apply (trans_same_target root owner); auto; [|by apply root_owner with s].
    intros p l' pre' j Hp. unfold same_target. rewrite (entry_at_set _ _ _ _ _ _ _ He').
    destruct ((p =? t) && (j =? i)) eqn:B.
    + zbool. subst p j. rewrite Ho in Hp. injection Hp as <- <-. right. split; [done|].
      eexists _, _. split; [exact He|]. split; [done|]. split; [apply entry_nonzero; lia|].
      right. split; [done|]. rewrite Hpa. intros k e. rewrite (entry_at_set _ _ _ _ _ _ _ He').
      destruct (Z.eqb_spec np t); [congruence|]. simpl. rewrite entry_at_add, Z.eqb_refl.
      apply arr_get_replicate.
    + left. rewrite entry_at_add. destruct (Z.eqb_spec p np); [congruence | done].
Qed.

(** One level of the walk leads to a non-zero entry for the next one. *)
Lemma link_walk_step root owner s t n v :
  0 <= v < 2 ^ 47 -> (n < 3)%nat -> pt_wf root owner s -> pool_ok owner s ->
  (0 < length (free_objs (pm_arena s)))%nat ->
  owner !! t = Some (Z.of_nat n + 2, v / 2 ^ level_shift (Z.of_nat n + 3)) ->
  exists s1 owner1 e1, link_walk (S n) t v attrs s = link_walk n (ENTRY_PADDR e1) v attrs s1 /\
    walked root owner owner1 s s1 1 /\ e1 <> 0 /\
    entry_at s1 t (NTH_LEVEL_INDEX (Z.of_nat n + 2) v) = Some e1 /\
    (forall p l pre j, owner !! p = Some (l, pre) -> Z.of_nat n + 2 < l -> entry_at s1 p j = entry_at s p j).
Proof.
  intros Hv Hn HW HP Hfree Ho. cbn [link_walk].
  replace (Z.of_nat (S n) + 1) with (Z.of_nat n + 2) by lia.
  set (i := NTH_LEVEL_INDEX (Z.of_nat n + 2) v).
  assert (Hi : user_index (Z.of_nat n + 2) i) by (apply user_index_of; lia).
  destruct (entry_at_Some root owner s t _ _ i HW Ho) as [e He]; [apply NTH_LEVEL_INDEX_range; lia|].
  rewrite (bind_intro _ _ _ _ _ _ (read_entry_spec _ _ _ _ He) eq_refl).
  destruct (Z.eqb_spec e 0) as [->|Hne].
  - destruct (alloc_page_ok owner s HP Hfree) as (p & a & E & Hp & Hperm & HP').
    destruct (pool_free _ _ HP p Hp) as (Hp0 & Hpr & Hpm & Hpn). set (np := into_paddr p) in *.
    set (s1 := set_entry (add_table s a np) t i (Z.lor np attrs)).
    assert (Htn : t <> np) by congruence.
    assert (He' : entry_at (add_table s a np) t i = Some 0).
    { rewrite entry_at_add. by destruct (Z.eqb_spec t np). }
    assert (Hpa : ENTRY_PADDR np = np) by (apply ENTRY_PADDR_aligned; auto; lia).
    assert (He1 : entry_at s1 t i = Some (Z.lor np attrs)).
    { unfold s1. by rewrite (entry_at_set _ _ _ _ _ _ _ He'), !Z.eqb_refl. }
    assert (He2 : entry_at (set_entry (add_table s a np) t i np) t i = Some np)
      by (by rewrite (entry_at_set _ _ _ _ _ _ _ He'), !Z.eqb_refl).
    exists s1, (<[np := (Z.of_nat n + 1, v / 2 ^ level_shift (Z.of_nat n + 3) * 512 + i)]> owner), (Z.lor np attrs).
    split; [|split; [|split; [apply entry_nonzero; lia | split; [done|]]]].
    + unfold bind at 1. unfold bind at 1. rewrite E. unfold bind at 1.
      destruct (Z.eqb_spec p 0); [done|]. unfold ret at 1. unfold bind at 1, fill_page, modify.
      fold np. change (PageMem (pm_arena (PageMem a (pm_tables s))) _) with (add_table s a np).
      rewrite (write_entry_spec _ _ _ _ _ He').
      rewrite (bind_intro _ _ _ _ _ _ (read_entry_spec _ _ _ _ He2) eq_refl), Hpa.
      rewrite (bind_intro _ _ _ _ _ _ (write_entry_spec _ _ _ _ _ He2) eq_refl), set_entry_twice.
      rewrite (bind_intro _ _ _ _ _ _ (read_entry_spec _ _ _ _ He1) eq_refl). done.
    + replace (Z.of_nat n + 1) with (Z.of_nat n + 2 - 1) by lia. apply walked_fresh; auto; lia.
    + intros q l pre j Hq Hl. unfold s1. rewrite (entry_at_set _ _ _ _ _ _ _ He'), entry_at_add.
      destruct (Z.eqb_spec q np), (Z.eqb_spec q t); simpl; try congruence.
      subst q. rewrite Ho in Hq. injection Hq as <- _. lia.
  - set (s1 := set_entry s t i (Z.lor (ENTRY_PADDR e) attrs)).
    assert (He1 : entry_at s1 t i = Some (Z.lor (ENTRY_PADDR e) attrs)).
    { unfold s1. by rewrite (entry_at_set _ _ _ _ _ _ _ He), !Z.eqb_refl. }
    exists s1, owner, (Z.lor (ENTRY_PADDR e) attrs).
    pose proof (ENTRY_PADDR_range e).
    split; [|split; [|split; [apply entry_nonzero; lia | split; [done|]]]].
    + unfold bind at 1. unfold ret at 1.
      rewrite (bind_intro _ _ _ _ _ _ (read_entry_spec _ _ _ _ He) eq_refl).
      rewrite (bind_intro _ _ _ _ _ _ (write_entry_spec _ _ _ _ _ He) eq_refl).
      rewrite (bind_intro _ _ _ _ _ _ (read_entry_spec _ _ _ _ He1) eq_refl). done.
    + apply (walked_le _ _ _ _ _ 0); [|lia]. apply (walked_attrs root owner s t i _ _ e HW HP Ho); auto. lia.
    + intros q l pre j Hq Hl. unfold s1. rewrite (entry_at_set _ _ _ _ _ _ _ He).
      destruct (Z.eqb_spec q t); simpl; [|done].
      subst q. rewrite Ho in Hq. injection Hq as <- _. lia.
Qed.

Lemma link_walk_spec root v : 0 <= v < 2 ^ 47 ->
  forall n owner s t, (n <= 3)%nat -> pt_wf root owner s -> pool_ok owner s ->
  (n <= length (free_objs (pm_arena s)))%nat ->
  owner !! t = Some (Z.of_nat n + 1, v / 2 ^ level_shift (Z.of_nat n + 2)) ->
  exists t1 s' owner', link_walk n t v attrs s = Done (t1, s') /\
    walked root owner owner' s s' n /\ find_table n s' t v = Some t1 /\
    (forall p l pre j, owner !! p = Some (l, pre) -> Z.of_nat n + 1 < l -> entry_at s' p j = entry_at s p j).
Proof.
  intros Hv. induction n as [|n IH]; intros owner s t Hn HW HP Hfree Ho.
  - exists t, s, owner. split; [done|]. split; [by apply walked_refl|]. split; done.
  - replace (Z.of_nat (S n) + 1) with (Z.of_nat n + 2) in * by lia.
    replace (Z.of_nat (S n) + 2) with (Z.of_nat n + 3) in * by lia.
    destruct (link_walk_step root owner s t n v Hv ltac:(lia) HW HP ltac:(lia) Ho)
      as (s1 & o1 & e1 & -> & Hw1 & Hne & He1 & Hs1).
    pose proof (lookup_weaken _ _ _ _ Ho (walked_owner _ _ _ _ _ _ Hw1)) as Ho1.
    pose proof (child_owner root o1 s1 t n v e1 (wk_wf _ _ _ _ _ _ Hw1) Hv ltac:(lia) Ho1 He1 Hne) as Hc.
    destruct (IH o1 s1 (ENTRY_PADDR e1)) as (t1 & s2 & o2 & E & Hw2 & Hf & Hs2);
      [lia | apply Hw1 | apply Hw1 | pose proof (wk_free _ _ _ _ _ _ Hw1); lia | exact Hc |].
    exists t1, s2, o2. split; [done|]. split; [apply (walked_trans _ _ _ _ _ _ _ 1 n Hw1 Hw2)|]. split.
    + cbn [find_table]. replace (Z.of_nat (S n) + 1) with (Z.of_nat n + 2) by lia.
      rewrite (Hs2 _ _ _ _ Ho1) by lia. rewrite He1. by destruct (Z.eqb_spec e1 0).
    + intros p l pre j Hp Hl. rewrite (Hs2 p l pre), (Hs1 p l pre) by (done || lia ||
        exact (lookup_weaken _ _ _ _ Hp (walked_owner _ _ _ _ _ _ Hw1))). done.
Qed.

(** The loop over the entries of a page table. *)
Lemma link_entries_spec root owner t1 pre : owner !! t1 = Some (1, pre) ->
  forall k m s i v p, (m <= k)%nat -> 0 <= i -> i + Z.of_nat k = 512 ->
  pt_wf root owner s -> pool_ok owner s -> 0 <= v -> 0 <= p -> p mod PAGE_SIZE = 0 ->
  v + Z.of_nat m * PAGE_SIZE < 2 ^ 63 -> p + Z.of_nat m * PAGE_SIZE < 2 ^ 63 ->
  exists s', link_entries k t1 i v p (Z.of_nat m) attrs s =
      Done ((v + Z.of_nat m * PAGE_SIZE, p + Z.of_nat m * PAGE_SIZE, 0), s') /\
    pt_wf root owner s' /\ pool_ok owner s' /\ framed owner owner s s' /\
    forall q j, entry_at s' q j =
      if (q =? t1) && ((i <=? j) && (j <? i + Z.of_nat m))
      then Some (Z.lor (p + (j - i) * PAGE_SIZE) attrs) else entry_at s q j.
Proof.
  intros Ho. induction k as [|k IH]; intros m s i v p Hm Hi Hk HW HP Hv Hp Hal Hvm Hpm.
  - destruct m; [|lia]. exists s. split; [simpl; by rewrite !Z.add_0_r|].
    split; [done|]. split; [done|]. split; [apply framed_refl|]. intros q j.
    destruct (Z.leb_spec i j), (Z.ltb_spec j (i + Z.of_nat 0)); try lia; simpl; by rewrite andb_false_r.
  - cbn [link_entries]. destruct m as [|m].
    { exists s. split; [simpl; by rewrite !Z.add_0_r|]. split; [done|]. split; [done|]. split; [apply framed_refl|]. intros q j.
      destruct (Z.leb_spec i j), (Z.ltb_spec j (i + Z.of_nat 0)); try lia; simpl; by rewrite andb_false_r. }
    unfold PAGE_SIZE in *. destruct (Z.ltb_spec 0 (Z.of_nat (S m))); [|lia].
    destruct (Z.ltb_spec i PAGE_ENTRY_NUM); [|unfold PAGE_ENTRY_NUM in *; lia]. cbn [andb].
    destruct (entry_at_Some root owner s t1 _ _ i HW Ho) as [e He]; [lia|].
    rewrite (bind_intro _ _ _ _ _ _ (write_entry_spec _ _ _ _ _ He) eq_refl).
    rewrite !u64_small by lia. replace (Z.of_nat (S m) - 1) with (Z.of_nat m) by lia.
    destruct (IH m (set_entry s t1 i (Z.lor p attrs)) (i + 1) (v + 4096) (p + 4096))
      as (s' & -> & HW' & HP' & HF' & Hs'); try lia.
    + eapply set_entry_wf; eauto; [by apply entry_bit7 | lia].
    + by apply pool_ok_set.
    + rewrite Zplus_mod, Hal. reflexivity.
    + exists s'. replace (v + 4096 + Z.of_nat m * 4096) with (v + Z.of_nat (S m) * 4096) by lia.
      replace (p + 4096 + Z.of_nat m * 4096) with (p + Z.of_nat (S m) * 4096) by lia.
      split; [done|]. split; [done|]. split; [done|].
      split; [eapply framed_trans; [apply framed_set; eauto | done]|]. intros q j.
      rewrite Hs', (entry_at_set _ _ _ _ _ _ _ He).
      destruct (Z.eqb_spec q t1); simpl; [|done].
      destruct (Z.leb_spec (i + 1) j), (Z.ltb_spec j (i + 1 + Z.of_nat m)), (Z.leb_spec i j),
        (Z.ltb_spec j (i + Z.of_nat (S m))), (Z.eqb_spec j i); simpl; try lia; try done;
        do 2 f_equal; lia.
Qed.
End Walk.

(** The addresses of a run of pages that stays in one page table. *)
Lemma run_index v w num :
  v mod PAGE_SIZE = 0 -> 0 <= w -> 0 <= v -> 1 <= num -> NTH_LEVEL_INDEX 1 v + num <= 512 ->
  ((w / 2 ^ 21 =? v / 2 ^ 21) &&
   ((NTH_LEVEL_INDEX 1 v <=? NTH_LEVEL_INDEX 1 w) && (NTH_LEVEL_INDEX 1 w <? NTH_LEVEL_INDEX 1 v + num)) =
   ((v <=? w) && (w <? v + num * PAGE_SIZE))) /\
  (w / 2 ^ 21 = v / 2 ^ 21 ->
   (NTH_LEVEL_INDEX 1 w - NTH_LEVEL_INDEX 1 v) * PAGE_SIZE = w - w mod PAGE_SIZE - v).
Proof.
  intros Hv Hw0 Hv0 Hn. unfold PAGE_SIZE in *.
  rewrite !NTH_LEVEL_INDEX_mod by lia. change (2 ^ level_shift 1) with 4096.
  change (2 ^ 21) with (4096 * 512). rewrite <- !Z.div_div by lia.
  pose proof (Z.div_mod w 4096). pose proof (Z.mod_pos_bound w 4096).
  pose proof (Z.div_mod v 4096). set (q := w / 4096) in *. set (r := v / 4096) in *.
  pose proof (Z.div_mod q 512). pose proof (Z.mod_pos_bound q 512).
  pose proof (Z.div_mod r 512). pose proof (Z.mod_pos_bound r 512). intros Hr.
  split; [|lia].
  destruct (Z.eqb_spec (q / 512) (r / 512)), (Z.leb_spec (r mod 512) (q mod 512)),
    (Z.ltb_spec (q mod 512) (r mod 512 + num)), (Z.leb_spec v w), (Z.ltb_spec w (v + num * 4096));
    simpl; auto; exfalso; lia.
Qed.

Lemma link_attrs flags :
  0 <= flags < 2 ^ 7 ->
  0 < Z.lor PAGE_PRESENT flags < PAGE_SIZE /\ Z.testbit (Z.lor PAGE_PRESENT flags) 7 = false.
Proof.
  unfold PAGE_PRESENT, PAGE_SIZE. intros H.
  assert (0 <= Z.lor 1 flags) by (apply Z.lor_nonneg; lia).
  assert (Z.lor 1 flags <> 0) by (rewrite Z.lor_eq_0_iff; lia).
  assert (Z.log2 (Z.lor 1 flags) < 7).
  { rewrite Z.log2_lor by lia. destruct (Z.eq_dec flags 0) as [->|]; [reflexivity|].
    assert (Z.log2 flags < 7) by (apply Z.log2_lt_pow2; lia). change (Z.log2 1) with 0. lia. }
  split; [|apply Z.bits_above_log2; lia].
  assert (Z.lor 1 flags < 2 ^ 7) by (apply Z.log2_lt_pow2; lia). lia.
Qed.

Lemma link_page_ok fuel root owner s v paddr num flags :
  pt_wf root owner s -> pool_ok owner s -> (3 <= length (free_objs (pm_arena s)))%nat ->
  v mod PAGE_SIZE = 0 -> 0 <= v -> v + num * PAGE_SIZE <= 2 ^ 47 ->
  1 <= num -> NTH_LEVEL_INDEX 1 v + num <= PAGE_ENTRY_NUM ->
  paddr mod PAGE_SIZE = 0 -> 0 <= paddr -> paddr + num * PAGE_SIZE < 2 ^ 63 ->
  0 <= flags < 2 ^ 7 ->
  exists s' owner', link_page (S fuel) root v paddr num flags s = Done (tt, s') /\
    pt_wf root owner' s' /\ pool_ok owner' s' /\ framed owner owner' s s' /\
    forall w, 0 <= w < 2 ^ 47 ->
      trans 3 s' root w =
        if (v <=? w) && (w <? v + num * PAGE_SIZE)
        then paddr + (w - w mod PAGE_SIZE - v) else trans 3 s root w.
Proof.
  intros HW HP Hfree Hva Hv0 Hv Hn Hi Hpa Hp0 Hp Hfl.
  destruct (link_attrs flags Hfl) as [Ha Ha7]. set (attrs := Z.lor PAGE_PRESENT flags) in *.
  unfold PAGE_SIZE, PAGE_ENTRY_NUM in *.
  assert (Hv47 : 0 <= v < 2 ^ 47) by lia.
  destruct (link_walk_spec attrs Ha Ha7 root v Hv47 3 owner s root ltac:(lia) HW HP Hfree (root_owner _ _ _ _ HW Hv47))
    as (t1 & s1 & o1 & E1 & Hw & Hf & _).
  pose proof (wk_wf _ _ _ _ _ _ Hw) as HW1.
  pose proof (find_table_owner _ _ _ _ HW1 Hv47 3 root t1 ltac:(lia) (root_owner _ _ _ _ HW1 Hv47) Hf) as Ho1.
  pose proof (NTH_LEVEL_INDEX_range 1 v ltac:(lia)) as Hir.
  destruct (link_entries_spec attrs Ha7 root o1 t1 _ Ho1 (Z.to_nat (512 - NTH_LEVEL_INDEX 1 v)) (Z.to_nat num)
    s1 (NTH_LEVEL_INDEX 1 v) v paddr) as (s2 & E2 & HW2 & HP2 & HF2 & Hs2);
    unfold PAGE_SIZE in *; try lia; auto; [apply Hw|].
  rewrite Z2Nat.id in * by lia.
  exists s2, o1. split; [|split; [done|split; [done|split; [apply (framed_trans _ _ _ _ _ _ (wk_frame _ _ _ _ _ _ Hw) HF2)|]]]].
  - unfold link_page, bind at 1, c_assert.
    destruct (Z.ltb_spec v KERNEL_BASE_ADDR); [|unfold KERNEL_BASE_ADDR in *; lia].
    cbn [link_loop ret]. fold attrs. unfold bind at 1. rewrite E1. unfold bind at 1. unfold PAGE_ENTRY_NUM. rewrite E2. reflexivity.
  - intros w Hw47. rewrite (trans_pt root o1 s1 s2 t1 v w HW1 Hv47 Hw47 Hf).
    2: { intros q j Hq. rewrite Hs2. by destruct (Z.eqb_spec q t1). }
    pose proof (run_index v w num) as R. unfold PAGE_SIZE in R. destruct R as [<- Hoff]; auto; try lia.
    rewrite Hs2, Z.eqb_refl.
    destruct (Z.eqb_spec (w / 2 ^ 21) (v / 2 ^ 21)) as [Hq|Hq]; cbn [andb]; [|by apply (wk_trans _ _ _ _ _ _ Hw)].
    destruct ((_ <=? _) && _) eqn:B.
    + rewrite (Hoff Hq). pose proof (Z.mod_pos_bound w 4096).
      pose proof (Z.div_mod w 4096). pose proof (Z.div_mod v 4096). zbool. unfold PAGE_SIZE in *.
      assert (Hge : 0 <= w - w mod 4096 - v) by (rewrite <- (Hoff Hq); lia).
      assert (Hlt : w - w mod 4096 - v < num * 4096) by (rewrite <- (Hoff Hq); lia).
      pose proof (entry_nonzero (paddr + (w - w mod 4096 - v)) attrs ltac:(lia) ltac:(lia)).
      destruct (Z.eqb_spec (Z.lor (paddr + (w - w mod 4096 - v)) attrs) 0); [done|].
      apply ENTRY_PADDR_lor; unfold PAGE_SIZE; try lia.
      replace (w - w mod 4096 - v) with (4096 * (w / 4096 - v / 4096)) by lia.
      rewrite (Z.mul_comm 4096), Z.mod_add by lia. done.
    + rewrite <- (wk_trans _ _ _ _ _ _ Hw w Hw47), trans_find.
      by rewrite (find_table_prefix 3 s1 root w v Hq), Hf.
Qed.

(** C19: mapping pages and translating addresses.  [link_page] for pages that
    lie in one page table (the run does not cross a 2 MiB boundary), with three
    free pages for missing tables, returns; afterwards [resolve_paddr_from_vaddr]
    gives the pages of the run their frames, and gives every other user address
    what it gave before.  The page table stays well-formed. *)
Theorem link_page_resolve (fuel : nat) (root : Z) (owner : gmap Z (Z * Z)) (s : pagemem)
    (v paddr num flags : Z) :
  pt_wf root owner s -> pool_ok owner s -> (3 <= length (free_objs (pm_arena s)))%nat ->
  v mod PAGE_SIZE = 0 -> 0 <= v -> v + num * PAGE_SIZE <= 2 ^ 47 ->
  1 <= num -> NTH_LEVEL_INDEX 1 v + num <= PAGE_ENTRY_NUM ->
  paddr mod PAGE_SIZE = 0 -> 0 <= paddr -> paddr + num * PAGE_SIZE < 2 ^ 63 ->
  0 <= flags < 2 ^ 7 ->
  exists s' owner', link_page (S fuel) root v paddr num flags s = Done (tt, s') /\
    pt_wf root owner' s' /\ pool_ok owner' s' /\
    forall w, 0 <= w < 2 ^ 47 ->
      resolve_paddr_from_vaddr root w s' =
        Done (if (v <=? w) && (w <? v + num * PAGE_SIZE)
              then paddr + (w - w mod PAGE_SIZE - v) else trans 3 s root w, s') /\
      resolve_paddr_from_vaddr root w s = Done (trans 3 s root w, s).
Proof.
  intros HW HP Hfree Hva Hv0 Hv Hn Hi Hpa Hp0 Hp Hfl.
  destruct (link_page_ok fuel root owner s v paddr num flags) as (s' & owner' & E & HW' & HP' & _ & Ht); auto.
  exists s', owner'. split; [done|]. split; [done|]. split; [done|]. intros w Hw. split.
  - by rewrite (resolve_spec root owner'), Ht.
  - by apply resolve_spec with owner.
Qed.

(** A top-level table without user mappings. *)
Lemma root_wf root es s :
  root mod PAGE_SIZE = 0 -> 0 <= root < 2 ^ 63 -> pm_tables s !! root = Some es -> length es = 512%nat ->
  (forall i e, user_index 4 i -> entry_at s root i = Some e -> e = 0) ->
  pt_wf root {[ root := (4, 0) ]} s.
Proof.
  intros Hal Hr Hes Hlen Hu.
  assert (Ho : forall q l pre, ({[ root := (4, 0) ]} : gmap Z (Z * Z)) !! q = Some (l, pre) -> q = root /\ l = 4 /\ pre = 0).
  { intros q l pre [<- [= <- <-]]%lookup_singleton_Some. auto. }
  constructor.
  - apply lookup_singleton_eq.
  - intros q l pre (-> & -> & ->)%Ho. lia.
  - intros q l pre (-> & -> & ->)%Ho. split; [done | lia].
  - intros q l pre (-> & -> & ->)%Ho. eauto.
  - intros q l pre i e (-> & -> & ->)%Ho. lia.
  - intros q l pre i e (-> & -> & ->)%Ho _ Hi Hi'. by rewrite (Hu _ _ Hi Hi').
Qed.

Lemma zero_root_wf root s :
  root mod PAGE_SIZE = 0 -> 0 <= root < 2 ^ 63 -> pm_tables s !! root = Some (replicate 512 0) ->
  pt_wf root {[ root := (4, 0) ]} s.
Proof.
  intros Hal Hr Hes. apply (root_wf root (replicate 512 0)); auto using length_replicate.
  intros i e _. unfold entry_at. rewrite Hes. apply arr_get_replicate.
Qed.

(** A process with an empty page table and eight free pages. *)
Definition demo_base : Z := from_paddr 0x100000.
Definition demo_mem : pagemem :=
  PageMem (KmallocArena [FreeRun demo_base 8] PAGE_SIZE 8) {[ 0x1000 := replicate 512 0 ]}.
Definition demo_owner : gmap Z (Z * Z) := {[ 0x1000 := (4, 0) ]}.

Lemma demo_wf : pt_wf 0x1000 demo_owner demo_mem.
Proof. apply zero_root_wf; [reflexivity | lia | reflexivity]. Qed.

Lemma demo_free : free_objs (pm_arena demo_mem) =
  map (fun i => demo_base + i * PAGE_SIZE) [0; 1; 2; 3; 4; 5; 6; 7].
Proof. reflexivity. Qed.

Lemma demo_pool : pool_ok demo_owner demo_mem.
Proof.
  assert (Hr : Forall (fun x => KERNEL_BASE_ADDR <= x < 2 ^ 64 /\ x <> 0 /\ 0 < into_paddr x < 2 ^ 63 /\
    into_paddr x mod PAGE_SIZE = 0 /\ demo_owner !! into_paddr x = None) (free_objs (pm_arena demo_mem))).
  { rewrite demo_free. repeat constructor; vm_compute; congruence. }
  rewrite Forall_forall in Hr. constructor.
  - reflexivity.
  - exists demo_base, 8, []. constructor.
    + reflexivity.
    + reflexivity.
    + reflexivity.
    + split; vm_compute; congruence.
    + repeat constructor; simpl; lia.
    + rewrite app_nil_r. reflexivity.
  - intros p Hp. apply Hr in Hp. tauto.
  - intros p q Hp Hq. apply Hr in Hp as [Hp _], Hq as [Hq _].
    unfold into_paddr. rewrite !u64_small; unfold KERNEL_BASE_ADDR in *; lia.
Qed.

Lemma link_page_resolve_witness :
  exists s' owner', link_page 1 0x1000 0x200000 0x80000000 2 PAGE_USER demo_mem = Done (tt, s') /\
    pt_wf 0x1000 owner' s' /\ pool_ok owner' s' /\
    forall w, 0 <= w < 2 ^ 47 ->
      resolve_paddr_from_vaddr 0x1000 w s' =
        Done (if (0x200000 <=? w) && (w <? 0x200000 + 2 * PAGE_SIZE)
              then 0x80000000 + (w - w mod PAGE_SIZE - 0x200000) else trans 3 demo_mem 0x1000 w, s') /\
      resolve_paddr_from_vaddr 0x1000 w demo_mem = Done (trans 3 demo_mem 0x1000 w, demo_mem).
Proof.
  apply (link_page_resolve 0 0x1000 demo_owner demo_mem 0x200000 0x80000000 2 PAGE_USER).
  - exact demo_wf.
  - exact demo_pool.
  - vm_compute; lia.
  - reflexivity.
  - lia.
  - unfold PAGE_SIZE; lia.
  - lia.
  - vm_compute; congruence.
  - reflexivity.
  - lia.
  - unfold PAGE_SIZE; lia.
  - unfold PAGE_USER; lia.
Defined.

(** ** unlink_page *)

Lemma unlink_walk_spec root owner s v :
  pt_wf root owner s -> 0 <= v < 2 ^ 47 ->
  forall n t t1, (n <= 3)%nat -> find_table n s t v = Some t1 -> unlink_walk n t v s = Done (t1, s).
Proof.
  intros HW Hv. induction n as [|n IH]; intros t t1 Hn Hf; cbn [find_table unlink_walk] in *.
  - by injection Hf as <-.
  - destruct (entry_at s t _) as [e|] eqn:He; [|done]. destruct (Z.eqb_spec e 0) as [|Hne]; [done|].
    rewrite (bind_intro _ _ _ _ _ _ (read_entry_spec _ _ _ _ He) eq_refl).
    destruct (Z.eqb_spec e 0); [done|]. cbn [negb c_assert]. unfold bind at 1, ret.
    apply IH; [lia | done].
Qed.

Lemma unlink_entries_spec root owner t1 pre : owner !! t1 = Some (1, pre) ->
  forall k m s i v, (m <= k)%nat -> 0 <= i -> i + Z.of_nat k = 512 ->
  pt_wf root owner s -> pool_ok owner s -> 0 <= v -> v + Z.of_nat m * PAGE_SIZE < 2 ^ 63 ->
  exists s', unlink_entries k t1 i v (Z.of_nat m) s = Done ((v + Z.of_nat m * PAGE_SIZE, 0), s') /\
    pt_wf root owner s' /\ pool_ok owner s' /\ framed owner owner s s' /\
    forall q j, entry_at s' q j =
      if (q =? t1) && ((i <=? j) && (j <? i + Z.of_nat m)) then Some 0 else entry_at s q j.
Proof.
  intros Ho. induction k as [|k IH]; intros m s i v Hm Hi Hk HW HP Hv Hvm.
  - destruct m; [|lia]. exists s. split; [simpl; by rewrite !Z.add_0_r|].
    split; [done|]. split; [done|]. split; [apply framed_refl|]. intros q j.
    destruct (Z.leb_spec i j), (Z.ltb_spec j (i + Z.of_nat 0)); try lia; simpl; by rewrite andb_false_r.
  - cbn [unlink_entries]. destruct m as [|m].
    { exists s. split; [simpl; by rewrite !Z.add_0_r|]. split; [done|]. split; [done|]. split; [apply framed_refl|]. intros q j.
      destruct (Z.leb_spec i j), (Z.ltb_spec j (i + Z.of_nat 0)); try lia; simpl; by rewrite andb_false_r. }
    unfold PAGE_SIZE in *. destruct (Z.ltb_spec 0 (Z.of_nat (S m))); [|lia].
    destruct (Z.ltb_spec i PAGE_ENTRY_NUM); [|unfold PAGE_ENTRY_NUM in *; lia]. cbn [andb].
    destruct (entry_at_Some root owner s t1 _ _ i HW Ho) as [e He]; [lia|].
    rewrite (bind_intro _ _ _ _ _ _ (write_entry_spec _ _ _ _ _ He) eq_refl).
    rewrite !u64_small by lia. replace (Z.of_nat (S m) - 1) with (Z.of_nat m) by lia.
    destruct (IH m (set_entry s t1 i 0) (i + 1) (v + 4096)) as (s' & -> & HW' & HP' & HF' & Hs'); try lia.
    + eapply set_entry_wf; eauto using Z.bits_0. lia.
    + by apply pool_ok_set.
    + exists s'. replace (v + 4096 + Z.of_nat m * 4096) with (v + Z.of_nat (S m) * 4096) by lia.
      split; [done|]. split; [done|]. split; [done|].
      split; [eapply framed_trans; [apply framed_set; eauto | done]|]. intros q j.
      rewrite Hs', (entry_at_set _ _ _ _ _ _ _ He).
      destruct (Z.eqb_spec q t1); simpl; [|done].
      destruct (Z.leb_spec (i + 1) j), (Z.ltb_spec j (i + 1 + Z.of_nat m)), (Z.leb_spec i j),
        (Z.ltb_spec j (i + Z.of_nat (S m))), (Z.eqb_spec j i); simpl; try lia; done.
Qed.

Lemma unlink_page_ok fuel root owner s v num :
  pt_wf root owner s -> pool_ok owner s -> is_Some (find_table 3 s root v) ->
  v mod PAGE_SIZE = 0 -> 0 <= v -> v + num * PAGE_SIZE <= 2 ^ 47 ->
  1 <= num -> NTH_LEVEL_INDEX 1 v + num <= PAGE_ENTRY_NUM ->
  exists s', unlink_page (S fuel) root v num s = Done (tt, s') /\
    pt_wf root owner s' /\ pool_ok owner s' /\ framed owner owner s s' /\
    forall w, 0 <= w < 2 ^ 47 ->
      trans 3 s' root w = if (v <=? w) && (w <? v + num * PAGE_SIZE) then 0 else trans 3 s root w.
Proof.
  intros HW HP [t1 Hf] Hva Hv0 Hv Hn Hi. unfold PAGE_SIZE, PAGE_ENTRY_NUM in *.
  assert (Hv47 : 0 <= v < 2 ^ 47) by lia.
  pose proof (find_table_owner _ _ _ _ HW Hv47 3 root t1 ltac:(lia) (root_owner _ _ _ _ HW Hv47) Hf) as Ho1.
  pose proof (NTH_LEVEL_INDEX_range 1 v ltac:(lia)) as Hir.
  destruct (unlink_entries_spec root owner t1 _ Ho1 (Z.to_nat (512 - NTH_LEVEL_INDEX 1 v)) (Z.to_nat num)
    s (NTH_LEVEL_INDEX 1 v) v) as (s2 & E2 & HW2 & HP2 & HF2 & Hs2); unfold PAGE_SIZE in *; try lia; auto.
  rewrite Z2Nat.id in * by lia.
  exists s2. split; [|split; [done|split; [done|split; [done|]]]].
  - unfold unlink_page, bind at 1, c_assert.
    destruct (Z.ltb_spec v KERNEL_BASE_ADDR); [|unfold KERNEL_BASE_ADDR in *; lia].
    cbn [unlink_loop ret]. destruct (Z.leb_spec num 0); [lia|].
    rewrite (bind_intro _ _ _ _ _ _ (unlink_walk_spec root owner s v HW Hv47 3 root t1 ltac:(lia) Hf) eq_refl).
    unfold bind at 1, PAGE_ENTRY_NUM. rewrite E2. destruct fuel; reflexivity.
  - intros w Hw47.
    assert (Hne : forall q j, q <> t1 -> entry_at s2 q j = entry_at s q j).
    { intros q j Hq. rewrite Hs2. by destruct (Z.eqb_spec q t1). }
    rewrite (trans_pt root owner s s2 t1 v w) by done.
    pose proof (run_index v w num) as R. unfold PAGE_SIZE in R. destruct R as [<- _]; auto; try lia.
    rewrite Hs2, Z.eqb_refl.
    destruct (Z.eqb_spec (w / 2 ^ 21) (v / 2 ^ 21)) as [Hq|Hq]; cbn [andb]; [|done].
    destruct ((_ <=? _) && _) eqn:B; [done|].
    rewrite (trans_find 3 s root w). by rewrite (find_table_prefix 3 s root w v Hq), Hf.
Qed.

(** Unmapping a run of pages of one page table whose upper tables exist:
    [unlink_page] returns, the pages of the run resolve to 0 afterwards, and
    every other user address resolves to what it did before. *)
Theorem unlink_page_resolve (fuel : nat) (root : Z) (owner : gmap Z (Z * Z)) (s : pagemem) (v num : Z) :
  pt_wf root owner s -> pool_ok owner s -> is_Some (find_table 3 s root v) ->
  v mod PAGE_SIZE = 0 -> 0 <= v -> v + num * PAGE_SIZE <= 2 ^ 47 ->
  1 <= num -> NTH_LEVEL_INDEX 1 v + num <= PAGE_ENTRY_NUM ->
  exists s', unlink_page (S fuel) root v num s = Done (tt, s') /\
    pt_wf root owner s' /\ pool_ok owner s' /\
    forall w, 0 <= w < 2 ^ 47 -> exists p,
      resolve_paddr_from_vaddr root w s = Done (p, s) /\
      resolve_paddr_from_vaddr root w s' =
        Done (if (v <=? w) && (w <? v + num * PAGE_SIZE) then 0 else p, s').
Proof.
  intros HW HP Hf Hva Hv0 Hv Hn Hi.
  destruct (unlink_page_ok fuel root owner s v num) as (s' & E & HW' & HP' & _ & Ht); auto.
  exists s'. split; [done|]. split; [done|]. split; [done|]. intros w Hw. exists (trans 3 s root w).
  split; [by apply resolve_spec with owner|]. by rewrite (resolve_spec root owner), Ht.
Qed.

(** The demo process with one page mapped. *)
Definition demo_mapped : pagemem :=
  match link_page 1 0x1000 0x200000 0x80000000 2 PAGE_USER demo_mem with
  | Done (_, s) => s
  | _ => demo_mem
  end.

Lemma demo_mapped_wf : exists owner, pt_wf 0x1000 owner demo_mapped /\ pool_ok owner demo_mapped.
Proof.
  destruct (link_page_ok 0 0x1000 demo_owner demo_mem 0x200000 0x80000000 2 PAGE_USER demo_wf demo_pool)
    as (s' & owner' & E & HW & HP & _).
  1: vm_compute; lia.
  1: reflexivity.
  1, 2, 3: unfold PAGE_SIZE; lia.
  1: vm_compute; congruence.
  1: reflexivity.
  1, 2, 3: unfold PAGE_SIZE, PAGE_USER; lia.
  exists owner'. unfold demo_mapped. rewrite E. exact (conj HW HP).
Qed.

Lemma unlink_page_resolve_witness :
  exists s', unlink_page 1 0x1000 0x201000 1 demo_mapped = Done (tt, s') /\
    exists p, resolve_paddr_from_vaddr 0x1000 0x200000 demo_mapped = Done (p, demo_mapped) /\
      resolve_paddr_from_vaddr 0x1000 0x200000 s' = Done (p, s').
Proof.
  destruct demo_mapped_wf as (owner & HW & HP).
  destruct (unlink_page_resolve 0 0x1000 owner demo_mapped 0x201000 1) as (s' & E & _ & _ & Hr).
  - exact HW.
  - exact HP.
  - vm_compute. eauto.
  - reflexivity.
  - lia.
  - unfold PAGE_SIZE; lia.
  - lia.
  - vm_compute; congruence.
  - exists s'. split; [exact E|]. destruct (Hr 0x200000 ltac:(lia)) as (p & H1 & H2). exists p.
    split; [exact H1 | exact H2].
Defined.

(** ** Runs that do not fit into one page table *)

Lemma link_entries_remaining k : forall t i v p r attrs s v' p' r' s',
  link_entries k t i v p r attrs s = Done ((v', p', r'), s') ->
  0 <= i -> 0 <= Z.of_nat k <= 512 -> (r < 0 -> r' = r) /\ (0 <= r -> r - Z.of_nat k <= r').
Proof.
  induction k as [|k IH]; intros t i v p r attrs s v' p' r' s' H Hi Hk; cbn [link_entries] in H.
  - injection H as <- <- <- <-. lia.
  - destruct (Z.ltb_spec 0 r) as [Hr|Hr], (Z.ltb_spec i PAGE_ENTRY_NUM) as [Hl|Hl]; cbn [andb] in H;
      try (injection H as <- <- <- <-; lia).
    mstep H. apply IH in H as [H1 H2]; [|lia|lia]. lia.
Qed.

(** [link_page] does not return for more than 512 pages, nor for a negative
    number: its inner loop counts [remaining] down from [num_pages] anew for
    every page table and fills at most 512 entries of one, so [remaining] is
    never 0 at the end of a round.  (An [order] of 10 or more in a page payload
    asks for such a mapping.) *)
Theorem link_page_never_returns (fuel : nat) (root v paddr num flags : Z) (s s' : pagemem)
    (Hnum : num < 0 \/ 512 < num) :
  link_page fuel root v paddr num flags s <> Done (tt, s').
Proof.
  unfold link_page. intros H. mstep H. clear Hrun.
  revert v paddr s0 H. induction fuel as [|fuel IH]; intros v p s0 H; [done|].
  cbn [link_loop] in H. mstep H. mstep H. destruct a1 as [[v' p'] r'].
  pose proof (NTH_LEVEL_INDEX_range 1 v ltac:(lia)).
  apply link_entries_remaining in Hrun0; [|lia|unfold PAGE_ENTRY_NUM; lia].
  destruct (Z.eqb_spec r' 0); [|eauto]. unfold PAGE_ENTRY_NUM in *. lia.
Qed.

Lemma link_page_never_returns_witness :
  forall s', link_page 10 0x1000 0x200000 0x80000000 (POW2 10) PAGE_USER demo_mem <> Done (tt, s').
Proof.
  intros s'. apply (link_page_never_returns 10 0x1000 0x200000 0x80000000 (POW2 10) PAGE_USER demo_mem s').
  right. reflexivity.
Defined.

Definition demo_extra : pagemem :=
  match link_page 2 0x1000 0x1ff000 0x80000000 2 PAGE_USER demo_mem with
  | Done (_, s) => s
  | _ => demo_mem
  end.

(** A run that crosses the end of a page table maps more than it was asked
    to: for two pages from the last entry of a table, [link_page] returns and
    also maps the page after the run. *)
Theorem link_page_maps_extra_page :
  exists s', link_page 2 0x1000 0x1ff000 0x80000000 2 PAGE_USER demo_mem = Done (tt, s') /\
    resolve_paddr_from_vaddr 0x1000 (0x1ff000 + 2 * PAGE_SIZE) s' = Done (0x80000000 + 2 * PAGE_SIZE, s') /\
    resolve_paddr_from_vaddr 0x1000 (0x1ff000 + 2 * PAGE_SIZE) demo_mem = Done (0, demo_mem).
Proof.
  exists demo_extra. split; [|split]; vm_compute; reflexivity.
Qed.

(** ** page_table_init *)

(** A new process starts with an empty user half and the kernel's mappings:
    if the kernel's own top-level table has no user entries beyond the first,
    [page_table_init] returns a well-formed page table of level 4 in which no
    user address is mapped and whose upper half equals the kernel's. *)
Theorem page_table_init_empty (s : pagemem) (kes : list Z)
    (HP : pool_ok ∅ s) (Hfree : (0 < length (free_objs (pm_arena s)))%nat)
    (Hk : pm_tables s !! KERNEL_PML4_PADDR = Some kes) (Hlen : length kes = 512%nat)
    (Hlow : forall i, 1 <= i < 256 -> arr_get kes i = Some 0) :
  exists root s', page_table_init s = Done (root, s') /\
    pt_wf root {[ root := (4, 0) ]} s' /\ pool_ok {[ root := (4, 0) ]} s' /\
    (forall w, 0 <= w < 2 ^ 47 -> resolve_paddr_from_vaddr root w s' = Done (0, s')) /\
    (forall i, 256 <= i < 512 -> entry_at s' root i = arr_get kes i).
Proof.
  destruct (alloc_page_ok ∅ s HP Hfree) as (p & a & E & Hp & _ & HP').
  destruct (pool_free _ _ HP p Hp) as (_ & Hpr & Hpm & _). set (root := into_paddr p) in *.
  set (s1 := PageMem a (<[root := kes]> (pm_tables s))).
  assert (He : forall i, 0 <= i < 512 -> entry_at s1 root i = arr_get kes i).
  { intros i _. unfold entry_at, s1, pm_tables at 1. by rewrite lookup_insert_eq. }
  assert (is_Some (arr_get kes 0)) as [e0 He0] by (apply arr_get_is_Some; lia).
  pose proof (He 0 ltac:(lia)) as He00. rewrite He0 in He00.
  exists root, (set_entry s1 root 0 0).
  assert (Hu : forall i e, user_index 4 i -> entry_at (set_entry s1 root 0 0) root i = Some e -> e = 0).
  { intros i e [Hi0 Hi]. simpl in Hi. rewrite (entry_at_set _ _ _ _ _ _ _ He00), Z.eqb_refl. simpl.
    destruct (Z.eqb_spec i 0); [congruence|]. rewrite He, Hlow by lia. congruence. }
  assert (HW : pt_wf root {[ root := (4, 0) ]} (set_entry s1 root 0 0)).
  { apply (root_wf root (<[0%nat := 0]> kes)); auto; [lia | | by rewrite length_insert].
    simpl. by rewrite lookup_alter_eq, lookup_insert_eq. }
  split; [|split; [exact HW|split; [|split]]].
  - unfold page_table_init, bind at 1. rewrite E. unfold bind at 1, pm_tables at 1. rewrite Hk.
    unfold bind at 1, fill_page, modify. fold root. unfold bind at 1. cbn [need]. unfold ret at 1.
    change (PageMem (pm_arena (PageMem a (pm_tables s))) _) with s1.
    by rewrite (write_entry_spec _ _ _ _ _ He00).
  - specialize (HP' (4, 0)). apply pool_ok_set. destruct HP'. by constructor.
  - intros w Hw. rewrite (resolve_spec _ _ _ _ HW Hw). cbn [trans].
    destruct (entry_at (set_entry s1 root 0 0) root (NTH_LEVEL_INDEX (Z.of_nat 3 + 1) w)) as [e|] eqn:Hi; [|done].
    apply Hu in Hi; [by subst|]. by apply user_index_of.
  - intros i Hi. rewrite (entry_at_set _ _ _ _ _ _ _ He00), Z.eqb_refl. simpl.
    destruct (Z.eqb_spec i 0); [lia|]. apply He. lia.
Qed.

Definition demo_boot : pagemem :=
  PageMem (KmallocArena [FreeRun demo_base 8] PAGE_SIZE 8)
    {[ KERNEL_PML4_PADDR := <[256%nat := 0x701003]> (<[0%nat := 0x701003]> (replicate 512 0)) ]}.

Lemma demo_boot_pool : pool_ok ∅ demo_boot.
Proof.
  destruct demo_pool as [H1 H2 H3 H4]. constructor; auto.
  intros p Hp. destruct (H3 p Hp) as (? & ? & ? & _). done.
Qed.

Lemma page_table_init_empty_witness :
  exists root s', page_table_init demo_boot = Done (root, s') /\
    resolve_paddr_from_vaddr root 0x200000 s' = Done (0, s').
Proof.
  destruct (page_table_init_empty demo_boot
    (<[256%nat := 0x701003]> (<[0%nat := 0x701003]> (replicate 512 0)))) as (root & s' & E & _ & _ & H & _).
  - exact demo_boot_pool.
  - vm_compute; lia.
  - reflexivity.
  - reflexivity.
  - intros i Hi. apply arr_get_Some. split; [lia|].
    rewrite list_lookup_insert_ne, list_lookup_insert_ne by lia. apply lookup_replicate_2. lia.
  - exists root, s'. split; [exact E | apply H; lia].
Defined.
