(* ===== verification/Thread.v ===== *)
(** * Threads and the scheduler

    [kernel/thread.c] and [kernel/arch/x64/thread.c]: creating and destroying
    threads, the run queue, context switches and the lazy switch of the FPU.

    The model has no stacks, so the stack canary is left out; a context switch
    changes [current] and the registers of the CPU, and the code of the thread
    that leaves the CPU goes on when it is resumed (see [System.v]). *)
From S2P Require Import Prelude Message Arena Table KState Paging.
Import Arena Tbl Paging.

Definition KERNEL_STACK_SIZE : Z := PAGE_SIZE.
Definition USER_CS64 : Z := 5 * 8.
Definition USER_DS : Z := 4 * 8.
Definition USER_RPL : Z := 3.

(** [link_page] makes at most two rounds for the numbers of pages for which it
    returns at all. *)
Definition LINK_FUEL : nat := 2.

(** Page-table code works on the page pool and the table pages. *)
Definition on_pagemem {A} (m : M pagemem A) : K A :=
  fun s =>
    match m (PageMem (page_arena s) (ptmem s)) with
    | Done (x, pm) => Done (x, set_ptmem (pm_tables pm) (set_page_arena (pm_arena pm) s))
    | Panic => Panic
    | Undef => Undef
    | Fuel => Fuel
    end.

(** Tables that are global variables. *)
Definition tbl_alloc (get_tbl : kstate -> table) (set_tbl : table -> kstate -> kstate) : K Z :=
  t <- gets get_tbl ;;
  let* (id, t') := lift (table_alloc t) in
  modify (set_tbl t') ;;; ret id.
Definition tbl_free (get_tbl : kstate -> table) (set_tbl : table -> kstate -> kstate) (id : Z) : K unit :=
  t <- gets get_tbl ;;
  t' <- lift (table_free t id) ;;
  modify (set_tbl t').
Definition tbl_set (get_tbl : kstate -> table) (set_tbl : table -> kstate -> kstate) (id v : Z) : K unit :=
  t <- gets get_tbl ;;
  t' <- lift (table_set t id v) ;;
  modify (set_tbl t').

Definition free_thread (p : Z) : K unit :=
  modify (fun s => set_threads (delete p (threads s)) s) ;;;
  kfree_object p.

Module Thread.

(** The words that [arch_thread_init] pushes, from the top of the new stack. *)
Definition initial_stack (start stack : Z) (is_kernel_thread : bool) : list stack_word :=
  [Word 0x02; Word 0; Word 0; Word 0; Word 0; Word 0; Word 0] ++
  (if is_kernel_thread then [x64_start_kernel_thread; Word start]
   else [x64_start_user_thread; Word start; Word (Z.lor USER_CS64 USER_RPL); Word 0x202;
         Word stack; Word (Z.lor USER_DS USER_RPL)]).

Definition arch_thread_init (thread start stack kernel_stack user_buffer : Z)
    (is_kernel_thread : bool) : K Z :=
  let words := initial_stack start stack is_kernel_thread in
  let rsp := u64 (kernel_stack + KERNEL_STACK_SIZE - 8 * Z.of_nat (length words)) in
  xsave_area <- kmalloc_page PAGE_SIZE ;;
  if xsave_area =? NULL then ret ERR_OUT_OF_MEMORY
  else
    t <- load_thread thread ;;
    p <- load_process (t_process t) ;;
    store_thread thread
      (set_t_arch (ArchThread rsp (u64 (kernel_stack + KERNEL_STACK_SIZE)) (p_pml4 p) user_buffer
         xsave_area 0 words) t) ;;;
    ret OK.

Definition arch_thread_destroy (thread : Z) : K unit :=
  t <- load_thread thread ;;
  kfree_page (a_xsave_area (t_arch t)).

Definition thread_allow_io (thread : Z) : K unit :=
  upd_thread thread (fun t =>
    let a := t_arch t in
    set_t_arch (ArchThread (a_rsp a) (a_kernel_stack a) (a_cr3 a) (a_info a) (a_xsave_area a)
      (Z.shiftl 3 12) (a_stack a)) t).

Definition set_current_thread (thread : Z) : K unit := modify (set_current thread).

Definition arch_thread_switch (prev next : Z) : K unit :=
  n <- load_thread next ;;
  modify (fun s =>
    let c := cpu s in
    let a := t_arch n in
    set_current next
      (set_cpu (Cpu (a_cr3 a) (a_info a) (a_kernel_stack a)
                  (if negb (current_fpu_owner c =? next) then true else cr0_ts c)
                  (current_fpu_owner c) (fpu_regs c) (xsave_mem c)) s)).

(** XSAVE and XRSTOR on the save area at an address; all components of the state count. *)
Definition asm_xsave (area : Z) : K unit :=
  modify (fun s => set_cpu (set_xsave_mem (fun a => if a =? area then fpu_regs (cpu s) else xsave_mem (cpu s) a) (cpu s)) s).
Definition asm_xrstor (area : Z) : K unit :=
  modify (fun s => set_cpu (set_fpu_regs (xsave_mem (cpu s) area) (cpu s)) s).
(** The body of [x64_lazy_fpu_switch]; [fpu] executes an instruction of the FPU. *)
Definition fpu_switch (fpu : K unit -> K unit) : K unit :=
  cur <- CURRENT ;;
  c <- gets cpu ;;
  (if negb (current_fpu_owner c =? NULL) then o <- load_thread (current_fpu_owner c) ;; fpu (asm_xsave (a_xsave_area (t_arch o)))
   else ret tt) ;;;
  t <- load_thread cur ;;
  fpu (asm_xrstor (a_xsave_area (t_arch t))) ;;;
  modify (fun s => set_cpu (set_current_fpu_owner cur (cpu s)) s) ;;;
  modify (fun s => set_cpu (set_cr0_ts false (cpu s)) s).
(** With CR0.TS set, an instruction of the FPU raises the device-not-available exception:
    its handler runs, and the instruction is executed again when it returns. *)
Fixpoint fpu_instruction (fuel : nat) (m : K unit) : K unit :=
  match fuel with
  | O => no_fuel
  | S fuel =>
      c <- gets cpu ;;
      if cr0_ts c then fpu_switch (fpu_instruction fuel) ;;; fpu_instruction fuel m else m
  end.
Definition x64_lazy_fpu_switch (fuel : nat) : K unit := fpu_switch (fpu_instruction fuel).

(** Where a kernel thread starts: the server thread in [kernel_server_main]. The
    idle thread, created with a start address of 0, becomes the boot context. *)
Definition kernel_entry (start : Z) : list frame := if start =? 0 then [] else [FServerMain].

Definition thread_create (process start stack user_buffer arg : Z) : K Z :=
  tid <- tbl_alloc process_table set_process_table ;;
  if tid =? 0 then ret NULL else
  thread <- kmalloc_object SIZEOF_THREAD ;;
  if thread =? NULL then ret NULL else
  kernel_stack <- kmalloc_page PAGE_SIZE ;;
  if kernel_stack =? NULL then kfree_object thread ;;; ret NULL else
  thread_info <- kmalloc_page PAGE_SIZE ;;
  if thread_info =? NULL then kfree_object thread ;;; kfree_page kernel_stack ;;; ret NULL else
  kernel_ipc_buffer <- kmalloc_page SIZEOF_MESSAGE ;;
  if kernel_ipc_buffer =? NULL then
    kfree_object thread ;;; kfree_page kernel_stack ;;; kfree_page thread_info ;;; ret NULL else
  s <- get ;;
  let is_kernel_thread := process =? kernel_process s in
  store_thread thread
    (Thread tid process true OK NULL kernel_stack thread_info kernel_ipc_buffer
       (ArchThread 0 0 0 0 0 0 []) user_buffer arg (uninit_word s thread_info)
       (uninit s thread_info) (uninit s kernel_ipc_buffer) false
       (if is_kernel_thread then kernel_entry start else []) 0) ;;;
  err <- arch_thread_init thread start stack kernel_stack user_buffer is_kernel_thread ;;
  if negb (err =? OK) then
    free_thread thread ;;; kfree_page kernel_stack ;;; kfree_page thread_info ;;;
    kfree_page kernel_ipc_buffer ;;; ret NULL
  else
  (if negb is_kernel_thread then
     p <- load_process process ;;
     on_pagemem (link_page LINK_FUEL (p_pml4 p) user_buffer (into_paddr thread_info) 1
       (Z.lor PAGE_USER PAGE_WRITABLE)) ;;;
     l <- lift (q_push thread (p_threads p)) ;;
     store_process process (set_p_threads l p)
   else ret tt) ;;;
  tbl_set process_table set_process_table tid thread ;;;
  ret thread.

Definition thread_destroy (thread : Z) : K unit :=
  cur <- CURRENT ;;
  t <- load_thread thread ;;
  (if negb (thread =? cur) && negb (t_blocked t) then
     q <- gets runqueue ;;
     q' <- lift (q_remove thread q) ;;
     modify (set_runqueue q')
   else ret tt) ;;;
  (if negb (t_blocked_on t =? NULL) then
     c <- load_channel (t_blocked_on t) ;;
     q <- lift (q_remove thread (c_queue c)) ;;
     store_channel (t_blocked_on t) (set_c_queue q c)
   else ret tt) ;;;
  kfree_page (t_kernel_stack t) ;;;
  kfree_page (t_info t) ;;;
  kfree_page (t_kernel_ipc_buffer t) ;;;
  arch_thread_destroy thread ;;;
  tbl_free process_table set_process_table (t_tid t) ;;;
  p <- load_process (t_process t) ;;
  l <- lift (q_remove thread (p_threads p)) ;;
  store_process (t_process t) (set_p_threads l p) ;;;
  free_thread thread ;;;
  if thread =? cur then panic else ret tt.

Definition thread_kill_current {A} : K A :=
  cur <- CURRENT ;;
  thread_destroy cur ;;;
  undef.

Definition thread_resume (thread : Z) : K unit :=
  t <- load_thread thread ;;
  if t_blocked t then
    store_thread thread (set_t_blocked false t) ;;;
    q <- gets runqueue ;;
    q' <- lift (q_push thread q) ;;
    modify (set_runqueue q')
  else ret tt.

Definition thread_block (thread : Z) : K unit := upd_thread thread (set_t_blocked true).

(** Picks the next thread to run. *)
Definition scheduler (cur : Z) : K Z :=
  t <- load_thread cur ;;
  (if negb (t_blocked t) then
     q <- gets runqueue ;;
     q' <- lift (q_push cur q) ;;
     modify (set_runqueue q')
   else ret tt) ;;;
  q <- gets runqueue ;;
  match q with
  | [] => gets idle_thread
  | next :: q' => modify (set_runqueue q') ;;; ret next
  end.

Definition thread_switch : K unit :=
  cur <- CURRENT ;;
  next <- scheduler cur ;;
  if next =? cur then ret tt else arch_thread_switch cur next.

End Thread.
Import Thread.

(** ** The run queue *)

(** A thread is in the run queue exactly if it is runnable and not running, and it
    is there once. *)
Record sched_inv (s : kstate) : Prop := {
  si_nodup : NoDup (runqueue s);
  si_queue : forall t, t ∈ runqueue s <->
    (exists th, threads s !! t = Some th /\ t_blocked th = false) /\ t <> current s
}.

Lemma load_thread_inv p s t s' : load_thread p s = Done (t, s') -> threads s !! p = Some t /\ s' = s.
Proof.
  unfold load_thread, need. destruct (threads s !! p); [|done]. intros [= <- <-]. auto.
Qed.

Lemma q_push_inv x l l' : q_push x l = Done l' -> (x ∉ l) /\ l' = l ++ [x].
Proof. unfold q_push. case_bool_decide; [done|]. intros [= <-]. auto. Qed.

Lemma q_remove_inv x l l' :
  q_remove x l = Done l' -> (x ∈ l) /\ l' = filter (fun y => y <> x) l.
Proof. unfold q_remove. case_bool_decide; [|done]. intros [= <-]. auto. Qed.

Lemma lift_inv {S A} (o : outcome A) (s : S) a s' : lift o s = Done (a, s') -> o = Done a /\ s' = s.
Proof. unfold lift. destruct o; simpl; [intros [= -> ->] | done..]. auto. Qed.

(** What [thread_resume] does, for every thread. *)
Lemma thread_resume_spec x s r s' :
  thread_resume x s = Done (r, s') ->
  exists t, threads s !! x = Some t /\
    (t_blocked t = false /\ s' = s \/
     t_blocked t = true /\ (x ∉ runqueue s) /\
     s' = set_runqueue (runqueue s ++ [x])
            (set_threads (<[x := set_t_blocked false t]> (threads s)) s)).
Proof.
  unfold thread_resume. intros H. mstep H. apply load_thread_inv in Hrun as [Ht ->].
  exists a. split; [done|]. destruct (t_blocked a) eqn:Hb; [right|left].
  - mstep H. injection Hrun as _ <-. mstep H. injection Hrun as <- <-. mstep H.
    apply lift_inv in Hrun as [[Hx ->]%q_push_inv ->]. injection H as _ <-. auto.
  - injection H as _ <-. auto.
Qed.

Lemma thread_resume_done x s t :
  threads s !! x = Some t -> (x ∉ runqueue s) \/ t_blocked t = false ->
  exists s', thread_resume x s = Done (tt, s').
Proof.
  intros Ht Hx. unfold thread_resume, bind, load_thread. rewrite Ht. simpl.
  destruct (t_blocked t); [|eauto]. destruct Hx as [Hx|]; [|done].
  unfold store_thread, modify, gets, lift, q_push. simpl. rewrite bool_decide_eq_false_2 by done. eauto.
Qed.

Lemma sched_inv_resume x s r s' : sched_inv s -> thread_resume x s = Done (r, s') ->
  (x = current s -> exists t, threads s !! x = Some t /\ t_blocked t = false) -> sched_inv s'.
Proof.
  intros [Hnd Hq] H Hcur. apply thread_resume_spec in H as (t & Ht & [[Hb ->]|(Hb & Hx & ->)]); [done|].
  assert (Hxc : x <> current s).
  { intros Hc. destruct (Hcur Hc) as (? & ? & ?). congruence. }
  constructor; simpl.
  - apply NoDup_app. split; [done|]. split; [|apply NoDup_singleton].
    intros y Hy ->%list_elem_of_singleton. done.
  - intros y. rewrite elem_of_app, list_elem_of_singleton, Hq.
    destruct (decide (y = x)) as [->|Hne].
    + rewrite lookup_insert_eq. split; [|auto]. intros _. split; [eexists; split; [done|]; done | done].
    + rewrite lookup_insert_ne by done. naive_solver.
Qed.

(** The two ways in which a thread can leave [thread_switch]. *)
Lemma scheduler_spec cur s next s' t :
  threads s !! cur = Some t -> scheduler cur s = Done (next, s') ->
  exists q, (if t_blocked t then q = runqueue s else (cur ∉ runqueue s) /\ q = runqueue s ++ [cur]) /\
    match q with
    | [] => next = idle_thread s /\ s' = s
    | x :: q' => next = x /\ s' = set_runqueue q' s
    end.
Proof.
  intros Ht H. unfold scheduler in H. mstep H. apply load_thread_inv in Hrun as [Ht' ->].
  rewrite Ht in Ht'. injection Ht' as <-. destruct (t_blocked t) eqn:Hb; simpl in H.
  - mstep H. injection Hrun as _ <-. mstep H. injection Hrun as <- <-.
    exists (runqueue s). split; [done|].
    destruct (runqueue s) as [|x q']; [injection H as <- <-; done|].
    mstep H. injection Hrun as _ <-. injection H as <- <-. done.
  - mstep H. mstep Hrun. injection Hrun0 as <- <-. mstep Hrun.
    apply lift_inv in Hrun0 as [[Hx ->]%q_push_inv ->]. injection Hrun as _ <-.
    mstep H. injection Hrun as <- <-. exists (runqueue s ++ [cur]). split; [done|]. simpl in H.
    destruct (runqueue s ++ [cur]) as [|x q'] eqn:E; [by destruct (runqueue s)|].
    mstep H. injection Hrun as _ <-. injection H as <- <-. done.
Qed.

Lemma arch_thread_switch_inv prev next s r s' :
  arch_thread_switch prev next s = Done (r, s') ->
  is_Some (threads s !! next) /\ current s' = next /\ threads s' = threads s /\
  runqueue s' = runqueue s /\ channels s' = channels s /\ idle_thread s' = idle_thread s.
Proof.
  unfold arch_thread_switch. intros H. mstep H. apply load_thread_inv in Hrun as [Ht ->].
  injection H as _ <-. rewrite Ht. eauto 10.
Qed.

(** What [thread_switch] does with the run queue. *)
Lemma thread_switch_spec s r s' t :
  threads s !! current s = Some t -> thread_switch s = Done (r, s') ->
  threads s' = threads s /\ channels s' = channels s /\ idle_thread s' = idle_thread s /\
  exists q, (if t_blocked t then q = runqueue s
             else (current s ∉ runqueue s) /\ q = runqueue s ++ [current s]) /\
    match q with
    | [] => current s' = idle_thread s /\ runqueue s' = []
    | x :: q' => current s' = x /\ runqueue s' = q'
    end.
Proof.
  intros Ht H. unfold thread_switch in H. mstep H. injection Hrun as <- <-. mstep H.
  destruct (scheduler_spec _ _ _ _ _ Ht Hrun) as (q & Hq & Hm).
  assert (Hs : threads s0 = threads s /\ channels s0 = channels s /\ current s0 = current s /\
    idle_thread s0 = idle_thread s /\ runqueue s0 = tl q).
  { destruct q; destruct Hm as [-> ->]; repeat split. destruct (t_blocked t); [by rewrite <- Hq|].
    destruct Hq as [_ Hq]. by destruct (runqueue s). }
  destruct Hs as (Hs1 & Hs2 & Hs3 & Hs4 & Hs5).
  destruct (Z.eqb_spec a (current s)) as [Hac|].
  - injection H as _ <-. repeat split; try done. exists q. split; [done|].
    destruct q; destruct Hm as [-> _]; simpl in Hs5; split; congruence.
  - apply arch_thread_switch_inv in H as (_ & Hc & Hth & Hrq & Hch & Hid).
    repeat split; try congruence. exists q. split; [done|].
    destruct q; destruct Hm as [-> _]; simpl in Hs5; split; congruence.
Qed.

Lemma sched_inv_switch s r s' t :
  sched_inv s -> threads s !! current s = Some t -> thread_switch s = Done (r, s') -> sched_inv s'.
Proof.
  intros [Hnd Hq] Ht H. destruct (thread_switch_spec _ _ _ _ Ht H) as (Hth & _ & _ & q & Hqq & Hm).
  assert (Hq' : NoDup q /\ forall x, x ∈ q <-> exists th, threads s !! x = Some th /\ t_blocked th = false).
  { destruct (t_blocked t) eqn:Hb.
    - subst q. split; [done|]. intros x. rewrite Hq. split; [tauto|]. intros Hx. split; [done|].
      intros ->. destruct Hx as (? & ? & ?). congruence.
    - destruct Hqq as [Hnin ->]. split.
      + apply NoDup_app. split; [done|]. split; [|apply NoDup_singleton].
        intros y Hy ->%list_elem_of_singleton. done.
      + intros x. rewrite elem_of_app, list_elem_of_singleton, Hq.
        destruct (decide (x = current s)) as [->|]; naive_solver. }
  destruct Hq' as [Hnd' Hin]. constructor; destruct q as [|x q]; destruct Hm as [Hc Hr]; rewrite ?Hth, ?Hc, ?Hr.
  - apply NoDup_nil_2.
  - by apply NoDup_cons in Hnd' as [_ ?].
  - intros y. rewrite <- Hin. set_solver.
  - apply NoDup_cons in Hnd' as [Hx _]. intros y. rewrite <- Hin, elem_of_cons.
    destruct (decide (y = x)) as [->|]; naive_solver.
Qed.

Lemma sched_inv_block s r s' : sched_inv s -> thread_block (current s) s = Done (r, s') -> sched_inv s'.
Proof.
  intros [Hnd Hq] H. unfold thread_block, upd_thread in H. mstep H.
  apply load_thread_inv in Hrun as [Ht ->]. injection H as _ <-. constructor; simpl; [done|].
  intros y. rewrite Hq. destruct (decide (y = current s)) as [->|]; [tauto|].
  by rewrite lookup_insert_ne by done.
Qed.

(** The steps the kernel takes with the scheduler: the running thread blocks, a
    thread other than the running one is made runnable, the CPU is given up. *)
Inductive sched_step (s s' : kstate) : Prop :=
| sched_block : thread_block (current s) s = Done (tt, s') -> sched_step s s'
| sched_resume (t : Z) : t <> current s -> thread_resume t s = Done (tt, s') -> sched_step s s'
| sched_switch : thread_switch s = Done (tt, s') -> sched_step s s'.

(** The running thread and the idle thread exist. *)
Definition cpu_ok (s : kstate) : Prop :=
  is_Some (threads s !! current s) /\ is_Some (threads s !! idle_thread s).

Lemma sched_step_inv s s' : sched_inv s -> cpu_ok s -> sched_step s s' -> sched_inv s' /\ cpu_ok s'.
Proof.
  intros HI [[t Ht] [ti Hti]] [H|x Hx H|H].
  - split; [by eapply sched_inv_block|]. unfold thread_block, upd_thread in H. mstep H.
    apply load_thread_inv in Hrun as [Ht' ->]. injection H as <-. split; simpl; apply lookup_insert_is_Some'; eauto.
  - split; [eapply sched_inv_resume; eauto; congruence|].
    apply thread_resume_spec in H as (u & Hu & [[_ ->]|(_ & _ & ->)]); split; simpl; eauto;
      apply lookup_insert_is_Some'; eauto.
  - split; [by eapply sched_inv_switch|].
    destruct (thread_switch_spec _ _ _ _ Ht H) as (Hth & _ & Hid & q & Hq & Hm).
    split; rewrite Hth, ?Hid; [|eauto]. destruct q as [|y q]; destruct Hm as [-> _]; [eauto|].
    assert (Hy : y ∈ y :: q) by left. destruct HI as [_ HIq]. destruct (t_blocked t).
    + rewrite Hq in Hy. apply HIq in Hy as [(? & ? & _) _]. eauto.
    + destruct Hq as [_ Hq]. rewrite Hq in Hy.
      apply elem_of_app in Hy as [Hy| ->%list_elem_of_singleton]; [|eauto].
      apply HIq in Hy as [(? & ? & _) _]. eauto.
Qed.

Lemma thread_switch_done s : sched_inv s -> cpu_ok s -> exists s', thread_switch s = Done (tt, s').
Proof.
  intros [Hnd Hq] [[t Ht] [ti Hti]].
  assert (Hnext : forall x q, is_Some (threads s !! x) ->
    exists s', (if x =? current s then ret tt else arch_thread_switch (current s) x) (set_runqueue q s) = Done (tt, s')).
  { intros x q [th Hx]. destruct (x =? current s); [eexists; reflexivity|].
    unfold arch_thread_switch, bind, load_thread. simpl. rewrite Hx. eexists. reflexivity. }
  unfold thread_switch, scheduler, bind, CURRENT, gets, load_thread. rewrite Ht. simpl.
  destruct (t_blocked t) eqn:Hb; simpl.
  - destruct (runqueue s) as [|x q] eqn:Hrq; simpl.
    + destruct (Hnext (idle_thread s) (runqueue s)) as [s' E]; [eauto|].
      replace (set_runqueue (runqueue s) s) with s in E by (by destruct s). eauto.
    + apply Hnext. assert (x ∈ x :: q) as Hx by left. apply Hq in Hx as [(? & ? & _) _]. eauto.
  - unfold lift, q_push. rewrite bool_decide_eq_false_2.
    2: { intros Hin. apply Hq in Hin as [_ ?]. done. }
    simpl. destruct (runqueue s ++ [current s]) as [|x q] eqn:Hrq; [by destruct (runqueue s)|].
    simpl. apply Hnext. assert (x ∈ runqueue s ++ [current s]) as Hx by (rewrite Hrq; left).
    apply elem_of_app in Hx as [Hx| ->%list_elem_of_singleton]; [|eauto].
    apply Hq in Hx as [(? & ? & _) _]. eauto.
Qed.

(** C12: the scheduler keeps its books.  Whatever sequence of blocking, resuming and
    switching the kernel goes through from a state in which the run queue is
    right, it stays right: it holds each runnable thread that is not running,
    once, and no other thread.  In every state on the way a switch succeeds, and
    so does resuming any existing thread but the running one. *)
Theorem scheduler_invariant (s s' : kstate) (HI : sched_inv s) (HC : cpu_ok s)
    (Hsteps : rtc sched_step s s') :
  sched_inv s' /\ cpu_ok s' /\ (exists s'', thread_switch s' = Done (tt, s'')) /\
  forall t, is_Some (threads s' !! t) -> t <> current s' -> exists s'', thread_resume t s' = Done (tt, s'').
Proof.
  assert (sched_inv s' /\ cpu_ok s') as [HI' HC'].
  { induction Hsteps as [|x y z Hxy Hyz IH]; [done|].
    destruct (sched_step_inv x y HI HC Hxy). auto. }
  split; [done|]. split; [done|]. split; [by apply thread_switch_done|].
  intros t [th Ht] Hne. eapply thread_resume_done; [done|].
  destruct (t_blocked th) eqn:Hb; [left|by right].
  intros Hin. apply HI' in Hin as [(th' & ? & ?) _]. congruence.
Qed.

(** ** Fairness *)

(** [n] switches, with other steps of the kernel between them. *)
Inductive switches : nat -> kstate -> kstate -> Prop :=
| switches_nil s : switches 0 s s
| switches_block n s s1 s' :
    thread_block (current s) s = Done (tt, s1) -> switches n s1 s' -> switches n s s'
| switches_resume n t s s1 s' :
    t <> current s -> thread_resume t s = Done (tt, s1) -> switches n s1 s' -> switches n s s'
| switches_switch n s s1 s' :
    thread_switch s = Done (tt, s1) -> switches n s1 s' -> switches (S n) s s'.

(** Every step moves the queue on at the front and only adds at the back. *)
Lemma switches_front n s s' : switches n s s' -> forall l1 t l2, sched_inv s -> cpu_ok s ->
  runqueue s = l1 ++ t :: l2 -> (n <= length l1)%nat -> exists l2', runqueue s' = drop n l1 ++ t :: l2'.
Proof.
  induction 1 as [s|n s s1 s' H Hs IH|n u s s1 s' Hu H Hs IH|n s s1 s' H Hs IH];
    intros l1 t l2 HI HC Hrq Hn.
  - rewrite drop_0. eauto.
  - destruct (sched_step_inv s s1 HI HC) as [HI1 HC1]; [by apply sched_block|].
    unfold thread_block, upd_thread in H. mstep H. apply load_thread_inv in Hrun as [_ ->].
    injection H as <-. by apply (IH l1 t l2).
  - destruct (sched_step_inv s s1 HI HC) as [HI1 HC1]; [by apply sched_resume with u|].
    apply thread_resume_spec in H as (v & Hv & [[_ ->]|(_ & _ & ->)]); [by apply (IH l1 t l2)|].
    apply (IH l1 t (l2 ++ [u])); auto. simpl. by rewrite Hrq, <- app_assoc.
  - destruct (sched_step_inv s s1 HI HC) as [HI1 HC1]; [by apply sched_switch|].
    destruct HC as [[tc Htc] _]. destruct (thread_switch_spec _ _ _ _ Htc H) as (_ & _ & _ & q & Hq & Hm).
    destruct l1 as [|x l1]; [simpl in Hn; lia|]. simpl in Hn.
    assert (exists l2', q = x :: l1 ++ t :: l2') as [l2' ->].
    { destruct (t_blocked tc); [subst q; rewrite Hrq; eauto|]. destruct Hq as [_ ->]. rewrite Hrq.
      exists (l2 ++ [current s]). simpl. by rewrite <- app_assoc. }
    destruct Hm as [_ Hrq1]. simpl. apply (IH l1 t l2'); auto. lia.
Qed.


(** A running thread, two that are runnable, and the idle thread. *)
Definition ex_threads : list (Z * thread) :=
  [(100, ex_thread 1 1 false); (200, ex_thread 2 1 false); (300, ex_thread 3 1 false);
   (400, ex_thread 4 1 true)].
Definition ex_sched : kstate :=
  set_idle_thread 400 (set_current 100 (set_runqueue [200; 300]
    (set_threads (list_to_map ex_threads) ex_kstate))).

Lemma ex_sched_threads t th : threads ex_sched !! t = Some th <-> (t, th) ∈ ex_threads.
Proof.
  symmetry. apply elem_of_list_to_map. apply (bool_decide_unpack _). reflexivity.
Qed.

Lemma ex_sched_inv : sched_inv ex_sched.
Proof.
  constructor.
  - apply (bool_decide_unpack _). reflexivity.
  - intros t. change (runqueue ex_sched) with [200; 300]. change (current ex_sched) with 100.
    setoid_rewrite ex_sched_threads. unfold ex_threads. setoid_rewrite elem_of_cons.
    setoid_rewrite elem_of_cons. setoid_rewrite elem_of_cons. setoid_rewrite elem_of_cons.
    split.
    + intros [->|[->|Hn%elem_of_nil]]; [| |done]; (split; [|done]); eexists; split; eauto.
    + intros [(th & Hin & Hb) Hne].
      destruct Hin as [[= -> ->]|[[= -> ->]|[[= -> ->]|[[= -> ->]|Hn%elem_of_nil]]]]; auto; done.
Qed.

Lemma ex_sched_cpu : cpu_ok ex_sched.
Proof. split; eexists; vm_compute; reflexivity. Qed.

Definition ex_after (n : nat) : kstate :=
  Nat.iter n (fun s => match thread_switch s with Done (_, s') => s' | _ => s end) ex_sched.

Lemma scheduler_invariant_witness :
  sched_inv (ex_after 1) /\ exists s'', thread_switch (ex_after 1) = Done (tt, s'').
Proof.
  destruct (scheduler_invariant ex_sched (ex_after 1)) as (H1 & _ & H2 & _).
  - exact ex_sched_inv.
  - exact ex_sched_cpu.
  - apply rtc_once. apply sched_switch. vm_compute. reflexivity.
  - split; assumption.
Defined.


(** ** The FPU *)

(** The FPU state that thread [t] has: in the registers if it owns the FPU, in
    its save area otherwise. *)
Definition fpu_state (s : kstate) (t : Z) : option Z :=
  th ← threads s !! t;
  Some (if t =? current_fpu_owner (cpu s) then fpu_regs (cpu s)
        else xsave_mem (cpu s) (a_xsave_area (t_arch th))).

(** The FPU is enabled only for its owner, which exists, and no two threads have
    the same save area. *)
Record fpu_inv (s : kstate) : Prop := {
  fpu_enabled : cr0_ts (cpu s) = false -> current_fpu_owner (cpu s) = current s;
  fpu_owner : current_fpu_owner (cpu s) <> NULL -> is_Some (threads s !! current_fpu_owner (cpu s));
  fpu_areas : forall t1 t2 th1 th2, threads s !! t1 = Some th1 -> threads s !! t2 = Some th2 ->
    a_xsave_area (t_arch th1) = a_xsave_area (t_arch th2) -> t1 = t2
}.

Lemma arch_thread_switch_fpu (s s' : kstate) prev next : fpu_inv s -> arch_thread_switch prev next s = Done (tt, s') ->
  fpu_inv s' /\ (forall t, fpu_state s' t = fpu_state s t) /\ current s' = next /\ threads s' = threads s /\
  (current_fpu_owner (cpu s) <> next -> cr0_ts (cpu s') = true).
Proof.
  intros [He Ho Ha] H. unfold arch_thread_switch in H. mstep H. apply load_thread_inv in Hrun as [Ht ->]. injection H as <-.
  split; [constructor; simpl; [by destruct (Z.eqb_spec (current_fpu_owner (cpu s)) next) | done | exact Ha]|].
  split; [done|]. split; [done|]. split; [done|]. simpl. intros Hn. by rewrite (proj2 (Z.eqb_neq _ _) Hn).
Qed.
(** The FPU is disabled for the running thread, and the handler begins with an instruction
    of the FPU. *)
Lemma fpu_switch_faults (fpu : K unit -> K unit) (s : kstate) : fpu_inv s -> is_Some (threads s !! current s) ->
  (forall m, fpu m s = Fuel) -> fpu_switch fpu s = Fuel.
Proof.
  intros HF [th Hth] Hf. unfold fpu_switch, bind, CURRENT, gets, load_thread.
  destruct (Z.eqb_spec (current_fpu_owner (cpu s)) NULL) as [|Hn]; cbn [negb].
  - cbv beta iota. unfold ret, need. rewrite Hth. unfold ret. cbv beta iota. by rewrite Hf.
  - destruct (fpu_owner s HF Hn) as [o Ho]. cbv beta iota. rewrite Ho. unfold need, ret. cbv beta iota. by rewrite Hf.
Qed.
Lemma lazy_fpu_switch_faults (s : kstate) : fpu_inv s -> cr0_ts (cpu s) = true -> is_Some (threads s !! current s) ->
  forall fuel, x64_lazy_fpu_switch fuel s = Fuel.
Proof.
  intros HF Hts Hc fuel. apply fpu_switch_faults; [done | done|].
  induction fuel as [|fuel IH]; intros m; [done|]. cbn [fpu_instruction]. unfold bind, gets. rewrite Hts.
  by rewrite (fpu_switch_faults (fpu_instruction fuel) s HF Hc IH).
Qed.

(** C36: a thread that does not own the FPU cannot use it.  A context switch to a thread
    other than the owner of the FPU changes no thread's FPU state and disables the FPU; the
    first FPU instruction of the thread then raises the device-not-available exception, whose
    handler executes XSAVE or XRSTOR before it enables the FPU.  These raise the exception
    again: whatever the fuel, the handler does not return. *)
Theorem lazy_fpu_switch_recurses (s s' : kstate) (prev next : Z) (fuel : nat) (HF : fpu_inv s)
    (Hs : arch_thread_switch prev next s = Done (tt, s')) (Hnext : is_Some (threads s !! next)) (Howner : current_fpu_owner (cpu s) <> next) :
  (forall t, fpu_state s' t = fpu_state s t) /\ current s' = next /\ cr0_ts (cpu s') = true /\ x64_lazy_fpu_switch fuel s' = Fuel.
Proof.
  destruct (arch_thread_switch_fpu s s' prev next HF Hs) as (HF' & Hst & Hc & Ht & Hts). specialize (Hts Howner).
  split; [done|]. split; [done|]. split; [done|]. apply lazy_fpu_switch_faults; [done | done | by rewrite Ht, Hc].
Qed.

(** If the FPU were enabled first, as the comment on the flag means it, the handler would be
    right: it would keep the invariant and every thread's FPU state, and leave the running
    thread with its own state in the registers. *)
Lemma fpu_switch_enabled (s : kstate) : fpu_inv s -> threads s !! NULL = None -> is_Some (threads s !! current s) ->
  exists s', fpu_switch (fun m => m) s = Done (tt, s') /\ fpu_inv s' /\ (forall t, fpu_state s' t = fpu_state s t) /\
    cr0_ts (cpu s') = false /\ fpu_state s (current s) = Some (fpu_regs (cpu s')).
Proof.
  intros [He Ho Ha] Hnull [th Hth].
  set (mem := if negb (current_fpu_owner (cpu s) =? NULL) then
     match threads s !! current_fpu_owner (cpu s) with
     | Some o => fun a => if a =? a_xsave_area (t_arch o) then fpu_regs (cpu s) else xsave_mem (cpu s) a
     | None => xsave_mem (cpu s)
     end else xsave_mem (cpu s)).
  assert (Hmem : forall t u, threads s !! t = Some u ->
    mem (a_xsave_area (t_arch u)) = if t =? current_fpu_owner (cpu s) then fpu_regs (cpu s)
      else xsave_mem (cpu s) (a_xsave_area (t_arch u))).
  { intros t u Ht. unfold mem. destruct (Z.eqb_spec (current_fpu_owner (cpu s)) NULL) as [->|Hn]; simpl.
    - destruct (Z.eqb_spec t NULL); [congruence | done].
    - destruct (Ho Hn) as [o Hoo]. rewrite Hoo.
      destruct (Z.eqb_spec t (current_fpu_owner (cpu s))) as [->|Hne].
      + replace u with o by congruence. by rewrite Z.eqb_refl.
      + destruct (Z.eqb_spec (a_xsave_area (t_arch u)) (a_xsave_area (t_arch o))) as [Hq|]; [|done].
        exfalso. eauto. }
  exists (set_cpu (Cpu (cr3 (cpu s)) (user_gs_base (cpu s)) (tss_rsp0 (cpu s)) false (current s)
            (mem (a_xsave_area (t_arch th))) mem) s).
  split; [|split; [constructor; simpl; eauto|split; [|split; [done|]]]].
  - unfold fpu_switch, bind, CURRENT, gets, load_thread, mem.
    destruct (Z.eqb_spec (current_fpu_owner (cpu s)) NULL) as [|Hn]; simpl; [by rewrite Hth|].
    destruct (Ho Hn) as [o ->]. simpl. by rewrite Hth.
  - intros t. unfold fpu_state. simpl. destruct (threads s !! t) as [u|] eqn:Ht; [|done]. simpl.
    destruct (Z.eqb_spec t (current s)) as [->|].
    + rewrite Hth in Ht. injection Ht as <-. by rewrite (Hmem (current s)).
    + by rewrite (Hmem t).
  - unfold fpu_state. rewrite Hth. simpl. by rewrite (Hmem (current s)).
Qed.

Lemma ex_sched_fpu : fpu_inv ex_sched.
Proof.
  constructor; [done | done |].
  intros t1 t2 th1 th2 H1%ex_sched_threads H2%ex_sched_threads.
  assert (Hall : forall t th, (t, th) ∈ ex_threads -> a_xsave_area (t_arch th) = 0x900000 + t / 100).
  { intros t th. unfold ex_threads. rewrite !elem_of_cons, elem_of_nil.
    intros [[= -> ->]|[[= -> ->]|[[= -> ->]|[[= -> ->]|[]]]]]; reflexivity. }
  rewrite (Hall _ _ H1), (Hall _ _ H2). unfold ex_threads in *. rewrite !elem_of_cons, elem_of_nil in *.
  destruct H1 as [[= -> ->]|[[= -> ->]|[[= -> ->]|[[= -> ->]|[]]]]],
    H2 as [[= -> ->]|[[= -> ->]|[[= -> ->]|[[= -> ->]|[]]]]]; vm_compute; congruence.
Qed.
Lemma lazy_fpu_switch_recurses_witness :
  exists s', arch_thread_switch (current ex_sched) (current ex_sched) ex_sched = Done (tt, s') /\ x64_lazy_fpu_switch 100 s' = Fuel.
Proof.
  destruct (arch_thread_switch (current ex_sched) (current ex_sched) ex_sched) as [[[] s']| | |] eqn:E; try (vm_compute in E; discriminate E).
  exists s'. split; [reflexivity|].
  apply (lazy_fpu_switch_recurses ex_sched s' (current ex_sched) (current ex_sched) 100 ex_sched_fpu E); [eexists; vm_compute; reflexivity | vm_compute; discriminate].
Defined.
