(* ===== verification/Channel.v ===== *)
(** * Channels

    [kernel/channel.c]: creating channels, reference counts, linking,
    transferring, closing and notifications. *)
From S2P Require Import Prelude Message Arena Table KState Paging Thread.
Import Arena Tbl Thread.

(** [p->channels] of a process. *)
Definition channels_alloc (process : Z) : K Z :=
  p <- load_process process ;;
  let* (cid, t) := lift (table_alloc (p_channels p)) in
  store_process process (set_p_channels t p) ;;; ret cid.
Definition channels_free (process cid : Z) : K unit :=
  p <- load_process process ;;
  t <- lift (table_free (p_channels p) cid) ;;
  store_process process (set_p_channels t p).
Definition channels_set (process cid ch : Z) : K unit :=
  p <- load_process process ;;
  t <- lift (table_set (p_channels p) cid ch) ;;
  store_process process (set_p_channels t p).
Definition channels_get (process cid : Z) : K Z :=
  p <- load_process process ;;
  lift (table_get (p_channels p) cid).

Definition free_channel (ch : Z) : K unit :=
  modify (fun s => set_channels (delete ch (channels s)) s) ;;;
  kfree_object ch.

(** The sum of all reference counts. *)
Definition total_refs (s : kstate) : nat :=
  map_fold (fun _ c n => Z.to_nat (c_ref_count c) + n)%nat 0%nat (channels s).

Module Chan.

Definition channel_create (process : Z) : K Z :=
  cid <- channels_alloc process ;;
  if cid =? 0 then ret NULL else
  channel <- kmalloc_object SIZEOF_CHANNEL ;;
  if channel =? NULL then channels_free process cid ;;; ret NULL else
  store_channel channel (Channel process cid 1 false 0 channel channel NULL []) ;;;
  channels_set process cid channel ;;;
  p <- load_process process ;;
  l <- lift (q_push channel (p_channel_list p)) ;;
  store_process process (set_p_channel_list l p) ;;;
  ret channel.

Definition channel_incref (ch : Z) : K unit :=
  c <- load_channel ch ;;
  c_assert (1 <=? c_ref_count c) ;;;
  n <- lift (int_add (c_ref_count c) 1) ;;
  store_channel ch (set_c_ref_count n c).

(** [channel_link] and [channel_transfer] call [channel_decref], which calls them. *)
Section Decref.
Variable channel_decref : Z -> K unit.

Definition channel_link_with (ch1 ch2 : Z) : K unit :=
  if ch1 =? ch2 then
    c <- load_channel ch1 ;;
    (if negb (c_linked_with c =? ch1) then channel_decref (c_linked_with c) else ret tt) ;;;
    c <- load_channel ch2 ;;
    (if negb (c_linked_with c =? ch2) then channel_decref (c_linked_with c) else ret tt) ;;;
    upd_channel ch1 (set_c_linked_with ch1)
  else
    upd_channel ch1 (set_c_linked_with ch2) ;;;
    upd_channel ch2 (set_c_linked_with ch1) ;;;
    channel_incref ch1 ;;;
    channel_incref ch2.

Definition channel_transfer_with (src dst : Z) : K unit :=
  s <- load_channel src ;;
  d <- load_channel dst ;;
  c_assert (c_process s =? c_process d) ;;;
  if src =? dst then
    (if negb (c_transfer_to s =? src) then channel_decref (c_transfer_to s) else ret tt) ;;;
    upd_channel src (set_c_transfer_to src)
  else
    upd_channel src (set_c_transfer_to dst) ;;;
    channel_incref dst.
End Decref.

(** The loop over the senders reads the queue through the member [next] of
    [struct thread], but the nodes in it are the members [queue_next]: the
    pointers it computes are not threads. *)
Fixpoint channel_decref_f (fuel : nat) (ch : Z) : K unit :=
  match fuel with
  | O => no_fuel
  | S fuel =>
      c <- load_channel ch ;;
      c_assert (1 <=? c_ref_count c) ;;;
      store_channel ch (set_c_ref_count (c_ref_count c - 1) c) ;;;
      if 0 <? c_ref_count c - 1 then ret tt
      else
        channel_link_with (channel_decref_f fuel) ch ch ;;;
        channel_transfer_with (channel_decref_f fuel) ch ch ;;;
        c <- load_channel ch ;;
        (if negb (c_receiver c =? NULL) then
           upd_thread (c_receiver c) (set_t_abort_reason ERR_CHANNEL_CLOSED) ;;;
           thread_resume (c_receiver c)
         else ret tt) ;;;
        match c_queue c with [] => ret tt | _ :: _ => undef end ;;;
        channels_free (c_process c) (c_cid c) ;;;
        p <- load_process (c_process c) ;;
        l <- lift (q_remove ch (p_channel_list p)) ;;
        store_process (c_process c) (set_p_channel_list l p) ;;;
        free_channel ch
  end.

(** Every call of [channel_decref] lowers a reference count that is at least 1. *)
Definition channel_decref (ch : Z) : K unit :=
  fun s => channel_decref_f (S (total_refs s)) ch s.

Definition channel_link : Z -> Z -> K unit := channel_link_with channel_decref.
Definition channel_transfer : Z -> Z -> K unit := channel_transfer_with channel_decref.

Definition channel_destroy (ch : Z) : K unit :=
  upd_channel ch (set_c_destructed true) ;;;
  channel_decref ch.

Definition channel_notify (ch notification : Z) : K Z :=
  c <- load_channel ch ;;
  l <- load_channel (c_linked_with c) ;;
  let dst := c_transfer_to l in
  d <- load_channel dst ;;
  store_channel dst (set_c_notification (Z.lor (c_notification d) notification) d) ;;;
  let receiver := c_receiver d in
  (if negb (receiver =? NULL) then
     upd_thread receiver (fun t =>
       set_ipc_buffer (set_from 0 (set_header NOTIFICATION_MSG (ipc_buffer t))) t) ;;;
     thread_resume receiver ;;;
     upd_channel dst (set_c_receiver NULL)
   else ret tt) ;;;
  ret OK.

End Chan.
Import Chan.

(** ** Sums over the channels *)

Definition msum (f : Z -> channel_t -> nat) (m : gmap Z channel_t) : nat :=
  map_fold (fun k c n => f k c + n)%nat 0%nat m.

Lemma msum_insert_new f k c (m : gmap Z channel_t) : m !! k = None -> msum f (<[k := c]> m) = (f k c + msum f m)%nat.
Proof. intros H. unfold msum.
  apply (map_fold_insert_L (fun k c n => f k c + n)%nat); [intros; lia | done]. Qed.

Lemma msum_delete f k c (m : gmap Z channel_t) : m !! k = Some c -> msum f m = (f k c + msum f (delete k m))%nat.
Proof. intros H. unfold msum.
  apply (map_fold_delete_L (fun k c n => f k c + n)%nat); [intros; lia | done]. Qed.

Lemma msum_update f k c c' (m : gmap Z channel_t) : m !! k = Some c ->
  (msum f (<[k := c']> m) + f k c = msum f m + f k c')%nat.
Proof.
  intros H. rewrite <- insert_delete_eq, msum_insert_new by apply lookup_delete_eq.
  rewrite (msum_delete f k c m H). lia.
Qed.

Lemma msum_ext f g (m : gmap Z channel_t) : (forall k c, m !! k = Some c -> f k c = g k c) -> msum f m = msum g m.
Proof.
  induction m as [|k c m Hk IH] using map_ind; intros H; [done|].
  rewrite !msum_insert_new by done. rewrite (H k c) by apply lookup_insert_eq. f_equal. apply IH.
  intros k' c' Hk'. apply H. rewrite lookup_insert_ne; [done|]. congruence.
Qed.

Lemma msum_zero f (m : gmap Z channel_t) k c : msum f m = 0%nat -> m !! k = Some c -> f k c = 0%nat.
Proof. intros H Hk. rewrite (msum_delete f k c m Hk) in H. lia. Qed.

Definition refs_of (k : Z) (c : channel_t) : nat := Z.to_nat (c_ref_count c).

Lemma total_refs_msum s : total_refs s = msum refs_of (channels s).
Proof. done. Qed.

(** ** Dropping references ends *)

(** Code that returns with no more references in total, if [n] bounds them. *)
Definition tame {A} (n : nat) (m : K A) : Prop :=
  forall s, (total_refs s <= n)%nat ->
    match m s with Done (_, s') => (total_refs s' <= total_refs s)%nat | Fuel => False | _ => True end.

Lemma tame_ret {A} n (a : A) : tame n (ret a).
Proof. intros s H. unfold ret. lia. Qed.

Lemma tame_bind {A B} n (m : K A) (k : A -> K B) : tame n m -> (forall a, tame n (k a)) -> tame n (bind m k).
Proof.
  intros Hm Hk s Hs. unfold bind. specialize (Hm s Hs). destruct (m s) as [[a s']| | |]; try done.
  specialize (Hk a s' ltac:(lia)). destruct (k a s') as [[b s'']| | |]; try done. lia.
Qed.

(** Code that does not touch the channels. *)
Lemma tame_frame {A} n (m : K A) :
  (forall s, match m s with Done (_, s') => channels s' = channels s | Fuel => False | _ => True end) -> tame n m.
Proof.
  intros H s Hs. specialize (H s). destruct (m s) as [[a s']| | |]; try done. rewrite !total_refs_msum, H. lia.
Qed.

Lemma tame_if {A} n (b : bool) (m1 m2 : K A) : tame n m1 -> tame n m2 -> tame n (if b then m1 else m2).
Proof. by destruct b. Qed.

Lemma tame_load_channel n p : tame n (load_channel p).
Proof. apply tame_frame. intros s. unfold load_channel, need. by destruct (channels s !! p). Qed.

Lemma tame_upd_channel n p f : (forall c, c_ref_count (f c) = c_ref_count c) -> tame n (upd_channel p f).
Proof.
  intros Hf s Hs. unfold upd_channel, bind, load_channel, need. destruct (channels s !! p) as [c|] eqn:E; [|done].
  unfold ret, store_channel, modify. rewrite !total_refs_msum. simpl.
  pose proof (msum_update refs_of p c (f c) _ E) as H. unfold refs_of in H at 2 4. rewrite Hf in H. lia.
Qed.

Lemma tame_load_thread n p : tame n (load_thread p).
Proof. apply tame_frame. intros s. unfold load_thread, need. by destruct (threads s !! p). Qed.

Lemma tame_load_process n p : tame n (load_process p).
Proof. apply tame_frame. intros s. unfold load_process, need. by destruct (processes s !! p). Qed.

Lemma tame_lift {A} n (o : outcome A) : o <> Fuel -> tame n (lift o).
Proof. intros H. apply tame_frame. intros s. unfold lift. by destruct o. Qed.

Lemma tame_modify n f : (forall s, channels (f s) = channels s) -> tame n (modify f).
Proof. intros H. apply tame_frame. intros s. apply H. Qed.

Lemma tame_gets {A} n (f : kstate -> A) : tame n (gets f).
Proof. by apply tame_frame. Qed.

Lemma tame_assert n b : tame n (c_assert b).
Proof. apply tame_frame. intros s. by destruct b. Qed.

Lemma q_remove_no_fuel x l : q_remove x l <> Fuel.
Proof. unfold q_remove. by case_bool_decide. Qed.
Lemma q_push_no_fuel x l : q_push x l <> Fuel.
Proof. unfold q_push. by case_bool_decide. Qed.
Lemma table_free_no_fuel t id : table_free t id <> Fuel.
Proof. unfold table_free. by destruct (arr_set _ _ _). Qed.

Create HintDb tame.
#[export] Hint Resolve tame_ret tame_load_channel tame_load_thread tame_load_process tame_gets tame_assert
  tame_if q_remove_no_fuel q_push_no_fuel table_free_no_fuel : tame.
#[export] Hint Extern 1 (tame _ (modify _)) => apply tame_modify; reflexivity : tame.
#[export] Hint Extern 1 (tame _ (lift _)) => apply tame_lift : tame.
#[export] Hint Extern 1 (tame _ (upd_channel _ _)) => apply tame_upd_channel; reflexivity : tame.
#[export] Hint Extern 2 (tame _ (bind _ _)) => apply tame_bind; [|intros ?] : tame.
#[export] Hint Extern 1 (tame _ (store_thread _ _)) => apply tame_modify; reflexivity : tame.
#[export] Hint Extern 1 (tame _ (store_process _ _)) => apply tame_modify; reflexivity : tame.

Lemma tame_thread_resume n t : tame n (thread_resume t).
Proof. unfold thread_resume. auto 10 with tame. Qed.

Lemma tame_channels_free n p cid : tame n (channels_free p cid).
Proof. unfold channels_free. auto 10 with tame. Qed.

Lemma tame_free_channel n ch : tame n (free_channel ch).
Proof.
  intros s Hs. unfold free_channel, bind, modify, kfree_object, on_object_arena, kfree, add_free_list, modify.
  rewrite !total_refs_msum. simpl. destruct (channels s !! ch) as [c|] eqn:E.
  - rewrite (msum_delete refs_of ch c _ E). lia.
  - by rewrite delete_id.
Qed.
#[export] Hint Resolve tame_thread_resume tame_channels_free tame_free_channel : tame.

Lemma channel_decref_tame fuel : forall n ch, (n < fuel)%nat -> tame n (channel_decref_f fuel ch).
Proof.
  induction fuel as [|fuel IH]; intros n ch Hn; [lia|]. intros s Hs. cbn [channel_decref_f].
  unfold bind at 1, load_channel at 1, need at 1. destruct (channels s !! ch) as [c|] eqn:E; [|done]. unfold ret at 1.
  unfold bind at 1, c_assert. destruct (Z.leb_spec 1 (c_ref_count c)) as [Hr|]; [|done]. unfold ret at 1.
  unfold bind at 1, store_channel at 1, modify at 1.
  set (s1 := set_channels _ s).
  assert (Hs1 : (total_refs s1 + 1 = total_refs s)%nat).
  { rewrite !total_refs_msum. unfold s1. simpl.
    pose proof (msum_update refs_of ch c (set_c_ref_count (c_ref_count c - 1) c) _ E) as H.
    unfold refs_of in H at 2 4. simpl in H. lia. }
  destruct (0 <? c_ref_count c - 1); [simpl; lia|].
  assert (Hd : forall x, tame (n - 1) (channel_decref_f fuel x)) by (intros x; apply IH; lia).
  match goal with |- match ?m s1 with _ => _ end => assert (Ht : tame (n - 1) m) end.
  { unfold channel_link_with, channel_transfer_with. rewrite Z.eqb_refl. 
    repeat first [solve [auto 10 with tame] | apply tame_bind; [|intros ?] | apply tame_if];
      by case_match; apply tame_frame. }
  specialize (Ht s1 ltac:(lia)).
  match goal with |- match ?o with _ => _ end => destruct o as [[a s']| | |]; try done; lia end.
Qed.

(** C32: dropping a reference to a channel always ends: the calls
    [channel_decref] makes on the linked and the transferred channels never
    go round for ever, whatever the graph of channels looks like, cycles
    and dangling pointers included. *)
Theorem channel_decref_terminates ch s : channel_decref ch s <> Fuel.
Proof.
  intros H. unfold channel_decref in H.
  pose proof (channel_decref_tame (S (total_refs s)) (total_refs s) ch ltac:(lia) s ltac:(lia)) as Ht.
  by rewrite H in Ht.
Qed.
