(* ===== verification/ChannelGraph.v ===== *)
(** * Reference counts of channels

    Channels refer to each other: a linked channel to its peer, a transferring
    channel to its destination.  [kernel/channel.c] counts these references and
    the ones held elsewhere (the owner's identifier, timers, pagers).  Here [own]
    counts the references held elsewhere; the invariant relates the counts to the
    graph, and shows that the operations keep it as long as every holder drops
    its reference at most once. *)
From S2P Require Import Prelude Message Arena Table KState Paging Thread Channel.
Import Arena Tbl Thread Chan.

(** ** The graph *)

Definition transfers_in (X : gset Z) (x : Z) (y : Z) (c : channel_t) : nat :=
  if decide (y ∈ X \/ y = x) then 0%nat else if c_transfer_to c =? x then 1%nat else 0%nat.
Definition links_in (x : Z) (y : Z) (c : channel_t) : nat :=
  if y =? x then 0%nat else if c_linked_with c =? x then 1%nat else 0%nat.
Definition link_out (x : Z) (c : channel_t) : nat := if c_linked_with c =? x then 0%nat else 1%nat.

(** The references a channel must account for: those held elsewhere, one for each
    channel that transfers to it, and one for each link, seen from either end.
    [X] are the channels that are being freed; their transfers do not count. *)
Definition held (own : Z -> nat) (X : gset Z) (m : gmap Z channel_t) (x : Z) (c : channel_t) : nat :=
  (own x + msum (transfers_in X x) m + Nat.max (msum (links_in x) m) (link_out x c))%nat.

Record graph (own : Z -> nat) (X : gset Z) (m : gmap Z channel_t) : Prop := {
  g_count : forall x c, m !! x = Some c -> Z.of_nat (held own X m x c) <= c_ref_count c;
  g_own : forall x, (1 <= own x)%nat -> is_Some (m !! x);
  g_link : forall x c, m !! x = Some c -> is_Some (m !! c_linked_with c);
  g_transfer : forall x c, m !! x = Some c -> (x ∉ X) -> is_Some (m !! c_transfer_to c);
  g_dying : forall x, x ∈ X -> exists c, m !! x = Some c /\ c_ref_count c = 0;
  g_alive : forall x c, m !! x = Some c -> (x ∉ X) -> 1 <= c_ref_count c
}.

Definition own_inc (x : Z) (own : Z -> nat) (y : Z) : nat := if y =? x then S (own y) else own y.
Definition own_dec (x : Z) (own : Z -> nat) (y : Z) : nat := if y =? x then pred (own y) else own y.

Lemma transfers_update X x k c c' m : m !! k = Some c -> c_transfer_to c' = c_transfer_to c ->
  msum (transfers_in X x) (<[k := c']> m) = msum (transfers_in X x) m.
Proof.
  intros Hk E. pose proof (msum_update (transfers_in X x) k c c' m Hk) as H.
  unfold transfers_in in H at 2 4. rewrite E in H. lia.
Qed.

Lemma links_update x k c c' m : m !! k = Some c -> c_linked_with c' = c_linked_with c ->
  msum (links_in x) (<[k := c']> m) = msum (links_in x) m.
Proof.
  intros Hk E. pose proof (msum_update (links_in x) k c c' m Hk) as H.
  unfold links_in in H at 2 4. rewrite E in H. lia.
Qed.

Lemma msum_positive f (m : gmap Z channel_t) k c : m !! k = Some c -> (f k c <= msum f m)%nat.
Proof. intros H. rewrite (msum_delete f k c m H). lia. Qed.

Lemma lookup_insert_cases (m : gmap Z channel_t) k c' x d :
  <[k := c']> m !! x = Some d -> (x = k /\ d = c') \/ (x <> k /\ m !! x = Some d).
Proof. rewrite lookup_insert_Some. naive_solver. Qed.

Lemma lookup_insert_live (m : gmap Z channel_t) k c' x : is_Some (m !! x) -> is_Some (<[k := c']> m !! x).
Proof. intros H. apply lookup_insert_is_Some'. auto. Qed.
#[local] Hint Resolve lookup_insert_live : core.

(** The links of [k] stay, and its count changes by as much as the references held
    elsewhere. *)
Lemma graph_ref own own' X m k c c' :
  graph own X m -> m !! k = Some c -> (k ∉ X) -> c_linked_with c' = c_linked_with c -> c_transfer_to c' = c_transfer_to c ->
  1 <= c_ref_count c' -> Z.of_nat (own' k) - Z.of_nat (own k) <= c_ref_count c' - c_ref_count c ->
  (forall x, x <> k -> own' x = own x) -> graph own' X (<[k := c']> m).
Proof.
  intros HG Hk HX Hl Ht Hn1 Hn Hown.
  assert (Hh : forall x d, held own' X (<[k := c']> m) x d = (held own X m x d - own x + own' x)%nat).
  { intros x d. unfold held. rewrite (transfers_update X x k c), (links_update x k c) by done. lia. }
  constructor.
  - intros x d Hx. rewrite Hh. apply lookup_insert_cases in Hx as [[-> ->]|[Hne Hx]].
    + pose proof (g_count _ _ _ HG _ _ Hk) as Hc. unfold held, link_out in *. rewrite Hl. lia.
    + pose proof (g_count _ _ _ HG _ _ Hx) as Hc. rewrite Hown by done. unfold held in *. lia.
  - intros x Hx. destruct (decide (x = k)) as [->|Hne]; [rewrite lookup_insert_eq; eauto|].
    rewrite Hown in Hx by done. apply lookup_insert_live. by apply (g_own _ _ _ HG).
  - intros x d Hx. apply lookup_insert_live. apply lookup_insert_cases in Hx as [[-> ->]|[Hne Hx]].
    + rewrite Hl. by apply (g_link _ _ _ HG k c).
    + by eapply (g_link _ _ _ HG).
  - intros x d Hx HxX. apply lookup_insert_live. apply lookup_insert_cases in Hx as [[-> ->]|[Hne Hx]].
    + rewrite Ht. by apply (g_transfer _ _ _ HG k c).
    + by eapply (g_transfer _ _ _ HG).
  - intros x Hx. destruct (g_dying _ _ _ HG x Hx) as (d & Hd & H0). exists d. rewrite lookup_insert_ne; [done|]. congruence.
  - intros x d Hx HxX. apply lookup_insert_cases in Hx as [[-> ->]|[Hne Hx]]; [done|]. by apply (g_alive _ _ _ HG x).
Qed.

(** A channel whose last reference is dropped is not linked, and is not the
    destination of a transfer. *)
Lemma graph_last own X m k c :
  graph own X m -> m !! k = Some c -> c_ref_count c = 1 -> (1 <= own k)%nat ->
  own k = 1%nat /\ c_linked_with c = k /\ msum (transfers_in X k) m = 0%nat /\ msum (links_in k) m = 0%nat.
Proof.
  intros HG Hk Hr Ho. pose proof (g_count _ _ _ HG _ _ Hk) as Hc. unfold held, link_out in Hc.
  destruct (Z.eqb_spec (c_linked_with c) k); lia.
Qed.

Lemma transfers_drop X x k c m : m !! k = Some c -> (k ∉ X) -> x <> k ->
  msum (transfers_in X x) m = (msum (transfers_in ({[k]} ∪ X) x) m + if (c_transfer_to c =? x)%Z then 1 else 0)%nat.
Proof.
  intros Hk HX Hne. rewrite (msum_delete (transfers_in X x) k c m Hk), (msum_delete (transfers_in ({[k]} ∪ X) x) k c m Hk).
  assert (msum (transfers_in X x) (delete k m) = msum (transfers_in ({[k]} ∪ X) x) (delete k m)) as ->.
  { apply msum_ext. intros y d Hy. apply lookup_delete_Some in Hy as [Hyk _]. unfold transfers_in.
    destruct (decide (y ∈ X \/ y = x)), (decide (y ∈ {[k]} ∪ X \/ y = x)); set_solver. }
  unfold transfers_in at 1 3. destruct (decide (k ∈ X \/ k = x)) as [[|]|]; [done|done|].
  destruct (decide (k ∈ {[k]} ∪ X \/ k = x)) as [|Hn]; [lia|]. set_solver.
Qed.

Lemma transfers_self X k m : msum (transfers_in ({[k]} ∪ X) k) m = msum (transfers_in X k) m.
Proof.
  apply msum_ext. intros y d Hy. unfold transfers_in.
  destruct (decide (y ∈ X \/ y = k)), (decide (y ∈ {[k]} ∪ X \/ y = k)); set_solver.
Qed.

(** The last reference is dropped: the reference that the transfer of [k] holds is
    now held by the code that frees [k]. *)
Lemma graph_drop own X m k c :
  graph own X m -> m !! k = Some c -> (k ∉ X) -> c_ref_count c = 1 -> (1 <= own k)%nat ->
  graph (if c_transfer_to c =? k then own_dec k own else own_inc (c_transfer_to c) (own_dec k own))
    ({[k]} ∪ X) (<[k := set_c_ref_count 0 c]> m).
Proof.
  intros HG Hk HX Hr Ho. destruct (graph_last own X m k c HG Hk Hr Ho) as (Ho1 & Hl & Ht0 & Hl0).
  set (m1 := <[k := set_c_ref_count 0 c]> m). set (own' := if _ =? _ then _ else _).
  assert (Htr : forall x, msum (transfers_in ({[k]} ∪ X) x) m1 = msum (transfers_in ({[k]} ∪ X) x) m).
  { intros x. by apply (transfers_update _ x k c). }
  assert (Hli : forall x, msum (links_in x) m1 = msum (links_in x) m) by (intros x; by apply (links_update x k c)).
  assert (Hown : forall x, own' x = if x =? k then 0%nat else if c_transfer_to c =? x then S (own x) else own x).
  { intros x. unfold own'. destruct (Z.eqb_spec (c_transfer_to c) k) as [E|E]; unfold own_inc, own_dec.
    - rewrite E. destruct (Z.eqb_spec x k), (Z.eqb_spec k x); subst; lia || congruence.
    - destruct (Z.eqb_spec x k), (Z.eqb_spec x (c_transfer_to c)), (Z.eqb_spec (c_transfer_to c) x); subst; lia || congruence. }
  constructor.
  - intros x d Hx. unfold held. rewrite Htr, Hli, Hown. apply lookup_insert_cases in Hx as [[-> ->]|[Hne Hx]].
    + rewrite Z.eqb_refl, transfers_self, Ht0, Hl0. unfold link_out. simpl. rewrite Hl, Z.eqb_refl. simpl. lia.
    + pose proof (g_count _ _ _ HG _ _ Hx) as Hc. unfold held in Hc. rewrite (transfers_drop X x k c m) in Hc by done.
      destruct (Z.eqb_spec x k); [done|]. destruct (c_transfer_to c =? x); lia.
  - intros x Hx. rewrite Hown in Hx. destruct (Z.eqb_spec x k); [lia|]. apply lookup_insert_live.
    destruct (Z.eqb_spec (c_transfer_to c) x) as [E|]; [rewrite <- E; by apply (g_transfer _ _ _ HG k) | by apply (g_own _ _ _ HG)].
  - intros x d Hx. apply lookup_insert_cases in Hx as [[-> ->]|[Hne Hx]]; apply lookup_insert_live;
      [by apply (g_link _ _ _ HG k c) | by eapply (g_link _ _ _ HG)].
  - intros x d Hx HxX. apply lookup_insert_cases in Hx as [[-> ->]|[Hne Hx]]; [set_solver|]. apply lookup_insert_live.
    apply (g_transfer _ _ _ HG x); [done | set_solver].
  - intros x Hx. destruct (decide (x = k)) as [->|Hne]; [unfold m1; rewrite lookup_insert_eq; eauto|].
    destruct (g_dying _ _ _ HG x) as (d & Hd & H0); [set_solver|]. exists d. unfold m1. by rewrite lookup_insert_ne by done.
  - intros x d Hx HxX. apply lookup_insert_cases in Hx as [[-> ->]|[Hne Hx]]; [set_solver|].
    apply (g_alive _ _ _ HG x); [done | set_solver].
Qed.

(** A channel that is being freed forgets its transfer, and then goes away. *)
Lemma graph_delete own X m k c :
  graph own ({[k]} ∪ X) m -> (k ∉ X) -> m !! k = Some c -> graph own X (delete k m).
Proof.
  intros HG HX Hk. destruct (g_dying _ _ _ HG k) as (c' & Hc' & Hr); [set_solver|]. assert (c' = c) as -> by congruence.
  pose proof (g_count _ _ _ HG _ _ Hk) as Hc. unfold held in Hc.
  assert (Hl : c_linked_with c = k) by (unfold link_out in Hc; destruct (Z.eqb_spec (c_linked_with c) k); lia).
  assert (Hlinks : forall y d, m !! y = Some d -> y <> k -> c_linked_with d <> k).
  { intros y d Hy Hne E. pose proof (msum_positive (links_in k) m y d Hy) as Hp. unfold links_in in Hp at 1.
    rewrite E, Z.eqb_refl in Hp. destruct (Z.eqb_spec y k); [done|]. lia. }
  assert (Htrans : forall y d, m !! y = Some d -> y <> k -> (y ∉ X) -> c_transfer_to d <> k).
  { intros y d Hy Hne HyX E. pose proof (msum_positive (transfers_in ({[k]} ∪ X) k) m y d Hy) as Hp. unfold transfers_in in Hp at 1.
    rewrite E, Z.eqb_refl in Hp. destruct (decide (y ∈ {[k]} ∪ X \/ y = k)); [set_solver|]. lia. }
  constructor.
  - intros x d Hx. apply lookup_delete_Some in Hx as [Hne Hx]. pose proof (g_count _ _ _ HG _ _ Hx) as Hcx.
    unfold held in *. rewrite (msum_delete (links_in x) k c m Hk), (msum_delete (transfers_in ({[k]} ∪ X) x) k c m Hk) in Hcx.
    assert (msum (transfers_in ({[k]} ∪ X) x) (delete k m) = msum (transfers_in X x) (delete k m)) as Et.
    { apply msum_ext. intros y e Hy. apply lookup_delete_Some in Hy as [Hyk _]. unfold transfers_in.
      destruct (decide (y ∈ X \/ y = x)), (decide (y ∈ {[k]} ∪ X \/ y = x)); set_solver. }
    rewrite Et in Hcx. lia.
  - intros x Hx. destruct (g_own _ _ _ HG x Hx) as [d Hd]. destruct (decide (x = k)) as [->|Hne]; [|rewrite lookup_delete_ne by done; eauto].
    lia.
  - intros x d Hx. apply lookup_delete_Some in Hx as [Hne Hx]. destruct (g_link _ _ _ HG _ _ Hx) as [e He].
    rewrite lookup_delete_ne; [eauto|]. intros E. by apply (Hlinks x d).
  - intros x d Hx HxX. apply lookup_delete_Some in Hx as [Hne Hx].
    destruct (g_transfer _ _ _ HG x d Hx) as [e He]; [set_solver|]. rewrite lookup_delete_ne; [eauto|].
    intros E. by apply (Htrans x d).
  - intros x Hx. destruct (g_dying _ _ _ HG x) as (d & Hd & H0); [set_solver|]. exists d. rewrite lookup_delete_ne; [done|]. congruence.
  - intros x d Hx HxX. apply lookup_delete_Some in Hx as [Hne Hx]. apply (g_alive _ _ _ HG x); [done | set_solver].
Qed.

Lemma graph_set_transfer own X m k c x :
  graph own X m -> k ∈ X -> m !! k = Some c -> graph own X (<[k := set_c_transfer_to x c]> m).
Proof.
  intros HG HX Hk.
  assert (Ht : forall y, msum (transfers_in X y) (<[k := set_c_transfer_to x c]> m) = msum (transfers_in X y) m).
  { intros y. pose proof (msum_update (transfers_in X y) k c (set_c_transfer_to x c) m Hk) as H.
    unfold transfers_in in H at 2 4. destruct (decide (k ∈ X \/ k = y)) as [|Hn]; [lia|]. naive_solver. }
  assert (Hli : forall y, msum (links_in y) (<[k := set_c_transfer_to x c]> m) = msum (links_in y) m).
  { intros y. by apply (links_update y k c). }
  constructor.
  - intros y d Hy. unfold held. rewrite Ht, Hli. apply lookup_insert_cases in Hy as [[-> ->]|[Hne Hy]].
    + apply (g_count _ _ _ HG _ _ Hk).
    + apply (g_count _ _ _ HG _ _ Hy).
  - intros y Hy. apply lookup_insert_live. by apply (g_own _ _ _ HG).
  - intros y d Hy. apply lookup_insert_cases in Hy as [[-> ->]|[Hne Hy]]; apply lookup_insert_live;
      [by apply (g_link _ _ _ HG k c) | by eapply (g_link _ _ _ HG)].
  - intros y d Hy HyX. apply lookup_insert_cases in Hy as [[-> ->]|[Hne Hy]]; [done|]. apply lookup_insert_live.
    by eapply (g_transfer _ _ _ HG).
  - intros y Hy. destruct (g_dying _ _ _ HG y Hy) as (d & Hd & H0). destruct (decide (y = k)) as [->|Hne].
    + rewrite lookup_insert_eq. eexists. split; [done|]. simpl. congruence.
    + rewrite lookup_insert_ne by done. eauto.
  - intros y d Hy HyX. apply lookup_insert_cases in Hy as [[-> ->]|[Hne Hy]]; [done|]. by apply (g_alive _ _ _ HG y).
Qed.

(** ** The other structures a channel is in *)

(** Every channel has a process that has it in its table, under its identifier, and
    in its list; its memory is not free; the thread that waits on it exists.  No
    sender waits. *)
Record resources (s : kstate) : Prop := {
  r_proc : forall x c, channels s !! x = Some c -> is_Some (processes s !! c_process c);
  r_table : forall pa p, processes s !! pa = Some p -> exists n A, ID_START < n /\ table_rep n (p_channels p) A /\
    forall cid sl, A !! cid = Some sl <->
      exists x c, sl = Value x /\ channels s !! x = Some c /\ c_process c = pa /\ c_cid c = cid;
  r_list : forall pa p x, processes s !! pa = Some p ->
    x ∈ p_channel_list p <-> exists c, channels s !! x = Some c /\ c_process c = pa;
  r_arena : exists live, arena_inv OBJECT_ARENA_ADDR OBJ_MAX_SIZE (OBJECT_ARENA_LEN / OBJ_MAX_SIZE) (object_arena s) live /\
    forall x, is_Some (channels s !! x) -> x ∈ live;
  r_receiver : forall x c, channels s !! x = Some c -> c_receiver c <> NULL -> is_Some (threads s !! c_receiver c);
  r_runqueue : forall t th, threads s !! t = Some th -> t_blocked th = true -> t ∉ runqueue s;
  r_queue : forall x c, channels s !! x = Some c -> c_queue c = []
}.

(** A channel changes in its count, its links or its flag. *)
Definition same_place (c c' : channel_t) : Prop :=
  c_process c' = c_process c /\ c_cid c' = c_cid c /\ c_receiver c' = c_receiver c /\ c_queue c' = c_queue c.

Lemma resources_channel s k c c' :
  resources s -> channels s !! k = Some c -> same_place c c' -> resources (set_channels (<[k := c']> (channels s)) s).
Proof.
  intros HR Hk (Hp & Hi & Hr & Hq).
  assert (Hex : forall (P : Z -> channel_t -> Prop), (forall x, P x c <-> P x c') ->
    (forall x, (exists d, <[k := c']> (channels s) !! x = Some d /\ P x d) <-> exists d, channels s !! x = Some d /\ P x d)).
  { intros P HP x. destruct (decide (x = k)) as [->|Hne].
    - rewrite lookup_insert_eq, Hk. split; intros (d & [= <-] & H); eexists; (split; [done|]); by apply HP.
    - by rewrite lookup_insert_ne by done. }
  constructor; simpl.
  - intros x d Hx. apply lookup_insert_cases in Hx as [[-> ->]|[Hne Hx]]; [rewrite Hp|]; by eapply (r_proc s HR).
  - intros pa p Hpa. destruct (r_table s HR pa p Hpa) as (n & A & Hn & Hrep & HA). exists n, A. split; [done|]. split; [done|].
    intros cid sl. rewrite HA. split; intros (x & H); exists x.
    + destruct H as (d & -> & H). destruct (Hex (fun _ d => c_process d = pa /\ c_cid d = cid) ltac:(intros ?; simpl; by rewrite Hp, Hi) x) as [_ Hb].
      destruct Hb as (d' & ? & ?); eauto.
    + destruct H as (d & -> & H). destruct (Hex (fun _ d => c_process d = pa /\ c_cid d = cid) ltac:(intros ?; simpl; by rewrite Hp, Hi) x) as [Hf _].
      destruct Hf as (d' & ? & ?); eauto.
  - intros pa p x Hpa. rewrite (r_list s HR pa p x Hpa). symmetry.
    apply (Hex (fun _ d => c_process d = pa)). intros ?. simpl. by rewrite Hp.
  - destruct (r_arena s HR) as (live & HI & Hl). exists live. split; [done|]. intros x Hx. apply Hl.
    apply lookup_insert_is_Some in Hx as [<-|[_ Hx]]; eauto.
  - intros x d Hx. apply lookup_insert_cases in Hx as [[-> ->]|[Hne Hx]]; [rewrite Hr|]; by eapply (r_receiver s HR).
  - apply (r_runqueue s HR).
  - intros x d Hx. apply lookup_insert_cases in Hx as [[-> ->]|[Hne Hx]]; [rewrite Hq|]; by eapply (r_queue s HR).
Qed.

(** The receiver of a channel that goes away is told so. *)
Lemma abort_receiver_ok s r :
  resources s -> is_Some (threads s !! r) ->
  exists s', (upd_thread r (set_t_abort_reason ERR_CHANNEL_CLOSED) ;;; thread_resume r) s = Done (tt, s') /\
    resources s' /\ channels s' = channels s /\ processes s' = processes s.
Proof.
  intros HR [t Ht]. unfold upd_thread, bind at 1, bind at 1, load_thread at 1. rewrite Ht. unfold need at 1, ret at 1, store_thread at 1, modify at 1.
  set (s1 := set_threads _ s).
  assert (Ht1 : threads s1 !! r = Some (set_t_abort_reason ERR_CHANNEL_CLOSED t)) by apply lookup_insert_eq.
  assert (HR1 : resources s1).
  { destruct HR as [H1 H2 H3 H4 H5 H6 H7]. constructor; simpl; try done.
    - intros x c Hx Hn. apply lookup_insert_is_Some'. right. eauto.
    - intros u th. rewrite lookup_insert_Some. intros [[<- <-]|[_ Hu]]; [by apply (H6 r t) | by apply H6]. }
  destruct (thread_resume_done r s1 _ Ht1) as [s2 E].
  { destruct (t_blocked (set_t_abort_reason ERR_CHANNEL_CLOSED t)) eqn:Hb; [left|by right]. by apply (r_runqueue s1 HR1 r _ Ht1). }
  exists s2. split; [exact E|].
  apply thread_resume_spec in E as (u & Hu & [[_ ->]|(Hb & Hq & ->)]); [done|].
  split; [|done]. destruct HR1 as [H1 H2 H3 H4 H5 H6 H7]. constructor; simpl; try done.
  - intros x c Hx Hn. apply lookup_insert_is_Some'. right. by apply (H5 x c).
  - intros v th. rewrite lookup_insert_Some. intros [[<- <-]|[Hne Hv]]; [done|]. intros Hbl Hin.
    apply elem_of_app in Hin as [Hin| ->%list_elem_of_singleton]; [by apply (H6 v th) in Hin | done].
Qed.

Lemma table_free_rep n t A id x : ID_START < n -> table_rep n t A -> A !! id = Some x ->
  exists t', table_free t id = Done t' /\ table_rep n t' (delete id A).
Proof.
  intros Hn HR Hid. destruct (table_step_refines n t A (TFree id) 0 (delete id A) Hn HR) as (t' & E & HR'); [simpl; by rewrite Hid|].
  simpl in E. destruct (table_free t id) as [t1| | |]; try done. injection E as <-. eauto.
Qed.

(** A channel leaves the table and the list of its process, and its memory is freed. *)
Definition release (k : Z) (c : channel_t) : K unit :=
  channels_free (c_process c) (c_cid c) ;;;
  p <- load_process (c_process c) ;;
  l <- lift (q_remove k (p_channel_list p)) ;;
  store_process (c_process c) (set_p_channel_list l p) ;;;
  free_channel k.

Lemma release_resources s k c p t A n a' live' :
  resources s -> channels s !! k = Some c -> processes s !! c_process c = Some p ->
  ID_START < n -> table_rep n t (delete (c_cid c) A) ->
  (forall cid sl, A !! cid = Some sl <->
     exists x d, sl = Value x /\ channels s !! x = Some d /\ c_process d = c_process c /\ c_cid d = cid) ->
  arena_inv OBJECT_ARENA_ADDR OBJ_MAX_SIZE (OBJECT_ARENA_LEN / OBJ_MAX_SIZE) a' live' ->
  (forall x, x <> k -> is_Some (channels s !! x) -> x ∈ live') ->
  resources (set_object_arena a' (set_channels (delete k (channels s))
    (set_processes (<[c_process c := set_p_channel_list (filter (fun y => y <> k) (p_channel_list p)) (set_p_channels t p)]> (processes s)) s))).
Proof.
  intros HR Hk Hp Hn Hrep HA Har Hlive. constructor; simpl.
  - intros x d Hx. apply lookup_delete_Some in Hx as [_ Hx]. apply lookup_insert_is_Some'. right. by eapply (r_proc s HR).
  - intros pa q. rewrite lookup_insert_Some. intros [[<- <-]|[Hne Hq]].
    + exists n, (delete (c_cid c) A). split; [done|]. split; [done|]. intros cid sl. rewrite lookup_delete_Some, HA. split.
      * intros [Hcid (x & d & -> & Hx & Hxp & Hxc)]. exists x, d. split; [done|]. split; [|done].
        rewrite lookup_delete_ne; [done|]. congruence.
      * intros (x & d & -> & Hx & Hxp & Hxc). apply lookup_delete_Some in Hx as [Hxk Hx]. split; [|eauto 10].
        intros Ec. assert (A !! c_cid c = Some (Value x)) as H1 by (apply HA; exists x, d; split; [done|]; split; [done|]; split; congruence).
        assert (A !! c_cid c = Some (Value k)) as H2 by (apply HA; eauto 10). congruence.
    + destruct (r_table s HR pa q Hq) as (n' & A' & Hn' & Hrep' & HA'). exists n', A'. split; [done|]. split; [done|].
      intros cid sl. rewrite HA'. split; intros (x & d & -> & Hx & Hxp & Hxc); exists x, d; (split; [done|]); (split; [|done]).
      * rewrite lookup_delete_ne; [done|]. congruence.
      * by apply lookup_delete_Some in Hx as [_ Hx].
  - intros pa q x. rewrite lookup_insert_Some. intros [[<- <-]|[Hne Hq]]; simpl.
    + rewrite list_elem_of_filter, (r_list s HR _ _ _ Hp). split.
      * intros [Hx (d & Hd & Hdp)]. exists d. by rewrite lookup_delete_ne by done.
      * intros (d & Hd & Hdp). apply lookup_delete_Some in Hd as [? Hd]. eauto.
    + rewrite (r_list s HR _ _ _ Hq). split; intros (d & Hd & Hdp); exists d; (split; [|done]).
      * rewrite lookup_delete_ne; [done|]. congruence.
      * by apply lookup_delete_Some in Hd as [_ Hd].
  - exists live'. split; [done|]. intros x [d Hd]. apply lookup_delete_Some in Hd as [? Hd]. eauto.
  - intros x d Hx. apply lookup_delete_Some in Hx as [_ Hx]. by apply (r_receiver s HR x).
  - apply (r_runqueue s HR).
  - intros x d Hx. apply lookup_delete_Some in Hx as [_ Hx]. by eapply (r_queue s HR).
Qed.

Lemma release_ok s k c : resources s -> channels s !! k = Some c ->
  exists s', release k c s = Done (tt, s') /\ resources s' /\ channels s' = delete k (channels s).
Proof.
  intros HR Hk. destruct (r_proc s HR k c Hk) as [p Hp]. destruct (r_table s HR _ p Hp) as (n & A & Hn & Hrep & HA).
  assert (Hcid : A !! c_cid c = Some (Value k)) by (apply HA; eauto 10).
  destruct (table_free_rep n _ A _ _ Hn Hrep Hcid) as (t & Et & Hrep').
  destruct (r_arena s HR) as (live & Har & Hlive).
  assert (Hin : k ∈ live) by (apply Hlive; eauto). apply list_elem_of_split in Hin as (l1 & l2 & ->).
  destruct (kfree_ok _ _ _ _ _ _ _ Har) as (a' & Ea & Har').
  assert (Hlist : k ∈ p_channel_list p) by (apply (r_list s HR _ _ _ Hp); eauto).
  eexists. split; [|split; [eapply (release_resources s k c p t A n a' (l1 ++ l2)); eauto|]].
  - unfold release, channels_free, bind, load_process. rewrite Hp. simpl. unfold lift at 1. rewrite Et. simpl.
    rewrite lookup_insert_eq. simpl. unfold lift, q_remove. rewrite bool_decide_eq_true_2 by done. simpl.
    unfold store_process, modify. simpl. rewrite insert_insert_eq.
    injection Ea as <-. reflexivity.
  - intros x Hx Hs. apply Hlive in Hs. set_solver.
  - done.
Qed.

(** ** Dropping a reference *)

Lemma graph_ext own own' X m : (forall x, own x = own' x) -> graph own X m -> graph own' X m.
Proof.
  intros E HG. constructor; try apply HG.
  - intros x c Hx. pose proof (g_count _ _ _ HG x c Hx) as H. unfold held in *. by rewrite <- E.
  - intros x. rewrite <- E. apply HG.
Qed.

Lemma own_dec_inc x own y : own_dec x (own_inc x own) y = own y.
Proof. unfold own_dec, own_inc. destruct (y =? x); done. Qed.

Lemma load_channel_at s k c : channels s !! k = Some c -> load_channel k s = Done (c, s).
Proof. unfold load_channel. by intros ->. Qed.

Lemma upd_channel_at s k c f : channels s !! k = Some c ->
  upd_channel k f s = Done (tt, set_channels (<[k := f c]> (channels s)) s).
Proof. intros H. unfold upd_channel. by rewrite (bind_intro _ _ _ _ _ _ (load_channel_at s k c H) eq_refl). Qed.

Lemma upd_channel_same s k c f : channels s !! k = Some c -> f c = c -> upd_channel k f s = Done (tt, s).
Proof. intros H E. rewrite (upd_channel_at s k c) by done. rewrite E, insert_id by done. by destruct s. Qed.

(** Unlinking a channel that is not linked. *)
Lemma unlink_unlinked dec s k c : channels s !! k = Some c -> c_linked_with c = k ->
  channel_link_with dec k k s = Done (tt, s).
Proof.
  intros Hk Hl. unfold channel_link_with. rewrite Z.eqb_refl.
  rewrite (bind_intro _ _ _ _ _ _ (load_channel_at s k c Hk) eq_refl), Hl, Z.eqb_refl. cbn [negb].
  unfold bind at 1, ret at 1. rewrite (bind_intro _ _ _ _ _ _ (load_channel_at s k c Hk) eq_refl), Hl, Z.eqb_refl. cbn [negb].
  unfold bind at 1, ret at 1. apply (upd_channel_same s k c); [done|]. rewrite <- Hl. by destruct c.
Qed.

(** The end of [channel_decref], after the unlinking. *)
Lemma free_stage_ok s k c : resources s -> channels s !! k = Some c ->
  exists s', (c <- load_channel k ;;
    (if negb (c_receiver c =? NULL) then
       upd_thread (c_receiver c) (set_t_abort_reason ERR_CHANNEL_CLOSED) ;;;
       thread_resume (c_receiver c)
     else ret tt) ;;;
    match c_queue c with [] => ret tt | _ :: _ => undef end ;;;
    release k c) s = Done (tt, s') /\ resources s' /\ channels s' = delete k (channels s).
Proof.
  intros HR Hk. rewrite (bind_intro _ _ _ _ _ _ (load_channel_at s k c Hk) eq_refl).
  assert (exists s1, (if negb (c_receiver c =? NULL) then
     upd_thread (c_receiver c) (set_t_abort_reason ERR_CHANNEL_CLOSED) ;;; thread_resume (c_receiver c) else ret tt) s = Done (tt, s1) /\
     resources s1 /\ channels s1 = channels s) as (s1 & E1 & HR1 & Ec1).
  { destruct (Z.eqb_spec (c_receiver c) NULL) as [|Hn]; cbn [negb]; [exists s; done|].
    destruct (abort_receiver_ok s (c_receiver c) HR (r_receiver s HR k c Hk Hn)) as (s1 & E & HR1 & Ec & _). eauto. }
  rewrite (bind_intro _ _ _ _ _ _ E1 eq_refl), (r_queue s HR k c Hk). unfold bind at 1, ret at 1.
  destruct (release_ok s1 k c HR1) as (s2 & E2 & HR2 & Ec2); [by rewrite Ec1|]. exists s2. rewrite <- Ec1. auto.
Qed.

(** A channel that is being freed gives up the reference of its transfer. *)
Lemma untransfer_ok (dec : Z -> K unit) own X ch c s :
  (forall own' d, graph own' ({[ch]} ∪ X) (channels s) -> (1 <= own' d)%nat ->
     exists s', dec d s = Done (tt, s') /\ graph (own_dec d own') ({[ch]} ∪ X) (channels s') /\ resources s' /\
       forall y, y ∈ {[ch]} ∪ X -> channels s' !! y = channels s !! y) ->
  resources s -> channels s !! ch = Some c ->
  graph (if c_transfer_to c =? ch then own else own_inc (c_transfer_to c) own) ({[ch]} ∪ X) (channels s) ->
  exists s' c', channel_transfer_with dec ch ch s = Done (tt, s') /\ channels s' !! ch = Some c' /\
    graph own ({[ch]} ∪ X) (channels s') /\ resources s' /\ forall y, y ∈ X -> y <> ch -> channels s' !! y = channels s !! y.
Proof.
  intros Hdec HR Hc HG. unfold channel_transfer_with.
  rewrite (bind_intro _ _ _ _ _ _ (load_channel_at s ch c Hc) eq_refl), (bind_intro _ _ _ _ _ _ (load_channel_at s ch c Hc) eq_refl).
  rewrite Z.eqb_refl. unfold c_assert, bind at 1, ret at 1. rewrite Z.eqb_refl.
  assert (exists s2, (if negb (c_transfer_to c =? ch) then dec (c_transfer_to c) else ret tt) s = Done (tt, s2) /\
    graph own ({[ch]} ∪ X) (channels s2) /\ resources s2 /\ forall y, y ∈ {[ch]} ∪ X -> channels s2 !! y = channels s !! y)
    as (s2 & E2 & HG2 & HR2 & HX2).
  { destruct (Z.eqb_spec (c_transfer_to c) ch); cbn [negb]; [exists s; done|].
    destruct (Hdec _ (c_transfer_to c) HG) as (s2 & E & HG2 & ?); [unfold own_inc; rewrite Z.eqb_refl; lia|].
    exists s2. split; [done|]. split; [|done]. eapply graph_ext; [|exact HG2]. intros x. apply own_dec_inc. }
  rewrite (bind_intro _ _ _ _ _ _ E2 eq_refl).
  assert (Hc2 : channels s2 !! ch = Some c) by (rewrite HX2; [done | set_solver]).
  rewrite (upd_channel_at s2 ch c) by done. eexists _, _. split; [reflexivity|]. simpl.
  split; [apply lookup_insert_eq|]. split; [apply graph_set_transfer; [done | set_solver | done]|].
  split; [by apply (resources_channel s2 ch c)|]. intros y Hy Hne. rewrite lookup_insert_ne by done. apply HX2. set_solver.
Qed.

Lemma channel_decref_ok fuel : forall own X ch s,
  graph own X (channels s) -> resources s -> (1 <= own ch)%nat -> (total_refs s < fuel)%nat ->
  exists s', channel_decref_f fuel ch s = Done (tt, s') /\ graph (own_dec ch own) X (channels s') /\ resources s' /\
    forall y, y ∈ X -> channels s' !! y = channels s !! y.
Proof.
  induction fuel as [|fuel IH]; intros own X ch s HG HR Ho Hf; [lia|].
  destruct (g_own _ _ _ HG ch Ho) as [c Hc].
  assert (Href : 1 <= c_ref_count c) by (pose proof (g_count _ _ _ HG _ _ Hc) as H; unfold held in H; lia).
  assert (HX : ch ∉ X) by (intros H; destruct (g_dying _ _ _ HG ch H) as (d & Hd & Hd0); congruence || (assert (d = c) by congruence; subst; lia)).
  cbn [channel_decref_f]. rewrite (bind_intro _ _ _ _ _ _ (load_channel_at s ch c Hc) eq_refl).
  unfold c_assert at 1. destruct (Z.leb_spec 1 (c_ref_count c)); [|lia]. unfold bind at 1, ret at 1.
  unfold bind at 1, store_channel at 1, modify at 1. set (s1 := set_channels _ s).
  assert (HR1 : resources s1) by (by apply (resources_channel s ch c)).
  destruct (Z.ltb_spec 0 (c_ref_count c - 1)).
  { exists s1. split; [done|]. split; [|split; [done|]].
    - apply (graph_ref own (own_dec ch own) X (channels s) ch c); try done; unfold own_dec; simpl.
      + lia.
      + rewrite Z.eqb_refl. lia.
      + intros x Hx. by destruct (Z.eqb_spec x ch).
    - intros y Hy. simpl. rewrite lookup_insert_ne; [done|]. congruence. }
  assert (Hr1 : c_ref_count c = 1) by lia.
  destruct (graph_last own X _ ch c HG Hc Hr1 Ho) as (_ & Hl & _).
  pose proof (graph_drop own X _ ch c HG Hc HX Hr1 Ho) as HG1.
  assert (Es1 : channels s1 = <[ch := set_c_ref_count 0 c]> (channels s)) by (unfold s1; simpl; by rewrite Hr1).
  rewrite <- Es1 in HG1. assert (Hc1 : channels s1 !! ch = Some (set_c_ref_count 0 c)) by (rewrite Es1; apply lookup_insert_eq).
  assert (Hf1 : (total_refs s1 < fuel)%nat).
  { rewrite total_refs_msum, Es1. pose proof (msum_update refs_of ch c (set_c_ref_count 0 c) _ Hc) as H1.
    rewrite total_refs_msum in Hf. unfold refs_of in H1 at 2 4. simpl in H1. lia. }
  rewrite (bind_intro _ _ _ _ _ _ (unlink_unlinked _ s1 ch _ Hc1 Hl) eq_refl).
  assert (exists s3 c3, channel_transfer_with (channel_decref_f fuel) ch ch s1 = Done (tt, s3) /\ channels s3 !! ch = Some c3 /\
    graph (own_dec ch own) ({[ch]} ∪ X) (channels s3) /\ resources s3 /\ forall y, y ∈ X -> channels s3 !! y = channels s1 !! y)
    as (s3 & c3 & E3 & Hc3 & HG3 & HR3 & HX3).
  { destruct (untransfer_ok (channel_decref_f fuel) (own_dec ch own) X ch (set_c_ref_count 0 c) s1)
      as (s3 & c3 & E3 & Hc3 & HG3 & HR3 & HX3); [intros own' d HG' Ho'; by apply IH | done..|]. exists s3, c3. split; [done|]. split; [done|]. split; [done|].
    split; [done|]. intros y Hy. apply HX3; [done|]. congruence. }
  rewrite (bind_intro _ _ _ _ _ _ E3 eq_refl).
  destruct (free_stage_ok s3 ch c3 HR3 Hc3) as (s4 & E4 & HR4 & Ec4). exists s4. split; [exact E4|].
  rewrite Ec4. split; [by eapply graph_delete|]. split; [done|].
  intros y Hy. rewrite lookup_delete_ne by congruence. rewrite HX3, Es1 by done. rewrite lookup_insert_ne by congruence. done.
Qed.

(** ** The other operations on the graph *)

Lemma links_set x k c c' m : m !! k = Some c ->
  (msum (links_in x) (<[k := c']> m) <= msum (links_in x) m + links_in x k c')%nat.
Proof. intros Hk. pose proof (msum_update (links_in x) k c c' m Hk). lia. Qed.

Lemma transfers_set X x k c c' m : m !! k = Some c ->
  (msum (transfers_in X x) (<[k := c']> m) <= msum (transfers_in X x) m + transfers_in X x k c')%nat.
Proof. intros Hk. pose proof (msum_update (transfers_in X x) k c c' m Hk). lia. Qed.

Lemma graph_link own m a b ca cb :
  graph own ∅ m -> m !! a = Some ca -> m !! b = Some cb -> a <> b ->
  graph own ∅ (<[b := set_c_ref_count (c_ref_count cb + 1) (set_c_linked_with a cb)]>
                (<[a := set_c_ref_count (c_ref_count ca + 1) (set_c_linked_with b ca)]> m)).
Proof.
  intros HG Ha Hb Hab. set (ca' := set_c_ref_count _ (set_c_linked_with b ca)). set (cb' := set_c_ref_count _ (set_c_linked_with a cb)).
  set (m1 := <[a := ca']> m). assert (Hb1 : m1 !! b = Some cb) by (unfold m1; by rewrite lookup_insert_ne by done).
  assert (Ht : forall x, msum (transfers_in ∅ x) (<[b := cb']> m1) = msum (transfers_in ∅ x) m).
  { intros x. rewrite (transfers_update ∅ x b cb) by done. by apply (transfers_update ∅ x a ca). }
  assert (Hl : forall x, (msum (links_in x) (<[b := cb']> m1) <= msum (links_in x) m + (if ((x =? a) || (x =? b))%Z then 1 else 0))%nat).
  { intros x. pose proof (links_set x b cb cb' m1 Hb1) as H1. pose proof (links_set x a ca ca' m Ha) as H2. fold m1 in H2.
    unfold links_in in H1 at 3. unfold links_in in H2 at 3. simpl in H1, H2. rewrite !(Z.eqb_sym _ x) in H1, H2.
    destruct (Z.eqb_spec x a), (Z.eqb_spec x b); simpl in *; lia || congruence. }
  assert (Hcase : forall x d, <[b := cb']> m1 !! x = Some d ->
    (x = a /\ d = ca') \/ (x = b /\ d = cb') \/ (x <> a /\ x <> b /\ m !! x = Some d)).
  { intros x d Hx. apply lookup_insert_cases in Hx as [?|[Hxb Hx]]; [auto|].
    apply lookup_insert_cases in Hx as [?|[Hxa Hx]]; auto. }
  assert (Hlive : forall x, is_Some (m !! x) -> is_Some (<[b := cb']> m1 !! x)) by (intros x Hx; unfold m1; auto).
  constructor.
  - intros x d Hx. specialize (Hl x). unfold held. rewrite Ht. apply Hcase in Hx as [[-> ->]|[[-> ->]|(Hxa & Hxb & Hx)]].
    + pose proof (g_count _ _ _ HG _ _ Ha) as Hc. unfold held, link_out in *. rewrite Z.eqb_refl in Hl. simpl in *.
      destruct (Z.eqb_spec b a); [congruence|]. lia.
    + pose proof (g_count _ _ _ HG _ _ Hb) as Hc. unfold held, link_out in *. rewrite Z.eqb_refl, orb_true_r in Hl. simpl in *.
      destruct (Z.eqb_spec a b); [congruence|]. lia.
    + pose proof (g_count _ _ _ HG _ _ Hx) as Hc. unfold held in Hc. destruct (Z.eqb_spec x a), (Z.eqb_spec x b); [congruence..|].
      simpl in Hl. lia.
  - intros x Hx. apply Hlive. by apply (g_own _ _ _ HG).
  - intros x d Hx. apply Hlive. apply Hcase in Hx as [[-> ->]|[[-> ->]|(Hxa & Hxb & Hx)]]; simpl; [eauto | eauto |].
    by eapply (g_link _ _ _ HG).
  - intros x d Hx _. apply Hlive. apply Hcase in Hx as [[-> ->]|[[-> ->]|(Hxa & Hxb & Hx)]]; simpl;
      [by apply (g_transfer _ _ _ HG a) | by apply (g_transfer _ _ _ HG b) | by apply (g_transfer _ _ _ HG x)].
  - set_solver.
  - intros x d Hx HxX. apply Hcase in Hx as [[-> ->]|[[-> ->]|(Hxa & Hxb & Hx)]]; simpl.
    + pose proof (g_alive _ _ _ HG _ _ Ha HxX). lia.
    + pose proof (g_alive _ _ _ HG _ _ Hb HxX). lia.
    + by apply (g_alive _ _ _ HG x).
Qed.

Lemma graph_transfer own m a b ca cb :
  graph own ∅ m -> m !! a = Some ca -> m !! b = Some cb -> a <> b ->
  graph own ∅ (<[b := set_c_ref_count (c_ref_count cb + 1) cb]> (<[a := set_c_transfer_to b ca]> m)).
Proof.
  intros HG Ha Hb Hab. set (ca' := set_c_transfer_to b ca). set (cb' := set_c_ref_count _ cb).
  set (m1 := <[a := ca']> m). assert (Hb1 : m1 !! b = Some cb) by (unfold m1; by rewrite lookup_insert_ne by done).
  assert (Hl : forall x, msum (links_in x) (<[b := cb']> m1) = msum (links_in x) m).
  { intros x. rewrite (links_update x b cb) by done. by apply (links_update x a ca). }
  assert (Ht : forall x, (msum (transfers_in ∅ x) (<[b := cb']> m1) <= msum (transfers_in ∅ x) m + (if (x =? b)%Z then 1 else 0))%nat).
  { intros x. rewrite (transfers_update ∅ x b cb) by done. pose proof (transfers_set ∅ x a ca ca' m Ha) as H. fold m1 in H.
    unfold transfers_in in H at 3. simpl in H. rewrite (Z.eqb_sym b x) in H.
    destruct (decide (a ∈ (∅ : gset Z) \/ a = x)), (x =? b); lia. }
  assert (Hcase : forall x d, <[b := cb']> m1 !! x = Some d ->
    (x = a /\ d = ca') \/ (x = b /\ d = cb') \/ (x <> a /\ x <> b /\ m !! x = Some d)).
  { intros x d Hx. apply lookup_insert_cases in Hx as [?|[Hxb Hx]]; [auto|].
    apply lookup_insert_cases in Hx as [?|[Hxa Hx]]; auto. }
  assert (Hlive : forall x, is_Some (m !! x) -> is_Some (<[b := cb']> m1 !! x)) by (intros x Hx; unfold m1; auto).
  constructor.
  - intros x d Hx. specialize (Ht x). unfold held. rewrite Hl. apply Hcase in Hx as [[-> ->]|[[-> ->]|(Hxa & Hxb & Hx)]].
    + pose proof (g_count _ _ _ HG _ _ Ha) as Hc. unfold held, link_out in *. destruct (Z.eqb_spec a b); [congruence|]. simpl in *. lia.
    + pose proof (g_count _ _ _ HG _ _ Hb) as Hc. unfold held, link_out in *. rewrite Z.eqb_refl in Ht. simpl in *. lia.
    + pose proof (g_count _ _ _ HG _ _ Hx) as Hc. unfold held in Hc. destruct (Z.eqb_spec x b); [congruence|]. lia.
  - intros x Hx. apply Hlive. by apply (g_own _ _ _ HG).
  - intros x d Hx. apply Hlive. apply Hcase in Hx as [[-> ->]|[[-> ->]|(Hxa & Hxb & Hx)]]; simpl;
      [by apply (g_link _ _ _ HG a) | by apply (g_link _ _ _ HG b) | by eapply (g_link _ _ _ HG)].
  - intros x d Hx _. apply Hlive. apply Hcase in Hx as [[-> ->]|[[-> ->]|(Hxa & Hxb & Hx)]]; simpl;
      [eauto | by apply (g_transfer _ _ _ HG b) | by apply (g_transfer _ _ _ HG x)].
  - set_solver.
  - intros x d Hx HxX. apply Hcase in Hx as [[-> ->]|[[-> ->]|(Hxa & Hxb & Hx)]]; simpl.
    + by apply (g_alive _ _ _ HG a).
    + pose proof (g_alive _ _ _ HG _ _ Hb HxX). lia.
    + by apply (g_alive _ _ _ HG x).
Qed.

Lemma msum_none f (m : gmap Z channel_t) : (forall k c, m !! k = Some c -> f k c = 0%nat) -> msum f m = 0%nat.
Proof.
  induction m as [|k c m Hk IH] using map_ind; intros H; [done|].
  rewrite msum_insert_new, (H k c), IH; [done | | apply lookup_insert_eq | done].
  intros k' c' Hk'. apply H. rewrite lookup_insert_ne; [done|]. congruence.
Qed.

Lemma graph_create own m x c :
  graph own ∅ m -> m !! x = None -> c_ref_count c = 1 -> c_linked_with c = x -> c_transfer_to c = x ->
  graph (own_inc x own) ∅ (<[x := c]> m).
Proof.
  intros HG Hx Hr Hl Ht.
  assert (Hown : own x = 0%nat) by (destruct (own x) eqn:E; [done|]; destruct (g_own _ _ _ HG x) as [? ?]; [lia | congruence]).
  assert (Hcase : forall y d, m !! y = Some d -> y <> x /\ c_linked_with d <> x /\ c_transfer_to d <> x).
  { intros y d Hy. destruct (g_link _ _ _ HG y d Hy) as [? ?]. destruct (g_transfer _ _ _ HG y d Hy) as [? ?]; [set_solver|].
    repeat split; congruence. }
  assert (Hlive : forall y, is_Some (m !! y) -> is_Some (<[x := c]> m !! y)) by auto.
  constructor.
  - intros y d Hy. unfold held, own_inc. rewrite !msum_insert_new by done. apply lookup_insert_cases in Hy as [[-> ->]|[Hne Hy]].
    + rewrite Z.eqb_refl, Hown, (msum_none (transfers_in ∅ x)), (msum_none (links_in x)).
      * unfold transfers_in, links_in, link_out. rewrite Hl, Z.eqb_refl, decide_True by auto. lia.
      * intros k d Hk. destruct (Hcase k d Hk) as (? & ? & _). unfold links_in.
        destruct (Z.eqb_spec k x), (Z.eqb_spec (c_linked_with d) x); done.
      * intros k d Hk. destruct (Hcase k d Hk) as (? & _ & ?). unfold transfers_in.
        case_decide; [done|]. by destruct (Z.eqb_spec (c_transfer_to d) x).
    + pose proof (g_count _ _ _ HG _ _ Hy) as Hc. unfold held in Hc. destruct (Z.eqb_spec y x); [done|].
      unfold transfers_in at 1, links_in at 1. rewrite Hl, Ht. destruct (Z.eqb_spec x y); [congruence|].
      case_decide; simpl; lia.
  - intros y Hy. unfold own_inc in Hy. destruct (Z.eqb_spec y x) as [E|]; [rewrite E, lookup_insert_eq; eauto|].
    apply Hlive. by apply (g_own _ _ _ HG).
  - intros y d Hy. apply lookup_insert_cases in Hy as [[-> ->]|[Hne Hy]]; [rewrite Hl, lookup_insert_eq; eauto|].
    apply Hlive. by eapply (g_link _ _ _ HG).
  - intros y d Hy HyX. apply lookup_insert_cases in Hy as [[-> ->]|[Hne Hy]]; [rewrite Ht, lookup_insert_eq; eauto|].
    apply Hlive. by eapply (g_transfer _ _ _ HG).
  - set_solver.
  - intros y d Hy HyX. apply lookup_insert_cases in Hy as [[-> ->]|[Hne Hy]]; [lia|]. by apply (g_alive _ _ _ HG y).
Qed.

(** ** The operations *)

(** The invariant of the running kernel: nothing is being freed. *)
Definition cinv (own : Z -> nat) (s : kstate) : Prop := graph own ∅ (channels s) /\ resources s.

Lemma channel_incref_at s k c : channels s !! k = Some c -> 1 <= c_ref_count c < 2 ^ 31 - 1 ->
  channel_incref k s = Done (tt, set_channels (<[k := set_c_ref_count (c_ref_count c + 1) c]> (channels s)) s).
Proof.
  intros Hk Hr. unfold channel_incref. rewrite (bind_intro _ _ _ _ _ _ (load_channel_at s k c Hk) eq_refl).
  unfold c_assert. destruct (Z.leb_spec 1 (c_ref_count c)); [|lia]. unfold bind at 1, ret at 1.
  assert (E : int_add (c_ref_count c) 1 = Done (c_ref_count c + 1)).
  { unfold int_add. destruct (Z.leb_spec (- 2 ^ 31) (c_ref_count c + 1)); [|lia].
    destruct (Z.ltb_spec (c_ref_count c + 1) (2 ^ 31)); [done | lia]. }
  unfold bind, lift. by rewrite E.
Qed.

(** A count that can go up by one. *)
Definition countable (s : kstate) (x : Z) : Prop :=
  exists c, channels s !! x = Some c /\ c_ref_count c < 2 ^ 31 - 1.

Lemma incref_ok own s x : cinv own s -> countable s x ->
  exists s', channel_incref x s = Done (tt, s') /\ cinv (own_inc x own) s'.
Proof.
  intros [HG HR] (c & Hc & Hlt). pose proof (g_alive _ _ _ HG x c Hc ltac:(set_solver)) as H1.
  eexists. split; [apply (channel_incref_at s x c); [done | lia]|]. split; [|by apply (resources_channel s x c)].
  apply (graph_ref own _ ∅ _ x c); try done; unfold own_inc; simpl; [lia | rewrite Z.eqb_refl; lia |].
  intros y Hy. by destruct (Z.eqb_spec y x).
Qed.

Lemma link_ok own s a b : cinv own s -> countable s a -> countable s b -> a <> b ->
  exists s', channel_link a b s = Done (tt, s') /\ cinv own s'.
Proof.
  intros [HG HR] (ca & Ha & Hla) (cb & Hb & Hlb) Hab.
  pose proof (g_alive _ _ _ HG a ca Ha ltac:(set_solver)). pose proof (g_alive _ _ _ HG b cb Hb ltac:(set_solver)).
  set (s1 := set_channels (<[a := set_c_ref_count (c_ref_count ca + 1) (set_c_linked_with b ca)]> (channels s)) s).
  set (s2 := set_channels (<[b := set_c_ref_count (c_ref_count cb + 1) (set_c_linked_with a cb)]> (channels s1)) s1).
  exists s2. split.
  - unfold channel_link, channel_link_with. destruct (Z.eqb_spec a b); [done|].
    rewrite (bind_intro _ _ _ _ _ _ (upd_channel_at s a ca _ Ha) eq_refl).
    erewrite (bind_intro (upd_channel b _)); [|apply (upd_channel_at _ b cb); simpl; by rewrite lookup_insert_ne by done | reflexivity].
    erewrite (bind_intro (channel_incref a)); [|apply (channel_incref_at _ a (set_c_linked_with b ca)); simpl;
      [rewrite lookup_insert_ne by done; apply lookup_insert_eq | lia] | reflexivity].
    rewrite (channel_incref_at _ b (set_c_linked_with a cb)); simpl;
      [|rewrite lookup_insert_ne by done; apply lookup_insert_eq | lia].
    assert (Hset : forall m m' s0, set_channels m (set_channels m' s0) = set_channels m s0) by done.
    unfold s2, s1. simpl. rewrite !Hset, (insert_insert_ne _ a b) by done. by rewrite !insert_insert_eq.
  - split; [by apply graph_link|]. apply (resources_channel s1 b cb); [by apply (resources_channel s a ca) | |done].
    simpl. by rewrite lookup_insert_ne by done.
Qed.

Lemma transfer_ok own s a b ca cb : cinv own s -> channels s !! a = Some ca -> channels s !! b = Some cb ->
  c_process ca = c_process cb -> c_ref_count cb < 2 ^ 31 - 1 -> a <> b ->
  exists s', channel_transfer a b s = Done (tt, s') /\ cinv own s'.
Proof.
  intros [HG HR] Ha Hb Hp Hlb Hab. pose proof (g_alive _ _ _ HG b cb Hb ltac:(set_solver)).
  set (s1 := set_channels (<[a := set_c_transfer_to b ca]> (channels s)) s).
  assert (Hb1 : channels s1 !! b = Some cb) by (simpl; by rewrite lookup_insert_ne by done).
  eexists. split.
  - unfold channel_transfer, channel_transfer_with.
    rewrite (bind_intro _ _ _ _ _ _ (load_channel_at s a ca Ha) eq_refl), (bind_intro _ _ _ _ _ _ (load_channel_at s b cb Hb) eq_refl).
    rewrite Hp, Z.eqb_refl. unfold c_assert, bind at 1, ret at 1. destruct (Z.eqb_spec a b); [done|].
    rewrite (bind_intro _ _ _ _ _ _ (upd_channel_at s a ca _ Ha) eq_refl).
    exact (channel_incref_at s1 b cb Hb1 ltac:(lia)).
  - split; [by apply graph_transfer|]. apply (resources_channel s1 b cb); [|done..]. by apply (resources_channel s a ca).
Qed.

Lemma decref_ok own s x : cinv own s -> (1 <= own x)%nat ->
  exists s', channel_decref x s = Done (tt, s') /\ cinv (own_dec x own) s'.
Proof.
  intros [HG HR] Ho. unfold channel_decref.
  destruct (channel_decref_ok (S (total_refs s)) own ∅ x s HG HR Ho ltac:(lia)) as (s' & E & HG' & HR' & _). exists s'. by split_and!.
Qed.

Lemma destroy_ok own s x : cinv own s -> (1 <= own x)%nat ->
  exists s', channel_destroy x s = Done (tt, s') /\ cinv (own_dec x own) s'.
Proof.
  intros [HG HR] Ho. destruct (g_own _ _ _ HG x Ho) as [c Hc]. unfold channel_destroy.
  rewrite (bind_intro _ _ _ _ _ _ (upd_channel_at s x c _ Hc) eq_refl). apply decref_ok; [|done].
  split; [|by apply (resources_channel s x c)].
  apply (graph_ref own own ∅ _ x c); try done; simpl; [|lia]. by apply (g_alive _ _ _ HG x c).
Qed.

Lemma least_free_none fuel : forall i A j, least_free fuel i A = Some j -> A !! j = None.
Proof.
  induction fuel as [|fuel IH]; intros i A j; [done|]. cbn [least_free]. destruct (A !! i) eqn:E; [apply IH|].
  intros [= <-]. done.
Qed.

(** A new identifier is reserved, or there is none. *)
Lemma table_alloc_rep n t A : ID_START < n -> table_rep n t A ->
  exists cid t', table_alloc t = Done (cid, t') /\
    (cid = 0 /\ table_rep n t' A \/ cid <> 0 /\ A !! cid = None /\ table_rep n t' (<[cid := Reserved]> A)).
Proof.
  intros Hn HR. destruct (least_free (Z.to_nat (n - ID_START)) ID_START A) as [j|] eqn:E.
  - destruct (table_step_refines n t A TAlloc j (<[j := Reserved]> A) Hn HR) as (t' & Et & HR'); [simpl; by rewrite E|].
    exists j, t'. split; [exact Et|]. right. split; [|split; [by eapply least_free_none | done]].
    intros ->. destruct (rep_dom _ _ _ HR' 0 Reserved) as [? _]; [apply lookup_insert_eq|]. unfold ID_START in *. lia.
  - destruct (table_step_refines n t A TAlloc 0 A Hn HR) as (t' & Et & HR'); [simpl; by rewrite E|].
    exists 0, t'. split; [exact Et|]. auto.
Qed.

Lemma table_set_rep n t A id v : ID_START < n -> table_rep n t A -> A !! id = Some Reserved -> v <> 0 -> v <> RESERVED ->
  exists t', table_set t id v = Done t' /\ table_rep n t' (<[id := Value v]> A).
Proof.
  intros Hn HR Hid H0 H1. destruct (table_step_refines n t A (TSet id v) 0 (<[id := Value v]> A) Hn HR) as (t' & E & HR').
  { simpl. rewrite Hid. by destruct (Z.eqb_spec v 0), (Z.eqb_spec v RESERVED). }
  simpl in E. destruct (table_set t id v) as [t1| | |]; try done. injection E as <-. eauto.
Qed.

(** The table of one process is rearranged without changing its map. *)
Lemma resources_table s pa p t n A :
  resources s -> processes s !! pa = Some p -> ID_START < n -> table_rep n t A ->
  (forall cid sl, A !! cid = Some sl <-> exists x c, sl = Value x /\ channels s !! x = Some c /\ c_process c = pa /\ c_cid c = cid) ->
  resources (set_processes (<[pa := set_p_channels t p]> (processes s)) s).
Proof.
  intros HR Hp Hn Hrep HA. destruct HR as [H1 H2 H3 H4 H5 H6 H7]. constructor; simpl; try done.
  - intros x c Hx. apply lookup_insert_is_Some'. right. by apply (H1 x).
  - intros qa q. rewrite lookup_insert_Some. intros [[<- <-]|[Hne Hq]]; [exists n, A; auto | by apply H2].
  - intros qa q x. rewrite lookup_insert_Some. intros [[<- <-]|[Hne Hq]]; [by apply (H3 pa p) | by apply H3].
Qed.

Lemma resources_create s pa p t n A cid x a' live' :
  resources s -> processes s !! pa = Some p -> channels s !! x = None ->
  ID_START < n -> table_rep n t (<[cid := Value x]> A) -> A !! cid = None ->
  (forall cid sl, A !! cid = Some sl <-> exists x c, sl = Value x /\ channels s !! x = Some c /\ c_process c = pa /\ c_cid c = cid) ->
  arena_inv OBJECT_ARENA_ADDR OBJ_MAX_SIZE (OBJECT_ARENA_LEN / OBJ_MAX_SIZE) a' live' ->
  (forall y, y = x \/ is_Some (channels s !! y) -> y ∈ live') ->
  resources (set_processes (<[pa := set_p_channel_list (p_channel_list p ++ [x]) (set_p_channels t p)]> (processes s))
    (set_channels (<[x := Channel pa cid 1 false 0 x x NULL []]> (channels s)) (set_object_arena a' s))).
Proof.
  intros HR Hp Hx Hn Hrep Hcid HA Har Hlive. set (c := Channel pa cid 1 false 0 x x NULL []).
  assert (Hne : forall y d, channels s !! y = Some d -> y <> x) by congruence.
  constructor; simpl.
  - intros y d Hy. apply lookup_insert_is_Some'. apply lookup_insert_cases in Hy as [[-> ->]|[_ Hy]]; [by left|].
    right. by apply (r_proc s HR y).
  - intros qa q. rewrite lookup_insert_Some. intros [[<- <-]|[Hq Hqq]].
    + exists n, (<[cid := Value x]> A). split; [done|]. split; [done|]. intros i sl. rewrite lookup_insert_Some, HA. split.
      * intros [[<- <-]|[Hi (y & d & -> & Hy & Hd)]]; [exists x, c; by rewrite lookup_insert_eq|].
        exists y, d. rewrite lookup_insert_ne by (apply Hne in Hy; congruence). auto.
      * intros (y & d & -> & Hy & Hyp & Hyi). apply lookup_insert_cases in Hy as [[-> ->]|[Hyx Hy]]; [by left|]. right.
        split; [|eauto 10]. intros <-. assert (A !! cid = Some (Value y)) by (apply HA; eauto 10). congruence.
    + destruct (r_table s HR qa q Hqq) as (n' & A' & Hn' & Hrep' & HA'). exists n', A'. split; [done|]. split; [done|].
      intros i sl. rewrite HA'. split; intros (y & d & -> & Hy & Hyp & Hyi); exists y, d; (split; [done|]).
      * rewrite lookup_insert_ne by (apply Hne in Hy; congruence). auto.
      * apply lookup_insert_cases in Hy as [[-> ->]|[Hyx Hy]]; [by simpl in Hyp | done].
  - intros qa q y. rewrite lookup_insert_Some. intros [[<- <-]|[Hq Hqq]]; simpl.
    + rewrite elem_of_app, list_elem_of_singleton, (r_list s HR pa p y Hp). split.
      * intros [(d & Hd & Hdp)| ->]; [|exists c; by rewrite lookup_insert_eq]. exists d.
        by rewrite lookup_insert_ne by (apply Hne in Hd; congruence).
      * intros (d & Hd & Hdp). apply lookup_insert_cases in Hd as [[-> ->]|[_ Hd]]; eauto.
    + rewrite (r_list s HR qa q y Hqq). split; intros (d & Hd & Hdp).
      * exists d. by rewrite lookup_insert_ne by (apply Hne in Hd; congruence).
      * apply lookup_insert_cases in Hd as [[-> ->]|[_ Hd]]; [by simpl in Hdp | eauto].
  - exists live'. split; [done|]. intros y Hy. apply lookup_insert_is_Some in Hy as [<-|[_ Hy]]; auto.
  - intros y d Hy. apply lookup_insert_cases in Hy as [[-> ->]|[_ Hy]]; [done|]. by apply (r_receiver s HR y).
  - apply (r_runqueue s HR).
  - intros y d Hy. apply lookup_insert_cases in Hy as [[-> ->]|[_ Hy]]; [done|]. by eapply (r_queue s HR).
Qed.

Lemma create_ok own s pa : cinv own s -> is_Some (processes s !! pa) ->
  (channel_create pa s = Panic /\ free_list (object_arena s) = []) \/
  exists x s', channel_create pa s = Done (x, s') /\ cinv (if x =? NULL then own else own_inc x own) s' /\
    (x <> NULL -> channels s !! x = None).
Proof.
  intros [HG HR] [p Hp]. destruct (r_table s HR pa p Hp) as (n & A & Hn & Hrep & HA).
  destruct (table_alloc_rep n _ A Hn Hrep) as (cid & t1 & Et1 & Hcid).
  assert (Ealloc : channels_alloc pa s = Done (cid, set_processes (<[pa := set_p_channels t1 p]> (processes s)) s)).
  { unfold channels_alloc, bind, load_process. rewrite Hp. simpl. unfold lift. rewrite Et1. reflexivity. }
  unfold channel_create. rewrite (bind_intro _ _ _ _ _ _ Ealloc eq_refl). set (s1 := set_processes _ s).
  destruct Hcid as [[-> Hrep1]|(Hc0 & HAc & Hrep1)].
  { right. exists NULL, s1. split; [done|]. split; [|done]. split; [exact HG|]. by apply (resources_table s pa p t1 n A). }
  destruct (Z.eqb_spec cid 0); [done|].
  destruct (r_arena s HR) as (live & Har & Hlive).
  assert (Ekm : kmalloc_object SIZEOF_CHANNEL s1 = on_object_arena kmalloc_from s1).
  { unfold kmalloc_object, on_object_arena, KMALLOC, bind, get, c_assert. simpl. by rewrite (inv_size _ _ _ _ _ Har). }
  destruct (free_list (object_arena s)) as [|r rest] eqn:Hfl.
  { left. split; [|done]. unfold bind at 1. rewrite Ekm. unfold on_object_arena, kmalloc_from, bind, get. simpl. by rewrite Hfl. }
  right. destruct (kmalloc_ok _ _ _ _ _ Har) as (x & a' & Ex & Hxl & Har'); [by rewrite Hfl|].
  assert (Hx : channels s !! x = None) by (destruct (channels s !! x) eqn:E; [|done]; exfalso; apply Hxl, Hlive; eauto).
  assert (Hxr : OBJECT_ARENA_ADDR <= x).
  { destruct (arena_inv_in _ _ _ _ _ x Har') as (i & -> & Hi); [set_solver|]. unfold OBJ_MAX_SIZE. lia. }
  assert (Hx0 : x <> NULL /\ x <> RESERVED) by (unfold OBJECT_ARENA_ADDR, RESERVED, NULL in *; lia).
  assert (Ekm' : kmalloc_object SIZEOF_CHANNEL s1 = Done (x, set_object_arena a' s1)).
  { rewrite Ekm. unfold on_object_arena. simpl. by rewrite Ex. }
  destruct (table_set_rep n t1 _ cid x Hn Hrep1) as (t2 & Et2 & Hrep2); [apply lookup_insert_eq | tauto | tauto|].
  rewrite insert_insert_eq in Hrep2.
  assert (Hnl : x ∉ p_channel_list p) by (intros Hin; apply (r_list s HR pa p x Hp) in Hin as (d & Hd & _); congruence).
  rewrite (bind_intro _ _ _ _ _ _ Ekm' eq_refl). destruct (Z.eqb_spec x NULL); [tauto|].
  exists x. eexists. split; [|split; [split|by intros]].
  - unfold bind, store_channel, modify, channels_set, load_process, bind. simpl. rewrite lookup_insert_eq. simpl. unfold lift.
    rewrite Et2. simpl. rewrite insert_insert_eq, lookup_insert_eq. simpl. unfold q_push. rewrite bool_decide_eq_false_2 by done.
    simpl. unfold store_process, modify. simpl. rewrite insert_insert_eq. reflexivity.
  - destruct (Z.eqb_spec x NULL); [done|]. by apply graph_create.
  - apply (resources_create s pa p t2 n A cid x a' (x :: live)); try done. intros y [->|Hy]; [left | right; auto].
Qed.

(** Code of the kernel that holds references, and drops only those it holds. *)
Inductive chan_step : (Z -> nat) * kstate -> (Z -> nat) * kstate -> Prop :=
| step_create own s pa x s' :
    is_Some (processes s !! pa) -> channel_create pa s = Done (x, s') ->
    chan_step (own, s) ((if x =? NULL then own else own_inc x own), s')
| step_link own s a b s' :
    countable s a -> countable s b -> a <> b -> channel_link a b s = Done (tt, s') -> chan_step (own, s) (own, s')
| step_transfer own s a b ca cb s' :
    channels s !! a = Some ca -> channels s !! b = Some cb -> c_process ca = c_process cb ->
    c_ref_count cb < 2 ^ 31 - 1 -> a <> b -> channel_transfer a b s = Done (tt, s') -> chan_step (own, s) (own, s')
| step_incref own s x s' :
    countable s x -> channel_incref x s = Done (tt, s') -> chan_step (own, s) (own_inc x own, s')
| step_decref own s x s' :
    (1 <= own x)%nat -> channel_decref x s = Done (tt, s') -> chan_step (own, s) (own_dec x own, s')
| step_destroy own s x s' :
    (1 <= own x)%nat -> channel_destroy x s = Done (tt, s') -> chan_step (own, s) (own_dec x own, s').

Lemma chan_step_inv st st' : chan_step st st' -> cinv st.1 st.2 -> cinv st'.1 st'.2.
Proof.
  intros Hs HI. destruct Hs as [own s pa x s' Hp E|own s a b s' Ha Hb Hab E|own s a b ca cb s' Ha Hb Hp Hc Hab E
    |own s x s' Hx E|own s x s' Hx E|own s x s' Hx E]; simpl in *.
  - destruct (create_ok own s pa HI Hp) as [[Hpanic _]|(x1 & s1 & E1 & HI1 & _)]; [congruence|].
    rewrite E in E1. injection E1 as <- <-. exact HI1.
  - destruct (link_ok own s a b HI Ha Hb Hab) as (s1 & E1 & HI1). congruence.
  - destruct (transfer_ok own s a b ca cb HI Ha Hb Hp Hc Hab) as (s1 & E1 & HI1). congruence.
  - destruct (incref_ok own s x HI Hx) as (s1 & E1 & HI1). congruence.
  - destruct (decref_ok own s x HI Hx) as (s1 & E1 & HI1). congruence.
  - destruct (destroy_ok own s x HI Hx) as (s1 & E1 & HI1). congruence.
Qed.

(** C2: reference counting keeps channels safe, as long as no thread waits to send on a
    channel.  Let the kernel create, link, transfer, share and drop channels in any order,
    where every holder drops a reference it holds, links and transfers are between two
    different channels, transfers are within a process, and no count that goes up has
    reached [INT_MAX].  In every state it reaches, a channel that somebody holds exists and
    can be dropped and destroyed without a panic and without an access to an object that
    does not exist, however many channels are freed with it; two different channels whose
    counts are below [INT_MAX] can be linked, and one such channel can be shared; creating
    one panics only when the pool of objects is used up; every identifier that is not
    negative in the channel table of a process denotes an existing channel of that process;
    and the peer and the destination of an existing channel exist.  (A channel with waiting
    senders cannot be dropped safely, and linking a channel with itself may panic.) *)
Theorem channel_references_safe (own own' : Z -> nat) (s s' : kstate)
    (HI : cinv own s) (Hsteps : rtc chan_step (own, s) (own', s')) :
  (forall x, (1 <= own' x)%nat -> is_Some (channels s' !! x) /\
     (exists s'', channel_decref x s' = Done (tt, s'')) /\ (exists s'', channel_destroy x s' = Done (tt, s''))) /\
  (forall a b, countable s' a -> countable s' b -> a <> b -> exists s'', channel_link a b s' = Done (tt, s'')) /\
  (forall x, countable s' x -> exists s'', channel_incref x s' = Done (tt, s'')) /\
  (forall pa, is_Some (processes s' !! pa) ->
     (channel_create pa s' = Panic /\ free_list (object_arena s') = []) \/ exists x s'', channel_create pa s' = Done (x, s'')) /\
  (forall pa p cid x, processes s' !! pa = Some p -> 0 <= cid -> table_get (p_channels p) cid = Done x -> x <> NULL ->
     exists c, channels s' !! x = Some c /\ c_process c = pa /\ c_cid c = cid) /\
  (forall x c, channels s' !! x = Some c -> is_Some (channels s' !! c_linked_with c) /\ is_Some (channels s' !! c_transfer_to c)).
Proof.
  assert (HI' : cinv own' s').
  { change (cinv (own', s').1 (own', s').2). change (cinv (own, s).1 (own, s).2) in HI. revert HI.
    induction Hsteps as [st|st1 st2 st3 H12 _ IH]; [done|]. intros HI. apply IH. by eapply chan_step_inv. }
  pose proof HI' as [HG HR]. split_and!.
  - intros x Hx. split; [by apply (g_own _ _ _ HG)|]. split.
    + destruct (decref_ok own' s' x HI' Hx) as (s1 & E & _). eauto.
    + destruct (destroy_ok own' s' x HI' Hx) as (s1 & E & _). eauto.
  - intros a b Ha Hb Hab. destruct (link_ok own' s' a b HI' Ha Hb Hab) as (s1 & E & _). eauto.
  - intros x Hx. destruct (incref_ok own' s' x HI' Hx) as (s1 & E & _). eauto.
  - intros pa Hp. destruct (create_ok own' s' pa HI' Hp) as [?|(x & s1 & E & _)]; eauto.
  - intros pa p cid x Hp Hcid Hget Hn. destruct (r_table s' HR pa p Hp) as (n & A & Hn1 & Hrep & HA).
    destruct (table_step_refines n _ A (TGet cid) (slot_val (A !! cid)) A Hn1 Hrep) as (t' & E & _).
    { simpl. destruct (Z.leb_spec 0 cid); [done | lia]. }
    simpl in E. rewrite Hget in E. simpl in E. injection E as Ev _. destruct (A !! cid) as [[|v]|] eqn:EA; simpl in Ev.
    + apply HA in EA as (y & c & ? & _). done.
    + apply HA in EA as (y & c & [= <-] & Hy & Hyp & Hyc). subst x. eauto.
    + done.
  - intros x c Hx. split; [by eapply (g_link _ _ _ HG) | eapply (g_transfer _ _ _ HG); [done | set_solver]].
Qed.

(** ** An example: two channels of a process, linked, and one of them closed *)

Definition ex_arena_full : kmalloc_arena :=
  KmallocArena [FreeRun OBJECT_ARENA_ADDR (OBJECT_ARENA_LEN / OBJ_MAX_SIZE)] OBJ_MAX_SIZE (OBJECT_ARENA_LEN / OBJ_MAX_SIZE).
Definition ex_process : process := Process 1 [] [] [] 0 (fresh_table 0x7000) [].
Definition ex_channels : kstate := set_object_arena ex_arena_full (set_processes {[0x100 := ex_process]} ex_kstate).

Lemma ex_channels_cinv : cinv (fun _ => 0%nat) ex_channels.
Proof.
  split; [constructor; try done; intros; lia|].
  constructor; try done; simpl.
  - intros pa p Hp. apply lookup_singleton_Some in Hp as [<- <-]. exists (PAGE_SIZE / SIZEOF_PTR), ∅.
    split; [vm_compute; reflexivity|]. split; [apply fresh_table_rep|]. intros cid sl. split; [done|]. intros (x & c & _ & H & _). done.
  - intros pa p x Hp. apply lookup_singleton_Some in Hp as [<- <-]. simpl. split; [set_solver|]. intros (c & H & _). done.
  - destruct (arena_init_ok OBJECT_ARENA_ADDR OBJECT_ARENA_LEN OBJ_MAX_SIZE ex_arena) as (a & E & HI);
      [vm_compute; split; reflexivity | vm_compute; reflexivity | vm_compute; reflexivity | vm_compute; discriminate|].
    exists []. split; [|intros x [? ?]; done]. injection E as <-. exact HI.
Qed.

Definition ex_result {A} (m : K A) (s : kstate) : kstate := match m s with Done (_, s') => s' | _ => s end.
Definition ex_a : Z := 0xffff8000013fff00.
Definition ex_b : Z := 0xffff8000013ffe00.

Lemma channel_references_safe_witness :
  let s := ex_result (channel_create 0x100 ;;; channel_create 0x100 ;;; channel_link ex_a ex_b ;;; channel_destroy ex_a) ex_channels in
  is_Some (channels s !! ex_b) /\ exists s'', channel_destroy ex_b s = Done (tt, s'').
Proof.
  intros s.
  set (s1 := ex_result (channel_create 0x100) ex_channels). set (s2 := ex_result (channel_create 0x100) s1).
  set (s3 := ex_result (channel_link ex_a ex_b) s2).
  set (o1 := if ex_a =? NULL then fun _ => 0%nat else own_inc ex_a (fun _ => 0%nat)).
  set (o2 := if ex_b =? NULL then o1 else own_inc ex_b o1).
  destruct (channel_references_safe (fun _ => 0%nat) (own_dec ex_a o2) ex_channels s ex_channels_cinv) as (H & _).
  - apply (rtc_l _ _ (o1, s1)); [apply step_create with (pa := 0x100); [eauto | vm_compute; reflexivity]|].
    apply (rtc_l _ _ (o2, s2)); [apply step_create with (pa := 0x100); [vm_compute; eauto | vm_compute; reflexivity]|].
    apply (rtc_l _ _ (o2, s3)).
    { apply (step_link _ _ ex_a ex_b).
      - eexists. split; [vm_compute; reflexivity|]. vm_compute. reflexivity.
      - eexists. split; [vm_compute; reflexivity|]. vm_compute. reflexivity.
      - done.
      - vm_compute. reflexivity. }
    apply rtc_once. apply step_destroy; [vm_compute; lia | vm_compute; reflexivity].
  - destruct (H ex_b) as (H1 & _ & H2); [vm_compute; lia|]. exact (conj H1 H2).
Defined.
