(* ===== verification/Vm.v ===== *)
(** * Regions of the address space

    The vm areas of [kernel/memory.c], the pagers of [kernel/boot.c], and the
    search the page fault handler makes.  The handler itself calls pagers that
    can block; it is in [Ipc.v]. *)
From S2P Require Import Prelude Message Arena Table KState Paging Thread Channel.
Import Arena Tbl Paging Thread.

Definition PF_PRESENT : Z := 1.
Definition PF_WRITE : Z := 2.
Definition PF_USER : Z := 4.
Definition INITFS_ADDR : Z := 0x0000000001000000.
Definition INITFS_END : Z := 0x0000000002000000.
Definition STRAIGHT_MAP_ADDR : Z := 0x0000000003000000.
Definition STRAIGHT_MAP_END : Z := 0xffff800000000000.

(** The operator [!] on integers. *)
Definition c_not (x : Z) : Z := if x =? 0 then 1 else 0.

Module Vm.

Definition vmarea_create (process start end_ : Z) (pager : pager_t) (pager_arg flags : Z) : K Z :=
  vma <- kmalloc_object SIZEOF_VMAREA ;;
  if vma =? NULL then ret ERR_OUT_OF_MEMORY else
  store_vmarea vma (Vmarea start end_ pager pager_arg flags) ;;;
  p <- load_process process ;;
  l <- lift (q_push vma (p_vmareas p)) ;;
  store_process process (set_p_vmareas l p) ;;;
  ret OK.

(** [list_remove] unlinks the area from the process it is in. *)
Definition vmarea_destroy (process vma : Z) : K unit :=
  p <- load_process process ;;
  l <- lift (q_remove vma (p_vmareas p)) ;;
  store_process process (set_p_vmareas l p) ;;;
  modify (fun s => set_vmareas (delete vma (vmareas s)) s) ;;;
  kfree_object vma.

(** The tests of the access rights use the operator [!] on constants. *)
Definition is_valid_page_fault_for (vma : vmarea) (vaddr flags : Z) : bool :=
  if negb ((v_start vma <=? vaddr) && (vaddr <? v_end vma)) then false
  else if truthy (Z.land flags PF_USER) && truthy (Z.land (v_flags vma) (c_not PAGE_USER)) then false
  else if truthy (Z.land flags PF_WRITE) && truthy (Z.land (v_flags vma) (c_not PAGE_WRITABLE)) then false
  else true.

(** The loop of [page_fault_handler] over the areas of the process. *)
Fixpoint find_vma (areas : list Z) (vaddr flags : Z) : K (option Z) :=
  match areas with
  | [] => ret None
  | a :: areas =>
      v <- load_vmarea a ;;
      if is_valid_page_fault_for v vaddr flags then ret (Some a)
      else find_vma areas vaddr flags
  end.

Definition initfs_pager_f (vaddr : Z) : K Z :=
  initfs <- gets initfs_addr ;;
  c_assert (Z.land initfs (PAGE_SIZE - 1) =? 0) ;;;
  ret (into_paddr (u64 (initfs + (vaddr - INITFS_ADDR)))).

Definition straight_map_pager_f (vaddr : Z) : K Z := ret vaddr.

End Vm.
Import Vm.

(** The flags of a vm area restrict nothing: [is_valid_page_fault_for] accepts
    a fault exactly if the address is inside the area, because the masks it tests
    are [!(PAGE_USER)] and [!(PAGE_WRITABLE)], which are 0. *)
Theorem page_fault_ignores_rights (vma : vmarea) (vaddr flags : Z) :
  is_valid_page_fault_for vma vaddr flags = (v_start vma <=? vaddr) && (vaddr <? v_end vma).
Proof.
  unfold is_valid_page_fault_for. change (c_not PAGE_USER) with 0. change (c_not PAGE_WRITABLE) with 0.
  rewrite !Z.land_0_r. simpl. rewrite !andb_false_r. by destruct (_ && _).
Qed.
