(* ===== verification/Ipc.v ===== *)
(** * Inter-process communication

    [kernel/ipc.c], with [page_fault_handler] of [kernel/memory.c] and
    [user_pager] of [kernel/server.c], which call each other.

    These functions can leave the CPU: a call to [thread_switch] in them returns
    when the thread is resumed.  A definition here therefore returns [CRet v], or
    [CBlock fs] when it has called [thread_switch]; [fs] are the frames of the C
    functions that are then active, and [run_frame] is what each of them goes on
    with. *)
From S2P Require Import Prelude Message Arena Table KState Paging Thread Channel Vm.
Import Arena Tbl Paging Thread Chan Vm.

Inductive ctl := CRet (v : Z) | CBlock (fs : list frame).

(** Call a function that may leave the CPU; [fr] is the frame of the caller. *)
Definition call (m : K ctl) (fr : frame) (k : Z -> K ctl) : K ctl :=
  r <- m ;;
  match r with CRet v => k v | CBlock fs => ret (CBlock (fs ++ [fr])) end.

Definition done_ (v : Z) : K ctl := ret (CRet v).

Definition FASTPATH_SYSCALL_TEST (syscall : Z) : bool :=
  Z.land syscall (Z.lnot IPC_NOBLOCK) =? Z.lor (Z.lor SYSCALL_IPC IPC_SEND) IPC_RECV.
Definition FASTPATH_HEADER_TEST (header : Z) : bool := Z.land header 0x1800 =? 0.

(** [inlined_memcpy] of [n] bytes between two payloads. *)
Definition copy_data (n : Z) (src dst : list Z) : list Z :=
  take (Z.to_nat n) src ++ drop (Z.to_nat n) dst.

(** [p->page_table] of a process. *)
Definition page_table_of (process : Z) : K Z := p <- load_process process ;; ret (p_pml4 p).

(** [atomic_swap(&current->abort_reason, OK)]. *)
Definition swap_abort_reason : K Z :=
  cur <- CURRENT ;;
  t <- load_thread cur ;;
  store_thread cur (set_t_abort_reason OK t) ;;;
  ret (t_abort_reason t).

(** [m->notification = atomic_swap(&recv_ch->notification, 0)]. *)
Definition take_notification (recv_ch : Z) (kbuf : bool) : K unit :=
  cur <- CURRENT ;;
  r <- load_channel recv_ch ;;
  store_channel recv_ch (set_c_notification 0 r) ;;;
  upd_thread cur (fun t => set_buf kbuf (set_notification (c_notification r) (buf kbuf t)) t).

Module Ipc.

Definition sys_open : K Z :=
  cur <- CURRENT ;;
  t <- load_thread cur ;;
  ch <- channel_create (t_process t) ;;
  if ch =? NULL then ret (- ERR_OUT_OF_RESOURCE) else
  c <- load_channel ch ;;
  ret (c_cid c).

Definition current_channel (cid : Z) : K Z :=
  cur <- CURRENT ;;
  t <- load_thread cur ;;
  channels_get (t_process t) cid.

Definition sys_close (cid : Z) : K Z :=
  ch <- current_channel cid ;;
  if ch =? NULL then ret ERR_INVALID_CID else
  channel_destroy ch ;;;
  ret OK.

Definition sys_link (ch1 ch2 : Z) : K Z :=
  ch1_ch <- current_channel ch1 ;;
  if ch1_ch =? NULL then ret ERR_INVALID_CID else
  ch2_ch <- current_channel ch2 ;;
  if ch2_ch =? NULL then ret ERR_INVALID_CID else
  channel_link ch1_ch ch2_ch ;;;
  ret OK.

Definition sys_transfer (src dst : Z) : K Z :=
  src_ch <- current_channel src ;;
  if src_ch =? NULL then ret ERR_INVALID_CID else
  dst_ch <- current_channel dst ;;
  if dst_ch =? NULL then ret ERR_INVALID_CID else
  channel_transfer src_ch dst_ch ;;;
  ret OK.

(** ** The receive phase of [sys_ipc] *)

Definition ipc_receive (ch : Z) (kbuf : bool) : K ctl :=
  cur <- CURRENT ;;
  c <- load_channel ch ;;
  let recv_ch := c_transfer_to c in
  r <- load_channel recv_ch ;;
  if c_destructed r then done_ ERR_CHANNEL_CLOSED
  else if negb (c_receiver r =? NULL) then done_ ERR_ALREADY_RECEVING
  else
    store_channel recv_ch (set_c_receiver cur r) ;;;
    thread_block cur ;;;
    match c_queue r with
    | [] => ret tt
    | sender :: q =>
        upd_channel recv_ch (set_c_queue q) ;;;
        upd_thread sender (set_t_blocked_on NULL) ;;;
        thread_resume sender
    end ;;;
    thread_switch ;;;
    ret (CBlock [FRecv recv_ch kbuf]).

(** After the switch. *)
Definition ipc_received (recv_ch : Z) (kbuf : bool) : K ctl :=
  cur <- CURRENT ;;
  t <- load_thread cur ;;
  if negb (t_abort_reason t =? OK) then
    err <- swap_abort_reason ;; done_ err
  else
    take_notification recv_ch kbuf ;;;
    done_ OK.

(** ** The send phase of [sys_ipc] *)

Definition ipc_sent (ch receiver syscall : Z) (kbuf : bool) : K ctl :=
  thread_resume receiver ;;;
  if truthy (Z.land syscall IPC_RECV) then ipc_receive ch kbuf else done_ OK.

(** The page payload, once the physical page of the sender is known. *)
Definition ipc_send_page (ch receiver syscall : Z) (kbuf dst_kbuf : bool) (page page_base paddr : Z)
    : K ctl :=
  cur <- CURRENT ;;
  t <- load_thread cur ;;
  r <- load_thread receiver ;;
  let num_pages := s32 (POW2 (PAGE_ORDER page)) in
  let page_base_addr := PAGE_PAYLOAD_ADDR page_base in
  let set_page_payload p :=
    upd_thread receiver (fun r => set_buf dst_kbuf (set_page p (buf dst_kbuf r)) r) in
  let unlink_and_resume :=
    pml4 <- page_table_of (t_process t) ;;
    on_pagemem (unlink_page (S (Z.to_nat num_pages)) pml4 (PAGE_PAYLOAD_ADDR page) num_pages) ;;;
    ipc_sent ch receiver syscall kbuf in
  if t_use_kbuf r then
    set_page_payload paddr ;;;
    unlink_and_resume
  else if (PAGE_ORDER page_base <? PAGE_ORDER page) || negb (is_valid_page_base_addr page_base_addr) then
    upd_thread receiver (set_t_abort_reason ERR_NEEDS_RETRY) ;;;
    done_ ERR_INVALID_PAGE_PAYLOAD
  else
    pml4 <- page_table_of (t_process r) ;;
    on_pagemem (link_page LINK_FUEL pml4 page_base_addr paddr num_pages (Z.lor PAGE_USER PAGE_WRITABLE)) ;;;
    set_page_payload (PAGE_PAYLOAD page_base_addr (PAGE_ORDER page)) ;;;
    unlink_and_resume.

Section Pager.
(** [page_fault_handler], which calls [sys_ipc] in turn. *)
Variable page_fault_handler : Z -> Z -> K ctl.

Definition ipc_page_payload (ch receiver syscall : Z) (kbuf dst_kbuf : bool) : K ctl :=
  cur <- CURRENT ;;
  t <- load_thread cur ;;
  r <- load_thread receiver ;;
  let page := page (buf kbuf t) in
  let payload_vaddr := PAGE_PAYLOAD_ADDR page in
  let page_base := t_page_base r in
  pml4 <- page_table_of (t_process t) ;;
  paddr <- on_pagemem (resolve_paddr_from_vaddr pml4 payload_vaddr) ;;
  if paddr =? 0 then
    call (page_fault_handler payload_vaddr PF_USER)
         (FSendPage ch receiver syscall kbuf dst_kbuf page page_base)
         (ipc_send_page ch receiver syscall kbuf dst_kbuf page page_base)
  else ipc_send_page ch receiver syscall kbuf dst_kbuf page page_base paddr.

(** The channel payload: [Some err] is an early return. *)
Definition ipc_channel_payload (receiver : Z) (kbuf dst_kbuf : bool) : K (option Z) :=
  cur <- CURRENT ;;
  t <- load_thread cur ;;
  r <- load_thread receiver ;;
  payload_ch <- channels_get (t_process t) (channel (buf kbuf t)) ;;
  if payload_ch =? NULL then
    upd_thread receiver (set_t_abort_reason ERR_NEEDS_RETRY) ;;;
    ret (Some ERR_INVALID_PAYLOAD)
  else
    dst_ch <- channel_create (t_process r) ;;
    if dst_ch =? NULL then
      upd_thread receiver (set_t_abort_reason ERR_NEEDS_RETRY) ;;;
      ret (Some ERR_OUT_OF_MEMORY)
    else
      pc <- load_channel payload_ch ;;
      channel_link (c_linked_with pc) dst_ch ;;;
      dc <- load_channel dst_ch ;;
      upd_thread receiver (fun r => set_buf dst_kbuf (set_channel (c_cid dc) (buf dst_kbuf r)) r) ;;;
      ret None.

(** A receiver is there: write the message into its buffer. *)
Definition ipc_deliver (ch linked_with receiver header syscall : Z) (kbuf : bool) : K ctl :=
  cur <- CURRENT ;;
  t <- load_thread cur ;;
  r <- load_thread receiver ;;
  l <- load_channel linked_with ;;
  let dst_kbuf := t_use_kbuf r in
  let dst_m := buf dst_kbuf r in
  store_thread receiver
    (set_buf dst_kbuf
       (set_data (copy_data (INLINE_PAYLOAD_LEN header) (data (buf kbuf t)) (data dst_m))
         (set_from (c_cid l) (set_header header dst_m))) r) ;;;
  err <- (if truthy (Z.land header MSG_CHANNEL_PAYLOAD)
          then ipc_channel_payload receiver kbuf dst_kbuf else ret None) ;;
  match err with
  | Some err => done_ err
  | None =>
      if truthy (Z.land header MSG_PAGE_PAYLOAD)
      then ipc_page_payload ch receiver syscall kbuf dst_kbuf
      else ipc_sent ch receiver syscall kbuf
  end.

(** One round of the loop that waits for a receiver. *)
Definition ipc_send (ch header syscall : Z) (kbuf : bool) : K ctl :=
  cur <- CURRENT ;;
  c <- load_channel ch ;;
  let linked_with := c_linked_with c in
  l <- load_channel linked_with ;;
  let dst := c_transfer_to l in
  d <- load_channel dst ;;
  let receiver := c_receiver d in
  if c_destructed d then done_ ERR_CHANNEL_CLOSED
  else if negb (receiver =? NULL) then
    store_channel dst (set_c_receiver NULL d) ;;;
    ipc_deliver ch linked_with receiver header syscall kbuf
  else if truthy (Z.land syscall IPC_NOBLOCK) then done_ ERR_WOULD_BLOCK
  else
    q <- lift (q_push cur (c_queue d)) ;;
    store_channel dst (set_c_queue q d) ;;;
    upd_thread cur (set_t_blocked_on dst) ;;;
    thread_block cur ;;;
    thread_switch ;;;
    ret (CBlock [FSend ch header syscall kbuf]).

(** After the switch. *)
Definition ipc_send_resumed (ch header syscall : Z) (kbuf : bool) : K ctl :=
  cur <- CURRENT ;;
  t <- load_thread cur ;;
  if negb (t_abort_reason t =? OK) then
    err <- swap_abort_reason ;; done_ err
  else ipc_send ch header syscall kbuf.

Definition sys_ipc_with (cid syscall : Z) : K ctl :=
  cur <- CURRENT ;;
  t <- load_thread cur ;;
  let kbuf := t_use_kbuf t in
  ch <- channels_get (t_process t) cid ;;
  if ch =? NULL then done_ ERR_INVALID_CID else
  c <- load_channel ch ;;
  if c_destructed c then done_ ERR_CHANNEL_CLOSED
  else if truthy (Z.land syscall IPC_SEND) then
    ipc_send ch (header (buf kbuf t)) syscall kbuf
  else if truthy (Z.land syscall IPC_RECV) then ipc_receive ch kbuf
  else done_ OK.

(** [kernel_ipc]: [sys_ipc] on the kernel IPC buffer. *)
Definition kernel_ipc_return (err : Z) : K ctl :=
  cur <- CURRENT ;;
  upd_thread cur (set_t_use_kbuf false) ;;;
  done_ err.

Definition kernel_ipc_with (cid syscall : Z) : K ctl :=
  cur <- CURRENT ;;
  upd_thread cur (set_t_use_kbuf true) ;;;
  call (sys_ipc_with cid syscall) FKernelIpc kernel_ipc_return.

End Pager.

(** ** Pagers and page faults *)

(** [sys_ipc] for messages without a page payload, which never call a pager. *)
Definition kernel_ipc_inner : Z -> Z -> K ctl := kernel_ipc_with (fun _ _ => no_fuel).

(** [user_pager] after the reply. *)
Definition user_pager_return (err : Z) : K ctl :=
  cur <- CURRENT ;;
  t <- load_thread cur ;;
  if negb (err =? OK) then done_ 0
  else if negb (header (t_kbuf t) =? PAGER_FILL_REPLY_MSG) then done_ 0
  else done_ (PAGE_PAYLOAD_ADDR (page (t_kbuf t))).

Definition user_pager_f (vma vaddr : Z) : K ctl :=
  cur <- CURRENT ;;
  t <- load_thread cur ;;
  v <- load_vmarea vma ;;
  p <- load_process (t_process t) ;;
  upd_thread cur (fun t =>
    set_t_kbuf (set_data (set_field 4 8 vaddr (set_field 0 4 (p_pid p) (data (t_kbuf t))))
                  (set_header PAGER_FILL_MSG (t_kbuf t))) t) ;;;
  c <- load_channel (v_arg v) ;;
  call (kernel_ipc_inner (c_cid c) (Z.lor IPC_SEND IPC_RECV)) FUserPager user_pager_return.

Definition run_pager (vma vaddr : Z) : K ctl :=
  v <- load_vmarea vma ;;
  match v_pager v with
  | initfs_pager => p <- initfs_pager_f vaddr ;; done_ p
  | straight_map_pager => p <- straight_map_pager_f vaddr ;; done_ p
  | user_pager => user_pager_f vma vaddr
  end.

(** [page_fault_handler] after the pager. *)
Definition page_filled (vma aligned_vaddr paddr : Z) : K ctl :=
  if paddr =? 0 then thread_kill_current
  else
    cur <- CURRENT ;;
    t <- load_thread cur ;;
    pml4 <- page_table_of (t_process t) ;;
    v <- load_vmarea vma ;;
    on_pagemem (link_page LINK_FUEL pml4 aligned_vaddr paddr 1 (v_flags v)) ;;;
    done_ paddr.

Definition page_fault_handler (addr flags : Z) : K ctl :=
  (if negb (truthy (Z.land flags PF_USER)) then panic else ret tt) ;;;
  (if truthy (Z.land flags PF_PRESENT) then thread_kill_current else ret tt) ;;;
  let aligned_vaddr := ALIGN_DOWN addr PAGE_SIZE in
  cur <- CURRENT ;;
  t <- load_thread cur ;;
  p <- load_process (t_process t) ;;
  vma <- find_vma (p_vmareas p) aligned_vaddr flags ;;
  match vma with
  | Some vma => call (run_pager vma aligned_vaddr) (FPageFault vma aligned_vaddr) (page_filled vma aligned_vaddr)
  | None => panic
  end.

(** ** The system calls *)

Definition sys_ipc : Z -> Z -> K ctl := sys_ipc_with page_fault_handler.
Definition kernel_ipc : Z -> Z -> K ctl := kernel_ipc_with page_fault_handler.

Definition b2z (b : bool) : Z := if b then 1 else 0.

Definition sys_ipc_fastpath (cid : Z) : K ctl :=
  cur <- CURRENT ;;
  t <- load_thread cur ;;
  let kbuf := t_use_kbuf t in
  let m := buf kbuf t in
  let slowpath_fallback := sys_ipc cid (Z.lor IPC_SEND IPC_RECV) in
  ch <- channels_get (t_process t) cid ;;
  if ch =? NULL then slowpath_fallback else
  c <- load_channel ch ;;
  let header := header m in
  let recv_ch := c_transfer_to c in
  let linked_with := c_linked_with c in
  l <- load_channel linked_with ;;
  let dst_ch := c_transfer_to l in
  d <- load_channel dst_ch ;;
  let receiver := c_receiver d in
  r <- load_channel recv_ch ;;
  let slowpath :=
    s32 (b2z (negb (FASTPATH_HEADER_TEST header)) +
         b2z (c_destructed c) + b2z (c_destructed r) + b2z (c_destructed d) +
         s32 (c_receiver r) +
         b2z (negb (bool_decide (c_queue r = []))) +
         b2z (receiver =? NULL)) in
  if truthy slowpath then slowpath_fallback else
  upd_channel recv_ch (set_c_receiver cur) ;;;
  upd_channel dst_ch (set_c_receiver NULL) ;;;
  upd_thread cur (set_t_blocked true) ;;;
  upd_thread receiver (set_t_blocked false) ;;;
  upd_thread receiver (fun rt =>
    let dst_m := ipc_buffer rt in
    set_ipc_buffer
      (set_data (copy_data (INLINE_PAYLOAD_LEN header) (data m) (data dst_m))
        (set_from (c_cid l) (set_header header dst_m))) rt) ;;;
  arch_thread_switch cur receiver ;;;
  ret (CBlock [FRecvFast recv_ch kbuf]).

(** After the switch. *)
Definition ipc_fastpath_received (recv_ch : Z) (kbuf : bool) : K ctl :=
  take_notification recv_ch kbuf ;;;
  err <- swap_abort_reason ;; done_ err.

Definition sys_notify (cid notification : Z) : K Z :=
  ch <- current_channel cid ;;
  if ch =? NULL then ret ERR_INVALID_CID else channel_notify ch notification.

Definition syscall_handler (arg0 arg1 syscall : Z) : K ctl :=
  if FASTPATH_SYSCALL_TEST syscall then sys_ipc_fastpath (s32 arg0)
  else
    let type := SYSCALL_TYPE syscall in
    let plain (m : K Z) : K ctl := v <- m ;; done_ v in
    if type =? SYSCALL_IPC then sys_ipc (s32 arg0) (u32 syscall)
    else if type =? SYSCALL_OPEN then plain sys_open
    else if type =? SYSCALL_CLOSE then plain (sys_close (s32 arg0))
    else if type =? SYSCALL_LINK then plain (sys_link (s32 arg0) (s32 arg1))
    else if type =? SYSCALL_TRANSFER then plain (sys_transfer (s32 arg0) (s32 arg1))
    else if type =? SYSCALL_NOTIFY then plain (sys_notify (s32 arg0) (u32 arg1))
    else if type =? SYSCALL_NOP then done_ OK
    else done_ ERR_INVALID_SYSCALL.

End Ipc.
