(* ===== verification/Timer.v ===== *)
(** * Timers

    [kernel/timer.c], with the two handlers that timers have:
    [thread_switch_by_timeout] of [kernel/thread.c] and [user_timer_handler] of
    [kernel/server.c]. *)
From S2P Require Import Prelude Message Arena Table KState Thread Channel Vm Ipc.
Import Arena Tbl Thread Chan.

Definition TICK_HZ : Z := 1000.
Definition THREAD_SWITCH_INTERVAL : Z := (20 * 1000) / TICK_HZ.

Module Tmr.

Definition timer_create (initial interval : Z) (handler : timer_handler) (arg : Z) : K Z :=
  timer_id <- tbl_alloc timers set_timers ;;
  if timer_id =? 0 then ret NULL else
  timer <- kmalloc_object SIZEOF_TIMER ;;
  if timer =? NULL then tbl_free timers set_timers timer_id ;;; ret NULL else
  store_timer timer (Timer timer_id initial interval handler arg) ;;;
  q <- gets active_timers ;;
  q' <- lift (q_push timer q) ;;
  modify (set_active_timers q') ;;;
  tbl_set timers set_timers timer_id timer ;;;
  ret timer.

Definition timer_destroy (timer : Z) : K unit :=
  t <- load_timer timer ;;
  tbl_free timers set_timers (tm_id t) ;;;
  q <- gets active_timers ;;
  q' <- lift (q_remove timer q) ;;
  modify (set_active_timers q') ;;;
  modify (fun s => set_timer_objs (delete timer (timer_objs s)) s) ;;;
  kfree_object timer.

(** [user_timer_handler] of [server.c]. *)
Definition user_timer_handler_f (timer : Z) : K unit :=
  t <- load_timer timer ;;
  channel_notify (tm_arg t) NOTIFY_TIMER ;;;
  if tm_interval t =? 0 then
    channel_decref (tm_arg t) ;;;
    tbl_free user_timers set_user_timers (tm_id t)
  else ret tt.

(** The rest of the loop body after the handler of a timer returned. *)
Definition timer_fired (timer : Z) : K unit :=
  t <- load_timer timer ;;
  if negb (tm_interval t =? 0) then store_timer timer (set_tm_current (tm_interval t) t)
  else timer_destroy timer.

(** The loop of [timer_interrupt_handler] from the timer [elem] on; [NULL] stands
    for the end of the list. *)
Fixpoint timer_loop (fuel : nat) (elem ticks : Z) : K ctl :=
  match fuel with
  | O => no_fuel
  | S fuel =>
      if elem =? NULL then done_ 0
      else
        q <- gets active_timers ;;
        next <- need (q_next elem q) ;;
        t <- load_timer elem ;;
        cur <- lift (int_add (tm_current t) (- ticks)) ;;
        store_timer elem (set_tm_current cur t) ;;;
        if cur <? 0 then
          match tm_handler t with
          | thread_switch_by_timeout =>
              thread_switch ;;;
              ret (CBlock [FTimer elem next ticks])
          | user_timer_handler =>
              user_timer_handler_f elem ;;;
              timer_fired elem ;;;
              timer_loop fuel next ticks
          end
        else timer_loop fuel next ticks
  end.

(** One round per timer, and one for the end of the list. *)
Definition timer_rounds (elem ticks : Z) : K ctl :=
  q <- gets active_timers ;;
  timer_loop (S (length q)) elem ticks.

Definition timer_interrupt_handler (ticks : Z) : K ctl :=
  q <- gets active_timers ;;
  timer_rounds (hd NULL q) ticks.

(** After [thread_switch] in [thread_switch_by_timeout]. *)
Definition timer_resumed (timer next ticks : Z) : K ctl :=
  timer_fired timer ;;;
  timer_rounds next ticks.

Definition timer_init : K unit :=
  modify (set_active_timers []) ;;;
  t <- on_page_arena table_init ;;
  modify (set_timers t).

(** [thread_first_switch] of [thread.c]. *)
Definition thread_first_switch : K unit :=
  idle <- gets idle_thread ;;
  set_current_thread idle ;;;
  timer_create THREAD_SWITCH_INTERVAL THREAD_SWITCH_INTERVAL thread_switch_by_timeout NULL ;;;
  thread_switch.

End Tmr.
