(* ===== verification/Proc.v ===== *)
(** * Processes

    [kernel/process.c], and the string copy of [kernel/arch/string.c] it uses for
    the name of a process. *)
From S2P Require Import Prelude Message Arena Table CString KState Paging Thread Channel Vm.
Import Arena Tbl CStr Paging Thread Chan Vm.

Definition KERNEL_PID : Z := 1.
Definition PROCESS_NAME_LEN_MAX : Z := 32.

Module Proc.

(** [strcpy(dst, dst_len, src)] of the kernel has the code of [strcpy_s]: it copies
    at most [dst_len - 1] characters and always terminates the string. *)
Definition strcpy (dst : list Z) (dst_len : Z) (src : list Z) : outcome (list Z) :=
  strcpy_s dst dst_len src.

(** The bytes a new object has in its [name] member are left over. *)
Definition process_create (name : list Z) : K Z :=
  pid <- tbl_alloc process_table set_process_table ;;
  if pid =? 0 then ret NULL else
  proc <- kmalloc_object SIZEOF_PROCESS ;;
  if proc =? NULL then tbl_free process_table set_process_table pid ;;; ret NULL else
  channels <- on_page_arena table_init ;;
  s <- get ;;
  let name0 := map (fun i => u8 (uninit_word s (proc + Z.of_nat i))) (seq 0 (Z.to_nat PROCESS_NAME_LEN_MAX)) in
  name' <- lift (strcpy name0 PROCESS_NAME_LEN_MAX name) ;;
  pml4 <- on_pagemem page_table_init ;;
  store_process proc (Process pid name' [] [] pml4 channels []) ;;;
  tbl_set process_table set_process_table pid proc ;;;
  q <- gets process_list ;;
  q' <- lift (q_push proc q) ;;
  modify (set_process_list q') ;;;
  ret proc.

(** The lists of a process, for the loops of [process_destroy]. *)
Definition proc_list (f : process -> list Z) (process : Z) (s : kstate) : option (list Z) :=
  f <$> processes s !! process.
Definition for_each_of (f : process -> list Z) (process : Z) (body : Z -> K unit) : K unit :=
  p <- load_process process ;;
  for_each_in (S (length (f p))) (proc_list f process) body.

(** [page_table_destroy] does nothing. *)
Definition process_destroy (process : Z) : K unit :=
  init <- gets init_process ;;
  (if process =? init then panic else ret tt) ;;;
  for_each_of p_channel_list process channel_destroy ;;;
  for_each_of p_threads process thread_destroy ;;;
  for_each_of p_vmareas process (vmarea_destroy process) ;;;
  p <- load_process process ;;
  on_page_arena (table_destroy (p_channels p)) ;;;
  tbl_free process_table set_process_table (p_pid p) ;;;
  q <- gets process_list ;;
  q' <- lift (q_remove process q) ;;
  modify (set_process_list q') ;;;
  modify (fun s => set_processes (delete process (processes s)) s) ;;;
  kfree_object process.

Definition process_init : K unit :=
  modify (set_process_list []) ;;;
  t <- on_page_arena table_init ;;
  modify (set_process_table t) ;;;
  p <- process_create [107; 101; 114; 110; 101; 108; 0] (* kernel *) ;;
  modify (set_kernel_process p) ;;;
  x <- load_process p ;;
  c_assert (p_pid x =? KERNEL_PID).

End Proc.
