(* ===== verification/KServer.v ===== *)
(** * The kernel server

    [kernel/server.c]: the kernel thread that serves requests for processes,
    threads, pagers, timers, interrupts and I/O.  The request and the reply are in
    the kernel IPC buffer of the server thread. *)
From S2P Require Import Prelude Message Arena Table KState Paging Thread Channel Vm Ipc Timer Proc.
Import Arena Tbl Paging Thread Chan Vm Ipc Tmr Proc.

(** The message [m] of the handlers. *)
Definition kmsg : K message := cur <- CURRENT ;; t <- load_thread cur ;; ret (t_kbuf t).
Definition upd_kmsg (f : message -> message) : K unit :=
  cur <- CURRENT ;;
  upd_thread cur (fun t => set_t_kbuf (f (t_kbuf t)) t).

(** Inline fields: unsigned, and the signed types [pid_t], [cid_t], [int32_t]. *)
Definition ufield (off n : nat) (m : message) : Z := field off n (data m).
Definition ifield (off : nat) (m : message) : Z := s32 (field off 4 (data m)).

Definition arch_putchar (ch : Z) : K unit :=
  modify (fun s => set_console (console s ++ (if ch =? 10 then [13] else []) ++ [ch]) s).

Definition enable_irq (irq : Z) : K unit :=
  modify (fun s => set_enabled_irqs (enabled_irqs s ++ [irq]) s).

Module KServer.

Definition get_sender_process (from : Z) : K Z :=
  kp <- gets kernel_process ;;
  ch <- channels_get kp from ;;
  c_assert (negb (ch =? NULL)) ;;;
  c <- load_channel ch ;;
  l <- load_channel (c_linked_with c) ;;
  ret (c_process l).

Definition handle_runtime_printchar : K Z :=
  m <- kmsg ;;
  arch_putchar (ufield 0 1 m) ;;;
  ret OK.

Definition handle_runtime_exit : K Z :=
  m <- kmsg ;;
  p <- get_sender_process (from m) ;;
  process_destroy p ;;;
  ret DONT_REPLY.

Definition handle_process_create : K Z :=
  m <- kmsg ;;
  proc <- process_create (data m) ;;
  if proc =? NULL then ret ERR_OUT_OF_RESOURCE else
  user_ch <- channel_create proc ;;
  if user_ch =? NULL then process_destroy proc ;;; ret ERR_OUT_OF_RESOURCE else
  sender <- get_sender_process (from m) ;;
  pager_ch <- channel_create sender ;;
  if pager_ch =? NULL then
    channel_destroy pager_ch ;;; process_destroy proc ;;; ret ERR_OUT_OF_RESOURCE else
  channel_link user_ch pager_ch ;;;
  p <- load_process proc ;;
  c <- load_channel pager_ch ;;
  upd_kmsg (fun m =>
    set_data (set_field 4 4 (c_cid c) (set_field 0 4 (p_pid p) (data m)))
      (set_header PROCESS_CREATE_REPLY_MSG m)) ;;;
  ret OK.

Definition handle_process_destroy : K Z := panic.

Definition handle_thread_spawn : K Z :=
  m <- kmsg ;;
  let pid := ifield 0 m in
  let start := ufield 4 8 m in
  let stack := ufield 12 8 m in
  let buffer := ufield 20 8 m in
  let arg := ufield 28 8 m in
  t <- gets process_table ;;
  proc <- lift (table_get t pid) ;;
  if proc =? NULL then ret ERR_INVALID_MESSAGE else
  thread <- thread_create proc start stack buffer arg ;;
  if thread =? NULL then ret ERR_OUT_OF_RESOURCE else
  thread_resume thread ;;;
  th <- load_thread thread ;;
  upd_kmsg (fun m => set_data (set_field 0 4 (t_tid th) (data m)) (set_header THREAD_SPAWN_REPLY_MSG m)) ;;;
  ret OK.

Definition handle_thread_destroy : K Z := panic.

Definition handle_process_add_pager : K Z :=
  m <- kmsg ;;
  let pid := ifield 0 m in
  let pager := ifield 4 m in
  let start := ufield 8 8 m in
  let size := ufield 16 8 m in
  let flags := ufield 24 1 m in
  t <- gets process_table ;;
  proc <- lift (table_get t pid) ;;
  if proc =? NULL then ret ERR_INVALID_MESSAGE else
  pager_ch <- channels_get proc pager ;;
  if pager_ch =? NULL then process_destroy proc ;;; ret ERR_INVALID_MESSAGE else
  err <- vmarea_create proc start (u64 (start + size)) user_pager pager_ch (Z.lor flags PAGE_USER) ;;
  if negb (err =? OK) then process_destroy proc ;;; ret err else
  channel_incref pager_ch ;;;
  upd_kmsg (set_header PROCESS_ADD_PAGER_REPLY_MSG) ;;;
  ret OK.

Definition handle_server_connect : K Z :=
  kp <- gets kernel_process ;;
  ch <- channel_create kp ;;
  if ch =? NULL then ret ERR_OUT_OF_MEMORY else
  ks <- gets kernel_server_ch ;;
  channel_transfer ch ks ;;;
  c <- load_channel ch ;;
  upd_kmsg (fun m => set_channel (c_cid c) (set_header SERVER_CONNECT_REPLY_MSG m)) ;;;
  ret OK.

Definition deliver_interrupt (irq : Z) : K unit :=
  q <- gets active_irq_listeners ;;
  for_each_in (S (length q)) (fun s => Some (active_irq_listeners s)) (fun listener =>
    l <- load_irq listener ;;
    if KState.irq l =? irq then channel_notify (irq_ch l) NOTIFY_INTERRUPT ;;; ret tt else ret tt).

Definition handle_io_listen_irq : K Z :=
  m <- kmsg ;;
  let cid := channel m in
  let irq := ufield 0 1 m in
  ch <- current_channel cid ;;
  c_assert (negb (ch =? NULL)) ;;;
  id <- tbl_alloc irq_listeners set_irq_listeners ;;
  if id =? 0 then ret ERR_OUT_OF_MEMORY else
  listener <- kmalloc_object SIZEOF_IRQ_LISTENER ;;
  if listener =? NULL then tbl_free irq_listeners set_irq_listeners id ;;; ret ERR_OUT_OF_MEMORY else
  store_irq listener (IrqListener irq ch) ;;;
  tbl_set irq_listeners set_irq_listeners id listener ;;;
  q <- gets active_irq_listeners ;;
  q' <- lift (q_push listener q) ;;
  modify (set_active_irq_listeners q') ;;;
  enable_irq irq ;;;
  upd_kmsg (set_header IO_LISTEN_IRQ_REPLY_MSG) ;;;
  ret OK.

Definition handle_io_allow_iomapped_io : K Z :=
  m <- kmsg ;;
  sender <- get_sender_process (from m) ;;
  for_each_of p_threads sender thread_allow_io ;;;
  upd_kmsg (set_header IO_ALLOW_IOMAPPED_IO_REPLY_MSG) ;;;
  ret OK.

Definition handle_process_send_channel : K Z :=
  m <- kmsg ;;
  let pid := ifield 0 m in
  let cid := channel m in
  t <- gets process_table ;;
  proc <- lift (table_get t pid) ;;
  if proc =? NULL then ret ERR_INVALID_MESSAGE else
  ch <- current_channel cid ;;
  c_assert (negb (ch =? NULL)) ;;;
  dst_ch <- channel_create proc ;;
  if dst_ch =? NULL then channel_destroy ch ;;; ret ERR_OUT_OF_MEMORY else
  c <- load_channel ch ;;
  channel_link (c_linked_with c) dst_ch ;;;
  channel_destroy ch ;;;
  upd_kmsg (set_header PROCESS_SEND_CHANNEL_REPLY_MSG) ;;;
  ret OK.

Definition handle_timer_set : K Z :=
  m <- kmsg ;;
  let cid := channel m in
  let initial := ifield 0 m in
  let interval := ifield 4 m in
  ch <- current_channel cid ;;
  c_assert (negb (ch =? NULL)) ;;;
  timer_id <- tbl_alloc user_timers set_user_timers ;;
  if timer_id =? 0 then ret ERR_OUT_OF_MEMORY else
  channel_incref ch ;;;
  timer <- timer_create initial interval user_timer_handler ch ;;
  if timer =? NULL then tbl_free user_timers set_user_timers timer_id ;;; ret ERR_OUT_OF_MEMORY else
  tbl_set user_timers set_user_timers timer_id timer ;;;
  upd_kmsg (fun m => set_data (set_field 0 4 timer_id (data m)) (set_header TIMER_SET_REPLY_MSG m)) ;;;
  ret OK.

Definition handle_timer_clear : K Z :=
  m <- kmsg ;;
  let timer_id := ifield 0 m in
  tbl <- gets user_timers ;;
  timer <- lift (table_get tbl timer_id) ;;
  if timer =? NULL then ret ERR_INVALID_PAYLOAD else
  t <- load_timer timer ;;
  channel_decref (tm_arg t) ;;;
  tbl_free user_timers set_user_timers (tm_id t) ;;;
  timer_destroy timer ;;;
  upd_kmsg (set_header TIMER_CLEAR_REPLY_MSG) ;;;
  ret OK.

Definition process_message : K Z :=
  m <- kmsg ;;
  let h := header m in
  if h =? RUNTIME_EXIT_MSG then handle_runtime_exit
  else if h =? RUNTIME_PRINTCHAR_MSG then handle_runtime_printchar
  else if h =? PROCESS_CREATE_MSG then handle_process_create
  else if h =? PROCESS_DESTROY_MSG then handle_process_destroy
  else if h =? PROCESS_ADD_PAGER_MSG then handle_process_add_pager
  else if h =? PROCESS_SEND_CHANNEL_MSG then handle_process_send_channel
  else if h =? THREAD_SPAWN_MSG then handle_thread_spawn
  else if h =? THREAD_DESTROY_MSG then handle_thread_destroy
  else if h =? IO_ALLOW_IOMAPPED_IO_MSG then handle_io_allow_iomapped_io
  else if h =? IO_LISTEN_IRQ_MSG then handle_io_listen_irq
  else if h =? TIMER_SET_MSG then handle_timer_set
  else if h =? TIMER_CLEAR_MSG then handle_timer_clear
  else if h =? SERVER_CONNECT_MSG then handle_server_connect
  else ret ERR_UNEXPECTED_MESSAGE.

(** ** mainloop *)

(** The part of a round between the two calls of [kernel_ipc]: [false] for
    [DONT_REPLY]. *)
Definition serve : K bool :=
  err <- process_message ;;
  if err =? DONT_REPLY then ret false
  else
    (if negb (err =? OK) then upd_kmsg (set_header (ERROR_TO_HEADER err)) else ret tt) ;;;
    ret true.

(** A round of the loop that starts with the wait for a request.  The wait
    blocks unless the server's channel is closed or taken, which makes the loop
    spin; [fuel] bounds the rounds made without leaving the CPU. *)
Fixpoint mainloop (fuel : nat) (server_ch : Z) : K ctl :=
  match fuel with
  | O => no_fuel
  | S fuel =>
      call (kernel_ipc server_ch IPC_RECV) (FServerRecv server_ch) (fun _ =>
        reply <- serve ;;
        if reply then
          m <- kmsg ;;
          call (kernel_ipc (from m) IPC_SEND) (FServerSend server_ch) (fun _ => mainloop fuel server_ch)
        else mainloop fuel server_ch)
  end.

Definition SERVER_FUEL : nat := 2.

(** A request has arrived. *)
Definition server_received (server_ch : Z) : K ctl :=
  reply <- serve ;;
  if reply then
    m <- kmsg ;;
    call (kernel_ipc (from m) IPC_SEND) (FServerSend server_ch) (fun _ => mainloop SERVER_FUEL server_ch)
  else mainloop SERVER_FUEL server_ch.

Definition kernel_server_main : K ctl :=
  cur <- CURRENT ;;
  t <- load_thread cur ;;
  kp <- gets kernel_process ;;
  c_assert (t_process t =? kp) ;;;
  ut <- on_page_arena table_init ;;
  modify (set_user_timers ut) ;;;
  il <- on_page_arena table_init ;;
  modify (set_irq_listeners il) ;;;
  modify (set_active_irq_listeners []) ;;;
  ks <- gets kernel_server_ch ;;
  c <- load_channel ks ;;
  mainloop SERVER_FUEL (c_cid c).

(** The start address stands for [kernel_server_main]; see [kernel_entry]. *)
Definition KERNEL_SERVER_MAIN : Z := 1.
Definition kernel_server_init : K unit :=
  kp <- gets kernel_process ;;
  ch <- channel_create kp ;;
  modify (set_kernel_server_ch ch) ;;;
  thread <- thread_create kp KERNEL_SERVER_MAIN 0 0 0 ;;
  thread_resume thread.

End KServer.
