(* ===== verification/System.v ===== *)
(** * Boot and the running system

    [kernel/boot.c], the initialisation functions it calls, the interrupt entry
    of [kernel/arch/x64/interrupt.c], and the steps of a running system: a thread
    enters the kernel by a system call, an exception or an interrupt and either
    returns or leaves the CPU; a thread that is switched to goes on with the
    frames it left. *)
From S2P Require Import Prelude Message Arena Table KState Paging Thread Channel Vm Ipc Timer Proc KServer.
Import Arena Tbl Paging Thread Chan Vm Ipc Tmr Proc KServer.

Definition THREAD_INFO_ADDR : Z := 0x0000000000f1b000.

Definition EXP_PAGE_FAULT : Z := 14.
Definition EXP_DEVICE_NOT_AVAILABLE : Z := 7.
Definition VECTOR_IRQ_BASE : Z := 32.
Definition APIC_TIMER_VECTOR : Z := VECTOR_IRQ_BASE + 0.
Definition SERIAL_IRQ : Z := 4.

Module Sys.

Definition memory_init : K unit :=
  on_object_arena (arena_init OBJECT_ARENA_ADDR OBJECT_ARENA_LEN OBJ_MAX_SIZE) ;;;
  on_page_arena (arena_init PAGE_ARENA_ADDR PAGE_ARENA_LEN PAGE_SIZE).

(** One CPU: the loop of [thread_init] runs once. *)
Definition thread_init : K unit :=
  modify (set_runqueue []) ;;;
  kp <- gets kernel_process ;;
  idle <- thread_create kp 0 0 0 0 ;;
  modify (set_idle_thread idle).

(** The copy of [init_args] into the initfs image is not modelled. *)
Definition userland : K unit :=
  p <- process_create [109; 101; 109; 109; 103; 114; 0] (* memmgr *) ;;
  modify (set_init_process p) ;;;
  c_assert (negb (p =? NULL)) ;;;
  thread <- thread_create p INITFS_ADDR 0 THREAD_INFO_ADDR 0 ;;
  c_assert (negb (thread =? NULL)) ;;;
  kp <- gets kernel_process ;;
  kernel_ch <- channel_create kp ;;
  c_assert (negb (kernel_ch =? NULL)) ;;;
  user_ch <- channel_create p ;;
  c_assert (negb (kernel_ch =? NULL)) ;;;
  ks <- gets kernel_server_ch ;;
  channel_transfer kernel_ch ks ;;;
  channel_link kernel_ch user_ch ;;;
  let flags := Z.lor PAGE_WRITABLE PAGE_USER in
  err <- vmarea_create p INITFS_ADDR INITFS_END initfs_pager NULL flags ;;
  c_assert (err =? OK) ;;;
  err <- vmarea_create p STRAIGHT_MAP_ADDR STRAIGHT_MAP_END straight_map_pager NULL flags ;;
  c_assert (err =? OK) ;;;
  thread_resume thread.

(** [boot], up to the loop of the idle thread.  [debug_init] and [arch_init] set up
    hardware that is not in the state. *)
Definition boot : K unit :=
  memory_init ;;;
  timer_init ;;;
  process_init ;;;
  thread_init ;;;
  kernel_server_init ;;;
  userland ;;;
  thread_first_switch.

(** ** Threads that go on *)

Definition run_frame (f : frame) (v : Z) : K ctl :=
  match f with
  | FSend ch header syscall kbuf => ipc_send_resumed page_fault_handler ch header syscall kbuf
  | FSendPage ch receiver syscall kbuf dst_kbuf page page_base =>
      ipc_send_page ch receiver syscall kbuf dst_kbuf page page_base v
  | FRecv recv_ch kbuf => ipc_received recv_ch kbuf
  | FRecvFast recv_ch kbuf => ipc_fastpath_received recv_ch kbuf
  | FKernelIpc => kernel_ipc_return v
  | FUserPager => user_pager_return v
  | FPageFault vma vaddr => page_filled vma vaddr v
  | FException => done_ v
  | FSyscall => done_ v
  | FTimer timer next ticks => timer_resumed timer next ticks
  | FServerMain => kernel_server_main
  | FServerRecv server_ch => server_received server_ch
  | FServerSend server_ch => mainloop SERVER_FUEL server_ch
  end.

(** Return through the frames, innermost first; each gets the value of the one
    below. *)
Fixpoint run_frames (fs : list frame) (v : Z) : K ctl :=
  match fs with
  | [] => done_ v
  | f :: fs =>
      r <- run_frame f v ;;
      match r with
      | CRet v => run_frames fs v
      | CBlock gs => ret (CBlock (gs ++ fs))
      end
  end.

(** ** Entering the kernel *)

(** [x64_handle_interrupt].  One round is enough for the instructions of the FPU with
    CR0.TS clear, and no number is with CR0.TS set ([lazy_fpu_switch_faults]). *)
Definition x64_handle_interrupt (vec error cr2 : Z) : K ctl :=
  if vec =? EXP_PAGE_FAULT then
    (if truthy (Z.land (Z.shiftr error 3) 1) then panic else ret tt) ;;;
    call (page_fault_handler cr2 error) FException done_
  else if vec =? EXP_DEVICE_NOT_AVAILABLE then x64_lazy_fpu_switch 1 ;;; done_ 0
  else if vec =? APIC_TIMER_VECTOR then call (timer_interrupt_handler 1) FException done_
  else if vec <=? 20 then panic
  else if VECTOR_IRQ_BASE <=? vec then
    let irq := vec - VECTOR_IRQ_BASE in
    (if irq =? SERIAL_IRQ then ret tt else deliver_interrupt irq) ;;;
    done_ 0
  else panic.

(** Code of thread [cur] that runs in the kernel until it returns to user mode or
    leaves the CPU. *)
Definition finish (cur : Z) (m : K ctl) : K unit :=
  r <- m ;;
  match r with
  | CRet v => upd_thread cur (fun t => set_t_retval v (set_t_kont [] t))
  | CBlock fs => upd_thread cur (set_t_kont fs)
  end.

Inductive event :=
| ESyscall (arg0 arg1 syscall : Z)
| EInterrupt (vec error cr2 : Z)
| EUser (page_base : Z) (m : message)
| EResume.

(** One step of the thread on the CPU: in user mode it makes a system call, is
    interrupted, or writes its thread information block; in the kernel it goes on. *)
Definition step (e : event) : K unit :=
  cur <- CURRENT ;;
  t <- load_thread cur ;;
  match e, t_kont t with
  | ESyscall arg0 arg1 syscall, [] => finish cur (call (syscall_handler arg0 arg1 syscall) FSyscall done_)
  | EInterrupt vec error cr2, [] => finish cur (x64_handle_interrupt vec error cr2)
  | EUser page_base m, [] => upd_thread cur (fun t => set_t_page_base page_base (set_t_info_msg m t))
  | EResume, f :: fs => finish cur (run_frames (f :: fs) 0)
  | _, _ => undef
  end.

End Sys.
Import Sys.

(** ** Running the system from boot *)

Definition run (es : list event) : K unit := fold_right (fun e k => step e ;;; k) (ret tt) es.

Lemma run_app es1 es2 s : run (es1 ++ es2) s = (run es1 ;;; run es2) s.
Proof.
  revert s. induction es1 as [|e es1 IH]; intros s; [done|]. simpl. unfold bind.
  by destruct (step e s) as [[u s1]| | |].
Qed.

(** Memory when [boot] is entered: the page table of the boot code maps the low
    memory at 0 and at [KERNEL_BASE_ADDR], and the image of [memmgr] is in the
    kernel image.  The message buffers allocated later hold arbitrary bytes; the
    other words are zero. *)
Definition boot_memory (u : Z -> message) : kstate :=
  KState ex_arena ex_arena ∅ ∅ ∅ ∅ ∅ ∅
    {[KERNEL_PML4_PADDR := <[256%nat := 0x701003]> (<[0%nat := 0x701003]> (replicate 512 0))]}
    ex_table [] NULL NULL [] NULL NULL
    (Cpu 0 0 0 true NULL 0 (fun _ => 0)) ex_table [] ex_table ex_table [] NULL [] [] 0xffff800000200000 u (fun _ => 0).

Definition state_of (ini : kstate) (o : outcome (unit * kstate)) : kstate :=
  match o with Done (_, s) => s | _ => ini end.

(** The kernel server thread has run up to its first wait. *)
Definition start : K unit := boot ;;; run [EResume].
Definition started (u : Z -> message) : kstate :=
  state_of (boot_memory u) (start (boot_memory u)).

(** The console driver sends a carriage return before each line feed. *)
Definition tty (ch : Z) : list Z := (if ch =? 10 then [13] else []) ++ [ch].

(** [printchar] of the user: the message, the system call, the kernel server, and
    the return from the system call. *)
Definition printchar_msg (ch : Z) : message := Message RUNTIME_PRINTCHAR_MSG 0 0 0 0 (ch :: replicate 479 0).
Definition printchar (ch : Z) : list event :=
  [EUser 0 (printchar_msg ch); ESyscall 1 0 (Z.lor IPC_SEND IPC_RECV); EResume; EResume].
Definition printed (ch : Z) (u : Z -> message) : kstate :=
  state_of (boot_memory u) (run (printchar ch) (started u)).

Lemma started_done u : start (boot_memory u) = Done (tt, started u).
Proof. vm_compute. reflexivity. Qed.

Lemma printed_first ch u :
  run (printchar ch) (started u) = Done (tt, set_console (tty (ch + 0)) (printed ch u)).
Proof. vm_compute. reflexivity. Qed.

Lemma printed_next c ch ch' u :
  run (printchar ch') (set_console c (printed ch u)) =
  Done (tt, set_console (c ++ tty (ch' + 0)) (printed ch' u)).
Proof. vm_compute. reflexivity. Qed.

Lemma printed_rest u str : forall c ch, exists ch',
  run (concat (map printchar str)) (set_console c (printed ch u)) =
  Done (tt, set_console (c ++ concat (map tty str)) (printed ch' u)).
Proof.
  induction str as [|x str IH]; intros c ch.
  - exists ch. cbn [map concat]. by rewrite app_nil_r.
  - destruct (IH (c ++ tty x) x) as [ch' E]. exists ch'. cbn [map concat]. rewrite run_app.
    rewrite (bind_intro _ _ _ _ _ _ (printed_next c ch x u) eq_refl), Z.add_0_r, E, app_assoc. done.
Qed.

(** What a printing [memmgr] finds after its last system call. *)
Definition idle_memmgr (s : kstate) : bool :=
  match threads s !! current s with
  | Some t =>
      negb (t_blocked t) && bool_decide (t_kont t = []) && (t_retval t =? OK)
      && bool_decide (runqueue s = [])
  | None => false
  end.

Lemma printed_idle c ch u : idle_memmgr (set_console c (printed ch u)) = true.
Proof. vm_compute. reflexivity. Qed.

(** C5: the machine boots and serves its first process.  From the memory the boot
    code leaves, whatever bytes the message buffers hold, [boot] initialises the
    kernel, starts the kernel server thread and gives the CPU to [memmgr]; each
    character that [memmgr] then sends to the kernel server with
    [runtime.printchar] comes out on the console in the order sent, with a
    carriage return before a line feed, and every one of these system calls
    returns [OK] to a thread that is runnable again. *)
Theorem boot_and_print (u : Z -> message) (str : list Z) :
  exists s, (start ;;; run (concat (map printchar str))) (boot_memory u) = Done (tt, s) /\
    console s = concat (map tty str) /\ (str = [] \/ idle_memmgr s = true).
Proof.
  rewrite (bind_intro _ _ _ _ _ _ (started_done u) eq_refl). destruct str as [|ch str].
  - exists (started u). split; [done|]. split; [vm_compute; reflexivity | by left].
  - destruct (printed_rest u str (tty ch) ch) as [ch' E].
    exists (set_console (tty ch ++ concat (map tty str)) (printed ch' u)). cbn [map concat].
    rewrite run_app. split.
    { by rewrite (bind_intro _ _ _ _ _ _ (printed_first ch u) eq_refl), Z.add_0_r, E. }
    split; [done|]. right. apply printed_idle.
Qed.

(** ** Requests that stop the machine *)

(** The system calls of the first process after boot. *)
Definition after_boot (calls : list (Z * Z * Z)) : K unit :=
  start ;;; run (map (fun '(a, b, c) => ESyscall a b c) calls).

(** A process can stop the whole machine with its own channels.  Linking a
    linked channel with itself, which is how [channel_link] unlinks it, drops
    the reference of its peer twice; so does the second close of one end of a
    pair.  In each case an assertion on a reference count fails and the kernel
    panics.  The first process can do the former with a single system call. *)
Theorem unlink_panics (u : Z -> message) :
  after_boot [(1, 1, SYSCALL_LINK)] (boot_memory u) = Panic /\
  after_boot [(0, 0, SYSCALL_OPEN); (0, 0, SYSCALL_OPEN); (2, 3, SYSCALL_LINK); (2, 2, SYSCALL_LINK)]
    (boot_memory u) = Panic /\
  after_boot [(0, 0, SYSCALL_OPEN); (0, 0, SYSCALL_OPEN); (2, 3, SYSCALL_LINK);
              (2, 0, SYSCALL_CLOSE); (2, 0, SYSCALL_CLOSE)] (boot_memory u) = Panic.
Proof. vm_compute. auto. Qed.
