(* ===== verification/WaitState.v ===== *)
(** * Who waits where

    An abstract machine for the blocking of the kernel: it keeps of a thread only
    whether it is blocked, on which queue and inside which functions, and of a
    channel only its links, its receiver and its queue of senders.  Its steps are
    the ways in which [kernel/ipc.c], [kernel/channel.c] and [kernel/thread.c]
    move threads between running, ready and waiting.  [winv] says that no thread
    is lost or in two places, and every step keeps it; [IpcSafety] shows that the
    system calls take these steps. *)
From S2P Require Import Prelude Message Arena Table KState.
Import Arena Tbl.

Record tobs := TObs { o_blocked : bool; o_kont : list frame; o_on : Z; o_proc : Z }.
Record cobs := CObs { o_linked : Z; o_transfer : Z; o_receiver : Z; o_queue : list Z }.

Record wstate := WState {
  w_rq : list Z;
  w_cur : Z;
  w_idle : Z;
  w_thr : gmap Z tobs;
  w_ch : gmap Z cobs;
  w_procs : gmap Z process
}.

Definition thread_obs (t : thread) : tobs := TObs (t_blocked t) (t_kont t) (t_blocked_on t) (t_process t).
Definition channel_obs (c : channel_t) : cobs :=
  CObs (c_linked_with c) (c_transfer_to c) (c_receiver c) (c_queue c).
Definition abs (s : kstate) : wstate :=
  WState (runqueue s) (current s) (idle_thread s) (thread_obs <$> threads s) (channel_obs <$> channels s)
    (processes s).

(** A place to wait: the receiver slot or the queue of senders of a channel. *)
Inductive place := Receiving (ch : Z) | Sending (ch : Z).

Definition waits_at (w : wstate) (t : Z) (p : place) : Prop :=
  match p with
  | Receiving ch => exists c, w_ch w !! ch = Some c /\ o_receiver c = t /\ t <> NULL
  | Sending ch => exists c, w_ch w !! ch = Some c /\ t ∈ o_queue c
  end.

(** The channels a suspended function still uses. *)
Definition frame_live (w : wstate) (f : frame) : Prop :=
  match f with
  | FSend ch _ _ _ | FRecv ch _ | FRecvFast ch _ => is_Some (w_ch w !! ch)
  | _ => True
  end.

(** The channel table of a process: every identifier that is not negative gives a
    channel or nothing. *)
Definition table_live (w : wstate) (p : process) : Prop :=
  forall cid, 0 <= cid -> exists ch, table_get (p_channels p) cid = Done ch /\ (ch = NULL \/ is_Some (w_ch w !! ch)).

(** [winv_blocking]: the part that also holds while the running thread is on its
    way to sleep. *)
Record winv_blocking (w : wstate) : Prop := {
  wi_addr : forall t, is_Some (w_thr w !! t) -> OBJECT_ARENA_ADDR <= t < OBJECT_ARENA_ADDR + OBJECT_ARENA_LEN;
  wi_rq_nodup : NoDup (w_rq w);
  wi_rq : forall t, t ∈ w_rq w <-> (exists o, w_thr w !! t = Some o /\ o_blocked o = false) /\ t <> w_cur w;
  wi_cur : is_Some (w_thr w !! w_cur w);
  wi_idle : exists o, w_thr w !! w_idle w = Some o /\ o_blocked o = true;
  wi_idle_free : forall p, ~ waits_at w (w_idle w) p;
  wi_graph : forall x c, w_ch w !! x = Some c ->
    is_Some (w_ch w !! o_linked c) /\ is_Some (w_ch w !! o_transfer c);
  wi_blocked : forall t p, waits_at w t p -> exists o, w_thr w !! t = Some o /\ o_blocked o = true;
  wi_on : forall t x o, waits_at w t (Sending x) -> w_thr w !! t = Some o -> o_on o = x;
  wi_place : forall t p q, waits_at w t p -> waits_at w t q -> p = q;
  wi_queue : forall x c, w_ch w !! x = Some c -> NoDup (o_queue c);
  wi_lost : forall t o, w_thr w !! t = Some o -> o_blocked o = true -> o_kont o <> [] -> exists p, waits_at w t p;
  wi_tables : forall t o, w_thr w !! t = Some o -> exists p, w_procs w !! o_proc o = Some p /\ table_live w p;
  wi_frames : forall t o, w_thr w !! t = Some o -> Forall (frame_live w) (o_kont o)
}.

(** The running thread is runnable, or there is none and the idle thread runs. *)
Record winv (w : wstate) : Prop := {
  wi_blocking : winv_blocking w;
  wi_running : w_cur w = w_idle w \/ exists o, w_thr w !! w_cur w = Some o /\ o_blocked o = false
}.

(** ** The steps *)

Definition w_set_thr (t : Z) (o : tobs) (w : wstate) : wstate :=
  WState (w_rq w) (w_cur w) (w_idle w) (<[t := o]> (w_thr w)) (w_ch w) (w_procs w).
Definition w_set_ch (x : Z) (c : cobs) (w : wstate) : wstate :=
  WState (w_rq w) (w_cur w) (w_idle w) (w_thr w) (<[x := c]> (w_ch w)) (w_procs w).
Definition w_set_rq (q : list Z) (w : wstate) : wstate :=
  WState q (w_cur w) (w_idle w) (w_thr w) (w_ch w) (w_procs w).

Definition o_set_blocked (b : bool) (o : tobs) : tobs := TObs b (o_kont o) (o_on o) (o_proc o).
Definition o_set_on (x : Z) (o : tobs) : tobs := TObs (o_blocked o) (o_kont o) x (o_proc o).
Definition o_set_kont (k : list frame) (o : tobs) : tobs := TObs (o_blocked o) k (o_on o) (o_proc o).
Definition o_set_receiver (r : Z) (c : cobs) : cobs := CObs (o_linked c) (o_transfer c) r (o_queue c).
Definition o_set_queue (q : list Z) (c : cobs) : cobs := CObs (o_linked c) (o_transfer c) (o_receiver c) q.

(** The running thread becomes the receiver of a channel that has none. *)
Definition w_block_receiving (x : Z) (c : cobs) (o : tobs) (w : wstate) : wstate :=
  w_set_thr (w_cur w) (o_set_blocked true o) (w_set_ch x (o_set_receiver (w_cur w) c) w).
(** The running thread joins the queue of senders. *)
Definition w_block_sending (x : Z) (c : cobs) (o : tobs) (w : wstate) : wstate :=
  w_set_thr (w_cur w) (o_set_blocked true (o_set_on x o)) (w_set_ch x (o_set_queue (o_queue c ++ [w_cur w]) c) w).
(** The receiver of a channel is made runnable. *)
Definition w_wake_receiver (x : Z) (c : cobs) (o : tobs) (w : wstate) : wstate :=
  w_set_rq (w_rq w ++ [o_receiver c]) (w_set_thr (o_receiver c) (o_set_blocked false o) (w_set_ch x (o_set_receiver NULL c) w)).
(** The first sender of a channel is made runnable. *)
Definition w_wake_sender (x t : Z) (q : list Z) (c : cobs) (o : tobs) (w : wstate) : wstate :=
  w_set_rq (w_rq w ++ [t]) (w_set_thr t (o_set_blocked false (o_set_on NULL o)) (w_set_ch x (o_set_queue q c) w)).
(** The CPU is given to another thread. *)
Definition w_switch (t : Z) (q : list Z) (w : wstate) : wstate :=
  WState q t (w_idle w) (w_thr w) (w_ch w) (w_procs w).

(** ** Every step keeps the invariant *)

Lemma winv_not_null w t : winv_blocking w -> is_Some (w_thr w !! t) -> t <> NULL.
Proof. intros HI H. apply (wi_addr w HI) in H. unfold OBJECT_ARENA_ADDR, NULL in *. lia. Qed.

(** A thread that is not blocked waits nowhere. *)
Lemma winv_free w t o p : winv_blocking w -> w_thr w !! t = Some o -> o_blocked o = false -> ~ waits_at w t p.
Proof. intros HI Ht Hb H. apply (wi_blocked w HI) in H as (o' & ? & ?). congruence. Qed.

Lemma frame_live_mono w w' f : (forall x, is_Some (w_ch w !! x) -> is_Some (w_ch w' !! x)) -> frame_live w f -> frame_live w' f.
Proof. intros H. destruct f; simpl; auto. Qed.

Lemma table_live_mono w w' p : (forall x, is_Some (w_ch w !! x) -> is_Some (w_ch w' !! x)) -> table_live w p -> table_live w' p.
Proof. intros H Hp cid Hc. destruct (Hp cid Hc) as (ch & ? & [?|?]); eauto 10. Qed.

(** A thread [t] moves to another place, or to none, by a change of channel [x]. *)
Section Move.
Context (w : wstate) (t x : Z) (o o' : tobs) (c c' : cobs) (q' : list Z) (P : option place).
Let w' : wstate := w_set_rq q' (w_set_thr t o' (w_set_ch x c' w)).
Hypothesis (HI : winv_blocking w) (Ht : w_thr w !! t = Some o) (Hx : w_ch w !! x = Some c).
Hypothesis (Hlinked : o_linked c' = o_linked c) (Htransfer : o_transfer c' = o_transfer c).
Hypothesis (Hproc : o_proc o' = o_proc o) (Hkont : o_kont o' = o_kont o) (Hidle : t <> w_idle w).
Hypothesis (Hqnd : NoDup (o_queue c')).
Hypothesis (Hr : forall u, u <> t -> u <> NULL -> o_receiver c' = u <-> o_receiver c = u).
Hypothesis (Hq : forall u, u <> t -> u ∈ o_queue c' <-> u ∈ o_queue c).
Hypothesis (HP : forall p, waits_at w' t p <-> P = Some p).
Hypothesis (Hblocked : o_blocked o' = bool_decide (is_Some P)).
Hypothesis (Hon : forall y, P = Some (Sending y) -> o_on o' = y).
Hypothesis (Hrqnd : NoDup q').
Hypothesis (Hrq : forall u, u ∈ q' <-> (u <> t /\ u ∈ w_rq w) \/ (u = t /\ o_blocked o' = false /\ t <> w_cur w)).

Lemma move_others u p : u <> t -> waits_at w' u p <-> waits_at w u p.
Proof.
  intros Hu. destruct p as [y|y]; simpl; (destruct (decide (y = x)) as [->|];
    [rewrite lookup_insert_eq, Hx | by rewrite lookup_insert_ne by done]).
  - split; intros (? & [= <-] & Hy & ?); eexists; (split; [done|]); (split; [by apply Hr | done]).
  - split; intros (? & [= <-] & Hy); eexists; (split; [done|]); by apply Hq.
Qed.

Lemma move_channels y : is_Some (w_ch w !! y) -> is_Some (w_ch w' !! y).
Proof. intros H. simpl. apply lookup_insert_is_Some'. auto. Qed.

Lemma move_lookup u o1 : w_thr w' !! u = Some o1 ->
  (u = t /\ o1 = o') \/ (u <> t /\ w_thr w !! u = Some o1).
Proof. simpl. rewrite lookup_insert_Some. naive_solver. Qed.

Lemma winv_move : winv_blocking w'.
Proof.
  assert (Hone : forall u p, waits_at w' u p -> exists o1, w_thr w' !! u = Some o1 /\ o_blocked o1 = true).
  { intros u p H. simpl. destruct (decide (u = t)) as [->|Hu].
    - rewrite lookup_insert_eq. exists o'. split; [done|]. rewrite Hblocked. apply bool_decide_eq_true. apply HP in H. eauto.
    - rewrite lookup_insert_ne by done. apply move_others in H; [|done]. by apply (wi_blocked w HI) in H. }
  constructor.
  - intros u Hu. apply (wi_addr w HI). simpl in Hu. apply lookup_insert_is_Some in Hu as [<-|[_ ?]]; eauto.
  - done.
  - intros u. simpl. rewrite Hrq, (wi_rq w HI). destruct (decide (u = t)) as [->|Hu].
    + rewrite lookup_insert_eq. naive_solver.
    + rewrite lookup_insert_ne by done. naive_solver.
  - simpl. apply lookup_insert_is_Some'. right. apply (wi_cur w HI).
  - simpl. rewrite lookup_insert_ne by done. apply (wi_idle w HI).
  - intros p H. apply move_others in H; [|done]. by apply (wi_idle_free w HI) in H.
  - intros y d Hy. simpl in Hy. apply lookup_insert_Some in Hy as [[<- <-]|[_ Hy]].
    + rewrite Hlinked, Htransfer. destruct (wi_graph w HI _ _ Hx). split; by apply move_channels.
    + destruct (wi_graph w HI _ _ Hy). split; by apply move_channels.
  - done.
  - intros u y o1 H Ho1. apply move_lookup in Ho1 as [[-> ->]|[Hu Ho1]].
    + apply Hon. by apply HP.
    + apply (wi_on w HI u); [|done]. by apply move_others in H.
  - intros u p q Hp Hq'. destruct (decide (u = t)) as [->|Hu].
    + apply HP in Hp, Hq'. congruence.
    + apply move_others in Hp, Hq'; [|done..]. by apply (wi_place w HI u).
  - intros y d Hy. simpl in Hy. apply lookup_insert_Some in Hy as [[<- <-]|[_ Hy]]; [done|].
    by apply (wi_queue w HI) in Hy.
  - intros u o1 Ho1 Hb Hk. apply move_lookup in Ho1 as [[-> ->]|[Hu Ho1]].
    + rewrite Hblocked in Hb. apply bool_decide_eq_true in Hb as [p Hp]. exists p. by apply HP.
    + destruct (wi_lost w HI _ _ Ho1 Hb Hk) as [p Hp]. exists p. by apply move_others.
  - intros u o1 Ho1. apply move_lookup in Ho1 as [[-> ->]|[Hu Ho1]]; [rewrite Hproc|].
    + destruct (wi_tables w HI _ _ Ht) as (p & ? & ?). exists p. split; [done|]. eauto using table_live_mono, move_channels.
    + destruct (wi_tables w HI _ _ Ho1) as (p & ? & ?). exists p. split; [done|]. eauto using table_live_mono, move_channels.
  - intros u o1 Ho1. apply move_lookup in Ho1 as [[-> ->]|[Hu Ho1]]; [rewrite Hkont|].
    + eapply Forall_impl; [exact (wi_frames w HI _ _ Ht)|]. eauto using frame_live_mono, move_channels.
    + eapply Forall_impl; [exact (wi_frames w HI _ _ Ho1)|]. eauto using frame_live_mono, move_channels.
Qed.
End Move.

Lemma winv_not_idle w t o : winv_blocking w -> w_thr w !! t = Some o -> o_blocked o = false -> t <> w_idle w.
Proof. intros HI Ht Hb ->. destruct (wi_idle w HI) as (? & ? & ?). congruence. Qed.

Lemma waits_not_idle w t p : winv_blocking w -> waits_at w t p -> t <> w_idle w.
Proof. intros HI H ->. by apply (wi_idle_free w HI) in H. Qed.

Lemma rq_not_cur w u : winv_blocking w -> u ∈ w_rq w -> u <> w_cur w.
Proof. intros HI Hu. by apply (wi_rq w HI) in Hu as [_ ?]. Qed.

Lemma rq_not_blocked w t o : winv_blocking w -> w_thr w !! t = Some o -> o_blocked o = true -> t ∉ w_rq w.
Proof. intros HI Ht Hb Hu. apply (wi_rq w HI) in Hu as [(? & ? & ?) _]. congruence. Qed.

Lemma winv_block_receiving w x c o :
  winv_blocking w -> w_thr w !! w_cur w = Some o -> o_blocked o = false ->
  w_ch w !! x = Some c -> o_receiver c = NULL ->
  winv_blocking (w_block_receiving x c o w) /\ waits_at (w_block_receiving x c o w) (w_cur w) (Receiving x).
Proof.
  intros HI Ht Hb Hx Hr.
  assert (Hnn : w_cur w <> NULL) by eauto using winv_not_null.
  assert (Hat : waits_at (w_block_receiving x c o w) (w_cur w) (Receiving x)).
  { simpl. rewrite lookup_insert_eq. eauto. }
  split; [|done].
  apply (winv_move w (w_cur w) x o (o_set_blocked true o) c (o_set_receiver (w_cur w) c) (w_rq w) (Some (Receiving x)));
    try done; simpl.
  - eauto using winv_not_idle.
  - eapply (wi_queue w HI); eauto.
  - intros u Hu Hn. rewrite Hr. split; congruence.
  - intros p. split; [|intros [= <-]; done]. intros H. destruct p as [y|y]; simpl in H.
    + destruct (decide (y = x)) as [->|]; [done|]. rewrite lookup_insert_ne in H by done.
      by apply (winv_free w (w_cur w) o (Receiving y)) in HI.
    + exfalso. apply (winv_free w (w_cur w) o (Sending y) HI Ht Hb). simpl.
      destruct (decide (y = x)) as [->|]; [|by rewrite lookup_insert_ne in H by done].
      rewrite lookup_insert_eq in H. destruct H as (? & [= <-] & H). eauto.
  - apply (wi_rq_nodup w HI).
  - intros u. pose proof (rq_not_cur w u HI). naive_solver.
Qed.

Lemma winv_block_sending w x c o :
  winv_blocking w -> w_thr w !! w_cur w = Some o -> o_blocked o = false -> w_ch w !! x = Some c ->
  winv_blocking (w_block_sending x c o w) /\ waits_at (w_block_sending x c o w) (w_cur w) (Sending x) /\
  (w_cur w ∉ o_queue c).
Proof.
  intros HI Ht Hb Hx.
  assert (Hnq : w_cur w ∉ o_queue c).
  { intros H. apply (winv_free w (w_cur w) o (Sending x) HI Ht Hb). simpl. eauto. }
  assert (Hat : waits_at (w_block_sending x c o w) (w_cur w) (Sending x)).
  { simpl. rewrite lookup_insert_eq. eexists. split; [done|]. simpl. set_solver. }
  split; [|done].
  apply (winv_move w (w_cur w) x o (o_set_blocked true (o_set_on x o)) c (o_set_queue (o_queue c ++ [w_cur w]) c)
    (w_rq w) (Some (Sending x))); try done; simpl.
  - eauto using winv_not_idle.
  - apply NoDup_app. split; [eapply (wi_queue w HI); eauto|]. split; [set_solver | apply NoDup_singleton].
  - set_solver.
  - intros p. split; [|intros [= <-]; done]. intros H. destruct p as [y|y]; simpl in H.
    + exfalso. apply (winv_free w (w_cur w) o (Receiving y) HI Ht Hb). simpl.
      destruct (decide (y = x)) as [->|]; [|by rewrite lookup_insert_ne in H by done].
      rewrite lookup_insert_eq in H. destruct H as (? & [= <-] & H). eauto.
    + destruct (decide (y = x)) as [->|]; [done|]. rewrite lookup_insert_ne in H by done.
      by apply (winv_free w (w_cur w) o (Sending y)) in HI.
  - by intros y [= ->].
  - apply (wi_rq_nodup w HI).
  - intros u. pose proof (rq_not_cur w u HI). naive_solver.
Qed.

(** Waking a thread that waits at [p] and then waits nowhere. *)
Lemma wake_rq w t p : winv_blocking w -> waits_at w t p -> t <> w_cur w ->
  NoDup (w_rq w ++ [t]) /\
  forall u, u ∈ w_rq w ++ [t] <-> (u <> t /\ u ∈ w_rq w) \/ (u = t /\ false = false /\ t <> w_cur w).
Proof.
  intros HI Hp Hc. destruct (wi_blocked w HI _ _ Hp) as (o & Ho & Hb).
  pose proof (rq_not_blocked w t o HI Ho Hb) as Hn. split.
  - apply NoDup_app. split; [apply (wi_rq_nodup w HI)|]. split; [set_solver | apply NoDup_singleton].
  - intros u. rewrite elem_of_app, list_elem_of_singleton. destruct (decide (u = t)) as [->|]; naive_solver.
Qed.

Lemma winv_wake_receiver w x c o :
  winv_blocking w -> w_ch w !! x = Some c -> o_receiver c <> NULL -> o_receiver c <> w_cur w ->
  w_thr w !! o_receiver c = Some o -> winv_blocking (w_wake_receiver x c o w).
Proof.
  intros HI Hx Hr Hc Ht.
  assert (Hat : waits_at w (o_receiver c) (Receiving x)) by (simpl; eauto).
  destruct (wake_rq w _ _ HI Hat Hc) as [Hnd Hrq].
  apply (winv_move w (o_receiver c) x o (o_set_blocked false o) c (o_set_receiver NULL c) _ None); try done; simpl.
  - eauto using waits_not_idle.
  - eapply (wi_queue w HI); eauto.
  - intros p. split; [|done]. intros H. destruct p as [y|y]; simpl in H.
    + destruct (decide (y = x)) as [->|Hne].
      * rewrite lookup_insert_eq in H. destruct H as (? & [= <-] & Hn & _). by simpl in Hn.
      * rewrite lookup_insert_ne in H by done. pose proof (wi_place w HI _ (Receiving y) _ H Hat). congruence.
    + assert (H' : waits_at w (o_receiver c) (Sending y)).
      { simpl. destruct (decide (y = x)) as [->|]; [|by rewrite lookup_insert_ne in H by done].
        rewrite lookup_insert_eq in H. destruct H as (? & [= <-] & H). eauto. }
      pose proof (wi_place w HI _ _ _ H' Hat). congruence.
Qed.

Lemma winv_wake_sender w x t q c o :
  winv_blocking w -> w_ch w !! x = Some c -> o_queue c = t :: q -> t <> w_cur w ->
  w_thr w !! t = Some o -> winv_blocking (w_wake_sender x t q c o w).
Proof.
  intros HI Hx Hq Hc Ht. assert (Hin : t ∈ o_queue c) by (rewrite Hq; left).
  assert (Hat : waits_at w t (Sending x)) by (simpl; eauto).
  destruct (wake_rq w _ _ HI Hat Hc) as [Hnd Hrq].
  pose proof (wi_queue w HI _ _ Hx) as Hqn. rewrite Hq in Hqn. apply NoDup_cons in Hqn as [Htq Hqn].
  apply (winv_move w t x o (o_set_blocked false (o_set_on NULL o)) c (o_set_queue q c) _ None); try done; simpl.
  - eauto using waits_not_idle.
  - intros u Hu. rewrite Hq. set_solver.
  - intros p. split; [|done]. intros H. destruct p as [y|y]; simpl in H.
    + assert (H' : waits_at w t (Receiving y)).
      { simpl. destruct (decide (y = x)) as [->|]; [|by rewrite lookup_insert_ne in H by done].
        rewrite lookup_insert_eq in H. destruct H as (? & [= <-] & H). eauto. }
      pose proof (wi_place w HI _ _ _ H' Hat). congruence.
    + destruct (decide (y = x)) as [->|Hne].
      * rewrite lookup_insert_eq in H. by destruct H as (? & [= <-] & H).
      * rewrite lookup_insert_ne in H by done. pose proof (wi_place w HI _ (Sending y) _ H Hat). congruence.
Qed.

Lemma waits_at_channels w w' t p : w_ch w' = w_ch w -> waits_at w' t p <-> waits_at w t p.
Proof. intros H. destruct p; simpl; by rewrite H. Qed.

(** Steps that leave the channels alone. *)
Lemma winv_frame w w' :
  winv_blocking w -> w_ch w' = w_ch w -> w_procs w' = w_procs w -> w_idle w' = w_idle w ->
  (forall t o', w_thr w' !! t = Some o' -> exists o, w_thr w !! t = Some o /\
     o_blocked o' = o_blocked o /\ o_on o' = o_on o /\ o_proc o' = o_proc o /\
     (o_blocked o = true -> o_kont o' <> [] -> exists p, waits_at w t p) /\ Forall (frame_live w) (o_kont o')) ->
  (forall t, is_Some (w_thr w !! t) -> is_Some (w_thr w' !! t)) ->
  NoDup (w_rq w') -> is_Some (w_thr w !! w_cur w') ->
  (forall t, t ∈ w_rq w' <-> (exists o, w_thr w !! t = Some o /\ o_blocked o = false) /\ t <> w_cur w') ->
  winv_blocking w'.
Proof.
  intros HI Hch Hpr Hid Hthr Hdom Hnd Hcur Hrq.
  assert (Hwa : forall t p, waits_at w' t p <-> waits_at w t p) by (intros; by apply waits_at_channels).
  assert (Hback : forall t o b, w_thr w !! t = Some o -> o_blocked o = b ->
    exists o', w_thr w' !! t = Some o' /\ o_blocked o' = b).
  { intros t o b Ht <-. destruct (Hdom t) as [o' Ho']; [eauto|].
    destruct (Hthr t o' Ho') as (o1 & Ho1 & ? & _). exists o'. split; [done|]. congruence. }
  assert (Hfl : forall f, frame_live w f -> frame_live w' f).
  { intros f. apply frame_live_mono. by rewrite Hch. }
  constructor; rewrite ?Hid, ?Hch; try apply HI; try done.
  - intros t [o' Ho']. destruct (Hthr t o' Ho') as (o & Ho & _). apply (wi_addr w HI). eauto.
  - intros t. rewrite Hrq. split; intros [(o & Ho & Hb) Hne]; (split; [|done]); [eauto|].
    destruct (Hthr t o Ho) as (o1 & ? & ? & _). exists o1. split; [done|]. congruence.
  - eauto.
  - destruct (wi_idle w HI) as (o & Ho & Hb). eauto.
  - intros p H. apply Hwa in H. by apply (wi_idle_free w HI) in H.
  - intros t p H. apply Hwa in H. apply (wi_blocked w HI) in H as (o & ? & ?). eauto.
  - intros t x o' H Ho'. apply Hwa in H. destruct (Hthr t o' Ho') as (o & Ho & _ & -> & _). by apply (wi_on w HI t).
  - intros t p q Hp Hq. apply Hwa in Hp, Hq. by apply (wi_place w HI t).
  - intros t o' Ho' Hb Hk. destruct (Hthr t o' Ho') as (o & Ho & Hbo & _ & _ & Hw & _).
    destruct Hw as [p Hp]; [congruence | done|]. exists p. by apply Hwa.
  - intros t o' Ho'. destruct (Hthr t o' Ho') as (o & Ho & _ & _ & -> & _).
    destruct (wi_tables w HI _ _ Ho) as (p & Hp & Hl). rewrite Hpr. exists p. split; [done|].
    eapply table_live_mono; [|done]. by rewrite Hch.
  - intros t o' Ho'. destruct (Hthr t o' Ho') as (o & _ & _ & _ & _ & _ & Hf). eapply Forall_impl; eauto.
Qed.

Lemma winv_same w t o : winv_blocking w -> w_thr w !! t = Some o -> exists o1, w_thr w !! t = Some o1 /\
     o_blocked o = o_blocked o1 /\ o_on o = o_on o1 /\ o_proc o = o_proc o1 /\
     (o_blocked o1 = true -> o_kont o <> [] -> exists p, waits_at w t p) /\ Forall (frame_live w) (o_kont o).
Proof.
  intros HI Ht. exists o. do 4 (split; [done|]). split; [|by apply (wi_frames w HI _ _ Ht)].
  by apply (wi_lost w HI).
Qed.

Lemma winv_set_kont w t o k :
  winv w -> w_thr w !! t = Some o -> (o_blocked o = true -> k <> [] -> exists p, waits_at w t p) ->
  Forall (frame_live w) k -> winv (w_set_thr t (o_set_kont k o) w).
Proof.
  intros [HI Hrun] Ht Hw Hk. split.
  - apply (winv_frame w); try done; simpl.
    + intros u o' Ho'. apply lookup_insert_Some in Ho' as [[<- <-]|[_ Ho']]; [|by apply winv_same].
      exists o. simpl. eauto 10.
    + intros u Hu. apply lookup_insert_is_Some'. auto.
    + apply (wi_rq_nodup w HI).
    + apply (wi_cur w HI).
    + apply (wi_rq w HI).
  - destruct Hrun as [|(o1 & Ho1 & Hb)]; [by left|]. right. simpl. destruct (decide (t = w_cur w)) as [->|].
    + rewrite lookup_insert_eq. eexists. split; [done|]. simpl. congruence.
    + rewrite lookup_insert_ne by done. eauto.
Qed.

(** A blocked thread gives the CPU to a thread of the run queue: to the first one
    in [thread_switch], to the one it has just made runnable in the fast path. *)
Lemma winv_switch w o t l1 l2 :
  winv_blocking w -> w_thr w !! w_cur w = Some o -> o_blocked o = true -> w_rq w = l1 ++ t :: l2 ->
  winv (w_switch t (l1 ++ l2) w).
Proof.
  intros HI Ho Hb Hq. pose proof (wi_rq_nodup w HI) as Hnd. rewrite Hq in Hnd.
  assert (Hin : t ∈ w_rq w) by (rewrite Hq; set_solver).
  pose proof (proj1 (wi_rq w HI t) Hin) as [(ot & Hot & Hbt) _].
  assert (Hl : forall u, u ∈ l1 ++ l2 <-> u ∈ w_rq w /\ u <> t).
  { intros u. rewrite Hq. apply NoDup_app in Hnd as (_ & H1 & H2). apply NoDup_cons in H2 as [H2 _]. set_solver. }
  split; [|right; simpl; eauto].
  apply (winv_frame w); try done; simpl.
  - intros u o' Ho'. by apply winv_same.
  - apply NoDup_app in Hnd as (H1 & H2 & H3). apply NoDup_cons in H3 as [H3 H4].
    apply NoDup_app. split; [done|]. split; [|done]. intros u Hu Hu2. apply (H2 u Hu). by right.
  - intros u. rewrite Hl, (wi_rq w HI). split; [tauto|]. intros [(o1 & Ho1 & Hb1) Hne].
    split; [|done]. split; [eauto|]. intros ->. congruence.
Qed.

Lemma winv_switch_idle w o :
  winv_blocking w -> w_thr w !! w_cur w = Some o -> o_blocked o = true -> w_rq w = [] ->
  winv (w_switch (w_idle w) [] w).
Proof.
  intros HI Ho Hb Hq. split; [|by left].
  apply (winv_frame w); try done; simpl.
  - intros u o' Ho'. by apply winv_same.
  - apply NoDup_nil_2.
  - destruct (wi_idle w HI) as (? & ? & _). eauto.
  - intros u. split; [set_solver|]. intros [(o1 & Ho1 & Hb1) _].
    assert (u ∈ w_rq w) as Hu; [|rewrite Hq in Hu; set_solver].
    apply (wi_rq w HI). split; [eauto|]. intros ->. congruence.
Qed.

(** ** Deciding the invariant *)

#[export] Instance place_eq_dec : EqDecision place.
Proof. solve_decision. Defined.

Definition channel_places (xc : Z * cobs) : list (Z * place) :=
  let '(x, c) := xc in
  (if o_receiver c =? NULL then [] else [(o_receiver c, Receiving x)]) ++ map (fun t => (t, Sending x)) (o_queue c).
Definition places (w : wstate) : list (Z * place) := map_to_list (w_ch w) ≫= channel_places.

Definition live_b (w : wstate) (x : Z) : bool := bool_decide (is_Some (w_ch w !! x)).
Definition frame_live_b (w : wstate) (f : frame) : bool :=
  match f with FSend ch _ _ _ | FRecv ch _ | FRecvFast ch _ => live_b w ch | _ => true end.
Definition table_live_b (w : wstate) (p : process) : bool :=
  (num_entries (p_channels p) <=? Z.of_nat (length (tvals (p_channels p)))) &&
  forallb (fun v => (v =? NULL) || live_b w v) (tvals (p_channels p)).

Definition thread_ok_b (w : wstate) (to : Z * tobs) : bool :=
  let '(t, o) := to in
  (OBJECT_ARENA_ADDR <=? t) && (t <? OBJECT_ARENA_ADDR + OBJECT_ARENA_LEN) &&
  (o_blocked o || (t =? w_cur w) || bool_decide (t ∈ w_rq w)) &&
  (negb (o_blocked o) || bool_decide (o_kont o = []) || bool_decide (t ∈ (places w).*1)) &&
  match w_procs w !! o_proc o with Some p => table_live_b w p | None => false end &&
  forallb (frame_live_b w) (o_kont o).

Definition place_ok_b (w : wstate) (tp : Z * place) : bool :=
  match w_thr w !! tp.1 with
  | Some o => o_blocked o && match tp.2 with Sending x => o_on o =? x | Receiving _ => true end && negb (tp.1 =? w_idle w)
  | None => false
  end.

Definition winv_b (w : wstate) : bool :=
  forallb (thread_ok_b w) (map_to_list (w_thr w)) && forallb (place_ok_b w) (places w) &&
  bool_decide (NoDup (places w).*1) && bool_decide (NoDup (w_rq w)) &&
  forallb (fun t => match w_thr w !! t with Some o => negb (o_blocked o) && negb (t =? w_cur w) | None => false end) (w_rq w) &&
  match w_thr w !! w_idle w with Some o => o_blocked o | None => false end &&
  forallb (fun xc : Z * cobs => live_b w (o_linked xc.2) && live_b w (o_transfer xc.2) && bool_decide (NoDup (o_queue xc.2)))
    (map_to_list (w_ch w)) &&
  match w_thr w !! w_cur w with Some o => (w_cur w =? w_idle w) || negb (o_blocked o) | None => false end.

Lemma places_spec w t p : (t, p) ∈ places w <-> waits_at w t p.
Proof.
  unfold places. rewrite list_elem_of_bind. split.
  - intros ([x c] & Hin & Hx%elem_of_map_to_list). simpl in Hin. apply elem_of_app in Hin as [Hin|Hin].
    + destruct (Z.eqb_spec (o_receiver c) NULL); [set_solver|]. apply list_elem_of_singleton in Hin as [= -> ->]. simpl. eauto.
    + apply list_elem_of_fmap in Hin as (u & [= -> ->] & Hu). simpl. eauto.
  - destruct p as [x|x]; simpl; intros (c & Hx & H); exists (x, c); (split; [|by apply elem_of_map_to_list]); simpl.
    + destruct H as [<- Hn]. destruct (Z.eqb_spec (o_receiver c) NULL); [done|]. left.
    + apply elem_of_app. right. apply list_elem_of_fmap. eauto.
Qed.

Lemma NoDup_fst_unique {A B} (l : list (A * B)) x y z : NoDup l.*1 -> (x, y) ∈ l -> (x, z) ∈ l -> y = z.
Proof.
  intros Hnd [i Hi]%list_elem_of_lookup [j Hj]%list_elem_of_lookup.
  assert (i = j) as ->; [|congruence]. apply (NoDup_lookup l.*1 i j x); [done|..]; rewrite list_lookup_fmap.
  - by rewrite Hi.
  - by rewrite Hj.
Qed.

Lemma live_b_spec w x : live_b w x = true -> is_Some (w_ch w !! x).
Proof. apply bool_decide_eq_true. Qed.

Lemma frame_live_b_spec w f : frame_live_b w f = true -> frame_live w f.
Proof. destruct f; simpl; auto using live_b_spec. Qed.

Lemma table_live_b_spec w p : table_live_b w p = true -> table_live w p.
Proof.
  unfold table_live_b. intros [Hn Hall]%andb_true_iff cid Hcid. zbool. unfold table_get.
  destruct (Z.leb_spec (num_entries (p_channels p)) cid); [eauto|].
  destruct (arr_get_is_Some (tvals (p_channels p)) cid) as [_ Hs]. destruct Hs as [v Hv]; [lia|]. rewrite Hv.
  exists v. split; [done|]. apply arr_get_Some in Hv as [_ Hv]. rewrite forallb_forall in Hall.
  specialize (Hall v). rewrite <- list_elem_of_In in Hall. specialize (Hall (list_elem_of_lookup_2 _ _ _ Hv)).
  apply orb_true_iff in Hall as [Hz|Hl]; zbool; auto using live_b_spec.
Qed.

Lemma forallb_map_to_list {A} (f : Z * A -> bool) (m : gmap Z A) k x :
  forallb f (map_to_list m) = true -> m !! k = Some x -> f (k, x) = true.
Proof.
  intros H Hk. rewrite forallb_forall in H. apply H. apply list_elem_of_In. by apply elem_of_map_to_list.
Qed.

Lemma forallb_elem {A} (f : A -> bool) l x : forallb f l = true -> x ∈ l -> f x = true.
Proof. intros H Hx. rewrite forallb_forall in H. apply H. by apply list_elem_of_In. Qed.

Lemma thread_ok_b_spec w t o : thread_ok_b w (t, o) = true ->
  OBJECT_ARENA_ADDR <= t < OBJECT_ARENA_ADDR + OBJECT_ARENA_LEN /\
  (o_blocked o = false -> t <> w_cur w -> t ∈ w_rq w) /\
  (o_blocked o = true -> o_kont o <> [] -> exists p, waits_at w t p) /\
  (exists p, w_procs w !! o_proc o = Some p /\ table_live w p) /\ Forall (frame_live w) (o_kont o).
Proof.
  unfold thread_ok_b. intros H. repeat (apply andb_true_iff in H as [H ?]).
  rename H into Hlo, H4 into Hhi, H3 into Hrq, H2 into Hlost, H1 into Htab, H0 into Hfr. zbool.
  split; [lia|]. split; [|split; [|split]].
  - intros Hb Hne. rewrite Hb in Hrq. apply orb_true_iff in Hrq as [Hc|Hq]; [simpl in Hc; zbool; done|].
    by apply bool_decide_eq_true in Hq.
  - intros Hb Hk. rewrite Hb, (bool_decide_eq_false_2 _ Hk) in Hlost. simpl in Hlost.
    apply bool_decide_eq_true, list_elem_of_fmap in Hlost as ([u p] & -> & Hp). exists p. by apply places_spec.
  - destruct (w_procs w !! o_proc o) as [p|]; [|done]. eauto using table_live_b_spec.
  - apply Forall_forall. intros f Hf. apply frame_live_b_spec. by apply (forallb_elem _ (o_kont o)).
Qed.

Lemma place_ok_b_spec w t p : place_ok_b w (t, p) = true ->
  exists o, w_thr w !! t = Some o /\ o_blocked o = true /\ t <> w_idle w /\ forall x, p = Sending x -> o_on o = x.
Proof.
  unfold place_ok_b. simpl. destruct (w_thr w !! t) as [o|]; [|done]. intros H. zbool.
  exists o. split; [done|]. split; [done|]. split; [done|]. intros x ->. by zbool.
Qed.

Lemma winv_b_sound w : winv_b w = true -> winv w.
Proof.
  unfold winv_b. intros H. repeat (apply andb_true_iff in H as [H ?]).
  rename H into Hthr, H6 into Hpl, H5 into Hnd, H4 into Hrqnd, H3 into Hrq, H2 into Hid, H1 into Hch, H0 into Hcur.
  apply bool_decide_eq_true in Hnd, Hrqnd.
  assert (Ht : forall t o, w_thr w !! t = Some o -> thread_ok_b w (t, o) = true).
  { intros t o. by apply forallb_map_to_list. }
  assert (Hw : forall t p, waits_at w t p -> place_ok_b w (t, p) = true).
  { intros t p Hp. apply (forallb_elem _ (places w)); [done|]. by apply places_spec. }
  assert (Hc : forall x c, w_ch w !! x = Some c -> live_b w (o_linked c) = true /\ live_b w (o_transfer c) = true /\ NoDup (o_queue c)).
  { intros x c Hx. apply (forallb_map_to_list _ _ _ _ Hch) in Hx. zbool. simpl in *. by rewrite bool_decide_eq_true in *. }
  split; [constructor|]; try done.
  - intros t [o Ho]. by apply Ht, thread_ok_b_spec in Ho as [? _].
  - intros t. split.
    + intros Hin. apply (forallb_elem _ _ _ Hrq) in Hin. destruct (w_thr w !! t) as [o|]; [|done]. zbool. eauto.
    + intros [(o & Ho & Hb) Hne]. apply Ht, thread_ok_b_spec in Ho. by apply Ho.
  - destruct (w_thr w !! w_cur w); [eauto | done].
  - destruct (w_thr w !! w_idle w); [eauto | done].
  - intros p Hp. by apply Hw, place_ok_b_spec in Hp as (? & _ & _ & ? & _).
  - intros x c Hx. apply Hc in Hx as (? & ? & _). auto using live_b_spec.
  - intros t p Hp. apply Hw, place_ok_b_spec in Hp as (o & ? & ? & _). eauto.
  - intros t x o Hp Ho. apply Hw, place_ok_b_spec in Hp as (o' & ? & _ & _ & Hx). assert (o = o') as -> by congruence. auto.
  - intros t p q Hp Hq. apply places_spec in Hp, Hq. by apply (NoDup_fst_unique (places w) t).
  - intros x c Hx. by apply Hc in Hx as (_ & _ & ?).
  - intros t o Ho. apply Ht, thread_ok_b_spec in Ho. apply Ho.
  - intros t o Ho. apply Ht, thread_ok_b_spec in Ho. apply Ho.
  - intros t o Ho. apply Ht, thread_ok_b_spec in Ho. apply Ho.
  - destruct (w_thr w !! w_cur w) as [o|]; [|done]. apply orb_true_iff in Hcur as [Hc'|Hb]; zbool; eauto.
Qed.
