(* ===== verification/IpcSafety.v ===== *)
(** * Safety of the IPC path

    [sys_ipc], its fast path and [sys_notify] of [kernel/ipc.c], run by threads
    that exchange messages without channel and page payloads, take the steps of
    the abstract machine of [WaitState]: from a state with its invariant each
    system call, and each thread that goes on after having waited, returns to user
    mode or leaves the CPU without a panic and without an access to an object that
    does not exist, and the invariant holds again. *)
From S2P Require Import Prelude Message Arena Table KState Paging Thread Channel Vm Ipc Timer Proc KServer System WaitState.
Import Arena Tbl Paging Thread Chan Vm Ipc Tmr Proc KServer Sys.

Definition kinv (s : kstate) : Prop := winv (abs s).

(** A message with inline payload only. *)
Definition plain (header : Z) : Prop :=
  Z.land header MSG_CHANNEL_PAYLOAD = 0 /\ Z.land header MSG_PAGE_PAYLOAD = 0.

(** ** The abstraction of updates *)

Lemma abs_set_thread t th s : abs (set_threads (<[t := th]> (threads s)) s) = w_set_thr t (thread_obs th) (abs s).
Proof. unfold abs, w_set_thr. simpl. by rewrite fmap_insert. Qed.

Lemma abs_set_channel x c s : abs (set_channels (<[x := c]> (channels s)) s) = w_set_ch x (channel_obs c) (abs s).
Proof. unfold abs, w_set_ch. simpl. by rewrite fmap_insert. Qed.

Lemma abs_thr s t th : threads s !! t = Some th -> w_thr (abs s) !! t = Some (thread_obs th).
Proof. intros H. simpl. by rewrite lookup_fmap, H. Qed.

Lemma abs_thr_inv s t o : w_thr (abs s) !! t = Some o -> exists th, threads s !! t = Some th /\ o = thread_obs th.
Proof. simpl. rewrite lookup_fmap. destruct (threads s !! t); [|done]. intros [= <-]. eauto. Qed.

Lemma abs_ch s x c : channels s !! x = Some c -> w_ch (abs s) !! x = Some (channel_obs c).
Proof. intros H. simpl. by rewrite lookup_fmap, H. Qed.

Lemma abs_ch_live s x : is_Some (w_ch (abs s) !! x) <-> is_Some (channels s !! x).
Proof. simpl. rewrite lookup_fmap. apply fmap_is_Some. Qed.

(** Updates that the abstraction does not see. *)
Lemma abs_thread_same s t th th' :
  threads s !! t = Some th -> thread_obs th' = thread_obs th -> abs (set_threads (<[t := th']> (threads s)) s) = abs s.
Proof.
  intros Ht E. rewrite abs_set_thread, E. unfold w_set_thr. rewrite insert_id by (by apply abs_thr). done.
Qed.

Lemma abs_channel_same s x c c' :
  channels s !! x = Some c -> channel_obs c' = channel_obs c -> abs (set_channels (<[x := c']> (channels s)) s) = abs s.
Proof.
  intros Ht E. rewrite abs_set_channel, E. unfold w_set_ch. rewrite insert_id by (by apply abs_ch). done.
Qed.

(** ** Runs of the accesses *)

Lemma load_thread_run s t th : threads s !! t = Some th -> load_thread t s = Done (th, s).
Proof. unfold load_thread. by intros ->. Qed.
Lemma load_channel_run s x c : channels s !! x = Some c -> load_channel x s = Done (c, s).
Proof. unfold load_channel. by intros ->. Qed.
Lemma load_process_run s x p : processes s !! x = Some p -> load_process x s = Done (p, s).
Proof. unfold load_process. by intros ->. Qed.
Lemma upd_thread_run s t th f : threads s !! t = Some th ->
  upd_thread t f s = Done (tt, set_threads (<[t := f th]> (threads s)) s).
Proof. intros H. unfold upd_thread. by rewrite (bind_intro _ _ _ _ _ _ (load_thread_run s t th H) eq_refl). Qed.
Lemma upd_channel_run s x c f : channels s !! x = Some c ->
  upd_channel x f s = Done (tt, set_channels (<[x := f c]> (channels s)) s).
Proof. intros H. unfold upd_channel. by rewrite (bind_intro _ _ _ _ _ _ (load_channel_run s x c H) eq_refl). Qed.

(** ** Operations of the running thread *)

(** What an operation of thread [cur] leaves: the invariant, and if [cur] left the
    CPU, it waits somewhere and its frames only use live channels. *)
Definition op_post (cur : Z) (r : ctl) (s : kstate) : Prop :=
  kinv s /\ is_Some (threads s !! cur) /\
  match r with
  | CRet _ => True
  | CBlock fs => Forall (frame_live (abs s)) fs /\ exists p, waits_at (abs s) cur p
  end.

Definition op_ok (cur : Z) (m : K ctl) (s : kstate) : Prop :=
  exists r s', m s = Done (r, s') /\ op_post cur r s'.

Lemma op_ok_bind {A} cur (m : K A) (k : A -> K ctl) s a s1 :
  m s = Done (a, s1) -> op_ok cur (k a) s1 -> op_ok cur (bind m k) s.
Proof. intros E (r & s' & H & HP). exists r, s'. split; [|done]. by rewrite (bind_intro _ _ _ _ _ _ E eq_refl). Qed.

Lemma op_ok_ret cur v s : kinv s -> is_Some (threads s !! cur) -> op_ok cur (done_ v) s.
Proof. intros. exists (CRet v), s. unfold op_post. auto. Qed.

(** The running thread is runnable, so it waits nowhere. *)
Definition running (s : kstate) (t : thread) : Prop :=
  kinv s /\ threads s !! current s = Some t /\ t_blocked t = false.

Ltac orun L := eapply op_ok_bind; [apply L; eassumption|].

(** ** Giving up the CPU *)

Lemma thread_switch_run s t :
  winv_blocking (abs s) -> threads s !! current s = Some t -> t_blocked t = true ->
  exists s', thread_switch s = Done (tt, s') /\ kinv s' /\ w_thr (abs s') = w_thr (abs s) /\ w_ch (abs s') = w_ch (abs s).
Proof.
  intros HI Ht Hb.
  assert (Hnext : forall next q, winv (w_switch next q (abs s)) ->
    exists s', (if next =? current s then ret tt else arch_thread_switch (current s) next) (set_runqueue q s) = Done (tt, s')
      /\ abs s' = w_switch next q (abs s)).
  { intros next q Hw. destruct (Z.eqb_spec next (current s)) as [->|]; [eexists; split; reflexivity|].
    destruct (wi_cur _ (wi_blocking _ Hw)) as [o Ho]. simpl in Ho. apply (abs_thr_inv s) in Ho as (th & Hth & _).
    unfold arch_thread_switch, bind, load_thread. simpl. rewrite Hth. eexists. split; reflexivity. }
  assert (exists next q s', thread_switch s = Done (tt, s') /\ winv (w_switch next q (abs s)) /\ abs s' = w_switch next q (abs s))
    as (next & q & s' & E & Hw & Habs).
  { unfold thread_switch, scheduler, bind at 1, CURRENT, gets, bind, load_thread. rewrite Ht. simpl. rewrite Hb. simpl.
    destruct (runqueue s) as [|next q] eqn:Hq; simpl.
    - pose proof (winv_switch_idle _ _ HI (abs_thr _ _ _ Ht) Hb Hq) as Hw.
      destruct (Hnext (idle_thread s) [] Hw) as (s' & E & Ha). exists (idle_thread s), [], s'. split; [|done].
      rewrite <- E, <- Hq. by destruct s.
    - pose proof (winv_switch _ _ next [] q HI (abs_thr _ _ _ Ht) Hb Hq) as Hw.
      destruct (Hnext next q Hw) as (s' & E & Ha). exists next, q, s'. auto. }
  exists s'. split; [done|]. unfold kinv. rewrite Habs. auto.
Qed.

Lemma sleep_ok cur s t fs p :
  winv_blocking (abs s) -> current s = cur -> threads s !! cur = Some t -> t_blocked t = true ->
  waits_at (abs s) cur p -> Forall (frame_live (abs s)) fs ->
  op_ok cur (thread_switch ;;; ret (CBlock fs)) s.
Proof.
  intros HI <- Ht Hb Hp Hf. destruct (thread_switch_run s t HI Ht Hb) as (s' & E & HK & Eth & Ech).
  eapply op_ok_bind; [exact E|]. exists (CBlock fs), s'. split; [done|]. split; [done|]. split.
  - apply (f_equal (.!! current s)) in Eth. rewrite (abs_thr s _ _ Ht) in Eth.
    apply (abs_thr_inv s') in Eth as (? & ? & _). eauto.
  - split.
    + eapply Forall_impl; [exact Hf|]. intros f. apply frame_live_mono. by rewrite Ech.
    + exists p. by apply (waits_at_channels (abs s)).
Qed.

Lemma thread_resume_run s x t : threads s !! x = Some t -> t_blocked t = true -> (x ∉ runqueue s) ->
  thread_resume x s = Done (tt, set_runqueue (runqueue s ++ [x]) (set_threads (<[x := set_t_blocked false t]> (threads s)) s)).
Proof.
  intros Ht Hb Hx. unfold thread_resume. rewrite (bind_intro _ _ _ _ _ _ (load_thread_run s x t Ht) eq_refl), Hb.
  unfold bind, store_thread, modify, gets, lift, q_push. simpl. by rewrite bool_decide_eq_false_2.
Qed.

(** The start of the receive phase, up to the switch. *)
Lemma ipc_receive_block s t x c :
  running s t -> channels s !! x = Some c -> c_receiver c = NULL ->
  exists s1 t1, (store_channel x (set_c_receiver (current s) c) ;;; thread_block (current s)) s = Done (tt, s1) /\
    winv_blocking (abs s1) /\ current s1 = current s /\ threads s1 !! current s = Some t1 /\ t_blocked t1 = true /\
    channels s1 !! x = Some (set_c_receiver (current s) c).
Proof.
  intros (HK & Ht & Hb) Hx Hr.
  destruct (winv_block_receiving _ _ _ _ (wi_blocking _ HK) (abs_thr _ _ _ Ht) Hb (abs_ch _ _ _ Hx) Hr) as [HI _].
  eexists _, (set_t_blocked true t). split.
  { unfold thread_block. unfold bind at 1, store_channel, modify. by rewrite (upd_thread_run _ _ t). }
  split; [by rewrite abs_set_thread, abs_set_channel|]. simpl. rewrite !lookup_insert_eq. auto.
Qed.

Lemma ipc_receive_ok s t ch kbuf :
  running s t -> is_Some (channels s !! ch) -> op_ok (current s) (ipc_receive ch kbuf) s.
Proof.
  intros Hrun [c Hc]. pose proof Hrun as (HK & Ht & Hb). pose proof (wi_blocking _ HK) as HI.
  destruct (wi_graph _ HI _ _ (abs_ch _ _ _ Hc)) as [_ [r Hr]%abs_ch_live]. simpl in Hr.
  unfold ipc_receive. eapply op_ok_bind; [reflexivity|]. orun load_channel_run. orun load_channel_run.
  destruct (c_destructed r); [apply op_ok_ret; eauto|].
  destruct (Z.eqb_spec (c_receiver r) NULL) as [Hn|]; simpl; [|apply op_ok_ret; eauto].
  destruct (ipc_receive_block s t _ _ Hrun Hr Hn) as (s1 & t1 & E & HI1 & Hc1 & Ht1 & Hb1 & Hx1).
  mstep E. eapply op_ok_bind; [exact Hrun0|]. eapply op_ok_bind; [exact E|]. clear a s0 Hrun0 E.
  assert (Hw1 : waits_at (abs s1) (current s) (Receiving (c_transfer_to c))).
  { simpl. rewrite lookup_fmap, Hx1. eexists. split; [done|]. split; [done|].
    eapply winv_not_null; [done|]. rewrite (abs_thr _ _ _ Ht1). eauto. }
  assert (Hlive : forall s2, is_Some (channels s2 !! c_transfer_to c) ->
    Forall (frame_live (abs s2)) [FRecv (c_transfer_to c) kbuf]).
  { intros s2 H2. constructor; [|done]. by apply abs_ch_live. }
  destruct (c_queue r) as [|sender q] eqn:Hq.
  - eapply op_ok_bind; [reflexivity|]. eapply sleep_ok; eauto.
  - assert (Hws : waits_at (abs s1) sender (Sending (c_transfer_to c))).
    { simpl. rewrite lookup_fmap, Hx1. eexists. split; [done|]. simpl. rewrite Hq. left. }
    destruct (wi_blocked _ HI1 _ _ Hws) as (o & (ts & Hts & ->)%abs_thr_inv & Hbs). simpl in Hbs.
    assert (Hne : sender <> current s).
    { intros ->. pose proof (wi_place _ HI1 _ _ _ Hws Hw1). congruence. }
    eapply op_ok_bind.
    { rewrite (bind_intro _ _ _ _ _ _ (upd_channel_run _ _ _ _ Hx1) eq_refl).
      erewrite (bind_intro _ _ _ _ _ _ (upd_thread_run _ sender ts _ _) eq_refl).
      apply (thread_resume_run _ _ (set_t_blocked_on NULL ts)); simpl; [apply lookup_insert_eq|done|].
      apply (rq_not_blocked (abs s1) sender (thread_obs ts)); auto using abs_thr.
      Unshelve. done. }
    assert (HI2 : winv_blocking (w_wake_sender (c_transfer_to c) sender q
      (channel_obs (set_c_receiver (current s) r)) (thread_obs ts) (abs s1))).
    { apply winv_wake_sender; auto using abs_ch, abs_thr. simpl. congruence. }
    eapply sleep_ok with (p := Receiving (c_transfer_to c)); [|done|..]; simpl.
    + match goal with |- winv_blocking ?w => replace w with (w_wake_sender (c_transfer_to c) sender q
      (channel_obs (set_c_receiver (current s) r)) (thread_obs ts) (abs s1)); [done|] end.
      unfold w_wake_sender, w_set_rq, w_set_thr, w_set_ch, abs. simpl. rewrite !fmap_insert, insert_insert_eq. done.
    + rewrite !lookup_insert_ne by done. exact Ht1.
    + done.
    + rewrite lookup_fmap, lookup_insert_eq. eexists. split; [done|]. split; [done|].
      eapply winv_not_null; [exact HI1|]. rewrite (abs_thr _ _ _ Ht1). eauto.
    + apply Hlive. simpl. rewrite lookup_insert_eq. eauto.
Qed.

(** Waking the receiver of a channel after its buffers were written. *)
Lemma wake_receiver_run s t x c rt rt' :
  running s t -> channels s !! x = Some c -> c_receiver c <> NULL ->
  threads s !! c_receiver c = Some rt -> thread_obs rt' = thread_obs rt ->
  let s1 := set_threads (<[c_receiver c := rt']> (threads s)) (set_channels (<[x := set_c_receiver NULL c]> (channels s)) s) in
  let s2 := set_runqueue (runqueue s ++ [c_receiver c])
              (set_threads (<[c_receiver c := set_t_blocked false rt']> (threads s1)) s1) in
  thread_resume (c_receiver c) s1 = Done (tt, s2) /\ running s2 t /\
  forall y, is_Some (channels s !! y) -> is_Some (channels s2 !! y).
Proof.
  intros (HK & Ht & Hb) Hx Hn Hr Hobs s1 s2. pose proof (wi_blocking _ HK) as HI.
  assert (Hw : waits_at (abs s) (c_receiver c) (Receiving x)).
  { simpl. rewrite lookup_fmap, Hx. eexists. split; [done|]. auto. }
  destruct (wi_blocked _ HI _ _ Hw) as (o & Ho & Hbo). rewrite (abs_thr _ _ _ Hr) in Ho. injection Ho as <-. simpl in Hbo.
  assert (Hne : c_receiver c <> current s) by congruence.
  assert (HI2 : winv_blocking (w_wake_receiver x (channel_obs c) (thread_obs rt) (abs s))).
  { apply winv_wake_receiver; auto using abs_ch, abs_thr. }
  assert (Habs : abs s2 = w_wake_receiver x (channel_obs c) (thread_obs rt) (abs s)).
  { rewrite <- Hobs. unfold w_wake_receiver, w_set_rq, w_set_thr, w_set_ch, abs. simpl.
    by rewrite !fmap_insert, insert_insert_eq. }
  split; [|split; [split|]].
  - apply (thread_resume_run s1 _ rt'); simpl; [apply lookup_insert_eq | by injection Hobs; congruence|].
    apply (rq_not_blocked (abs s) _ (thread_obs rt)); auto using abs_thr.
  - unfold kinv. rewrite Habs. split; [done|]. right. simpl. rewrite lookup_insert_ne by done.
    rewrite lookup_fmap, Ht. eexists. split; [done|]. done.
  - simpl. rewrite !lookup_insert_ne by done. done.
  - intros y Hy. simpl. apply lookup_insert_is_Some'. auto.
Qed.

Lemma ipc_sent_ok s t x c rt rt' ch syscall kbuf :
  running s t -> channels s !! x = Some c -> c_receiver c <> NULL ->
  threads s !! c_receiver c = Some rt -> thread_obs rt' = thread_obs rt -> is_Some (channels s !! ch) ->
  op_ok (current s) (ipc_sent ch (c_receiver c) syscall kbuf)
    (set_threads (<[c_receiver c := rt']> (threads s)) (set_channels (<[x := set_c_receiver NULL c]> (channels s)) s)).
Proof.
  intros Hrun Hx Hn Hr Hobs Hch. unfold ipc_sent.
  destruct (wake_receiver_run s t x c rt rt' Hrun Hx Hn Hr Hobs) as (E & Hrun2 & Hd).
  eapply op_ok_bind; [exact E|]. match goal with |- op_ok _ _ ?s2 => change (current s) with (current s2) end. case_match.
  - eapply ipc_receive_ok; [done|]. auto.
  - destruct Hrun2 as (? & ? & _). apply op_ok_ret; eauto.
Qed.

Section Send.
Variable pager : Z -> Z -> K ctl.

Lemma ipc_deliver_ok s t x c ch y header syscall kbuf :
  running s t -> plain header -> channels s !! x = Some c -> c_receiver c <> NULL ->
  is_Some (channels s !! ch) -> is_Some (channels s !! y) ->
  op_ok (current s) (ipc_deliver pager ch y (c_receiver c) header syscall kbuf)
    (set_channels (<[x := set_c_receiver NULL c]> (channels s)) s).
Proof.
  intros Hrun [Hp1 Hp2] Hx Hn Hch [cy Hy]. pose proof Hrun as (HK & Ht & Hb).
  assert (Hw : waits_at (abs s) (c_receiver c) (Receiving x)).
  { simpl. rewrite lookup_fmap, Hx. eexists. split; [done|]. auto. }
  destruct (wi_blocked _ (wi_blocking _ HK) _ _ Hw) as (o & (rt & Hr & ->)%abs_thr_inv & _).
  assert (exists l, (set_channels (<[x := set_c_receiver NULL c]> (channels s)) s).(channels) !! y = Some l) as [l Hl].
  { simpl. apply lookup_insert_is_Some'. eauto. }
  unfold ipc_deliver. eapply op_ok_bind; [reflexivity|]. orun load_thread_run. orun load_thread_run. orun load_channel_run.
  eapply op_ok_bind; [reflexivity|]. rewrite Hp1. eapply op_ok_bind; [reflexivity|]. cbv beta iota. rewrite Hp2.
  cbn [truthy negb]. simpl. eapply ipc_sent_ok; eauto. by destruct (t_use_kbuf rt).
Qed.

Lemma ipc_send_safe s t ch header syscall kbuf :
  running s t -> plain header -> is_Some (channels s !! ch) -> op_ok (current s) (ipc_send pager ch header syscall kbuf) s.
Proof.
  intros Hrun Hp [c Hc]. pose proof Hrun as (HK & Ht & Hb). pose proof (wi_blocking _ HK) as HI.
  destruct (wi_graph _ HI _ _ (abs_ch _ _ _ Hc)) as [[l Hl]%abs_ch_live _]. simpl in Hl.
  destruct (wi_graph _ HI _ _ (abs_ch _ _ _ Hl)) as [_ [d Hd]%abs_ch_live]. simpl in Hd.
  unfold ipc_send. eapply op_ok_bind; [reflexivity|]. do 3 orun load_channel_run.
  destruct (c_destructed d); [apply op_ok_ret; eauto|].
  destruct (Z.eqb_spec (c_receiver d) NULL) as [Hn|Hn]; simpl.
  2: { eapply op_ok_bind; [reflexivity|]. eapply ipc_deliver_ok; eauto. }
  case_match; [apply op_ok_ret; eauto|].
  destruct (winv_block_sending _ _ _ _ HI (abs_thr _ _ _ Ht) Hb (abs_ch _ _ _ Hd)) as (HI2 & Hw2 & Hq). simpl in Hq.
  eapply op_ok_bind; [unfold lift, q_push; rewrite bool_decide_eq_false_2 by done; reflexivity|].
  eapply op_ok_bind; [reflexivity|]. eapply op_ok_bind; [apply upd_thread_run; exact Ht|].
  eapply op_ok_bind; [apply upd_thread_run; apply lookup_insert_eq|].
  match goal with |- op_ok _ _ ?s2 => assert (Habs : abs s2 = w_block_sending (c_transfer_to l) (channel_obs d) (thread_obs t) (abs s)) end.
  { rewrite abs_set_thread, abs_set_thread, abs_set_channel. unfold w_block_sending, w_set_thr. simpl. by rewrite insert_insert_eq. }
  eapply sleep_ok with (p := Sending (c_transfer_to l)); rewrite ?Habs; try done; simpl.
  - by rewrite lookup_insert_eq.
  - done.
  - constructor; [|done]. simpl. apply lookup_insert_is_Some'. right. rewrite lookup_fmap, Hc. eauto.
Qed.
End Send.

(** ** Going on after the wait *)

Lemma running_thread s t t' : running s t -> thread_obs t' = thread_obs t ->
  running (set_threads (<[current s := t']> (threads s)) s) t'.
Proof.
  intros (HK & Ht & Hb) E. split; [|split; [apply lookup_insert_eq|]].
  - unfold kinv. by rewrite (abs_thread_same s _ t).
  - injection E. congruence.
Qed.

Lemma running_channel s t x c c' : running s t -> channels s !! x = Some c -> channel_obs c' = channel_obs c ->
  running (set_channels (<[x := c']> (channels s)) s) t.
Proof. intros (HK & Ht & Hb) Hx E. split; [|done]. unfold kinv. by rewrite (abs_channel_same s _ c). Qed.

Lemma running_done s t v : running s t -> op_ok (current s) (done_ v) s.
Proof. intros (HK & Ht & _). apply op_ok_ret; eauto. Qed.

Lemma swap_abort_run s t : running s t ->
  exists s1 t1, swap_abort_reason s = Done (t_abort_reason t, s1) /\ running s1 t1 /\ current s1 = current s.
Proof.
  intros Hrun. pose proof Hrun as (HK & Ht & Hb). unfold swap_abort_reason.
  unfold CURRENT, gets, bind at 1. rewrite (bind_intro _ _ _ _ _ _ (load_thread_run _ _ _ Ht) eq_refl).
  eexists _, (set_t_abort_reason OK t). split; [reflexivity|]. split; [by apply (running_thread s t) | done].
Qed.

Lemma take_notification_run s t x kbuf : running s t -> is_Some (channels s !! x) ->
  exists s1 t1, take_notification x kbuf s = Done (tt, s1) /\ running s1 t1 /\ current s1 = current s.
Proof.
  intros Hrun [c Hx]. pose proof Hrun as (HK & Ht & Hb). unfold take_notification.
  unfold CURRENT, gets, bind at 1. rewrite (bind_intro _ _ _ _ _ _ (load_channel_run _ _ _ Hx) eq_refl).
  unfold bind at 1, store_channel, modify. rewrite (upd_thread_run _ _ t) by done.
  eexists _, _. split; [reflexivity|]. split; [|done].
  apply (running_thread (set_channels (<[x := set_c_notification 0 c]> (channels s)) s) t).
  - by apply (running_channel s t x c).
  - by destruct kbuf.
Qed.

Lemma abort_ok s t : running s t -> op_ok (current s) (err <- swap_abort_reason ;; done_ err) s.
Proof.
  intros Hrun. destruct (swap_abort_run s t Hrun) as (s1 & t1 & E & Hrun1 & Hc).
  eapply op_ok_bind; [exact E|]. rewrite <- Hc. by eapply running_done.
Qed.

Lemma ipc_received_ok s t x kbuf : running s t -> is_Some (channels s !! x) ->
  op_ok (current s) (ipc_received x kbuf) s.
Proof.
  intros Hrun Hx. pose proof Hrun as (_ & Ht & _). unfold ipc_received.
  eapply op_ok_bind; [reflexivity|]. orun load_thread_run. case_match; [by eapply abort_ok|].
  destruct (take_notification_run s t x kbuf Hrun Hx) as (s1 & t1 & E & Hrun1 & Hc).
  eapply op_ok_bind; [exact E|]. rewrite <- Hc. by eapply running_done.
Qed.

Lemma ipc_fastpath_received_ok s t x kbuf : running s t -> is_Some (channels s !! x) ->
  op_ok (current s) (ipc_fastpath_received x kbuf) s.
Proof.
  intros Hrun Hx. unfold ipc_fastpath_received.
  destruct (take_notification_run s t x kbuf Hrun Hx) as (s1 & t1 & E & Hrun1 & Hc).
  eapply op_ok_bind; [exact E|]. rewrite <- Hc. by eapply abort_ok.
Qed.

Lemma ipc_send_resumed_ok s t ch header syscall kbuf : running s t -> plain header -> is_Some (channels s !! ch) ->
  op_ok (current s) (ipc_send_resumed page_fault_handler ch header syscall kbuf) s.
Proof.
  intros Hrun Hp Hch. pose proof Hrun as (_ & Ht & _). unfold ipc_send_resumed.
  eapply op_ok_bind; [reflexivity|]. orun load_thread_run. case_match; [by eapply abort_ok|].
  by eapply ipc_send_safe.
Qed.

(** ** The system calls *)

Lemma channels_get_run s t cid : running s t -> 0 <= cid ->
  exists ch, channels_get (t_process t) cid s = Done (ch, s) /\ (ch = NULL \/ is_Some (channels s !! ch)).
Proof.
  intros (HK & Ht & Hb) Hcid.
  destruct (wi_tables _ (wi_blocking _ HK) _ _ (abs_thr _ _ _ Ht)) as (p & Hp & Hl). simpl in Hp.
  destruct (Hl cid Hcid) as (ch & E & Hch). exists ch. unfold channels_get.
  rewrite (bind_intro _ _ _ _ _ _ (load_process_run _ _ _ Hp) eq_refl). unfold lift. rewrite E.
  split; [done|]. destruct Hch as [|Hch]; [by left|]. right. by apply abs_ch_live in Hch.
Qed.

Lemma sys_ipc_ok s t cid syscall : running s t -> 0 <= cid -> plain (header (ipc_buffer t)) ->
  op_ok (current s) (sys_ipc cid syscall) s.
Proof.
  intros Hrun Hcid Hp. pose proof Hrun as (HK & Ht & Hb). unfold sys_ipc, sys_ipc_with.
  eapply op_ok_bind; [reflexivity|]. orun load_thread_run.
  destruct (channels_get_run s t cid Hrun Hcid) as (ch & E & Hch). eapply op_ok_bind; [exact E|].
  destruct (Z.eqb_spec ch NULL) as [|Hn]; [by eapply running_done|]. destruct Hch as [|[c Hc]]; [done|].
  orun load_channel_run. case_match; [by eapply running_done|]. case_match; [by eapply ipc_send_safe|].
  case_match; [by eapply ipc_receive_ok | by eapply running_done].
Qed.

(** The sum of the conditions of the fast path is zero only if each of them is:
    kernel objects are in the lower half of a 4 GiB block. *)
Lemma s32_object a : OBJECT_ARENA_ADDR <= a < OBJECT_ARENA_ADDR + OBJECT_ARENA_LEN -> 0 < s32 a < 2 ^ 30.
Proof.
  unfold OBJECT_ARENA_ADDR, OBJECT_ARENA_LEN, s32. intros H.
  replace (a + 2 ^ 31) with ((a - 0xffff800000000000 + 2 ^ 31) + 0xffff8000 * 2 ^ 32) by lia.
  rewrite Z.mod_add by lia. rewrite Z.mod_small by lia. lia.
Qed.

Lemma fastpath_test b1 b2 b3 b4 b5 b6 a :
  (a = NULL \/ OBJECT_ARENA_ADDR <= a < OBJECT_ARENA_ADDR + OBJECT_ARENA_LEN) ->
  truthy (s32 (b2z b1 + b2z b2 + b2z b3 + b2z b4 + s32 a + b2z b5 + b2z b6)) = false ->
  a = NULL /\ b1 = false /\ b2 = false /\ b3 = false /\ b4 = false /\ b5 = false /\ b6 = false.
Proof.
  intros Ha H. apply truthy_false in H.
  assert (Hs : (a = NULL /\ s32 a = 0) \/ 0 < s32 a < 2 ^ 30).
  { destruct Ha as [->|Ha%s32_object]; [left|]; auto. }
  assert (Hb : forall b, 0 <= b2z b <= 1) by (intros []; simpl; lia).
  assert (Hf : forall b, b2z b = 0 -> b = false) by (by intros []).
  pose proof (Hb b1). pose proof (Hb b2). pose proof (Hb b3). pose proof (Hb b4). pose proof (Hb b5). pose proof (Hb b6).
  rewrite s32_small in H by lia. split; [destruct Hs as [[? _]|]; [done | lia]|].
  repeat split; apply Hf; lia.
Qed.

(** The fast path is a wake and a block in one, followed by a switch to the thread
    woken. *)
Lemma fastpath_switch_ok s s2 t x y r d rt rt' kbuf :
  running s t -> channels s !! x = Some r -> c_receiver r = NULL -> channels s !! y = Some d -> c_receiver d <> NULL ->
  threads s !! c_receiver d = Some rt -> thread_obs rt' = thread_obs (set_t_blocked false rt) ->
  threads s2 = <[c_receiver d := rt']> (<[current s := set_t_blocked true t]> (threads s)) ->
  channels s2 = <[y := set_c_receiver NULL d]> (<[x := set_c_receiver (current s) r]> (channels s)) ->
  runqueue s2 = runqueue s -> idle_thread s2 = idle_thread s -> processes s2 = processes s ->
  op_ok (current s) (arch_thread_switch (current s) (c_receiver d) ;;; ret (CBlock [FRecvFast x kbuf])) s2.
Proof.
  intros (HK & Ht & Hb) Hx Hxn Hy Hyn Hr Hobs Ethr2 Ech2 Erq2 Eid2 Epr2. pose proof (wi_blocking _ HK) as HI.
  assert (Hxy : y <> x) by congruence.
  assert (Hw : waits_at (abs s) (c_receiver d) (Receiving y)).
  { simpl. rewrite lookup_fmap, Hy. eexists. split; [done|]. auto. }
  destruct (wi_blocked _ HI _ _ Hw) as (o & Ho & Hbo). rewrite (abs_thr _ _ _ Hr) in Ho. injection Ho as <-. simpl in Hbo.
  assert (Hne : c_receiver d <> current s) by congruence.
  destruct (winv_block_receiving _ _ _ _ HI (abs_thr _ _ _ Ht) Hb (abs_ch _ _ _ Hx) Hxn) as [HI1 Hw1].
  set (w1 := w_block_receiving x (channel_obs r) (thread_obs t) (abs s)) in *.
  assert (Hy1 : w_ch w1 !! y = Some (channel_obs d)) by (simpl; rewrite lookup_insert_ne by done; by apply abs_ch).
  assert (HI2 : winv_blocking (w_wake_receiver y (channel_obs d) (thread_obs rt) w1)).
  { apply winv_wake_receiver; auto. simpl. rewrite lookup_insert_ne by done. by apply abs_thr. }
  set (w2 := w_wake_receiver y (channel_obs d) (thread_obs rt) w1) in *.
  assert (HK3 : winv (w_switch (c_receiver d) (runqueue s ++ []) w2)).
  { apply (winv_switch w2 (thread_obs (set_t_blocked true t))); auto. simpl.
    rewrite lookup_insert_ne by done. by rewrite lookup_insert_eq. }
  assert (exists s3, arch_thread_switch (current s) (c_receiver d) s2 = Done (tt, s3) /\
    threads s3 = threads s2 /\ abs s3 = w_switch (c_receiver d) (runqueue s ++ []) w2) as (s3 & E & Eth & Habs).
  { unfold arch_thread_switch. erewrite bind_intro; [| apply load_thread_run; rewrite Ethr2; apply lookup_insert_eq | reflexivity].
    eexists. split; [reflexivity|]. split; [done|].
    unfold w_switch, w2, w_wake_receiver, w1, w_block_receiving, w_set_rq, w_set_thr, w_set_ch, abs. simpl.
    by rewrite Ethr2, Ech2, Erq2, Eid2, Epr2, !fmap_insert, app_nil_r, Hobs. }
  eapply op_ok_bind; [exact E|]. exists (CBlock [FRecvFast x kbuf]), s3. split; [done|].
  unfold op_post, kinv. rewrite Habs, Eth, Ethr2. split; [done|]. split.
  { simpl. rewrite lookup_insert_ne by done. rewrite lookup_insert_eq. eauto. }
  split.
  - constructor; [|done]. simpl. rewrite lookup_insert_ne by done. rewrite lookup_insert_eq. eauto.
  - exists (Receiving x). simpl. rewrite lookup_insert_ne by done. exact Hw1.
Qed.

Lemma receiver_address s x c : kinv s -> channels s !! x = Some c ->
  c_receiver c = NULL \/ OBJECT_ARENA_ADDR <= c_receiver c < OBJECT_ARENA_ADDR + OBJECT_ARENA_LEN.
Proof.
  intros HK Hx. destruct (decide (c_receiver c = NULL)) as [|Hn]; [by left|]. right.
  apply (wi_addr _ (wi_blocking _ HK)). destruct (wi_blocked _ (wi_blocking _ HK) (c_receiver c) (Receiving x)) as (o & Ho & _).
  - simpl. rewrite lookup_fmap, Hx. eexists. split; [done|]. auto.
  - eauto.
Qed.

Lemma receiver_thread s x c : kinv s -> channels s !! x = Some c -> c_receiver c <> NULL ->
  exists rt, threads s !! c_receiver c = Some rt /\ t_blocked rt = true.
Proof.
  intros HK Hx Hn. destruct (wi_blocked _ (wi_blocking _ HK) (c_receiver c) (Receiving x)) as (o & (rt & Hrt & ->)%abs_thr_inv & Hb).
  - simpl. rewrite lookup_fmap, Hx. eexists. split; [done|]. auto.
  - eauto.
Qed.

Lemma sys_ipc_fastpath_ok s t cid : running s t -> 0 <= cid -> plain (header (ipc_buffer t)) ->
  op_ok (current s) (sys_ipc_fastpath cid) s.
Proof.
  intros Hrun Hcid Hp. pose proof Hrun as (HK & Ht & Hb). pose proof (wi_blocking _ HK) as HI.
  unfold sys_ipc_fastpath. eapply op_ok_bind; [reflexivity|]. orun load_thread_run.
  destruct (channels_get_run s t cid Hrun Hcid) as (ch & E & Hch). eapply op_ok_bind; [exact E|].
  destruct (Z.eqb_spec ch NULL) as [|Hn]; [by eapply sys_ipc_ok|]. destruct Hch as [|[c Hc]]; [done|].
  destruct (wi_graph _ HI _ _ (abs_ch _ _ _ Hc)) as [[l Hl]%abs_ch_live [r Hr]%abs_ch_live]. simpl in Hl, Hr.
  destruct (wi_graph _ HI _ _ (abs_ch _ _ _ Hl)) as [_ [d Hd]%abs_ch_live]. simpl in Hd.
  do 4 orun load_channel_run. destruct (truthy _) eqn:Htest; [by eapply sys_ipc_ok|].
  apply fastpath_test in Htest as (Hrn & _ & _ & _ & _ & _ & Hdn%Z.eqb_neq); [|by eapply receiver_address].
  destruct (receiver_thread s _ d HK Hd Hdn) as (rt & Hrt & Hbt).
  assert (Hxy : c_transfer_to c <> c_transfer_to l) by congruence.
  assert (Hne : c_receiver d <> current s) by congruence.
  eapply op_ok_bind; [apply upd_channel_run; exact Hr|].
  eapply op_ok_bind; [apply upd_channel_run; simpl; rewrite lookup_insert_ne by done; exact Hd|].
  eapply op_ok_bind; [apply upd_thread_run; exact Ht|].
  eapply op_ok_bind; [apply upd_thread_run; simpl; rewrite lookup_insert_ne by done; exact Hrt|].
  eapply op_ok_bind; [apply upd_thread_run; simpl; apply lookup_insert_eq|].
  eapply (fastpath_switch_ok s); [exact Hrun | exact Hr | done | exact Hd | done | exact Hrt | |
    simpl; rewrite insert_insert_eq; reflexivity | done..].
  unfold set_ipc_buffer. simpl. by destruct (t_use_kbuf rt).
Qed.

Lemma channel_notify_ok s t ch notification : running s t -> is_Some (channels s !! ch) ->
  op_ok (current s) (v <- channel_notify ch notification ;; done_ v) s.
Proof.
  intros Hrun [c Hc]. pose proof Hrun as (HK & Ht & Hb). pose proof (wi_blocking _ HK) as HI.
  destruct (wi_graph _ HI _ _ (abs_ch _ _ _ Hc)) as [[l Hl]%abs_ch_live _]. simpl in Hl.
  destruct (wi_graph _ HI _ _ (abs_ch _ _ _ Hl)) as [_ [d Hd]%abs_ch_live]. simpl in Hd.
  set (d1 := set_c_notification (Z.lor (c_notification d) notification) d).
  set (s1 := set_channels (<[c_transfer_to l := d1]> (channels s)) s).
  assert (Hrun1 : running s1 t) by (by apply (running_channel s t _ d)).
  assert (Hd1 : channels s1 !! c_transfer_to l = Some d1) by apply lookup_insert_eq.
  assert (exists s2 t2, channel_notify ch notification s = Done (OK, s2) /\ running s2 t2 /\ current s2 = current s)
    as (s2 & t2 & E & Hrun2 & Hc2).
  { unfold channel_notify. rewrite (bind_intro _ _ _ _ _ _ (load_channel_run _ _ _ Hc) eq_refl).
    rewrite (bind_intro _ _ _ _ _ _ (load_channel_run _ _ _ Hl) eq_refl).
    rewrite (bind_intro _ _ _ _ _ _ (load_channel_run _ _ _ Hd) eq_refl).
    rewrite (bind_intro _ _ _ tt s1 _ eq_refl eq_refl).
    destruct (Z.eqb_spec (c_receiver d) NULL) as [Hn|Hn]; simpl.
    - exists s1, t. split; [reflexivity|]. split; done.
    - destruct (receiver_thread s1 _ d1 (proj1 Hrun1) Hd1 Hn) as (rt & Hrt & Hbt).
      set (rt' := set_ipc_buffer (set_from 0 (set_header NOTIFICATION_MSG (ipc_buffer rt))) rt).
      assert (Hobs : thread_obs rt' = thread_obs rt) by (unfold rt', set_ipc_buffer; by destruct (t_use_kbuf rt)).
      destruct (wake_receiver_run s1 t _ d1 rt rt' Hrun1 Hd1 Hn Hrt Hobs) as (_ & Hrun2 & _).
      eexists _, t. split; [|split; [exact Hrun2 | done]].
      assert (Hq : c_receiver d ∉ runqueue s1).
      { apply (rq_not_blocked (abs s1) _ (thread_obs rt)); [apply Hrun1 | by apply abs_thr | done]. }
      unfold bind. rewrite (upd_thread_run _ _ rt) by done.
      rewrite (thread_resume_run _ _ rt'); [|apply lookup_insert_eq | by injection Hobs; congruence | done].
      rewrite (upd_channel_run _ _ d1) by done. reflexivity. }
  eapply op_ok_bind; [exact E|]. rewrite <- Hc2. by eapply running_done.
Qed.

(** System calls that do not create, close, link or transfer channels. *)
Definition message_syscall (syscall : Z) : Prop :=
  SYSCALL_TYPE syscall <> SYSCALL_OPEN /\ SYSCALL_TYPE syscall <> SYSCALL_CLOSE /\
  SYSCALL_TYPE syscall <> SYSCALL_LINK /\ SYSCALL_TYPE syscall <> SYSCALL_TRANSFER.

Lemma syscall_handler_ok s t arg0 arg1 syscall :
  running s t -> 0 <= s32 arg0 -> plain (header (ipc_buffer t)) -> message_syscall syscall ->
  op_ok (current s) (syscall_handler arg0 arg1 syscall) s.
Proof.
  intros Hrun Hcid Hp (H1 & H2 & H3 & H4). unfold syscall_handler. case_match; [by eapply sys_ipc_fastpath_ok|].
  case_match; [by eapply sys_ipc_ok|]. do 4 (case_match; zbool; [done|]).
  case_match; [|case_match; by eapply running_done]. unfold sys_notify, current_channel.
  assert (exists ch, (cur <- CURRENT ;; t <- load_thread cur ;; channels_get (t_process t) (s32 arg0)) s = Done (ch, s) /\
    (ch = NULL \/ is_Some (channels s !! ch))) as (ch & E & Hch).
  { destruct (channels_get_run s t _ Hrun Hcid) as (ch & E & Hch). exists ch. split; [|done].
    unfold CURRENT, gets, bind at 1. by rewrite (bind_intro _ _ _ _ _ _ (load_thread_run _ _ _ (proj1 (proj2 Hrun))) eq_refl). }
  destruct (decide (ch = NULL)) as [->|Hn].
  - eapply op_ok_bind; [rewrite (bind_intro _ _ _ _ _ _ E eq_refl); reflexivity|]. by eapply running_done.
  - destruct Hch as [|Hch]; [done|]. destruct (channel_notify_ok s t ch (u32 arg1) Hrun Hch) as (r & s' & E2 & HP).
    exists r, s'. split; [|done]. mstep E2. unfold bind at 1. rewrite (bind_intro _ _ _ _ _ _ E eq_refl).
    destruct (Z.eqb_spec ch NULL); [done|]. by rewrite Hrun0.
Qed.

(** ** Steps of the system *)

(** Returning to the system call entry. *)
Lemma return_ok cur m k s : (forall v, k v = done_ v) -> op_ok cur m s ->
  op_ok cur (r <- m ;; match r with CRet v => k v | CBlock fs => ret (CBlock (fs ++ [FSyscall])) end) s.
Proof.
  intros Hk (r & s' & E & HP). eapply op_ok_bind; [exact E|]. destruct r as [v|fs].
  - rewrite Hk. exists (CRet v), s'. auto.
  - exists (CBlock (fs ++ [FSyscall])), s'. split; [done|]. destruct HP as (HK & Ht & Hf & Hp). split; [done|].
    split; [done|]. split; [|done]. apply Forall_app. split; [done|]. by constructor.
Qed.

Lemma finish_ok cur m s : op_ok cur m s -> exists s', finish cur m s = Done (tt, s') /\ kinv s'.
Proof.
  intros (r & s' & E & HK & [t Ht] & Hr). unfold finish. rewrite (bind_intro _ _ _ _ _ _ E eq_refl).
  destruct r as [v|fs]; rewrite (upd_thread_run _ _ t) by done; eexists; (split; [reflexivity|]); unfold kinv;
    rewrite abs_set_thread.
  - apply (winv_set_kont _ _ (thread_obs t)); [done | by apply abs_thr | done | done].
  - destruct Hr as [Hf Hp]. apply (winv_set_kont _ _ (thread_obs t)); [done | by apply abs_thr | done | done].
Qed.

(** A function suspended in the IPC path, without payloads to transfer. *)
Definition message_frame (f : frame) : Prop :=
  match f with FSend _ header _ _ => plain header | FRecv _ _ | FRecvFast _ _ => True | _ => False end.

(** What the running thread may do next: in user mode, write its message buffer or
    make a system call for a channel identifier that is not negative, with a
    message without payloads; in the kernel, go on. *)
Inductive enabled (s : kstate) : event -> Prop :=
| enabled_syscall t arg0 arg1 syscall :
    threads s !! current s = Some t -> t_blocked t = false -> t_kont t = [] ->
    0 <= s32 arg0 -> message_syscall syscall -> plain (header (ipc_buffer t)) ->
    enabled s (ESyscall arg0 arg1 syscall)
| enabled_user t page_base m :
    threads s !! current s = Some t -> t_blocked t = false -> t_kont t = [] -> enabled s (EUser page_base m)
| enabled_resume t f :
    threads s !! current s = Some t -> t_blocked t = false -> t_kont t = [f; FSyscall] -> message_frame f ->
    enabled s EResume.

Lemma run_frame_ok s t f : running s t -> message_frame f -> frame_live (abs s) f ->
  op_ok (current s) (run_frame f 0) s.
Proof.
  intros Hrun Hf Hl. destruct f; try done; unfold frame_live in Hl; rewrite abs_ch_live in Hl; simpl.
  - by eapply ipc_send_resumed_ok.
  - by eapply ipc_received_ok.
  - by eapply ipc_fastpath_received_ok.
Qed.

Lemma step_ok s e : kinv s -> enabled s e -> exists s', step e s = Done (tt, s') /\ kinv s'.
Proof.
  intros HK He. destruct He as [t arg0 arg1 n Ht Hb Hk Ha Hn Hp | t pb m Ht Hb Hk | t f Ht Hb Hk Hf];
    unfold step; unfold CURRENT, gets, bind at 1; rewrite (bind_intro _ _ _ _ _ _ (load_thread_run _ _ _ Ht) eq_refl), Hk.
  - apply finish_ok. apply return_ok; [done|]. by eapply syscall_handler_ok.
  - rewrite (upd_thread_run _ _ t) by done. eexists. split; [reflexivity|].
    unfold kinv. by rewrite (abs_thread_same s _ t).
  - apply finish_ok. apply (return_ok _ _ (run_frames [FSyscall])); [done|]. apply (run_frame_ok s t); [done..|].
    pose proof (wi_frames _ (wi_blocking _ HK) _ _ (abs_thr _ _ _ Ht)) as H. simpl in H. rewrite Hk in H. by inversion H.
Qed.

(** A step of a system of communicating threads. *)
Definition ipc_step (s s' : kstate) : Prop := exists e, enabled s e /\ step e s = Done (tt, s').

(** C1: the IPC path is safe.  Take any number of user threads that run in any order, as
    the scheduler decides, and send, receive, notify or make system calls with a number
    that does not exist, with blocking and non-blocking calls, the fast path and the slow
    path mixed.  Their calls name channels by identifiers that are not negative (a negative
    one reads outside the channel table, [table_get_negative]), their messages have no
    channel and no page payload, they do not open, close, link or transfer channels, and
    the kernel server does not go on from its own wait.  In every state they reach from a
    state with the invariant, no thread is lost or in two places: a thread that left the
    CPU inside a call is the receiver of one channel or in the queue of one channel, the run
    queue holds the other runnable threads once, and the channels refer to channels that
    exist.  Whatever such a thread does next, within the same limits, ends without a panic
    and without an access to an object that does not exist. *)
Theorem ipc_safety (s s' : kstate) (HI : kinv s) (Hsteps : rtc ipc_step s s') :
  kinv s' /\ forall e, enabled s' e -> exists s'', step e s' = Done (tt, s'').
Proof.
  assert (HI' : kinv s').
  { induction Hsteps as [|s1 s2 s3 (e & He & E) _ IH]; [done|].
    destruct (step_ok s1 e HI He) as (s2' & E' & HI2). apply IH. congruence. }
  split; [done|]. intros e He. destruct (step_ok s' e HI' He) as (s2 & E & _). eauto.
Qed.

Lemma started_kinv u : kinv (started u).
Proof. apply winv_b_sound. vm_compute. reflexivity. Qed.

(** C11: the machine boots into a safe state.  Whatever bytes the message buffers
    hold, [boot] succeeds, the kernel server thread runs up to its first wait,
    and the invariant of the IPC path holds of the state in which [memmgr] then
    runs, so that [memmgr] and the threads it talks to start from it. *)
Theorem boot_establishes_invariant (u : Z -> message) :
  exists s, start (boot_memory u) = Done (tt, s) /\ kinv s /\ enabled s (EUser 0 (printchar_msg 65)).
Proof.
  exists (started u). split; [apply started_done|]. split; [apply started_kinv|].
  eapply enabled_user; vm_compute; reflexivity.
Qed.

(** The first message of [memmgr], up to the switch to the kernel server. *)
Lemma ipc_safety_witness :
  let s := started (fun _ => ex_message) in
  let s' := state_of s (run [EUser 0 (printchar_msg 65); ESyscall 1 0 (Z.lor IPC_SEND IPC_RECV)] s) in
  kinv s'.
Proof.
  intros s s'. apply (ipc_safety s s' (started_kinv _)).
  set (s1 := state_of s (run [EUser 0 (printchar_msg 65)] s)).
  eapply rtc_l; [exists (EUser 0 (printchar_msg 65)) | eapply rtc_once; exists (ESyscall 1 0 (Z.lor IPC_SEND IPC_RECV))].
  - split; [eapply enabled_user; vm_compute; reflexivity|].
    assert (E : step (EUser 0 (printchar_msg 65)) s = Done (tt, s1)) by (vm_compute; reflexivity). exact E.
  - split; [|vm_compute; reflexivity].
    eapply enabled_syscall; try (vm_compute; reflexivity).
    + vm_compute. discriminate.
    + vm_compute. repeat split; discriminate.
    + vm_compute. split; reflexivity.
Defined.
