(* ===== verification/IpcSpec.v ===== *)
(** * What the IPC system calls do

    The functional behaviour of [sys_ipc] and of its fast path in [kernel/ipc.c] for
    messages with inline payload. *)
From S2P Require Import Prelude Message Arena Table KState Paging Thread Channel Vm Ipc Timer Proc KServer System WaitState IpcSafety.
Import Arena Tbl Paging Thread Chan Vm Ipc Tmr Proc KServer Sys.

(** The message a receiver finds: the header, the identifier of its end of the
    link, and the inline bytes; the rest of its buffer is as it was. *)
Definition delivered (m : message) (from : Z) (dst : message) : message :=
  set_data (copy_data (INLINE_PAYLOAD_LEN (header m)) (data m) (data dst)) (set_from from (set_header (header m) dst)).

(** The parties to a message: the sender, its channel, the linked channel, the
    channel this one transfers to, and the thread that waits there. *)
Record parties := Parties {
  pt_sender : thread;
  pt_ch : Z;
  pt_c : channel_t;
  pt_l : channel_t;
  pt_d : channel_t;
  pt_receiver : thread
}.

(** The running thread sends on [cid], its channel and the destination are open,
    and a thread waits there. *)
Record ready (s : kstate) (cid : Z) (p : parties) : Prop := {
  rd_running : running s (pt_sender p);
  rd_get : channels_get (t_process (pt_sender p)) cid s = Done (pt_ch p, s);
  rd_nonnull : pt_ch p <> NULL;
  rd_c : channels s !! pt_ch p = Some (pt_c p);
  rd_l : channels s !! c_linked_with (pt_c p) = Some (pt_l p);
  rd_d : channels s !! c_transfer_to (pt_l p) = Some (pt_d p);
  rd_c_open : c_destructed (pt_c p) = false;
  rd_d_open : c_destructed (pt_d p) = false;
  rd_waiting : c_receiver (pt_d p) <> NULL;
  rd_receiver : threads s !! c_receiver (pt_d p) = Some (pt_receiver p)
}.

(** The receiver with the message in its buffer, runnable. *)
Definition woken (p : parties) : thread :=
  set_t_blocked false
    (set_ipc_buffer (delivered (ipc_buffer (pt_sender p)) (c_cid (pt_l p)) (ipc_buffer (pt_receiver p))) (pt_receiver p)).

(** The state after the message is delivered and the receiver made runnable. *)
Definition after_delivery (s : kstate) (p : parties) : kstate :=
  set_runqueue (runqueue s ++ [c_receiver (pt_d p)])
    (set_threads (<[c_receiver (pt_d p) := woken p]> (threads s))
      (set_channels (<[c_transfer_to (pt_l p) := set_c_receiver NULL (pt_d p)]> (channels s)) s)).

Lemma ready_blocked s cid p : ready s cid p -> t_blocked (pt_receiver p) = true /\ c_receiver (pt_d p) <> current s /\
  (c_receiver (pt_d p) ∉ runqueue s).
Proof.
  intros [(HK & Ht & Hb) _ _ _ _ Hd _ _ Hw Hr].
  destruct (receiver_thread s _ _ HK Hd Hw) as (rt & Hrt & Hbt). assert (rt = pt_receiver p) as -> by congruence.
  split; [done|]. split; [congruence|].
  apply (rq_not_blocked (abs s) _ (thread_obs (pt_receiver p))); auto using abs_thr. apply HK.
Qed.

(** The receiver with the message in its buffer, and the state when the inline
    payload is copied. *)
Definition filled (p : parties) : thread :=
  set_ipc_buffer (delivered (ipc_buffer (pt_sender p)) (c_cid (pt_l p)) (ipc_buffer (pt_receiver p))) (pt_receiver p).
Definition copied (s : kstate) (p : parties) : kstate :=
  set_threads (<[c_receiver (pt_d p) := filled p]> (threads s))
    (set_channels (<[c_transfer_to (pt_l p) := set_c_receiver NULL (pt_d p)]> (channels s)) s).

(** A send to a waiting thread, up to the page payload. *)
Lemma sys_ipc_copied pager s cid p syscall :
  ready s cid p -> Z.land (header (ipc_buffer (pt_sender p))) MSG_CHANNEL_PAYLOAD = 0 ->
  truthy (Z.land syscall IPC_SEND) = true ->
  sys_ipc_with pager cid syscall s =
  (if truthy (Z.land (header (ipc_buffer (pt_sender p))) MSG_PAGE_PAYLOAD)
   then ipc_page_payload pager (pt_ch p) (c_receiver (pt_d p)) syscall (t_use_kbuf (pt_sender p)) (t_use_kbuf (pt_receiver p))
   else ipc_sent (pt_ch p) (c_receiver (pt_d p)) syscall (t_use_kbuf (pt_sender p))) (copied s p).
Proof.
  intros Hrd Hp1 Hsend.
  destruct Hrd as [(HK & Ht & Hb) Hget Hn Hc Hl Hd Hco Hdo Hw Hr]. unfold sys_ipc_with, CURRENT, gets, bind at 1.
  rewrite (bind_intro _ _ _ _ _ _ (load_thread_run _ _ _ Ht) eq_refl), (bind_intro _ _ _ _ _ _ Hget eq_refl).
  rewrite (proj2 (Z.eqb_neq _ _) Hn), (bind_intro _ _ _ _ _ _ (load_channel_run _ _ _ Hc) eq_refl), Hco, Hsend.
  unfold ipc_send, CURRENT, gets, bind at 1. rewrite (bind_intro _ _ _ _ _ _ (load_channel_run _ _ _ Hc) eq_refl).
  rewrite (bind_intro _ _ _ _ _ _ (load_channel_run _ _ _ Hl) eq_refl), (bind_intro _ _ _ _ _ _ (load_channel_run _ _ _ Hd) eq_refl).
  rewrite Hdo, (proj2 (Z.eqb_neq _ _) Hw). cbn [negb]. unfold bind at 1, store_channel, modify at 1.
  set (s1 := set_channels _ s). unfold ipc_deliver, CURRENT, gets, bind at 1.
  rewrite (bind_intro _ _ _ _ _ _ (load_thread_run s1 _ _ Ht) eq_refl), (bind_intro _ _ _ _ _ _ (load_thread_run s1 _ _ Hr) eq_refl).
  assert (exists l, channels s1 !! c_linked_with (pt_c p) = Some l /\ c_cid l = c_cid (pt_l p)) as (l & Hl1 & Hcid).
  { unfold s1. simpl. destruct (decide (c_linked_with (pt_c p) = c_transfer_to (pt_l p))) as [E|E].
    - rewrite E, lookup_insert_eq. eexists. split; [done|]. simpl. congruence.
    - rewrite lookup_insert_ne by done. eauto. }
  rewrite (bind_intro _ _ _ _ _ _ (load_channel_run s1 _ _ Hl1) eq_refl), Hcid. unfold bind at 1, store_thread, modify at 1.
  unfold ipc_buffer in Hp1. rewrite Hp1. reflexivity.
Qed.

(** Delivery, up to the receive phase. *)
Lemma sys_ipc_delivered pager s cid p syscall :
  ready s cid p -> plain (header (ipc_buffer (pt_sender p))) -> truthy (Z.land syscall IPC_SEND) = true ->
  sys_ipc_with pager cid syscall s =
  (if truthy (Z.land syscall IPC_RECV) then ipc_receive (pt_ch p) (t_use_kbuf (pt_sender p)) else done_ OK)
    (after_delivery s p).
Proof.
  intros Hrd [Hp1 Hp2] Hsend. destruct (ready_blocked s cid p Hrd) as (Hbt & Hne & Hq).
  rewrite (sys_ipc_copied pager s cid p syscall Hrd Hp1 Hsend), Hp2. cbn [truthy negb Z.eqb]. unfold ipc_sent.
  erewrite (bind_intro (thread_resume _)); [reflexivity | | reflexivity].
  rewrite (thread_resume_run _ _ (filled p)).
  - unfold after_delivery, copied. simpl. rewrite insert_insert_eq. reflexivity.
  - apply lookup_insert_eq.
  - unfold filled, set_ipc_buffer. by destruct (t_use_kbuf (pt_receiver p)).
  - done.
Qed.

Lemma copy_data_lookup n src dst i : (Z.to_nat n <= length src)%nat ->
  copy_data n src dst !! i = if decide (i < Z.to_nat n)%nat then src !! i else dst !! i.
Proof.
  intros Hn. unfold copy_data. destruct (decide (i < Z.to_nat n)%nat).
  - rewrite lookup_app_l by (rewrite length_take; lia). by apply lookup_take_lt.
  - rewrite lookup_app_r by (rewrite length_take; lia). rewrite length_take, lookup_drop. f_equal. lia.
Qed.

Lemma ipc_buffer_woken p : ipc_buffer (woken p) =
  delivered (ipc_buffer (pt_sender p)) (c_cid (pt_l p)) (ipc_buffer (pt_receiver p)).
Proof.
  destruct p as [t ch c l d rt]. unfold woken. simpl. generalize (delivered (ipc_buffer t) (c_cid l) (ipc_buffer rt)).
  intros m. unfold set_ipc_buffer. destruct rt as [? ? ? ? ? ? ? ? ? ? ? ? ? ? kb ? ?]. by destruct kb.
Qed.

(** C6: a message arrives.  If a thread waits for messages on the channel that the
    other end of the link transfers to, then a send of a message with inline
    payload returns [OK] at once; the waiting thread is runnable, last in the run
    queue, and its buffer holds the header, the identifier of the channel the
    message came through and the bytes that the header announces, with the rest
    as it was; the channel has no receiver any more.  No other thread and no other
    channel changes, and the sender goes on running. *)
Theorem ipc_send_delivers (s : kstate) (cid syscall : Z) (p : parties)
    (Hready : ready s cid p) (Hplain : plain (header (ipc_buffer (pt_sender p))))
    (Hsend : truthy (Z.land syscall IPC_SEND) = true) (Hrecv : truthy (Z.land syscall IPC_RECV) = false)
    (Hlen : INLINE_PAYLOAD_LEN (header (ipc_buffer (pt_sender p))) <= Z.of_nat (length (data (ipc_buffer (pt_sender p))))) :
  let r := c_receiver (pt_d p) in
  let m := ipc_buffer (pt_sender p) in
  let n := Z.to_nat (INLINE_PAYLOAD_LEN (header m)) in
  exists s' rt, sys_ipc cid syscall s = Done (CRet OK, s') /\
    threads s' !! r = Some rt /\ t_blocked rt = false /\ runqueue s' = runqueue s ++ [r] /\ current s' = current s /\
    header (ipc_buffer rt) = header m /\ from (ipc_buffer rt) = c_cid (pt_l p) /\
    (forall i, data (ipc_buffer rt) !! i = if decide (i < n)%nat then data m !! i else data (ipc_buffer (pt_receiver p)) !! i) /\
    (forall t, t <> r -> threads s' !! t = threads s !! t) /\
    (exists d, channels s' !! c_transfer_to (pt_l p) = Some d /\ c_receiver d = NULL) /\
    (forall x, x <> c_transfer_to (pt_l p) -> channels s' !! x = channels s !! x).
Proof.
  intros r m n. exists (after_delivery s p), (woken p). unfold sys_ipc.
  rewrite (sys_ipc_delivered _ s cid p syscall Hready Hplain Hsend), Hrecv. rewrite ipc_buffer_woken.
  split; [done|]. split; [apply lookup_insert_eq|]. do 5 (split; [done|]). split.
  { intros i. simpl. rewrite copy_data_lookup by lia. done. }
  split; [intros t Ht; by apply lookup_insert_ne|]. split.
  - eexists. split; [apply lookup_insert_eq | done].
  - intros x Hx. by apply lookup_insert_ne.
Qed.

(** ** The fast path *)

Lemma fastpath_plain h : FASTPATH_HEADER_TEST h = true -> plain h.
Proof.
  unfold FASTPATH_HEADER_TEST. intros H. zbool. split.
  - change MSG_CHANNEL_PAYLOAD with (Z.land 0x1800 MSG_CHANNEL_PAYLOAD). by rewrite Z.land_assoc, H.
  - change MSG_PAGE_PAYLOAD with (Z.land 0x1800 MSG_PAGE_PAYLOAD). by rewrite Z.land_assoc, H.
Qed.

Lemma after_delivery_running s cid p : ready s cid p -> running (after_delivery s p) (pt_sender p).
Proof.
  intros [Hrun _ _ _ _ Hd _ _ Hw Hr].
  destruct (wake_receiver_run s _ _ _ _ (set_ipc_buffer (delivered (ipc_buffer (pt_sender p)) (c_cid (pt_l p)) (ipc_buffer (pt_receiver p))) (pt_receiver p)) Hrun Hd Hw Hr) as (_ & H & _).
  - unfold set_ipc_buffer. by destruct (t_use_kbuf (pt_receiver p)).
  - simpl in H. rewrite insert_insert_eq in H. exact H.
Qed.

(** The threads and channels after the sender has become the receiver of [x]. *)
Definition exchanged_threads (s : kstate) (p : parties) : gmap Z thread :=
  <[current s := set_t_blocked true (pt_sender p)]> (<[c_receiver (pt_d p) := woken p]> (threads s)).
Definition exchanged_channels (s : kstate) (p : parties) (r : channel_t) : gmap Z channel_t :=
  <[c_transfer_to (pt_c p) := set_c_receiver (current s) r]>
    (<[c_transfer_to (pt_l p) := set_c_receiver NULL (pt_d p)]> (channels s)).

Lemma slowpath_exchange s cid p r syscall :
  ready s cid p -> plain (header (ipc_buffer (pt_sender p))) -> truthy (Z.land syscall IPC_SEND) = true ->
  truthy (Z.land syscall IPC_RECV) = true ->
  channels s !! c_transfer_to (pt_c p) = Some r -> c_destructed r = false -> c_receiver r = NULL -> c_queue r = [] ->
  exists s2, sys_ipc cid syscall s = Done (CBlock [FRecv (c_transfer_to (pt_c p)) (t_use_kbuf (pt_sender p))], s2) /\
    threads s2 = exchanged_threads s p /\ channels s2 = exchanged_channels s p r /\
    current s2 :: runqueue s2 = runqueue s ++ [c_receiver (pt_d p)].
Proof.
  intros Hrd Hpl Hsend Hrecv Hr Hro Hrn Hrq. pose proof (after_delivery_running s cid p Hrd) as Hrun1.
  unfold sys_ipc. rewrite (sys_ipc_delivered _ s cid p syscall Hrd Hpl Hsend), Hrecv.
  set (s1 := after_delivery s p) in *.
  assert (Hxy : c_transfer_to (pt_c p) <> c_transfer_to (pt_l p)).
  { intros E. rewrite E, (rd_d _ _ _ Hrd) in Hr. injection Hr as <-. by apply (rd_waiting _ _ _ Hrd). }
  assert (exists c, channels s1 !! pt_ch p = Some c /\ c_transfer_to c = c_transfer_to (pt_c p)) as (c & Hc & Htr).
  { simpl. pose proof (rd_c _ _ _ Hrd) as Hc. destruct (decide (pt_ch p = c_transfer_to (pt_l p))) as [E|E].
    - rewrite E, lookup_insert_eq. rewrite E, (rd_d _ _ _ Hrd) in Hc. injection Hc as <-. eauto.
    - rewrite lookup_insert_ne by done. eauto. }
  assert (Hr1 : channels s1 !! c_transfer_to (pt_c p) = Some r) by (simpl; by rewrite lookup_insert_ne by done).
  destruct (ipc_receive_block s1 _ _ _ Hrun1 Hr1 Hrn) as (s2 & t2 & E & HI2 & Hc2 & Ht2 & Hb2 & _).
  rewrite <- Hc2 in Ht2. destruct (thread_switch_run s2 t2 HI2 Ht2 Hb2) as (s3 & E3 & _).
  destruct (thread_switch_spec s2 tt s3 t2 Ht2 E3) as (Eth & Ech & _ & q & Hq & Hm). rewrite Hb2 in Hq. subst q.
  unfold ipc_receive, CURRENT, gets, bind at 1. rewrite (bind_intro _ _ _ _ _ _ (load_channel_run _ _ _ Hc) eq_refl), Htr.
  rewrite (bind_intro _ _ _ _ _ _ (load_channel_run _ _ _ Hr1) eq_refl), Hro, Hrn. cbn [negb Z.eqb NULL].
  mstep E. rewrite (bind_intro _ _ _ _ _ _ Hrun eq_refl), (bind_intro _ _ _ _ _ _ E eq_refl), Hrq.
  unfold bind at 1, ret at 1. rewrite (bind_intro _ _ _ _ _ _ E3 eq_refl).
  exists s3. split; [reflexivity|].
  assert (Es2 : threads s2 = exchanged_threads s p /\ channels s2 = exchanged_channels s p r /\ runqueue s2 = runqueue s1).
  { injection Hrun as _ <-. unfold thread_block in E. rewrite (upd_thread_run _ _ (pt_sender p)) in E by apply Hrun1.
    injection E as <-. done. }
  destruct Es2 as (E1 & E2 & Erq). rewrite Eth, Ech. split; [done|]. split; [done|].
  rewrite Erq in Hm. simpl in Hm. destruct (runqueue s ++ [c_receiver (pt_d p)]) as [|y q] eqn:Eq; [by destruct (runqueue s)|].
  by destruct Hm as [-> ->].
Qed.

Lemma fastpath_exchange s cid p r :
  ready s cid p -> FASTPATH_HEADER_TEST (header (ipc_buffer (pt_sender p))) = true ->
  channels s !! c_transfer_to (pt_c p) = Some r -> c_destructed r = false -> c_receiver r = NULL -> c_queue r = [] ->
  exists s1, sys_ipc_fastpath cid s = Done (CBlock [FRecvFast (c_transfer_to (pt_c p)) (t_use_kbuf (pt_sender p))], s1) /\
    threads s1 = exchanged_threads s p /\ channels s1 = exchanged_channels s p r /\
    current s1 = c_receiver (pt_d p) /\ runqueue s1 = runqueue s.
Proof.
  intros Hrd Hh Hr Hro Hrn Hrq. destruct (ready_blocked s cid p Hrd) as (Hbt & Hne & _).
  assert (Hxy : c_transfer_to (pt_c p) <> c_transfer_to (pt_l p)).
  { intros E. rewrite E, (rd_d _ _ _ Hrd) in Hr. injection Hr as <-. by apply (rd_waiting _ _ _ Hrd). }
  destruct Hrd as [(HK & Ht & Hb) Hget Hn Hc Hl Hd Hco Hdo Hw Hrt]. unfold sys_ipc_fastpath, CURRENT, gets, bind at 1.
  rewrite (bind_intro _ _ _ _ _ _ (load_thread_run _ _ _ Ht) eq_refl), (bind_intro _ _ _ _ _ _ Hget eq_refl).
  rewrite (proj2 (Z.eqb_neq _ _) Hn), (bind_intro _ _ _ _ _ _ (load_channel_run _ _ _ Hc) eq_refl).
  rewrite (bind_intro _ _ _ _ _ _ (load_channel_run _ _ _ Hl) eq_refl), (bind_intro _ _ _ _ _ _ (load_channel_run _ _ _ Hd) eq_refl).
  rewrite (bind_intro _ _ _ _ _ _ (load_channel_run _ _ _ Hr) eq_refl).
  unfold ipc_buffer in Hh. rewrite Hh, Hco, Hro, Hdo, Hrn, Hrq, (proj2 (Z.eqb_neq _ _) Hw).
  rewrite bool_decide_eq_true_2 by done. cbn [negb b2z]. change (truthy _) with false. cbv iota.
  rewrite (bind_intro _ _ _ _ _ _ (upd_channel_run _ _ _ _ Hr) eq_refl).
  erewrite (bind_intro (upd_channel _ _)); [|apply (upd_channel_run _ _ (pt_d p)); simpl; by rewrite lookup_insert_ne by done | reflexivity].
  erewrite (bind_intro (upd_thread _ _)); [|apply (upd_thread_run _ _ (pt_sender p)); exact Ht | reflexivity].
  erewrite (bind_intro (upd_thread _ _)); [|apply (upd_thread_run _ _ (pt_receiver p)); simpl; by rewrite lookup_insert_ne by done | reflexivity].
  erewrite (bind_intro (upd_thread _ _)); [|apply upd_thread_run; simpl; apply lookup_insert_eq | reflexivity].
  unfold arch_thread_switch.
  match goal with |- context [bind (bind ?m _) _ ?st] => set (s5 := st) end.
  assert (Hl5 : exists n, threads s5 !! c_receiver (pt_d p) = Some n) by (eexists; simpl; apply lookup_insert_eq).
  destruct Hl5 as [n Hl5].
  erewrite (bind_intro (bind _ _)); [|rewrite (bind_intro _ _ _ _ _ _ (load_thread_run _ _ _ Hl5) eq_refl); reflexivity | reflexivity].
  eexists. split; [reflexivity|]. simpl. split; [|split; [|done]].
  - rewrite insert_insert_eq. unfold exchanged_threads. rewrite insert_insert_ne by done. f_equal. f_equal.
    unfold woken, set_ipc_buffer, ipc_buffer. simpl. by destruct (t_use_kbuf (pt_receiver p)) eqn:E; simpl; rewrite ?E.
  - unfold exchanged_channels. by rewrite insert_insert_ne by done.
Qed.

(** C4: the fast path does what the slow path does.  Whenever the fast path is
    taken, it leaves every thread and every channel exactly as [sys_ipc] with
    [IPC_SEND | IPC_RECV] would: the message is in the receiver's buffer, the
    receiver is runnable and the sender waits on its own channel.  The two differ
    only in who runs next: the fast path gives the CPU to the receiver and leaves
    the run queue alone, the slow path puts the receiver last in the run queue and
    runs the first thread in it. *)
Theorem fastpath_equals_slowpath (s : kstate) (cid : Z) (p : parties) (r : channel_t)
    (Hready : ready s cid p) (Hheader : FASTPATH_HEADER_TEST (header (ipc_buffer (pt_sender p))) = true)
    (Hr : channels s !! c_transfer_to (pt_c p) = Some r) (Hopen : c_destructed r = false)
    (Hfree : c_receiver r = NULL) (Hqueue : c_queue r = []) :
  let x := c_transfer_to (pt_c p) in
  let kbuf := t_use_kbuf (pt_sender p) in
  exists s1 s2,
    sys_ipc_fastpath cid s = Done (CBlock [FRecvFast x kbuf], s1) /\
    sys_ipc cid (Z.lor IPC_SEND IPC_RECV) s = Done (CBlock [FRecv x kbuf], s2) /\
    threads s1 = threads s2 /\ channels s1 = channels s2 /\
    current s1 = c_receiver (pt_d p) /\ runqueue s1 = runqueue s /\
    current s2 :: runqueue s2 = runqueue s ++ [c_receiver (pt_d p)].
Proof.
  intros x kbuf. destruct (fastpath_exchange s cid p r Hready Hheader Hr Hopen Hfree Hqueue) as (s1 & E1 & T1 & C1 & U1 & Q1).
  destruct (slowpath_exchange s cid p r (Z.lor IPC_SEND IPC_RECV) Hready (fastpath_plain _ Hheader) eq_refl eq_refl Hr Hopen Hfree Hqueue)
    as (s2 & E2 & T2 & C2 & Q2).
  exists s1, s2. rewrite T1, T2, C1, C2. auto 10.
Qed.

(** System calls of the first process that leave it with a linked pair of channels
    2 and 3, and then a send on 2 of a message in its buffer. *)
Definition linked_pair : list (Z * Z * Z) := [(0, 0, SYSCALL_OPEN); (0, 0, SYSCALL_OPEN); (2, 3, SYSCALL_LINK)].
Definition pair_send (flags : Z) : K unit :=
  after_boot linked_pair ;;; run [EUser 0 (printchar_msg 65); ESyscall 2 0 flags].
Definition pair_sent (flags : Z) (u : Z -> message) : kstate := state_of (boot_memory u) (pair_send flags (boot_memory u)).

(** A non-blocking call that also receives is not non-blocking.  The dispatcher
    ignores [IPC_NOBLOCK] when it selects the fast path, and the fast path falls
    back to [sys_ipc] without it: the call with the flag is the call without it.
    On a pair of channels on which nobody receives, [IPC_NOBLOCK] alone makes a
    send return; together with [IPC_RECV] it leaves the caller in the queue of
    senders, and the machine with nothing to run. *)
Theorem noblock_ignored (u : Z -> message) :
  (forall a b s, syscall_handler a b (Z.lor (Z.lor IPC_SEND IPC_RECV) IPC_NOBLOCK) s =
                 syscall_handler a b (Z.lor IPC_SEND IPC_RECV) s) /\
  (exists s t, pair_send (Z.lor IPC_SEND IPC_NOBLOCK) (boot_memory u) = Done (tt, s) /\
     threads s !! current s = Some t /\ t_kont t = [] /\ t_retval t = ERR_WOULD_BLOCK) /\
  (exists s, pair_send (Z.lor (Z.lor IPC_SEND IPC_RECV) IPC_NOBLOCK) (boot_memory u) = Done (tt, s) /\
     current s = idle_thread s /\ runqueue s = [] /\
     length (filter (fun tp => tp.2 <> Receiving (kernel_server_ch s)) (places (abs s))) = 1%nat).
Proof.
  split; [done|]. split.
  - exists (pair_sent (Z.lor IPC_SEND IPC_NOBLOCK) u).
    eexists. split; [vm_compute; reflexivity|]. split; [vm_compute; reflexivity|]. vm_compute. split; reflexivity.
  - exists (pair_sent (Z.lor (Z.lor IPC_SEND IPC_RECV) IPC_NOBLOCK) u).
    split; [vm_compute; reflexivity|]. split; [vm_compute; reflexivity|]. split; vm_compute; reflexivity.
Qed.

(** ** Examples *)

(** [memmgr] after boot, with a message for the kernel server in its buffer. *)
Definition ex_sending : kstate :=
  let s := started (fun _ => ex_message) in state_of s (run [EUser 0 (printchar_msg 65)] s).

Definition ex_get {A} (d : A) (o : option A) : A := match o with Some x => x | None => d end.
Definition ex_channel_t : channel_t := Channel 0 0 0 false 0 0 0 NULL [].
Definition ex_parties : parties :=
  let s := ex_sending in
  let t := ex_get (ex_thread 0 0 false) (threads s !! current s) in
  let ch := match channels_get (t_process t) 1 s with Done (x, _) => x | _ => NULL end in
  let chan x := ex_get ex_channel_t (channels s !! x) in
  let c := chan ch in
  let l := chan (c_linked_with c) in
  let d := chan (c_transfer_to l) in
  Parties t ch c l d (ex_get (ex_thread 0 0 false) (threads s !! c_receiver d)).

Lemma ex_sending_ready : ready ex_sending 1 ex_parties.
Proof.
  constructor; [split; [apply winv_b_sound; vm_compute; reflexivity | split; vm_compute; reflexivity] | ..];
    try (vm_compute; reflexivity); vm_compute; discriminate.
Qed.

Lemma ipc_send_delivers_witness :
  exists s' rt, sys_ipc 1 IPC_SEND ex_sending = Done (CRet OK, s') /\
    threads s' !! c_receiver (pt_d ex_parties) = Some rt /\ data (ipc_buffer rt) !! 0%nat = Some 65.
Proof.
  destruct (ipc_send_delivers ex_sending 1 IPC_SEND ex_parties ex_sending_ready) as (s' & rt & E & Hr & _ & _ & _ & _ & _ & Hd & _).
  - vm_compute. split; reflexivity.
  - vm_compute. reflexivity.
  - vm_compute. reflexivity.
  - vm_compute. discriminate.
  - exists s', rt. split; [exact E|]. split; [exact Hr|]. rewrite Hd. vm_compute. reflexivity.
Defined.

Lemma fastpath_equals_slowpath_witness : exists s1 s2,
  sys_ipc_fastpath 1 ex_sending = Done (CBlock [FRecvFast (c_transfer_to (pt_c ex_parties)) false], s1) /\
  sys_ipc 1 (Z.lor IPC_SEND IPC_RECV) ex_sending = Done (CBlock [FRecv (c_transfer_to (pt_c ex_parties)) false], s2) /\
  threads s1 = threads s2 /\ channels s1 = channels s2.
Proof.
  destruct (fastpath_equals_slowpath ex_sending 1 ex_parties (ex_get ex_channel_t (channels ex_sending !! c_transfer_to (pt_c ex_parties)))
    ex_sending_ready) as (s1 & s2 & E1 & E2 & Et & Ec & _); try (vm_compute; reflexivity).
  exists s1, s2. split; [exact E1|]. split; [exact E2|]. exact (conj Et Ec).
Defined.
