(* ===== verification/PageTransfer.v ===== *)
(** * Page payloads

    A message with a page payload moves pages from the address space of the
    sender to that of the receiver.  [sys_ipc] of [kernel/ipc.c] does this with
    [resolve_paddr_from_vaddr], [link_page] and [unlink_page] of
    [kernel/arch/x64/paging.c], on the page tables of two processes; here the
    theorems about IPC and about page tables are put together. *)
From S2P Require Import Prelude Message Arena Table KState Paging Thread Channel Vm Ipc Timer Proc KServer System WaitState IpcSafety IpcSpec.
Import Arena Tbl Paging Thread Chan Vm Ipc Tmr Proc KServer Sys.

(** The pool of table pages and the tables, as the page-table code sees them. *)
Definition pagemem_of (s : kstate) : pagemem := PageMem (page_arena s) (ptmem s).

(** Two page tables that share no table page. *)
Record two_tables (s : pagemem) (root1 root2 : Z) (o1 o2 : gmap Z (Z * Z)) : Prop := {
  two_wf1 : pt_wf root1 o1 s;
  two_pool1 : pool_ok o1 s;
  two_wf2 : pt_wf root2 o2 s;
  two_pool2 : pool_ok o2 s;
  two_disjoint : o1 ##ₘ o2
}.

(** [num] pages from [v] on, in one page table of the user half. *)
Record page_run (v num : Z) : Prop := {
  run_aligned : v mod PAGE_SIZE = 0;
  run_nonneg : 0 <= v;
  run_user : v + num * PAGE_SIZE <= 2 ^ 47;
  run_one_table : NTH_LEVEL_INDEX 1 v + num <= PAGE_ENTRY_NUM
}.

Definition in_run (v num w : Z) : bool := (v <=? w) && (w <? v + num * PAGE_SIZE).

(** The page that the sender names, and the place the receiver has for it. *)
Definition payload (p : parties) : Z := page (ipc_buffer (pt_sender p)).
Definition payload_pages (p : parties) : Z := 2 ^ PAGE_ORDER (payload p).
Definition accept_base (p : parties) : Z := PAGE_PAYLOAD_ADDR (t_page_base (pt_receiver p)).

(** A user thread waits for the message with room for the pages; the sender has
    them mapped from frame [paddr] on. *)
Record sends_page (s : kstate) (cid : Z) (p : parties) (sp rp : process) (paddr : Z) : Prop := {
  sg_ready : ready s cid p;
  sg_no_channel : Z.land (header (ipc_buffer (pt_sender p))) MSG_CHANNEL_PAYLOAD = 0;
  sg_page : truthy (Z.land (header (ipc_buffer (pt_sender p))) MSG_PAGE_PAYLOAD) = true;
  sg_sender : processes s !! t_process (pt_sender p) = Some sp;
  sg_receiver : processes s !! t_process (pt_receiver p) = Some rp;
  sg_user : t_use_kbuf (pt_receiver p) = false;
  sg_room : PAGE_ORDER (payload p) <= PAGE_ORDER (t_page_base (pt_receiver p));
  sg_base : is_valid_page_base_addr (accept_base p) = true;
  sg_src : page_run (PAGE_PAYLOAD_ADDR (payload p)) (payload_pages p);
  sg_dst : page_run (accept_base p) (payload_pages p);
  sg_mapped : resolve_paddr_from_vaddr (p_pml4 sp) (PAGE_PAYLOAD_ADDR (payload p)) (pagemem_of s) = Done (paddr, pagemem_of s);
  sg_present : paddr <> 0;
  sg_frames : paddr + payload_pages p * PAGE_SIZE < 2 ^ 63
}.

(** ** The two page tables *)

Lemma trans_frame n s t w : 0 <= trans n s t w /\ trans n s t w mod PAGE_SIZE = 0.
Proof.
  rewrite trans_find. destruct (find_table n s t w) as [t1|]; [|by vm_compute].
  destruct (entry_at s t1 _) as [e|]; [|by vm_compute]. destruct (e =? 0); [by vm_compute|].
  split; [apply ENTRY_PADDR_range|]. unfold PAGE_SIZE. change 4096 with (2 ^ 12).
  apply Z.bits_inj'. intros i Hi. rewrite Z.bits_0. destruct (Z.ltb_spec i 12);
    [|by rewrite Z.mod_pow2_bits_high by lia].
  rewrite Z.mod_pow2_bits_low by lia. unfold ENTRY_PADDR. rewrite Z.land_spec.
  replace (Z.testbit 0x7ffffffffffff000 i) with false; [by rewrite andb_false_r|].
  change 0x7ffffffffffff000 with (0x7ffffffffffff * 2 ^ 12). by rewrite Z.mul_pow2_bits_low.
Qed.

(** Linking in the second table and unlinking in the first. *)
Lemma move_pages s r1 r2 o1 o2 a base paddr num flags f1 f2 :
  two_tables s r1 r2 o1 o2 -> (3 <= length (free_objs (pm_arena s)))%nat ->
  1 <= num -> page_run a num -> page_run base num -> trans 3 s r1 a = paddr -> paddr <> 0 ->
  paddr + num * PAGE_SIZE < 2 ^ 63 -> 0 <= flags < 2 ^ 7 ->
  exists s1 s2 o2', link_page (S f1) r2 base paddr num flags s = Done (tt, s1) /\
    unlink_page (S f2) r1 a num s1 = Done (tt, s2) /\ two_tables s2 r1 r2 o1 o2' /\
    forall w, 0 <= w < 2 ^ 47 ->
      trans 3 s2 r1 w = (if in_run a num w then 0 else trans 3 s r1 w) /\
      trans 3 s2 r2 w = if in_run base num w then paddr + (w - w mod PAGE_SIZE - base) else trans 3 s r2 w.
Proof.
  intros [HW1 HP1 HW2 HP2 HD] Hfree Hn [Ha1 Ha2 Ha3 Ha4] [Hb1 Hb2 Hb3 Hb4] Ht Hp Hpr Hfl.
  destruct (trans_frame 3 s r1 a) as [Hp0 Hpa]. rewrite Ht in Hp0, Hpa.
  destruct (link_page_ok f1 r2 o2 s base paddr num flags) as (s1 & o2' & E1 & HW2' & HP2' & HF & Ht2); auto.
  destruct (framed_other r1 o1 o2 o2' s s1) as (HW1' & HP1' & HD' & Ht1); auto.
  assert (Hta : trans 3 s1 r1 a = paddr) by (rewrite Ht1; unfold PAGE_SIZE in *; [done | lia]).
  destruct (unlink_page_ok f2 r1 o1 s1 a num) as (s2 & E2 & HW1'' & HP1'' & HF2 & Ht3); auto.
  { rewrite trans_find in Hta. destruct (find_table 3 s1 r1 a); eauto. by subst paddr. }
  destruct (framed_other r2 o2' o1 o1 s1 s2) as (HW2'' & HP2'' & HD'' & Ht4); auto.
  exists s1, s2, o2'. split; [done|]. split; [done|]. split; [by constructor|].
  intros w Hw. rewrite Ht3, Ht1, Ht4, Ht2 by done. done.
Qed.

(** ** Page-table code in the kernel *)

Definition set_pagemem (pm : pagemem) (s : kstate) : kstate := set_ptmem (pm_tables pm) (set_page_arena (pm_arena pm) s).

Lemma on_pagemem_run {A} (m : M pagemem A) s x pm :
  m (pagemem_of s) = Done (x, pm) -> on_pagemem m s = Done (x, set_pagemem pm s).
Proof. unfold on_pagemem. fold (pagemem_of s). by intros ->. Qed.

Lemma on_pagemem_read {A} (m : M pagemem A) s x :
  m (pagemem_of s) = Done (x, pagemem_of s) -> on_pagemem m s = Done (x, s).
Proof. intros H. rewrite (on_pagemem_run _ _ _ _ H). by destruct s. Qed.

Lemma page_table_of_run s a p : processes s !! a = Some p -> page_table_of a s = Done (p_pml4 p, s).
Proof. intros H. unfold page_table_of. by rewrite (bind_intro _ _ _ _ _ _ (load_process_run _ _ _ H) eq_refl). Qed.

Lemma num_pages_run v page : page_run v (2 ^ PAGE_ORDER page) ->
  s32 (POW2 (PAGE_ORDER page)) = 2 ^ PAGE_ORDER page /\ 1 <= 2 ^ PAGE_ORDER page.
Proof.
  intros H. pose proof (run_one_table _ _ H) as H1. pose proof (NTH_LEVEL_INDEX_range 1 v ltac:(lia)).
  assert (0 <= PAGE_ORDER page) by (rewrite PAGE_ORDER_mod; apply Z.mod_pos_bound; lia).
  assert (0 < 2 ^ PAGE_ORDER page) by (apply Z.pow_pos_nonneg; lia).
  unfold POW2, s32, PAGE_ENTRY_NUM in *. rewrite Z.shiftl_1_l. split; [|lia]. rewrite Z.mod_small; lia.
Qed.

(** The receiver, runnable, with the message in its buffer and the page in it. *)
Definition paged (p : parties) : thread :=
  set_t_blocked false
    (set_t_info_msg (set_page (PAGE_PAYLOAD (accept_base p) (PAGE_ORDER (payload p))) (t_info_msg (filled p))) (filled p)).

Lemma ipc_buffer_paged p : t_use_kbuf (pt_receiver p) = false ->
  ipc_buffer (paged p) =
    set_page (PAGE_PAYLOAD (accept_base p) (PAGE_ORDER (payload p)))
      (delivered (ipc_buffer (pt_sender p)) (c_cid (pt_l p)) (ipc_buffer (pt_receiver p))).
Proof. intros H. unfold paged, filled, set_ipc_buffer, ipc_buffer at 1. rewrite H. simpl. by rewrite H. Qed.

Definition after_page (s : kstate) (p : parties) (pm : pagemem) : kstate :=
  set_runqueue (runqueue s ++ [c_receiver (pt_d p)])
    (set_threads (<[c_receiver (pt_d p) := paged p]> (threads s))
      (set_pagemem pm (set_channels (<[c_transfer_to (pt_l p) := set_c_receiver NULL (pt_d p)]> (channels s)) s))).

(** The system call, given what the page-table code does. *)
Lemma sys_ipc_paged s cid syscall p sp rp paddr pm1 pm2 :
  sends_page s cid p sp rp paddr ->
  truthy (Z.land syscall IPC_SEND) = true -> truthy (Z.land syscall IPC_RECV) = false ->
  link_page LINK_FUEL (p_pml4 rp) (accept_base p) paddr (payload_pages p) (Z.lor PAGE_USER PAGE_WRITABLE) (pagemem_of s) =
    Done (tt, pm1) ->
  unlink_page (S (Z.to_nat (payload_pages p))) (p_pml4 sp) (PAGE_PAYLOAD_ADDR (payload p)) (payload_pages p) pm1 = Done (tt, pm2) ->
  sys_ipc cid syscall s = Done (CRet OK, after_page s p pm2).
Proof.
  intros [Hrd Hc Hpg Hsp Hrp Hu Hroom Hb Hsrc Hdst Hm Hp0 _] Hsend Hrecv E1 E2.
  destruct (ready_blocked s cid p Hrd) as (Hbt & Hne & Hq). destruct (num_pages_run _ _ Hsrc) as [Hnum _].
  unfold sys_ipc. rewrite (sys_ipc_copied _ s cid p syscall Hrd Hc Hsend), Hpg.
  destruct Hrd as [(_ & Ht & _) _ _ _ _ _ _ _ _ _].
  set (s1 := copied s p). assert (Hcur : threads s1 !! current s1 = Some (pt_sender p)).
  { unfold s1. simpl. by rewrite lookup_insert_ne by done. }
  assert (Hfil : threads s1 !! c_receiver (pt_d p) = Some (filled p)) by apply lookup_insert_eq.
  assert (Hfu : t_use_kbuf (filled p) = false /\ t_page_base (filled p) = t_page_base (pt_receiver p) /\
    t_process (filled p) = t_process (pt_receiver p) /\ t_blocked (filled p) = true).
  { unfold filled, set_ipc_buffer. by rewrite Hu. }
  destruct Hfu as (Hfu & Hfb & Hfp & Hfbl).
  unfold ipc_page_payload, CURRENT, gets, bind at 1.
  rewrite (bind_intro _ _ _ _ _ _ (load_thread_run _ _ _ Hcur) eq_refl), (bind_intro _ _ _ _ _ _ (load_thread_run _ _ _ Hfil) eq_refl).
  rewrite (bind_intro _ _ _ _ _ _ (page_table_of_run s1 _ _ Hsp) eq_refl).
  rewrite (bind_intro _ _ _ _ _ _ (on_pagemem_read _ s1 _ Hm) eq_refl), (proj2 (Z.eqb_neq _ _) Hp0).
  unfold ipc_send_page, CURRENT, gets, bind at 1.
  rewrite (bind_intro _ _ _ _ _ _ (load_thread_run _ _ _ Hcur) eq_refl), (bind_intro _ _ _ _ _ _ (load_thread_run _ _ _ Hfil) eq_refl).
  change (page (buf _ (pt_sender p))) with (payload p). rewrite Hfu, Hfb, Hfp, Hnum. fold (accept_base p) (payload_pages p).
  rewrite (proj2 (Z.ltb_ge _ _) Hroom), Hb. cbn [orb negb].
  rewrite (bind_intro _ _ _ _ _ _ (page_table_of_run s1 _ _ Hrp) eq_refl).
  rewrite (bind_intro _ _ _ _ _ _ (on_pagemem_run _ s1 _ _ E1) eq_refl).
  erewrite (bind_intro (upd_thread _ _)); [|apply (upd_thread_run _ _ (filled p)); exact Hfil | reflexivity].
  erewrite (bind_intro (page_table_of _)); [|apply (page_table_of_run _ _ sp); exact Hsp | reflexivity].
  erewrite (bind_intro (on_pagemem _)); [| apply on_pagemem_run; destruct pm1; exact E2 | reflexivity].
  unfold ipc_sent. rewrite Hrecv. erewrite (bind_intro (thread_resume _)); [reflexivity | | reflexivity].
  erewrite thread_resume_run; [| apply lookup_insert_eq | by rewrite Hu | exact Hq].
  unfold after_page, paged. rewrite Hu. simpl. by rewrite !insert_insert_eq.
Qed.

(** C3: pages move with a message.  A thread sends a message with a page payload, and no
    channel payload, to a user thread that already waits with room for it; the run of pages
    lies within one page table of 2 MiB on both sides, the first page is mapped in the
    sender, to the frame [paddr], and three pages are free for new page tables.  The send
    returns [OK] and wakes the receiver, whose message names the place it accepts pages at.
    The pages of this place now resolve to consecutive frames from [paddr] on, which are
    the frames the sender had if those were consecutive (the kernel looks at the first page
    only), the pages of the payload no longer resolve in the sender, and every other user
    address of both processes resolves to what it did before.  The two page tables stay
    well-formed and disjoint. *)
Theorem page_payload_moves (s : kstate) (cid syscall : Z) (p : parties) (sp rp : process) (paddr : Z)
    (o1 o2 : gmap Z (Z * Z))
    (Hsends : sends_page s cid p sp rp paddr)
    (Hsend : truthy (Z.land syscall IPC_SEND) = true) (Hrecv : truthy (Z.land syscall IPC_RECV) = false)
    (Htables : two_tables (pagemem_of s) (p_pml4 sp) (p_pml4 rp) o1 o2)
    (Hfree : (3 <= length (free_objs (page_arena s)))%nat) :
  exists s' rt o2', sys_ipc cid syscall s = Done (CRet OK, s') /\
    threads s' !! c_receiver (pt_d p) = Some rt /\ t_blocked rt = false /\
    header (ipc_buffer rt) = header (ipc_buffer (pt_sender p)) /\
    page (ipc_buffer rt) = PAGE_PAYLOAD (accept_base p) (PAGE_ORDER (payload p)) /\
    processes s' = processes s /\ two_tables (pagemem_of s') (p_pml4 sp) (p_pml4 rp) o1 o2' /\
    forall w, 0 <= w < 2 ^ 47 -> exists x y,
      resolve_paddr_from_vaddr (p_pml4 sp) w (pagemem_of s) = Done (x, pagemem_of s) /\
      resolve_paddr_from_vaddr (p_pml4 rp) w (pagemem_of s) = Done (y, pagemem_of s) /\
      resolve_paddr_from_vaddr (p_pml4 sp) w (pagemem_of s') =
        Done (if in_run (PAGE_PAYLOAD_ADDR (payload p)) (payload_pages p) w then 0 else x, pagemem_of s') /\
      resolve_paddr_from_vaddr (p_pml4 rp) w (pagemem_of s') =
        Done (if in_run (accept_base p) (payload_pages p) w
              then paddr + (w - w mod PAGE_SIZE - accept_base p) else y, pagemem_of s').
Proof.
  pose proof Hsends as [Hrd _ _ _ _ Hu _ _ Hsrc Hdst Hm Hp0 Hfr]. pose proof Htables as [HW1 _ HW2 _ _].
  destruct (num_pages_run _ _ Hsrc) as [_ Hn]. pose proof (run_user _ _ Hsrc). pose proof (run_nonneg _ _ Hsrc).
  fold (payload_pages p) in Hn.
  assert (Hpa : trans 3 (pagemem_of s) (p_pml4 sp) (PAGE_PAYLOAD_ADDR (payload p)) = paddr).
  { rewrite (resolve_spec _ o1) in Hm; [congruence | done | unfold PAGE_SIZE in *; lia]. }
  destruct (move_pages _ _ _ _ _ _ _ paddr _ (Z.lor PAGE_USER PAGE_WRITABLE) 1 (Z.to_nat (payload_pages p))
    Htables Hfree Hn Hsrc Hdst Hpa Hp0 Hfr) as (pm1 & pm2 & o2' & E1 & E2 & Htwo & Ht); [vm_compute; split; congruence|].
  exists (after_page s p pm2), (paged p), o2'.
  assert (Epm : pagemem_of (after_page s p pm2) = pm2) by (by destruct pm2). rewrite Epm.
  pose proof Htwo as [HW1' _ HW2' _ _].
  split; [by eapply sys_ipc_paged|]. split; [apply lookup_insert_eq|]. split; [done|].
  rewrite (ipc_buffer_paged p Hu). do 4 (split; [done|]). intros w Hw. destruct (Ht w Hw) as [T1 T2].
  exists (trans 3 (pagemem_of s) (p_pml4 sp) w), (trans 3 (pagemem_of s) (p_pml4 rp) w).
  rewrite (resolve_spec _ o1 _ w HW1 Hw), (resolve_spec _ o2 _ w HW2 Hw), (resolve_spec _ o1 _ w HW1' Hw), (resolve_spec _ o2' _ w HW2' Hw).
  by rewrite T1, T2.
Qed.

(** ** An example: two processes, one of which sends two pages *)

Definition pair_mem0 : pagemem :=
  PageMem (pm_arena demo_mem) {[ 0x1000 := replicate 512 0; 0x2000 := replicate 512 0 ]}.
Definition pair_mem : pagemem :=
  match link_page 1 0x1000 0x200000 0x80000000 2 PAGE_USER pair_mem0 with Done (_, s) => s | _ => pair_mem0 end.

Lemma pair_pool0 root : into_paddr demo_base > root -> pool_ok {[ root := (4, 0) ]} pair_mem0.
Proof.
  intros Hr. destruct demo_pool as [H1 H2 H3 H4]. constructor; auto.
  intros q Hq. destruct (H3 q Hq) as (Hq1 & Hq2 & Hq3 & _). repeat split; try done; try lia.
  apply lookup_singleton_ne. change (q ∈ free_objs (pm_arena demo_mem)) in Hq. rewrite demo_free in Hq.
  apply list_elem_of_fmap in Hq as (i & -> & Hi). intros ->. revert Hr.
  repeat (apply elem_of_cons in Hi as [->|Hi]; [vm_compute; congruence|]). by apply elem_of_nil in Hi.
Qed.

Lemma pair_two : exists o1 o2, two_tables pair_mem 0x1000 0x2000 o1 o2.
Proof.
  assert (HW1 : pt_wf 0x1000 {[ 0x1000 := (4, 0) ]} pair_mem0) by (apply zero_root_wf; [reflexivity | lia | reflexivity]).
  assert (HW2 : pt_wf 0x2000 {[ 0x2000 := (4, 0) ]} pair_mem0) by (apply zero_root_wf; [reflexivity | lia | reflexivity]).
  assert (HP1 : pool_ok {[ 0x1000 := (4, 0) ]} pair_mem0) by (apply pair_pool0; reflexivity).
  assert (HP2 : pool_ok {[ 0x2000 := (4, 0) ]} pair_mem0) by (apply pair_pool0; reflexivity).
  destruct (link_page_ok 0 0x1000 _ pair_mem0 0x200000 0x80000000 2 PAGE_USER HW1 HP1) as (s & o1 & E & HW & HP & HF & _).
  1: vm_compute; lia.
  1: reflexivity.
  1, 2, 3: unfold PAGE_SIZE; lia.
  1: vm_compute; congruence.
  1: reflexivity.
  1, 2, 3: unfold PAGE_SIZE, PAGE_USER; lia.
  assert (HD0 : ({[ 0x2000 := (4, 0) ]} : gmap Z (Z * Z)) ##ₘ {[ 0x1000 := (4, 0) ]}).
  { apply map_disjoint_singleton_l_2. by rewrite lookup_singleton_ne. }
  destruct (framed_other 0x2000 _ _ o1 pair_mem0 s HW2 HP2 HD0 HF HP) as (HW2' & HP2' & HD & _).
  exists o1, {[ 0x2000 := (4, 0) ]}. unfold pair_mem. rewrite E. by constructor.
Qed.

(** The addresses of the threads. *)
Definition at_arena (n : Z) : Z := OBJECT_ARENA_ADDR + n * OBJ_MAX_SIZE.
Definition pair_sender : thread :=
  set_t_info_msg (set_page (PAGE_PAYLOAD 0x200000 1) (set_header MSG_PAGE_PAYLOAD ex_message)) (ex_thread 1 0x100 false).
Definition pair_receiver : thread :=
  set_t_kont [FRecv 0xb0 false; FSyscall] (set_t_page_base (PAGE_PAYLOAD 0x600000 3) (ex_thread 2 0x200 true)).
Definition pair_process (pml4 : Z) : process :=
  Process 1 [] [] [] pml4 (Table 0 (<[1%nat := 0xa0]> (replicate 8 0)) 8) [].
Definition pair_kernel : kstate :=
  set_pagemem pair_mem
    (set_processes {[ 0x100 := pair_process 0x1000; 0x200 := pair_process 0x2000 ]}
      (set_channels {[ 0xa0 := Channel 0x100 1 2 false 0 0xb0 0xa0 NULL []; 0xb0 := Channel 0x200 5 2 false 0 0xa0 0xb0 (at_arena 2) [] ]}
        (set_threads {[ at_arena 1 := pair_sender; at_arena 2 := pair_receiver; at_arena 3 := ex_thread 3 0x100 true ]}
          (set_current (at_arena 1) (set_idle_thread (at_arena 3) ex_kstate))))).
Definition pair_parties : parties :=
  Parties pair_sender 0xa0 (Channel 0x100 1 2 false 0 0xb0 0xa0 NULL []) (Channel 0x200 5 2 false 0 0xa0 0xb0 (at_arena 2) [])
    (Channel 0x200 5 2 false 0 0xa0 0xb0 (at_arena 2) []) pair_receiver.

Lemma pair_sends : sends_page pair_kernel 1 pair_parties (pair_process 0x1000) (pair_process 0x2000) 0x80000000.
Proof.
  constructor; try (vm_compute; reflexivity); try (vm_compute; discriminate).
  - constructor; [split; [apply winv_b_sound; vm_compute; reflexivity | split; vm_compute; reflexivity] | ..];
      try (vm_compute; reflexivity); vm_compute; discriminate.
  - constructor; vm_compute; congruence.
  - constructor; vm_compute; congruence.
Qed.

Lemma page_payload_moves_witness :
  exists s', sys_ipc 1 IPC_SEND pair_kernel = Done (CRet OK, s') /\
    resolve_paddr_from_vaddr 0x1000 0x201000 (pagemem_of s') = Done (0, pagemem_of s') /\
    resolve_paddr_from_vaddr 0x2000 0x601000 (pagemem_of s') = Done (0x80001000, pagemem_of s').
Proof.
  destruct pair_two as (o1 & o2 & Htwo).
  destruct (page_payload_moves pair_kernel 1 IPC_SEND pair_parties (pair_process 0x1000) (pair_process 0x2000) 0x80000000 o1 o2)
    as (s' & rt & o2' & E & _ & _ & _ & _ & _ & _ & H).
  - exact pair_sends.
  - reflexivity.
  - reflexivity.
  - exact Htwo.
  - vm_compute. lia.
  - exists s'. split; [exact E|].
    destruct (H 0x201000 ltac:(lia)) as (x & y & _ & _ & H1 & _). destruct (H 0x601000 ltac:(lia)) as (x' & y' & _ & _ & _ & H2).
    split; [exact H1 | exact H2].
Defined.
