(* ===== verification/Util.v ===== *)
(** * Utilities of the user library

    [libs/libresea/math.c] and [libs/libresea/vector.c]. *)
From S2P Require Import Prelude Message CString.
Import CStr.

Module Math.

(** The loop of [ulllog2]; 64 rounds empty every [unsigned long long]. *)
Fixpoint ulllog2_loop (fuel : nat) (x ans : Z) : outcome Z :=
  if truthy x then
    match fuel with
    | O => Fuel
    | S fuel => ulllog2_loop fuel (Z.shiftr x 1) (ans + 1)
    end
  else Done ans.

Definition ulllog2 (x : Z) : outcome Z := ulllog2_loop 64 x 0.

Fixpoint pow2_loop (fuel : nat) (x : Z) : outcome bool :=
  if negb (x =? 1) then
    match fuel with
    | O => Fuel
    | S fuel => if negb (x mod 2 =? 0) then Done false else pow2_loop fuel (Z.shiftr x 1)
    end
  else Done true.

Definition is_power_of_two (x : Z) : outcome bool := if x =? 0 then Done true else pow2_loop 64 x.

End Math.
Import Math.

Lemma ulllog2_loop_ok fuel : forall x ans,
  0 <= x < 2 ^ Z.of_nat fuel ->
  ulllog2_loop fuel x ans = Done (ans + (if x =? 0 then 0 else Z.log2 x + 1)).
Proof.
  induction fuel as [|fuel IH]; intros x ans Hx.
  - assert (x = 0) as -> by (simpl in Hx; lia). simpl. by rewrite Z.add_0_r.
  - cbn [ulllog2_loop]. unfold truthy. destruct (Z.eqb_spec x 0) as [->|Hne]; simpl; [by rewrite Z.add_0_r|].
    rewrite Nat2Z.inj_succ, Z.pow_succ_r in Hx by lia.
    rewrite Z.shiftr_div_pow2 by lia. change (2 ^ 1) with 2.
    assert (0 <= x / 2 < 2 ^ Z.of_nat fuel).
    { split; [apply Z.div_pos; lia | apply Z.div_lt_upper_bound; lia]. }
    rewrite IH by done. f_equal.
    destruct (Z.eqb_spec (x / 2) 0) as [Hz|Hz].
    + assert (x = 1) as -> by (pose proof (Z.div_mod x 2); pose proof (Z.mod_pos_bound x 2); lia).
      change (Z.log2 1) with 0. lia.
    + assert (2 <= x) by (destruct (Z.le_gt_cases 2 x); [done|]; rewrite Z.div_small in Hz by lia; done).
      assert (1 <= Z.log2 x) by (apply Z.log2_le_pow2; lia).
      pose proof (Z.log2_shiftr x 1 ltac:(lia)) as Hl. rewrite Z.shiftr_div_pow2 in Hl by lia.
      change (2 ^ 1) with 2 in Hl. lia.
Qed.

(** [ulllog2] returns the number of significant bits of its argument, for every
    64-bit value: 0 for 0 and [log2 x + 1] for [x] > 0.  So for the powers of two
    its comment asks for, it is one more than the logarithm. *)
Theorem ulllog2_bits (x : Z) (Hx : 0 <= x < 2 ^ 64) :
  ulllog2 x = Done (if x =? 0 then 0 else Z.log2 x + 1).
Proof. unfold ulllog2. rewrite ulllog2_loop_ok by done. done. Qed.

Lemma ulllog2_bits_witness : ulllog2 8 = Done 4.
Proof. apply (ulllog2_bits 8). lia. Defined.

Lemma pow2_loop_ok fuel : forall x, 0 < x < 2 ^ Z.of_nat fuel ->
  exists b, pow2_loop fuel x = Done b /\ (b = true <-> exists k, 0 <= k /\ x = 2 ^ k).
Proof.
  induction fuel as [|fuel IH]; intros x Hx; [simpl in Hx; lia|].
  cbn [pow2_loop]. destruct (Z.eqb_spec x 1) as [->|Hne]; simpl.
  { exists true. split; [done|]. split; [|done]. intros _. by exists 0. }
  rewrite Nat2Z.inj_succ, Z.pow_succ_r in Hx by lia.
  pose proof (Z.div_mod x 2). pose proof (Z.mod_pos_bound x 2).
  destruct (Z.eqb_spec (x mod 2) 0) as [Hm|Hm]; simpl.
  - rewrite Z.shiftr_div_pow2 by lia. change (2 ^ 1) with 2.
    destruct (IH (x / 2)) as (b & -> & Hb).
    { split; [apply Z.div_str_pos; lia | apply Z.div_lt_upper_bound; lia]. }
    exists b. split; [done|]. rewrite Hb. split; intros (k & Hk & Hx').
    + exists (k + 1). split; [lia|]. rewrite Z.pow_add_r by lia. lia.
    + exists (k - 1). destruct (Z.eq_dec k 0) as [->|]; [simpl in Hx'; lia|]. split; [lia|].
      replace k with ((k - 1) + 1) in Hx' by lia. rewrite Z.pow_add_r in Hx' by lia. lia.
  - exists false. split; [done|]. split; [done|]. intros (k & Hk & Hx'). exfalso. apply Hm.
    destruct (Z.eq_dec k 0) as [->|]; [simpl in Hx'; lia|].
    rewrite Hx'. replace k with ((k - 1) + 1) by lia. rewrite Z.pow_add_r by lia.
    change (2 ^ 1) with 2. apply Z.mod_mul. lia.
Qed.

(** [is_power_of_two] returns for every 64-bit value, and answers true exactly
    for 0 and the powers of two. *)
Theorem is_power_of_two_correct (x : Z) (Hx : 0 <= x < 2 ^ 64) :
  exists b, is_power_of_two x = Done b /\ (b = true <-> x = 0 \/ exists k, 0 <= k /\ x = 2 ^ k).
Proof.
  unfold is_power_of_two. destruct (Z.eqb_spec x 0) as [->|Hne].
  - exists true. tauto.
  - destruct (pow2_loop_ok 64 x) as (b & -> & Hb); [lia|]. exists b. split; [done|]. rewrite Hb. naive_solver.
Qed.

Lemma is_power_of_two_correct_witness :
  exists b, is_power_of_two 96 = Done b /\ (b = true <-> 96 = 0 \/ exists k, 0 <= k /\ 96 = 2 ^ k).
Proof. apply (is_power_of_two_correct 96). lia. Defined.

(** ** vector.c *)

(** [struct vector]; the elements are pointers, [None] in the part of the buffer
    that was never written. *)
Record vector := Vector { vbuf : list (option Z); vsize : Z; vcapacity : Z }.

Module Vec.

Definition vector_new : vector := Vector [None] 0 1.

Definition vector_size (v : vector) : Z := vsize v.
Definition vector_is_empty (v : vector) : bool := vsize v =? 0.

(** [vec->buf[index]], without a check of the index. *)
Definition vector_get (v : vector) (index : Z) : outcome Z :=
  match arr_get (vbuf v) index with Some (Some x) => Done x | _ => Undef end.

Definition vector_set (v : vector) (index data : Z) : outcome vector :=
  if index <? vsize v then
    match arr_set (vbuf v) index (Some data) with
    | Some b => Done (Vector b (vsize v) (vcapacity v))
    | None => Undef
    end
  else Panic.

Definition vector_resize (v : vector) (new_capacity : Z) : outcome vector :=
  if vcapacity v <? new_capacity then
    outcome_bind (memcpy_s (replicate (Z.to_nat new_capacity) None) new_capacity (vbuf v) (vcapacity v))
      (fun b => Done (Vector b (vsize v) new_capacity))
  else Panic.

Definition vector_append (v : vector) (data : Z) : outcome vector :=
  outcome_bind
    (if vsize v =? vcapacity v
     then outcome_bind (int_add (vcapacity v) (vcapacity v)) (vector_resize v) else Done v)
    (fun v =>
       match arr_set (vbuf v) (vsize v) (Some data) with
       | Some b => Done (Vector b (vsize v + 1) (vcapacity v))
       | None => Undef
       end).

Definition vector_pop (v : vector) : outcome (Z * vector) :=
  if 0 <? vsize v then
    match arr_get (vbuf v) (vsize v - 1) with
    | Some (Some x) => Done (x, Vector (vbuf v) (vsize v - 1) (vcapacity v))
    | _ => Undef
    end
  else Panic.

End Vec.
Import Vec.

(** [v] holds the sequence [l]. *)
Record vec_rep (v : vector) (l : list Z) : Prop := {
  vr_size : vsize v = Z.of_nat (length l);
  vr_cap : vcapacity v = Z.of_nat (length (vbuf v));
  vr_pos : 1 <= vcapacity v < 2 ^ 31;
  vr_data : exists rest, vbuf v = map Some l ++ rest
}.

Inductive vec_op := VAppend (x : Z) | VPop | VGet (i : Z) | VSet (i x : Z).

(** The vector as a sequence: [None] where the code has no defined result, except
    for an index between the size and the capacity, which is not checked. *)
Definition vec_spec (op : vec_op) (l : list Z) : option (Z * list Z) :=
  match op with
  | VAppend x => Some (0, l ++ [x])
  | VPop => match reverse l with x :: r => Some (x, reverse r) | [] => None end
  | VGet i => x ← arr_get l i; Some (x, l)
  | VSet i x => l' ← arr_set l i x; Some (0, l')
  end.

Definition vec_impl (op : vec_op) (v : vector) : outcome (Z * vector) :=
  match op with
  | VAppend x => outcome_bind (vector_append v x) (fun v => Done (0, v))
  | VPop => vector_pop v
  | VGet i => outcome_bind (vector_get v i) (fun x => Done (x, v))
  | VSet i x => outcome_bind (vector_set v i x) (fun v => Done (0, v))
  end.

Lemma vec_append_ok v l x :
  vec_rep v l -> vcapacity v < 2 ^ 30 ->
  exists v', vector_append v x = Done v' /\ vec_rep v' (l ++ [x]).
Proof.
  intros [Hs Hc Hp [rest Hd]] Hcap. unfold vector_append.
  assert (Hroom : exists rest' cap, rest' <> [] /\ 1 <= cap < 2 ^ 31 /\
    cap = Z.of_nat (length (map Some l ++ rest')) /\
    (if vsize v =? vcapacity v
     then outcome_bind (int_add (vcapacity v) (vcapacity v)) (vector_resize v) else Done v) =
    Done (Vector (map Some l ++ rest') (Z.of_nat (length l)) cap)).
  { rewrite Hd, length_app, length_map in Hc. destruct (Z.eqb_spec (vsize v) (vcapacity v)) as [Heq|Hne].
    - assert (rest = []) as -> by (destruct rest; [done | simpl in Hc; lia]). rewrite app_nil_r in Hd.
      exists (replicate (length l) None), (vcapacity v + vcapacity v).
      rewrite length_app, length_map, length_replicate. split; [destruct l; simpl in *; [lia | done]|].
      split; [lia|]. split; [lia|]. unfold int_add.
      destruct (Z.leb_spec (- 2 ^ 31) (vcapacity v + vcapacity v)); [|lia].
      destruct (Z.ltb_spec (vcapacity v + vcapacity v) (2 ^ 31)); [|lia]. simpl. unfold vector_resize.
      destruct (Z.ltb_spec (vcapacity v) (vcapacity v + vcapacity v)); [|lia].
      unfold memcpy_s. destruct (Z.leb_spec (vcapacity v) (vcapacity v + vcapacity v)); [|lia].
      rewrite memcpy_ok; [| rewrite length_replicate; lia | rewrite Hd, length_map; lia].
      cbn [outcome_bind]. rewrite Hd, take_ge by (rewrite length_map; lia). rewrite drop_replicate. rewrite Hs.
      replace (Z.to_nat (vcapacity v + vcapacity v) - Z.to_nat (vcapacity v))%nat with (length l) by lia. done.
    - exists rest, (vcapacity v). rewrite length_app, length_map.
      split; [destruct rest; [simpl in Hc; lia | done]|]. split; [lia|]. split; [lia|].
      destruct v as [b sz cap]. simpl in *. by subst. }
  destruct Hroom as (rest' & cap & Hne & Hr & Hc' & ->). cbn [outcome_bind vbuf vsize vcapacity].
  destruct rest' as [|y rest']; [done|]. rewrite length_app, length_map in Hc'. simpl in Hc'.
  rewrite arr_set_Some by (rewrite length_app, length_map; simpl; lia).
  replace (Z.to_nat (Z.of_nat (length l))) with (length (map Some l)) by (rewrite length_map; lia).
  rewrite insert_middle. eexists. split; [reflexivity|]. constructor; cbn [vbuf vsize vcapacity].
  - rewrite length_app. simpl. lia.
  - rewrite length_app, length_map. simpl. lia.
  - lia.
  - exists rest'. by rewrite map_app, <- app_assoc.
Qed.

Lemma vec_append_capacity v x v' :
  vector_append v x = Done v' ->
  vcapacity v' = if vsize v =? vcapacity v then vcapacity v + vcapacity v else vcapacity v.
Proof.
  unfold vector_append. destruct (vsize v =? vcapacity v); simpl.
  - unfold int_add. destruct (_ && _); [|done]. simpl. unfold vector_resize.
    destruct (_ <? _); [|done]. destruct (memcpy_s _ _ _ _); try done. simpl.
    destruct (arr_set _ _ _); [|done]. by intros [= <-].
  - destruct (arr_set _ _ _); [|done]. by intros [= <-].
Qed.

(** A vector is a sequence.  Each operation of [vector.c] on a vector that holds
    [l] gives the result and leaves the sequence that the operation on sequences
    gives, as long as the capacity can still be doubled as an [int]. *)
Theorem vector_refines_sequence (v : vector) (l : list Z) (op : vec_op) (r : Z) (l' : list Z)
    (Hv : vec_rep v l) (Hcap : vcapacity v < 2 ^ 30) (Hspec : vec_spec op l = Some (r, l')) :
  exists v', vec_impl op v = Done (r, v') /\ vec_rep v' l'.
Proof.
  destruct op as [x| |i|i x]; simpl in Hspec |- *.
  - injection Hspec as <- <-. destruct (vec_append_ok v l x Hv Hcap) as (v' & -> & H). simpl. eauto.
  - destruct Hv as [Hs Hc Hp [rest Hd]]. destruct (reverse l) as [|x q] eqn:Hrev; [done|].
    injection Hspec as <- <-. assert (l = reverse q ++ [x]) as -> by (rewrite <- reverse_cons, <- Hrev; by rewrite reverse_involutive).
    rewrite length_app in Hs. simpl in Hs. unfold vector_pop. destruct (Z.ltb_spec 0 (vsize v)); [|lia].
    assert (arr_get (vbuf v) (vsize v - 1) = Some (Some x)) as ->.
    { apply arr_get_Some. split; [lia|]. rewrite Hd, map_app, <- app_assoc. simpl.
      apply list_lookup_middle. rewrite length_map. lia. }
    eexists. split; [reflexivity|]. constructor; simpl; [lia | done | done |].
    exists (Some x :: rest). by rewrite Hd, map_app, <- app_assoc.
  - destruct (arr_get l i) as [x|] eqn:Hi; simpl in Hspec; [|done]. injection Hspec as <- <-.
    apply arr_get_Some in Hi as [Hi0 Hi]. unfold vector_get.
    assert (arr_get (vbuf v) i = Some (Some x)) as ->; [|simpl; eauto].
    apply arr_get_Some. split; [done|]. destruct (vr_data _ _ Hv) as [rest ->].
    apply lookup_app_l_Some. by rewrite list_lookup_fmap, Hi.
  - destruct (arr_set l i x) as [l1|] eqn:Hi; simpl in Hspec; [|done]. injection Hspec as <- <-.
    apply arr_set_inv in Hi as [Hi ->]. destruct Hv as [Hs Hc Hp [rest Hd]]. unfold vector_set.
    destruct (Z.ltb_spec i (vsize v)); [|lia].
    rewrite arr_set_Some by (rewrite Hd, length_app, length_map; lia). simpl.
    eexists. split; [reflexivity|]. constructor; simpl; rewrite ?length_insert; [done | done | done |].
    exists rest. rewrite Hd, insert_app_l by (rewrite length_map; lia). f_equal.
    by rewrite list_fmap_insert.
Qed.

Lemma vector_refines_sequence_witness :
  exists v', vec_impl (VAppend 7) (Vector [Some 5] 1 1) = Done (0, v') /\ vec_rep v' [5; 7].
Proof.
  apply (vector_refines_sequence (Vector [Some 5] 1 1) [5] (VAppend 7) 0 [5; 7]).
  - constructor; try reflexivity; [simpl; lia | by exists []].
  - simpl; lia.
  - reflexivity.
Defined.
