(* ===== verification/HashTable.v ===== *)
(** * Hash tables

    [libs/libresea/hash.c].  Keys and values are pointers; the functions of the key and
    value traits are parameters.  The elements are kept in the order in which they were
    allocated, and a bin is a vector of pointers to them.  A call of a delete function is
    kept in a list; a key that was deleted must not be hashed or compared any more. *)
From S2P Require Import Prelude Message CString Util.
Import CStr Vec.

Definition HASH_INITIAL_NUM_BINS : Z := 8.
Definition HASH_REHASH_THRESHOLD : Z := 4.

(** [struct hash]; [helems] is the memory of the elements, and the last two fields are the
    arguments of the calls of [key_delete_func] and [value_delete_func] so far. *)
Record hash := Hash {
  bins : list vector; num_bins : Z; hsize : Z; helems : list (Z * Z); deleted_keys : list Z; deleted_values : list Z }.

Section Trait.
(** The traits: [hash_func] gives an [int] of any sign, and the two delete functions may
    be missing. *)
Variable hash_func : Z -> Z.
Variable equals_func : Z -> Z -> bool.
Variables has_key_delete has_value_delete : bool.

Definition hash_element_new (h : hash) (key value : Z) : Z * hash :=
  (Z.of_nat (length (helems h)),
   Hash (bins h) (num_bins h) (hsize h) (helems h ++ [(key, value)]) (deleted_keys h) (deleted_values h)).

Definition hash_element_delete (h : hash) (e : Z) : outcome hash :=
  match arr_get (helems h) e with
  | None => Undef
  | Some (k, v) =>
      Done (Hash (bins h) (num_bins h) (hsize h) (helems h)
        (if has_key_delete then deleted_keys h ++ [k] else deleted_keys h)
        (if has_value_delete then deleted_values h ++ [v] else deleted_values h))
  end.

Definition hash_new : hash :=
  Hash (replicate (Z.to_nat HASH_INITIAL_NUM_BINS) vector_new) HASH_INITIAL_NUM_BINS 0 [] [] [].

(** A key is read: it must not have been deleted. *)
Definition use_key (h : hash) (k : Z) : outcome () := if bool_decide (k ∈ deleted_keys h) then Undef else Done tt.

(** [vector_delete] on a bin, and [hash_delete]. *)
Fixpoint delete_elems (n : nat) (i : Z) (bin : vector) (h : hash) : outcome hash :=
  match n with
  | O => Done h
  | S n =>
      if i <? vsize bin then
        outcome_bind (vector_get bin i) (fun e => outcome_bind (hash_element_delete h e) (delete_elems n (i + 1) bin))
      else Done h
  end.
Fixpoint delete_bins (idx : list Z) (h : hash) : outcome hash :=
  match idx with
  | [] => Done h
  | i :: idx =>
      match arr_get (bins h) i with
      | None => Undef
      | Some bin => outcome_bind (delete_elems (Z.to_nat (vsize bin)) 0 bin h) (delete_bins idx)
      end
  end.
Definition hash_delete (h : hash) : outcome hash := delete_bins (seqZ 0 (num_bins h)) h.

(** [vector_foreach_index] with a test of the key: the index of the first element
    with an equal key. *)
Fixpoint find_key (n : nat) (i : Z) (h : hash) (bin : vector) (key : Z) : outcome (option (Z * Z)) :=
  match n with
  | O => Done None
  | S n =>
      if i <? vsize bin then
        outcome_bind (vector_get bin i) (fun e =>
          match arr_get (helems h) e with
          | None => Undef
          | Some kv =>
              outcome_bind (use_key h kv.1) (fun _ =>
                if equals_func key kv.1 then Done (Some (i, e)) else find_key n (i + 1) h bin key)
          end)
      else Done None
  end.

Definition get_bin (h : hash) (key : Z) : outcome (Z * vector) :=
  outcome_bind (use_key h key) (fun _ =>
    let bin_index := Z.rem (hash_func key) (num_bins h) in
    match arr_get (bins h) bin_index with Some b => Done (bin_index, b) | None => Undef end).

Definition lookup (h : hash) (key : Z) : outcome (option Z) :=
  outcome_bind (get_bin h key) (fun '(_, bin) =>
  outcome_bind (find_key (Z.to_nat (vsize bin)) 0 h bin key) (fun r => Done (snd <$> r))).

Definition hash_contains (h : hash) (key : Z) : outcome bool :=
  outcome_bind (lookup h key) (fun e => Done (bool_decide (e <> None))).

Definition hash_get (h : hash) (key : Z) : outcome Z :=
  outcome_bind (lookup h key) (fun e =>
    match e with
    | None => Panic
    | Some e => match arr_get (helems h) e with Some kv => Done kv.2 | None => Undef end
    end).

Definition hash_needs_rehash (h : hash) : bool := HASH_REHASH_THRESHOLD <=? Z.quot (hsize h) (num_bins h).

(** [new_bins[i] = vector_new(...)] for [i] below [new_num_bins]. *)
Fixpoint fill_bins (n : nat) (i : Z) (new_bins : list (option vector)) : outcome (list (option vector)) :=
  match n with
  | O => Done new_bins
  | S n =>
      match arr_set new_bins i (Some vector_new) with
      | Some b => fill_bins n (i + 1) b
      | None => Undef
      end
  end.

(** [hash_rehash]: the new array has room for the old number of bins, and the
    elements are inserted into the hash table while it still has its old bins.  The
    first loop writes outside the new array whenever it grows, so the rest is not reached
    from [hash_set]. *)
Section Rehash.
Variable hash_set : hash -> Z -> Z -> outcome hash.

Fixpoint drain (fuel : nat) (i : Z) (h : hash) : outcome hash :=
  match fuel with
  | O => Fuel
  | S fuel =>
      match arr_get (bins h) i with
      | None => Undef
      | Some bin =>
          if vector_is_empty bin then Done h
          else
            outcome_bind (vector_pop bin) (fun '(e, bin) =>
            match arr_set (bins h) i bin, arr_get (helems h) e with
            | Some bs, Some (k, v) =>
                outcome_bind (hash_set (Hash bs (num_bins h) (hsize h) (helems h) (deleted_keys h) (deleted_values h)) k v)
                  (drain fuel i)
            | _, _ => Undef
            end)
      end
  end.

Fixpoint drain_all (fuel : nat) (idx : list Z) (h : hash) : outcome hash :=
  match idx with
  | [] => Done h
  | i :: idx =>
      outcome_bind (drain fuel i h) (fun h =>
        match arr_get (bins h) i with
        | None => Undef
        | Some bin => outcome_bind (delete_elems (Z.to_nat (vsize bin)) 0 bin h) (drain_all fuel idx)
        end)
  end.

Definition hash_rehash_with (fuel : nat) (h : hash) (new_num_bins : Z) : outcome hash :=
  outcome_bind (fill_bins (Z.to_nat new_num_bins) 0 (replicate (Z.to_nat (num_bins h)) None)) (fun new_bins =>
  outcome_bind (drain_all fuel (seqZ 0 (num_bins h)) h) (fun h =>
    match mapM id new_bins with
    | Some bs => Done (Hash bs new_num_bins (hsize h) (helems h) (deleted_keys h) (deleted_values h))
    | None => Undef
    end)).
End Rehash.

Fixpoint hash_set (fuel : nat) (h : hash) (key value : Z) : outcome hash :=
  match fuel with
  | O => Fuel
  | S fuel =>
      let '(new_elem, h) := hash_element_new h key value in
      outcome_bind (get_bin h key) (fun '(bin_index, bin) =>
      outcome_bind (find_key (Z.to_nat (vsize bin)) 0 h bin key) (fun r =>
        match r with
        | Some (i, elem) =>
            outcome_bind (hash_element_delete h elem) (fun h =>
            outcome_bind (vector_set bin i new_elem) (fun bin =>
              match arr_set (bins h) bin_index bin with
              | Some bs => Done (Hash bs (num_bins h) (hsize h) (helems h) (deleted_keys h) (deleted_values h))
              | None => Undef
              end))
        | None =>
            outcome_bind (vector_append bin new_elem) (fun bin =>
              match arr_set (bins h) bin_index bin with
              | None => Undef
              | Some bs =>
                  let h := Hash bs (num_bins h) (hsize h + 1) (helems h) (deleted_keys h) (deleted_values h) in
                  if hash_needs_rehash h
                  then hash_rehash_with (hash_set fuel) fuel h (num_bins h * 2)
                  else Done h
              end)
        end))
  end.

(** ** The hash table as a finite map *)

(** Two keys are equal when they have the same content, which is what the map is
    indexed by.  It is assumed of the traits, and not stated in the sources, that
    [equals_func] compares the contents, that [hash_func] depends on the content alone, and
    that it is never negative: a negative hash gives an index below the bins. *)
Section Map.
Context `{Countable K}.
Variable content : Z -> K.
Record trait_ok : Prop := TraitOk {
  hash_nonneg : forall k, 0 <= hash_func k;
  hash_content : forall a b, content a = content b -> hash_func a = hash_func b;
  equals_content : forall a b, equals_func a b = bool_decide (content a = content b)
}.

(** The bin [j] holds pointers to the elements [ps]. *)
Definition bin_rep (elems : list (Z * Z)) (b : vector) (j : Z) (ps : list (Z * Z)) : Prop :=
  exists es, vec_rep b es /\ Forall2 (fun e p => arr_get elems e = Some p) es ps /\
    NoDup (content <$> ps.*1) /\ Forall (fun p => hash_func p.1 mod 8 = j) ps /\ vcapacity b <= 64.

(** The table holds [m], a map from contents to the key and the value stored; no key that
    is stored has been deleted. *)
Record hash_rep (h : hash) (m : gmap K (Z * Z)) : Prop := {
  hr_num : num_bins h = 8;
  hr_len : length (bins h) = 8%nat;
  hr_size : hsize h = Z.of_nat (size m);
  hr_bins : exists f : Z -> list (Z * Z),
    (forall j b, arr_get (bins h) j = Some b -> bin_rep (helems h) b j (f j)) /\
    (forall k p, m !! k = Some p <-> content p.1 = k /\ p ∈ f (hash_func p.1 mod 8));
  hr_valid : forall k p, m !! k = Some p -> p.1 ∉ deleted_keys h
}.

Section Proofs.
Hypothesis T : trait_ok.

Lemma use_key_ok h k : k ∉ deleted_keys h -> use_key h k = Done tt.
Proof. intros Hk. unfold use_key. by rewrite bool_decide_false. Qed.

Lemma find_key_ok h b key ps : forall es pre pre_ps,
  Forall2 (fun e p => arr_get (helems h) e = Some p) (pre ++ es) (pre_ps ++ ps) -> length pre = length pre_ps ->
  vec_rep b (pre ++ es) -> Forall (fun p => p.1 ∉ deleted_keys h) ps ->
  exists r, find_key (length es) (Z.of_nat (length pre)) h b key = Done r /\
    match r with
    | None => content key ∉ content <$> ps.*1
    | Some (i, e) => exists n p, i = Z.of_nat n /\ (pre ++ es) !! n = Some e /\
        (pre_ps ++ ps) !! n = Some p /\ content p.1 = content key /\ (length pre <= n)%nat
    end.
Proof.
  induction ps as [|[k v] ps IH]; intros es pre pre_ps HF Hlen Hv Hd.
  - assert (es = []) as ->.
    { apply Forall2_length in HF. rewrite !length_app in HF. simpl in HF. destruct es; [done | simpl in HF; lia]. }
    exists None. split; [done|]. set_solver.
  - apply Forall_cons in Hd as [Hd Hds]. destruct es as [|e es].
    { apply Forall2_length in HF. rewrite !length_app in HF. simpl in HF. lia. }
    assert (He : arr_get (helems h) e = Some (k, v)).
    { apply Forall2_app_inv in HF as [_ HF]; [|done]. by inversion HF. }
    cbn [length find_key]. rewrite (vr_size _ _ Hv), length_app. cbn [length].
    destruct (Z.ltb_spec (Z.of_nat (length pre)) (Z.of_nat (length pre + S (length es)))); [|lia].
    assert (vector_get b (Z.of_nat (length pre)) = Done e) as ->.
    { unfold vector_get. destruct (vr_data _ _ Hv) as [rest ->].
      assert (arr_get (map Some (pre ++ e :: es) ++ rest) (Z.of_nat (length pre)) = Some (Some e)) as ->; [|done].
      apply arr_get_Some. split; [lia|]. rewrite Nat2Z.id. apply lookup_app_l_Some.
      rewrite list_lookup_fmap, list_lookup_middle; done. }
    cbn [outcome_bind]. rewrite He. cbn [fst] in *. rewrite (use_key_ok h k Hd), (equals_content T). cbn [outcome_bind]. case_bool_decide as Hk.
    + eexists. split; [reflexivity|]. exists (length pre), (k, v).
      split; [done|]. split; [by apply list_lookup_middle|]. split; [apply list_lookup_middle; lia | split; [done | lia]].
    + destruct (IH es (pre ++ [e]) (pre_ps ++ [(k, v)])) as (r & E & Hr).
      * by rewrite <- !app_assoc.
      * rewrite !length_app. simpl. lia.
      * by rewrite <- app_assoc.
      * done.
      * rewrite length_app in E. simpl in E.
        replace (Z.of_nat (length pre) + 1) with (Z.of_nat (length pre + 1)) by lia.
        exists r. split; [done|]. destruct r as [[i e']|].
        -- destruct Hr as (n & p & -> & H1 & H2 & H3 & H4). exists n, p. rewrite <- app_assoc in H1, H2.
           rewrite length_app in H4. simpl in *. repeat split; auto. lia.
        -- simpl. rewrite not_elem_of_cons. done.
Qed.

Lemma get_bin_ok h m key : hash_rep h m -> key ∉ deleted_keys h ->
  exists b, get_bin h key = Done (hash_func key mod 8, b) /\ arr_get (bins h) (hash_func key mod 8) = Some b.
Proof.
  intros [Hn Hl _ _ _] Hk. unfold get_bin. rewrite (use_key_ok h key Hk). cbn [outcome_bind].
  rewrite Hn, Z.rem_mod_nonneg by (done || lia || apply (hash_nonneg T)).
  pose proof (Z.mod_pos_bound (hash_func key) 8).
  destruct (arr_get (bins h) (hash_func key mod 8)) as [b|] eqn:E; [eauto|].
  exfalso. assert (is_Some (arr_get (bins h) (hash_func key mod 8))) as [? ?]
    by (apply arr_get_is_Some; lia). congruence.
Qed.

Lemma find_key_rep h b j ps key : bin_rep (helems h) b j ps -> Forall (fun p => p.1 ∉ deleted_keys h) ps ->
  exists r, find_key (Z.to_nat (vsize b)) 0 h b key = Done r /\
    match r with
    | None => content key ∉ content <$> ps.*1
    | Some (i, e) => exists n p, i = Z.of_nat n /\ ps !! n = Some p /\ content p.1 = content key /\ arr_get (helems h) e = Some p
    end.
Proof.
  intros (es & Hv & HF & _) Hd. rewrite (vr_size _ _ Hv), Nat2Z.id.
  destruct (find_key_ok h b key ps es [] [] HF eq_refl Hv Hd) as (r & E & Hr). exists r. split; [done|].
  destruct r as [[i e]|]; [|done]. destruct Hr as (n & p & -> & H1 & H2 & H3 & _). exists n, p.
  split; [done|]. split; [done|]. split; [done|]. simpl in *. eapply Forall2_lookup_lr in HF; eauto.
Qed.

(** The pairs of a bin are those of the map, and their keys are not deleted. *)
Lemma bin_valid h m (f : Z -> list (Z * Z)) j b : hash_rep h m -> bin_rep (helems h) b j (f j) ->
  (forall k p, m !! k = Some p <-> content p.1 = k /\ p ∈ f (hash_func p.1 mod 8)) ->
  Forall (fun p => p.1 ∉ deleted_keys h) (f j).
Proof.
  intros HR (es & _ & _ & _ & Hj & _) Hm. rewrite Forall_forall in Hj |- *. intros p Hp. eapply (hr_valid _ _ HR (content p.1)).
  apply Hm. split; [done|]. rewrite (Hj p Hp). done.
Qed.
Lemma bin_holds (m : gmap K (Z * Z)) (f : Z -> list (Z * Z)) p key :
  (forall k p, m !! k = Some p <-> content p.1 = k /\ p ∈ f (hash_func p.1 mod 8)) -> content p.1 = content key ->
  p ∈ f (hash_func key mod 8) <-> m !! content key = Some p.
Proof. intros Hm Hp. rewrite Hm, (hash_content T _ _ Hp). tauto. Qed.
Lemma bin_lacks (m : gmap K (Z * Z)) (f : Z -> list (Z * Z)) key :
  (forall k p, m !! k = Some p <-> content p.1 = k /\ p ∈ f (hash_func p.1 mod 8)) ->
  content key ∉ content <$> (f (hash_func key mod 8)).*1 -> m !! content key = None.
Proof.
  intros Hm Hr. destruct (m !! content key) as [p|] eqn:Hk; [|done]. exfalso. apply Hr. pose proof Hk as Hk'.
  apply Hm in Hk as [Hc _]. apply (bin_holds m f p key Hm Hc) in Hk'. rewrite <- Hc, <- list_fmap_compose.
  apply list_elem_of_fmap. by exists p.
Qed.

Lemma lookup_ok h m key : hash_rep h m -> key ∉ deleted_keys h ->
  exists e, lookup h key = Done e /\
    match m !! content key with
    | Some p => exists q, e = Some q /\ arr_get (helems h) q = Some p
    | None => e = None
    end.
Proof.
  intros HR Hd. destruct (get_bin_ok h m key HR Hd) as (b & Hb & Hget).
  destruct (hr_bins _ _ HR) as (f & Hf & Hm). pose proof (Hf _ _ Hget) as HB.
  destruct (find_key_rep _ _ _ _ key HB (bin_valid _ _ _ _ _ HR HB Hm)) as (r & E & Hr).
  unfold lookup. rewrite Hb. simpl. rewrite E. simpl.
  eexists. split; [reflexivity|]. destruct r as [[i e]|]; simpl.
  - destruct Hr as (n & p & _ & Hn & Hc & He). apply list_elem_of_lookup_2, (bin_holds m f p key Hm Hc) in Hn. rewrite Hn. eauto.
  - by rewrite (bin_lacks m f key Hm Hr).
Qed.

Lemma bin_size_le (m : gmap K (Z * Z)) (f : Z -> list (Z * Z)) (j : Z) :
  (forall k p, m !! k = Some p <-> content p.1 = k /\ p ∈ f (hash_func p.1 mod 8)) ->
  NoDup (content <$> (f j).*1) -> Forall (fun p => hash_func p.1 mod 8 = j) (f j) -> (length (f j) <= size m)%nat.
Proof.
  intros Hm Hnd Hj. rewrite <- (length_fmap fst), <- (length_fmap content), <- size_dom.
  rewrite <- (size_list_to_set (C := gset K)) by done. apply subseteq_size.
  intros k Hk%elem_of_list_to_set. rewrite <- list_fmap_compose in Hk. apply list_elem_of_fmap in Hk as (p & -> & Hin). simpl.
  apply elem_of_dom. exists p. apply Hm. split; [done|]. rewrite Forall_forall in Hj. rewrite (Hj _ Hin). done.
Qed.

Lemma elems_mono (elems : list (Z * Z)) x (es : list Z) ps :
  Forall2 (fun e p => arr_get elems e = Some p) es ps ->
  Forall2 (fun e p => arr_get (elems ++ [x]) e = Some p) es ps.
Proof.
  intros HF. eapply Forall2_impl; [exact HF|]. intros e p [He Hp]%arr_get_Some. apply arr_get_Some. split; [done|].
  by apply lookup_app_l_Some.
Qed.
Lemma bin_rep_mono elems x b j ps : bin_rep elems b j ps -> bin_rep (elems ++ [x]) b j ps.
Proof. intros (es & Hv & HF & Hrest). exists es. split; [done|]. split; [by apply elems_mono | done]. Qed.

(** Replacing the content of one bin. *)
Lemma hash_rep_update h (m : gmap K (Z * Z)) (f : Z -> list (Z * Z)) key value b' ps' bs n dk dv :
  num_bins h = 8 -> length (bins h) = 8%nat ->
  (forall j b, arr_get (bins h) j = Some b -> bin_rep (helems h) b j (f j)) ->
  (forall k p, m !! k = Some p <-> content p.1 = k /\ p ∈ f (hash_func p.1 mod 8)) ->
  bin_rep (helems h ++ [(key, value)]) b' (hash_func key mod 8) ps' ->
  arr_set (bins h) (hash_func key mod 8) b' = Some bs -> n = Z.of_nat (size (<[content key := (key, value)]> m)) ->
  (forall p, hash_func p.1 mod 8 = hash_func key mod 8 -> (<[content key := (key, value)]> m) !! content p.1 = Some p <-> p ∈ ps') ->
  (forall k p, (<[content key := (key, value)]> m) !! k = Some p -> p.1 ∉ dk) ->
  hash_rep (Hash bs (num_bins h) n (helems h ++ [(key, value)]) dk dv) (<[content key := (key, value)]> m).
Proof.
  intros Hn Hl Hf Hm HB Hset -> Hps Hdk. constructor; simpl; [done | apply arr_set_length in Hset; lia | done | | done].
  exists (fun i => if i =? hash_func key mod 8 then ps' else f i). split.
  - intros i b. rewrite (arr_get_set _ _ _ _ _ Hset). destruct (Z.eqb_spec i (hash_func key mod 8)) as [->|];
      [by intros [= <-]|].
    intros Hb. by apply bin_rep_mono, Hf.
  - intros k p. destruct (Z.eqb_spec (hash_func p.1 mod 8) (hash_func key mod 8)) as [Hk|Hk].
    + rewrite <- (Hps p Hk). split; [|by intros [<- ?]]. intros Hp. split; [|].
      * apply lookup_insert_Some in Hp as [[<- <-]|[_ Hp]]; [done | by apply Hm in Hp as [? _]].
      * apply lookup_insert_Some in Hp as [[<- <-]|[Hne Hp]]; [by rewrite lookup_insert_eq|].
        pose proof Hp as [<- _]%Hm. by rewrite lookup_insert_ne.
    + split.
      * intros [[_ <-]|[_ Hp]]%lookup_insert_Some; [done | by apply Hm].
      * intros Hp. rewrite lookup_insert_ne; [by apply Hm|]. destruct Hp as [<- _]. intros Heq. apply Hk. by rewrite (hash_content T _ _ Heq).
Qed.

Lemma elem_of_replace (ps : list (Z * Z)) n p q r :
  NoDup (content <$> ps.*1) -> ps !! n = Some p -> content q.1 = content p.1 ->
  r ∈ <[n := q]> ps <-> r = q \/ (content r.1 <> content p.1 /\ r ∈ ps).
Proof.
  intros Hnd Hn Hq. pose proof (lookup_lt_Some _ _ _ Hn) as Hlt. rewrite !list_elem_of_lookup. split.
  - intros [i Hi]. destruct (decide (i = n)) as [->|Hne].
    + rewrite list_lookup_insert_eq in Hi by done. injection Hi as <-. by left.
    + rewrite list_lookup_insert_ne in Hi by done. right. split; [|eauto]. intros Hc. apply Hne.
      apply (NoDup_lookup _ _ _ (content p.1) Hnd); rewrite !list_lookup_fmap; [by rewrite Hi; simpl; rewrite Hc | by rewrite Hn].
  - intros [->|[Hk [i Hi]]].
    + exists n. by apply list_lookup_insert_eq.
    + exists i. rewrite list_lookup_insert_ne; [done|]. intros <-. congruence.
Qed.

(** Replacing the value of a key in a bin. *)
Lemma bin_rep_set elems b j ps n p key value b' :
  bin_rep elems b j ps -> ps !! n = Some p -> content p.1 = content key ->
  vector_set b (Z.of_nat n) (Z.of_nat (length elems)) = Done b' ->
  bin_rep (elems ++ [(key, value)]) b' j (<[n := (key, value)]> ps).
Proof.
  intros (es & Hv & HF & Hnd & Hj & Hc) Hn Hk E.
  pose proof (lookup_lt_Some _ _ _ Hn) as Hlt. pose proof (Forall2_length _ _ _ HF) as Hlen.
  destruct Hv as [Hs Hcap Hp [rest Hd]]. unfold vector_set in E.
  destruct (Z.ltb_spec (Z.of_nat n) (vsize b)); [|lia].
  rewrite arr_set_Some in E by (rewrite Hd, length_app, length_map; lia). rewrite Nat2Z.id in E.
  injection E as <-. exists (<[n := Z.of_nat (length elems)]> es). split; [|split; [|split; [|split]]].
  - constructor; simpl; rewrite ?length_insert; auto. exists rest.
    rewrite Hd, insert_app_l by (rewrite length_map; lia). f_equal. by rewrite list_fmap_insert.
  - apply Forall2_insert; [by apply elems_mono|]. apply arr_get_Some. split; [lia|].
    rewrite Nat2Z.id. by apply list_lookup_middle.
  - rewrite !list_fmap_insert. simpl. rewrite list_insert_id; [done|]. rewrite !list_lookup_fmap, Hn. simpl. by rewrite Hk.
  - apply Forall_insert; [done|]. rewrite Forall_forall in Hj. simpl. rewrite <- (hash_content T _ _ Hk).
    apply Hj. by eapply list_elem_of_lookup_2.
  - done.
Qed.

(** Appending a new key. *)
Lemma bin_rep_append elems b j ps key value b' :
  bin_rep elems b j ps -> content key ∉ content <$> ps.*1 -> hash_func key mod 8 = j -> (length ps <= 31)%nat ->
  vector_append b (Z.of_nat (length elems)) = Done b' ->
  bin_rep (elems ++ [(key, value)]) b' j (ps ++ [(key, value)]).
Proof.
  intros (es & Hv & HF & Hnd & Hj & Hc) Hk Hkj Hlen E.
  pose proof (Forall2_length _ _ _ HF) as Hl. pose proof (vr_size _ _ Hv) as Hsz.
  pose proof (vec_append_capacity _ _ _ E) as Hcap.
  destruct (vec_append_ok b es (Z.of_nat (length elems)) Hv) as (b'' & E' & Hv'); [lia|].
  rewrite E in E'. injection E' as <-.
  exists (es ++ [Z.of_nat (length elems)]). split; [done|]. split; [|split; [|split]].
  - apply Forall2_app; [by apply elems_mono|]. constructor; [|constructor]. apply arr_get_Some.
    split; [lia|]. rewrite Nat2Z.id. by apply list_lookup_middle.
  - rewrite !fmap_app. apply NoDup_app. split; [done|]. split; [|apply NoDup_singleton].
    intros x Hx ->%list_elem_of_singleton. done.
  - apply Forall_app. split; [done|]. by constructor.
  - rewrite Hcap. destruct (Z.eqb_spec (vsize b) (vcapacity b)); lia.
Qed.

Definition deletions (has : bool) (x : Z) : list Z := if has then [x] else [].

(** The steps of [hash_set] up to the search. *)
Lemma hash_set_search fuel h m (f : Z -> list (Z * Z)) key value :
  hash_rep h m -> key ∉ deleted_keys h -> (forall j b, arr_get (bins h) j = Some b -> bin_rep (helems h) b j (f j)) ->
  (forall k p, m !! k = Some p <-> content p.1 = k /\ p ∈ f (hash_func p.1 mod 8)) ->
  exists b (r : option (Z * Z)), arr_get (bins h) (hash_func key mod 8) = Some b /\
    match r with
    | None => content key ∉ content <$> (f (hash_func key mod 8)).*1 /\
        hash_set (S fuel) h key value =
          outcome_bind (vector_append b (Z.of_nat (length (helems h)))) (fun bin =>
            match arr_set (bins h) (hash_func key mod 8) bin with
            | None => Undef
            | Some bs =>
                let h := Hash bs (num_bins h) (hsize h + 1) (helems h ++ [(key, value)]) (deleted_keys h) (deleted_values h) in
                if hash_needs_rehash h
                then hash_rehash_with (hash_set fuel) fuel h (num_bins h * 2)
                else Done h
            end)
    | Some (i, e) => exists n p, i = Z.of_nat n /\ f (hash_func key mod 8) !! n = Some p /\ content p.1 = content key /\
        hash_set (S fuel) h key value =
          outcome_bind (vector_set b i (Z.of_nat (length (helems h)))) (fun bin =>
            match arr_set (bins h) (hash_func key mod 8) bin with
            | Some bs => Done (Hash bs (num_bins h) (hsize h) (helems h ++ [(key, value)])
                (deleted_keys h ++ deletions has_key_delete p.1) (deleted_values h ++ deletions has_value_delete p.2))
            | None => Undef
            end)
    end.
Proof.
  intros HR Hd Hf Hm. destruct (get_bin_ok h m key HR Hd) as (b & Hb & Hget). pose proof (Hf _ _ Hget) as HB.
  pose proof (bin_valid _ _ _ _ _ HR HB Hm) as Hval.
  set (h1 := Hash (bins h) (num_bins h) (hsize h) (helems h ++ [(key, value)]) (deleted_keys h) (deleted_values h)).
  destruct (find_key_rep h1 b _ _ key (bin_rep_mono _ _ _ _ _ HB) Hval) as (r & E & Hr).
  exists b, r. split; [done|].
  cbn [hash_set]. unfold hash_element_new. change (get_bin (Hash _ _ _ _ _ _) key) with (get_bin h key).
  rewrite Hb. cbn [outcome_bind]. fold h1. rewrite E. cbn [outcome_bind].
  destruct r as [[i e]|]; [|split; [done | reflexivity]].
  destruct Hr as (n & p & Hi & Hn & Hc & He). exists n, p. split; [done|]. split; [done|]. split; [done|].
  unfold hash_element_delete. rewrite He. destruct p as [k v]. cbn [outcome_bind]. unfold deletions.
  destruct has_key_delete, has_value_delete; rewrite ?app_nil_r; reflexivity.
Qed.

(** A present key: the element is replaced, and the old one deleted. *)
Lemma hash_set_present fuel h m key value p :
  hash_rep h m -> key ∉ deleted_keys h -> m !! content key = Some p ->
  exists bs, hash_set (S fuel) h key value = Done (Hash bs (num_bins h) (hsize h) (helems h ++ [(key, value)])
      (deleted_keys h ++ deletions has_key_delete p.1) (deleted_values h ++ deletions has_value_delete p.2)) /\
    forall dk dv, (forall k q, (<[content key := (key, value)]> m) !! k = Some q -> q.1 ∉ dk) ->
      hash_rep (Hash bs (num_bins h) (hsize h) (helems h ++ [(key, value)]) dk dv) (<[content key := (key, value)]> m).
Proof.
  intros HR Hd Hkey. destruct (hr_bins _ _ HR) as (f & Hf & Hm).
  destruct (hash_set_search fuel h m f key value HR Hd Hf Hm) as (b & r & Hget & Hr).
  destruct (Hf _ _ Hget) as (es & Hv & HF & Hnd & Hrest).
  destruct r as [[i e]|]; [|destruct Hr as [Hr _]; by rewrite (bin_lacks m f key Hm Hr) in Hkey].
  destruct Hr as (n & p' & -> & Hn & Hc & ->). pose proof (lookup_lt_Some _ _ _ Hn) as Hlt.
  assert (p' = p) as ->.
  { pose proof (list_elem_of_lookup_2 _ _ _ Hn) as Hin. apply (bin_holds m f p' key Hm Hc) in Hin. congruence. }
  pose proof (Forall2_length _ _ _ HF) as Hl.
  assert (exists b', vector_set b (Z.of_nat n) (Z.of_nat (length (helems h))) = Done b') as [b' Eb'].
  { unfold vector_set. rewrite (vr_size _ _ Hv). destruct (Z.ltb_spec (Z.of_nat n) (Z.of_nat (length es))); [|lia].
    destruct (vr_data _ _ Hv) as [rest ->]. rewrite arr_set_Some; [eauto|]. rewrite length_app, length_map. lia. }
  rewrite Eb'. cbn [outcome_bind]. pose proof (proj1 (arr_get_is_Some _ _) (mk_is_Some _ _ Hget)) as Hrange.
  rewrite (arr_set_Some _ _ b' Hrange). eexists. split; [reflexivity|]. intros dk dv Hdk.
  eapply hash_rep_update; [apply HR | apply HR | exact Hf | exact Hm | | by apply arr_set_Some | | | exact Hdk].
  - eapply bin_rep_set; [by apply Hf | exact Hn | exact Hc | exact Eb'].
  - rewrite (hr_size _ _ HR), map_size_insert_Some by eauto. done.
  - intros q Hq. rewrite (elem_of_replace _ _ _ (key, value) q Hnd Hn) by done. rewrite lookup_insert_Some, Hm, Hq, Hc.
    split; [intros [[_ <-]|(Hne & _ & Hin)]; [by left | right; split; [congruence | done]]|].
    intros [->|[Hne Hin]]; [by left | right; split; [congruence | done]].
Qed.
Lemma hash_set_replace fuel h m key value p :
  hash_rep h m -> key ∉ deleted_keys h -> m !! content key = Some p -> (has_key_delete = true -> p.1 <> key) ->
  exists h', hash_set (S fuel) h key value = Done h' /\ hash_rep h' (<[content key := (key, value)]> m) /\
    deleted_keys h' = deleted_keys h ++ deletions has_key_delete p.1 /\
    deleted_values h' = deleted_values h ++ deletions has_value_delete p.2.
Proof.
  intros HR Hd Hkey Hne. destruct (hash_set_present fuel h m key value p HR Hd Hkey) as (bs & E & Hrep).
  eexists. split; [exact E|]. split; [|done]. apply Hrep. destruct (hr_bins _ _ HR) as (f & _ & Hm).
  assert (Hdel : forall q, q <> p.1 \/ has_key_delete = false -> q ∉ deleted_keys h -> q ∉ deleted_keys h ++ deletions has_key_delete p.1).
  { intros q Hq Hq'. rewrite elem_of_app. unfold deletions. destruct has_key_delete; [|set_solver].
    rewrite list_elem_of_singleton. destruct Hq; naive_solver. }
  intros k q [[<- <-]|[Hk Hq]]%lookup_insert_Some; apply Hdel.
  - destruct has_key_delete; [left; intros Heq; by apply Hne | by right].
  - done.
  - left. intros Heq. apply Hk. apply Hm in Hq as [<- _]. rewrite Heq. apply Hm in Hkey as [-> _]. done.
  - by eapply (hr_valid _ _ HR).
Qed.

(** A new key, below the limit at which the table wants to grow. *)
Lemma hash_set_append fuel h m key value :
  hash_rep h m -> key ∉ deleted_keys h -> m !! content key = None -> (size m < 31)%nat ->
  exists h', hash_set (S fuel) h key value = Done h' /\ hash_rep h' (<[content key := (key, value)]> m) /\
    deleted_keys h' = deleted_keys h /\ deleted_values h' = deleted_values h.
Proof.
  intros HR Hd Hkey Hsz. destruct (hr_bins _ _ HR) as (f & Hf & Hm).
  destruct (hash_set_search fuel h m f key value HR Hd Hf Hm) as (b & r & Hget & Hr).
  destruct (Hf _ _ Hget) as (es & Hv & HF & Hnd & Hj & Hc).
  destruct r as [[i e]|].
  { destruct Hr as (n & p & _ & Hn & Hp & _). apply list_elem_of_lookup_2, (bin_holds m f p key Hm Hp) in Hn. congruence. }
  destruct Hr as [Hr ->]. pose proof (bin_size_le m f _ Hm Hnd Hj) as Hlen.
  destruct (vec_append_ok b es (Z.of_nat (length (helems h))) Hv) as (b' & Eb' & _); [lia|].
  rewrite Eb'. cbn [outcome_bind]. pose proof (proj1 (arr_get_is_Some _ _) (mk_is_Some _ _ Hget)) as Hrange.
  rewrite (arr_set_Some _ _ b' Hrange). cbv zeta. unfold hash_needs_rehash. cbn [num_bins hsize].
  assert (Hq : Z.quot (hsize h + 1) (num_bins h) < HASH_REHASH_THRESHOLD).
  { rewrite (hr_num _ _ HR), (hr_size _ _ HR). unfold HASH_REHASH_THRESHOLD. apply Z.quot_lt_upper_bound; lia. }
  destruct (Z.leb_spec HASH_REHASH_THRESHOLD (Z.quot (hsize h + 1) (num_bins h))); [lia|].
  eexists. split; [reflexivity|]. split; [|done].
  eapply hash_rep_update; [apply HR | apply HR | exact Hf | exact Hm | | by apply arr_set_Some | | |].
  - eapply bin_rep_append; [by apply Hf | exact Hr | done | lia | exact Eb'].
  - rewrite map_size_insert_None, (hr_size _ _ HR) by done. lia.
  - intros p Hp. rewrite elem_of_app, list_elem_of_singleton, lookup_insert_Some, Hm, Hp.
    split; [naive_solver|]. intros [Hin| ->]; [|by left]. destruct (decide (content key = content p.1)) as [He|Hn]; [|by right].
    exfalso. apply Hr. rewrite He, <- list_fmap_compose. apply list_elem_of_fmap. by exists p.
  - intros k p [[_ <-]|[_ Hp]]%lookup_insert_Some; [done | by eapply (hr_valid _ _ HR)].
Qed.
(** Deleting the elements of a bin, and of all bins. *)
Definition del (ps : list (Z * Z)) (h : hash) : hash :=
  Hash (bins h) (num_bins h) (hsize h) (helems h)
    (deleted_keys h ++ (p ← ps; deletions has_key_delete p.1)) (deleted_values h ++ (p ← ps; deletions has_value_delete p.2)).
Lemma delete_elems_ok b ps : forall es pre h,
  Forall2 (fun e p => arr_get (helems h) e = Some p) es ps -> vec_rep b (pre ++ es) ->
  delete_elems (length es) (Z.of_nat (length pre)) b h = Done (del ps h).
Proof.
  induction ps as [|[k v] ps IH]; intros es pre h HF Hv; inversion HF as [|e ? es' ? He HF']; subst.
  - unfold del. simpl. rewrite !app_nil_r. by destruct h.
  - cbn [length delete_elems]. rewrite (vr_size _ _ Hv), length_app. cbn [length].
    destruct (Z.ltb_spec (Z.of_nat (length pre)) (Z.of_nat (length pre + S (length es')))); [|lia].
    assert (vector_get b (Z.of_nat (length pre)) = Done e) as ->.
    { unfold vector_get. destruct (vr_data _ _ Hv) as [rest ->].
      assert (arr_get (map Some (pre ++ e :: es') ++ rest) (Z.of_nat (length pre)) = Some (Some e)) as ->; [|done].
      apply arr_get_Some. split; [lia|]. rewrite Nat2Z.id. apply lookup_app_l_Some.
      rewrite list_lookup_fmap, list_lookup_middle; done. }
    cbn [outcome_bind]. unfold hash_element_delete. rewrite He. cbn [outcome_bind].
    replace (Z.of_nat (length pre) + 1) with (Z.of_nat (length (pre ++ [e]))) by (rewrite length_app; simpl; lia).
    rewrite (IH es' (pre ++ [e])); [|done | by rewrite <- app_assoc]. unfold del, deletions. cbn.
    destruct has_key_delete, has_value_delete; rewrite <- ?app_assoc; reflexivity.
Qed.
Lemma delete_bins_ok h0 (f : Z -> list (Z * Z)) : (forall j b, arr_get (bins h0) j = Some b -> bin_rep (helems h0) b j (f j)) ->
  forall idx h, bins h = bins h0 -> helems h = helems h0 -> Forall (fun j => is_Some (arr_get (bins h0) j)) idx ->
  delete_bins idx h = Done (del (idx ≫= f) h).
Proof.
  intros Hf. induction idx as [|j idx IH]; intros h Hb He Hidx.
  - unfold del. simpl. rewrite !app_nil_r. by destruct h.
  - apply Forall_cons in Hidx as [[b Hj] Hidx]. destruct (Hf j b Hj) as (es & Hv & HF & _).
    cbn [delete_bins]. rewrite Hb, Hj. rewrite (vr_size _ _ Hv), Nat2Z.id.
    rewrite <- He in HF. pose proof (delete_elems_ok b (f j) es [] h HF Hv) as Hdel. change (Z.of_nat (length [])) with 0 in Hdel.
    rewrite Hdel. cbn [outcome_bind]. rewrite (IH (del (f j) h)) by done.
    unfold del. simpl. by rewrite !bind_app, !app_assoc.
Qed.
Lemma bins_pairs h (m : gmap K (Z * Z)) (f : Z -> list (Z * Z)) : length (bins h) = 8%nat ->
  (forall j b, arr_get (bins h) j = Some b -> bin_rep (helems h) b j (f j)) ->
  (forall k p, m !! k = Some p <-> content p.1 = k /\ p ∈ f (hash_func p.1 mod 8)) ->
  (seqZ 0 8 ≫= f) ≡ₚ (map_to_list m).*2.
Proof.
  intros Hl Hf Hm. assert (HB : forall j, 0 <= j < 8 -> NoDup (f j) /\ Forall (fun p => hash_func p.1 mod 8 = j) (f j)).
  { intros j Hj. assert (is_Some (arr_get (bins h) j)) as [b Hb] by (apply arr_get_is_Some; lia).
    destruct (Hf j b Hb) as (es & _ & _ & Hnd & Hh & _). split; [|done]. by do 2 apply NoDup_fmap_1 in Hnd. }
  apply NoDup_Permutation.
  - apply NoDup_bind; [|intros j Hj%elem_of_seqZ; by apply HB | apply NoDup_seqZ].
    intros i j p Hi%elem_of_seqZ Hj%elem_of_seqZ Hpi Hpj. destruct (HB i Hi) as [_ Fi], (HB j Hj) as [_ Fj].
    rewrite Forall_forall in Fi, Fj. rewrite <- (Fi p Hpi). by apply Fj.
  - apply NoDup_fmap_2_strong; [|apply NoDup_map_to_list]. intros [k p] [k' p'] Hk%elem_of_map_to_list Hk'%elem_of_map_to_list Heq.
    simpl in Heq. subst p'. apply Hm in Hk as [<- _], Hk' as [<- _]. done.
  - intros p. rewrite list_elem_of_bind, list_elem_of_fmap. split.
    + intros (j & Hp & Hj%elem_of_seqZ). exists (content p.1, p). split; [done|]. apply elem_of_map_to_list, Hm. split; [done|].
      destruct (HB j Hj) as [_ Fj]. rewrite Forall_forall in Fj. by rewrite (Fj p Hp).
    + intros ([k q] & -> & Hk%elem_of_map_to_list). simpl. apply Hm in Hk as [_ Hin]. exists (hash_func q.1 mod 8).
      split; [done|]. apply elem_of_seqZ. pose proof (Z.mod_pos_bound (hash_func q.1) 8). lia.
Qed.
Lemma hash_delete_ok h m : hash_rep h m ->
  exists h', hash_delete h = Done h' /\
    deleted_keys h' ≡ₚ deleted_keys h ++ (p ← (map_to_list m).*2; deletions has_key_delete p.1) /\
    deleted_values h' ≡ₚ deleted_values h ++ (p ← (map_to_list m).*2; deletions has_value_delete p.2).
Proof.
  intros HR. destruct (hr_bins _ _ HR) as (f & Hf & Hm). unfold hash_delete. rewrite (hr_num _ _ HR).
  pose proof (bins_pairs h m f (hr_len _ _ HR) Hf Hm) as HP.
  eexists. split; [apply (delete_bins_ok h f Hf); [done | done|]|].
  - apply Forall_forall. intros j Hj%elem_of_seqZ. apply arr_get_is_Some. rewrite (hr_len _ _ HR). lia.
  - unfold del. cbn [deleted_keys deleted_values]. by rewrite HP.
Qed.
End Proofs.

(** C35: below 32 keys a hash table is a finite map from the contents of the keys.  It is
    assumed of the key trait that [equals_func] compares the contents and that [hash_func]
    depends on the content alone and is never negative (a negative hash gives an index
    outside the bins), and that the keys given to the functions have not been deleted.  On
    a table that holds the map [m], [hash_contains] and [hash_get] look the content of the
    key up in [m] ([hash_get] fails the assertion for an absent one).  [hash_set] of an
    absent key, when [m] has fewer than 31 keys, gives a table that holds the updated map.
    [hash_set] of a present key calls the key and value delete functions the traits have on
    the key and the value stored before; if the trait has no key delete function, or the
    stored key is another pointer with the same content, the table then holds the updated
    map; if it is the same pointer, the key that the table holds is deleted, and the next
    [hash_get] for it is undefined.  [hash_delete] calls the delete functions once for each
    key and value that is stored. *)
Theorem hash_refines_map (h : hash) (m : gmap K (Z * Z)) (key value : Z) (fuel : nat)
    (T : trait_ok) (HR : hash_rep h m) (Hkey : key ∉ deleted_keys h) :
  hash_contains h key = Done (bool_decide (is_Some (m !! content key))) /\
  hash_get h key = match m !! content key with Some (_, v) => Done v | None => Panic end /\
  (m !! content key = None -> (size m < 31)%nat ->
   exists h', hash_set (S fuel) h key value = Done h' /\ hash_rep h' (<[content key := (key, value)]> m) /\
     deleted_keys h' = deleted_keys h /\ deleted_values h' = deleted_values h) /\
  (forall k0 v0, m !! content key = Some (k0, v0) ->
   exists h', hash_set (S fuel) h key value = Done h' /\
     deleted_keys h' = deleted_keys h ++ (if has_key_delete then [k0] else []) /\
     deleted_values h' = deleted_values h ++ (if has_value_delete then [v0] else []) /\
     (has_key_delete = false \/ k0 <> key -> hash_rep h' (<[content key := (key, value)]> m)) /\
     (has_key_delete = true -> k0 = key -> hash_get h' key = Undef)) /\
  (exists h', hash_delete h = Done h' /\
     deleted_keys h' ≡ₚ deleted_keys h ++ (if has_key_delete then (map_to_list m).*2.*1 else []) /\
     deleted_values h' ≡ₚ deleted_values h ++ (if has_value_delete then (map_to_list m).*2.*2 else [])).
Proof.
  destruct (lookup_ok T h m key HR Hkey) as (e & E & He). unfold hash_contains. unfold hash_get at 1. rewrite E. cbn [outcome_bind].
  split; [|split; [|split; [|split]]].
  - destruct (m !! content key) as [v|]; [by destruct He as (p & -> & _) | by rewrite He].
  - destruct (m !! content key) as [[k v]|]; [|by rewrite He]. by destruct He as (p & -> & ->).
  - by apply hash_set_append.
  - intros k0 v0 Hk. destruct (hash_set_present T fuel h m key value (k0, v0) HR Hkey Hk) as (bs & E' & _).
    eexists. split; [exact E'|]. split; [done|]. split; [done|]. split.
    + intros Hc. destruct (hash_set_replace T fuel h m key value (k0, v0) HR Hkey Hk) as (h' & E'' & Hrep & _).
      { intros Hd. by destruct Hc as [Hc|]; [rewrite Hd in Hc|]. }
      rewrite E' in E''. by injection E'' as <-.
    + intros Hd ->. unfold hash_get, lookup, get_bin, use_key. cbn [deleted_keys]. rewrite bool_decide_true; [done|].
      rewrite Hd. set_solver.
  - destruct (hash_delete_ok h m HR) as (h' & E' & H1 & H2). exists h'. split; [done|].
    rewrite H1, H2. unfold deletions.
    assert (HE : forall l : list (Z * Z), (p ← l; [p.1]) = l.*1 /\ (p ← l; [p.2]) = l.*2 /\ (p ← l; []) = ([] : list Z)).
    { induction l as [|p l (I1 & I2 & I3)]; [done|]. split; [|split]; [exact (f_equal (cons p.1) I1) | exact (f_equal (cons p.2) I2) | exact I3]. }
    destruct (HE ((map_to_list m).*2)) as (I1 & I2 & I3). destruct has_key_delete, has_value_delete; by rewrite ?I1, ?I2, ?I3.
Qed.

(** The table cannot grow: inserting the 32nd key is undefined.  [hash_rehash]
    allocates room for the old number of bins and then writes twice as many. *)
Theorem hash_rehash_overflows (h : hash) (m : gmap K (Z * Z)) (key value : Z) (fuel : nat)
    (T : trait_ok) (HR : hash_rep h m) (Hkey : key ∉ deleted_keys h) (Hsz : size m = 31%nat) (Hk : m !! content key = None) :
  hash_set (S fuel) h key value = Undef.
Proof.
  destruct (hr_bins _ _ HR) as (f & Hf & Hm).
  destruct (hash_set_search T fuel h m f key value HR Hkey Hf Hm) as (b & r & Hget & Hr).
  destruct (Hf _ _ Hget) as (es & Hv & HF & Hnd & Hj & Hc).
  destruct r as [[i e]|].
  { destruct Hr as (n & p & _ & Hn & Hp & _). apply list_elem_of_lookup_2, (bin_holds T m f p key Hm Hp) in Hn. congruence. }
  destruct Hr as [_ ->].
  destruct (vec_append_ok b es (Z.of_nat (length (helems h))) Hv) as (b' & Eb' & _); [lia|].
  rewrite Eb'. cbn [outcome_bind].
  pose proof (proj1 (arr_get_is_Some _ _) (mk_is_Some _ _ Hget)) as Hrange.
  rewrite (arr_set_Some _ _ b' Hrange). cbv zeta. unfold hash_needs_rehash. cbn [num_bins hsize].
  rewrite (hr_size _ _ HR), Hsz, (hr_num _ _ HR). reflexivity.
Qed.
End Map.

(** A negative hash that is not a multiple of the number of bins reads below them. *)
Lemma negative_hash_outside h key value fuel : Z.rem (hash_func key) (num_bins h) < 0 ->
  hash_get h key = Undef /\ hash_set (S fuel) h key value = Undef.
Proof.
  intros Hneg. assert (E : get_bin h key = Undef).
  { unfold get_bin, use_key. destruct (bool_decide _); [done|]. cbn [outcome_bind]. unfold arr_get.
    by rewrite (proj2 (Z.ltb_lt _ _) Hneg). }
  split; [unfold hash_get, lookup; by rewrite E|]. cbn [hash_set]. unfold hash_element_new.
  change (get_bin (Hash _ _ _ _ _ _) key) with (get_bin h key). by rewrite E.
Qed.
End Trait.

Lemma hash_new_rep `{Countable K} hash_func (content : Z -> K) : hash_rep hash_func content hash_new ∅.
Proof.
  constructor; try done. exists (fun _ => []). split.
  - intros j b [_ Hb]%arr_get_Some. change (bins hash_new) with (replicate 8 vector_new) in Hb.
    apply lookup_replicate in Hb as [-> _]. exists []. split; [|split; [constructor|]].
    + constructor; simpl; [done | done | lia | by exists [None]].
    + split; [constructor|]. split; [constructor|]. simpl. lia.
  - intros k p. rewrite lookup_empty. set_solver.
Qed.

(** Keys whose content is what is left without the last digit, with both delete functions. *)
Definition ex_content (p : Z) : Z := p / 10.
Definition ex_hash_func (p : Z) : Z := Z.abs (p / 10).
Definition ex_eq (a b : Z) : bool := bool_decide (a / 10 = b / 10).
Lemma ex_trait_ok : trait_ok ex_hash_func ex_eq ex_content.
Proof. split; [intros; apply Z.abs_nonneg | by intros a b; unfold ex_content, ex_hash_func; intros -> | done]. Qed.
Definition ex_hash_set := hash_set ex_hash_func ex_eq true true.
(** A table where the key [51] has the value [6]. *)
Lemma ex_one : exists h, ex_hash_set 1 hash_new 51 6 = Done h /\ hash_rep ex_hash_func ex_content h {[5 := (51, 6)]} /\
  deleted_keys h = [] /\ deleted_values h = [].
Proof. apply (hash_set_append _ _ true true ex_content ex_trait_ok 0 hash_new ∅ 51 6); [apply hash_new_rep | set_solver | done | vm_compute; lia]. Qed.

Lemma hash_refines_map_witness :
  exists h, ex_hash_set 1 hash_new 51 6 = Done h /\ hash_get ex_hash_func ex_eq h 52 = Done 6 /\
    exists h', ex_hash_set 1 h 52 7 = Done h' /\ deleted_keys h' = [51] /\ deleted_values h' = [6] /\
      hash_rep ex_hash_func ex_content h' {[5 := (52, 7)]}.
Proof.
  destruct ex_one as (h & E & HR & Hk & Hv). exists h. split; [exact E|].
  destruct (hash_refines_map ex_hash_func ex_eq true true ex_content h {[5 := (51, 6)]} 52 7 0 ex_trait_ok HR)
    as (_ & H1 & _ & H2 & _); [rewrite Hk; apply not_elem_of_nil|].
  split; [exact H1|]. destruct (H2 51 6 eq_refl) as (h' & E' & K1 & K2 & K3 & _). exists h'. split; [exact E'|].
  rewrite Hk in K1. rewrite Hv in K2. split; [exact K1|]. split; [exact K2|]. apply K3. right. discriminate.
Defined.

(** A table with 31 keys. *)
Definition ex_hash : hash :=
  match foldr (fun k o => outcome_bind o (fun h => ex_hash_set 1 h (10 * k) k)) (Done hash_new) (seqZ 0 31) with
  | Done h => h
  | _ => hash_new
  end.

Lemma ex_hash_rep : exists m, hash_rep ex_hash_func ex_content ex_hash m /\ deleted_keys ex_hash = [] /\ size m = 31%nat /\ m !! 40 = None.
Proof.
  set (ins := fun k (m : gmap Z (Z * Z)) => <[k := (10 * k, k)]> m).
  exists (foldr ins ∅ (seqZ 0 31)).
  assert (G : forall l, NoDup l -> (length l <= 31)%nat ->
    exists h, foldr (fun k o => outcome_bind o (fun h => ex_hash_set 1 h (10 * k) k)) (Done hash_new) l = Done h /\
      hash_rep ex_hash_func ex_content h (foldr ins ∅ l) /\ deleted_keys h = [] /\
      size (foldr ins ∅ l) = length l /\ forall k, k ∉ l -> foldr ins ∅ l !! k = None).
  { induction l as [|k l IH]; intros Hnd Hl.
    - exists hash_new. split; [done|]. split; [apply hash_new_rep | done].
    - apply NoDup_cons in Hnd as [Hk Hnd]. simpl in Hl. destruct IH as (h & E & HR & Hd & Hsz & Hn); [done | lia|].
      assert (Hc : ex_content (10 * k) = k) by (unfold ex_content; rewrite Z.mul_comm; by apply Z.div_mul).
      cbn [foldr]. rewrite E. cbn [outcome_bind].
      destruct (hash_set_append _ _ true true ex_content ex_trait_ok 0 h _ (10 * k) k HR) as (h' & E' & HR' & Hd' & _);
        [rewrite Hd; set_solver | rewrite Hc; by apply Hn | lia |].
      exists h'. split; [exact E'|]. rewrite Hc in HR'. split; [exact HR'|]. split; [congruence|]. unfold ins at 1 3.
      split; [rewrite map_size_insert_None by (by apply Hn); simpl; lia|].
      intros k' [Hne Hk']%not_elem_of_cons. rewrite lookup_insert_ne by done. by apply Hn. }
  destruct (G (seqZ 0 31)) as (h & E & HR & Hd & Hsz & Hn); [apply NoDup_seqZ | vm_compute; lia|].
  unfold ex_hash. rewrite E. split; [exact HR|]. split; [exact Hd|]. split; [exact Hsz|]. apply Hn. rewrite elem_of_seqZ. lia.
Qed.

Lemma hash_rehash_overflows_witness : ex_hash_set 1 ex_hash 400 0 = Undef.
Proof.
  destruct ex_hash_rep as (m & HR & Hd & Hsz & Hk).
  apply (hash_rehash_overflows ex_hash_func ex_eq true true ex_content ex_hash m 400 0 0 ex_trait_ok).
  - exact HR.
  - rewrite Hd. apply not_elem_of_nil.
  - exact Hsz.
  - exact Hk.
Defined.
