(* ===== verification/Malloc.v ===== *)
(** * The heap of user programs

    [libs/libresea/malloc.c]: a first-fit allocator over a list of chunks.  The
    call of the memory manager ([memory.alloc_pages]) is a parameter. *)
From S2P Require Import Prelude Message Util.
Import Math.

Definition MALLOC_PAGE_ORDER : Z := 8.
Definition HEAP_AREA_START : Z := 0x70000000.
Definition HEAP_AREA_END : Z := 0xa0000000.
Definition VALLOC_AREA_START : Z := 0xa0000000.
Definition VALLOC_AREA_END : Z := 0xc0000000.
Definition SIZEOF_CHUNK : Z := 16.

(** [struct chunk] at the address [ck_addr]; [trailing] is a bit field of 4 bits. *)
Record chunk := Chunk { ck_addr : Z; ck_size : Z; ck_in_use : bool; ck_trailing : Z }.

(** The chunks in the order of the links, and the two area pointers. *)
Record heap := Heap { chunks : list chunk; heap_area_bottom : Z; valloc_area_bottom : Z }.

Module Heap.
Section Memmgr.
(** The reply of the memory manager to [alloc_pages(order)] with a page base: an
    error code and the address of the pages. *)
Variable call_memory_alloc_pages : Z -> Z -> Z * Z.

Definition grow_heap_area (order : Z) : M heap Z :=
  h <- get ;;
  let addr := heap_area_bottom h in
  let bottom := u64 (addr + POW2 order * PAGE_SIZE) in
  put (Heap (chunks h) bottom (valloc_area_bottom h)) ;;;
  c_assert (bottom <? HEAP_AREA_END) ;;;
  ret addr.

Definition valloc (num_pages : Z) : M heap Z :=
  h <- get ;;
  order <- lift (ulllog2 num_pages) ;;
  let addr := valloc_area_bottom h in
  let bottom := u64 (addr + num_pages * PAGE_SIZE) in
  put (Heap (chunks h) (heap_area_bottom h) bottom) ;;;
  c_assert (bottom <? VALLOC_AREA_END) ;;;
  ret (PAGE_BASE addr order).

(** The request asks for order 0 whatever [order] is. *)
Definition sys_alloc_pages (order : Z) : M heap Z :=
  addr <- grow_heap_area order ;;
  let '(err, page) := call_memory_alloc_pages 0 (PAGE_BASE addr order) in
  c_assert (err =? OK) ;;;
  ret page.

Definition append_new_chunk (buf size : Z) : M heap unit :=
  modify (fun h =>
    Heap (chunks h ++ [Chunk buf (u32 (size - SIZEOF_CHUNK)) false 0])
      (heap_area_bottom h) (valloc_area_bottom h)).

Definition expand_arena : M heap unit :=
  ptr <- sys_alloc_pages MALLOC_PAGE_ORDER ;;
  c_assert (negb (ptr =? 0)) ;;;
  append_new_chunk ptr (PAGE_SIZE * POW2 MALLOC_PAGE_ORDER).

(** [split_chunk]: the chunk, and the new one after it if there is one. *)
Definition split_chunk (c : chunk) (size : Z) : list chunk :=
  let remaining_size := ck_size c - size in
  if remaining_size <=? SIZEOF_CHUNK then
    [Chunk (ck_addr c) size (ck_in_use c) (remaining_size mod 16)]
  else
    [Chunk (ck_addr c) size (ck_in_use c) 0;
     Chunk (ck_addr c + SIZEOF_CHUNK + size) (remaining_size - SIZEOF_CHUNK) false 0].

(** The loop of [alloc_from_arena]: the address of the chunk and the new list. *)
Fixpoint find_chunk (l : list chunk) (size : Z) : option (Z * list chunk) :=
  match l with
  | [] => None
  | c :: l =>
      if negb (ck_in_use c) && (size <=? ck_size c) then
        Some (ck_addr c, split_chunk (Chunk (ck_addr c) (ck_size c) true (ck_trailing c)) size ++ l)
      else
        match find_chunk l size with
        | Some (p, l') => Some (p, c :: l')
        | None => None
        end
  end.

Definition try_alloc (size : Z) : M heap (option Z) :=
  h <- get ;;
  match find_chunk (chunks h) size with
  | Some (p, l) => put (Heap l (heap_area_bottom h) (valloc_area_bottom h)) ;;; ret (Some p)
  | None => ret None
  end.

(** With one retry after the arena was expanded; 0 stands for NULL. *)
Definition alloc_from_arena (size : Z) : M heap Z :=
  r <- try_alloc size ;;
  match r with
  | Some p => ret p
  | None =>
      expand_arena ;;;
      r <- try_alloc size ;;
      match r with Some p => ret p | None => ret 0 end
  end.

Definition malloc (size : Z) : M heap Z :=
  let size := if size =? 0 then 1 else size in
  c <- alloc_from_arena size ;;
  c_assert (negb (c =? 0)) ;;;
  ret (c + SIZEOF_CHUNK).

Definition clear_in_use (a : Z) (c : chunk) : chunk :=
  if ck_addr c =? a then Chunk (ck_addr c) (ck_size c) false (ck_trailing c) else c.

Definition free (ptr : Z) : M heap unit :=
  let a := ptr - SIZEOF_CHUNK in
  h <- get ;;
  if existsb (fun c => ck_addr c =? a) (chunks h) then
    put (Heap (map (clear_in_use a) (chunks h)) (heap_area_bottom h) (valloc_area_bottom h))
  else undef.

End Memmgr.
End Heap.
Import Heap.

(** ** The chunks lie one after the other *)

Fixpoint chunks_ok (lo hi : Z) (l : list chunk) : Prop :=
  match l with
  | [] => lo <= hi
  | c :: l => lo <= ck_addr c /\ 0 <= ck_size c /\ chunks_ok (ck_addr c + SIZEOF_CHUNK + ck_size c) hi l
  end.

(** The blocks in use: address of the data and size. *)
Definition live (h : heap) : list (Z * Z) :=
  map (fun c => (ck_addr c + SIZEOF_CHUNK, ck_size c)) (filter (fun c => ck_in_use c = true) (chunks h)).

Definition heap_inv (h : heap) : Prop :=
  chunks_ok HEAP_AREA_START (heap_area_bottom h) (chunks h) /\ heap_area_bottom h < HEAP_AREA_END.

Lemma chunks_ok_lo lo lo' hi l : lo' <= lo -> chunks_ok lo hi l -> chunks_ok lo' hi l.
Proof. destruct l; simpl; [lia | intuition lia]. Qed.

Lemma chunks_ok_le lo hi l : chunks_ok lo hi l -> lo <= hi.
Proof. revert lo. induction l as [|c l IH]; simpl; intros lo H; [done|]. destruct H as (? & ? & H%IH). unfold SIZEOF_CHUNK in *. lia. Qed.

Lemma chunks_ok_app lo mid hi l1 l2 :
  chunks_ok lo mid l1 -> chunks_ok mid hi l2 -> chunks_ok lo hi (l1 ++ l2).
Proof.
  revert lo. induction l1 as [|c l1 IH]; simpl; intros lo H1 H2; [by eapply chunks_ok_lo|].
  destruct H1 as (? & ? & H1). repeat split; auto.
Qed.

Lemma chunks_ok_in lo hi l c : chunks_ok lo hi l -> c ∈ l ->
  lo <= ck_addr c /\ 0 <= ck_size c /\ ck_addr c + SIZEOF_CHUNK + ck_size c <= hi.
Proof.
  revert lo. induction l as [|d l IH]; simpl; intros lo H Hc; [by apply elem_of_nil in Hc|].
  destruct H as (? & ? & H). apply elem_of_cons in Hc as [->|Hc].
  - apply chunks_ok_le in H. lia.
  - destruct (IH _ H Hc) as (? & ? & ?). unfold SIZEOF_CHUNK in *. lia.
Qed.

Lemma find_chunk_ok size : 0 < size -> forall l lo hi p l',
  chunks_ok lo hi l -> find_chunk l size = Some (p, l') ->
  chunks_ok lo hi l' /\ lo <= p /\
  map (fun c => (ck_addr c + SIZEOF_CHUNK, ck_size c)) (filter (fun c => ck_in_use c = true) l') ≡ₚ
    (p + SIZEOF_CHUNK, size) ::
    map (fun c => (ck_addr c + SIZEOF_CHUNK, ck_size c)) (filter (fun c => ck_in_use c = true) l).
Proof.
  intros Hsize. induction l as [|c l IH]; intros lo hi p l' H E; [done|]. cbn [find_chunk] in E.
  cbn [chunks_ok] in H. destruct H as (H1 & H2 & H3).
  destruct (negb (ck_in_use c) && (size <=? ck_size c)) eqn:B.
  - injection E as <- <-. zbool. unfold split_chunk. cbn [ck_addr ck_size ck_in_use].
    rewrite (filter_cons_False _ c) by congruence.
    destruct (Z.leb_spec (ck_size c - size) SIZEOF_CHUNK); cbn [app chunks_ok ck_addr ck_size];
      unfold SIZEOF_CHUNK in *.
    + split; [|split; [lia|]].
      * split; [lia|]. split; [lia|]. eapply chunks_ok_lo; [|exact H3]. lia.
      * rewrite filter_cons_True by done. done.
    + split; [|split; [lia|]].
      * repeat split; try lia. eapply chunks_ok_lo; [|exact H3]. lia.
      * rewrite filter_cons_True, filter_cons_False by done. done.
  - destruct (find_chunk l size) as [[q l2]|] eqn:F; [|done]. injection E as <- <-.
    destruct (IH _ _ _ _ H3 eq_refl) as (H4 & H5 & H6). unfold SIZEOF_CHUNK in *.
    cbn [chunks_ok]. split; [unfold SIZEOF_CHUNK; auto|]. split; [lia|].
    rewrite !filter_cons. destruct (decide (ck_in_use c = true)); [|done].
    cbn [map]. rewrite H6. apply Permutation_swap.
Qed.

Section Safety.
Variable memmgr : Z -> Z -> Z * Z.
(** The pages of a successful reply are mapped at the page base of the request. *)
Hypothesis memmgr_maps : forall o addr order page,
  0 <= addr < HEAP_AREA_END -> addr mod PAGE_SIZE = 0 -> 0 <= order < 32 -> memmgr o (PAGE_BASE addr order) = (OK, page) -> page = addr.

Definition heap_ok (h : heap) : Prop := heap_inv h /\ heap_area_bottom h mod PAGE_SIZE = 0.

Lemma try_alloc_ok size h r h' :
  0 < size -> heap_ok h -> try_alloc size h = Done (r, h') ->
  heap_ok h' /\
  match r with
  | Some p => HEAP_AREA_START <= p /\ live h' ≡ₚ (p + SIZEOF_CHUNK, size) :: live h
  | None => h' = h /\ find_chunk (chunks h) size = None
  end.
Proof.
  intros Hs [[Hc Hb] Ha] E. unfold try_alloc in E. mstep E. injection Hrun as <- <-.
  destruct (find_chunk (chunks h) size) as [[p l]|] eqn:F.
  - mstep E. injection Hrun as _ <-. injection E as <- <-.
    destruct (find_chunk_ok size Hs _ _ _ _ _ Hc F) as (H1 & H2 & H3). by repeat split.
  - injection E as <- <-. by repeat split.
Qed.

Lemma expand_arena_ok h h' r :
  heap_ok h -> expand_arena memmgr h = Done (r, h') ->
  heap_ok h' /\ live h' = live h /\
  chunks h' = chunks h ++ [Chunk (heap_area_bottom h) (2 ^ 20 - SIZEOF_CHUNK) false 0].
Proof.
  intros [[Hc Hb] Ha] E. pose proof (chunks_ok_le _ _ _ Hc) as Hlo. unfold HEAP_AREA_START, HEAP_AREA_END in *.
  unfold expand_arena, sys_alloc_pages, grow_heap_area, append_new_chunk, bind, get, put, modify, c_assert, ret in E.
  change (POW2 MALLOC_PAGE_ORDER * PAGE_SIZE) with (2 ^ 20) in E. rewrite u64_small in E by lia.
  destruct (Z.ltb_spec (heap_area_bottom h + 2 ^ 20) HEAP_AREA_END) as [Hlt|]; [|done].
  destruct (memmgr 0 (PAGE_BASE (heap_area_bottom h) MALLOC_PAGE_ORDER)) as [err page] eqn:Hm.
  destruct (Z.eqb_spec err OK) as [->|]; [|done]. apply memmgr_maps in Hm; [| unfold HEAP_AREA_END; lia | done | unfold MALLOC_PAGE_ORDER; lia]. subst page.
  destruct (negb (heap_area_bottom h =? 0)); [|done]. injection E as _ <-. unfold HEAP_AREA_END in Hlt.
  change (u32 (PAGE_SIZE * POW2 MALLOC_PAGE_ORDER - SIZEOF_CHUNK)) with (2 ^ 20 - SIZEOF_CHUNK).
  cbn [chunks heap_area_bottom valloc_area_bottom]. unfold heap_ok, heap_inv, live. cbn [chunks heap_area_bottom].
  split; [split; [split|]|split; [|done]].
  - eapply chunks_ok_app; [exact Hc|]. cbn [chunks_ok ck_addr ck_size]. unfold SIZEOF_CHUNK. lia.
  - unfold HEAP_AREA_END. lia.
  - rewrite Zplus_mod, Ha. reflexivity.
  - rewrite filter_app, filter_cons_False by done. by rewrite filter_nil, app_nil_r.
Qed.

Lemma alloc_from_arena_ok size h p h' :
  0 < size -> heap_ok h -> alloc_from_arena memmgr size h = Done (p, h') -> p <> 0 ->
  heap_ok h' /\ HEAP_AREA_START <= p /\ live h' ≡ₚ (p + SIZEOF_CHUNK, size) :: live h.
Proof.
  intros Hs HI E Hp. unfold alloc_from_arena in E. mstep E.
  destruct (try_alloc_ok size h a s Hs HI Hrun) as [HI1 H1]. destruct a as [q|].
  - injection E as <- <-. destruct H1. auto.
  - destruct H1 as [-> _]. mstep E. destruct (expand_arena_ok _ _ _ HI1 Hrun0) as (HI2 & Hl & _). mstep E.
    destruct (try_alloc_ok size _ _ _ Hs HI2 Hrun1) as [HI3 H3]. destruct a0 as [q|].
    + injection E as <- <-. rewrite Hl in H3. destruct H3. auto.
    + injection E as <- <-. done.
Qed.

(** Blocks in use do not overlap. *)
Lemma live_disjoint_list l : forall lo hi, chunks_ok lo hi l ->
  ForallOrdPairs (fun a b : Z * Z => a.1 + a.2 + SIZEOF_CHUNK <= b.1)
    (map (fun c => (ck_addr c + SIZEOF_CHUNK, ck_size c)) (filter (fun c => ck_in_use c = true) l)).
Proof.
  induction l as [|c l IH]; intros lo hi H; [constructor|]. cbn [chunks_ok] in H. destruct H as (H1 & H2 & H3).
  rewrite filter_cons. destruct (decide (ck_in_use c = true)); [|by eapply IH].
  cbn [map]. constructor; [|by eapply IH]. apply Forall_forall. intros [a n] Hin. simpl.
  apply list_elem_of_fmap in Hin as (d & [= -> ->] & Hd).
  apply list_elem_of_filter in Hd as [_ Hd]. destruct (chunks_ok_in _ _ _ _ H3 Hd). lia.
Qed.

(** C33: [malloc] hands out memory that nobody uses.  From a heap in order, whenever
    [malloc(size)] returns [p], the heap is in order again, the blocks in use are
    the old ones, untouched, and the new one ([size] bytes at [p], 1 for a size
    of 0), no two of them overlap, and all lie in the heap area. *)
Theorem malloc_safe (h h' : heap) (size p : Z) (HI : heap_ok h) (Hs : 0 <= size)
    (E : malloc memmgr size h = Done (p, h')) :
  heap_ok h' /\ live h' ≡ₚ (p, if size =? 0 then 1 else size) :: live h /\
  ForallOrdPairs (fun a b : Z * Z => a.1 + a.2 + SIZEOF_CHUNK <= b.1) (live h') /\
  forall b, b ∈ live h' -> HEAP_AREA_START <= b.1 /\ b.1 + b.2 < HEAP_AREA_END.
Proof.
  unfold malloc in E. mstep E. mstep E. unfold c_assert in Hrun0.
  destruct (Z.eqb_spec a 0); [done|]. injection Hrun0 as _ ->. injection E as <- <-.
  assert (Hs' : 0 < if size =? 0 then 1 else size) by (destruct (Z.eqb_spec size 0); lia).
  destruct (alloc_from_arena_ok _ _ _ _ Hs' HI Hrun) as (HI' & Hlo & Hl); [done|].
  split; [done|]. split; [done|]. destruct HI' as [[Hc Hb] _]. split; [by eapply live_disjoint_list|].
  intros b Hb'. unfold live in Hb'. apply list_elem_of_fmap in Hb' as (d & -> & Hd).
  apply list_elem_of_filter in Hd as [_ Hd]. destruct (chunks_ok_in _ _ _ _ Hc Hd) as (? & ? & ?). simpl.
  unfold SIZEOF_CHUNK in *. lia.
Qed.

End Safety.

(** [free] gives a block back and leaves the others alone: after [free] of a
    block in use the heap is in order and the blocks in use are the others. *)
Theorem free_correct (h : heap) (p size : Z) (HI : heap_ok h) (Hp : (p, size) ∈ live h) :
  exists h', free p h = Done (tt, h') /\ heap_ok h' /\ live h ≡ₚ (p, size) :: live h'.
Proof.
  destruct HI as [[Hc Hb] Ha]. unfold live in Hp. apply list_elem_of_fmap in Hp as (d & [= Hpd ->] & Hd).
  apply list_elem_of_filter in Hd as [Hu Hd]. apply list_elem_of_split in Hd as (l1 & l2 & Hl).
  assert (H1 : forall c, c ∈ l1 -> ck_addr c <> ck_addr d).
  { intros c Hin. rewrite Hl in Hc. clear -Hc Hin. revert Hc. generalize HEAP_AREA_START.
    induction l1 as [|x l1 IH]; intros lo H; [by apply elem_of_nil in Hin|]. cbn [app chunks_ok] in H.
    destruct H as (_ & ? & H). apply elem_of_cons in Hin as [->|Hin]; [|by eapply IH].
    destruct (chunks_ok_in _ _ _ d H); [set_solver|]. unfold SIZEOF_CHUNK in *. lia. }
  assert (H2 : forall c, c ∈ l2 -> ck_addr c <> ck_addr d).
  { intros c Hin. rewrite Hl in Hc. clear -Hc Hin. revert Hc. generalize HEAP_AREA_START.
    induction l1 as [|x l1 IH]; intros lo H; cbn [app chunks_ok] in H; [|by eapply IH; apply H].
    destruct H as (_ & ? & H). destruct (chunks_ok_in _ _ _ c H); [done|]. unfold SIZEOF_CHUNK in *. lia. }
  assert (Hmap : forall l, (forall c, c ∈ l -> ck_addr c <> ck_addr d) -> map (clear_in_use (ck_addr d)) l = l).
  { induction l as [|x l IH]; intros H; [done|]. cbn [map]. rewrite IH by set_solver. f_equal.
    unfold clear_in_use. destruct (Z.eqb_spec (ck_addr x) (ck_addr d)); [|done]. exfalso. apply (H x); [set_solver | done]. }
  unfold free, bind, get. replace (p - SIZEOF_CHUNK) with (ck_addr d) by lia.
  assert (existsb (fun c => ck_addr c =? ck_addr d) (chunks h) = true) as ->.
  { apply existsb_exists. exists d. rewrite Hl. split; [apply in_or_app; right; by left | apply Z.eqb_refl]. }
  eexists. split; [reflexivity|]. unfold heap_ok, heap_inv, live. cbn [chunks heap_area_bottom].
  rewrite Hl, map_app. cbn [map]. rewrite (Hmap l1 H1), (Hmap l2 H2).
  assert (clear_in_use (ck_addr d) d = Chunk (ck_addr d) (ck_size d) false (ck_trailing d)) as ->
    by (unfold clear_in_use; by rewrite Z.eqb_refl).
  rewrite !filter_app, filter_cons_True, filter_cons_False by done. rewrite !map_app. cbn [map]. rewrite Hpd.
  split; [split; [split; [|done]|done]|by rewrite Permutation_middle].
  rewrite Hl in Hc. clear -Hc. revert Hc. generalize HEAP_AREA_START.
  induction l1 as [|x l1 IH]; intros lo H; cbn [app chunks_ok] in *; [done|].
  destruct H as (? & ? & ?). auto.
Qed.

(** A memory manager that maps every request. *)
Definition ex_memmgr (order page_base : Z) : Z * Z := (OK, PAGE_PAYLOAD_ADDR page_base).

Lemma ex_memmgr_maps o addr order page :
  0 <= addr < HEAP_AREA_END -> addr mod PAGE_SIZE = 0 -> 0 <= order < 32 ->
  ex_memmgr o (PAGE_BASE addr order) = (OK, page) -> page = addr.
Proof.
  intros Ha Hm Ho [= <-]. unfold PAGE_BASE, HEAP_AREA_END, PAGE_SIZE in *.
  rewrite (lor_low_add addr order 12) by (done || lia).
  rewrite PAGE_PAYLOAD_ADDR_mod by lia. unfold PAGE_SIZE.
  rewrite Zplus_mod, Hm, Z.add_0_l, Z.mod_mod, Z.mod_small by lia. lia.
Qed.

Definition ex_heap : heap := Heap [] HEAP_AREA_START VALLOC_AREA_START.

Lemma ex_heap_ok : heap_ok ex_heap.
Proof. split; [split|]; vm_compute; congruence. Qed.

Definition ex_heap1 : heap := match malloc ex_memmgr 24 ex_heap with Done (_, h) => h | _ => ex_heap end.

Lemma malloc_safe_witness :
  heap_ok ex_heap1 /\ live ex_heap1 ≡ₚ [(0x70000010, 24)].
Proof.
  destruct (malloc_safe ex_memmgr ex_memmgr_maps ex_heap ex_heap1 24 0x70000010) as (H1 & H2 & _).
  - exact ex_heap_ok.
  - lia.
  - vm_compute. reflexivity.
  - split; [exact H1 | exact H2].
Defined.

Lemma free_correct_witness :
  exists h', free 0x70000010 ex_heap1 = Done (tt, h') /\ heap_ok h' /\
    live ex_heap1 ≡ₚ (0x70000010, 24) :: live h'.
Proof.
  apply (free_correct ex_heap1 0x70000010 24).
  - split; [split|]; vm_compute; intuition congruence.
  - vm_compute. left.
Defined.
