(* ===== verification/Printf.v ===== *)
(** * Formatted output

    [libs/libresea/printf.c] and [kernel/printk.c].  Both have the same
    [print_uint] and the same loop over the format; they differ in the
    conversions with a letter after [%p], and [printf] has [%v].  The output is
    the sequence of the characters passed to [putchar]. *)
From S2P Require Import Prelude Message CString.
Import CStr.

(** Arguments of a variadic call, as they are passed. *)
Inductive varg :=
| VInt (z : Z)      (* int or unsigned *)
| VLong (z : Z)     (* long long, unsigned long long or unsigned long *)
| VPtr (z : Z)      (* a pointer that is printed as a number *)
| VStr (s : list Z) (* char * *)
| VBuf (s : list Z) (* uint8_t * *)
| VObj (name : list Z) (id : Z)          (* thread or channel: name of the process, id *)
| VSym (name : list Z) (offset : Z).     (* symbol: what find_symbol gives *)

(** ASCII codes of the format language. *)
Definition ch_percent : Z := 37.
Definition ch_0 : Z := 48.
Definition ch_minus : Z := 45.
Definition ch_space : Z := 32.
(** ["<invalid format>"] *)
Definition invalid_format : list Z :=
  [60; 105; 110; 118; 97; 108; 105; 100; 32; 102; 111; 114; 109; 97; 116; 62].

Module Fmt.

(** ["0123456789abcdef"[d]] *)
Definition digit (d : Z) : Z := if d <? 10 then 48 + d else 97 + (d - 10).

(** The [do ... while] loop of [print_uint]; the index it stores at is [i + 1]. *)
Fixpoint uint_loop (i : nat) (n base width : Z) (tmp : list Z) : list Z * Z :=
  let tmp := digit (n mod base) :: tmp in
  let n := n / base in
  let width := width - 1 in
  match i with
  | O => (tmp, width)
  | S i => if 0 <? n then uint_loop i n base width tmp else (tmp, width)
  end.

(** [tmp] has 32 bytes; the digits end at index 30. *)
Definition print_uint (n base pad width : Z) : list Z :=
  let '(ds, w) := uint_loop 29 n base width [] in
  replicate (Z.to_nat w) pad ++ ds.

(** [puts] and [print_str]. *)
Fixpoint puts (s : list Z) : outcome (list Z) :=
  match s with
  | [] => Undef
  | c :: s => if c =? 0 then Done [] else outcome_bind (puts s) (fun out => Done (c :: out))
  end.

(** The loop over attributes after a [%]: length, padding, and the format at the
    first character that is no attribute. *)
Fixpoint attrs (fmt : list Z) (num_len pad : Z) : outcome (Z * Z * list Z) :=
  match fmt with
  | [] => Undef
  | c :: rest =>
      if c =? 0 then Done (num_len, pad, fmt)
      else if c =? 108 (* l *) then attrs rest (num_len + 1) pad
      else if c =? 104 (* h *) then attrs rest (num_len - 1) pad
      else if c =? 48 (* 0 *) then attrs rest num_len ch_0
      else if c =? 35 (* # *) then attrs rest num_len pad
      else Done (num_len, pad, fmt)
  end.

Definition pointer_digits (p : Z) : list Z := print_uint p 16 ch_0 16.

(** [%ph]: hex dump. *)
Fixpoint hex_dump (i : Z) (buf : list Z) (len : nat) : outcome (list Z) :=
  match len with
  | O => Done []
  | S len =>
      match buf with
      | [] => Undef
      | b :: buf =>
          let head :=
            if i mod 16 =? 0 then
              (if 0 <? i then [10] else []) ++ [9] ++ print_uint i 16 ch_0 4 ++ [58; 32]
            else [] in
          outcome_bind (hex_dump (i + 1) buf len) (fun rest =>
            Done (head ++ print_uint b 16 ch_0 2 ++ [32] ++ rest))
      end
  end.

(** [print_ptr] of [printf.c], after the letter [ch] was read. *)
Definition user_print_ptr (ch : Z) (args : list varg) : outcome (list Z * list varg) :=
  if ch =? 104 (* h *) then
    match args with
    | VBuf buf :: VLong len :: args =>
        outcome_bind (hex_dump 0 buf (Z.to_nat len)) (fun out => Done (out, args))
    | _ => Undef
    end
  else
    match args with
    | VPtr p :: args => Done (pointer_digits p ++ [ch], args)
    | _ => Undef
    end.

(** [print_ptr] of [printk.c]. *)
Definition kernel_print_ptr (ch : Z) (args : list varg) : outcome (list Z * list varg) :=
  if (ch =? 84 (* T *)) || (ch =? 67 (* C *)) then
    match args with
    | VObj name id :: args =>
        outcome_bind (puts name) (fun n =>
          Done ([if ch =? 84 then 35 else 64] ++ n ++ [46] ++ print_uint (u64 id) 10 ch_space 0, args))
    | _ => Undef
    end
  else if ch =? 83 (* S *) then
    match args with
    | VSym name offset :: args =>
        outcome_bind (puts name) (fun n =>
          Done (n ++ (if 0 <? offset then [43; 48; 120] ++ print_uint offset 16 0 0 else []), args))
    | _ => Undef
    end
  else
    match args with
    | VPtr p :: args => Done (pointer_digits p ++ [ch], args)
    | _ => Undef
    end.

Section Conversions.
Variable print_ptr : Z -> list varg -> outcome (list Z * list varg).
(** Whether the conversion [%v] is there. *)
Variable has_value : bool.

(** [va_arg] of an integer: [long long] for the attribute [ll], else [int]. *)
Definition int_arg (num_len : Z) (args : list varg) : outcome (Z * list varg) :=
  match args with
  | VLong z :: args => if num_len =? 3 then Done (z, args) else Undef
  | VInt z :: args => if num_len =? 3 then Undef else Done (z, args)
  | _ => Undef
  end.

(** One conversion: the format after the attributes, starting with the letter.
    [None] for the rest of the format is the early return. *)
Definition conversion (num_len pad : Z) (fmt : list Z) (args : list varg)
    : outcome (list Z * list varg * option (list Z)) :=
  match fmt with
  | [] => Undef
  | c :: fmt =>
      if c =? 100 (* d *) then
        outcome_bind (int_arg num_len args) (fun '(z, args) =>
          if z =? - 2 ^ 63 then Undef
          else if z <? 0 then Done ([ch_minus] ++ print_uint (- z) 10 pad 0, args, Some fmt)
          else Done (print_uint z 10 pad 0, args, Some fmt))
      else if (c =? 120 (* x *)) || (c =? 117 (* u *)) then
        outcome_bind (int_arg num_len args) (fun '(z, args) =>
          let n := if num_len =? 3 then u64 z else u32 z in
          Done (print_uint n (if c =? 120 then 16 else 10) pad 0, args, Some fmt))
      else if c =? 99 (* c *) then
        match args with VInt z :: args => Done ([u8 z], args, Some fmt) | _ => Undef end
      else if c =? 115 (* s *) then
        match args with
        | VStr s :: args => outcome_bind (puts s) (fun out => Done (out, args, Some fmt))
        | _ => Undef
        end
      else if has_value && (c =? 118 (* v *)) then
        match fmt with
        | [] => Undef
        | ch :: fmt =>
            if ch =? 69 (* E *) then
              match args with
              | VInt err :: args =>
                  if err =? - 2 ^ 31 then Undef
                  else Done (print_uint (u64 (- err)) 10 0 0, args, Some fmt)
              | _ => Undef
              end
            else Done ([], args, Some fmt)
        end
      else if c =? 112 (* p *) then
        match fmt with
        | [] => Undef
        | ch :: fmt => outcome_bind (print_ptr ch args) (fun '(out, args) => Done (out, args, Some fmt))
        end
      else if c =? ch_percent then Done ([ch_percent], args, Some fmt)
      else Done (invalid_format, args, None)
  end.

(** The loop over the format.  The format is a C string with its NUL; its
    length bounds the number of rounds. *)
Fixpoint vformat (fuel : nat) (fmt : list Z) (args : list varg) : outcome (list Z) :=
  match fuel with
  | O => Fuel
  | S fuel =>
      match fmt with
      | [] => Undef
      | c :: rest =>
          if c =? 0 then Done []
          else if negb (c =? ch_percent) then
            outcome_bind (vformat fuel rest args) (fun out => Done (c :: out))
          else
            outcome_bind (attrs rest 1 ch_space) (fun '(num_len, pad, fmt) =>
            outcome_bind (conversion num_len pad fmt args) (fun '(out, args, next) =>
              match next with
              | None => Done out
              | Some fmt => outcome_bind (vformat fuel fmt args) (fun rest => Done (out ++ rest))
              end))
      end
  end.
End Conversions.

Definition vprintf (fmt : list Z) (args : list varg) : outcome (list Z) :=
  vformat user_print_ptr true (S (length fmt)) fmt args.

Definition vprintk (fmt : list Z) (args : list varg) : outcome (list Z) :=
  vformat kernel_print_ptr false (S (length fmt)) fmt args.

End Fmt.
Import Fmt.

(** ** Numbers *)

Definition digit_value (c : Z) : Z := if c <? 97 then c - 48 else c - 97 + 10.
Definition number (base : Z) (ds : list Z) : Z := foldl (fun a c => a * base + digit_value c) 0 ds.

Lemma digit_value_digit d : 0 <= d < 16 -> digit_value (digit d) = d.
Proof.
  intros. unfold digit, digit_value. destruct (Z.ltb_spec d 10).
  - destruct (Z.ltb_spec (48 + d) 97); lia.
  - destruct (Z.ltb_spec (97 + (d - 10)) 97); lia.
Qed.

Lemma digit_zero d : 0 <= d < 16 -> digit d = ch_0 -> d = 0.
Proof. intros ? H%(f_equal digit_value). rewrite digit_value_digit in H by done. done. Qed.

Lemma number_snoc base ds c : number base (ds ++ [c]) = number base ds * base + digit_value c.
Proof. unfold number. by rewrite foldl_app. Qed.

Lemma uint_loop_ok base : 2 <= base <= 16 -> forall i n width tmp,
  0 <= n < base ^ (Z.of_nat i + 1) ->
  exists ds, uint_loop i n base width tmp = (ds ++ tmp, width - Z.of_nat (length ds)) /\
    number base ds = n /\ ds <> [] /\ (hd 0 ds = ch_0 -> n = 0 /\ ds = [ch_0]) /\
    Forall (fun c => exists d, 0 <= d < base /\ c = digit d) ds.
Proof.
  intros Hb. induction i as [|i IH]; intros n width tmp Hn; cbn [uint_loop];
    pose proof (Z.mod_pos_bound n base ltac:(lia)) as Hm; pose proof (Z.div_mod n base ltac:(lia)) as Hd.
  - exists [digit (n mod base)]. simpl in Hn. rewrite Z.pow_1_r in Hn. rewrite Z.mod_small in * by lia.
    split; [done|]. split; [unfold number; simpl; rewrite digit_value_digit; lia|].
    split; [done|]. split; [simpl; intros H; apply digit_zero in H; [by subst | lia]|].
    constructor; [eauto | constructor].
  - destruct (Z.ltb_spec 0 (n / base)) as [Hpos|Hz].
    + destruct (IH (n / base) (width - 1) (digit (n mod base) :: tmp)) as (ds & -> & Hv & Hne & Hlead & Hall).
      { split; [lia|]. apply Z.div_lt_upper_bound; [lia|].
        replace (Z.of_nat (S i) + 1) with (1 + (Z.of_nat i + 1)) in Hn by lia. rewrite Z.pow_add_r in Hn by lia. lia. }
      exists (ds ++ [digit (n mod base)]). split; [|split; [|split; [|split]]].
      * rewrite <- app_assoc, length_app. simpl. f_equal. lia.
      * rewrite number_snoc, Hv, digit_value_digit by lia. lia.
      * by destruct ds.
      * destruct ds as [|x ds]; [done|]. simpl in *. intros Hx. destruct (Hlead Hx). lia.
      * apply Forall_app. split; [done|]. constructor; [eauto | constructor].
    + assert (n / base = 0) by (pose proof (Z.div_pos n base); lia).
      exists [digit (n mod base)]. split; [done|].
      assert (n = n mod base) as Hnm by lia.
      split; [unfold number; simpl; rewrite digit_value_digit; lia|].
      split; [done|]. split; [simpl; intros Hx; apply digit_zero in Hx; [rewrite Hx in *; split; [lia | done] | lia]|].
      constructor; [eauto | constructor].
Qed.

(** [print_uint] prints every 64-bit number in base 10 or 16: the output is
    padding up to the width followed by digits of that base whose value is the
    number, with no leading zero except for 0 itself. *)
Theorem print_uint_correct (n base pad width : Z)
    (Hn : 0 <= n < 2 ^ 64) (Hbase : base = 10 \/ base = 16) :
  exists ds, print_uint n base pad width = replicate (Z.to_nat (width - Z.of_nat (length ds))) pad ++ ds /\
    number base ds = n /\ ds <> [] /\ (hd 0 ds = ch_0 -> n = 0 /\ ds = [ch_0]) /\
    Forall (fun c => exists d, 0 <= d < base /\ c = digit d) ds.
Proof.
  destruct (uint_loop_ok base ltac:(lia) 29 n width []) as (ds & E & H).
  { change (Z.of_nat 29 + 1) with 30. destruct Hbase as [->| ->]; lia. }
  exists ds. unfold print_uint. rewrite E, app_nil_r. done.
Qed.

Lemma print_uint_correct_witness :
  exists ds, print_uint 255 16 ch_0 4 = replicate (Z.to_nat (4 - Z.of_nat (length ds))) ch_0 ++ ds /\
    number 16 ds = 255 /\ ds <> [] /\ (hd 0 ds = ch_0 -> 255 = 0 /\ ds = [ch_0]) /\
    Forall (fun c => exists d, 0 <= d < 16 /\ c = digit d) ds.
Proof. apply (print_uint_correct 255 16 ch_0 4); lia. Defined.

(** ** The loop over the format *)

Lemma attrs_length fmt : forall num_len pad l p rest,
  attrs fmt num_len pad = Done (l, p, rest) -> (length rest <= length fmt)%nat.
Proof.
  induction fmt as [|c fmt IH]; intros num_len pad l p rest; cbn [attrs]; [done|].
  repeat case_match; intros E; try (injection E as -> -> <-; done); apply IH in E; simpl; lia.
Qed.

Lemma attrs_no_fuel fmt : forall num_len pad, attrs fmt num_len pad <> Fuel.
Proof. induction fmt; intros; cbn [attrs]; repeat case_match; auto. Qed.

Lemma puts_no_fuel s : puts s <> Fuel.
Proof. induction s as [|c s IH]; cbn [puts]; [done|]. case_match; [done|]. by destruct (puts s). Qed.

Lemma hex_dump_no_fuel len : forall i buf, hex_dump i buf len <> Fuel.
Proof.
  induction len as [|len IH]; intros i [|b buf]; cbn [hex_dump]; try done.
  specialize (IH (i + 1) buf). by destruct (hex_dump (i + 1) buf len).
Qed.

Lemma user_print_ptr_no_fuel ch args : user_print_ptr ch args <> Fuel.
Proof.
  unfold user_print_ptr. repeat case_match; try done.
  pose proof (hex_dump_no_fuel (Z.to_nat z) 0 s). by destruct (hex_dump 0 s (Z.to_nat z)).
Qed.

Lemma kernel_print_ptr_no_fuel ch args : kernel_print_ptr ch args <> Fuel.
Proof.
  unfold kernel_print_ptr. repeat case_match; try done;
    pose proof (puts_no_fuel name); by destruct (puts name).
Qed.

Section FormatLoop.
Context (print_ptr : Z -> list varg -> outcome (list Z * list varg)) (has_value : bool).
Hypothesis Hptr : forall ch args, print_ptr ch args <> Fuel.

Lemma conversion_length num_len pad fmt args out args' rest :
  conversion print_ptr has_value num_len pad fmt args = Done (out, args', Some rest) ->
  (length rest < length fmt)%nat.
Proof.
  unfold conversion, outcome_bind. destruct fmt as [|c fmt]; [done|].
  repeat case_match; intros; simplify_eq/=; lia.
Qed.

Lemma conversion_no_fuel num_len pad fmt args : conversion print_ptr has_value num_len pad fmt args <> Fuel.
Proof.
  unfold conversion, outcome_bind, int_arg. destruct fmt as [|c fmt]; [done|].
  repeat case_match; try done; simplify_eq.
  - by destruct (puts_no_fuel s).
  - by edestruct Hptr.
Qed.

Lemma vformat_no_fuel f : forall fmt args, (length fmt < f)%nat -> vformat print_ptr has_value f fmt args <> Fuel.
Proof.
  induction f as [|f IH]; intros fmt args Hf; [lia|]. cbn [vformat].
  destruct fmt as [|c fmt]; [done|]. simpl in Hf. case_match; [done|]. case_match.
  { pose proof (IH fmt args ltac:(lia)). by destruct (vformat _ _ f fmt args). }
  pose proof (attrs_no_fuel fmt 1 ch_space). destruct (attrs fmt 1 ch_space) as [[[l p] r]| | |] eqn:Ea; try done.
  apply attrs_length in Ea. cbn [outcome_bind].
  pose proof (conversion_no_fuel l p r args).
  destruct (conversion print_ptr has_value l p r args) as [[[out args'] [next|]]| | |] eqn:Ec; try done.
  apply conversion_length in Ec. cbn [outcome_bind].
  pose proof (IH next args' ltac:(lia)). by destruct (vformat _ _ f next args').
Qed.

Lemma vformat_fuel f1 : forall f2 fmt args, (length fmt < f1)%nat -> (length fmt < f2)%nat ->
  vformat print_ptr has_value f1 fmt args = vformat print_ptr has_value f2 fmt args.
Proof.
  induction f1 as [|f1 IH]; intros [|f2] fmt args H1 H2; try lia. cbn [vformat].
  destruct fmt as [|c fmt]; [done|]. simpl in *. case_match; [done|]. case_match.
  { by rewrite (IH f2 fmt args) by lia. }
  destruct (attrs fmt 1 ch_space) as [[[l p] r]| | |] eqn:Ea; try done. apply attrs_length in Ea. cbn [outcome_bind].
  destruct (conversion print_ptr has_value l p r args) as [[[out args'] [next|]]| | |] eqn:Ec; try done.
  apply conversion_length in Ec. cbn [outcome_bind]. by rewrite (IH f2 next args') by lia.
Qed.

Lemma vformat_text text fmt args :
  Forall (fun c => c <> 0 /\ c <> ch_percent) text ->
  vformat print_ptr has_value (S (length (text ++ fmt))) (text ++ fmt) args =
  outcome_bind (vformat print_ptr has_value (S (length fmt)) fmt args) (fun out => Done (text ++ out)).
Proof.
  induction 1 as [|c text [H0 Hp] _ IH]; cbn [app].
  { by destruct (vformat _ _ _ fmt args). }
  change (length (c :: text ++ fmt)) with (S (length (text ++ fmt))).
  remember (S (length (text ++ fmt))) as f. remember (S (length fmt)) as g. cbn [vformat].
  rewrite (proj2 (Z.eqb_neq c 0) H0), (proj2 (Z.eqb_neq c ch_percent) Hp). cbn [negb].
  rewrite IH. by destruct (vformat _ _ _ fmt args).
Qed.
End FormatLoop.

(** The decimal numeral of an integer. *)
Definition decimal (z : Z) : list Z :=
  if z <? 0 then ch_minus :: print_uint (- z) 10 ch_space 0 else print_uint z 10 ch_space 0.

(** [vprintf] and [vprintk] return for every format and every arguments:
    the loop over the format needs no more rounds than the format has
    characters. *)
Theorem format_terminates (fmt : list Z) (args : list varg) :
  vprintf fmt args <> Fuel /\ vprintk fmt args <> Fuel.
Proof.
  split; apply vformat_no_fuel; try lia.
  - apply user_print_ptr_no_fuel.
  - apply kernel_print_ptr_no_fuel.
Qed.

(** Formats are printed left to right: text without [%] is copied, [%d]
    prints the decimal numeral of the next argument for every [int], and the
    rest of the format is printed with the remaining arguments. *)
Theorem vprintf_decimal (text rest : list Z) (z : Z) (args : list varg)
    (Htext : Forall (fun c => c <> 0 /\ c <> ch_percent) text)
    (Hint : - 2 ^ 31 <= z < 2 ^ 31) :
  vprintf (text ++ [ch_percent; 100] ++ rest) (VInt z :: args) =
  outcome_bind (vprintf rest args) (fun out => Done (text ++ decimal z ++ out)).
Proof.
  unfold vprintf. rewrite vformat_text by done.
  change (S (length ([ch_percent; 100] ++ rest))) with (S (S (S (length rest)))).
  set (f := S (S (length rest))).
  assert (vformat user_print_ptr true (S f) ([ch_percent; 100] ++ rest) (VInt z :: args) =
          outcome_bind (vformat user_print_ptr true f rest args) (fun out => Done (decimal z ++ out))) as ->.
  { cbn [vformat app]. change (ch_percent =? 0) with false. change (ch_percent =? ch_percent) with true. cbn [negb].
    change (attrs (100 :: rest) 1 ch_space) with (Done (1, ch_space, 100 :: rest)). cbn [outcome_bind].
    unfold conversion. change (100 =? 100) with true. cbn [int_arg outcome_bind].
    change (1 =? 3) with false. cbn iota. unfold int_arg. change (1 =? 3) with false. cbn [outcome_bind].
    destruct (Z.eqb_spec z (- 2 ^ 63)); [lia|]. unfold decimal. by destruct (z <? 0). }
  rewrite (vformat_fuel _ _ f (S (length rest))) by (unfold f; lia).
  by destruct (vformat user_print_ptr true (S (length rest)) rest args).
Qed.

(** ["x=%d!"] *)
Lemma vprintf_decimal_witness :
  vprintf ([120; 61] ++ [ch_percent; 100] ++ [33; 0]) [VInt (-42)] = Done [120; 61; 45; 52; 50; 33].
Proof.
  rewrite (vprintf_decimal [120; 61] [33; 0] (-42) []); [vm_compute; reflexivity | | lia].
  repeat constructor; discriminate.
Defined.

(** A format that ends with [%p] is read past its end: [print_ptr] takes the
    terminating NUL for the letter after [%p], and the loop goes on behind it.
    With a letter in between, the pointer is printed. *)
Theorem trailing_pointer_overruns (p : Z) :
  vprintf [ch_percent; 112; 0] [VPtr p] = Undef /\
  vprintk [ch_percent; 112; 0] [VPtr p] = Undef /\
  vprintf [ch_percent; 112; 10; 0] [VPtr p] = Done (pointer_digits p ++ [10]).
Proof.
  split; [done|]. split; [done|].
  change (vprintf [ch_percent; 112; 10; 0] [VPtr p]) with (Done ((pointer_digits p ++ [10]) ++ [])).
  by rewrite app_nil_r.
Qed.
