(* ===== verification/Screen.v ===== *)
(** * The text screen of the kernel

    [kernel/arch/x64/screen.c]: the driver of the 80 x 25 text mode that [printk]
    writes to.  The state is the video memory, the static variables of
    [x64_screen_putchar] and the registers of the display controller that hold the
    position of the cursor. *)
From S2P Require Import Prelude.

Definition COLOR : Z := 0x03.
Definition TAB_SIZE : Z := 4.
Definition SCREEN_HEIGHT : Z := 25.
Definition SCREEN_WIDTH : Z := 80.

Record screen := Screen {
  sc_x : Z;
  sc_y : Z;
  sc_in_esc : bool;
  sc_vram : list Z;
  sc_crtc_index : Z;
  sc_crtc : Z -> Z
}.

Definition set_x v (s : screen) : screen := Screen v (sc_y s) (sc_in_esc s) (sc_vram s) (sc_crtc_index s) (sc_crtc s).
Definition set_y v (s : screen) : screen := Screen (sc_x s) v (sc_in_esc s) (sc_vram s) (sc_crtc_index s) (sc_crtc s).
Definition set_in_esc v (s : screen) : screen := Screen (sc_x s) (sc_y s) v (sc_vram s) (sc_crtc_index s) (sc_crtc s).
Definition set_vram v (s : screen) : screen := Screen (sc_x s) (sc_y s) (sc_in_esc s) v (sc_crtc_index s) (sc_crtc s).

Module Screen.

(** The ports of the display controller: one selects a register, the other writes
    it. *)
Definition asm_out8 (port v : Z) : M screen unit :=
  modify (fun s =>
    if port =? 0x3d4 then Screen (sc_x s) (sc_y s) (sc_in_esc s) (sc_vram s) (u8 v) (sc_crtc s)
    else if port =? 0x3d5 then
      Screen (sc_x s) (sc_y s) (sc_in_esc s) (sc_vram s) (sc_crtc_index s)
        (fun r => if r =? sc_crtc_index s then u8 v else sc_crtc s r)
    else s).

(** [inlined_memcpy] of one line of cells. *)
Definition copy_line (dst src : Z) : M screen unit :=
  s <- get ;;
  l <- need (arr_read (sc_vram s) (src * SCREEN_WIDTH) SCREEN_WIDTH) ;;
  v <- need (arr_write (sc_vram s) (dst * SCREEN_WIDTH) l) ;;
  put (set_vram v s).

(** The loop over the lines from [from] on. *)
Fixpoint scroll_loop (n : nat) (from diff : Z) : M screen unit :=
  match n with
  | O => ret tt
  | S n => copy_line (from - diff) from ;;; scroll_loop n (from + 1) diff
  end.

Definition scroll : M screen unit :=
  s <- get ;;
  let diff := sc_y s - SCREEN_HEIGHT + 1 in
  scroll_loop (Z.to_nat (SCREEN_HEIGHT - diff)) diff diff ;;;
  s <- get ;;
  v <- need (arr_write (sc_vram s) ((SCREEN_HEIGHT - diff) * SCREEN_WIDTH)
               (replicate (Z.to_nat (SCREEN_WIDTH * diff)) 0)) ;;
  put (set_y (SCREEN_HEIGHT - 1) (set_vram v s)).

(** The new line and the scrolling, if the character needs them. *)
Definition advance (ch : Z) : M screen unit :=
  s <- get ;;
  (if (ch =? 10) || (SCREEN_WIDTH <=? sc_x s) then modify (fun s => set_y (sc_y s + 1) (set_x 0 s)) else ret tt) ;;;
  s <- get ;;
  if SCREEN_HEIGHT <=? sc_y s then scroll else ret tt.

(** The position of the cursor. *)
Definition move_cursor : M screen unit :=
  s <- get ;;
  let pos := sc_y s * SCREEN_WIDTH + sc_x s in
  asm_out8 0x3d4 0x0f ;;;
  asm_out8 0x3d5 (Z.land pos 0xff) ;;;
  asm_out8 0x3d4 0x0e ;;;
  asm_out8 0x3d5 (Z.land (Z.shiftr pos 8) 0xff).

(** [for (...; i > 0; i--)] with a call in the body. *)
Fixpoint times (n : nat) (m : M screen unit) : M screen unit :=
  match n with
  | O => ret tt
  | S n => m ;;; times n m
  end.

Section Recursion.
(** The recursive call, for the blanks of a tab. *)
Variable x64_screen_putchar : Z -> M screen unit.

Definition putchar_body (ch : Z) : M screen unit :=
  s <- get ;;
  if sc_in_esc s then put (set_in_esc (negb (ch =? 109)) s)
  else if ch =? 27 then put (set_in_esc true s)
  else
    advance ch ;;;
    (if ch =? 9 then
       s <- get ;;
       times (Z.to_nat (TAB_SIZE - Z.rem (sc_x s) TAB_SIZE)) (x64_screen_putchar 32)
     else if negb (ch =? 10) && negb (ch =? 13) then
       s <- get ;;
       v <- need (arr_set (sc_vram s) (sc_y s * SCREEN_WIDTH + sc_x s) (u16 (Z.lor (Z.shiftl COLOR 8) ch))) ;;
       put (set_x (sc_x s + 1) (set_vram v s))
     else ret tt) ;;;
    move_cursor.
End Recursion.

(** A tab calls the function for blanks, and a blank does not call it again. *)
Definition x64_screen_putchar (ch : Z) : M screen unit :=
  putchar_body (putchar_body (fun _ => no_fuel)) ch.

Fixpoint screen_puts (text : list Z) : M screen unit :=
  match text with
  | [] => ret tt
  | ch :: text => x64_screen_putchar ch ;;; screen_puts text
  end.

End Screen.
Import Screen.

(** ** The paper terminal

    What the driver displays: a paper of lines, the last line first, of which the
    screen shows the last 25.  Nothing is ever scrolled or cleared. *)
Record paper := Paper { pp_line : list Z; pp_above : list (list Z); pp_esc : bool }.

Definition cell (ch : Z) : Z := u16 (Z.lor (Z.shiftl COLOR 8) ch).

Definition new_line (p : paper) : paper := Paper [] (pp_line p :: pp_above p) (pp_esc p).
Definition wrap (ch : Z) (p : paper) : paper :=
  if (ch =? 10) || (SCREEN_WIDTH <=? Z.of_nat (length (pp_line p))) then new_line p else p.
Definition type_cell (ch : Z) (p : paper) : paper := Paper (pp_line p ++ [cell ch]) (pp_above p) (pp_esc p).
Definition type_blank (p : paper) : paper := type_cell 32 (wrap 32 p).

Definition type_char (ch : Z) (p : paper) : paper :=
  if pp_esc p then Paper (pp_line p) (pp_above p) (negb (ch =? 109))
  else if ch =? 27 then Paper (pp_line p) (pp_above p) true
  else
    let p := wrap ch p in
    if ch =? 9 then Nat.iter (4 - length (pp_line p) mod 4) type_blank p
    else if (ch =? 10) || (ch =? 13) then p
    else type_cell ch p.

Definition type_text (text : list Z) (p : paper) : paper := foldl (fun p ch => type_char ch p) p text.

(** Cell [j] of line [i] of the screen. *)
Definition visible (p : paper) (i j : Z) : Z :=
  let y := Z.min (SCREEN_HEIGHT - 1) (Z.of_nat (length (pp_above p))) in
  if i <=? y then default 0 ((pp_line p :: pp_above p) !! Z.to_nat (y - i) ≫= (fun l => l !! Z.to_nat j)) else 0.

(** The screen shows the paper. *)
Record shows (p : paper) (s : screen) : Prop := {
  sh_x : sc_x s = Z.of_nat (length (pp_line p));
  sh_y : sc_y s = Z.min (SCREEN_HEIGHT - 1) (Z.of_nat (length (pp_above p)));
  sh_esc : sc_in_esc s = pp_esc p;
  sh_width : Forall (fun l => Z.of_nat (length l) <= SCREEN_WIDTH) (pp_line p :: pp_above p);
  sh_size : Z.of_nat (length (sc_vram s)) = SCREEN_HEIGHT * SCREEN_WIDTH;
  sh_cells : forall i j, 0 <= i < SCREEN_HEIGHT -> 0 <= j < SCREEN_WIDTH ->
    arr_get (sc_vram s) (i * SCREEN_WIDTH + j) = Some (visible p i j)
}.

Definition cursor (s : screen) : Z := sc_crtc s 0x0e * 256 + sc_crtc s 0x0f.

(** ** Scrolling *)

(** The position of a cell is unique. *)
Lemma cell_position d i j : 0 <= j < SCREEN_WIDTH ->
  (d * SCREEN_WIDTH <=? i * SCREEN_WIDTH + j) && (i * SCREEN_WIDTH + j <? d * SCREEN_WIDTH + SCREEN_WIDTH) = (i =? d).
Proof.
  unfold SCREEN_WIDTH. intros Hj.
  destruct (Z.leb_spec (d * 80) (i * 80 + j)), (Z.ltb_spec (i * 80 + j) (d * 80 + 80)), (Z.eqb_spec i d); simpl; lia.
Qed.

Lemma copy_line_ok s d c :
  Z.of_nat (length (sc_vram s)) = SCREEN_HEIGHT * SCREEN_WIDTH -> 0 <= d < SCREEN_HEIGHT -> 0 <= c < SCREEN_HEIGHT ->
  exists v, copy_line d c s = Done (tt, set_vram v s) /\ length v = length (sc_vram s) /\
    forall i j, 0 <= j < SCREEN_WIDTH ->
      arr_get v (i * SCREEN_WIDTH + j) = arr_get (sc_vram s) ((if i =? d then c else i) * SCREEN_WIDTH + j).
Proof.
  intros Hlen Hd Hc. unfold SCREEN_HEIGHT, SCREEN_WIDTH in *.
  destruct (arr_read_spec (sc_vram s) (c * 80) 80) as (l & El & Hl & Hget); [lia..|].
  destruct (arr_write_spec (sc_vram s) l (d * 80)) as (v & Ev & Hv & Hset); [lia..|].
  exists v. split; [|split; [done|]].
  - unfold copy_line, bind, get, SCREEN_WIDTH. rewrite El. simpl. by rewrite Ev.
  - intros i j Hj. rewrite Hset, Hl, cell_position by (unfold SCREEN_WIDTH; lia).
    destruct (Z.eqb_spec i d) as [->|]; [|done]. rewrite Hget by lia. f_equal. lia.
Qed.

Lemma scroll_loop_ok n : forall s from,
  Z.of_nat (length (sc_vram s)) = SCREEN_HEIGHT * SCREEN_WIDTH -> 1 <= from -> from + Z.of_nat n = SCREEN_HEIGHT ->
  exists v, scroll_loop n from 1 s = Done (tt, set_vram v s) /\ length v = length (sc_vram s) /\
    forall i j, 0 <= i < SCREEN_HEIGHT -> 0 <= j < SCREEN_WIDTH ->
      arr_get v (i * SCREEN_WIDTH + j) =
        arr_get (sc_vram s) ((if (from - 1 <=? i) && (i <? SCREEN_HEIGHT - 1) then i + 1 else i) * SCREEN_WIDTH + j).
Proof.
  induction n as [|n IH]; intros s from Hlen Hf Hn; cbn [scroll_loop].
  - exists (sc_vram s). split; [by destruct s|]. split; [done|]. intros i j Hi Hj.
    destruct (Z.leb_spec (from - 1) i), (Z.ltb_spec i (SCREEN_HEIGHT - 1)); simpl; try done; lia.
  - destruct (copy_line_ok s (from - 1) from Hlen) as (v & E & Hv & Hget); [lia..|].
    rewrite (bind_intro _ _ _ _ _ _ E eq_refl).
    destruct (IH (set_vram v s) (from + 1)) as (v' & E' & Hv' & Hget'); simpl in *; [congruence | lia | lia |].
    exists v'. split; [by rewrite E'|]. split; [congruence|]. intros i j Hi Hj. rewrite Hget', Hget by done.
    f_equal. f_equal. f_equal.
    destruct (Z.leb_spec (from + 1 - 1) i), (Z.leb_spec (from - 1) i), (Z.ltb_spec i (SCREEN_HEIGHT - 1)); simpl;
      try lia; match goal with |- context [?a =? ?b] => destruct (Z.eqb_spec a b) end; lia.
Qed.

Lemma scroll_ok s :
  Z.of_nat (length (sc_vram s)) = SCREEN_HEIGHT * SCREEN_WIDTH -> sc_y s = SCREEN_HEIGHT ->
  exists v, scroll s = Done (tt, set_y (SCREEN_HEIGHT - 1) (set_vram v s)) /\ length v = length (sc_vram s) /\
    forall i j, 0 <= i < SCREEN_HEIGHT -> 0 <= j < SCREEN_WIDTH ->
      arr_get v (i * SCREEN_WIDTH + j) =
        if i =? SCREEN_HEIGHT - 1 then Some 0 else arr_get (sc_vram s) ((i + 1) * SCREEN_WIDTH + j).
Proof.
  intros Hlen Hy. unfold scroll, bind at 1, get. rewrite Hy.
  replace (SCREEN_HEIGHT - SCREEN_HEIGHT + 1) with 1 by lia.
  destruct (scroll_loop_ok 24 s 1 Hlen) as (v & E & Hv & Hget); [lia | done |].
  change (Z.to_nat (SCREEN_HEIGHT - 1)) with 24%nat. rewrite (bind_intro _ _ _ _ _ _ E eq_refl).
  destruct (arr_write_spec v (replicate 80 0) ((SCREEN_HEIGHT - 1) * SCREEN_WIDTH)) as (v' & E' & Hv' & Hget').
  { unfold SCREEN_HEIGHT, SCREEN_WIDTH. lia. }
  { rewrite length_replicate. unfold SCREEN_HEIGHT, SCREEN_WIDTH in *. lia. }
  exists v'. split; [|split; [congruence|]].
  - unfold bind at 1. simpl sc_vram. change (replicate _ 0) with (replicate 80 0). by rewrite E'.
  - intros i j Hi Hj. rewrite Hget', length_replicate. change (Z.of_nat 80) with SCREEN_WIDTH.
    rewrite cell_position by done. destruct (Z.eqb_spec i (SCREEN_HEIGHT - 1)).
    + unfold arr_get. destruct (Z.ltb_spec (i * SCREEN_WIDTH + j - (SCREEN_HEIGHT - 1) * SCREEN_WIDTH) 0); [nia|].
      apply lookup_replicate_2. unfold SCREEN_HEIGHT, SCREEN_WIDTH in *. lia.
    + rewrite Hget by done. f_equal.
      destruct (Z.leb_spec (1 - 1) i), (Z.ltb_spec i (SCREEN_HEIGHT - 1)); simpl; unfold SCREEN_HEIGHT in *; lia.
Qed.

(** ** The paper and the screen *)

Lemma visible_new_line p i j : 0 <= i < SCREEN_HEIGHT ->
  visible (new_line p) i j =
    if Z.of_nat (length (pp_above p)) <? SCREEN_HEIGHT - 1 then visible p i j
    else if i =? SCREEN_HEIGHT - 1 then 0 else visible p (i + 1) j.
Proof.
  unfold visible, new_line. cbn [pp_line pp_above length]. rewrite Nat2Z.inj_succ.
  set (n := Z.of_nat (length (pp_above p))). intros Hi. unfold SCREEN_HEIGHT in *.
  destruct (Z.ltb_spec n (25 - 1)).
  - rewrite !Z.min_r by lia. destruct (Z.leb_spec i (Z.succ n)), (Z.leb_spec i n); try lia; try done.
    + replace (Z.to_nat (Z.succ n - i)) with (S (Z.to_nat (n - i))) by lia. done.
    + replace (Z.to_nat (Z.succ n - i)) with 0%nat by lia. done.
  - rewrite !Z.min_l by lia. destruct (Z.leb_spec i (25 - 1)); [|lia].
    destruct (Z.eqb_spec i (25 - 1)) as [->|]; [done|]. destruct (Z.leb_spec (i + 1) (25 - 1)); [|lia].
    replace (Z.to_nat (25 - 1 - i)) with (S (Z.to_nat (25 - 1 - (i + 1)))) by lia. done.
Qed.

Lemma visible_type_cell ch p i j : 0 <= i -> 0 <= j ->
  visible (type_cell ch p) i j =
    if (i =? Z.min (SCREEN_HEIGHT - 1) (Z.of_nat (length (pp_above p)))) && (j =? Z.of_nat (length (pp_line p)))
    then cell ch else visible p i j.
Proof.
  intros Hi Hj. unfold visible, type_cell. cbn [pp_line pp_above]. set (y := Z.min _ _).
  destruct (Z.leb_spec i y); [|destruct (Z.eqb_spec i y); [lia | done]].
  destruct (Z.eqb_spec i y) as [->|]; simpl.
  - replace (Z.to_nat (y - y)) with 0%nat by lia. simpl.
    destruct (Z.eqb_spec j (Z.of_nat (length (pp_line p)))) as [->|].
    + rewrite Nat2Z.id, lookup_app_r, Nat.sub_diag by lia. done.
    + destruct (decide (j < Z.of_nat (length (pp_line p)))).
      * by rewrite lookup_app_l by lia.
      * rewrite !lookup_ge_None_2; [done | lia | rewrite length_app; simpl; lia].
  - destruct (Z.to_nat (y - i)) as [|k] eqn:E; [lia | done].
Qed.

Lemma advance_ok ch p s : shows p s -> exists s', advance ch s = Done (tt, s') /\ shows (wrap ch p) s'.
Proof.
  intros [Hx Hy He Hw Hs Hc]. unfold advance, wrap, bind at 1, get. rewrite Hx.
  destruct ((ch =? 10) || _).
  2: { exists s. unfold bind, ret, get. rewrite (proj2 (Z.leb_gt SCREEN_HEIGHT (sc_y s))); [split; [done | by constructor]|].
       rewrite Hy. unfold SCREEN_HEIGHT. lia. }
  unfold bind at 1, modify, bind, get. cbn [sc_y set_y set_x].
  assert (Hw' : Forall (fun l => Z.of_nat (length l) <= SCREEN_WIDTH) (pp_line (new_line p) :: pp_above (new_line p))).
  { constructor; [unfold SCREEN_WIDTH; simpl; lia | done]. }
  destruct (Z.leb_spec SCREEN_HEIGHT (sc_y s + 1)).
  - destruct (scroll_ok (set_y (sc_y s + 1) (set_x 0 s))) as (v & E & Hv & Hget); [done | simpl; unfold SCREEN_HEIGHT in *; lia|].
    rewrite E. eexists. split; [reflexivity|]. constructor; simpl in *; auto; try congruence.
    + unfold SCREEN_HEIGHT in *. lia.
    + intros i j Hi Hj. rewrite Hget, visible_new_line by done.
      destruct (Z.ltb_spec (Z.of_nat (length (pp_above p))) (SCREEN_HEIGHT - 1)); [unfold SCREEN_HEIGHT in *; lia|].
      destruct (Z.eqb_spec i (SCREEN_HEIGHT - 1)); [done|]. apply Hc; [lia | done].
  - eexists. split; [reflexivity|]. constructor; simpl; auto.
    + unfold SCREEN_HEIGHT in *. lia.
    + intros i j Hi Hj. rewrite visible_new_line by done.
      destruct (Z.ltb_spec (Z.of_nat (length (pp_above p))) (SCREEN_HEIGHT - 1)); [auto | unfold SCREEN_HEIGHT in *; lia].
Qed.

(** Writing a cell. *)
Lemma type_cell_ok ch p s : shows p s -> Z.of_nat (length (pp_line p)) < SCREEN_WIDTH ->
  exists v, arr_set (sc_vram s) (sc_y s * SCREEN_WIDTH + sc_x s) (cell ch) = Some v /\
    shows (type_cell ch p) (set_x (sc_x s + 1) (set_vram v s)).
Proof.
  intros [Hx Hy He Hw Hs Hc] Hlen.
  assert (Hin : 0 <= sc_y s * SCREEN_WIDTH + sc_x s < Z.of_nat (length (sc_vram s))).
  { unfold SCREEN_HEIGHT, SCREEN_WIDTH in *. lia. }
  exists (<[Z.to_nat (sc_y s * SCREEN_WIDTH + sc_x s) := cell ch]> (sc_vram s)).
  assert (E := arr_set_Some (sc_vram s) _ (cell ch) Hin). split; [done|].
  constructor; simpl; auto.
  - rewrite length_app. simpl. lia.
  - inversion Hw. constructor; [|done]. rewrite length_app. simpl. lia.
  - by rewrite length_insert.
  - intros i j Hi Hj. rewrite (arr_get_set _ _ _ _ _ E), visible_type_cell, Hc by lia.
    rewrite <- Hy, <- Hx. unfold SCREEN_WIDTH in *.
    destruct (Z.eqb_spec (i * 80 + j) (sc_y s * 80 + sc_x s)), (Z.eqb_spec i (sc_y s)), (Z.eqb_spec j (sc_x s)); simpl; try done; lia.
Qed.

Lemma wrap_room ch p s : shows p s -> Z.of_nat (length (pp_line (wrap ch p))) < SCREEN_WIDTH.
Proof.
  intros [_ _ _ Hw _ _]. unfold wrap. inversion Hw. unfold SCREEN_WIDTH in *.
  destruct (Z.leb_spec 80 (Z.of_nat (length (pp_line p)))); [rewrite orb_true_r; simpl; lia|].
  destruct (ch =? 10); simpl; lia.
Qed.

Definition synced (s : screen) : Prop := cursor s = sc_y s * SCREEN_WIDTH + sc_x s.

Lemma move_cursor_ok p s : shows p s -> exists s', move_cursor s = Done (tt, s') /\ shows p s' /\ synced s'.
Proof.
  intros [Hx Hy He Hw Hs Hc]. exists (match move_cursor s with Done (_, s') => s' | _ => s end).
  split; [reflexivity|]. split; [by constructor|]. unfold synced, cursor. simpl. inversion Hw. unfold SCREEN_HEIGHT, SCREEN_WIDTH in *.
  change 0xff with (Z.ones 8). rewrite !Z.land_ones, Z.shiftr_div_pow2 by lia. unfold u8.
  set (pos := sc_y s * 80 + sc_x s). assert (0 <= pos < 2 ^ 16) by lia.
  rewrite !Z.mod_mod by lia. rewrite (Z.mod_small (pos / 2 ^ 8)); [|split; [apply Z.div_pos; lia | apply Z.div_lt_upper_bound; lia]].
  pose proof (Z.div_mod pos (2 ^ 8)). lia.
Qed.

(** A character other than a tab, whatever the recursive call does. *)
Lemma putchar_plain rec ch p s : shows p s -> ch <> 9 ->
  exists s', putchar_body rec ch s = Done (tt, s') /\ shows (type_char ch p) s' /\ (synced s -> synced s').
Proof.
  intros HS Hch. pose proof (sh_esc _ _ HS) as He. unfold putchar_body, type_char, bind at 1, get.
  rewrite He. destruct (pp_esc p) eqn:Ep.
  { eexists. split; [reflexivity|]. split; [|done]. destruct HS. by constructor. }
  destruct (Z.eqb_spec ch 27).
  { eexists. split; [reflexivity|]. split; [|done]. destruct HS. by constructor. }
  destruct (advance_ok ch p s HS) as (s1 & E1 & H1). rewrite (bind_intro _ _ _ _ _ _ E1 eq_refl).
  rewrite (proj2 (Z.eqb_neq _ _) Hch). destruct (Z.eqb_spec ch 10) as [->|]; simpl.
  { unfold bind at 1, ret. destruct (move_cursor_ok _ _ H1) as (s2 & E2 & H2 & Hsync). eauto. }
  destruct (Z.eqb_spec ch 13) as [->|]; simpl.
  { unfold bind at 1, ret. destruct (move_cursor_ok _ _ H1) as (s2 & E2 & H2 & Hsync). eauto. }
  destruct (type_cell_ok ch _ _ H1 (wrap_room ch p s HS)) as (v & Ev & H2). fold (cell ch).
  erewrite (bind_intro (bind _ _)); [| unfold bind at 1; rewrite Ev; reflexivity | reflexivity].
  destruct (move_cursor_ok _ _ H2) as (s3 & E3 & H3 & Hsync). eauto.
Qed.

(** The blanks of a tab. *)
Lemma blanks_ok rec n : forall p s, shows p s -> pp_esc p = false ->
  exists s', times n (putchar_body rec 32) s = Done (tt, s') /\ shows (Nat.iter n type_blank p) s'.
Proof.
  induction n as [|n IH]; intros p s HS He; [by exists s|].
  destruct (putchar_plain rec 32 p s HS ltac:(done)) as (s1 & E1 & H1 & _). cbn [times].
  rewrite (bind_intro _ _ _ _ _ _ E1 eq_refl). unfold type_char in H1. rewrite He in H1.
  destruct (IH _ _ H1) as (s2 & E2 & H2); [unfold wrap, new_line; simpl; by destruct (_ <=? _)|].
  exists s2. split; [done|]. by rewrite Nat.iter_succ_r.
Qed.

Lemma putchar_ok ch p s : shows p s ->
  exists s', x64_screen_putchar ch s = Done (tt, s') /\ shows (type_char ch p) s' /\ (synced s -> synced s').
Proof.
  intros HS. destruct (Z.eq_dec ch 9) as [->|Hch]; [|by apply putchar_plain].
  pose proof (sh_esc _ _ HS) as He. unfold x64_screen_putchar. set (blank := putchar_body (fun _ => no_fuel)).
  unfold putchar_body, type_char, bind at 1, get. rewrite He. destruct (pp_esc p) eqn:Ep.
  { eexists. split; [reflexivity|]. split; [|done]. destruct HS. by constructor. }
  simpl (9 =? 27). cbv iota.
  destruct (advance_ok 9 p s HS) as (s1 & E1 & H1). rewrite (bind_intro _ _ _ _ _ _ E1 eq_refl).
  simpl (9 =? 9). cbv iota.
  destruct (blanks_ok (fun _ => no_fuel) (4 - length (pp_line (wrap 9 p)) mod 4) _ _ H1) as (s2 & E2 & H2).
  { unfold wrap, new_line. by destruct ((9 =? 10) || _). }
  erewrite (bind_intro (bind _ _)); [| unfold bind at 1 | reflexivity].
  - destruct (move_cursor_ok _ _ H2) as (s3 & E3 & H3 & Hsync). exists s3. split; [exact E3 | auto].
  - rewrite (sh_x _ _ H1). unfold TAB_SIZE.
    replace (Z.to_nat _) with (4 - length (pp_line (wrap 9 p)) mod 4)%nat; [exact E2|].
    rewrite Z.rem_mod_nonneg by lia. pose proof (Nat2Z.inj_mod (length (pp_line (wrap 9 p))) 4). lia.
Qed.

(** C28: the console shows the end of what was printed.  From a blank screen, for
    every text - with line ends, tabs, escape sequences and lines longer than the
    screen is wide - the driver returns without a write outside the video memory, and
    the screen then shows the last 25 lines of the paper on which the text was
    typed; scrolling loses no other cell and leaves none behind.  The cursor is where
    the next character goes. *)
Theorem screen_shows_text (text : list Z) (s : screen)
    (Hblank : shows (Paper [] [] false) s) (Hcursor : synced s) :
  exists s', screen_puts text s = Done (tt, s') /\ shows (type_text text (Paper [] [] false)) s' /\ synced s'.
Proof.
  revert s Hblank Hcursor. generalize (Paper [] [] false). induction text as [|ch text IH]; intros p s HS Hc.
  - by exists s.
  - destruct (putchar_ok ch p s HS) as (s1 & E1 & H1 & Hsync). cbn [screen_puts type_text foldl].
    rewrite (bind_intro _ _ _ _ _ _ E1 eq_refl). exact (IH _ _ H1 (Hsync Hc)).
Qed.

Definition blank_screen : screen := Screen 0 0 false (replicate 2000 0) 0 (fun _ => 0).

Lemma blank_screen_shows : shows (Paper [] [] false) blank_screen.
Proof.
  constructor; try reflexivity.
  - constructor; [unfold SCREEN_WIDTH; simpl; lia | constructor].
  - intros i j Hi Hj. transitivity (Some 0).
    + unfold arr_get, SCREEN_HEIGHT, SCREEN_WIDTH in *. destruct (Z.ltb_spec (i * 80 + j) 0); [lia|].
      apply lookup_replicate_2. lia.
    + unfold visible. cbn [pp_above pp_line length]. destruct (i <=? _); [|done].
      match goal with |- context [[[]] !! ?k] => by destruct k end.
Qed.

(** Thirty lines: the screen starts with the seventh. *)
Definition thirty_lines : list Z := concat (map (fun i => [65 + Z.of_nat i; 10]) (seq 0 30)).

Lemma screen_shows_text_witness :
  exists s', screen_puts thirty_lines blank_screen = Done (tt, s') /\
    arr_get (sc_vram s') 0 = Some (cell 71) /\ cursor s' = 24 * 80.
Proof.
  destruct (screen_shows_text thirty_lines blank_screen blank_screen_shows) as (s' & E & H & Hc).
  - reflexivity.
  - exists s'. split; [exact E|]. split.
    + change 0 with (0 * SCREEN_WIDTH + 0) at 1. rewrite (sh_cells _ _ H 0 0); [vm_compute; reflexivity | unfold SCREEN_HEIGHT; lia | unfold SCREEN_WIDTH; lia].
    + unfold synced in Hc. rewrite Hc, (sh_x _ _ H), (sh_y _ _ H). vm_compute. reflexivity.
Defined.
