(* ===== verification/Symbols.v ===== *)
(** * The symbol table

    [tools/link.py] embeds a table of the symbols into the kernel and into every
    program; [find_symbol] of [kernel/debug.c] and of [libs/libresea/backtrace.c]
    searches it for the function an address of a backtrace lies in. *)
From stdpp Require Import sorting.
From S2P Require Import Prelude.

Definition SYMBOL_TABLE_MAGIC : Z := 0x2b012b01.

Record symbol := Symbol { sym_addr : Z; sym_offset : Z }.
Record symbol_table := SymbolTable {
  st_magic : Z;
  st_num_symbols : Z;
  st_symbols : list symbol;
  st_strbuf : list Z
}.

(** The bytes of "(invalid address)". *)
Definition invalid_address : list Z :=
  [40; 105; 110; 118; 97; 108; 105; 100; 32; 97; 100; 100; 114; 101; 115; 115; 41; 0].

Module Symbols.

(** The loop, which halves [r - l]: 17 rounds are enough for the 16-bit number of
    symbols. *)
Fixpoint search (fuel : nat) (symbols : list symbol) (vaddr l r : Z) : outcome Z :=
  if negb (1 <? r - l) then Done l
  else
    match fuel with
    | O => Fuel
    | S fuel =>
        outcome_bind (int_add l r) (fun sum =>
        let mid := Z.quot sum 2 in
        match arr_get symbols mid with
        | None => Undef
        | Some s => if sym_addr s <=? vaddr then search fuel symbols vaddr mid r else search fuel symbols vaddr l mid
        end)
    end.

(** The name, as the bytes it points to, and the offset. *)
Definition find_symbol_in (t : symbol_table) (vaddr : Z) : outcome (list Z * Z) :=
  outcome_bind (search 17 (st_symbols t) vaddr (-1) (st_num_symbols t)) (fun l =>
  if l =? -1 then Done (invalid_address, 0)
  else
    match arr_get (st_symbols t) l with
    | None => Undef
    | Some s => Done (drop (Z.to_nat (sym_offset s)) (st_strbuf t), u64 (vaddr - sym_addr s))
    end).

(** The kernel checks the magic number first. *)
Definition find_symbol (t : symbol_table) (vaddr : Z) : outcome (list Z * Z) :=
  if negb (st_magic t =? SYMBOL_TABLE_MAGIC) then Panic else find_symbol_in t vaddr.

(** ** tools/link.py *)

(** The entries, with the offsets of the names; [.short] holds 16 bits. *)
Fixpoint sym_entries (offset : Z) (symbols : list (Z * list Z)) : list symbol :=
  match symbols with
  | [] => []
  | (addr, name) :: symbols =>
      Symbol addr (u16 offset) :: sym_entries (offset + Z.of_nat (length name) + 1) symbols
  end.

(** [.asciz]. *)
Definition sym_strings (symbols : list (Z * list Z)) : list Z := concat (map (fun s => s.2 ++ [0]) symbols).

Definition by_addr (a b : Z * list Z) : Prop := a.1 <= b.1.
#[export] Instance by_addr_dec : RelDecision by_addr := fun a b => Z.le_dec a.1 b.1.

Definition generate_symbol_table (symbols : gmap Z (list Z)) : symbol_table :=
  let l := merge_sort by_addr (map_to_list symbols) in
  SymbolTable SYMBOL_TABLE_MAGIC (u16 (Z.of_nat (length l))) (sym_entries 0 l) (sym_strings l).

End Symbols.
Import Symbols.

(** ** The search *)

(** In any table the search ends, between an address that is not above [vaddr] and
    one that is. *)
Lemma search_ok symbols vaddr fuel : forall l r,
  -1 <= l < r -> r <= Z.of_nat (length symbols) -> Z.of_nat (length symbols) < 2 ^ 16 -> r - l <= 2 ^ Z.of_nat fuel ->
  (forall s, arr_get symbols l = Some s -> sym_addr s <= vaddr) ->
  (forall s, arr_get symbols r = Some s -> vaddr < sym_addr s) ->
  exists k, search fuel symbols vaddr l r = Done k /\ l <= k < r /\
    (forall s, arr_get symbols k = Some s -> sym_addr s <= vaddr) /\
    (forall s, arr_get symbols (k + 1) = Some s -> vaddr < sym_addr s).
Proof.
  induction fuel as [|fuel IH]; intros l r Hlr Hr Hn Hf Hl Hh; cbn [search].
  - change (2 ^ Z.of_nat 0) with 1 in Hf. destruct (Z.ltb_spec 1 (r - l)); [lia|]. simpl.
    exists l. replace (l + 1) with r by lia. auto with lia.
  - destruct (Z.ltb_spec 1 (r - l)); simpl; [|exists l; replace (l + 1) with r by lia; auto with lia].
    unfold int_add. destruct (Z.leb_spec (- 2 ^ 31) (l + r)); [|lia]. destruct (Z.ltb_spec (l + r) (2 ^ 31)); [|lia].
    simpl. rewrite Z.quot_div_nonneg by lia. set (mid := (l + r) / 2).
    assert (Hmid : l + r - 1 <= 2 * mid <= l + r) by (unfold mid; pose proof (Z.div_mod (l + r) 2); pose proof (Z.mod_pos_bound (l + r) 2); lia).
    destruct (proj2 (arr_get_is_Some symbols mid) ltac:(lia)) as [s Hs]. rewrite Hs.
    rewrite Nat2Z.inj_succ, Z.pow_succ_r in Hf by lia.
    destruct (Z.leb_spec (sym_addr s) vaddr).
    + destruct (IH mid r) as (k & E & Hk & Hk1 & Hk2); try lia; try done; [congruence|]. exists k. auto with lia.
    + destruct (IH l mid) as (k & E & Hk & Hk1 & Hk2); try lia; try done; [congruence|]. exists k. auto with lia.
Qed.

Lemma arr_get_nat {A} (l : list A) (i : nat) : arr_get l (Z.of_nat i) = l !! i.
Proof. unfold arr_get. destruct (Z.ltb_spec (Z.of_nat i) 0); [lia|]. by rewrite Nat2Z.id. Qed.

(** The entries of the table. *)
Lemma sym_entries_length off l : length (sym_entries off l) = length l.
Proof. revert off. induction l as [|[a n] l IH]; intros off; simpl; auto. Qed.

Lemma sym_entries_addr off l i : sym_addr <$> sym_entries off l !! i = fst <$> l !! i.
Proof. revert off i. induction l as [|[a n] l IH]; intros off [|i]; simpl; auto. Qed.

Lemma sym_entries_name off l i a name : 0 <= off -> l !! i = Some (a, name) ->
  off + Z.of_nat (length (sym_strings l)) <= 2 ^ 16 ->
  exists s rest, sym_entries off l !! i = Some s /\ sym_addr s = a /\ off <= sym_offset s /\
    drop (Z.to_nat (sym_offset s - off)) (sym_strings l) = name ++ 0 :: rest.
Proof.
  revert off i. induction l as [|[a' n'] l IH]; intros off [|i] Hoff Hi Hlen; simpl in *; try done.
  - injection Hi as -> ->. unfold sym_strings in Hlen. simpl in Hlen. rewrite !length_app in Hlen. simpl in Hlen.
    assert (u16 off = off) as E by (unfold u16; rewrite Z.mod_small; lia).
    exists (Symbol a (u16 off)), (sym_strings l). simpl. rewrite E, Z.sub_diag. simpl.
    split; [done|]. split; [done|]. split; [lia|]. unfold sym_strings. simpl. by rewrite <- app_assoc.
  - unfold sym_strings in Hlen. simpl in Hlen. rewrite !length_app in Hlen. simpl in Hlen. fold (sym_strings l) in Hlen.
    destruct (IH (off + Z.of_nat (length n') + 1) i) as (s & rest & Es & Ea & Ho & Ed); [lia | done | lia |].
    exists s, rest. split; [done|]. split; [done|]. split; [lia|]. rewrite <- Ed. unfold sym_strings. simpl.
    replace (Z.to_nat (sym_offset s - off)) with (length (n' ++ [0%Z]) + Z.to_nat (sym_offset s - (off + Z.of_nat (length n') + 1)))%nat
      by (rewrite length_app; simpl; lia).
    by rewrite <- drop_drop, drop_app_length.
Qed.

(** ** Sorted tables *)

Lemma StronglySorted_lookup_lt {A} (R : relation A) l i j a b :
  StronglySorted R l -> l !! i = Some a -> l !! j = Some b -> (i < j)%nat -> R a b.
Proof.
  intros Hs. revert i j. induction Hs as [|x l _ IH Hx]; intros [|i] [|j] Hi Hj Hij; simpl in *; try done; try lia.
  - injection Hi as ->. rewrite Forall_forall in Hx. by apply Hx, (list_elem_of_lookup_2 _ j).
  - apply (IH i j); auto with lia.
Qed.

Lemma sorted_mem (symbols : gmap Z (list Z)) a name :
  symbols !! a = Some name <-> (a, name) ∈ merge_sort by_addr (map_to_list symbols).
Proof. by rewrite merge_sort_Permutation, elem_of_map_to_list. Qed.

Lemma sorted_length (symbols : gmap Z (list Z)) : length (merge_sort by_addr (map_to_list symbols)) = size symbols.
Proof. rewrite merge_sort_Permutation. apply length_map_to_list. Qed.

(** Addresses are distinct, so the table is strictly increasing. *)
Lemma sorted_addrs (symbols : gmap Z (list Z)) (l := merge_sort by_addr (map_to_list symbols)) i j a b :
  l !! i = Some a -> l !! j = Some b -> (i < j)%nat -> a.1 < b.1.
Proof.
  intros Hi Hj Hij. assert (Hs : StronglySorted by_addr l).
  { apply StronglySorted_merge_sort; unfold by_addr; [intros x y z; lia | intros x y; lia]. }
  pose proof (StronglySorted_lookup_lt by_addr l i j a b Hs Hi Hj Hij) as Hle. unfold by_addr in Hle.
  destruct (Z.eq_dec a.1 b.1) as [E|]; [|lia]. exfalso.
  assert (NoDup l.*1) as Hnd by (unfold l; rewrite merge_sort_Permutation; apply NoDup_fst_map_to_list).
  assert (i = j); [|lia]. apply (NoDup_lookup l.*1 i j a.1 Hnd); rewrite list_lookup_fmap, ?Hi, ?Hj; simpl; congruence.
Qed.

(** The entry of the table at a position. *)
Lemma entry_at_pos (symbols : gmap Z (list Z)) (l := merge_sort by_addr (map_to_list symbols)) k :
  0 <= k < Z.of_nat (length l) ->
  exists a name s, l !! Z.to_nat k = Some (a, name) /\ symbols !! a = Some name /\
    arr_get (sym_entries 0 l) k = Some s /\ sym_addr s = a.
Proof.
  intros Hk. destruct (lookup_lt_is_Some_2 l (Z.to_nat k)) as [[a name] Ha]; [lia|].
  pose proof (sym_entries_addr 0 l (Z.to_nat k)) as Es. rewrite Ha in Es. apply fmap_Some in Es as (s & Es & E).
  exists a, name, s. split; [done|]. split; [apply sorted_mem; by eapply list_elem_of_lookup_2|].
  split; [apply arr_get_Some; auto with lia | done].
Qed.

Lemma table_search (symbols : gmap Z (list Z)) (l := merge_sort by_addr (map_to_list symbols)) vaddr :
  Z.of_nat (size symbols) < 2 ^ 16 ->
  exists k, search 17 (sym_entries 0 l) vaddr (-1) (Z.of_nat (length l)) = Done k /\ -1 <= k < Z.of_nat (length l) /\
    (forall s, arr_get (sym_entries 0 l) k = Some s -> sym_addr s <= vaddr) /\
    (forall s, arr_get (sym_entries 0 l) (k + 1) = Some s -> vaddr < sym_addr s).
Proof.
  intros Hsize. assert (Hlen : length l = size symbols) by apply sorted_length.
  apply search_ok; rewrite ?sym_entries_length; try lia; intros s Hs; apply arr_get_Some in Hs as [? Hs].
  - lia.
  - rewrite Nat2Z.id, lookup_ge_None_2 in Hs; [done|]. by rewrite sym_entries_length.
Qed.

(** The position that the search finds is the one of the symbol below. *)
Lemma search_position (symbols : gmap Z (list Z)) (l := merge_sort by_addr (map_to_list symbols)) vaddr k i a name :
  -1 <= k < Z.of_nat (length l) ->
  (forall s, arr_get (sym_entries 0 l) k = Some s -> sym_addr s <= vaddr) ->
  (forall s, arr_get (sym_entries 0 l) (k + 1) = Some s -> vaddr < sym_addr s) ->
  l !! i = Some (a, name) -> a <= vaddr -> (forall b, is_Some (symbols !! b) -> b <= vaddr -> b <= a) ->
  Z.of_nat i = k.
Proof.
  intros Hk H1 H2 Hi Hav Hmax. pose proof (lookup_lt_Some _ _ _ Hi).
  destruct (Z.lt_trichotomy (Z.of_nat i) k) as [Hlt|[?|Hgt]]; [|done|]; exfalso.
  - destruct (entry_at_pos symbols k) as (b & nb & s & Hb & Hbs & Es & Ea); [fold l; lia|].
    pose proof (sorted_addrs symbols i (Z.to_nat k) _ _ Hi Hb ltac:(lia)) as Hs. simpl in Hs.
    pose proof (H1 s Es). pose proof (Hmax b (mk_is_Some _ _ Hbs)). lia.
  - destruct (entry_at_pos symbols (k + 1)) as (b & nb & s & Hb & Hbs & Es & Ea); [fold l; lia|].
    pose proof (H2 s Es). destruct (decide (i = Z.to_nat (k + 1))) as [->|]; [unfold l in *; simplify_eq; lia|].
    pose proof (sorted_addrs symbols (Z.to_nat (k + 1)) i _ _ Hb Hi ltac:(lia)) as Hs. simpl in Hs. lia.
Qed.

(** Backtraces name the right function.  For every set of symbols that fits the
    16-bit fields of the table [tools/link.py] writes, [find_symbol] returns for every
    address: within 17 probes, all inside the table, it finds the symbol with the
    greatest address that is not above the given one - its name, ended by a zero
    byte, and the distance to it - and "(invalid address)" below the first symbol. *)
Theorem find_symbol_correct (symbols : gmap Z (list Z)) (vaddr : Z)
    (Hsize : Z.of_nat (size symbols) < 2 ^ 16)
    (Hstrings : Z.of_nat (length (st_strbuf (generate_symbol_table symbols))) <= 2 ^ 16)
    (Haddrs : forall a, is_Some (symbols !! a) -> 0 <= a) (Hvaddr : 0 <= vaddr < 2 ^ 64) :
  (forall a name, symbols !! a = Some name -> a <= vaddr ->
     (forall b, is_Some (symbols !! b) -> b <= vaddr -> b <= a) ->
     exists rest, find_symbol (generate_symbol_table symbols) vaddr = Done (name ++ 0 :: rest, vaddr - a)) /\
  ((forall b, is_Some (symbols !! b) -> vaddr < b) ->
     find_symbol (generate_symbol_table symbols) vaddr = Done (invalid_address, 0)).
Proof.
  set (l := merge_sort by_addr (map_to_list symbols)).
  destruct (table_search symbols vaddr Hsize) as (k & E & Hk & H1 & H2). fold l in E, Hk, H1, H2.
  assert (Hnum : u16 (Z.of_nat (length l)) = Z.of_nat (length l)).
  { unfold u16, l. rewrite sorted_length, Z.mod_small; lia. }
  change (find_symbol (generate_symbol_table symbols) vaddr) with (find_symbol_in (generate_symbol_table symbols) vaddr).
  unfold find_symbol_in, generate_symbol_table. fold l. cbn [st_symbols st_num_symbols st_strbuf].
  rewrite Hnum, E. cbn [outcome_bind]. split.
  - intros a name Ha Hav Hmax. pose proof (proj1 (sorted_mem symbols a name) Ha) as [i Hi]%list_elem_of_lookup.
    pose proof (search_position symbols vaddr k i a name Hk H1 H2 Hi Hav Hmax) as Hik.
    destruct (sym_entries_name 0 l i a name) as (s & rest & Es & Ea & Ho & Ed); [lia | done | exact Hstrings |].
    rewrite <- Hik, arr_get_nat, Es. destruct (Z.eqb_spec (Z.of_nat i) (-1)); [lia|].
    exists rest. rewrite Z.sub_0_r in Ed. rewrite Ed, Ea, u64_small; [done|].
    pose proof (Haddrs a (mk_is_Some _ _ Ha)). lia.
  - intros Hall. destruct (Z.eqb_spec k (-1)); [done|]. exfalso.
    destruct (entry_at_pos symbols k) as (b & nb & s & Hb & Hbs & Es & Ea); [fold l; lia|].
    pose proof (Hall b (mk_is_Some _ _ Hbs)). pose proof (H1 s Es). lia.
Qed.

(** Two functions. *)
Definition ex_symbols : gmap Z (list Z) := {[ 0x1000 := [98; 111; 111; 116]; 0x2000 := [109; 97; 105; 110] ]}.

Lemma find_symbol_correct_witness :
  exists rest, find_symbol (generate_symbol_table ex_symbols) 0x1fff = Done ([98; 111; 111; 116; 0] ++ rest, 0xfff).
Proof.
  destruct (find_symbol_correct ex_symbols 0x1fff) as [H _].
  - vm_compute. reflexivity.
  - vm_compute. discriminate.
  - intros a [x Hx]. unfold ex_symbols in Hx. apply lookup_insert_Some in Hx as [[<- _]|[_ Hx]]; [lia|].
    apply lookup_singleton_Some in Hx as [<- _]. lia.
  - lia.
  - destruct (H 0x1000 [98; 111; 111; 116]) as [rest E]; [vm_compute; reflexivity | lia | | exists rest; exact E].
    intros b [x Hx]. unfold ex_symbols in Hx. apply lookup_insert_Some in Hx as [[<- _]|[_ Hx]]; [lia|].
    apply lookup_singleton_Some in Hx as [<- _]. lia.
Defined.
