(* ===== verification/UserIpc.v ===== *)
(** * System calls and the server loop of user programs

    [libs/libresea/syscall.c], the message copy of [libs/libresea/include/resea/
    x64.h], the client stubs that [tools/genstub.py] generates, and
    [libs/libserver/server.c].

    A program runs on any [Kernel]: the system calls, and the part of its thread
    information block it can access.  What the server loop does is proved for every
    kernel whose IPC calls work as [MessageQueue] says. *)
From S2P Require Import Prelude Message CString.
Import CStr.

(** The kernel as a program sees it, with a state [W]. *)
Class Kernel (W : Type) := {
  k_ipc_buffer : W -> message;
  k_set_ipc_buffer : message -> W -> W;
  k_set_page_base : Z -> W -> W;
  k_open : M W Z;
  k_close : Z -> M W Z;
  k_link : Z -> Z -> M W Z;
  k_transfer : Z -> Z -> M W Z;
  k_ipc : Z -> Z -> M W Z
}.

Definition DEFERRED_WORK_DELAY : Z := 100.
Definition DEFERRED_WORK_DELAY_MAX : Z := 5 * 1000.

Module User.

(** [dst] after the copy. *)
Definition copy_message (dst src : message) : outcome message :=
  let h := header src in
  outcome_bind (memcpy (data dst) (data src) (Z.to_nat (INLINE_PAYLOAD_LEN h))) (fun d =>
    Done (Message h (from src) (notification src) (channel src) (page src) d)).

Section Program.
Context {W : Type} `{!Kernel W}.

Definition copy_to_ipc_buffer (m : message) : M W unit :=
  b <- gets k_ipc_buffer ;;
  b' <- lift (copy_message b m) ;;
  modify (k_set_ipc_buffer b').

(** The new value of the message. *)
Definition copy_from_ipc_buffer (r : message) : M W message :=
  b <- gets k_ipc_buffer ;;
  lift (copy_message r b).

Definition post_receive_work (err : Z) (r : message) : M W (Z * message) :=
  if err =? OK then
    b <- gets k_ipc_buffer ;;
    let type := s16 (Z.land (Z.shiftr (header b) MSG_TYPE_OFFSET) 0xffff) in
    if type <? 0 then ret (- type, r)
    else r <- copy_from_ipc_buffer r ;; ret (err, r)
  else ret (err, r).

(** The error or [OK], and the channel. *)
Definition open : M W (Z * Z) :=
  cid_or_err <- k_open ;;
  if cid_or_err <? 0 then ret (cid_or_err, 0) else ret (OK, cid_or_err).

Definition ipc_recv (ch : Z) (r : message) : M W (Z * message) :=
  err <- k_ipc ch IPC_RECV ;; post_receive_work err r.

Definition ipc_send (ch : Z) (m : message) : M W Z :=
  copy_to_ipc_buffer m ;;; k_ipc ch IPC_SEND.

Definition ipc_async_send (ch : Z) (m : message) : M W Z :=
  copy_to_ipc_buffer m ;;; k_ipc ch (Z.lor IPC_SEND IPC_NOBLOCK).

Definition ipc_call (ch : Z) (m r : message) : M W (Z * message) :=
  copy_to_ipc_buffer m ;;;
  err <- k_ipc ch (Z.lor IPC_SEND IPC_RECV) ;;
  post_receive_work err r.

(** A stub [call_...]: [m] is the request; [page_base] is given if the reply has a
    page. *)
Definition call_stub (ch : Z) (m : message) (page_base : option Z) : M W (Z * message) :=
  match page_base with Some b => modify (k_set_page_base b) | None => ret tt end ;;;
  let* (err, r) := ipc_call ch m m in
  if negb (err =? OK) then ret (err, m)
  else
    match page_base with Some _ => modify (k_set_page_base 0) | None => ret tt end ;;;
    ret (OK, r).

(** ** The server loop *)

Definition call_timer_set (m0 : message) (ch timer_ch initial interval : Z) : M W Z :=
  let* (err, _) := call_stub ch
    (set_channel timer_ch (set_data (set_field 4 4 interval (set_field 0 4 initial (data m0)))
      (set_header TIMER_SET_MSG m0))) None in
  ret err.

(** The loops of [server_mainloop_with_deferred]; [fuel] bounds the receptions.
    [m0] is a message on the stack that was never written. *)
Fixpoint server_rounds (fuel : nat) (m0 : message) (ch : Z) (process : message -> M W (Z * message))
    (deferred_work : option (M W Z)) (timer_ch retries : Z) (m : message) : M W Z :=
  match fuel with
  | O => no_fuel
  | S fuel =>
      let again := server_rounds fuel m0 ch process deferred_work timer_ch in
      let* (err, m) := ipc_recv ch m in
      if err =? ERR_NEEDS_RETRY then again retries m
      else if negb (err =? OK) then ret err
      else
        let deferred_work_timeout := truthy (Z.land (notification m) NOTIFY_TIMER) in
        let* (err, m) := process m in
        let m := if negb (err =? DONT_REPLY) && negb (err =? OK)
                 then set_header (ERROR_TO_HEADER err) m else m in
        sent <- (if negb (err =? DONT_REPLY) then ipc_send (from m) m else ret OK) ;;
        if negb (sent =? OK) then ret sent
        else
          match deferred_work with
          | None => again retries m
          | Some work =>
              if (retries =? 0) || deferred_work_timeout then
                err <- work ;;
                if err =? ERR_NEEDS_RETRY then
                  let retries := retries + 1 in
                  let delay := Z.min (DEFERRED_WORK_DELAY * retries) DEFERRED_WORK_DELAY_MAX in
                  call_timer_set m0 1 timer_ch delay 0 ;;;
                  again retries m
                else if negb (err =? OK) then ret err
                else again 0 m
              else again retries m
          end
  end.

Definition server_mainloop_with_deferred (fuel : nat) (m0 : message) (ch : Z)
    (process : message -> M W (Z * message)) (deferred_work : option (M W Z)) : M W Z :=
  match deferred_work with
  | None => server_rounds fuel m0 ch process None 0 0 m0
  | Some _ =>
      let* (err, timer_ch) := open in
      if negb (err =? OK) then ret err
      else
        err <- k_transfer timer_ch ch ;;
        if negb (err =? OK) then ret err
        else server_rounds fuel m0 ch process deferred_work timer_ch 0 m0
  end.

Definition server_mainloop (fuel : nat) (m0 : message) (ch : Z) (process : message -> M W (Z * message)) : M W Z :=
  server_mainloop_with_deferred fuel m0 ch process None.

(** [server_register] and [server_connect]. *)
Definition call_discovery_publicize (m0 : message) (ch interface server : Z) : M W Z :=
  let* (err, _) := call_stub ch
    (set_channel server (set_data (set_field 0 1 interface (data m0)) (set_header DISCOVERY_PUBLICIZE_MSG m0))) None in
  ret err.

Definition server_register (m0 : message) (discovery_server server_ch interface : Z) : M W Z :=
  let* (err, ch) := open in
  if negb (err =? OK) then ret err else
  err <- k_transfer ch server_ch ;;
  if negb (err =? OK) then ret err else
  call_discovery_publicize m0 discovery_server interface ch.

Definition server_connect (m0 : message) (discovery_server interface : Z) : M W (Z * Z) :=
  let* (err, r) := call_stub discovery_server
    (set_data (set_field 0 1 interface (data m0)) (set_header DISCOVERY_CONNECT_MSG m0)) None in
  ret (err, channel r).

End Program.
End User.
Import User.

(** ** Messages up to what is transferred *)

(** Two buffers hold the same message: they agree on the header, the other members
    and the inline payload of the length the header gives. *)
Definition same_message (m1 m2 : message) : Prop :=
  header m1 = header m2 /\ from m1 = from m2 /\ notification m1 = notification m2 /\
  channel m1 = channel m2 /\ page m1 = page m2 /\
  take (Z.to_nat (INLINE_PAYLOAD_LEN (header m1))) (data m1) =
  take (Z.to_nat (INLINE_PAYLOAD_LEN (header m1))) (data m2).

#[export] Instance same_message_equivalence : Equivalence same_message.
Proof.
  split.
  - by intros m.
  - intros m1 m2 (E & ? & ? & ? & ? & ?). unfold same_message. rewrite <- E. by repeat split.
  - intros m1 m2 m3 (E & E1 & E2 & E3 & E4 & E5) (F & F1 & F2 & F3 & F4 & F5).
    unfold same_message. rewrite E in *. split_and!; congruence.
Qed.

(** The payload fits the buffer. *)
Definition fits (m : message) : Prop :=
  INLINE_PAYLOAD_LEN (header m) <= INLINE_PAYLOAD_LEN_MAX /\ INLINE_PAYLOAD_LEN_MAX <= Z.of_nat (length (data m)).

Lemma copy_message_ok dst src :
  INLINE_PAYLOAD_LEN_MAX <= Z.of_nat (length (data dst)) -> fits src ->
  exists m, copy_message dst src = Done m /\ same_message m src /\ length (data m) = length (data dst).
Proof.
  intros Hd [Hs Hs']. unfold copy_message. pose proof (INLINE_PAYLOAD_LEN_bound (header src)) as [Hn _].
  set (n := Z.to_nat (INLINE_PAYLOAD_LEN (header src))).
  rewrite memcpy_ok by (unfold n; lia). eexists. split; [done|]. split.
  - unfold same_message. cbn [header from notification channel page data]. fold n. split_and!; try done.
    apply take_app_length'. rewrite length_take. unfold n. lia.
  - cbn [data]. rewrite length_app, length_take, length_drop. unfold n. lia.
Qed.

Lemma same_message_fits m1 m2 :
  same_message m1 m2 -> fits m2 -> INLINE_PAYLOAD_LEN_MAX <= Z.of_nat (length (data m1)) -> fits m1.
Proof. intros (E & _) [H _] Hl. split; [by rewrite E | done]. Qed.

(** The fields of equal messages. *)
Lemma field_take off k n d : (off + k <= n)%nat -> (n <= length d)%nat -> field off k (take n d) = field off k d.
Proof.
  intros H Hn. unfold field. rewrite <- (take_drop n d) at 2. rewrite drop_app_le by (rewrite length_take; lia).
  symmetry. apply load_le_app. rewrite length_drop, length_take. lia.
Qed.

Lemma same_message_field m1 m2 off k : same_message m1 m2 -> fits m1 -> fits m2 ->
  Z.of_nat (off + k) <= INLINE_PAYLOAD_LEN (header m2) -> field off k (data m1) = field off k (data m2).
Proof.
  intros (E & _ & _ & _ & _ & Ed) [F1 L1] [F2 L2] Hk. rewrite E in Ed, F1.
  rewrite <- (field_take off k (Z.to_nat (INLINE_PAYLOAD_LEN (header m2))) (data m1)) by lia.
  rewrite <- (field_take off k (Z.to_nat (INLINE_PAYLOAD_LEN (header m2))) (data m2)) by lia. by rewrite Ed.
Qed.

(** ** Error replies *)

Lemma error_type e : 0 < e <= 2 ^ 15 ->
  s16 (Z.land (Z.shiftr (ERROR_TO_HEADER e) MSG_TYPE_OFFSET) 0xffff) = - e.
Proof.
  intros He. unfold ERROR_TO_HEADER, MSG_TYPE_OFFSET, u32.
  rewrite Z.shiftl_mul_pow2, Z.shiftr_div_pow2 by lia. change 0xffff with (Z.ones 16). rewrite Z.land_ones by lia.
  assert (- e mod 2 ^ 32 = 2 ^ 32 - e) as ->.
  { symmetry. apply (Z.mod_unique _ _ (-1)); lia. }
  assert (((2 ^ 32 - e) * 2 ^ 16) mod 2 ^ 32 = (2 ^ 16 - e) * 2 ^ 16) as ->.
  { symmetry. apply (Z.mod_unique _ _ (2 ^ 16 - 1)); lia. }
  rewrite Z.div_mul by lia. unfold s16.
  rewrite (Z.mod_small (2 ^ 16 - e)) by lia.
  assert ((2 ^ 16 - e + 2 ^ 15) mod 2 ^ 16 = 2 ^ 15 - e) as ->; [|lia].
  symmetry. apply (Z.mod_unique _ _ 1); lia.
Qed.

Lemma error_inline_len e : INLINE_PAYLOAD_LEN (ERROR_TO_HEADER e) = 0.
Proof.
  rewrite INLINE_PAYLOAD_LEN_mod. unfold ERROR_TO_HEADER, MSG_TYPE_OFFSET, u32.
  rewrite Z.shiftl_mul_pow2 by lia. set (x := - e mod 2 ^ 32).
  change (2 ^ 32) with (2 ^ 16 * 2 ^ 16) at 1. rewrite Zmult_mod_distr_r. apply Z.mod_divide; [lia|].
  exists (x mod 2 ^ 16 * 32). lia.
Qed.

(** Errors reach the client: if a server replies with [ERROR_TO_HEADER(e)],
    which is what the server loop does when a handler returns the error [e], then
    [ipc_call] of the client returns [e], for every error code up to [2^15]. *)
Theorem error_reply_roundtrip {W : Type} `{!Kernel W} (w w1 : W) (ch e : Z) (m r b : message)
    (Hm : fits m) (Hbuf : INLINE_PAYLOAD_LEN_MAX <= Z.of_nat (length (data (k_ipc_buffer w))))
    (Hcopy : copy_message (k_ipc_buffer w) m = Done b)
    (Hcall : k_ipc ch (Z.lor IPC_SEND IPC_RECV) (k_set_ipc_buffer b w) = Done (OK, w1))
    (Hreply : header (k_ipc_buffer w1) = ERROR_TO_HEADER e) (He : 0 < e <= 2 ^ 15) :
  ipc_call ch m r w = Done ((e, r), w1).
Proof.
  unfold ipc_call, copy_to_ipc_buffer, bind, gets, lift, modify. rewrite Hcopy. cbn [outcome_bind]. rewrite Hcall.
  cbv beta iota. unfold post_receive_work, bind, gets. change (OK =? OK) with true. cbv beta iota zeta.
  rewrite Hreply, error_type by done. rewrite (proj2 (Z.ltb_lt (- e) 0)) by lia.
  unfold ret. do 3 f_equal. lia.
Qed.

(** ** Kernels that queue messages *)

(** A thread that receives gets the messages of [inbox] in order, and an error
    when there are no more; what it sends is appended to [sent]. *)
Class MessageQueue (W : Type) `{!Kernel W} := {
  inbox : W -> list message;
  sent : W -> list (Z * message);
  end_error : Z;
  mq_end_error : end_error <> OK /\ end_error <> ERR_NEEDS_RETRY;
  mq_recv : forall ch w,
    match inbox w with
    | m :: ms => exists w', k_ipc ch IPC_RECV w = Done (OK, w') /\ k_ipc_buffer w' = m /\
                   inbox w' = ms /\ sent w' = sent w
    | [] => k_ipc ch IPC_RECV w = Done (end_error, w)
    end;
  mq_send : forall ch w, exists w', k_ipc ch IPC_SEND w = Done (OK, w') /\
    k_ipc_buffer w' = k_ipc_buffer w /\ inbox w' = inbox w /\ sent w' = sent w ++ [(ch, k_ipc_buffer w)];
  mq_buffer : forall b w, k_ipc_buffer (k_set_ipc_buffer b w) = b /\
    inbox (k_set_ipc_buffer b w) = inbox w /\ sent (k_set_ipc_buffer b w) = sent w
}.

(** A request: its type is not an error. *)
Definition request (m : message) : Prop :=
  fits m /\ 0 <= s16 (Z.land (Z.shiftr (header m) MSG_TYPE_OFFSET) 0xffff).

(** The reply of a server whose handler gives [err] and [m]. *)
Definition reply (r : Z * message) : list (Z * message) :=
  let '(err, m) := r in
  if err =? DONT_REPLY then []
  else [(from m, if err =? OK then m else set_header (ERROR_TO_HEADER err) m)].

Definition same_sent (x y : Z * message) : Prop := x.1 = y.1 /\ same_message x.2 y.2.

Section ServerLoop.
Context {W : Type} `{!Kernel W, !MessageQueue W}.
(** A handler that does not look at bytes outside the message, and whose replies
    fit. *)
Context (handler : message -> Z * message).
Hypothesis handler_proper : forall m1 m2, same_message m1 m2 ->
  (handler m1).1 = (handler m2).1 /\ same_message (handler m1).2 (handler m2).2.
Hypothesis handler_fits : forall m, fits m -> fits (handler m).2.

Lemma ipc_recv_some ch (w : W) m ms r :
  inbox w = m :: ms -> request m -> INLINE_PAYLOAD_LEN_MAX <= Z.of_nat (length (data r)) ->
  exists r' w', ipc_recv ch r w = Done ((OK, r'), w') /\ same_message r' m /\ length (data r') = length (data r) /\
    k_ipc_buffer w' = m /\ inbox w' = ms /\ sent w' = sent w.
Proof.
  intros Hi [Hfit Hty] Hr. pose proof (mq_recv ch w) as Hrecv. rewrite Hi in Hrecv.
  destruct Hrecv as (w' & E & Hb & Hin & Hs).
  destruct (copy_message_ok r m Hr Hfit) as (r' & Ec & Hsame & Hlen).
  exists r', w'. split; [|done]. unfold ipc_recv, bind. rewrite E.
  cbv beta iota. unfold post_receive_work, bind, gets. change (OK =? OK) with true. cbv beta iota zeta. rewrite Hb.
  rewrite (proj2 (Z.ltb_ge _ _)) by done. unfold copy_from_ipc_buffer, bind, gets, lift. rewrite Hb, Ec. done.
Qed.

Lemma ipc_send_ok ch (w : W) m :
  INLINE_PAYLOAD_LEN_MAX <= Z.of_nat (length (data (k_ipc_buffer w))) -> fits m ->
  exists b w', ipc_send ch m w = Done (OK, w') /\ same_message b m /\ inbox w' = inbox w /\
    sent w' = sent w ++ [(ch, b)] /\ length (data (k_ipc_buffer w')) = length (data (k_ipc_buffer w)).
Proof.
  intros Hb Hm. destruct (copy_message_ok _ m Hb Hm) as (b & Ec & Hsame & Hlen).
  destruct (mq_buffer b w) as (B1 & B2 & B3).
  destruct (mq_send ch (k_set_ipc_buffer b w)) as (w' & E & Hbuf & Hin & Hs).
  exists b, w'. rewrite Hin, Hs, Hbuf, B1, B2, B3. split; [|done].
  unfold ipc_send, copy_to_ipc_buffer, bind, gets, lift, modify. rewrite Ec. done.
Qed.

Lemma reply_same r1 r2 : r1.1 = r2.1 -> same_message r1.2 r2.2 -> Forall2 same_sent (reply r1) (reply r2).
Proof.
  destruct r1 as [e1 m1], r2 as [e2 m2]. simpl. intros <- H. unfold reply. destruct (e1 =? DONT_REPLY); [constructor|].
  constructor; [|constructor]. pose proof H as (Eh & Ef & En & Ec & Ep & Ed).
  split; [done|]. simpl. destruct (e1 =? OK); [done|].
  unfold same_message; simpl. split_and!; try done.
  by rewrite error_inline_len.
Qed.

Lemma fits_reply (e : Z) m : fits m ->
  fits (if negb (e =? DONT_REPLY) && negb (e =? OK) then set_header (ERROR_TO_HEADER e) m else m).
Proof.
  intros [H1 H2]. destruct (_ && _); [|done]. split; simpl; [|done]. rewrite error_inline_len. done.
Qed.

Lemma server_rounds_ok fuel m0 ch tch retries : forall (w : W) m,
  (length (inbox w) < fuel)%nat -> Forall request (inbox w) ->
  INLINE_PAYLOAD_LEN_MAX <= Z.of_nat (length (data m)) ->
  exists w' out, server_rounds fuel m0 ch (fun m => ret (handler m)) None tch retries m w = Done (end_error, w') /\
    inbox w' = [] /\ sent w' = sent w ++ out /\ Forall2 same_sent out (flat_map (fun m => reply (handler m)) (inbox w)).
Proof.
  destruct mq_end_error as [He1 He2].
  induction fuel as [|fuel IH]; intros w m Hf Hreq Hm; [lia|]. cbn [server_rounds].
  destruct (inbox w) as [|q qs] eqn:Hin.
  { pose proof (mq_recv ch w) as Hrecv. rewrite Hin in Hrecv. exists w, []. rewrite app_nil_r. split; [|done].
    unfold ipc_recv, bind. rewrite Hrecv. unfold post_receive_work.
    rewrite (proj2 (Z.eqb_neq end_error OK) He1). unfold ret.
    by rewrite (proj2 (Z.eqb_neq end_error ERR_NEEDS_RETRY) He2), (proj2 (Z.eqb_neq end_error OK) He1). }
  apply Forall_cons in Hreq as [Hq Hqs].
  destruct (ipc_recv_some ch w q qs m Hin Hq Hm) as (r & w1 & E1 & Hsame & Hlen & Hbuf & Hin1 & Hs1).
  assert (Hr : fits r) by (eapply same_message_fits; [done | apply Hq | lia]).
  destruct (handler_proper r q Hsame) as [Herr Hmsg].
  rewrite (bind_intro _ _ _ _ _ _ E1 eq_refl). cbv beta iota. change (OK =? ERR_NEEDS_RETRY) with false.
  change (OK =? OK) with true. cbn [negb].
  unfold bind at 1. unfold ret at 1. pose proof (handler_fits r Hr) as Hfit.
  pose proof (reply_same (handler r) (handler q) Herr Hmsg) as Hrep. clear Herr Hmsg.
  destruct (handler r) as [err hm] eqn:Eh. cbn [fst snd] in *. cbn iota.
  pose proof (fits_reply err hm Hfit) as Hfit'. unfold reply at 1 in Hrep.
  destruct (err =? DONT_REPLY) eqn:Ed; cbn [negb andb] in *.
  - destruct (IH w1 hm) as (w' & out & E & H1 & H2 & H3); [rewrite Hin1; simpl in Hf; lia | by rewrite Hin1 | apply Hfit |].
    exists w', out. split; [|split; [done|split; [by rewrite H2, Hs1|]]].
    + unfold bind, ret. change (OK =? OK) with true. exact E.
    + cbn [flat_map]. inversion Hrep as [Hnil|]. simpl. by rewrite Hin1 in H3.
  - assert (Efrom : from (if negb (err =? OK) then set_header (ERROR_TO_HEADER err) hm else hm) = from hm) by by destruct (err =? OK).
    rewrite Efrom.
    destruct (ipc_send_ok (from hm) w1 _ ltac:(rewrite Hbuf; apply Hq) Hfit') as (b & w2 & E2 & Hb & Hin2 & Hs2 & _).
    destruct (IH w2 (if negb (err =? OK) then set_header (ERROR_TO_HEADER err) hm else hm)) as (w' & out & E & H1 & H2 & H3);
      [rewrite Hin2, Hin1; simpl in Hf; lia | by rewrite Hin2, Hin1 | apply Hfit' |].
    exists w', ((from hm, b) :: out). split; [|split; [done|split]].
    + rewrite (bind_intro _ _ _ _ _ _ E2 eq_refl). exact E.
    + rewrite H2, Hs2, Hs1. by rewrite <- app_assoc.
    + cbn [flat_map]. rewrite Hin2, Hin1 in H3. inversion Hrep as [|x y xs ys Hxy Hrest Ex Ey]; subst.
      inversion Hrest; subst. simpl. constructor; [|done]. destruct Hxy as [Hx1 Hx2]. split; [done|]. simpl in *.
      etransitivity; [exact Hb|]. by destruct (err =? OK).
Qed.
End ServerLoop.

(** The server loop answers every request exactly once, in order.  On every
    kernel that delivers the messages of a queue, for every handler that depends
    only on the message and whose replies fit a message, [server_mainloop] receives
    all requests, sends to the sender of each one the handler's reply (nothing for
    [DONT_REPLY], an error message for an error), and returns only with the error
    with which the queue ends. *)
Theorem server_loop_replies {W : Type} `{!Kernel W, !MessageQueue W} (handler : message -> Z * message)
    (Hproper : forall m1 m2, same_message m1 m2 ->
       (handler m1).1 = (handler m2).1 /\ same_message (handler m1).2 (handler m2).2)
    (Hfits : forall m, fits m -> fits (handler m).2)
    (fuel : nat) (m0 : message) (ch : Z) (w : W)
    (Hfuel : (length (inbox w) < fuel)%nat) (Hreq : Forall request (inbox w))
    (Hm0 : INLINE_PAYLOAD_LEN_MAX <= Z.of_nat (length (data m0))) :
  exists w' out, server_mainloop fuel m0 ch (fun m => ret (handler m)) w = Done (end_error, w') /\
    inbox w' = [] /\ sent w' = sent w ++ out /\
    Forall2 same_sent out (flat_map (fun m => reply (handler m)) (inbox w)).
Proof. unfold server_mainloop. by apply server_rounds_ok. Qed.

(** A kernel that is just the queues. *)
Record qworld := QWorld { q_buffer : message; q_in : list message; q_out : list (Z * message) }.

#[export] Instance qworld_kernel : Kernel qworld := {
  k_ipc_buffer := q_buffer;
  k_set_ipc_buffer := fun b w => QWorld b (q_in w) (q_out w);
  k_set_page_base := fun _ w => w;
  k_open := ret 1;
  k_close := fun _ => ret OK;
  k_link := fun _ _ => ret OK;
  k_transfer := fun _ _ => ret OK;
  k_ipc := fun ch ops w =>
    if negb (truthy (Z.land ops IPC_RECV)) then Done (OK, QWorld (q_buffer w) (q_in w) (q_out w ++ [(ch, q_buffer w)]))
    else match q_in w with
         | m :: ms => Done (OK, QWorld m ms (q_out w))
         | [] => Done (ERR_CHANNEL_CLOSED, w)
         end
}.

#[export] Program Instance qworld_queue : MessageQueue qworld := {
  inbox := q_in; sent := q_out; end_error := ERR_CHANNEL_CLOSED
}.
Next Obligation. done. Qed.
Next Obligation. intros ch w. simpl. destruct (q_in w) eqn:E; [done|]. eauto. Qed.
Next Obligation. intros ch w. simpl. eauto. Qed.
Next Obligation. done. Qed.

(** A server for the runtime interface. *)
Definition ex_handler (m : message) : Z * message :=
  if header m =? RUNTIME_PRINTCHAR_MSG then (OK, set_header RUNTIME_PRINTCHAR_REPLY_MSG m)
  else (ERR_UNEXPECTED_MESSAGE, m).

Definition ex_msg (h f : Z) : message := Message h f 0 0 0 (replicate 480 7).

Lemma server_loop_replies_witness :
  let w := QWorld (ex_msg 0 0) [ex_msg RUNTIME_PRINTCHAR_MSG 3; ex_msg TIMER_CLEAR_MSG 4] [] in
  exists w' out, server_mainloop 3 (ex_msg 0 0) 1 (fun m => ret (ex_handler m)) w = Done (end_error, w') /\
    inbox w' = [] /\ sent w' = sent w ++ out /\
    Forall2 same_sent out [(3, ex_msg RUNTIME_PRINTCHAR_REPLY_MSG 3);
                           (4, ex_msg (ERROR_TO_HEADER ERR_UNEXPECTED_MESSAGE) 4)].
Proof.
  intros w.
  assert (flat_map (fun m => reply (ex_handler m)) (inbox w) =
          [(3, ex_msg RUNTIME_PRINTCHAR_REPLY_MSG 3); (4, ex_msg (ERROR_TO_HEADER ERR_UNEXPECTED_MESSAGE) 4)])
    as <- by (vm_compute; reflexivity).
  apply (server_loop_replies ex_handler).
  - intros m1 m2 H. pose proof H as (E & Hrest). unfold ex_handler. rewrite E.
    destruct (header m2 =? _); [|done]. split; [done|]. destruct Hrest as (? & ? & ? & ? & ?).
    unfold same_message. cbn [snd set_header header from notification channel page data].
    change (INLINE_PAYLOAD_LEN RUNTIME_PRINTCHAR_REPLY_MSG) with 0. done.
  - intros m [H1 H2]. unfold ex_handler. destruct (header m =? _); [|done]. split; [|done]. vm_compute. discriminate.
  - simpl. lia.
  - repeat constructor; vm_compute; discriminate.
  - vm_compute. discriminate.
Defined.

Lemma error_reply_roundtrip_witness :
  let w := QWorld (ex_msg 0 0) [ex_msg (ERROR_TO_HEADER ERR_NOT_FOUND) 5] [] in
  ipc_call 5 (ex_msg FS_OPEN_MSG 0) (ex_msg 0 0) w =
  Done ((ERR_NOT_FOUND, ex_msg 0 0), QWorld (ex_msg (ERROR_TO_HEADER ERR_NOT_FOUND) 5) [] []).
Proof.
  apply (error_reply_roundtrip (QWorld (ex_msg 0 0) [ex_msg (ERROR_TO_HEADER ERR_NOT_FOUND) 5] []) _ 5 ERR_NOT_FOUND
           (ex_msg FS_OPEN_MSG 0) (ex_msg 0 0) (ex_msg FS_OPEN_MSG 0)).
  - split; vm_compute; discriminate.
  - vm_compute. discriminate.
  - vm_compute. reflexivity.
  - reflexivity.
  - reflexivity.
  - unfold ERR_NOT_FOUND. lia.
Defined.
