(* ===== verification/Driver.v ===== *)
(** * Programs that access devices

    [libs/libdriver/io.c], the part of [libs/libserver] that device drivers share,
    and the state of a server: the static variables of the program beside the kernel
    and the machine.  The I/O instructions are the class [Ports]. *)
From S2P Require Import Prelude Message UserIpc.
Import User.

(** The I/O ports as a program sees them. *)
Class Ports (W : Type) := {
  p_in8 : Z -> M W Z;
  p_in16 : Z -> M W Z;
  p_in32 : Z -> M W Z;
  p_out8 : Z -> Z -> M W unit;
  p_out16 : Z -> Z -> M W unit;
  p_out32 : Z -> Z -> M W unit
}.

(** ** A program with static variables [V] *)

Section Static.
Context {W V : Type}.

Definition on_fst {A} (m : M W A) : M (W * V) A :=
  fun s =>
    match m s.1 with
    | Done (a, w) => Done (a, (w, s.2))
    | Panic => Panic
    | Undef => Undef
    | Fuel => Fuel
    end.

#[export] Instance pair_kernel `{!Kernel W} : Kernel (W * V) := {
  k_ipc_buffer s := k_ipc_buffer s.1;
  k_set_ipc_buffer b s := (k_set_ipc_buffer b s.1, s.2);
  k_set_page_base b s := (k_set_page_base b s.1, s.2);
  k_open := on_fst k_open;
  k_close ch := on_fst (k_close ch);
  k_link a b := on_fst (k_link a b);
  k_transfer a b := on_fst (k_transfer a b);
  k_ipc ch ops := on_fst (k_ipc ch ops)
}.

#[export] Instance pair_ports `{!Ports W} : Ports (W * V) := {
  p_in8 port := on_fst (p_in8 port);
  p_in16 port := on_fst (p_in16 port);
  p_in32 port := on_fst (p_in32 port);
  p_out8 port v := on_fst (p_out8 port v);
  p_out16 port v := on_fst (p_out16 port v);
  p_out32 port v := on_fst (p_out32 port v)
}.

(** The variables. *)
Definition statics : M (W * V) V := gets snd.
Definition set_statics (v : V) : M (W * V) unit := modify (fun s => (s.1, v)).

End Static.

Lemma on_fst_done {W V A} (m : M W A) (w w' : W) (v : V) a :
  m w = Done (a, w') -> on_fst m (w, v) = Done (a, (w', v)).
Proof. unfold on_fst. simpl. by intros ->. Qed.

(** [TRY] and [TRY_OR_PANIC]. *)
Definition try_or {S A} (m : M S Z) (fail : Z -> M S A) (k : M S A) : M S A :=
  err <- m ;; if negb (err =? OK) then fail err else k.
Definition TRY {S} (m k : M S Z) : M S Z := try_or m ret k.
Definition TRY_OR_PANIC {S} (m : M S Z) : M S unit := try_or m (fun _ => panic) (ret tt).

(** ** I/O handles *)

Inductive io_space_type := IO_SPACE_IOPORT | IO_SPACE_MEMORY.
Record io_handle := IoHandle { io_type : io_space_type; io_addr : Z; io_size : Z }.

Definition is_ioport (h : io_handle) : bool :=
  match io_type h with IO_SPACE_IOPORT => true | IO_SPACE_MEMORY => false end.

Module Io.
Section Io.
Context {S : Type} `{!Kernel S, !Ports S}.

(** [arch_ioport_*] take a 16-bit port. *)
Definition io_port (h : io_handle) (offset : Z) : Z := u16 (u64 (io_addr h + offset)).

Definition io_read8 (h : io_handle) (offset : Z) : M S Z :=
  c_assert (is_ioport h) ;;; p_in8 (io_port h offset).
Definition io_read16 (h : io_handle) (offset : Z) : M S Z :=
  c_assert (is_ioport h) ;;; p_in16 (io_port h offset).
Definition io_read32 (h : io_handle) (offset : Z) : M S Z :=
  c_assert (is_ioport h) ;;; p_in32 (io_port h offset).
Definition io_write8 (h : io_handle) (offset value : Z) : M S unit :=
  c_assert (is_ioport h) ;;; p_out8 (io_port h offset) (u8 value).
Definition io_write16 (h : io_handle) (offset value : Z) : M S unit :=
  c_assert (is_ioport h) ;;; p_out16 (io_port h offset) (u16 value).
Definition io_write32 (h : io_handle) (offset value : Z) : M S unit :=
  c_assert (is_ioport h) ;;; p_out32 (io_port h offset) (u32 value).

(** [m0] is a message on the stack that was never written. *)
Variable m0 : message.

Definition call_io_allow_iomapped_io (ch : Z) : M S Z :=
  let* (err, _) := call_stub ch (set_header IO_ALLOW_IOMAPPED_IO_MSG m0) None in ret err.
Definition call_io_listen_irq (io_server ch irq : Z) : M S Z :=
  let* (err, _) := call_stub io_server
    (set_channel ch (set_data (set_field 0 1 irq (data m0)) (set_header IO_LISTEN_IRQ_MSG m0))) None in
  ret err.

(** The error and the handle; [UNIMPLEMENTED] exits. *)
Definition io_open (io_server : Z) (type : io_space_type) (addr size : Z) : M S (Z * option io_handle) :=
  match type with
  | IO_SPACE_IOPORT =>
      err <- call_io_allow_iomapped_io io_server ;;
      if negb (err =? OK) then ret (err, None) else ret (OK, Some (IoHandle type addr size))
  | IO_SPACE_MEMORY => panic
  end.

Definition io_close (h : io_handle) : M S unit :=
  match io_type h with IO_SPACE_IOPORT => ret tt | IO_SPACE_MEMORY => panic end.

(** The error and the new channel. *)
Definition io_listen_interrupt (io_server receive_at irq : Z) : M S (Z * Z) :=
  let* (err, ch) := open in
  if negb (err =? OK) then ret (err, 0) else
  err <- k_transfer ch receive_at ;;
  if negb (err =? OK) then ret (err, 0) else
  err <- call_io_listen_irq io_server ch irq ;;
  if negb (err =? OK) then ret (err, 0) else
  ret (OK, ch).

(** [handle_server_connect], which every driver has: a new channel that transfers
    to the one the server receives at. *)
Definition handle_server_connect (server_ch : Z) (m : message) : M S (Z * message) :=
  let* (err, new_ch) := open in
  if negb (err =? OK) then ret (err, m) else
  k_transfer new_ch server_ch ;;;
  ret (OK, set_channel new_ch (set_header SERVER_CONNECT_REPLY_MSG m)).

End Io.
End Io.

(** A port access by a program with static variables. *)
Section Access.
Context {W V : Type} `{!Ports W}.

Lemma io_read32_done (w w' : W) (v : V) h offset x :
  io_type h = IO_SPACE_IOPORT -> p_in32 (Io.io_port h offset) w = Done (x, w') ->
  Io.io_read32 h offset (w, v) = Done (x, (w', v)).
Proof. intros Hh E. unfold Io.io_read32, is_ioport. rewrite Hh. exact (on_fst_done _ _ _ v _ E). Qed.

Lemma io_write32_done (w w' : W) (v : V) h offset x :
  io_type h = IO_SPACE_IOPORT -> p_out32 (Io.io_port h offset) (u32 x) w = Done (tt, w') ->
  Io.io_write32 h offset x (w, v) = Done (tt, (w', v)).
Proof. intros Hh E. unfold Io.io_write32, is_ioport. rewrite Hh. exact (on_fst_done _ _ _ v _ E). Qed.

End Access.

(** ** Messages of the device interfaces *)

Definition KEYBOARD_DRIVER_INTERFACE : Z := 30.
Definition MOUSE_DRIVER_INTERFACE : Z := 31.
Definition PCI_INTERFACE : Z := 40.
Definition GUI_INTERFACE : Z := 18.
Definition KEYBOARD_DRIVER_LISTEN_MSG := idl_header 30 1 false true 0.
Definition KEYBOARD_DRIVER_LISTEN_REPLY_MSG := idl_reply 30 1 false false 0.
Definition KEYBOARD_DRIVER_KEYINPUT_EVENT_MSG := idl_header 30 2 false false 1.
Definition KEYBOARD_DRIVER_KEYINPUT_EVENT_REPLY_MSG := idl_reply 30 2 false false 0.
Definition MOUSE_DRIVER_LISTEN_MSG := idl_header 31 1 false true 0.
Definition MOUSE_DRIVER_LISTEN_REPLY_MSG := idl_reply 31 1 false false 0.
Definition MOUSE_DRIVER_MOUSE_EVENT_MSG := idl_header 31 2 false false (1 + 1 + 2 + 2).
Definition PCI_WAIT_FOR_DEVICE_MSG := idl_header 40 1 false false (2 + 2).
Definition PCI_WAIT_FOR_DEVICE_REPLY_MSG := idl_reply 40 1 false false (2 + 2 + 1 + 1).
Definition PCI_READ_CONFIG16_MSG := idl_header 40 2 false false (1 + 1 + 2).
Definition PCI_READ_CONFIG16_REPLY_MSG := idl_reply 40 2 false false 2.
Definition PCI_READ_CONFIG32_MSG := idl_header 40 3 false false (1 + 1 + 2).
Definition PCI_READ_CONFIG32_REPLY_MSG := idl_reply 40 3 false false 4.
Definition PCI_WRITE_CONFIG8_MSG := idl_header 40 4 false false (1 + 1 + 2 + 1).
Definition PCI_WRITE_CONFIG8_REPLY_MSG := idl_reply 40 4 false false 0.
Definition PCI_WRITE_CONFIG32_MSG := idl_header 40 5 false false (1 + 1 + 2 + 4).
Definition PCI_WRITE_CONFIG32_REPLY_MSG := idl_reply 40 5 false false 0.
Definition GUI_CONSOLE_WRITE_MSG := idl_header 18 1 false false 1.
Definition GUI_CONSOLE_WRITE_REPLY_MSG := idl_reply 18 1 false false 0.
Definition GUI_ACTIVATE_MSG := idl_header 18 2 false false 0.
Definition GUI_ACTIVATE_REPLY_MSG := idl_reply 18 2 false false 0.
Definition GUI_KEY_EVENT_MSG := idl_header 18 3 false false 1.
