(* ===== verification/Ps2.v ===== *)
(** * The keyboard and mouse driver

    [servers/ps2/keymap.c] and [servers/ps2/main.c].  The driver reads scan codes
    and mouse packets from the controller and sends events to the programs that
    listen.  The bytes the controller has are part of the machine: [Controller] says
    how the ports give them out. *)
From S2P Require Import Prelude Message CString UserIpc Driver.
Import User Io.

Definition KEY_RELEASE : Z := 0x80.
Definition KEY_SHIFT_LEFT : Z := 0x06.
Definition KEY_SHIFT_RIGHT : Z := 0x07.

Definition us_key_map : list Z :=
  [0; 16; 49; 50; 51; 52; 53; 54; 55; 56; 57; 48; 45; 61; 1; 9; 113; 119; 101; 114; 116; 121; 117; 105; 111; 112;
   91; 93; 0; 2; 97; 115; 100; 102; 103; 104; 106; 107; 108; 59; 39; 96; 6; 92; 122; 120; 99; 118; 98; 110; 109;
   44; 46; 47; 7; 0; 4; 32; 11; 17; 18; 19; 20; 21; 22; 23; 24; 25; 26; 0; 0; 0; 0; 0; 0; 0; 0; 0; 0; 0; 0; 0; 0;
   0; 0; 0; 0; 27; 28; 0; 0; 0; 0; 0; 0; 0; 0; 0; 0; 0; 0; 0; 0; 0; 0; 0; 0; 0; 0; 0; 0; 0; 0; 0; 0; 0; 0; 0; 0;
   0; 0; 0; 0; 0; 0; 0; 0; 0].

Definition us_shifted_key_map : list Z :=
  [0; 16; 33; 64; 35; 36; 37; 94; 38; 42; 40; 41; 95; 43; 1; 9; 81; 87; 69; 82; 84; 89; 85; 73; 79; 80; 123; 125;
   0; 2; 65; 83; 68; 70; 71; 72; 74; 75; 76; 58; 34; 126; 6; 124; 90; 88; 67; 86; 66; 78; 77; 60; 62; 63; 7; 0; 4;
   32; 11; 17; 18; 19; 20; 21; 22; 23; 24; 25; 26; 0; 0; 0; 0; 0; 0; 0; 0; 0; 0; 0; 0; 0; 0; 0; 0; 0; 0; 27; 28;
   0; 0; 0; 0; 0; 0; 0; 0; 0; 0; 0; 0; 0; 0; 0; 0; 0; 0; 0; 0; 0; 0; 0; 0; 0; 0; 0; 0; 0; 0; 0; 0; 0; 0; 0; 0; 0;
   0; 0].

(** An access outside the map is undefined. *)
Definition scan_code2key_code (scan_code : Z) (shift : bool) : option Z :=
  let key_map := if shift then us_shifted_key_map else us_key_map in
  let released := 0x80 <=? scan_code in
  match arr_get key_map (Z.land scan_code 0x7f) with
  | Some k => Some (Z.lor k (if released then KEY_RELEASE else 0))
  | None => None
  end.

(** The static variables; of [modifiers] the members that are written. *)
Record ps2 := Ps2 {
  ps_server_ch : Z;
  ps_kbd_irq_ch : Z;
  ps_mouse_irq_ch : Z;
  ps_keyboard_listener_ch : Z;
  ps_mouse_listener_ch : Z;
  ps_io_handle : io_handle;
  ps_shift_left : bool;
  ps_shift_right : bool;
  ps_mouse_byte_pos : Z;
  ps_data : list Z
}.

(** At the start: static variables are zero. *)
Definition ps2_init : ps2 := Ps2 0 0 0 0 0 (IoHandle IO_SPACE_IOPORT 0 0) false false 0 [0; 0; 0].

Definition set_shift_left b (p : ps2) : ps2 := Ps2 (ps_server_ch p) (ps_kbd_irq_ch p) (ps_mouse_irq_ch p) (ps_keyboard_listener_ch p) (ps_mouse_listener_ch p) (ps_io_handle p) b (ps_shift_right p) (ps_mouse_byte_pos p) (ps_data p).
Definition set_shift_right b (p : ps2) : ps2 := Ps2 (ps_server_ch p) (ps_kbd_irq_ch p) (ps_mouse_irq_ch p) (ps_keyboard_listener_ch p) (ps_mouse_listener_ch p) (ps_io_handle p) (ps_shift_left p) b (ps_mouse_byte_pos p) (ps_data p).
Definition set_mouse pos d (p : ps2) : ps2 := Ps2 (ps_server_ch p) (ps_kbd_irq_ch p) (ps_mouse_irq_ch p) (ps_keyboard_listener_ch p) (ps_mouse_listener_ch p) (ps_io_handle p) (ps_shift_left p) (ps_shift_right p) pos d.
Definition set_keyboard_listener c (p : ps2) : ps2 := Ps2 (ps_server_ch p) (ps_kbd_irq_ch p) (ps_mouse_irq_ch p) c (ps_mouse_listener_ch p) (ps_io_handle p) (ps_shift_left p) (ps_shift_right p) (ps_mouse_byte_pos p) (ps_data p).
Definition set_mouse_listener c (p : ps2) : ps2 := Ps2 (ps_server_ch p) (ps_kbd_irq_ch p) (ps_mouse_irq_ch p) (ps_keyboard_listener_ch p) c (ps_io_handle p) (ps_shift_left p) (ps_shift_right p) (ps_mouse_byte_pos p) (ps_data p).
Definition set_handle h (p : ps2) : ps2 := Ps2 (ps_server_ch p) (ps_kbd_irq_ch p) (ps_mouse_irq_ch p) (ps_keyboard_listener_ch p) (ps_mouse_listener_ch p) h (ps_shift_left p) (ps_shift_right p) (ps_mouse_byte_pos p) (ps_data p).
Definition set_channels_ps2 s k m (p : ps2) : ps2 := Ps2 s k m (ps_keyboard_listener_ch p) (ps_mouse_listener_ch p) (ps_io_handle p) (ps_shift_left p) (ps_shift_right p) (ps_mouse_byte_pos p) (ps_data p).

Definition KEYBOARD_IRQ : Z := 1.
Definition MOUSE_IRQ : Z := 12.
Definition IOPORT_ADDR : Z := 0x60.
Definition IOPORT_SIZE : Z := 5.
Definition IOPORT_OFFSET_DATA : Z := 0.
Definition IOPORT_OFFSET_STATUS : Z := 4.
Definition KBD_STATUS_OUTBUF_FULL : Z := 1.
Definition KBD_STATUS_AUX_OUTPUT_FULL : Z := 32.
Definition MOUSE_BYTE1_LEFT_BUTTON : Z := 1.
Definition MOUSE_BYTE1_RIGHT_BUTTON : Z := 2.
Definition MOUSE_BYTE1_ALWAYS_1 : Z := 8.
Definition MOUSE_BYTE1_X_SIGNED : Z := 16.
Definition MOUSE_BYTE1_Y_SIGNED : Z := 32.
Definition MOUSE_BYTE1_X_OVERFLOW : Z := 64.
Definition MOUSE_BYTE1_Y_OVERFLOW : Z := 128.

Module Ps2.
Section Server.
Context {W : Type} `{!Kernel W, !Ports W}.
(** A message on the stack that was never written. *)
Context (m0 : message).
Local Abbreviation S := (W * ps2)%type.

Definition memmgr_ch : Z := 1.
Definition kernel_ch : Z := 2.

Definition read_reg (offset : Z) : M S Z :=
  p <- statics ;; io_read8 (ps_io_handle p) offset.
Definition write_reg (offset v : Z) : M S unit :=
  p <- statics ;; io_write8 (ps_io_handle p) offset v.
Definition read_status_reg : M S Z := read_reg IOPORT_OFFSET_STATUS.
Definition read_data_reg : M S Z := read_reg IOPORT_OFFSET_DATA.

Definition call_keyboard_driver_keyinput_event (ch key_code : Z) : M S Z :=
  let* (err, _) := call_stub ch
    (set_data (set_field 0 1 key_code (data m0)) (set_header KEYBOARD_DRIVER_KEYINPUT_EVENT_MSG m0)) None in
  ret err.
Definition send_mouse_driver_mouse_event (ch : Z) (left right : bool) (x y : Z) : M S Z :=
  ipc_send ch
    (set_data (set_field 4 2 y (set_field 2 2 x (set_field 1 1 (Z.b2z right) (set_field 0 1 (Z.b2z left) (data m0)))))
      (set_header MOUSE_DRIVER_MOUSE_EVENT_MSG m0)).

Definition read_keyboard_input : M S unit :=
  scan_code <- read_data_reg ;;
  p <- statics ;;
  let shift := ps_shift_left p || ps_shift_right p in
  key_code <- need (scan_code2key_code scan_code shift) ;;
  let key := Z.land key_code (Z.lnot KEY_RELEASE) in
  let pressed := Z.land key_code KEY_RELEASE =? 0 in
  (if key =? KEY_SHIFT_LEFT then set_statics (set_shift_left pressed p)
   else if key =? KEY_SHIFT_RIGHT then set_statics (set_shift_right pressed p)
   else ret tt) ;;;
  p <- statics ;;
  if truthy (ps_keyboard_listener_ch p) then
    call_keyboard_driver_keyinput_event (ps_keyboard_listener_ch p) key_code ;;; ret tt
  else ret tt.

Definition store_data (i b pos : Z) : M S unit :=
  p <- statics ;;
  d <- need (arr_set (ps_data p) i b) ;;
  set_statics (set_mouse pos d p).

Definition read_mouse_input : M S unit :=
  p <- statics ;;
  let pos := ps_mouse_byte_pos p in
  if pos =? 0 then
    b <- read_data_reg ;;
    if truthy (Z.land b MOUSE_BYTE1_X_OVERFLOW) || truthy (Z.land b MOUSE_BYTE1_Y_OVERFLOW)
       || (Z.land b MOUSE_BYTE1_ALWAYS_1 =? 0)
    then store_data 0 b 0
    else store_data 0 b 1
  else if pos =? 1 then
    b <- read_data_reg ;; store_data 1 b 2
  else if pos =? 2 then
    b <- read_data_reg ;;
    store_data 2 b 2 ;;;
    p <- statics ;;
    d0 <- need (arr_get (ps_data p) 0) ;;
    d1 <- need (arr_get (ps_data p) 1) ;;
    d2 <- need (arr_get (ps_data p) 2) ;;
    let left_pressed := truthy (Z.land d0 MOUSE_BYTE1_LEFT_BUTTON) in
    let right_pressed := truthy (Z.land d0 MOUSE_BYTE1_RIGHT_BUTTON) in
    let x := if truthy (Z.land d0 MOUSE_BYTE1_X_SIGNED) then s8 d1 else u8 d1 in
    let y := if truthy (Z.land d0 MOUSE_BYTE1_Y_SIGNED) then s8 d2 else u8 d2 in
    (if truthy (ps_mouse_listener_ch p)
     then send_mouse_driver_mouse_event (ps_mouse_listener_ch p) left_pressed right_pressed x y ;;; ret tt
     else ret tt) ;;;
    p <- statics ;;
    set_statics (set_mouse 0 (ps_data p) p)
  else undef.

(** Busy waiting, with fuel for the rounds. *)
Fixpoint wait_while (fuel : nat) (offset : Z) (busy : Z -> bool) : M S unit :=
  match fuel with
  | O => no_fuel
  | Datatypes.S fuel => v <- read_reg offset ;; if busy v then wait_while fuel offset busy else ret tt
  end.
Definition wait_kbd (fuel : nat) : M S unit :=
  wait_while fuel IOPORT_OFFSET_STATUS (fun v => negb (Z.land v 0x02 =? 0)).
Definition wait_kbd_ack (fuel : nat) : M S unit :=
  wait_while fuel IOPORT_OFFSET_DATA (fun v => negb (v =? 0xfa)).

Fixpoint drain_output (fuel : nat) : M S unit :=
  match fuel with
  | O => no_fuel
  | Datatypes.S fuel =>
      v <- read_reg IOPORT_OFFSET_STATUS ;;
      if truthy (Z.land v KBD_STATUS_OUTBUF_FULL) then read_reg IOPORT_OFFSET_DATA ;;; drain_output fuel else ret tt
  end.

(** [init_device]; the byte 0xd4 sends the next one to the mouse. *)
Definition send_to_mouse (fuel : nat) (command : Z) : M S unit :=
  wait_kbd fuel ;;;
  write_reg IOPORT_OFFSET_STATUS 0xd4 ;;;
  wait_kbd fuel ;;;
  write_reg IOPORT_OFFSET_DATA command ;;;
  wait_kbd_ack fuel.

Definition init_device (fuel : nat) : M S Z :=
  let* (err, h) := io_open m0 kernel_ch IO_SPACE_IOPORT IOPORT_ADDR IOPORT_SIZE in
  match h with
  | None => ret err
  | Some h =>
      p <- statics ;;
      set_statics (set_handle h p) ;;;
      wait_kbd fuel ;;;
      write_reg IOPORT_OFFSET_STATUS 0xa8 ;;;
      drain_output fuel ;;;
      wait_kbd fuel ;;;
      write_reg IOPORT_OFFSET_STATUS 0x20 ;;;
      wait_kbd fuel ;;;
      compaq_status <- read_reg IOPORT_OFFSET_DATA ;;
      wait_kbd fuel ;;;
      write_reg IOPORT_OFFSET_STATUS 0x60 ;;;
      wait_kbd fuel ;;;
      write_reg IOPORT_OFFSET_DATA (Z.lor compaq_status 2) ;;;
      send_to_mouse fuel 0xf6 ;;;
      send_to_mouse fuel 0xf4 ;;;
      ret OK
  end.

(** The loop of [handle_notification], with fuel for the bytes. *)
Fixpoint read_inputs (fuel : nat) : M S unit :=
  match fuel with
  | O => no_fuel
  | Datatypes.S fuel =>
      st <- read_status_reg ;;
      if truthy (Z.land st KBD_STATUS_OUTBUF_FULL) then
        st <- read_status_reg ;;
        (if truthy (Z.land st KBD_STATUS_AUX_OUTPUT_FULL) then read_mouse_input else read_keyboard_input) ;;;
        read_inputs fuel
      else ret tt
  end.

Definition handle_notification (fuel : nat) (notification : Z) : M S Z :=
  (if truthy (Z.land notification NOTIFY_INTERRUPT) then read_inputs fuel else ret tt) ;;;
  ret DONT_REPLY.

Definition handle_keyboard_listen (m : message) : M S (Z * message) :=
  p <- statics ;;
  set_statics (set_keyboard_listener (channel m) p) ;;;
  ret (OK, set_header KEYBOARD_DRIVER_LISTEN_REPLY_MSG m).

Definition handle_mouse_listen (m : message) : M S (Z * message) :=
  p <- statics ;;
  set_statics (set_mouse_listener (channel m) p) ;;;
  ret (OK, set_header MOUSE_DRIVER_LISTEN_REPLY_MSG m).

Definition process_message (fuel : nat) (m : message) : M S (Z * message) :=
  (if truthy (notification m) then handle_notification fuel (notification m) ;;; ret tt else ret tt) ;;;
  if header m =? SERVER_CONNECT_MSG then p <- statics ;; handle_server_connect (ps_server_ch p) m
  else if header m =? KEYBOARD_DRIVER_LISTEN_MSG then handle_keyboard_listen m
  else if header m =? MOUSE_DRIVER_LISTEN_MSG then handle_mouse_listen m
  else if header m =? NOTIFICATION_MSG then ret (DONT_REPLY, m)
  else ret (ERR_UNEXPECTED_MESSAGE, m).

Definition main (fuel : nat) : M S Z :=
  TRY_OR_PANIC (init_device fuel) ;;;
  let* (err, server_ch) := open in
  c_assert (err =? OK) ;;;
  let* (err, kbd_irq_ch) := io_listen_interrupt m0 kernel_ch server_ch KEYBOARD_IRQ in
  c_assert (err =? OK) ;;;
  let* (err, mouse_irq_ch) := io_listen_interrupt m0 kernel_ch server_ch MOUSE_IRQ in
  c_assert (err =? OK) ;;;
  p <- statics ;;
  set_statics (set_channels_ps2 server_ch kbd_irq_ch mouse_irq_ch p) ;;;
  TRY_OR_PANIC (server_register m0 memmgr_ch server_ch KEYBOARD_DRIVER_INTERFACE) ;;;
  TRY_OR_PANIC (server_register m0 memmgr_ch server_ch MOUSE_DRIVER_INTERFACE) ;;;
  server_mainloop fuel m0 server_ch (process_message fuel).

End Server.
End Ps2.
Import Ps2.

(** ** The key map *)

Definition scan_codes : list Z := seqZ 0 256.

(** What the tables hold, for every scan code and both shift states. *)
Definition key_ok (shift : bool) (b : Z) : bool :=
  match scan_code2key_code b shift, scan_code2key_code (Z.land b 0x7f) shift with
  | Some k, Some k' =>
      (0 <=? k) && (k <? 256) && (Z.land k (Z.lnot KEY_RELEASE) =? k') && (k' <? 128) &&
      Bool.eqb (Z.land k KEY_RELEASE =? 0) (b <? 0x80) &&
      Bool.eqb (Z.land k (Z.lnot KEY_RELEASE) =? KEY_SHIFT_LEFT) (Z.land b 0x7f =? 0x2a) &&
      Bool.eqb (Z.land k (Z.lnot KEY_RELEASE) =? KEY_SHIFT_RIGHT) (Z.land b 0x7f =? 0x36)
  | _, _ => false
  end.

Lemma key_map_ok shift b : 0 <= b < 256 -> key_ok shift b = true.
Proof.
  intros Hb. assert (H : forallb (key_ok true) scan_codes && forallb (key_ok false) scan_codes = true) by (vm_compute; reflexivity).
  apply andb_true_iff in H as [H1 H2]. rewrite forallb_forall in H1, H2.
  assert (Hin : In b scan_codes) by (apply list_elem_of_In, elem_of_seqZ; lia). destruct shift; auto.
Qed.

(** The key maps cover every scan code.  For each of the 256 values the keyboard
    can send and both shift states the lookup stays inside the map and gives a
    byte; its highest bit says that the key is released, and the rest is the code
    of the key, the same when it is pressed and when it is released.  The shift
    keys are those with the scan codes 0x2a and 0x36, in both maps. *)
Theorem key_map_bounds (scan_code : Z) (shift : bool) (Hb : 0 <= scan_code < 256) :
  exists k, scan_code2key_code scan_code shift = Some k /\ 0 <= k < 256 /\
    (Z.land k KEY_RELEASE = 0 <-> scan_code < 0x80) /\
    scan_code2key_code (Z.land scan_code 0x7f) shift = Some (Z.land k (Z.lnot KEY_RELEASE)) /\
    (Z.land k (Z.lnot KEY_RELEASE) = KEY_SHIFT_LEFT <-> Z.land scan_code 0x7f = 0x2a) /\
    (Z.land k (Z.lnot KEY_RELEASE) = KEY_SHIFT_RIGHT <-> Z.land scan_code 0x7f = 0x36).
Proof.
  pose proof (key_map_ok shift scan_code Hb) as H. unfold key_ok in H.
  destruct (scan_code2key_code scan_code shift) as [k|]; [|done].
  destruct (scan_code2key_code (Z.land scan_code 0x7f) shift) as [k'|]; [|done].
  zbool. repeat match goal with E : Bool.eqb _ _ = true |- _ => apply Bool.eqb_prop in E end.
  exists k. split; [done|]. split; [lia|]. split; [rewrite <- Z.eqb_eq, <- Z.ltb_lt; by rewrite H2|].
  split; [by subst k'|]. split; rewrite <- !Z.eqb_eq; [by rewrite H1 | by rewrite H0].
Qed.

Lemma key_map_bounds_witness : exists k, scan_code2key_code 0xaa true = Some k /\ 0 <= k < 256.
Proof. destruct (key_map_bounds 0xaa true) as (k & E & Hk & _); [lia | exists k; split; [exact E | exact Hk]]. Defined.

(** ** The controller *)

(** The bytes that wait in the controller, with whether they are from the mouse, and
    the messages that were sent. *)
Class Controller (W : Type) `{!Kernel W, !Ports W} := {
  pending : W -> list (bool * Z);
  events : W -> list (Z * message);
  ct_status : forall w, exists st, p_in8 0x64 w = Done (st, w) /\
    match pending w with
    | [] => Z.land st KBD_STATUS_OUTBUF_FULL = 0
    | (aux, _) :: _ => Z.land st KBD_STATUS_OUTBUF_FULL <> 0 /\ (Z.land st KBD_STATUS_AUX_OUTPUT_FULL =? 0) = negb aux
    end;
  ct_data : forall w aux b q, pending w = (aux, b) :: q ->
    exists w', p_in8 0x60 w = Done (b, w') /\ pending w' = q /\ events w' = events w /\ k_ipc_buffer w' = k_ipc_buffer w;
  ct_buffer : forall b w, k_ipc_buffer (k_set_ipc_buffer b w) = b /\
    pending (k_set_ipc_buffer b w) = pending w /\ events (k_set_ipc_buffer b w) = events w;
  ct_ipc : forall ch ops w, truthy (Z.land ops IPC_SEND) = true ->
    exists err w', k_ipc ch ops w = Done (err, w') /\ pending w' = pending w /\
      events w' = events w ++ [(ch, k_ipc_buffer w)] /\ fits (k_ipc_buffer w')
}.

(** ** What the bytes mean *)

(** Scan codes: the codes of the keys, with the state of the two shift keys. *)
Definition shift_after (make : Z) (down : bool) (b : Z) : bool :=
  if Z.land b 0x7f =? make then b <? 0x80 else down.
Fixpoint decode_keys (left right : bool) (bs : list Z) : list Z :=
  match bs with
  | [] => []
  | b :: bs =>
      default 0 (scan_code2key_code b (left || right)) ::
      decode_keys (shift_after 0x2a left b) (shift_after 0x36 right b) bs
  end.

(** Mouse packets: bytes that cannot be the first of a packet are skipped. *)
Definition first_byte (b : Z) : bool :=
  negb (truthy (Z.land b MOUSE_BYTE1_X_OVERFLOW) || truthy (Z.land b MOUSE_BYTE1_Y_OVERFLOW) || (Z.land b MOUSE_BYTE1_ALWAYS_1 =? 0)).
Record mouse_event := MouseEvent { me_left : bool; me_right : bool; me_x : Z; me_y : Z }.
Definition packet (b0 b1 b2 : Z) : mouse_event :=
  MouseEvent (truthy (Z.land b0 MOUSE_BYTE1_LEFT_BUTTON)) (truthy (Z.land b0 MOUSE_BYTE1_RIGHT_BUTTON))
    (if truthy (Z.land b0 MOUSE_BYTE1_X_SIGNED) then s8 b1 else u8 b1)
    (if truthy (Z.land b0 MOUSE_BYTE1_Y_SIGNED) then s8 b2 else u8 b2).
Fixpoint decode_mouse (bs : list Z) : list mouse_event :=
  match bs with
  | [] => []
  | b0 :: rest =>
      if first_byte b0 then
        match rest with
        | b1 :: b2 :: rest => packet b0 b1 b2 :: decode_mouse rest
        | _ => []
        end
      else decode_mouse rest
  end.

(** The messages that carry them. *)
Definition key_message (ch k : Z) (x : Z * message) : Prop :=
  x.1 = ch /\ header x.2 = KEYBOARD_DRIVER_KEYINPUT_EVENT_MSG /\ field 0 1 (data x.2) = k.
Definition mouse_message (ch : Z) (e : mouse_event) (x : Z * message) : Prop :=
  x.1 = ch /\ header x.2 = MOUSE_DRIVER_MOUSE_EVENT_MSG /\
  field 0 1 (data x.2) = Z.b2z (me_left e) /\ field 1 1 (data x.2) = Z.b2z (me_right e) /\
  s16 (field 2 2 (data x.2)) = me_x e /\ s16 (field 4 2 (data x.2)) = me_y e.

Definition is_key (x : Z * message) : bool := header x.2 =? KEYBOARD_DRIVER_KEYINPUT_EVENT_MSG.

(** The bytes of one of the two devices. *)
Definition bytes_of (aux : bool) (q : list (bool * Z)) : list Z := map snd (List.filter (fun i => Bool.eqb i.1 aux) q).

(** The driver between two bytes: the ports are open, and it has part of a packet. *)
Record driver_ok (p : ps2) : Prop := {
  do_handle : ps_io_handle p = IoHandle IO_SPACE_IOPORT IOPORT_ADDR IOPORT_SIZE;
  do_data : length (ps_data p) = 3%nat;
  do_pos : 0 <= ps_mouse_byte_pos p <= 2;
  do_first : forall b, 0 < ps_mouse_byte_pos p -> arr_get (ps_data p) 0 = Some b -> first_byte b = true
}.
Definition partial (p : ps2) : list Z := take (Z.to_nat (ps_mouse_byte_pos p)) (ps_data p).

(** ** The driver *)

Section Driver.
Context {W : Type} `{!Kernel W, !Ports W, !Controller W}.
Context (m0 : message) (Hm0 : INLINE_PAYLOAD_LEN_MAX <= Z.of_nat (length (data m0))).

Lemma read_status_ok (w : W) p : driver_ok p -> exists st, read_status_reg (w, p) = Done (st, (w, p)) /\
  match pending w with
  | [] => Z.land st KBD_STATUS_OUTBUF_FULL = 0
  | (aux, _) :: _ => Z.land st KBD_STATUS_OUTBUF_FULL <> 0 /\ (Z.land st KBD_STATUS_AUX_OUTPUT_FULL =? 0) = negb aux
  end.
Proof.
  intros [Hh _ _ _]. destruct (ct_status w) as (st & E & H). exists st. split; [|done].
  unfold read_status_reg, read_reg, io_read8, statics, gets, bind at 1. cbn [snd]. rewrite Hh.
  exact (on_fst_done _ _ _ p _ E).
Qed.

Lemma read_data_ok (w : W) p aux b q : driver_ok p -> pending w = (aux, b) :: q ->
  exists w', read_data_reg (w, p) = Done (b, (w', p)) /\ pending w' = q /\ events w' = events w /\ k_ipc_buffer w' = k_ipc_buffer w.
Proof.
  intros [Hh _ _ _] Hq. destruct (ct_data w aux b q Hq) as (w' & E & H). exists w'. split; [|done].
  unfold read_data_reg, read_reg, io_read8, statics, gets, bind at 1. cbn [snd]. rewrite Hh.
  exact (on_fst_done _ _ _ p _ E).
Qed.

(** Filling the buffer and the system call. *)
Lemma send_message (w : W) (p : ps2) ch ops m : fits (k_ipc_buffer w) -> fits m -> truthy (Z.land ops IPC_SEND) = true ->
  exists err b w1, (copy_to_ipc_buffer m ;;; k_ipc ch ops) (w, p) = Done (err, (w1, p)) /\ same_message b m /\ fits b /\
    pending w1 = pending w /\ events w1 = events w ++ [(ch, b)] /\ fits (k_ipc_buffer w1).
Proof.
  intros Hb Hm Hops. destruct (copy_message_ok (k_ipc_buffer w) m (proj2 Hb) Hm) as (b & Ec & Hsame & Hlen).
  destruct (ct_buffer b w) as (B1 & B2 & B3). destruct (ct_ipc ch ops (k_set_ipc_buffer b w) Hops) as (err & w1 & E & H1 & H2 & H3).
  exists err, b, w1. rewrite H1, H2, B1, B2, B3. split; [|split; [done|split; [|done]]].
  - unfold copy_to_ipc_buffer, gets, lift, modify, bind. simpl. rewrite Ec. exact (on_fst_done _ _ _ p _ E).
  - apply (same_message_fits b m Hsame Hm). destruct Hb. lia.
Qed.

Lemma call_ok (w : W) (p : ps2) ch m : fits (k_ipc_buffer w) -> fits m ->
  exists r b w1, call_stub ch m None (w, p) = Done (r, (w1, p)) /\ same_message b m /\ fits b /\
    pending w1 = pending w /\ events w1 = events w ++ [(ch, b)] /\ fits (k_ipc_buffer w1).
Proof.
  intros Hb Hm. destruct (send_message w p ch (Z.lor IPC_SEND IPC_RECV) m Hb Hm eq_refl) as (err & b & w1 & E & H).
  assert (Hcall : exists r, ipc_call ch m m (w, p) = Done (r, (w1, p))).
  { unfold ipc_call. unfold bind at 1 in E. unfold bind at 1. destruct (copy_to_ipc_buffer m (w, p)) as [[[] s']| | |]; try done.
    rewrite (bind_intro _ _ _ _ _ _ E eq_refl). unfold post_receive_work. destruct (err =? OK); [|eexists; reflexivity].
    unfold bind at 1, gets. destruct (_ <? 0); [eexists; reflexivity|].
    destruct H as (_ & _ & _ & _ & Hb1). destruct (copy_message_ok m (k_ipc_buffer w1) (proj2 Hm) Hb1) as (r & Er & _).
    exists (err, r). unfold bind, copy_from_ipc_buffer, bind, gets, lift. simpl. by rewrite Er. }
  destruct Hcall as ((e & r) & Ecall). unfold call_stub. unfold bind at 1, ret at 1.
  rewrite (bind_intro _ _ _ _ _ _ Ecall eq_refl).
  destruct (negb (e =? OK)); eexists _, b, w1; (split; [reflexivity | exact H]).
Qed.

(** One byte: the state after it, and the messages it causes. *)
Record step_ok (w : W) (p : ps2) (q : list (bool * Z)) (w' : W) (p' : ps2) (out : list (Z * message)) : Prop := {
  so_driver : driver_ok p';
  so_fits : fits (k_ipc_buffer w');
  so_pending : pending w' = q;
  so_events : events w' = events w ++ out;
  so_keyboard : ps_keyboard_listener_ch p' = ps_keyboard_listener_ch p;
  so_mouse : ps_mouse_listener_ch p' = ps_mouse_listener_ch p
}.

Lemma key_fits k : fits (set_data (set_field 0 1 k (data m0)) (set_header KEYBOARD_DRIVER_KEYINPUT_EVENT_MSG m0)).
Proof. split; [vm_compute; discriminate|]. cbn [data set_data set_header]. by rewrite length_set_field. Qed.

Lemma keyboard_ok (w : W) p b q :
  driver_ok p -> fits (k_ipc_buffer w) -> pending w = (false, b) :: q -> 0 <= b < 256 -> ps_keyboard_listener_ch p <> 0 ->
  exists w' p' x, read_keyboard_input m0 (w, p) = Done (tt, (w', p')) /\ step_ok w p q w' p' [x] /\ partial p' = partial p /\
    ps_shift_left p' = shift_after 0x2a (ps_shift_left p) b /\ ps_shift_right p' = shift_after 0x36 (ps_shift_right p) b /\
    key_message (ps_keyboard_listener_ch p) (default 0 (scan_code2key_code b (ps_shift_left p || ps_shift_right p))) x.
Proof.
  intros HD Hf Hq Hb Hl. destruct (read_data_ok w p false b q HD Hq) as (w1 & E1 & Hq1 & He1 & Hb1).
  pose proof (key_map_ok (ps_shift_left p || ps_shift_right p) b Hb) as Hk. unfold key_ok in Hk.
  unfold read_keyboard_input. rewrite (bind_intro _ _ _ _ _ _ E1 eq_refl). unfold statics, gets, bind at 1. cbn [snd].
  destruct (scan_code2key_code b (ps_shift_left p || ps_shift_right p)) as [k|] eqn:Ek; [|done].
  destruct (scan_code2key_code (Z.land b 0x7f) _) as [k'|]; [|done].
  zbool. repeat match goal with E : Bool.eqb _ _ = true |- _ => apply Bool.eqb_prop in E end.
  unfold bind at 1, need, ret at 1.
  set (p' := set_shift_left (shift_after 0x2a (ps_shift_left p) b) (set_shift_right (shift_after 0x36 (ps_shift_right p) b) p)).
  assert (Ep : (if Z.land k (Z.lnot KEY_RELEASE) =? KEY_SHIFT_LEFT then set_statics (set_shift_left (Z.land k KEY_RELEASE =? 0) p)
     else if Z.land k (Z.lnot KEY_RELEASE) =? KEY_SHIFT_RIGHT then set_statics (set_shift_right (Z.land k KEY_RELEASE =? 0) p) else ret tt) (w1, p)
     = Done (tt, (w1, p'))).
  { unfold p', shift_after. match goal with E : (Z.land k (Z.lnot KEY_RELEASE) =? KEY_SHIFT_LEFT) = _ |- _ => rewrite E end.
    match goal with E : (Z.land k (Z.lnot KEY_RELEASE) =? KEY_SHIFT_RIGHT) = _ |- _ => rewrite E end.
    match goal with E : (Z.land k KEY_RELEASE =? 0) = _ |- _ => rewrite E end.
    destruct (Z.eqb_spec (Z.land b 0x7f) 0x2a) as [E|]; [rewrite E; by destruct p|].
    destruct (Z.eqb_spec (Z.land b 0x7f) 0x36); by destruct p. }
  rewrite (bind_intro _ _ _ _ _ _ Ep eq_refl). unfold bind at 1. cbn [snd].
  change (ps_keyboard_listener_ch p') with (ps_keyboard_listener_ch p). rewrite (proj2 (truthy_true _) Hl).
  destruct (call_ok w1 p' (ps_keyboard_listener_ch p) _ ltac:(by rewrite Hb1) (key_fits k))
    as ((e & r) & m & w2 & E2 & Hsame & Hfm & Hp2 & He2 & Hf2).
  exists w2, p', (ps_keyboard_listener_ch p, m). split; [|split; [|split; [done|split; [done|split; [done|]]]]].
  - unfold call_keyboard_driver_keyinput_event. unfold bind at 1. rewrite (bind_intro _ _ _ _ _ _ E2 eq_refl). done.
  - constructor; [by destruct HD; constructor | done | congruence | congruence | done | done].
  - cbn [from_option default]. split; [done|]. split; [apply Hsame|]. cbn [snd].
    rewrite (same_message_field _ _ 0 1 Hsame Hfm (key_fits k)) by (vm_compute; discriminate).
    cbn [data set_data]. rewrite field_set_field by (unfold INLINE_PAYLOAD_LEN_MAX in Hm0; lia). change (256 ^ Z.of_nat 1) with 256.
    unfold id. apply Z.mod_small. lia.
Qed.

Definition mouse_data (e : mouse_event) : list Z :=
  set_field 4 2 (me_y e) (set_field 2 2 (me_x e) (set_field 1 1 (Z.b2z (me_right e)) (set_field 0 1 (Z.b2z (me_left e)) (data m0)))).

Lemma mouse_fits e : fits (set_data (mouse_data e) (set_header MOUSE_DRIVER_MOUSE_EVENT_MSG m0)).
Proof. split; [vm_compute; discriminate|]. unfold mouse_data. cbn [data set_data set_header]. by rewrite !length_set_field. Qed.

Lemma b2z_byte x : Z.b2z x mod 256 = Z.b2z x.
Proof. by destruct x. Qed.

Lemma s16_word x : - 2 ^ 15 <= x < 2 ^ 15 -> s16 (x mod 65536) = x.
Proof.
  intros Hx. unfold s16. change 65536 with (2 ^ 16). rewrite Z.add_mod_idemp_l, Z.mod_small by lia. lia.
Qed.

Lemma send_mouse_ok (w : W) p ch e :
  fits (k_ipc_buffer w) -> - 2 ^ 15 <= me_x e < 2 ^ 15 -> - 2 ^ 15 <= me_y e < 2 ^ 15 ->
  exists err x w1, send_mouse_driver_mouse_event m0 ch (me_left e) (me_right e) (me_x e) (me_y e) (w, p) = Done (err, (w1, p)) /\
    mouse_message ch e x /\ pending w1 = pending w /\ events w1 = events w ++ [x] /\ fits (k_ipc_buffer w1).
Proof.
  intros Hf Hx Hy. destruct (send_message w p ch IPC_SEND _ Hf (mouse_fits e) eq_refl) as (err & b & w1 & E & Hsame & Hfb & H1 & H2 & H3).
  exists err, (ch, b), w1. split; [exact E|]. split; [|done]. split; [done|]. split; [apply Hsame|]. cbn [snd].
  assert (Hd : (6 <= length (data m0))%nat) by (unfold INLINE_PAYLOAD_LEN_MAX in Hm0; lia).
  rewrite !(same_message_field _ _ _ _ Hsame Hfb (mouse_fits e)) by (vm_compute; discriminate).
  unfold mouse_data. cbn [data set_data].
  assert (L : forall a n v d, (6 <= length d)%nat -> (6 <= length (set_field a n v d))%nat) by (intros; by rewrite length_set_field).
  repeat split.
  - rewrite !field_set_field_ne by (rewrite ?length_set_field; lia). rewrite field_set_field by lia. apply b2z_byte.
  - rewrite !field_set_field_ne by (rewrite ?length_set_field; lia). rewrite field_set_field by (rewrite ?length_set_field; lia). apply b2z_byte.
  - rewrite field_set_field_ne by (rewrite ?length_set_field; lia). rewrite field_set_field by (rewrite ?length_set_field; lia). by apply s16_word.
  - rewrite field_set_field by (rewrite ?length_set_field; lia). by apply s16_word.
Qed.

Lemma packet_range b0 b1 b2 :
  - 2 ^ 15 <= me_x (packet b0 b1 b2) < 2 ^ 15 /\ - 2 ^ 15 <= me_y (packet b0 b1 b2) < 2 ^ 15.
Proof.
  assert (H : forall b x, - 2 ^ 15 <= (if truthy b then s8 x else u8 x) < 2 ^ 15).
  { intros b x. unfold s8, u8. pose proof (Z.mod_pos_bound (x + 2 ^ 7) (2 ^ 8)). pose proof (Z.mod_pos_bound x (2 ^ 8)).
    destruct (truthy b); lia. }
  split; apply H.
Qed.

(** The state of the mouse decoder is the part of a packet that has arrived. *)
Lemma store_data_run (w : W) p i b pos : length (ps_data p) = 3%nat -> 0 <= i <= 2 ->
  store_data i b pos (w, p) = Done (tt, (w, set_mouse pos (<[Z.to_nat i := b]> (ps_data p)) p)).
Proof.
  intros Hl Hi. unfold store_data, statics, gets, bind at 1. cbn [snd]. rewrite arr_set_Some by lia. done.
Qed.

Lemma mouse_ok (w : W) p b q :
  driver_ok p -> fits (k_ipc_buffer w) -> pending w = (true, b) :: q -> ps_mouse_listener_ch p <> 0 ->
  exists w' p' out ms, read_mouse_input m0 (w, p) = Done (tt, (w', p')) /\ step_ok w p q w' p' out /\
    ps_shift_left p' = ps_shift_left p /\ ps_shift_right p' = ps_shift_right p /\
    (forall bs, decode_mouse (partial p ++ b :: bs) = ms ++ decode_mouse (partial p' ++ bs)) /\
    Forall2 (mouse_message (ps_mouse_listener_ch p)) ms out.
Proof.
  intros HD Hf Hq Hl. destruct (read_data_ok w p true b q HD Hq) as (w1 & E1 & Hq1 & He1 & Hb1).
  pose proof HD as [Hh Hlen Hpos Hfirst]. unfold read_mouse_input, statics, gets, bind at 1. cbn [snd].
  destruct (ps_data p) as [|d0 [|d1 [|d2 []]]] eqn:Ed; try done.
  assert (HN : forall pos d, step_ok w p q w1 (set_mouse pos d p) [] <-> driver_ok (set_mouse pos d p)).
  { intros pos d. split; [intros []; done|]. intros Hd. constructor; try done; [by rewrite Hb1 | by rewrite app_nil_r]. }
  assert (Hcases : ps_mouse_byte_pos p = 0 \/ ps_mouse_byte_pos p = 1 \/ ps_mouse_byte_pos p = 2) by lia.
  unfold partial. rewrite Ed. destruct Hcases as [Ep|[Ep|Ep]]; rewrite Ep; cbn [Z.eqb Pos.eqb].
  - rewrite (bind_intro _ _ _ _ _ _ E1 eq_refl). rewrite <- (negb_involutive (_ || _ || _)).
    change (negb (_ || _ || _)) with (first_byte b). exists w1, (set_mouse (Z.b2z (first_byte b)) [b; d1; d2] p), [], [].
    destruct (first_byte b) eqn:Eb; cbn [negb]; rewrite store_data_run, Ed by (rewrite ?Ed; simpl; lia);
      (split; [done|]; split; [apply HN; constructor; simpl; try done; try lia; intros b' Hp [= <-]; done|]);
      (split; [done|]; split; [done|]; split; [|constructor]); intros bs; cbn [decode_mouse take app Z.to_nat Z.b2z set_mouse ps_mouse_byte_pos ps_data];
      simpl; by rewrite Eb.
  - rewrite (bind_intro _ _ _ _ _ _ E1 eq_refl), store_data_run, Ed by (rewrite ?Ed; simpl; lia).
    exists w1, (set_mouse 2 [d0; b; d2] p), [], []. split; [done|]. split; [|split; [done|split; [done|split; [done | constructor]]]].
    apply HN. constructor; simpl; try done; try lia. intros b' _ [= <-]. apply Hfirst; [lia | done].
  - rewrite (bind_intro _ _ _ _ _ _ E1 eq_refl). unfold bind at 1. rewrite store_data_run, Ed by (rewrite ?Ed; simpl; lia).
    unfold bind at 1. cbn [snd set_mouse ps_data ps_mouse_listener_ch]. change (<[Z.to_nat 2 := b]> [d0; d1; d2]) with [d0; d1; b].
    change (arr_get [d0; d1; b] 0) with (Some d0). change (arr_get [d0; d1; b] 1) with (Some d1). change (arr_get [d0; d1; b] 2) with (Some b).
    unfold bind at 1. cbn [need]. unfold bind at 1. unfold bind at 1. rewrite (proj2 (truthy_true _) Hl).
    destruct (packet_range d0 d1 b) as [Hx Hy].
    destruct (send_mouse_ok w1 (set_mouse 2 [d0; d1; b] p) (ps_mouse_listener_ch p) (packet d0 d1 b) ltac:(by rewrite Hb1) Hx Hy)
      as (err & x & w2 & E2 & Hmsg & Hq2 & He2 & Hf2).
    exists w2, (set_mouse 0 [d0; d1; b] p), [x], [packet d0 d1 b].
    split; [|split; [|split; [done|split; [done|split; [|by constructor]]]]].
    + unfold ret at 1. cbv beta iota. unfold ret at 1. cbv beta iota. unfold ret at 1. cbv beta iota.
      cbn [packet me_left me_right me_x me_y] in E2. unfold bind at 1. unfold bind at 1. rewrite E2. done.
    + constructor; [constructor; simpl; try done; lia | done | congruence | congruence | done | done].
    + intros bs. change (take (Z.to_nat 2) [d0; d1; d2]) with [d0; d1]. cbn [app decode_mouse].
      rewrite (Hfirst d0) by (done || lia). done.
Qed.

(** Both kinds of byte: what the decoders make of it and what is sent. *)
Definition decoded (kbs mbs : list Z) (p p' : ps2) (ks : list Z) (ms : list mouse_event) : Prop :=
  (forall bs, decode_keys (ps_shift_left p) (ps_shift_right p) (kbs ++ bs) =
     ks ++ decode_keys (ps_shift_left p') (ps_shift_right p') bs) /\
  (forall bs, decode_mouse (partial p ++ mbs ++ bs) = ms ++ decode_mouse (partial p' ++ bs)).
Definition sent (p : ps2) (ks : list Z) (ms : list mouse_event) (out : list (Z * message)) : Prop :=
  Forall2 (key_message (ps_keyboard_listener_ch p)) ks (List.filter is_key out) /\
  Forall2 (mouse_message (ps_mouse_listener_ch p)) ms (List.filter (fun x => negb (is_key x)) out).

Lemma decoded_app kbs1 mbs1 kbs2 mbs2 p1 p2 p3 ks1 ms1 ks2 ms2 :
  decoded kbs1 mbs1 p1 p2 ks1 ms1 -> decoded kbs2 mbs2 p2 p3 ks2 ms2 ->
  decoded (kbs1 ++ kbs2) (mbs1 ++ mbs2) p1 p3 (ks1 ++ ks2) (ms1 ++ ms2).
Proof. intros [A1 B1] [A2 B2]. split; intros bs; rewrite <- !app_assoc; [by rewrite A1, A2 | by rewrite B1, B2]. Qed.

Lemma sent_mouse p ms out : Forall2 (mouse_message (ps_mouse_listener_ch p)) ms out -> sent p [] ms out.
Proof.
  intros H. assert (E : List.filter is_key out = [] /\ List.filter (fun x => negb (is_key x)) out = out).
  { induction H as [|e x ms out (_ & Hh & _) _ [IH1 IH2]]; [done|]. unfold is_key in *. simpl. rewrite Hh, IH1, IH2. done. }
  destruct E as [E1 E2]. unfold sent. rewrite E1, E2. split; [constructor | done].
Qed.

Lemma sent_key p k x : key_message (ps_keyboard_listener_ch p) k x -> sent p [k] [] [x].
Proof.
  intros H. pose proof H as (_ & Hh & _). unfold sent, is_key. simpl. rewrite Hh. split; [by constructor | constructor].
Qed.

Lemma sent_app p ks1 ms1 out1 ks2 ms2 out2 :
  sent p ks1 ms1 out1 -> sent p ks2 ms2 out2 -> sent p (ks1 ++ ks2) (ms1 ++ ms2) (out1 ++ out2).
Proof. intros [H1 H2] [H3 H4]. unfold sent. rewrite !List.filter_app. split; by apply Forall2_app. Qed.

Lemma byte_ok (w : W) p aux b q :
  driver_ok p -> fits (k_ipc_buffer w) -> pending w = (aux, b) :: q -> 0 <= b < 256 ->
  ps_keyboard_listener_ch p <> 0 -> ps_mouse_listener_ch p <> 0 ->
  exists w' p' out ks ms, (if aux then read_mouse_input m0 else read_keyboard_input m0) (w, p) = Done (tt, (w', p')) /\
    step_ok w p q w' p' out /\ decoded (if aux then [] else [b]) (if aux then [b] else []) p p' ks ms /\ sent p ks ms out.
Proof.
  intros HD Hf Hq Hb Hk Hm. destruct aux.
  - destruct (mouse_ok w p b q HD Hf Hq Hm) as (w' & p' & out & ms & E & Hs & Hl & Hr & Hd & HF).
    exists w', p', out, [], ms. split; [done|]. split; [done|]. split; [|by apply sent_mouse].
    split; [intros ks'; by rewrite Hl, Hr | exact Hd].
  - destruct (keyboard_ok w p b q HD Hf Hq Hb Hk) as (w' & p' & x & E & Hs & Hp & Hl & Hr & HF).
    eexists w', p', [x], [_], []. split; [done|]. split; [done|]. split; [|by apply sent_key].
    split; [intros ks'; by rewrite Hl, Hr | intros ms'; by rewrite Hp].
Qed.

(** All bytes, in the order in which they arrive. *)
Lemma read_inputs_ok fuel : forall (w : W) p,
  driver_ok p -> fits (k_ipc_buffer w) -> Forall (fun i => 0 <= i.2 < 256) (pending w) ->
  ps_keyboard_listener_ch p <> 0 -> ps_mouse_listener_ch p <> 0 -> (length (pending w) < fuel)%nat ->
  exists w' p' out ks ms, read_inputs m0 fuel (w, p) = Done (tt, (w', p')) /\ step_ok w p [] w' p' out /\
    decoded (bytes_of false (pending w)) (bytes_of true (pending w)) p p' ks ms /\
    sent p ks ms out.
Proof.
  induction fuel as [|fuel IH]; intros w p HD Hf Hr Hk Hm Hfuel; [lia|]. cbn [read_inputs].
  destruct (read_status_ok w p HD) as (st & Est & Hst). rewrite (bind_intro _ _ _ _ _ _ Est eq_refl).
  destruct (pending w) as [|[aux b] q] eqn:Hq.
  { rewrite Hst. exists w, p, [], [], []. split; [done|]. split; [by constructor; rewrite ?app_nil_r|].
    split; [done|]. split; constructor. }
  destruct Hst as [Hfull Haux]. rewrite (proj2 (truthy_true _) Hfull), (bind_intro _ _ _ _ _ _ Est eq_refl).
  unfold truthy. rewrite Haux, negb_involutive. apply Forall_cons in Hr as [Hb Hr]. simpl in Hb, Hfuel.
  destruct (byte_ok w p aux b q HD Hf Hq Hb Hk Hm) as (w1 & p1 & out1 & ks1 & ms1 & E1 & [D1 F1 Q1 O1 K1 M1] & DE1 & S1).
  rewrite (bind_intro _ _ _ _ _ _ E1 eq_refl).
  destruct (IH w1 p1 D1 F1) as (w2 & p2 & out2 & ks2 & ms2 & E2 & [D2 F2 Q2 O2 K2 M2] & DE2 & S2);
    [by rewrite Q1 | congruence | congruence | rewrite Q1; lia |].
  exists w2, p2, (out1 ++ out2), (ks1 ++ ks2), (ms1 ++ ms2). split; [done|].
  split; [constructor; try done; [by rewrite O2, O1, app_assoc | congruence | congruence]|].
  rewrite Q1 in DE2. split; [|apply sent_app; [done | unfold sent in *; by rewrite <- K1, <- M1]].
  unfold bytes_of. destruct aux; exact (decoded_app _ _ _ _ _ _ _ _ _ _ _ DE1 DE2).
Qed.

End Driver.

(** C14: an interrupt of the keyboard or the mouse.  Whatever the order in which
    the bytes of the two devices arrive, [handle_notification] reads them all and
    sends to the listener of the keyboard the key codes of its bytes, with the
    state of the shift keys, and to the listener of the mouse an event for every
    packet of its bytes.  A packet that is not complete yet and the state of the
    shift keys are kept: the bytes that arrive later are decoded as if all had
    arrived at once. *)
Theorem ps2_interrupt {W : Type} `{!Kernel W, !Ports W, !Controller W} (m0 : message) (w : W) (p : ps2) (fuel : nat) (n : Z)
    (Hm0 : INLINE_PAYLOAD_LEN_MAX <= Z.of_nat (length (data m0))) (HD : driver_ok p) (Hf : fits (k_ipc_buffer w))
    (Hb : Forall (fun i => 0 <= i.2 < 256) (pending w)) (Hn : Z.land n NOTIFY_INTERRUPT <> 0)
    (Hk : ps_keyboard_listener_ch p <> 0) (Hm : ps_mouse_listener_ch p <> 0) (Hfuel : (length (pending w) < fuel)%nat) :
  exists w' p' out ks ms,
    handle_notification m0 fuel n (w, p) = Done (DONT_REPLY, (w', p')) /\
    driver_ok p' /\ fits (k_ipc_buffer w') /\ pending w' = [] /\ events w' = events w ++ out /\
    Forall2 (key_message (ps_keyboard_listener_ch p)) ks (List.filter is_key out) /\
    Forall2 (mouse_message (ps_mouse_listener_ch p)) ms (List.filter (fun x => negb (is_key x)) out) /\
    (forall later, decode_keys (ps_shift_left p) (ps_shift_right p) (bytes_of false (pending w) ++ later) =
       ks ++ decode_keys (ps_shift_left p') (ps_shift_right p') later) /\
    (forall later, decode_mouse (partial p ++ bytes_of true (pending w) ++ later) =
       ms ++ decode_mouse (partial p' ++ later)).
Proof.
  destruct (read_inputs_ok m0 Hm0 fuel w p HD Hf Hb Hk Hm Hfuel) as (w' & p' & out & ks & ms & E & Hs & Hd & Ho).
  exists w', p', out, ks, ms. unfold handle_notification. rewrite (proj2 (truthy_true _) Hn), (bind_intro _ _ _ _ _ _ E eq_refl).
  destruct Hs, Hd, Ho. done.
Qed.

(** A controller with bytes in its buffer, whose listeners answer at once. *)
Module Bench.

Record bench := Bench { queue : list (bool * Z); buffer : message; sends : list (Z * message) }.
Definition blank (h : Z) : message := Message h 0 0 0 0 (replicate 2048 0).

#[export] Instance bench_kernel : Kernel bench := {
  k_ipc_buffer := buffer;
  k_set_ipc_buffer b w := Bench (queue w) b (sends w);
  k_set_page_base _ w := w;
  k_open := ret 1;
  k_close _ := ret 0;
  k_link _ _ := ret 0;
  k_transfer _ _ := ret 0;
  k_ipc ch _ w := Done (OK, Bench (queue w) (blank KEYBOARD_DRIVER_KEYINPUT_EVENT_REPLY_MSG) (sends w ++ [(ch, buffer w)]))
}.
#[export] Instance bench_ports : Ports bench := {
  p_in8 port w :=
    match queue w with
    | [] => Done (0, w)
    | (aux, b) :: q =>
        if port =? 0x60 then Done (b, Bench q (buffer w) (sends w)) else Done (if aux then 0x21 else 0x01, w)
    end;
  p_in16 _ := ret 0;
  p_in32 _ := ret 0;
  p_out8 _ _ := ret tt;
  p_out16 _ _ := ret tt;
  p_out32 _ _ := ret tt
}.

#[export, refine] Instance bench_controller : Controller bench := { pending := queue; events := sends }.
Proof.
  - intros w. destruct (queue w) as [|[[] b] q] eqn:Eq; cbn [p_in8 bench_ports]; rewrite Eq; eexists; by repeat split.
  - intros w aux b q E. cbn [p_in8 bench_ports]. rewrite E. eexists. split; [reflexivity | done].
  - done.
  - intros ch ops w _. eexists _, _. split; [reflexivity|]. by repeat split.
Defined.

End Bench.
Import Bench.

(** Left shift, a mouse packet, the key a and a byte of the next packet. *)
Definition bench_bytes : list (bool * Z) := [(false, 0x2a); (true, 0x09); (true, 5); (false, 0x1e); (true, 250); (true, 0x08)].
Definition bench_driver : ps2 :=
  set_keyboard_listener 4 (set_mouse_listener 5 (set_handle (IoHandle IO_SPACE_IOPORT IOPORT_ADDR IOPORT_SIZE) ps2_init)).

Lemma ps2_interrupt_witness : exists w' p',
  handle_notification (blank 0) 7 NOTIFY_INTERRUPT (Bench bench_bytes (blank 0) [], bench_driver) = Done (DONT_REPLY, (w', p')) /\
  pending w' = [].
Proof.
  destruct (ps2_interrupt (blank 0) (Bench bench_bytes (blank 0) []) bench_driver 7 NOTIFY_INTERRUPT)
    as (w' & p' & out & ks & ms & E & _ & _ & Hp & _).
  - vm_compute. discriminate.
  - constructor; [reflexivity | reflexivity | simpl; lia | simpl; lia].
  - split; vm_compute; discriminate.
  - repeat constructor; simpl; lia.
  - discriminate.
  - discriminate.
  - discriminate.
  - simpl. lia.
  - exists w', p'. split; [exact E | exact Hp].
Defined.
