(* ===== verification/Stubs.v ===== *)
(** * Client stubs

    The functions [call_...], [send_..._reply] and [async_send_...] that
    [tools/genstub.py] generates from [misc/interfaces.idl], for the messages that the
    servers and programs send to each other.  A stub that returns values gives the
    error and the values; they are those of the reply only if the error is [OK]. *)
From S2P Require Import Prelude Message CString UserIpc Driver.
Import CStr User.

Module Stubs.
Section Stubs.
Context {S : Type} `{!Kernel S}.
(** A message on the stack that was never written. *)
Context (m0 : message).

(** A request without results. *)
Definition call_unit (ch : Z) (m : message) : M S Z :=
  let* (err, _) := call_stub ch m None in ret err.

Definition make_request (header : Z) (d : list Z) : message := set_data d (set_header header m0).

(** ** The kernel server *)

Definition call_runtime_printchar (server ch : Z) : M S Z :=
  call_unit server (make_request RUNTIME_PRINTCHAR_MSG (set_field 0 1 ch (data m0))).
(** The process identifier and the pager channel. *)
Definition call_process_create (server : Z) (name : list Z) : M S (Z * (Z * Z)) :=
  d <- lift (strcpy_s (data m0) SMALLSTRING_LEN_MAX name) ;;
  let* (err, r) := call_stub server (make_request PROCESS_CREATE_MSG d) None in
  ret (err, (s32 (field 0 4 (data r)), s32 (field 4 4 (data r)))).
Definition call_process_send_channel (server pid ch : Z) : M S Z :=
  call_unit server (set_channel ch (make_request PROCESS_SEND_CHANNEL_MSG (set_field 0 4 pid (data m0)))).
Definition call_process_add_pager (server pid pager start size flags : Z) : M S Z :=
  call_unit server (make_request PROCESS_ADD_PAGER_MSG
    (set_field 24 1 flags (set_field 16 8 size (set_field 8 8 start (set_field 4 4 pager
       (set_field 0 4 pid (data m0))))))).
Definition call_thread_spawn (server pid start stack buffer arg : Z) : M S Z :=
  call_unit server (make_request THREAD_SPAWN_MSG
    (set_field 28 8 arg (set_field 20 8 buffer (set_field 12 8 stack (set_field 4 8 start
       (set_field 0 4 pid (data m0))))))).
(** The new channel. *)
Definition call_server_connect (server interface : Z) : M S (Z * Z) :=
  let* (err, r) := call_stub server (make_request SERVER_CONNECT_MSG (set_field 0 1 interface (data m0))) None in
  ret (err, channel r).

(** ** memmgr *)

(** The address of the pages. *)
Definition call_memory_alloc_pages (server order page_base : Z) : M S (Z * Z) :=
  let* (err, r) := call_stub server (make_request MEMORY_ALLOC_PAGES_MSG (set_field 0 8 order (data m0))) (Some page_base) in
  ret (err, PAGE_PAYLOAD_ADDR (page r)).
(** The address of the pages, and their physical address. *)
Definition call_memory_alloc_phy_pages (server map_at order page_base : Z) : M S (Z * (Z * Z)) :=
  let* (err, r) := call_stub server
    (make_request MEMORY_ALLOC_PHY_PAGES_MSG (set_field 8 8 order (set_field 0 8 map_at (data m0)))) (Some page_base) in
  ret (err, (PAGE_PAYLOAD_ADDR (page r), field 0 8 (data r))).
(** The address of the framebuffer, its width, height and bits per pixel. *)
Definition call_memmgr_get_framebuffer (server page_base : Z) : M S (Z * (Z * Z * Z * Z)) :=
  let* (err, r) := call_stub server (set_header MEMMGR_GET_FRAMEBUFFER_MSG m0) (Some page_base) in
  ret (err, (PAGE_PAYLOAD_ADDR (page r), s32 (field 0 4 (data r)), s32 (field 4 4 (data r)), field 8 1 (data r))).
Definition call_discovery_publicize (server interface ch : Z) : M S Z :=
  call_unit server (set_channel ch (make_request DISCOVERY_PUBLICIZE_MSG (set_field 0 1 interface (data m0)))).
Definition call_discovery_connect (server interface : Z) : M S (Z * Z) :=
  let* (err, r) := call_stub server (make_request DISCOVERY_CONNECT_MSG (set_field 0 1 interface (data m0))) None in
  ret (err, channel r).
(** The handle of the file. *)
Definition call_fs_open (server : Z) (path : list Z) (mode : Z) : M S (Z * Z) :=
  d <- lift (strcpy_s (data m0) SMALLSTRING_LEN_MAX path) ;;
  let* (err, r) := call_stub server (make_request FS_OPEN_MSG (set_field 128 1 mode d)) None in
  ret (err, s32 (field 0 4 (data r))).
(** The address of the page with the data. *)
Definition call_fs_read (server handle offset len page_base : Z) : M S (Z * Z) :=
  let* (err, r) := call_stub server
    (make_request FS_READ_MSG (set_field 12 8 len (set_field 4 8 offset (set_field 0 4 handle (data m0))))) (Some page_base) in
  ret (err, PAGE_PAYLOAD_ADDR (page r)).

(** ** appmgr *)

Definition call_api_create_app (server : Z) (path : list Z) : M S (Z * Z) :=
  d <- lift (strcpy_s (data m0) SMALLSTRING_LEN_MAX path) ;;
  let* (err, r) := call_stub server (make_request API_CREATE_APP_MSG d) None in
  ret (err, s32 (field 0 4 (data r))).
Definition call_api_start_app (server pid : Z) : M S Z :=
  call_unit server (make_request API_START_APP_MSG (set_field 0 4 pid (data m0))).
Definition call_api_join_app (server pid : Z) : M S (Z * Z) :=
  let* (err, r) := call_stub server (make_request API_JOIN_APP_MSG (set_field 0 4 pid (data m0))) None in
  ret (err, s8 (field 0 1 (data r))).
Definition call_api_exit_app (server code : Z) : M S Z :=
  call_unit server (make_request API_EXIT_APP_MSG (set_field 0 1 code (data m0))).
Definition send_api_join_app_reply (ch code : Z) : M S Z :=
  ipc_send ch (make_request API_JOIN_APP_REPLY_MSG (set_field 0 1 code (data m0))).

(** ** gui and the keyboard and mouse drivers *)

Definition call_gui_console_write (server ch : Z) : M S Z :=
  call_unit server (make_request GUI_CONSOLE_WRITE_MSG (set_field 0 1 ch (data m0))).
Definition call_gui_activate (server : Z) : M S Z := call_unit server (set_header GUI_ACTIVATE_MSG m0).
Definition async_send_gui_key_event (ch key : Z) : M S Z :=
  ipc_async_send ch (make_request GUI_KEY_EVENT_MSG (set_field 0 1 key (data m0))).
Definition call_keyboard_driver_listen (server ch : Z) : M S Z :=
  call_unit server (set_channel ch (set_header KEYBOARD_DRIVER_LISTEN_MSG m0)).
Definition call_mouse_driver_listen (server ch : Z) : M S Z :=
  call_unit server (set_channel ch (set_header MOUSE_DRIVER_LISTEN_MSG m0)).

(** ** pci *)

(** The bus and the slot. *)
Definition call_pci_wait_for_device (server vendor device : Z) : M S (Z * (Z * Z)) :=
  let* (err, r) := call_stub server (make_request PCI_WAIT_FOR_DEVICE_MSG (set_field 2 2 device (set_field 0 2 vendor (data m0)))) None in
  ret (err, (field 4 1 (data r), field 5 1 (data r))).
Definition pci_request (header bus slot offset : Z) : message :=
  make_request header (set_field 2 2 offset (set_field 1 1 slot (set_field 0 1 bus (data m0)))).
Definition call_pci_read_config16 (server bus slot offset : Z) : M S (Z * Z) :=
  let* (err, r) := call_stub server (pci_request PCI_READ_CONFIG16_MSG bus slot offset) None in
  ret (err, field 0 2 (data r)).
Definition call_pci_read_config32 (server bus slot offset : Z) : M S (Z * Z) :=
  let* (err, r) := call_stub server (pci_request PCI_READ_CONFIG32_MSG bus slot offset) None in
  ret (err, field 0 4 (data r)).

End Stubs.
End Stubs.

(** ** Addresses for received pages *)

Section Static.
Context {W V : Type}.

(** An operation on a part of the static variables. *)
Definition on_static {X A} (proj : V -> X) (upd : X -> V -> V) (m : M X A) : M (W * V) A :=
  fun s =>
    match m (proj s.2) with
    | Done (a, x) => Done (a, (s.1, upd x s.2))
    | Panic => Panic
    | Undef => Undef
    | Fuel => Fuel
    end.

End Static.

(** The contents of the pages a program has received, from an address on. *)
Class Pages (W : Type) := page_bytes : W -> Z -> list Z.

(** Requests fit the buffer. *)
Lemma make_request_fits (m0 : message) h d :
  INLINE_PAYLOAD_LEN_MAX <= Z.of_nat (length (data m0)) -> INLINE_PAYLOAD_LEN h <= INLINE_PAYLOAD_LEN_MAX ->
  length d = length (data m0) -> fits (Stubs.make_request m0 h d).
Proof. intros Hm0 Hh Hd. split; [done|]. cbn [Stubs.make_request data set_data]. by rewrite Hd. Qed.

(** A call that is answered: the reply, and what holds after the system call. *)
Lemma call_stub_ok {S} `{!Kernel S} (s : S) ch m (P : S -> Prop) :
  fits (k_ipc_buffer s) -> fits m ->
  (forall b, same_message b m -> fits b ->
     exists s', k_ipc ch (Z.lor IPC_SEND IPC_RECV) (k_set_ipc_buffer b s) = Done (OK, s') /\ fits (k_ipc_buffer s') /\
       0 <= s16 (Z.land (Z.shiftr (header (k_ipc_buffer s')) MSG_TYPE_OFFSET) 0xffff) /\ P s') ->
  exists r s', call_stub ch m None s = Done ((OK, r), s') /\ same_message r (k_ipc_buffer s') /\ fits r /\ fits (k_ipc_buffer s') /\ P s'.
Proof.
  intros Hb Hm Hk. destruct (copy_message_ok (k_ipc_buffer s) m (proj2 Hb) Hm) as (b & Ec & Hsame & Hlen).
  assert (Hfb : fits b) by (apply (same_message_fits b m Hsame Hm); destruct Hb; lia).
  destruct (Hk b Hsame Hfb) as (s' & E & Hf' & Ht & HP).
  destruct (copy_message_ok m (k_ipc_buffer s') (proj2 Hm) Hf') as (r & Er & Hr & Hlr).
  exists r, s'. split; [|split; [done|split; [|done]]].
  - unfold call_stub. unfold bind at 1, ret at 1. unfold ipc_call, copy_to_ipc_buffer, gets, lift, modify, bind. rewrite Ec.
    cbn [outcome_bind]. cbv beta iota. rewrite E. cbv beta iota. unfold post_receive_work, gets, bind. change (OK =? OK) with true.
    cbv beta iota zeta. rewrite (proj2 (Z.ltb_ge _ _) Ht). unfold copy_from_ipc_buffer, gets, lift, bind. by rewrite Er.
  - apply (same_message_fits r _ Hr Hf'). destruct Hm. lia.
Qed.
