(* ===== verification/Pci.v ===== *)
(** * The PCI server

    [servers/pci/main.c]: configuration space accesses through the ports 0xcf8 and
    0xcfc, the search for a device, and the message handlers.  The theorems are
    over the class [Bridge], the documented behaviour of the host bridge. *)
From S2P Require Import Prelude Message UserIpc Driver.
Import User Io.

Definition PCI_IOPORT_ADDR : Z := 0x0cf8.
Definition PCI_IOPORT_SIZE : Z := 8.
Definition IOPORT_OFFSET_ADDR : Z := 0.
Definition IOPORT_OFFSET_DATA : Z := 4.
Definition PCI_ANY : Z := 0xffff.
Definition PCI_CONFIG_VENDOR_ID : Z := 0x00.
Definition PCI_CONFIG_DEVICE_ID : Z := 0x02.
Definition PCI_CONFIG_SUBVENDOR_ID : Z := 0x2c.
Definition PCI_CONFIG_SUBDEVICE_ID : Z := 0x2e.

(** The static variables. *)
Record pci := Pci { pci_server_ch : Z; pci_io_handle : io_handle }.

(** What [look_for_device] writes through its pointers. *)
Record pci_device := PciDevice {
  pd_vendor : Z; pd_device : Z; pd_subvendor : Z; pd_subdevice : Z; pd_bus : Z; pd_slot : Z
}.

Module Pci.
Section Server.
Context {W : Type} `{!Kernel W, !Ports W}.
(** A message on the stack that was never written. *)
Context (m0 : message).
Local Abbreviation S := (W * pci)%type.

Definition memmgr_ch : Z := 1.
Definition kernel_ch : Z := 2.

Definition config_addr (bus dev offset : Z) : Z :=
  u32 (Z.lor (Z.lor (Z.lor (Z.shiftl 1 31) (u32 (Z.shiftl bus 16))) (u32 (Z.shiftl dev 11))) offset).

Definition read_config32 (bus dev offset : Z) : M S Z :=
  c_assert (Z.land offset 0x3 =? 0) ;;;
  p <- statics ;;
  io_write32 (pci_io_handle p) IOPORT_OFFSET_ADDR (config_addr bus dev offset) ;;;
  io_read32 (pci_io_handle p) IOPORT_OFFSET_DATA.

Definition read_config16 (bus dev offset : Z) : M S Z :=
  value <- read_config32 bus dev (Z.land offset 0xfc) ;;
  ret (Z.land (Z.shiftr value (Z.land offset 0x3 * 8)) 0xffff).

Definition write_config32 (bus dev offset data : Z) : M S unit :=
  c_assert (Z.land offset 0x3 =? 0) ;;;
  p <- statics ;;
  io_write32 (pci_io_handle p) IOPORT_OFFSET_ADDR (config_addr bus dev offset) ;;;
  io_write32 (pci_io_handle p) IOPORT_OFFSET_DATA data.

(** [data << byte_off]: [data] is promoted to [int], and a shift out of its range is
    undefined. *)
Definition shl_int (data n : Z) : option Z :=
  if Z.shiftl data n <? 2 ^ 31 then Some (Z.shiftl data n) else None.

Definition write_config8 (bus dev offset data : Z) : M S unit :=
  let aligned_offset := Z.land offset 0xfc in
  value <- read_config32 bus dev aligned_offset ;;
  let byte_off := Z.land offset 0x3 * 8 in
  shifted <- need (shl_int data byte_off) ;;
  let new_value := u32 (Z.lor shifted (Z.land value (Z.lnot (Z.shiftl 0xff byte_off)))) in
  write_config32 bus dev aligned_offset new_value.

(** One round of the inner loop. *)
Definition probe (vendor device i j : Z) : M S (option pci_device) :=
  vendor_id <- read_config16 i j PCI_CONFIG_VENDOR_ID ;;
  if vendor_id =? 0xffff then ret None else
  if negb (vendor =? PCI_ANY) && negb (vendor_id =? vendor) then ret None else
  device_id <- read_config16 i j PCI_CONFIG_DEVICE_ID ;;
  if negb (device =? PCI_ANY) && negb (device_id =? device) then ret None else
  subvendor <- read_config16 i j PCI_CONFIG_SUBVENDOR_ID ;;
  subdevice <- read_config16 i j PCI_CONFIG_SUBDEVICE_ID ;;
  ret (Some (PciDevice vendor_id device_id subvendor subdevice i j)).

(** The inner and the outer loop, from the given index. *)
Fixpoint probe_slots (n : nat) (vendor device i j : Z) : M S (option pci_device) :=
  match n with
  | O => ret None
  | Datatypes.S n =>
      r <- probe vendor device i j ;;
      match r with
      | Some d => ret (Some d)
      | None => probe_slots n vendor device i (j + 1)
      end
  end.
Fixpoint probe_buses (n : nat) (vendor device i : Z) : M S (option pci_device) :=
  match n with
  | O => ret None
  | Datatypes.S n =>
      r <- probe_slots 32 vendor device i 0 ;;
      match r with
      | Some d => ret (Some d)
      | None => probe_buses n vendor device (i + 1)
      end
  end.

Definition look_for_device (vendor device : Z) : M S (Z * option pci_device) :=
  r <- probe_buses 256 vendor device 0 ;;
  match r with
  | Some d => ret (OK, Some d)
  | None => ret (ERR_NOT_FOUND, None)
  end.

Definition handle_pci_wait_for_device (m : message) : M S (Z * message) :=
  let vendor := field 0 2 (data m) in
  let device := field 2 2 (data m) in
  let* (err, d) := look_for_device vendor device in
  if err =? ERR_NOT_FOUND then ret (ERR_NOT_FOUND, m) else
  d <- need d ;;
  let m := set_header PCI_WAIT_FOR_DEVICE_REPLY_MSG m in
  let m := set_data (set_field 4 1 (pd_bus d) (data m)) m in
  ret (OK, set_data (set_field 5 1 (pd_slot d) (data m)) m).

Definition handle_pci_read_config16 (m : message) : M S (Z * message) :=
  v <- read_config16 (field 0 1 (data m)) (field 1 1 (data m)) (field 2 2 (data m)) ;;
  ret (OK, set_data (set_field 0 2 v (data m)) (set_header PCI_READ_CONFIG16_REPLY_MSG m)).

Definition handle_pci_read_config32 (m : message) : M S (Z * message) :=
  v <- read_config32 (field 0 1 (data m)) (field 1 1 (data m)) (field 2 2 (data m)) ;;
  ret (OK, set_data (set_field 0 4 v (data m)) (set_header PCI_READ_CONFIG32_REPLY_MSG m)).

Definition handle_pci_write_config8 (m : message) : M S (Z * message) :=
  write_config8 (field 0 1 (data m)) (field 1 1 (data m)) (field 2 2 (data m)) (field 4 1 (data m)) ;;;
  ret (OK, set_header PCI_WRITE_CONFIG8_REPLY_MSG m).

Definition handle_pci_write_config32 (m : message) : M S (Z * message) :=
  write_config32 (field 0 1 (data m)) (field 1 1 (data m)) (field 2 2 (data m)) (field 4 4 (data m)) ;;;
  ret (OK, set_header PCI_WRITE_CONFIG32_REPLY_MSG m).

Definition process_message (m : message) : M S (Z * message) :=
  if header m =? SERVER_CONNECT_MSG then p <- statics ;; handle_server_connect (pci_server_ch p) m
  else if header m =? PCI_WAIT_FOR_DEVICE_MSG then handle_pci_wait_for_device m
  else if header m =? PCI_READ_CONFIG16_MSG then handle_pci_read_config16 m
  else if header m =? PCI_READ_CONFIG32_MSG then handle_pci_read_config32 m
  else if header m =? PCI_WRITE_CONFIG8_MSG then handle_pci_write_config8 m
  else if header m =? PCI_WRITE_CONFIG32_MSG then handle_pci_write_config32 m
  else ret (ERR_UNEXPECTED_MESSAGE, m).

Definition main (fuel : nat) : M S Z :=
  let* (err, server_ch) := open in
  c_assert (err =? OK) ;;;
  let* (err, h) := io_open m0 kernel_ch IO_SPACE_IOPORT PCI_IOPORT_ADDR PCI_IOPORT_SIZE in
  h <- match h with Some h => ret h | None => panic end ;;
  set_statics (Pci server_ch h) ;;;
  TRY_OR_PANIC (server_register m0 memmgr_ch server_ch PCI_INTERFACE) ;;;
  server_mainloop fuel m0 server_ch process_message.

End Server.
End Pci.
Import Pci.

(** ** The host bridge *)

(** The port 0xcf8 selects a word of the configuration space, which is read and
    written at 0xcfc. *)
Class Bridge (W : Type) `{!Kernel W, !Ports W} := {
  latch : W -> Z;
  config : W -> Z -> Z;
  config_writes : W -> list (Z * Z);
  br_range : forall w a, 0 <= config w a < 2 ^ 32;
  br_select : forall w a, 0 <= a < 2 ^ 32 -> exists w', p_out32 0xcf8 a w = Done (tt, w') /\
    latch w' = a /\ (forall a', config w' a' = config w a') /\ config_writes w' = config_writes w;
  br_read : forall w, p_in32 0xcfc w = Done (config w (latch w), w);
  br_write : forall w v, 0 <= v < 2 ^ 32 -> exists w', p_out32 0xcfc v w = Done (tt, w') /\
    config_writes w' = config_writes w ++ [(latch w, v)]
}.

(** The fields of an address: enable, bus, device, function, offset. *)
Definition decode_addr (a : Z) : Z * Z * Z * Z * Z :=
  ((a / 2 ^ 31) mod 2, (a / 2 ^ 16) mod 2 ^ 8, (a / 2 ^ 11) mod 2 ^ 5, (a / 2 ^ 8) mod 2 ^ 3, a mod 2 ^ 8).

Lemma config_addr_sum bus dev offset : 0 <= bus < 256 -> 0 <= dev < 32 -> 0 <= offset < 256 ->
  config_addr bus dev offset = 2 ^ 31 + bus * 2 ^ 16 + dev * 2 ^ 11 + offset.
Proof.
  intros Hb Hd Ho. unfold config_addr, u32. rewrite !Z.shiftl_mul_pow2 by lia.
  rewrite (Z.mod_small (bus * 2 ^ 16)), (Z.mod_small (dev * 2 ^ 11)) by lia.
  rewrite (lor_low_add (1 * 2 ^ 31) _ 31) by (try lia; by apply Z.mod_mul).
  rewrite (lor_low_add (1 * 2 ^ 31 + bus * 2 ^ 16) _ 16) by (try lia; replace (1 * 2 ^ 31 + bus * 2 ^ 16) with ((2 ^ 15 + bus) * 2 ^ 16) by lia; apply Z.mod_mul; lia).
  rewrite (lor_low_add _ offset 11) by (try lia; replace (1 * 2 ^ 31 + bus * 2 ^ 16 + dev * 2 ^ 11) with ((2 ^ 20 + bus * 2 ^ 5 + dev) * 2 ^ 11) by lia; apply Z.mod_mul; lia).
  rewrite Z.mod_small; lia.
Qed.

Lemma decode_config_addr bus dev offset : 0 <= bus < 256 -> 0 <= dev < 32 -> 0 <= offset < 256 ->
  decode_addr (config_addr bus dev offset) = (1, bus, dev, 0, offset).
Proof.
  intros Hb Hd Ho. rewrite config_addr_sum by done. unfold decode_addr.
  repeat f_equal; Z.div_mod_to_equations; lia.
Qed.

(** Byte [i] of a word. *)
Definition byte_of (i v : Z) : Z := (v / 256 ^ i) mod 256.

(** What the server computes from the word at an offset. *)
Definition config16 {W} `{!Kernel W, !Ports W, !Bridge W} (w : W) (bus dev offset : Z) : Z :=
  (config w (config_addr bus dev (offset - offset mod 4)) / 256 ^ (offset mod 4)) mod 65536.

(** Every slot, in the order of the search, and what is looked for. *)
Definition slots_of (bus : Z) : list (Z * Z) := map (fun slot => (bus, slot)) (seqZ 0 32).
Definition all_slots : list (Z * Z) := concat (map slots_of (seqZ 0 256)).
Definition matches {W} `{!Kernel W, !Ports W, !Bridge W} (w : W) (vendor device : Z) (s : Z * Z) : bool :=
  let v := config16 w s.1 s.2 PCI_CONFIG_VENDOR_ID in
  let d := config16 w s.1 s.2 PCI_CONFIG_DEVICE_ID in
  negb (v =? 0xffff) && ((vendor =? PCI_ANY) || (v =? vendor)) && ((device =? PCI_ANY) || (d =? device)).

Definition pci_ok (p : pci) : Prop := pci_io_handle p = IoHandle IO_SPACE_IOPORT PCI_IOPORT_ADDR PCI_IOPORT_SIZE.

Lemma Zmod_mod_4 x : (x mod 256) mod 4 = x mod 4.
Proof. Z.div_mod_to_equations. lia. Qed.

Lemma all_slots_range bus slot : In (bus, slot) all_slots -> 0 <= bus < 256 /\ 0 <= slot < 32.
Proof.
  unfold all_slots. rewrite in_concat. intros (l & Hl & Hin). apply in_map_iff in Hl as (b & <- & Hb).
  apply in_map_iff in Hin as (k & [= <- <-] & Hk). apply list_elem_of_In, elem_of_seqZ in Hb. apply list_elem_of_In, elem_of_seqZ in Hk. lia.
Qed.

Lemma land_low offset : Z.land offset 0x3 = offset mod 4.
Proof. apply (land_ones_mod offset 2). lia. Qed.

Lemma land_word offset : 0 <= offset < 256 -> Z.land offset 0xfc = offset - offset mod 4.
Proof.
  intros H. assert (Hall : forallb (fun o => Z.land o 0xfc =? o - o mod 4) (seqZ 0 256) = true) by (vm_compute; reflexivity).
  rewrite forallb_forall in Hall. apply Z.eqb_eq, Hall, list_elem_of_In, elem_of_seqZ. lia.
Qed.

Section Bridge.
Context {W : Type} `{!Kernel W, !Ports W, !Bridge W}.

(** Only the selected word has changed. *)
Definition same_config (w w' : W) : Prop :=
  (forall a, config w' a = config w a) /\ config_writes w' = config_writes w.

#[local] Instance same_config_preorder : PreOrder same_config.
Proof. split; [done|]. intros w1 w2 w3 [A B] [C D]. split; [intros a; by rewrite C | congruence]. Qed.

Lemma u32_config_addr bus dev offset : u32 (config_addr bus dev offset) = config_addr bus dev offset.
Proof. apply Zmod_mod. Qed.

Lemma config_addr_range bus dev offset : 0 <= config_addr bus dev offset < 2 ^ 32.
Proof. apply Z.mod_pos_bound. lia. Qed.

Lemma aligned_check {A} (k : M (W * pci) A) offset : offset mod 4 = 0 -> (c_assert (Z.land offset 0x3 =? 0) ;;; k) = k.
Proof. intros H. by rewrite land_low, H. Qed.

Lemma read_config32_ok (w : W) p bus dev offset : pci_ok p -> offset mod 4 = 0 ->
  exists w', read_config32 bus dev offset (w, p) = Done (config w (config_addr bus dev offset), (w', p)) /\
    same_config w w' /\ latch w' = config_addr bus dev offset.
Proof.
  intros Hp Ho. destruct (br_select w (config_addr bus dev offset) (config_addr_range _ _ _)) as (w' & E & Hl & Hc & Hw).
  exists w'. split; [|done]. unfold read_config32. rewrite aligned_check by done. unfold statics, gets. unfold bind at 1. cbn [snd].
  erewrite (bind_intro (io_write32 _ _ _)); [|apply io_write32_done; rewrite Hp, ?u32_config_addr; [done | exact E] | reflexivity].
  rewrite <- Hc, <- Hl. apply io_read32_done; rewrite Hp; [done | apply br_read].
Qed.

Lemma read_config16_ok (w : W) p bus dev offset : pci_ok p -> 0 <= offset < 256 ->
  exists w', read_config16 bus dev offset (w, p) = Done (config16 w bus dev offset, (w', p)) /\ same_config w w'.
Proof.
  intros Hp Ho. destruct (read_config32_ok w p bus dev (offset - offset mod 4) Hp) as (w' & E & Hs & _);
    [rewrite Zminus_mod_idemp_r, Z.sub_diag; done|].
  exists w'. split; [|done]. unfold read_config16. rewrite (land_word offset) by done. rewrite (bind_intro _ _ _ _ _ _ E eq_refl).
  rewrite land_low. change 0xffff with (Z.ones 16). rewrite land_ones_mod by lia. unfold ret, config16. change 65536 with (2 ^ 16). pose proof (Z.mod_pos_bound offset 4).
  rewrite Z.shiftr_div_pow2 by lia. change 256 with (2 ^ 8). rewrite <- Z.pow_mul_r by lia. by rewrite (Z.mul_comm 8).
Qed.

Lemma write_config32_ok (w : W) p bus dev offset v : pci_ok p -> offset mod 4 = 0 -> 0 <= v < 2 ^ 32 ->
  exists w', write_config32 bus dev offset v (w, p) = Done (tt, (w', p)) /\
    config_writes w' = config_writes w ++ [(config_addr bus dev offset, v)].
Proof.
  intros Hp Ho Hv. destruct (br_select w (config_addr bus dev offset) (config_addr_range _ _ _)) as (w1 & E & Hl & _ & Hw).
  destruct (br_write w1 v Hv) as (w2 & E2 & Hw2). exists w2. split; [|by rewrite Hw2, Hw, Hl].
  unfold write_config32. rewrite aligned_check by done. unfold statics, gets. unfold bind at 1. cbn [snd].
  erewrite (bind_intro (io_write32 _ _ _)); [|apply io_write32_done; rewrite Hp, ?u32_config_addr; [done | exact E] | reflexivity].
  apply io_write32_done; rewrite Hp; [done|]. unfold u32. rewrite Z.mod_small by lia. exact E2.
Qed.

Lemma config16_same (w w' : W) bus dev offset : same_config w w' -> config16 w' bus dev offset = config16 w bus dev offset.
Proof. intros [H _]. unfold config16. by rewrite H. Qed.

Lemma matches_same (w w' : W) vendor device s : same_config w w' -> matches w' vendor device s = matches w vendor device s.
Proof. intros H. unfold matches. by rewrite !(config16_same w w'). Qed.

(** The offset of a request is taken modulo the size of the configuration space. *)
Lemma read_config16_wraps (w : W) p bus dev offset : read_config16 bus dev offset (w, p) = read_config16 bus dev (offset mod 256) (w, p).
Proof.
  unfold read_config16. rewrite !land_low, Zmod_mod_4. f_equal. f_equal.
  change 256 with (2 ^ 8). rewrite <- land_ones_mod, <- Z.land_assoc by lia. done.
Qed.

(** The search. *)
Lemma probe_ok (w : W) p vendor device i j : pci_ok p ->
  exists w' r, probe vendor device i j (w, p) = Done (r, (w', p)) /\ same_config w w' /\
    if matches w vendor device (i, j) then exists d, r = Some d /\ pd_bus d = i /\ pd_slot d = j else r = None.
Proof.
  intros Hp. unfold probe, matches. cbn [fst snd].
  destruct (read_config16_ok w p i j PCI_CONFIG_VENDOR_ID Hp) as (w1 & E1 & S1); [unfold PCI_CONFIG_VENDOR_ID; lia|].
  rewrite (bind_intro _ _ _ _ _ _ E1 eq_refl), <- !negb_orb.
  destruct (config16 w i j PCI_CONFIG_VENDOR_ID =? 0xffff); [by exists w1, None|].
  destruct ((vendor =? PCI_ANY) || _); cbn [negb andb]; [|by exists w1, None].
  destruct (read_config16_ok w1 p i j PCI_CONFIG_DEVICE_ID Hp) as (w2 & E2 & S2); [unfold PCI_CONFIG_DEVICE_ID; lia|].
  rewrite (bind_intro _ _ _ _ _ _ E2 eq_refl), <- !negb_orb, (config16_same w w1) by done.
  destruct ((device =? PCI_ANY) || _); cbn [negb]; [|exists w2, None; split; [done|]; split; [by transitivity w1 | done]].
  destruct (read_config16_ok w2 p i j PCI_CONFIG_SUBVENDOR_ID Hp) as (w3 & E3 & S3); [unfold PCI_CONFIG_SUBVENDOR_ID; lia|].
  destruct (read_config16_ok w3 p i j PCI_CONFIG_SUBDEVICE_ID Hp) as (w4 & E4 & S4); [unfold PCI_CONFIG_SUBDEVICE_ID; lia|].
  rewrite (bind_intro _ _ _ _ _ _ E3 eq_refl), (bind_intro _ _ _ _ _ _ E4 eq_refl).
  eexists w4, (Some _). split; [reflexivity|]. split; [transitivity w3; [transitivity w2; [by transitivity w1|]|]; done|].
  by eexists.
Qed.

(** The device found among slots in order. *)
Definition found (w : W) (vendor device : Z) (slots : list (Z * Z)) (r : option pci_device) : Prop :=
  match List.find (matches w vendor device) slots with
  | Some (i, j) => exists d, r = Some d /\ pd_bus d = i /\ pd_slot d = j
  | None => r = None
  end.

Lemma found_app (w w' : W) vendor device s1 s2 r1 r2 : same_config w w' ->
  found w vendor device s1 r1 -> (r1 = None -> found w' vendor device s2 r2) ->
  found w vendor device (s1 ++ s2) (match r1 with Some d => Some d | None => r2 end).
Proof.
  unfold found. intros Hs H1 H2. rewrite find_app. destruct (List.find _ s1) as [[i j]|]; [destruct H1 as (d & -> & H); by exists d|].
  subst r1. specialize (H2 eq_refl). erewrite find_ext; [exact H2|]. intros s. symmetry. by apply matches_same.
Qed.

Lemma probe_slots_ok n : forall (w : W) p vendor device i j, pci_ok p ->
  exists w' r, probe_slots n vendor device i j (w, p) = Done (r, (w', p)) /\ same_config w w' /\
    found w vendor device (map (fun k => (i, k)) (seqZ j (Z.of_nat n))) r.
Proof.
  induction n as [|n IH]; intros w p vendor device i j Hp; [by exists w, None|]. cbn [probe_slots].
  destruct (probe_ok w p vendor device i j Hp) as (w1 & r1 & E1 & S1 & H1). rewrite (bind_intro _ _ _ _ _ _ E1 eq_refl).
  rewrite seqZ_cons by lia. replace (Z.pred (Z.of_nat (Datatypes.S n))) with (Z.of_nat n) by lia.
  assert (F1 : found w vendor device [(i, j)] r1) by (unfold found; simpl; by destruct (matches w vendor device (i, j))).
  destruct r1 as [d|].
  - exists w1, (Some d). split; [done|]. split; [done|]. by apply (found_app w w1 _ _ [(i, j)] _ (Some d) None).
  - destruct (IH w1 p vendor device i (j + 1) Hp) as (w2 & r2 & E2 & S2 & H2). exists w2, r2.
    split; [done|]. split; [by transitivity w1|]. by apply (found_app w w1 _ _ [(i, j)] _ None r2).
Qed.

Lemma probe_buses_ok n : forall (w : W) p vendor device i, pci_ok p ->
  exists w' r, probe_buses n vendor device i (w, p) = Done (r, (w', p)) /\ same_config w w' /\
    found w vendor device (concat (map slots_of (seqZ i (Z.of_nat n)))) r.
Proof.
  induction n as [|n IH]; intros w p vendor device i Hp; [by exists w, None|]. cbn [probe_buses].
  destruct (probe_slots_ok 32 w p vendor device i 0 Hp) as (w1 & r1 & E1 & S1 & F1). rewrite (bind_intro _ _ _ _ _ _ E1 eq_refl).
  rewrite seqZ_cons by lia. replace (Z.pred (Z.of_nat (Datatypes.S n))) with (Z.of_nat n) by lia. cbn [map concat].
  destruct r1 as [d|].
  - exists w1, (Some d). split; [done|]. split; [done|]. by apply (found_app w w1 _ _ _ _ (Some d) None).
  - destruct (IH w1 p vendor device (i + 1) Hp) as (w2 & r2 & E2 & S2 & H2). exists w2, r2.
    split; [done|]. split; [by transitivity w1|]. by apply (found_app w w1 _ _ _ _ None r2).
Qed.

End Bridge.

(** The search for a device.  A request with a vendor and a device identifier,
    each possibly [PCI_ANY], is answered with the bus and the slot of the first
    present device, in the order of buses and slots, that has them, and with
    [ERR_NOT_FOUND] when there is none.  All 256 buses with their 32 slots are
    searched, and nothing is written to the configuration space. *)
Theorem pci_search {W : Type} `{!Kernel W, !Ports W, !Bridge W} (w : W) (p : pci) (m : message)
    (Hp : pci_ok p) (Hm : header m = PCI_WAIT_FOR_DEVICE_MSG) (Hl : (6 <= length (data m))%nat) :
  exists err m' w', process_message m (w, p) = Done ((err, m'), (w', p)) /\
    (forall a, config w' a = config w a) /\ config_writes w' = config_writes w /\
    match List.find (matches w (field 0 2 (data m)) (field 2 2 (data m))) all_slots with
    | Some (bus, slot) =>
        err = OK /\ header m' = PCI_WAIT_FOR_DEVICE_REPLY_MSG /\ field 4 1 (data m') = bus /\ field 5 1 (data m') = slot
    | None => err = ERR_NOT_FOUND /\ m' = m
    end.
Proof.
  destruct (probe_buses_ok 256 w p (field 0 2 (data m)) (field 2 2 (data m)) 0 Hp) as (w' & r & E & [Hc Hw] & F).
  unfold process_message. rewrite Hm. change (PCI_WAIT_FOR_DEVICE_MSG =? SERVER_CONNECT_MSG) with false. rewrite Z.eqb_refl.
  unfold handle_pci_wait_for_device, look_for_device. unfold found in F. change (Z.of_nat 256) with 256 in F. fold all_slots in F.
  destruct (List.find _ all_slots) as [[bus slot]|] eqn:Ef.
  - destruct F as (d & -> & <- & <-). destruct (all_slots_range _ _ (proj1 (find_some _ _ Ef))) as [Hb Hs].
    eexists OK, _, w'. split; [unfold bind at 1; erewrite (bind_intro (probe_buses _ _ _ _)); [|exact E | reflexivity]; reflexivity|].
    split; [done|]. split; [done|]. cbn [set_data set_header data header]. split; [done|]. split; [done|].
    rewrite field_set_field_ne, !field_set_field by (rewrite ?length_set_field; lia). by rewrite !Z.mod_small by lia.
  - subst r. exists ERR_NOT_FOUND, m, w'. split; [|done].
    unfold bind at 1. erewrite (bind_intro (probe_buses _ _ _ _)); [|exact E | reflexivity]. done.
Qed.

(** ** Bytes of a word *)

Lemma byte_of_bit i v k : 0 <= i -> 0 <= k < 8 -> Z.testbit (byte_of i v) k = Z.testbit v (8 * i + k).
Proof.
  intros Hi Hk. unfold byte_of. change 256 with (2 ^ 8). rewrite <- Z.pow_mul_r by lia.
  rewrite Z.mod_pow2_bits_low, Z.div_pow2_bits by lia. f_equal. lia.
Qed.

Lemma byte_of_ext i v b : 0 <= i -> 0 <= b < 256 ->
  (forall k, 0 <= k < 8 -> Z.testbit v (8 * i + k) = Z.testbit b k) -> byte_of i v = b.
Proof.
  intros Hi Hb H. rewrite <- (Z.mod_small b 256) by lia. unfold byte_of. apply Z.bits_inj'. intros k Hk. change 256 with (2 ^ 8).
  destruct (Z.lt_ge_cases k 8); [|by rewrite !Z.mod_pow2_bits_high by lia].
  rewrite !Z.mod_pow2_bits_low, <- Z.pow_mul_r, Z.div_pow2_bits by lia. rewrite <- H by lia. f_equal. lia.
Qed.

Lemma byte_bit_high b k : 0 <= b < 256 -> 8 <= k -> Z.testbit b k = false.
Proof. intros Hb Hk. rewrite <- (Z.mod_small b (2 ^ 8)) by lia. by rewrite Z.mod_pow2_bits_high by lia. Qed.

(** Replacing byte [n] of [v]. *)
Lemma replace_byte v b n i : 0 <= n < 4 -> 0 <= i < 4 -> 0 <= b < 256 ->
  byte_of i (u32 (Z.lor (Z.shiftl b (n * 8)) (Z.land v (Z.lnot (Z.shiftl 0xff (n * 8)))))) = if i =? n then b else byte_of i v.
Proof.
  intros Hn Hi Hb.
  assert (Hbits : forall k, 0 <= k < 8 ->
    Z.testbit (u32 (Z.lor (Z.shiftl b (n * 8)) (Z.land v (Z.lnot (Z.shiftl 0xff (n * 8)))))) (8 * i + k) =
    if i =? n then Z.testbit b k else Z.testbit v (8 * i + k)).
  { intros k Hk. unfold u32. rewrite Z.mod_pow2_bits_low, Z.lor_spec, Z.land_spec, Z.lnot_spec, !Z.shiftl_spec by lia.
    destruct (Z.eqb_spec i n) as [->|Hne].
    - replace (8 * n + k - n * 8) with k by lia. change 0xff with (Z.ones 8). rewrite Z.ones_spec_low by lia.
      cbn [negb]. by rewrite andb_false_r, orb_false_r.
    - assert (Ht : forall x, 0 <= x < 256 -> Z.testbit x (8 * i + k - n * 8) = false).
      { intros x Hx. destruct (Z.lt_ge_cases i n); [apply Z.testbit_neg_r; lia | apply byte_bit_high; lia]. }
      rewrite !Ht by lia. cbn [negb]. by rewrite orb_false_l, andb_true_r. }
  apply byte_of_ext; [lia| |].
  - destruct (i =? n); [done|]. apply Z.mod_pos_bound. lia.
  - intros k Hk. rewrite Hbits by done. destruct (i =? n); [done|]. by rewrite byte_of_bit by lia.
Qed.

Lemma shl_int_check b n : 0 <= n < 4 -> 0 <= b < 256 -> (Z.shiftl b (n * 8) <? 2 ^ 31) = negb ((n =? 3) && (128 <=? b)).
Proof.
  intros Hn Hb. rewrite Z.shiftl_mul_pow2 by lia. assert (Hc : n = 0 \/ n = 1 \/ n = 2 \/ n = 3) by lia.
  destruct Hc as [->|[->|[->| ->]]]; cbn [Z.eqb Pos.eqb andb negb Z.mul Pos.mul]; [apply Z.ltb_lt; lia..|].
  rewrite Z.leb_antisym, negb_involutive. destruct (Z.ltb_spec b 128); [apply Z.ltb_lt | apply Z.ltb_ge]; lia.
Qed.

(** Writing a byte of the configuration space, of which only words can be
    written.  For a slot that exists and an offset in its configuration space,
    [write_config8] writes one word, the one with the byte, whose address the bridge decodes to the
    bus, the slot, function 0 and the offset; its byte is the new one and the
    other three are unchanged.  The exception is the highest byte of a word with
    a value of 128 or more, for which the shift of the C code is undefined. *)
Theorem pci_write_byte {W : Type} `{!Kernel W, !Ports W, !Bridge W} (w : W) (p : pci) (bus slot offset b : Z)
    (Hp : pci_ok p) (Hbus : 0 <= bus < 256) (Hslot : 0 <= slot < 32) (Ho : 0 <= offset < 256) (Hb : 0 <= b < 256) :
  if (offset mod 4 =? 3) && (128 <=? b) then write_config8 bus slot offset b (w, p) = Undef
  else exists w' a v, write_config8 bus slot offset b (w, p) = Done (tt, (w', p)) /\
    config_writes w' = config_writes w ++ [(a, v)] /\ 0 <= v < 2 ^ 32 /\
    decode_addr a = (1, bus, slot, 0, offset - offset mod 4) /\
    forall i, 0 <= i < 4 -> byte_of i v = if i =? offset mod 4 then b else byte_of i (config w a).
Proof.
  pose proof (Z.mod_pos_bound offset 4) as Hn. set (n := offset mod 4) in *.
  assert (Ha : (offset - n) mod 4 = 0) by (unfold n; rewrite Zminus_mod_idemp_r, Z.sub_diag; done).
  destruct (read_config32_ok w p bus slot (offset - n) Hp Ha) as (w1 & E1 & [Hc1 Hw1] & _).
  assert (Hoff : 0 <= offset - n < 256) by (unfold n; Z.div_mod_to_equations; lia).
  unfold write_config8. rewrite (land_word offset) by done. fold n. rewrite (bind_intro _ _ _ _ _ _ E1 eq_refl).
  rewrite (land_low offset). fold n.
  unfold shl_int. rewrite shl_int_check by lia. destruct ((n =? 3) && (128 <=? b)); [reflexivity|]. unfold bind at 1. cbn [negb need ret].
  destruct (write_config32_ok w1 p bus slot (offset - n) (u32 (Z.lor (Z.shiftl b (n * 8)) (Z.land (config w (config_addr bus slot (offset - n))) (Z.lnot (Z.shiftl 0xff (n * 8))))))) as (w2 & E2 & Hw2);
    [done | done | apply Z.mod_pos_bound; lia|].
  eexists w2, _, _. split; [exact E2|]. split; [rewrite Hw2, Hw1; reflexivity|]. split; [apply Z.mod_pos_bound; lia|].
  split; [by apply decode_config_addr|]. intros i Hi. apply replace_byte; lia.
Qed.

(** A bridge with one device, bus 0 slot 3, that has two capabilities. *)
Module PciBench.

Record bridge := MkBridge { b_latch : Z; b_writes : list (Z * Z); b_buffer : message }.
Definition b_config (a : Z) : Z :=
  if a =? 0x80001800 then 0x10011af4
  else if a =? 0x80001834 then 0x40
  else if a =? 0x80001840 then 0x02005009
  else if a =? 0x80001850 then 0x01000009
  else 0xffffffff.

#[export] Instance bridge_kernel : Kernel bridge := {
  k_ipc_buffer := b_buffer;
  k_set_ipc_buffer b w := MkBridge (b_latch w) (b_writes w) b;
  k_set_page_base _ w := w;
  k_open := ret 1;
  k_close _ := ret 0;
  k_link _ _ := ret 0;
  k_transfer _ _ := ret 0;
  k_ipc _ _ := ret 0
}.
#[export] Instance bridge_ports : Ports bridge := {
  p_in8 _ := ret 0;
  p_in16 _ := ret 0;
  p_in32 _ w := Done (b_config (b_latch w), w);
  p_out8 _ _ := ret tt;
  p_out16 _ _ := ret tt;
  p_out32 port v w :=
    Done (tt, if port =? 0xcf8 then MkBridge v (b_writes w) (b_buffer w)
              else MkBridge (b_latch w) (b_writes w ++ [(b_latch w, v)]) (b_buffer w))
}.

#[export, refine] Instance bridge_bridge : Bridge bridge := { latch := b_latch; config _ := b_config; config_writes := b_writes }.
Proof.
  - intros w a. unfold b_config. repeat case_match; lia.
  - intros w a _. eexists. by split.
  - done.
  - intros w v _. eexists. by split.
Defined.

Definition b_start : bridge := MkBridge 0 [] (Message 0 0 0 0 0 []).
Definition b_server : pci := Pci 1 (IoHandle IO_SPACE_IOPORT PCI_IOPORT_ADDR PCI_IOPORT_SIZE).
Definition b_request : message := Message PCI_WAIT_FOR_DEVICE_MSG 0 0 0 0 [0xf4; 0x1a; 0xff; 0xff; 0; 0].

End PciBench.
Import PciBench.

Lemma pci_search_witness : exists m' w', process_message b_request (b_start, b_server) = Done ((OK, m'), (w', b_server)) /\
  field 4 1 (data m') = 0 /\ field 5 1 (data m') = 3.
Proof.
  assert (Hf : List.find (matches b_start 0x1af4 0xffff) all_slots = Some (0, 3)) by (vm_compute; reflexivity).
  destruct (pci_search b_start b_server b_request eq_refl eq_refl (le_n 6)) as (err & m' & w' & E & _ & _ & H).
  change (field 0 2 (data b_request)) with 0x1af4 in H. change (field 2 2 (data b_request)) with 0xffff in H.
  rewrite Hf in H. destruct H as (-> & _ & Hb & Hs). exists m', w'. split; [exact E | split; [exact Hb | exact Hs]].
Defined.

Lemma pci_write_byte_witness : exists w' a v, write_config8 0 3 5 0x06 (b_start, b_server) = Done (tt, (w', b_server)) /\
  config_writes w' = [(a, v)] /\ decode_addr a = (1, 0, 3, 0, 4).
Proof.
  destruct (pci_write_byte b_start b_server 0 3 5 6) as (w' & a & v & E & Hw & _ & Hd & _); [reflexivity | lia..|].
  exists w', a, v. split; [exact E | split; [exact Hw | exact Hd]].
Defined.
