(* ===== verification/Virtio.v ===== *)
(** * Virtio devices

    [libs/libvirtio/virtio.c] and [servers/virtio_blk/main.c]: the search for the
    capabilities of a virtio device in the PCI configuration space, the mapping of its
    registers, the set-up of a virtqueue, and the block device driver, which sends one
    request.  Registers and shared memory are the class [Memory]. *)
From S2P Require Import Prelude Message Util Malloc UserIpc Driver Stubs Pci.
Import Math Heap User Io Stubs.

(** Memory at an address, as the program sees it: [n] bytes, little endian. *)
Class Memory (W : Type) := {
  m_load : nat -> Z -> M W Z;
  m_store : nat -> Z -> Z -> M W unit
}.

#[export] Instance pair_memory {W V} `{!Memory W} : Memory (W * V) := {
  m_load n a := on_fst (m_load n a);
  m_store n a v := on_fst (m_store n a v)
}.

Definition VIRTIO_PCI_VENDOR : Z := 0x1af4.
Definition VIRTIO_PCI_DEVICE : Z := 0xffff.
Definition VIRTQ_DESC_F_NEXT : Z := 1.
Definition VIRTQ_DESC_F_WRITE : Z := 2.
Definition VIRTIO_PCI_CAP_CFG_TYPE : Z := 3.
Definition VIRTIO_PCI_CAP_BAR : Z := 4.
Definition VIRTIO_PCI_CAP_OFFSET : Z := 8.
Definition VIRTIO_PCI_CAP_VENDOR : Z := 0x09.
Definition VIRTIO_PCI_CAP_COMMON_CFG : Z := 1.
Definition VIRTIO_PCI_CAP_NOTIFY_CFG : Z := 2.
Definition NUM_VIRTQ_MAX : Z := 4.
Definition PCI_CONFIG_STATUS : Z := 0x06.
Definition PCI_CONFIG_NTH_BAR (n : Z) : Z := 0x10 + n * 4.
Definition PCI_CONFIG_CAPABILITIES : Z := 0x34.
Definition PCI_CONFIG_STATUS_CAPS : Z := 16.
Definition PCI_CAP_VENDOR : Z := 0.
Definition PCI_CAP_NEXT : Z := 1.
Definition VIRTIO_STATUS_ACKNOWLEDGE : Z := 1.
Definition VIRTIO_STATUS_DRIVER : Z := 2.
Definition VIRTIO_STATUS_FEATURES_OK : Z := 8.
Definition VIRTIO_STATUS_DRIVER_OK : Z := 4.

(** Offsets in [struct virtio_pci_common_cfg] and [struct virtio_pci_notify_cap]. *)
Definition DEVICE_STATUS : Z := 20.
Definition QUEUE_SELECT : Z := 22.
Definition QUEUE_SIZE : Z := 24.
Definition QUEUE_ENABLE : Z := 28.
Definition QUEUE_NOTIFY_OFF : Z := 30.
Definition QUEUE_DESC : Z := 32.
Definition QUEUE_DRIVER : Z := 40.
Definition QUEUE_DEVICE : Z := 48.
Definition NOTIFY_OFF_MUL : Z := 16.

Definition SIZEOF_VIRTQ_DESC : Z := 16.
Definition SIZEOF_VIRTQ_AVAIL : Z := 4.
Definition SIZEOF_VIRTQ_USED : Z := 4.

Record virtq := Virtq { vq_queue_size : Z; vq_paddr : Z; vq_buffer : Z; vq_desc : Z; vq_avail : Z; vq_used : Z }.
Record virtio_device := VirtioDevice {
  vd_memmgr : Z;
  vd_server : Z;
  vd_bus : Z;
  vd_slot : Z;
  vd_notify_addrs : list Z;
  vd_common_cfg : Z;
  vd_virtq : list virtq
}.

Definition set_pci m s b sl (d : virtio_device) : virtio_device := VirtioDevice m s b sl (vd_notify_addrs d) (vd_common_cfg d) (vd_virtq d).
Definition set_notify_addrs x (d : virtio_device) : virtio_device := VirtioDevice (vd_memmgr d) (vd_server d) (vd_bus d) (vd_slot d) x (vd_common_cfg d) (vd_virtq d).
Definition set_common_cfg x (d : virtio_device) : virtio_device := VirtioDevice (vd_memmgr d) (vd_server d) (vd_bus d) (vd_slot d) (vd_notify_addrs d) x (vd_virtq d).
Definition set_virtq x (d : virtio_device) : virtio_device := VirtioDevice (vd_memmgr d) (vd_server d) (vd_bus d) (vd_slot d) (vd_notify_addrs d) (vd_common_cfg d) x.

Module Virtio.

(** The layout of a virtqueue in its buffer: the offsets of its three parts, and the
    number of bytes the code computes for all. *)
Definition qalign : Z := 8.
Definition desc_size (queue_size : Z) : Z := SIZEOF_VIRTQ_DESC * queue_size.
Definition avail_size (queue_size : Z) : Z := SIZEOF_VIRTQ_AVAIL + 2 * queue_size + 2.
Definition used_size (queue_size : Z) : Z := SIZEOF_VIRTQ_USED + 2 * queue_size + 2.
Definition avail_offset (queue_size : Z) : Z := desc_size queue_size.
Definition used_offset (queue_size : Z) : Z := ALIGN_UP (desc_size queue_size + avail_size queue_size) qalign.
Definition virtq_size (queue_size : Z) : Z :=
  ALIGN_UP (desc_size queue_size + avail_size queue_size) qalign + ALIGN_UP (used_size queue_size) qalign.
Definition VIRTQ_ORDER : Z := 4.

Section Library.
Context {W : Type} `{!Kernel W, !Memory W}.
(** A message on the stack that was never written.  The static variables are those of
    [libs/libresea/malloc.c]. *)
Context (m0 : message).
Local Abbreviation S := (W * heap)%type.

Definition v_valloc (num_pages : Z) : M S Z := on_static id (fun h _ => h) (valloc num_pages).

(** The error and the value. *)
Definition read_pci_config16 (d : virtio_device) (offset : Z) : M S (Z * Z) :=
  call_pci_read_config16 m0 (vd_server d) (vd_bus d) (vd_slot d) (u16 offset).
Definition read_pci_config32 (d : virtio_device) (offset : Z) : M S (Z * Z) :=
  call_pci_read_config32 m0 (vd_server d) (vd_bus d) (vd_slot d) (u16 offset).
Definition read_pci_config8 (d : virtio_device) (offset : Z) : M S (Z * Z) :=
  let* (err, data16) := read_pci_config16 d offset in
  if negb (err =? OK) then ret (err, 0) else ret (OK, Z.land data16 0xff).

(** [TRY] of a call with a result. *)
Definition try_get {A B} (m : M S (Z * A)) (k : A -> M S (Z * B)) (b : B) : M S (Z * B) :=
  let* (err, a) := m in if negb (err =? OK) then ret (err, b) else k a.

Definition virtio_setup_virtq (d : virtio_device) (index : Z) : M S (Z * virtio_device) :=
  c_assert (index <? NUM_VIRTQ_MAX) ;;;
  let common := vd_common_cfg d in
  m_store 2 (common + QUEUE_SELECT) index ;;;
  queue_size <- m_load 2 (common + QUEUE_SIZE) ;;
  page_base <- v_valloc (virtq_size queue_size) ;;
  try_get (call_memory_alloc_phy_pages m0 (vd_memmgr d) 0 VIRTQ_ORDER page_base) (fun '(buffer, virtq_paddr) =>
    qs <- need (arr_set (vd_virtq d) index
            (Virtq queue_size virtq_paddr buffer buffer (buffer + avail_offset queue_size) (buffer + used_offset queue_size))) ;;
    m_store 8 (common + QUEUE_DESC) virtq_paddr ;;;
    m_store 8 (common + QUEUE_DRIVER) (virtq_paddr + avail_offset queue_size) ;;;
    m_store 8 (common + QUEUE_DEVICE) (virtq_paddr + used_offset queue_size) ;;;
    m_store 2 (common + QUEUE_ENABLE) 1 ;;;
    ret (OK, set_virtq qs d)) d.

(** The loop of [get_pci_capability_offset]. *)
Fixpoint find_capability (fuel : nat) (d : virtio_device) (cap_vendor cfg_type offset : Z) : M S (Z * Z) :=
  match fuel with
  | O => no_fuel
  | Datatypes.S fuel =>
      if offset =? 0 then ret (ERR_NOT_FOUND, 0)
      else
        let next := try_get (read_pci_config8 d (offset + PCI_CAP_NEXT)) (fun next => find_capability fuel d cap_vendor cfg_type next) 0 in
        try_get (read_pci_config8 d (offset + PCI_CAP_VENDOR)) (fun vendor =>
          if vendor =? cap_vendor then
            try_get (read_pci_config8 d (offset + VIRTIO_PCI_CAP_CFG_TYPE)) (fun type =>
              if type =? cfg_type then ret (OK, offset) else next) 0
          else next) 0
  end.

Definition get_pci_capability_offset (fuel : nat) (d : virtio_device) (cap_vendor cfg_type : Z) : M S (Z * Z) :=
  try_get (read_pci_config8 d PCI_CONFIG_CAPABILITIES) (fun offset =>
    find_capability fuel d cap_vendor cfg_type (Z.land offset 0xfc)) 0.

(** [notify_addrs[i]] for the queues from [i] on. *)
Fixpoint notify_loop (n : nat) (i bar_buffer notify_addr_off notify_off_mul : Z) (d : virtio_device) : M S virtio_device :=
  match n with
  | O => ret d
  | Datatypes.S n =>
      off <- m_load 2 (vd_common_cfg d + QUEUE_NOTIFY_OFF) ;;
      addrs <- need (arr_set (vd_notify_addrs d) i (bar_buffer + notify_addr_off + u32 (off * notify_off_mul))) ;;
      notify_loop n (i + 1) bar_buffer notify_addr_off notify_off_mul (set_notify_addrs addrs d)
  end.

(** The offset of the notification area is read from the capability of the common
    configuration. *)
Definition map_pci_config_cfg (fuel : nat) (d : virtio_device) : M S (Z * virtio_device) :=
  try_get (read_pci_config16 d PCI_CONFIG_STATUS) (fun status =>
  if Z.land status PCI_CONFIG_STATUS_CAPS =? 0 then ret (ERR_NOT_ACCEPTABLE, d) else
  try_get (get_pci_capability_offset fuel d VIRTIO_PCI_CAP_VENDOR VIRTIO_PCI_CAP_COMMON_CFG) (fun common_off =>
  try_get (read_pci_config8 d (common_off + VIRTIO_PCI_CAP_BAR)) (fun bar_no =>
  c_assert (bar_no <=? 5) ;;;
  try_get (read_pci_config32 d (PCI_CONFIG_NTH_BAR bar_no)) (fun bar =>
  c_assert (negb (Z.land bar 1 =? 1)) ;;;
  page_base <- v_valloc 4096 ;;
  try_get (call_memory_alloc_phy_pages m0 (vd_memmgr d) (Z.land bar 0xfffffff0) 0 page_base) (fun '(bar_buffer, _) =>
  try_get (read_pci_config32 d (common_off + VIRTIO_PCI_CAP_OFFSET)) (fun common_cfg_off =>
  let common_cfg := bar_buffer + common_cfg_off in
  m_store 2 (common_cfg + QUEUE_SELECT) 0 ;;;
  let d := set_common_cfg common_cfg d in
  try_get (get_pci_capability_offset fuel d VIRTIO_PCI_CAP_VENDOR VIRTIO_PCI_CAP_NOTIFY_CFG) (fun notify_cap_off =>
  try_get (read_pci_config32 d (notify_cap_off + NOTIFY_OFF_MUL)) (fun notify_off_mul =>
  try_get (read_pci_config8 d (notify_cap_off + VIRTIO_PCI_CAP_BAR)) (fun notify_bar_no =>
  c_assert (bar_no =? notify_bar_no) ;;;
  try_get (read_pci_config32 d (common_off + VIRTIO_PCI_CAP_OFFSET)) (fun notify_addr_off =>
  d <- notify_loop (Z.to_nat NUM_VIRTQ_MAX) 0 bar_buffer notify_addr_off notify_off_mul d ;;
  ret (OK, d)) d) d) d) d) d) d) d) d) d) d.

(** [device_status |= flag] *)
Definition or_status (d : virtio_device) (flag : Z) : M S unit :=
  status <- m_load 1 (vd_common_cfg d + DEVICE_STATUS) ;;
  m_store 1 (vd_common_cfg d + DEVICE_STATUS) (Z.lor status flag).

Definition negotiate_features_over_pci (d : virtio_device) : M S Z :=
  m_store 1 (vd_common_cfg d + DEVICE_STATUS) 0 ;;;
  or_status d VIRTIO_STATUS_ACKNOWLEDGE ;;;
  or_status d VIRTIO_STATUS_DRIVER ;;;
  or_status d VIRTIO_STATUS_FEATURES_OK ;;;
  ret OK.

Definition setup_pci_device (fuel : nat) (d : virtio_device) : M S (Z * virtio_device) :=
  let* (err, d) := map_pci_config_cfg fuel d in
  if negb (err =? OK) then ret (err, d) else
  err <- negotiate_features_over_pci d ;;
  ret (err, d).

Definition virtio_finish_init (d : virtio_device) : M S Z := or_status d VIRTIO_STATUS_DRIVER_OK ;;; ret OK.

Definition virtio_setup_pci_device (fuel : nat) (d : virtio_device) (memmgr pci_server : Z) : M S (Z * virtio_device) :=
  try_get (call_pci_wait_for_device m0 pci_server VIRTIO_PCI_VENDOR VIRTIO_PCI_DEVICE) (fun '(bus, slot) =>
    setup_pci_device fuel (set_pci memmgr pci_server bus slot d)) d.

(** ** The block device driver *)

Definition memmgr_ch : Z := 1.
Definition kernel_ch : Z := 2.
Definition VIRTIO_BLK_T_IN : Z := 0.

(** A descriptor of a queue. *)
Definition write_desc (q : virtq) (i paddr len flags next : Z) : M S unit :=
  let a := vq_desc q + i * SIZEOF_VIRTQ_DESC in
  m_store 8 a paddr ;;; m_store 4 (a + 8) len ;;; m_store 2 (a + 12) flags ;;; m_store 2 (a + 14) next.

Fixpoint wait_used (fuel : nat) (q : virtq) : M S unit :=
  match fuel with
  | O => no_fuel
  | Datatypes.S fuel => used_index <- m_load 2 (vq_used q + 2) ;; if 0 <? used_index then ret tt else wait_used fuel q
  end.

Definition init_driver (fuel : nat) (pci_server_ch : Z) (d : virtio_device) : M S (Z * virtio_device) :=
  let* (err, d) := virtio_setup_pci_device fuel d memmgr_ch pci_server_ch in
  if negb (err =? OK) then ret (err, d) else
  let* (err, d) := virtio_setup_virtq d 0 in
  if negb (err =? OK) then ret (err, d) else
  err <- virtio_finish_init d ;;
  if negb (err =? OK) then ret (err, d) else
  page_base <- v_valloc 1 ;;
  try_get (call_memory_alloc_phy_pages m0 memmgr_ch 0 0 page_base) (fun '(buffer, paddr) =>
    m_store 8 (buffer + 8) 0 ;;;
    m_store 4 buffer VIRTIO_BLK_T_IN ;;;
    q <- need (arr_get (vd_virtq d) 0) ;;
    write_desc q 0 paddr 16 VIRTQ_DESC_F_NEXT 1 ;;;
    write_desc q 1 (paddr + 16) 513 VIRTQ_DESC_F_WRITE 0 ;;;
    m_store 2 (vq_avail q + 4) 0 ;;;
    index <- m_load 2 (vq_avail q + 2) ;;
    m_store 2 (vq_avail q + 2) (u16 (index + 1)) ;;;
    addrs <- need (arr_set (vd_notify_addrs d) 0 0) ;;
    wait_used fuel q ;;;
    ret (OK, set_notify_addrs addrs d)) d.

Definition process_message (server_ch : Z) (m : message) : M S (Z * message) :=
  if header m =? SERVER_CONNECT_MSG then handle_server_connect server_ch m else ret (ERR_UNEXPECTED_MESSAGE, m).

Definition main `{!Ports W} (fuel : nat) (d : virtio_device) : M S Z :=
  let* (err, server_ch) := open in
  c_assert (err =? OK) ;;;
  let* (err, _) := io_open m0 kernel_ch IO_SPACE_IOPORT 0 0 in
  c_assert (err =? OK) ;;;
  let* (err, pci_server_ch) := call_discovery_connect m0 memmgr_ch PCI_INTERFACE in
  c_assert (err =? OK) ;;;
  let* (err, d) := init_driver fuel pci_server_ch d in
  c_assert (err =? OK) ;;;
  TRY_OR_PANIC (server_register m0 memmgr_ch server_ch KEYBOARD_DRIVER_INTERFACE) ;;;
  server_mainloop fuel m0 server_ch (process_message server_ch).

End Library.
End Virtio.
Import Virtio.

(** ** Capabilities *)

(** What the driver relies on: the PCI server answers a read with the bytes of the
    configuration space, and stays in a state [cs_ok] where it does. *)
Class ConfigSpace (W : Type) `{!Kernel W} := {
  space : Z -> Z -> Z -> Z;
  cs_ok : W -> Prop;
  cs_byte : forall bus slot offset, 0 <= space bus slot offset < 256;
  cs_buffer : forall b w, cs_ok w -> k_ipc_buffer (k_set_ipc_buffer b w) = b /\ cs_ok (k_set_ipc_buffer b w);
  cs_read : forall ch w, cs_ok w -> fits (k_ipc_buffer w) -> header (k_ipc_buffer w) = PCI_READ_CONFIG16_MSG ->
    exists w', k_ipc ch (Z.lor IPC_SEND IPC_RECV) w = Done (OK, w') /\ cs_ok w' /\ fits (k_ipc_buffer w') /\
      header (k_ipc_buffer w') = PCI_READ_CONFIG16_REPLY_MSG /\
      field 0 2 (data (k_ipc_buffer w')) mod 256 =
        space (field 0 1 (data (k_ipc_buffer w))) (field 1 1 (data (k_ipc_buffer w))) (field 2 2 (data (k_ipc_buffer w)) mod 256)
}.

(** The offsets of the capabilities in a list that ends. *)
Inductive capabilities (sp : Z -> Z) : Z -> list Z -> Prop :=
| capabilities_end : capabilities sp 0 []
| capabilities_next offset offsets :
    offset <> 0 -> capabilities sp (sp ((offset + 1) mod 256)) offsets -> capabilities sp offset (offset :: offsets).

Section Capabilities.
Context {W : Type} `{!Kernel W, !ConfigSpace W}.
Context (m0 : message) (Hm0 : INLINE_PAYLOAD_LEN_MAX <= Z.of_nat (length (data m0))).
Context (d : virtio_device) (Hbus : 0 <= vd_bus d < 256) (Hslot : 0 <= vd_slot d < 256).

(** The server and the buffer of the driver. *)
Definition ready (w : W) : Prop := cs_ok w /\ fits (k_ipc_buffer w).

Lemma read_config8_ok (w : W) (h : heap) offset : ready w -> 0 <= offset < 2 ^ 16 ->
  exists w', read_pci_config8 m0 d offset (w, h) = Done ((OK, space (vd_bus d) (vd_slot d) (offset mod 256)), (w', h)) /\ ready w'.
Proof.
  intros [Hok Hf] Ho. assert (Hd : (4 <= length (data m0))%nat) by (unfold INLINE_PAYLOAD_LEN_MAX in Hm0; lia).
  set (m := pci_request m0 PCI_READ_CONFIG16_MSG (vd_bus d) (vd_slot d) offset).
  assert (Hm : fits m) by (apply make_request_fits; [done | vm_compute; discriminate | by rewrite !length_set_field]).
  destruct (call_stub_ok (w, h) (vd_server d) m (fun s => s.2 = h /\ cs_ok s.1 /\ header (k_ipc_buffer s) = PCI_READ_CONFIG16_REPLY_MSG /\
    field 0 2 (data (k_ipc_buffer s)) mod 256 = space (vd_bus d) (vd_slot d) (offset mod 256))) as (r & [w' h'] & E & Hr & Hfr & Hf' & Hh & Hok' & Hhd & Hv);
    [done | done | |].
  - intros b Hsame Hfb. destruct (cs_buffer b w Hok) as [Hb Hokb].
    destruct (cs_read (vd_server d) (k_set_ipc_buffer b w) Hokb) as (w' & E & Hok' & Hf' & Hh & Hv);
      [by rewrite Hb | rewrite Hb; apply Hsame|]. rewrite Hb in Hv.
    rewrite !(same_message_field b m) in Hv by (try done; vm_compute; discriminate).
    unfold m in Hv. cbn [pci_request make_request data set_data] in Hv.
    rewrite !field_set_field_ne, !field_set_field in Hv by (rewrite ?length_set_field; lia).
    rewrite field_set_field_ne, field_set_field in Hv by (rewrite ?length_set_field; lia).
    exists (w', h). split; [exact (on_fst_done _ _ _ h _ E)|]. split; [done|]. cbn [k_ipc_buffer pair_kernel fst snd].
    split; [rewrite Hh; vm_compute; discriminate|]. split; [done|]. split; [done|]. split; [done|]. rewrite Hv.
    change (256 ^ Z.of_nat 1) with 256. change (256 ^ Z.of_nat 2) with 65536.
    by rewrite (Z.mod_small (vd_bus d)), (Z.mod_small (vd_slot d)), (Z.mod_small offset 65536) by lia.
  - cbn [fst snd] in Hh, Hok'. subst h'. exists w'. split; [|done]. unfold read_pci_config8, read_pci_config16, call_pci_read_config16.
    unfold u16. rewrite (Z.mod_small offset) by lia. fold m. unfold bind at 1. rewrite (bind_intro _ _ _ _ _ _ E eq_refl).
    transitivity (Done ((OK, Z.land (field 0 2 (data r)) 0xff), (w', h))); [reflexivity|]. do 3 f_equal.
    rewrite (same_message_field r _ 0 2 Hr Hfr Hf') by (rewrite Hhd; vm_compute; discriminate).
    rewrite <- Hv. apply (land_ones_mod _ 8). lia.
Qed.

Lemma find_capability_ok vendor type offset offsets : capabilities (space (vd_bus d) (vd_slot d)) offset offsets ->
  forall fuel (w : W) (h : heap), ready w -> 0 <= offset < 256 -> (length offsets < fuel)%nat ->
  exists w', find_capability m0 fuel d vendor type offset (w, h) =
    Done (match List.find (fun o => (space (vd_bus d) (vd_slot d) o =? vendor) && (space (vd_bus d) (vd_slot d) ((o + 3) mod 256) =? type)) offsets with
          | Some o => (OK, o) | None => (ERR_NOT_FOUND, 0) end, (w', h)) /\ ready w'.
Proof.
  induction 1 as [|offset offsets Hne _ IH]; intros fuel w h Hf Ho Hfuel; destruct fuel as [|fuel]; try (simpl in Hfuel; lia); cbn [find_capability].
  { by exists w. }
  rewrite (proj2 (Z.eqb_neq offset 0)) by done. unfold PCI_CAP_VENDOR, PCI_CAP_NEXT, VIRTIO_PCI_CAP_CFG_TYPE. rewrite Z.add_0_r.
  assert (Hnext : forall w1, ready w1 ->
    exists w', try_get (read_pci_config8 m0 d (offset + 1)) (fun next => find_capability m0 fuel d vendor type next) 0 (w1, h) =
      Done (match List.find (fun o => (space (vd_bus d) (vd_slot d) o =? vendor) && (space (vd_bus d) (vd_slot d) ((o + 3) mod 256) =? type)) offsets with
          | Some o => (OK, o) | None => (ERR_NOT_FOUND, 0) end, (w', h)) /\ ready w').
  { intros w1 Hf1. destruct (read_config8_ok w1 h (offset + 1) Hf1) as (w2 & E2 & Hf2); [lia|].
    destruct (IH fuel w2 h Hf2) as (w3 & E3 & Hf3); [apply cs_byte | simpl in Hfuel; lia|].
    exists w3. split; [|done]. unfold try_get. rewrite (bind_intro _ _ _ _ _ _ E2 eq_refl). exact E3. }
  destruct (read_config8_ok w h offset Hf) as (w1 & E1 & Hf1); [lia|]. rewrite (Z.mod_small offset 256) in E1 by lia.
  cbn [List.find]. unfold try_get at 1. rewrite (bind_intro _ _ _ _ _ _ E1 eq_refl). change (negb (OK =? OK)) with false. cbv beta iota.
  destruct (space (vd_bus d) (vd_slot d) offset =? vendor); cbn [andb]; [|by apply Hnext].
  destruct (read_config8_ok w1 h (offset + 3) Hf1) as (w2 & E2 & Hf2); [lia|].
  unfold try_get at 1. rewrite (bind_intro _ _ _ _ _ _ E2 eq_refl). change (negb (OK =? OK)) with false. cbv beta iota.
  destruct (space _ _ ((offset + 3) mod 256) =? type); [by exists w2 | by apply Hnext].
Qed.

End Capabilities.

(** C20: the search in the capability list.  For a device whose capabilities form a
    list that ends, [get_pci_capability_offset] finds the first one with the vendor
    and the type, and reports [ERR_NOT_FOUND] when there is none.  (The list comes
    from the device: for one that does not end the loop does not either,
    [cyclic_capabilities].) *)
Theorem capability_search {W : Type} `{!Kernel W, !ConfigSpace W} (m0 : message) (d : virtio_device)
    (vendor type : Z) (offsets : list Z) (fuel : nat) (w : W) (h : heap)
    (Hm0 : INLINE_PAYLOAD_LEN_MAX <= Z.of_nat (length (data m0))) (Hbus : 0 <= vd_bus d < 256) (Hslot : 0 <= vd_slot d < 256)
    (Hf : ready w)
    (Hcaps : capabilities (space (vd_bus d) (vd_slot d)) (Z.land (space (vd_bus d) (vd_slot d) PCI_CONFIG_CAPABILITIES) 0xfc) offsets)
    (Hfuel : (length offsets < fuel)%nat) :
  exists w', get_pci_capability_offset m0 fuel d vendor type (w, h) =
    Done (match List.find (fun o => (space (vd_bus d) (vd_slot d) o =? vendor) &&
                                    (space (vd_bus d) (vd_slot d) ((o + 3) mod 256) =? type)) offsets with
          | Some o => (OK, o)
          | None => (ERR_NOT_FOUND, 0)
          end, (w', h)).
Proof.
  destruct (read_config8_ok m0 Hm0 d Hbus Hslot w h PCI_CONFIG_CAPABILITIES Hf) as (w1 & E1 & Hf1); [unfold PCI_CONFIG_CAPABILITIES; lia|].
  change (PCI_CONFIG_CAPABILITIES mod 256) with PCI_CONFIG_CAPABILITIES in E1.
  destruct (find_capability_ok m0 Hm0 d Hbus Hslot vendor type _ _ Hcaps fuel w1 h Hf1) as (w2 & E2 & _); [|done|].
  { pose proof (cs_byte (vd_bus d) (vd_slot d) PCI_CONFIG_CAPABILITIES) as Hb. rewrite land_word by done.
    Z.div_mod_to_equations. lia. }
  exists w2. unfold get_pci_capability_offset, try_get. rewrite (bind_intro _ _ _ _ _ _ E1 eq_refl). exact E2.
Qed.

(** A list with a cycle and without the capability. *)
Theorem cyclic_capabilities {W : Type} `{!Kernel W, !ConfigSpace W} (m0 : message) (d : virtio_device)
    (vendor type offset : Z) (fuel : nat) (w : W) (h : heap)
    (Hm0 : INLINE_PAYLOAD_LEN_MAX <= Z.of_nat (length (data m0))) (Hbus : 0 <= vd_bus d < 256) (Hslot : 0 <= vd_slot d < 256)
    (Hf : ready w) (Ho : 0 < offset < 255) (Hcycle : space (vd_bus d) (vd_slot d) (offset + 1) = offset)
    (Hother : space (vd_bus d) (vd_slot d) offset <> vendor) :
  find_capability m0 fuel d vendor type offset (w, h) = Fuel.
Proof.
  revert w Hf. induction fuel as [|fuel IH]; intros w Hf; [done|]. cbn [find_capability].
  rewrite (proj2 (Z.eqb_neq offset 0)) by lia. unfold PCI_CAP_VENDOR, PCI_CAP_NEXT. rewrite Z.add_0_r.
  destruct (read_config8_ok m0 Hm0 d Hbus Hslot w h offset Hf) as (w1 & E1 & Hf1); [lia|]. rewrite (Z.mod_small offset 256) in E1 by lia.
  destruct (read_config8_ok m0 Hm0 d Hbus Hslot w1 h (offset + 1) Hf1) as (w2 & E2 & Hf2); [lia|].
  rewrite (Z.mod_small (offset + 1) 256), Hcycle in E2 by lia.
  unfold try_get at 1. rewrite (bind_intro _ _ _ _ _ _ E1 eq_refl). change (negb (OK =? OK)) with false. cbv beta iota.
  rewrite (proj2 (Z.eqb_neq _ vendor)) by done. unfold try_get. rewrite (bind_intro _ _ _ _ _ _ E2 eq_refl). by apply IH.
Qed.

(** ** The layout of a virtqueue *)

(** The bytes the used ring has: its elements have eight bytes. *)
Definition used_bytes (queue_size : Z) : Z := SIZEOF_VIRTQ_USED + 8 * queue_size + 2.

Lemma align_up_8 x : 0 <= x -> ALIGN_UP x 8 = x + (- x) mod 8.
Proof.
  intros Hx. unfold ALIGN_UP, ALIGN_DOWN. change (8 - 1) with (Z.ones 3). rewrite <- Z.ldiff_land, Z.ldiff_ones_r by lia.
  rewrite Z.shiftl_mul_pow2, Z.shiftr_div_pow2 by lia. change (2 ^ 3) with 8. Z.div_mod_to_equations. lia.
Qed.

(** The parts of a virtqueue.  For a queue of up to 2048 elements the descriptor
    table, the available ring and the used ring follow each other without overlap, are
    aligned as the device requires, and lie in the pages of order 4 that are
    allocated for them; but the size the code computes is too small as soon as the
    queue has three elements, since it counts two bytes for a used element of
    eight. *)
Theorem virtq_layout (q : Z) (Hq : 1 <= q <= 2048) :
  desc_size q <= avail_offset q /\ avail_offset q + avail_size q <= used_offset q /\
  avail_offset q mod 2 = 0 /\ used_offset q mod 4 = 0 /\
  used_offset q + used_bytes q <= PAGE_SIZE * POW2 VIRTQ_ORDER /\
  (3 <= q -> virtq_size q < used_offset q + used_bytes q).
Proof.
  unfold virtq_size, used_offset, used_bytes, avail_offset, desc_size, avail_size, used_size, qalign, SIZEOF_VIRTQ_DESC,
    SIZEOF_VIRTQ_AVAIL, SIZEOF_VIRTQ_USED. rewrite !align_up_8 by lia. change (PAGE_SIZE * POW2 VIRTQ_ORDER) with 65536.
  Z.div_mod_to_equations. lia.
Qed.

Lemma virtq_layout_witness : used_offset 256 + used_bytes 256 <= PAGE_SIZE * POW2 VIRTQ_ORDER /\
  virtq_size 256 < used_offset 256 + used_bytes 256.
Proof. destruct (virtq_layout 256) as (_ & _ & _ & _ & H & H'); [lia|]. split; [exact H | apply H'; lia]. Defined.

(** ** The driver on the PCI server *)

(** A kernel whose calls the PCI server answers: it handles the message in the buffer,
    and its reply is what the driver receives. *)
Record served (W : Type) := Served { sv_world : W; sv_pci : pci; sv_buffer : message }.
Arguments Served {W} _ _ _.
Arguments sv_world {W} _.
Arguments sv_pci {W} _.
Arguments sv_buffer {W} _.

#[export] Instance served_kernel {W} `{!Kernel W, !Ports W} : Kernel (served W) := {
  k_ipc_buffer := sv_buffer;
  k_set_ipc_buffer b s := Served (sv_world s) (sv_pci s) b;
  k_set_page_base _ s := s;
  k_open := ret 1;
  k_close _ := ret 0;
  k_link _ _ := ret 0;
  k_transfer _ _ := ret 0;
  k_ipc _ _ s :=
    match Pci.process_message (sv_buffer s) (sv_world s, sv_pci s) with
    | Done ((err, m), (w, p)) =>
        Done (OK, Served w p (if err =? OK then m else set_header (ERROR_TO_HEADER err) m))
    | Panic => Panic
    | Undef => Undef
    | Fuel => Fuel
    end
}.

(** The bytes of the configuration space the bridge has. *)
Definition config_byte (cfg : Z -> Z) (bus slot offset : Z) : Z :=
  byte_of (offset mod 4) (cfg (Pci.config_addr bus slot (offset - offset mod 4))).

(** The PCI server on a bridge is what the driver relies on. *)
#[export, refine] Instance served_space {W} `{!Kernel W, !Ports W, !Bridge W} (cfg : Z -> Z) : ConfigSpace (served W) := {
  space := config_byte cfg;
  cs_ok s := pci_ok (sv_pci s) /\ forall a, config (sv_world s) a = cfg a
}.
Proof.
  - intros bus slot offset. apply Z.mod_pos_bound. lia.
  - intros b s H. done.
  - intros ch [w p b] [Hp Hcfg] Hf Hh. cbn [k_ipc_buffer served_kernel sv_buffer sv_world sv_pci] in *.
    destruct (read_config16_ok w p (field 0 1 (data b)) (field 1 1 (data b)) (field 2 2 (data b) mod 256) Hp) as (w' & E & Hc & _);
      [apply Z.mod_pos_bound; lia|]. rewrite <- read_config16_wraps in E.
    eexists. split; [|split; [|split; [|split]]].
    + cbn [k_ipc served_kernel sv_buffer sv_world sv_pci]. unfold Pci.process_message. rewrite Hh.
      change (PCI_READ_CONFIG16_MSG =? SERVER_CONNECT_MSG) with false. change (PCI_READ_CONFIG16_MSG =? PCI_WAIT_FOR_DEVICE_MSG) with false.
      rewrite Z.eqb_refl. cbv iota. unfold Pci.handle_pci_read_config16. rewrite (bind_intro _ _ _ _ _ _ E eq_refl). reflexivity.
    + split; [done|]. intros a. cbn [sv_world]. by rewrite Hc.
    + destruct Hf as [_ Hl]. split; [vm_compute; discriminate|]. cbn. by rewrite length_set_field.
    + reflexivity.
    + destruct Hf as [_ Hl]. change (OK =? OK) with true. cbv iota. cbn [sv_buffer data set_data set_header].
      rewrite field_set_field by (unfold INLINE_PAYLOAD_LEN_MAX in Hl; lia).
      unfold config16, config_byte, byte_of. rewrite Hcfg, !Zmod_mod_4. change (256 ^ Z.of_nat 2) with 65536. rewrite Zmod_mod.
      set (x := _ / _). clearbody x. Z.div_mod_to_equations. lia.
Defined.

(** The two capabilities of the device of [PciBench]. *)
Import PciBench.

Definition served_start : served bridge := Served b_start b_server (Message 0 0 0 0 0 (replicate 500 0)).
Definition served_device : virtio_device := VirtioDevice 1 3 0 3 [0; 0; 0; 0] 0 [].

Lemma capability_search_witness : exists w',
  get_pci_capability_offset (Message 0 0 0 0 0 (replicate 500 0)) 3 served_device VIRTIO_PCI_CAP_VENDOR VIRTIO_PCI_CAP_COMMON_CFG
    (served_start, Heap [] HEAP_AREA_START VALLOC_AREA_START) = Done ((OK, 0x50), (w', Heap [] HEAP_AREA_START VALLOC_AREA_START)).
Proof.
  pose (cs := served_space (W := bridge) b_config).
  destruct (capability_search (ConfigSpace0 := cs) (Message 0 0 0 0 0 (replicate 500 0)) served_device VIRTIO_PCI_CAP_VENDOR
    VIRTIO_PCI_CAP_COMMON_CFG [0x40; 0x50] 3 served_start (Heap [] HEAP_AREA_START VALLOC_AREA_START)) as (w' & E).
  - vm_compute. discriminate.
  - vm_compute. split; congruence.
  - vm_compute. split; congruence.
  - split; [split; reflexivity | split; vm_compute; discriminate].
  - constructor; [vm_compute; discriminate|]. constructor; [vm_compute; discriminate|]. constructor.
  - simpl. lia.
  - exists w'. exact E.
Defined.
