(* ===== verification/Shell.v ===== *)
(** * Applications

    [libs/libapp/api.c], [apps/hello/main.c] and [apps/shell/main.c], on any
    [Kernel], and the shell as a line editor over the class [Terminal] of the servers
    around it. *)
From S2P Require Import Prelude Message CString UserIpc Driver Stubs.
Import CStr User Stubs.

(** ** Applications *)

Module Apps.
Section Program.
Context {S : Type} `{!Kernel S}.
Context (m0 : message).

(** [s] from the current position on. *)
Fixpoint api_console_write (s : list Z) : M S unit :=
  match s with
  | [] => undef
  | c :: s =>
      if c =? 0 then ret tt
      else TRY_OR_PANIC (call_gui_console_write m0 2 c) ;;; api_console_write s
  end.

Definition hello_text : list Z := [72; 101; 108; 108; 111; 32; 87; 111; 114; 108; 100; 33; 10; 0].
Definition hello_main : M S Z :=
  api_console_write hello_text ;;;
  call_api_exit_app m0 1 0 ;;;
  ret 0.

Definition prompt_text : list Z := [115; 104; 101; 108; 108; 62; 32; 0].
Definition launch_error_text : list Z :=
  [69; 114; 114; 111; 114; 58; 32; 102; 97; 105; 108; 101; 100; 32; 116; 111; 32; 108; 97; 117; 110; 99; 104; 32;
   116; 104; 101; 32; 97; 112; 112; 10; 0].
Definition too_long_text : list Z :=
  [10; 69; 114; 114; 111; 114; 58; 32; 84; 111; 111; 32; 108; 111; 110; 103; 32; 105; 110; 112; 117; 116; 46; 10; 0].

Definition appmgr_ch : Z := 1.
Definition gui_ch : Z := 2.
Definition CMDLINE_SIZE : Z := 64.

(** The command line is typed: start the program and wait for it. *)
Definition shell_run (cmdline : list Z) : M S unit :=
  let* (err, child) := call_api_create_app m0 appmgr_ch cmdline in
  if negb (err =? OK) then api_console_write launch_error_text
  else
    TRY_OR_PANIC (call_api_start_app m0 appmgr_ch child) ;;;
    let* (err, _) := call_api_join_app m0 appmgr_ch child in
    c_assert (err =? OK).

(** The inner loop with [cmdline] and [i]; [new_prompt] is where its jumps go.
    [fuel] bounds the receptions. *)
Fixpoint shell_loop (fuel : nat) (cmdline : list Z) (i : Z) : M S unit :=
  match fuel with
  | O => no_fuel
  | Datatypes.S fuel =>
      let new_prompt cmdline := api_console_write prompt_text ;;; shell_loop fuel cmdline 0 in
      let* (err, m) := ipc_recv gui_ch m0 in
      c_assert (err =? OK) ;;;
      if header m =? GUI_KEY_EVENT_MSG then
        let ch := field 0 1 (data m) in
        if ch =? 0 then
          call_gui_console_write m0 gui_ch 10 ;;;
          cmdline <- need (arr_set cmdline i 0) ;;
          shell_run cmdline ;;;
          new_prompt cmdline
        else if (0x20 <=? ch) && (ch <? 0x80) then
          call_gui_console_write m0 gui_ch ch ;;;
          cmdline <- need (arr_set cmdline i ch) ;;
          if i + 1 =? CMDLINE_SIZE - 1 then
            api_console_write too_long_text ;;;
            new_prompt cmdline
          else shell_loop fuel cmdline (i + 1)
        else shell_loop fuel cmdline i
      else shell_loop fuel cmdline i
  end.

(** [cmdline0] are the bytes of the array on the stack. *)
Definition shell_main (fuel : nat) (cmdline0 : list Z) : M S unit :=
  TRY_OR_PANIC (call_gui_activate m0 gui_ch) ;;;
  api_console_write prompt_text ;;;
  shell_loop fuel cmdline0 0.

End Program.
End Apps.
Import Apps.

(** ** The shell and its terminal *)

(** What the shell asks for. *)
Inductive action := Put (c : Z) | Create (path : list Z) | Start (pid : Z) | Join_app (pid : Z).

Definition asks (a : action) (x : Z * message) : Prop :=
  match a with
  | Put c => x.1 = gui_ch /\ header x.2 = GUI_CONSOLE_WRITE_MSG /\ field 0 1 (data x.2) = c
  | Create path => x.1 = appmgr_ch /\ header x.2 = API_CREATE_APP_MSG /\ c_string (take 128 (data x.2)) path
  | Start pid => x.1 = appmgr_ch /\ header x.2 = API_START_APP_MSG /\ s32 (field 0 4 (data x.2)) = pid
  | Join_app pid => x.1 = appmgr_ch /\ header x.2 = API_JOIN_APP_MSG /\ s32 (field 0 4 (data x.2)) = pid
  end.

(** The servers around the shell: the keys that were typed arrive in order, and each
    request is answered.  [installed] are the programs appmgr can start. *)
Class Terminal (W : Type) `{!Kernel W} := {
  typed : W -> list Z;
  requests : W -> list (Z * message);
  installed : list Z -> option Z;
  tm_pid : forall path pid, installed path = Some pid -> - 2 ^ 31 <= pid < 2 ^ 31;
  tm_buffer : forall b w, k_ipc_buffer (k_set_ipc_buffer b w) = b /\
    typed (k_set_ipc_buffer b w) = typed w /\ requests (k_set_ipc_buffer b w) = requests w;
  tm_recv : forall w k ks, typed w = k :: ks ->
    exists w', k_ipc gui_ch IPC_RECV w = Done (OK, w') /\ fits (k_ipc_buffer w') /\
      header (k_ipc_buffer w') = GUI_KEY_EVENT_MSG /\ field 0 1 (data (k_ipc_buffer w')) = k /\
      typed w' = ks /\ requests w' = requests w;
  tm_call : forall ch w, exists w', k_ipc ch (Z.lor IPC_SEND IPC_RECV) w = Done (OK, w') /\ fits (k_ipc_buffer w') /\
    typed w' = typed w /\ requests w' = requests w ++ [(ch, k_ipc_buffer w)] /\
    forall a, asks a (ch, k_ipc_buffer w) ->
      match a with
      | Put _ => header (k_ipc_buffer w') = GUI_CONSOLE_WRITE_REPLY_MSG
      | Start _ => header (k_ipc_buffer w') = API_START_APP_REPLY_MSG
      | Join_app _ => header (k_ipc_buffer w') = API_JOIN_APP_REPLY_MSG
      | Create path =>
          match installed path with
          | Some pid => header (k_ipc_buffer w') = API_CREATE_APP_REPLY_MSG /\ s32 (field 0 4 (data (k_ipc_buffer w'))) = pid
          | None => header (k_ipc_buffer w') = ERROR_TO_HEADER ERR_INVALID_MESSAGE
          end
      end
}.

(** The shell as a line editor: the line and a key give the new line and what is
    done. *)
Definition text_of (s : list Z) : list action := map Put (removelast s).
Definition edit (installed : list Z -> option Z) (line : list Z) (key : Z) : list Z * list action :=
  if key =? 0 then
    ([], [Put 10; Create line] ++
         match installed line with Some pid => [Start pid; Join_app pid] | None => text_of launch_error_text end ++
         text_of prompt_text)
  else if (0x20 <=? key) && (key <? 0x80) then
    if Nat.eqb (length line) 62 then ([], [Put key] ++ text_of too_long_text ++ text_of prompt_text)
    else (line ++ [key], [Put key])
  else (line, []).
Fixpoint edits (installed : list Z -> option Z) (line : list Z) (keys : list Z) : list Z * list action :=
  match keys with
  | [] => (line, [])
  | k :: keys =>
      let '(line1, a1) := edit installed line k in
      let '(line2, a2) := edits installed line1 keys in
      (line2, a1 ++ a2)
  end.

(** The array holds the line. *)
Definition holds (cmdline : list Z) (i : Z) (line : list Z) : Prop :=
  Z.of_nat (length cmdline) = CMDLINE_SIZE /\ i = Z.of_nat (length line) /\ (length line < 63)%nat /\
  take (length line) cmdline = line /\ Forall (fun c => c <> 0) line.

Lemma holds_nil cmdline : Z.of_nat (length cmdline) = CMDLINE_SIZE -> holds cmdline 0 [].
Proof. intros H. split; [done|]. split; [done|]. split; [simpl; lia|]. done. Qed.

Section Shell.
Context {W : Type} `{!Kernel W, !Terminal W}.
Context (m0 : message) (Hm0 : INLINE_PAYLOAD_LEN_MAX <= Z.of_nat (length (data m0))).

(** The requests that were made, and the keys that are left. *)
Definition did (acts : list action) (ks : list Z) (w w' : W) : Prop :=
  fits (k_ipc_buffer w') /\ typed w' = ks /\
  exists xs, requests w' = requests w ++ xs /\ Forall2 asks acts xs.

Lemma did_nil (w : W) : fits (k_ipc_buffer w) -> did [] (typed w) w w.
Proof. intros H. split; [done|]. split; [done|]. exists []. by rewrite app_nil_r. Qed.

Lemma did_app acts1 acts2 ks1 ks2 (w w1 w2 : W) : did acts1 ks1 w w1 -> did acts2 ks2 w1 w2 -> did (acts1 ++ acts2) ks2 w w2.
Proof.
  intros (_ & _ & xs1 & E1 & F1) (H & T & xs2 & E2 & F2). split; [done|]. split; [done|].
  exists (xs1 ++ xs2). split; [by rewrite E2, E1, app_assoc | by apply Forall2_app].
Qed.

Lemma asks_same a ch b m : same_message b m -> fits b -> fits m -> asks a (ch, m) -> asks a (ch, b).
Proof.
  intros Hs Hb Hm. pose proof Hs as (Eh & _ & _ & _ & _ & Ed). destruct a as [c|path|pid|pid]; cbn [asks fst snd]; intros (-> & E & H); rewrite Eh, E.
  - split; [done|]. split; [done|]. by rewrite (same_message_field b m) by (try done; rewrite E; vm_compute; discriminate).
  - split; [done|]. split; [done|].
    rewrite Eh, E in Ed. change (Z.to_nat (INLINE_PAYLOAD_LEN API_CREATE_APP_MSG)) with 128%nat in Ed. by rewrite Ed.
  - split; [done|]. split; [done|]. by rewrite (same_message_field b m) by (try done; rewrite E; vm_compute; discriminate).
  - split; [done|]. split; [done|]. by rewrite (same_message_field b m) by (try done; rewrite E; vm_compute; discriminate).
Qed.

(** A reply that is not an error. *)
Lemma post_receive_reply (w : W) r :
  fits (k_ipc_buffer w) -> INLINE_PAYLOAD_LEN_MAX <= Z.of_nat (length (data r)) ->
  0 <= s16 (Z.land (Z.shiftr (header (k_ipc_buffer w)) MSG_TYPE_OFFSET) 0xffff) ->
  exists r', post_receive_work OK r w = Done ((OK, r'), w) /\ same_message r' (k_ipc_buffer w) /\ fits r'.
Proof.
  intros Hb Hr Ht. destruct (copy_message_ok r (k_ipc_buffer w) Hr Hb) as (r' & E & Hs & Hl).
  exists r'. split; [|split; [done|]].
  - unfold post_receive_work, gets. change (OK =? OK) with true. unfold bind at 1. rewrite (proj2 (Z.ltb_ge _ _) Ht).
    unfold copy_from_ipc_buffer, gets, lift, bind. by rewrite E.
  - apply (same_message_fits r' _ Hs Hb). lia.
Qed.

(** A call: its error, and the pid that a reply to [Create] holds. *)
Lemma call_does (w : W) ch m a : fits (k_ipc_buffer w) -> fits m -> asks a (ch, m) ->
  exists err r w', call_stub ch m None w = Done ((err, r), w') /\ did [a] (typed w) w w' /\
    match a with
    | Create path =>
        match installed path with
        | Some pid => err = OK /\ s32 (field 0 4 (data r)) = pid
        | None => err = ERR_INVALID_MESSAGE
        end
    | _ => err = OK
    end.
Proof.
  intros Hb Hm Ha. destruct (copy_message_ok (k_ipc_buffer w) m (proj2 Hb) Hm) as (b & Ec & Hsame & Hlen).
  assert (Hfb : fits b) by (apply (same_message_fits b m Hsame Hm); destruct Hb; lia).
  destruct (tm_buffer b w) as (B1 & B2 & B3). destruct (tm_call ch (k_set_ipc_buffer b w)) as (w1 & E & Hf1 & T1 & R1 & Hreply).
  rewrite B1, B2, B3 in *. specialize (Hreply a (asks_same a ch b m Hsame Hfb Hm Ha)).
  assert (Hdid : did [a] (typed w) w w1).
  { split; [done|]. split; [done|]. exists [(ch, b)]. split; [done|]. constructor; [by apply (asks_same _ _ _ m) | constructor]. }
  assert (Hcall : forall err r, post_receive_work OK m w1 = Done ((err, r), w1) ->
    call_stub ch m None w = Done ((err, if negb (err =? OK) then m else r), w1)).
  { intros err r Ep. unfold call_stub. unfold bind at 1, ret at 1. unfold ipc_call, copy_to_ipc_buffer, gets, lift, modify.
    unfold bind. rewrite Ec. cbn [outcome_bind]. cbv beta iota. rewrite E. cbv beta iota. rewrite Ep. by destruct (Z.eqb_spec err OK) as [->|]. }
  assert (Hok : forall h, header (k_ipc_buffer w1) = h -> 0 <= s16 (Z.land (Z.shiftr h MSG_TYPE_OFFSET) 0xffff) ->
    exists r, call_stub ch m None w = Done ((OK, r), w1) /\ same_message r (k_ipc_buffer w1) /\ fits r).
  { intros h Hh Ht. destruct (post_receive_reply w1 m Hf1 (proj2 Hm)) as (r & Ep & Hs & Hr); [by rewrite Hh|].
    exists r. split; [exact (Hcall _ _ Ep) | done]. }
  destruct a as [c|path|pid|pid]; [| |destruct (Hok _ Hreply) as (r & Er & _); [vm_compute; discriminate|]; by exists OK, r, w1..].
  - destruct (Hok _ Hreply) as (r & Er & _); [vm_compute; discriminate|]. by exists OK, r, w1.
  - destruct (installed path) as [pid|].
    + destruct Hreply as [Hh Hpid]. destruct (Hok _ Hh) as (r & Er & Hs & Hr); [vm_compute; discriminate|].
      exists OK, r, w1. split; [done|]. split; [done|]. split; [done|]. rewrite <- Hpid. f_equal.
      apply same_message_field; try done. rewrite Hh. vm_compute. discriminate.
    + eexists ERR_INVALID_MESSAGE, _, w1. split; [|done]. apply Hcall. unfold post_receive_work, gets. change (OK =? OK) with true.
      unfold bind at 1. rewrite Hreply, error_type by (vm_compute; split; congruence). reflexivity.
Qed.

Lemma put_does (w : W) c : fits (k_ipc_buffer w) -> 0 <= c < 256 ->
  exists w', call_gui_console_write m0 gui_ch c w = Done (OK, w') /\ did [Put c] (typed w) w w'.
Proof.
  intros Hf Hc. destruct (call_does w gui_ch (make_request m0 GUI_CONSOLE_WRITE_MSG (set_field 0 1 c (data m0))) (Put c))
    as (err & r & w' & E & Hd & ->); [done | | |].
  - apply make_request_fits; [done | vm_compute; discriminate | apply length_set_field].
  - split; [done|]. split; [done|]. cbn [snd make_request data set_data].
    rewrite field_set_field by (unfold INLINE_PAYLOAD_LEN_MAX in Hm0; lia). by apply Z.mod_small.
  - exists w'. split; [|done]. unfold call_gui_console_write, call_unit. by rewrite (bind_intro _ _ _ _ _ _ E eq_refl).
Qed.

Lemma write_does l rest : forall (w : W), fits (k_ipc_buffer w) -> Forall (fun c => 0 < c < 256) l ->
  exists w', api_console_write m0 (l ++ 0 :: rest) w = Done (tt, w') /\ did (map Put l) (typed w) w w'.
Proof.
  induction l as [|c l IH]; intros w Hf Hl; [exists w; split; [done | by apply did_nil]|].
  apply Forall_cons in Hl as [Hc Hl]. destruct (put_does w c Hf) as (w1 & E1 & D1); [lia|]. pose proof D1 as (Hf1 & T1 & _).
  destruct (IH w1 Hf1 Hl) as (w2 & E2 & D2). rewrite T1 in D2. exists w2. split; [|exact (did_app [Put c] _ _ _ _ _ _ D1 D2)].
  cbn [api_console_write app]. rewrite (proj2 (Z.eqb_neq c 0)) by lia. unfold TRY_OR_PANIC, try_or.
  unfold bind at 1. change 2 with gui_ch. rewrite (bind_intro _ _ _ _ _ _ E1 eq_refl). exact E2.
Qed.

Definition is_text (s : list Z) : bool := (List.last s 0 =? 0) && forallb (fun c => (0 <? c) && (c <? 256)) (removelast s) && negb (length s =? 0)%nat.

Lemma text_does s (w : W) : is_text s = true -> fits (k_ipc_buffer w) ->
  exists w', api_console_write m0 s w = Done (tt, w') /\ did (text_of s) (typed w) w w'.
Proof.
  intros Hs Hf. unfold is_text in Hs. apply andb_true_iff in Hs as [Hs Hne]. apply andb_true_iff in Hs as [Hl Hall].
  apply Z.eqb_eq in Hl. destruct s as [|c s]; [done|].
  destruct (write_does (removelast (c :: s)) [] w Hf) as (w' & E & D).
  - apply Forall_forall. intros x Hx. rewrite forallb_forall in Hall. specialize (Hall x (proj1 (list_elem_of_In _ _) Hx)). zbool. lia.
  - exists w'. split; [|done]. rewrite <- E. f_equal. rewrite (app_removelast_last 0) at 1 by done. by rewrite Hl.
Qed.

(** The command is started and waited for, or an error is shown. *)
Lemma pid_request_does (w : W) h pid a : fits (k_ipc_buffer w) -> - 2 ^ 31 <= pid < 2 ^ 31 ->
  (a = Start pid /\ h = API_START_APP_MSG) \/ (a = Join_app pid /\ h = API_JOIN_APP_MSG) ->
  exists r w', call_stub appmgr_ch (make_request m0 h (set_field 0 4 pid (data m0))) None w = Done ((OK, r), w') /\ did [a] (typed w) w w'.
Proof.
  intros Hf Hp Ha. destruct (call_does w appmgr_ch (make_request m0 h (set_field 0 4 pid (data m0))) a) as (err & r & w' & E & D & He); [done | | |].
  - apply make_request_fits; [done | destruct Ha as [[_ ->]|[_ ->]]; vm_compute; discriminate | apply length_set_field].
  - assert (Hpid : s32 (field 0 4 (set_field 0 4 pid (data m0))) = pid).
    { rewrite field_set_field by (unfold INLINE_PAYLOAD_LEN_MAX in Hm0; lia). change (256 ^ Z.of_nat 4) with (2 ^ 32).
      unfold s32. rewrite Zplus_mod_idemp_l, Z.mod_small by lia. lia. }
    destruct Ha as [[-> ->]|[-> ->]]; (split; [done|]; split; [done|]; exact Hpid).
  - exists r, w'. split; [|done]. destruct Ha as [[-> _]|[-> _]]; by subst err.
Qed.

Lemma create_does (w : W) cmdline line : fits (k_ipc_buffer w) -> c_string cmdline line -> (length line < 127)%nat ->
  exists err pid w', call_api_create_app m0 appmgr_ch cmdline w = Done ((err, pid), w') /\ did [Create line] (typed w) w w' /\
    match installed line with Some p => err = OK /\ pid = p | None => err = ERR_INVALID_MESSAGE end.
Proof.
  intros Hf Hc Hl. assert (Hd : (128 <= length (data m0))%nat) by (unfold INLINE_PAYLOAD_LEN_MAX in Hm0; lia).
  pose proof (strcpy_s_correct (data m0) cmdline line SMALLSTRING_LEN_MAX Hc ltac:(unfold SMALLSTRING_LEN_MAX; lia) ltac:(unfold SMALLSTRING_LEN_MAX; lia)) as Es.
  change (Z.to_nat (SMALLSTRING_LEN_MAX - 1)) with 127%nat in Es. cbv zeta in Es. rewrite (Nat.min_l (length line)), firstn_all in Es by lia.
  set (d := line ++ 0 :: drop (Datatypes.S (length line)) (data m0)) in Es.
  destruct (call_does w appmgr_ch (make_request m0 API_CREATE_APP_MSG d) (Create line)) as (err & r & w' & E & D & He); [done | | |].
  - apply make_request_fits; [done | vm_compute; discriminate|]. unfold d. rewrite length_app. simpl. rewrite length_drop. lia.
  - split; [done|]. split; [done|]. cbn [snd make_request data set_data]. destruct Hc as (_ & _ & Hnz).
    eexists (take (127 - length line) _). split; [|done]. unfold d. rewrite take_app, take_ge by lia. f_equal.
    replace (128 - length line)%nat with (Datatypes.S (127 - length line)) by lia. reflexivity.
  - exists err, (s32 (field 0 4 (data r))), w'. split; [|split; [done|]; destruct (installed line); [|done]; by destruct He].
    unfold call_api_create_app. unfold bind at 1, lift. rewrite Es. cbn [outcome_bind]. by rewrite (bind_intro _ _ _ _ _ _ E eq_refl).
Qed.

Lemma run_does (w : W) cmdline line : fits (k_ipc_buffer w) -> c_string cmdline line -> (length line < 127)%nat ->
  exists w', shell_run m0 cmdline w = Done (tt, w') /\
    did (Create line :: match installed line with Some pid => [Start pid; Join_app pid] | None => text_of launch_error_text end) (typed w) w w'.
Proof.
  intros Hf Hc Hl. destruct (create_does w cmdline line Hf Hc Hl) as (err & pid & w1 & E1 & D1 & H).
  pose proof D1 as (Hf1 & T1 & _). unfold shell_run. rewrite (bind_intro _ _ _ _ _ _ E1 eq_refl).
  destruct (installed line) as [p|] eqn:Ei.
  - destruct H as [-> ->]. pose proof (tm_pid line p Ei) as Hp.
    destruct (pid_request_does w1 API_START_APP_MSG p (Start p) Hf1 Hp) as (r2 & w2 & E2 & D2); [by left|]. pose proof D2 as (Hf2 & T2 & _).
    destruct (pid_request_does w2 API_JOIN_APP_MSG p (Join_app p) Hf2 Hp) as (r3 & w3 & E3 & D3); [by right|].
    rewrite T1 in *. rewrite T2 in *. exists w3.
    split; [|exact (did_app [Create line] _ _ _ _ _ _ D1 (did_app [Start p] _ _ _ _ _ _ D2 D3))].
    assert (E2' : TRY_OR_PANIC (call_api_start_app m0 appmgr_ch p) w1 = Done (tt, w2)).
    { unfold TRY_OR_PANIC, try_or, call_api_start_app, call_unit. unfold bind at 1. by rewrite (bind_intro _ _ _ _ _ _ E2 eq_refl). }
    change (negb (OK =? OK)) with false. cbv iota. rewrite (bind_intro _ _ _ _ _ _ E2' eq_refl).
    unfold call_api_join_app. unfold bind at 1. by rewrite (bind_intro _ _ _ _ _ _ E3 eq_refl).
  - subst err. destruct (text_does launch_error_text w1 eq_refl Hf1) as (w2 & E2 & D2). rewrite T1 in D2.
    exists w2. split; [exact E2 | exact (did_app [Create line] _ _ _ _ _ _ D1 D2)].
Qed.

(** One key. *)
Lemma key_received (w : W) k ks : fits (k_ipc_buffer w) -> typed w = k :: ks ->
  exists m w', ipc_recv gui_ch m0 w = Done ((OK, m), w') /\ did [] ks w w' /\
    header m = GUI_KEY_EVENT_MSG /\ field 0 1 (data m) = k.
Proof.
  intros Hf Ht. destruct (tm_recv w k ks Ht) as (w' & E & Hf' & Hh & Hk & T & R).
  destruct (post_receive_reply w' m0 Hf' Hm0) as (m & Ep & Hs & Hfm); [rewrite Hh; vm_compute; discriminate|].
  exists m, w'. split; [unfold ipc_recv; rewrite (bind_intro _ _ _ _ _ _ E eq_refl); exact Ep|].
  split; [split; [done|]; split; [done|]; exists []; by rewrite R, app_nil_r|].
  pose proof Hs as (Eh & _). split; [congruence|].
  rewrite <- Hk. apply same_message_field; try done. rewrite Hh. vm_compute. discriminate.
Qed.

Lemma holds_set cmdline i line c : holds cmdline i line -> 
  arr_set cmdline i c = Some (<[Z.to_nat i := c]> cmdline) /\ take (Datatypes.S (length line)) (<[Z.to_nat i := c]> cmdline) = line ++ [c].
Proof.
  intros (Hl & -> & Hn & Ht & _). unfold CMDLINE_SIZE in Hl. rewrite arr_set_Some by lia. split; [done|].
  rewrite Nat2Z.id. erewrite take_S_r; [|by apply list_lookup_insert_eq; lia].
  f_equal. by rewrite take_insert_ge by lia.
Qed.

(** Back to a new prompt. *)
Lemma prompt_does fuel (w w0 : W) cmdline acts ks :
  did acts ks w0 w -> Z.of_nat (length cmdline) = CMDLINE_SIZE ->
  exists w', (api_console_write m0 prompt_text ;;; shell_loop m0 fuel cmdline 0) w = shell_loop m0 fuel cmdline 0 w' /\
    did (acts ++ text_of prompt_text) ks w0 w' /\ holds cmdline 0 [].
Proof.
  intros D Hl. pose proof D as (Hf & T & _). destruct (text_does prompt_text w eq_refl Hf) as (w' & E & D'). rewrite T in D'.
  exists w'. split; [by rewrite (bind_intro _ _ _ _ _ _ E eq_refl)|]. split; [exact (did_app _ _ _ _ _ _ _ D D') | by apply holds_nil].
Qed.

Lemma key_does fuel (w : W) cmdline i line k ks :
  fits (k_ipc_buffer w) -> typed w = k :: ks -> holds cmdline i line ->
  exists w' cmdline' i', shell_loop m0 (Datatypes.S fuel) cmdline i w = shell_loop m0 fuel cmdline' i' w' /\
    did (edit installed line k).2 ks w w' /\ holds cmdline' i' (edit installed line k).1.
Proof.
  intros Hf Ht Hh. destruct (key_received w k ks Hf Ht) as (m & w1 & E1 & D1 & Hm & Hk). pose proof D1 as (Hf1 & T1 & _).
  pose proof Hh as (Hl & Hi & Hn & Htk & Hnz). cbn [shell_loop]. rewrite (bind_intro _ _ _ _ _ _ E1 eq_refl).
  change (c_assert (OK =? OK)) with (ret (S := W) tt). unfold bind at 1, ret at 1. rewrite Hm, Hk, Z.eqb_refl. cbv beta iota zeta. unfold edit.
  destruct (Z.eqb_spec k 0) as [->|Hk0]; [|destruct ((0x20 <=? k) && (k <? 0x80)) eqn:Hp].
  - destruct (put_does w1 10 Hf1) as (w2 & E2 & D2); [lia|]. pose proof D2 as (Hf2 & T2 & _). rewrite T1 in *.
    destruct (holds_set cmdline i line 0 Hh) as [Es Et]. rewrite (bind_intro _ _ _ _ _ _ E2 eq_refl), Es. unfold bind at 1. cbn [need]. unfold ret at 1.
    destruct (run_does w2 (<[Z.to_nat i := 0]> cmdline) line Hf2) as (w3 & E3 & D3); [|lia|].
    { exists (drop (Datatypes.S (length line)) (<[Z.to_nat i := 0]> cmdline)). split; [|done].
      rewrite <- (take_drop (Datatypes.S (length line)) (<[Z.to_nat i := 0]> cmdline)) at 1. by rewrite Et, <- app_assoc. }
    rewrite T2 in *. rewrite (bind_intro _ _ _ _ _ _ E3 eq_refl).
    pose proof (did_app [] _ _ _ _ _ _ D1 (did_app [Put 10] _ _ _ _ _ _ D2 D3)) as D. 
    destruct (prompt_does fuel w3 w (<[Z.to_nat i := 0]> cmdline) _ _ D) as (w' & E & D' & H'); [by rewrite length_insert|].
    exists w', (<[Z.to_nat i := 0]> cmdline), 0. split; [exact E|]. split; [|exact H']. exact D'.
  - assert (Hkr : 0 <= k < 256) by (zbool; lia). destruct (put_does w1 k Hf1 Hkr) as (w2 & E2 & D2). pose proof D2 as (Hf2 & T2 & _). rewrite T1 in *.
    destruct (holds_set cmdline i line k Hh) as [Es Et]. rewrite (bind_intro _ _ _ _ _ _ E2 eq_refl), Es. unfold bind at 1. cbn [need]. unfold ret at 1.
    pose proof (did_app [] _ _ _ _ _ _ D1 D2) as D.
    replace (i + 1 =? CMDLINE_SIZE - 1) with (Nat.eqb (length line) 62)
      by (unfold CMDLINE_SIZE; destruct (Nat.eqb_spec (length line) 62), (Z.eqb_spec (i + 1) (64 - 1)); lia).
    destruct (Nat.eqb_spec (length line) 62) as [Hful|Hnf].
    + destruct (text_does too_long_text w2 eq_refl Hf2) as (w3 & E3 & D3). rewrite T2 in D3.
      rewrite (bind_intro _ _ _ _ _ _ E3 eq_refl).
      destruct (prompt_does fuel w3 w (<[Z.to_nat i := k]> cmdline) _ _ (did_app _ _ _ _ _ _ _ D D3)) as (w' & E & D' & H'); [by rewrite length_insert|].
      exists w', (<[Z.to_nat i := k]> cmdline), 0. split; [exact E|]. split; [|exact H']. exact D'.
    + exists w2, (<[Z.to_nat i := k]> cmdline), (i + 1). split; [done|]. split; [exact D|]. cbn [fst].
      split; [by rewrite length_insert|]. rewrite length_app. simpl. split; [lia|]. split; [lia|].
      rewrite Nat.add_1_r. split; [done|]. apply Forall_app. split; [done|]. by constructor.
  - exists w1, cmdline, i. split; [done|]. split; [exact D1 | exact Hh].
Qed.

End Shell.

(** C25: the shell as a line editor.  Whatever keys are typed, the shell shows the
    printable ones, and at the enter key it asks appmgr for the program with the
    typed name, starts it and waits for its end, or shows an error if there is no
    such program.  The command line is an array of 64 bytes: it is never written
    outside, and a line of 63 characters is dropped with an error. *)
Theorem shell_edits {W : Type} `{!Kernel W, !Terminal W} (m0 : message) (keys : list Z) (fuel : nat) (w : W)
    (cmdline : list Z) (i : Z) (line : list Z)
    (Hm0 : INLINE_PAYLOAD_LEN_MAX <= Z.of_nat (length (data m0))) (Hf : fits (k_ipc_buffer w))
    (Hk : typed w = keys) (Hh : holds cmdline i line) :
  exists w' cmdline' i' xs,
    shell_loop m0 (length keys + fuel) cmdline i w = shell_loop m0 fuel cmdline' i' w' /\
    holds cmdline' i' (edits installed line keys).1 /\ typed w' = [] /\
    requests w' = requests w ++ xs /\ Forall2 asks (edits installed line keys).2 xs.
Proof.
  assert (H : exists w' cmdline' i', shell_loop m0 (length keys + fuel) cmdline i w = shell_loop m0 fuel cmdline' i' w' /\
    did (edits installed line keys).2 [] w w' /\ holds cmdline' i' (edits installed line keys).1).
  { revert w cmdline i line Hf Hk Hh. induction keys as [|k keys IH]; intros w cmdline i line Hf Hk Hh.
    - exists w, cmdline, i. split; [done|]. split; [|done]. pose proof (did_nil w Hf) as D. rewrite Hk in D. exact D.
    - destruct (key_does m0 Hm0 (length keys + fuel) w cmdline i line k keys Hf Hk Hh) as (w1 & cmd1 & i1 & E1 & D1 & H1).
      cbn [edits]. destruct (edit installed line k) as [line1 a1]. pose proof D1 as (Hf1 & T1 & _).
      destruct (IH w1 cmd1 i1 line1 Hf1 T1 H1) as (w2 & cmd2 & i2 & E2 & D2 & H2).
      destruct (edits installed line1 keys) as [line2 a2]. exists w2, cmd2, i2.
      split; [cbn [length Nat.add]; by rewrite E1|]. split; [exact (did_app _ _ _ _ _ _ _ D1 D2) | done]. }
  destruct H as (w' & cmd' & i' & E & (_ & T & xs & R & F) & Hh'). exists w', cmd', i', xs. done.
Qed.

(** A terminal at which one program is installed. *)
Module TermBench.

Record term := Term { t_keys : list Z; t_buffer : message; t_requests : list (Z * message) }.
Definition message_of (h : Z) (d : list Z) : message := Message h 0 0 0 0 (d ++ replicate 2048 0).
Definition t_installed (path : list Z) : option Z := if decide (path = [104; 105]) then Some 7 else None.

Fixpoint string_of (s : list Z) : list Z :=
  match s with
  | [] => []
  | c :: s => if c =? 0 then [] else c :: string_of s
  end.

Lemma string_of_c_string s l : c_string s l -> string_of s = l.
Proof.
  intros (rest & -> & Hl). induction Hl as [|c l Hc _ IH]; [done|]. simpl.
  rewrite (proj2 (Z.eqb_neq c 0)) by done. by rewrite IH.
Qed.

Definition answer (m : message) : message :=
  if header m =? GUI_CONSOLE_WRITE_MSG then message_of GUI_CONSOLE_WRITE_REPLY_MSG []
  else if header m =? API_START_APP_MSG then message_of API_START_APP_REPLY_MSG []
  else if header m =? API_JOIN_APP_MSG then message_of API_JOIN_APP_REPLY_MSG []
  else
    match t_installed (string_of (take 128 (data m))) with
    | Some pid => message_of API_CREATE_APP_REPLY_MSG [pid; 0; 0; 0]
    | None => message_of (ERROR_TO_HEADER ERR_INVALID_MESSAGE) []
    end.

#[export] Instance term_kernel : Kernel term := {
  k_ipc_buffer := t_buffer;
  k_set_ipc_buffer b w := Term (t_keys w) b (t_requests w);
  k_set_page_base _ w := w;
  k_open := ret 1;
  k_close _ := ret 0;
  k_link _ _ := ret 0;
  k_transfer _ _ := ret 0;
  k_ipc ch ops w :=
    if ops =? IPC_RECV then
      match t_keys w with
      | k :: ks => Done (OK, Term ks (message_of GUI_KEY_EVENT_MSG [k]) (t_requests w))
      | [] => Fuel
      end
    else Done (OK, Term (t_keys w) (answer (t_buffer w)) (t_requests w ++ [(ch, t_buffer w)]))
}.

Lemma message_of_fits h d : INLINE_PAYLOAD_LEN h <= INLINE_PAYLOAD_LEN_MAX -> fits (message_of h d).
Proof. intros H. split; [done|]. unfold message_of. cbn [data]. rewrite length_app, length_replicate. unfold INLINE_PAYLOAD_LEN_MAX. lia. Qed.

Lemma answer_fits m : fits (answer m).
Proof. unfold answer. repeat case_match; apply message_of_fits; vm_compute; discriminate. Qed.

#[export, refine] Instance term_terminal : Terminal term := { typed := t_keys; requests := t_requests; installed := t_installed }.
Proof.
  - intros path pid. unfold t_installed. case_decide; [intros [= <-]; lia | done].
  - done.
  - intros w k ks E. cbn [k_ipc term_kernel]. change (IPC_RECV =? IPC_RECV) with true. cbv iota. rewrite E.
    eexists. split; [reflexivity|]. split; [apply message_of_fits; vm_compute; discriminate|]. split; [done|].
    split; [|done]. unfold field, load_le. simpl. lia.
  - intros ch w. eexists. split; [reflexivity|]. split; [apply answer_fits|]. split; [done|]. split; [done|].
    intros [c|path|pid|pid] (Hc & Hh & Hd); cbn [k_ipc_buffer term_kernel t_buffer fst snd] in *; unfold answer; rewrite Hh; try done.
    cbn [Z.eqb]. change (API_CREATE_APP_MSG =? GUI_CONSOLE_WRITE_MSG) with false.
    change (API_CREATE_APP_MSG =? API_START_APP_MSG) with false. change (API_CREATE_APP_MSG =? API_JOIN_APP_MSG) with false.
    cbv iota. rewrite (string_of_c_string _ _ Hd). unfold t_installed. by case_decide.
Defined.

End TermBench.
Import TermBench.

(** The keys h, i, escape and enter. *)
Lemma shell_edits_witness : exists w' cmdline' i' xs,
  shell_loop (message_of 0 []) 5 (replicate 64 0) 0 (Term [104; 105; 0x10; 0] (message_of 0 []) []) =
    shell_loop (message_of 0 []) 1 cmdline' i' w' /\
  Forall2 asks ([Put 104; Put 105; Put 10; Create [104; 105]; Start 7; Join_app 7] ++ text_of prompt_text) xs /\ requests w' = xs.
Proof.
  destruct (shell_edits (message_of 0 []) [104; 105; 0x10; 0] 1 (Term [104; 105; 0x10; 0] (message_of 0 []) []) (replicate 64 0) 0 [])
    as (w' & cmd' & i' & xs & E & _ & _ & R & F).
  - vm_compute. discriminate.
  - apply message_of_fits. vm_compute. discriminate.
  - reflexivity.
  - apply holds_nil. reflexivity.
  - exists w', cmd', i', xs. split; [exact E|]. split; [exact F | exact R].
Defined.
