(* ===== verification/Font.v ===== *)
(** * The font of the console

    [servers/gui/font.c]: 16 rows of 8 pixels for each of the first 128 characters, the
    leftmost pixel in the highest bit. *)
From S2P Require Import Prelude.

Definition font : list Z :=
  [0; 0; 0; 0; 0; 0; 0; 0; 0; 0; 0; 0; 0; 0; 0; 0;
   0; 0; 0; 0; 0; 0; 0; 0; 0; 0; 0; 0; 0; 0; 0; 0;
   0; 0; 0; 0; 0; 0; 0; 0; 0; 0; 0; 0; 0; 0; 0; 0;
   0; 0; 0; 0; 0; 0; 0; 0; 0; 0; 0; 0; 0; 0; 0; 0;
   0; 0; 0; 0; 0; 0; 0; 0; 0; 0; 0; 0; 0; 0; 0; 0;
   0; 0; 0; 0; 0; 0; 0; 0; 0; 0; 0; 0; 0; 0; 0; 0;
   0; 0; 0; 0; 0; 0; 0; 0; 0; 0; 0; 0; 0; 0; 0; 0;
   0; 0; 0; 0; 0; 0; 0; 0; 0; 0; 0; 0; 0; 0; 0; 0;
   0; 0; 0; 0; 0; 0; 0; 0; 0; 0; 0; 0; 0; 0; 0; 0;
   0; 0; 0; 0; 0; 0; 0; 0; 0; 0; 0; 0; 0; 0; 0; 0;
   0; 0; 0; 0; 0; 0; 0; 0; 0; 0; 0; 0; 0; 0; 0; 0;
   0; 0; 0; 0; 0; 0; 0; 0; 0; 0; 0; 0; 0; 0; 0; 0;
   0; 0; 0; 0; 0; 0; 0; 0; 0; 0; 0; 0; 0; 0; 0; 0;
   0; 0; 0; 0; 0; 0; 0; 0; 0; 0; 0; 0; 0; 0; 0; 0;
   0; 0; 0; 0; 0; 0; 0; 0; 0; 0; 0; 0; 0; 0; 0; 0;
   0; 0; 0; 0; 0; 0; 0; 0; 0; 0; 0; 0; 0; 0; 0; 0;
   0; 0; 0; 0; 0; 0; 0; 0; 0; 0; 0; 0; 0; 0; 0; 0;
   0; 0; 0; 0; 0; 0; 0; 0; 0; 0; 0; 0; 0; 0; 0; 0;
   0; 0; 0; 0; 0; 0; 0; 0; 0; 0; 0; 0; 0; 0; 0; 0;
   0; 0; 0; 0; 0; 0; 0; 0; 0; 0; 0; 0; 0; 0; 0; 0;
   0; 0; 0; 0; 0; 0; 0; 0; 0; 0; 0; 0; 0; 0; 0; 0;
   0; 0; 0; 0; 0; 0; 0; 0; 0; 0; 0; 0; 0; 0; 0; 0;
   0; 0; 0; 0; 0; 0; 0; 0; 0; 0; 0; 0; 0; 0; 0; 0;
   0; 0; 0; 0; 0; 0; 0; 0; 0; 0; 0; 0; 0; 0; 0; 0;
   0; 0; 0; 0; 0; 0; 0; 0; 0; 0; 0; 0; 0; 0; 0; 0;
   0; 0; 0; 0; 0; 0; 0; 0; 0; 0; 0; 0; 0; 0; 0; 0;
   0; 0; 0; 0; 0; 0; 0; 0; 0; 0; 0; 0; 0; 0; 0; 0;
   0; 0; 0; 0; 0; 0; 0; 0; 0; 0; 0; 0; 0; 0; 0; 0;
   0; 0; 0; 0; 0; 0; 0; 0; 0; 0; 0; 0; 0; 0; 0; 0;
   0; 0; 0; 0; 0; 0; 0; 0; 0; 0; 0; 0; 0; 0; 0; 0;
   0; 0; 0; 0; 0; 0; 0; 0; 0; 0; 0; 0; 0; 0; 0; 0;
   0; 0; 0; 0; 0; 0; 0; 0; 0; 0; 0; 0; 0; 0; 0; 0;
   0; 0; 0; 0; 0; 0; 0; 0; 0; 0; 0; 0; 0; 0; 0; 0;
   0; 0; 24; 24; 24; 24; 24; 24; 24; 24; 0; 24; 24; 0; 0; 0;
   0; 0; 102; 102; 102; 102; 0; 0; 0; 0; 0; 0; 0; 0; 0; 0;
   0; 0; 0; 0; 102; 102; 255; 102; 102; 102; 255; 102; 102; 102; 0; 0;
   24; 24; 126; 219; 219; 216; 216; 254; 31; 27; 27; 219; 222; 124; 24; 24;
   0; 0; 0; 0; 0; 225; 163; 230; 12; 24; 48; 103; 197; 135; 0; 0;
   0; 0; 60; 102; 102; 102; 60; 112; 217; 203; 206; 198; 206; 123; 0; 0;
   0; 0; 24; 24; 24; 24; 0; 0; 0; 0; 0; 0; 0; 0; 0; 0;
   0; 12; 24; 48; 96; 96; 96; 96; 96; 96; 96; 96; 48; 24; 12; 0;
   0; 48; 24; 12; 6; 6; 6; 6; 6; 6; 6; 6; 12; 24; 48; 0;
   0; 0; 0; 0; 0; 0; 102; 60; 255; 60; 102; 0; 0; 0; 0; 0;
   0; 0; 0; 0; 0; 0; 24; 24; 126; 24; 24; 0; 0; 0; 0; 0;
   0; 0; 0; 0; 0; 0; 0; 0; 0; 0; 0; 0; 48; 48; 96; 192;
   0; 0; 0; 0; 0; 0; 0; 0; 126; 0; 0; 0; 0; 0; 0; 0;
   0; 0; 0; 0; 0; 0; 0; 0; 0; 0; 0; 0; 48; 48; 0; 0;
   0; 0; 0; 0; 0; 1; 3; 6; 12; 24; 48; 96; 192; 128; 0; 0;
   0; 0; 126; 195; 195; 195; 227; 243; 219; 207; 199; 195; 195; 126; 0; 0;
   0; 0; 24; 56; 120; 24; 24; 24; 24; 24; 24; 24; 24; 255; 0; 0;
   0; 0; 60; 102; 195; 3; 3; 6; 12; 24; 48; 96; 195; 255; 0; 0;
   0; 0; 126; 195; 3; 3; 3; 62; 3; 3; 3; 3; 195; 126; 0; 0;
   0; 0; 12; 28; 60; 108; 204; 204; 204; 255; 12; 12; 12; 30; 0; 0;
   0; 0; 254; 192; 192; 192; 192; 254; 3; 3; 3; 3; 195; 126; 0; 0;
   0; 0; 60; 102; 192; 192; 192; 192; 254; 195; 195; 195; 195; 126; 0; 0;
   0; 0; 255; 195; 195; 3; 6; 12; 24; 48; 48; 48; 48; 48; 0; 0;
   0; 0; 126; 195; 195; 195; 195; 126; 195; 195; 195; 195; 195; 126; 0; 0;
   0; 0; 126; 195; 195; 195; 195; 127; 3; 3; 3; 195; 198; 124; 0; 0;
   0; 0; 0; 0; 24; 24; 0; 0; 0; 0; 0; 24; 24; 0; 0; 0;
   0; 0; 0; 0; 24; 24; 0; 0; 0; 0; 0; 24; 24; 48; 0; 0;
   0; 0; 0; 6; 12; 24; 48; 96; 192; 96; 48; 24; 12; 6; 0; 0;
   0; 0; 0; 0; 0; 0; 0; 126; 0; 0; 0; 126; 0; 0; 0; 0;
   0; 0; 0; 96; 48; 24; 12; 6; 3; 6; 12; 24; 48; 96; 0; 0;
   0; 0; 126; 195; 195; 195; 15; 24; 24; 24; 24; 0; 24; 24; 0; 0;
   0; 0; 124; 198; 195; 223; 223; 219; 219; 219; 223; 219; 192; 127; 0; 0;
   0; 0; 24; 60; 126; 231; 195; 195; 255; 195; 195; 195; 195; 195; 0; 0;
   0; 0; 254; 99; 99; 99; 99; 126; 99; 99; 99; 99; 99; 254; 0; 0;
   0; 0; 126; 227; 193; 192; 192; 192; 192; 192; 192; 193; 227; 126; 0; 0;
   0; 0; 252; 102; 99; 99; 99; 99; 99; 99; 99; 99; 102; 252; 0; 0;
   0; 0; 255; 99; 97; 96; 96; 100; 124; 100; 96; 97; 99; 255; 0; 0;
   0; 0; 255; 99; 97; 96; 96; 100; 124; 100; 96; 96; 96; 240; 0; 0;
   0; 0; 62; 99; 193; 192; 192; 192; 207; 195; 195; 195; 231; 125; 0; 0;
   0; 0; 195; 195; 195; 195; 195; 255; 195; 195; 195; 195; 195; 195; 0; 0;
   0; 0; 126; 24; 24; 24; 24; 24; 24; 24; 24; 24; 24; 126; 0; 0;
   0; 0; 62; 12; 12; 12; 12; 12; 12; 12; 12; 204; 204; 120; 0; 0;
   0; 0; 227; 99; 99; 102; 108; 120; 120; 108; 102; 99; 99; 227; 0; 0;
   0; 0; 248; 96; 96; 96; 96; 96; 96; 96; 96; 97; 99; 255; 0; 0;
   0; 0; 195; 231; 231; 255; 255; 219; 219; 195; 195; 195; 195; 195; 0; 0;
   0; 0; 195; 227; 227; 243; 243; 219; 223; 207; 199; 199; 195; 195; 0; 0;
   0; 0; 60; 102; 195; 195; 195; 195; 195; 195; 195; 195; 102; 60; 0; 0;
   0; 0; 254; 99; 99; 99; 99; 126; 96; 96; 96; 96; 96; 240; 0; 0;
   0; 0; 60; 102; 195; 195; 195; 195; 195; 195; 211; 219; 110; 62; 7; 3;
   0; 0; 254; 227; 99; 99; 99; 126; 108; 102; 99; 99; 99; 227; 0; 0;
   0; 0; 126; 195; 195; 192; 192; 254; 7; 3; 3; 195; 199; 126; 0; 0;
   0; 0; 255; 255; 153; 24; 24; 24; 24; 24; 24; 24; 24; 60; 0; 0;
   0; 0; 195; 195; 195; 195; 195; 195; 195; 195; 195; 195; 231; 126; 0; 0;
   0; 0; 195; 195; 195; 195; 195; 195; 195; 195; 195; 102; 60; 24; 0; 0;
   0; 0; 195; 195; 195; 195; 219; 219; 219; 219; 219; 219; 255; 102; 0; 0;
   0; 0; 195; 195; 102; 102; 60; 24; 24; 60; 102; 102; 195; 195; 0; 0;
   0; 0; 195; 195; 195; 195; 102; 60; 24; 24; 24; 24; 24; 24; 0; 0;
   0; 0; 255; 195; 131; 6; 12; 24; 48; 96; 192; 193; 195; 255; 0; 0;
   0; 0; 60; 48; 48; 48; 48; 48; 48; 48; 48; 48; 48; 60; 0; 0;
   0; 0; 0; 0; 0; 128; 192; 96; 48; 24; 12; 6; 3; 1; 0; 0;
   0; 0; 60; 12; 12; 12; 12; 12; 12; 12; 12; 12; 12; 60; 0; 0;
   16; 56; 108; 198; 0; 0; 0; 0; 0; 0; 0; 0; 0; 0; 0; 0;
   0; 0; 0; 0; 0; 0; 0; 0; 0; 0; 0; 0; 0; 255; 0; 0;
   0; 0; 24; 12; 6; 0; 0; 0; 0; 0; 0; 0; 0; 0; 0; 0;
   0; 0; 0; 0; 0; 0; 124; 6; 6; 126; 198; 198; 206; 123; 0; 0;
   0; 0; 224; 96; 96; 96; 120; 102; 99; 99; 99; 99; 103; 222; 0; 0;
   0; 0; 0; 0; 0; 0; 126; 227; 192; 192; 192; 192; 227; 126; 0; 0;
   0; 0; 7; 6; 6; 6; 30; 102; 198; 198; 198; 198; 230; 123; 0; 0;
   0; 0; 0; 0; 0; 0; 126; 227; 195; 255; 192; 192; 227; 126; 0; 0;
   0; 0; 30; 51; 49; 48; 252; 48; 48; 48; 48; 48; 48; 120; 0; 0;
   0; 0; 0; 0; 0; 0; 123; 206; 198; 198; 206; 126; 6; 6; 198; 124;
   0; 0; 224; 96; 96; 96; 110; 123; 99; 99; 99; 99; 99; 227; 0; 0;
   0; 0; 0; 24; 24; 0; 56; 24; 24; 24; 24; 24; 24; 60; 0; 0;
   0; 0; 0; 12; 12; 0; 28; 12; 12; 12; 12; 12; 12; 12; 220; 120;
   0; 0; 224; 96; 96; 99; 103; 108; 120; 120; 108; 102; 99; 227; 0; 0;
   0; 0; 56; 24; 24; 24; 24; 24; 24; 24; 24; 24; 24; 60; 0; 0;
   0; 0; 0; 0; 0; 0; 102; 255; 219; 219; 219; 219; 219; 195; 0; 0;
   0; 0; 0; 0; 0; 0; 220; 126; 99; 99; 99; 99; 99; 99; 0; 0;
   0; 0; 0; 0; 0; 0; 60; 102; 195; 195; 195; 195; 102; 60; 0; 0;
   0; 0; 0; 0; 0; 0; 222; 115; 99; 99; 99; 115; 126; 96; 96; 240;
   0; 0; 0; 0; 0; 0; 123; 206; 198; 198; 198; 206; 126; 6; 6; 15;
   0; 0; 0; 0; 0; 0; 222; 123; 99; 96; 96; 96; 96; 240; 0; 0;
   0; 0; 0; 0; 0; 0; 124; 198; 96; 56; 30; 6; 198; 124; 0; 0;
   0; 0; 0; 0; 48; 48; 252; 48; 48; 48; 48; 48; 51; 30; 0; 0;
   0; 0; 0; 0; 0; 0; 198; 198; 198; 198; 198; 198; 206; 123; 0; 0;
   0; 0; 0; 0; 0; 0; 195; 195; 195; 195; 195; 195; 102; 60; 0; 0;
   0; 0; 0; 0; 0; 0; 195; 195; 219; 219; 219; 219; 255; 102; 0; 0;
   0; 0; 0; 0; 0; 0; 195; 102; 60; 24; 24; 60; 102; 195; 0; 0;
   0; 0; 0; 0; 0; 0; 195; 195; 195; 195; 195; 127; 3; 6; 14; 252;
   0; 0; 0; 0; 0; 0; 255; 198; 12; 24; 48; 96; 195; 255; 0; 0;
   0; 14; 24; 24; 24; 24; 24; 24; 112; 24; 24; 24; 24; 24; 14; 0;
   0; 24; 24; 24; 24; 24; 24; 24; 24; 24; 24; 24; 24; 24; 24; 0;
   0; 112; 24; 24; 24; 24; 24; 24; 14; 24; 24; 24; 24; 24; 112; 0;
   0; 0; 0; 0; 0; 0; 0; 118; 220; 0; 0; 0; 0; 0; 0; 0;
   0; 0; 0; 0; 0; 0; 0; 0; 0; 0; 0; 0; 0; 0; 0; 0].
