(* ===== verification/Gui.v ===== *)
(** * The window server

    [servers/gui/main.c]: a text console on the framebuffer, and the keys for the
    active program. *)
From S2P Require Import Prelude Message Util Malloc UserIpc Driver Stubs Font.
Import Math Heap User Io Stubs.

Definition COLOR (r g b : Z) : Z := Z.lor (Z.lor (Z.shiftl r 16) (Z.shiftl g 8)) (Z.shiftl b 0).
Definition CONSOLE_NORMAL_COLOR : Z := COLOR 88 110 117.
Definition CONSOLE_BACKGROUND_COLOR : Z := COLOR 253 246 227.
Definition LINE_HEIGHT : Z := 16.
Definition CHAR_WIDTH : Z := 9.

(** The static variables, with those of [libs/libresea/malloc.c]; [g_vram] are the
    pixels the pointer [framebuffer.vram] points to. *)
Record gui := Gui {
  g_vram : list Z;
  g_width : Z;
  g_height : Z;
  g_bpp : Z;
  console_height : Z;
  console_width : Z;
  console_y : Z;
  console_x : Z;
  g_server_ch : Z;
  active_ch : Z;
  g_heap : heap
}.

Definition set_vram v (s : gui) : gui := Gui v (g_width s) (g_height s) (g_bpp s) (console_height s) (console_width s) (console_y s) (console_x s) (g_server_ch s) (active_ch s) (g_heap s).
Definition set_framebuffer v w h b (s : gui) : gui := Gui v w h b (console_height s) (console_width s) (console_y s) (console_x s) (g_server_ch s) (active_ch s) (g_heap s).
Definition set_console h w (s : gui) : gui := Gui (g_vram s) (g_width s) (g_height s) (g_bpp s) h w (console_y s) (console_x s) (g_server_ch s) (active_ch s) (g_heap s).
Definition set_console_pos y x (s : gui) : gui := Gui (g_vram s) (g_width s) (g_height s) (g_bpp s) (console_height s) (console_width s) y x (g_server_ch s) (active_ch s) (g_heap s).
Definition set_g_server_ch x (s : gui) : gui := Gui (g_vram s) (g_width s) (g_height s) (g_bpp s) (console_height s) (console_width s) (console_y s) (console_x s) x (active_ch s) (g_heap s).
Definition set_active_ch x (s : gui) : gui := Gui (g_vram s) (g_width s) (g_height s) (g_bpp s) (console_height s) (console_width s) (console_y s) (console_x s) (g_server_ch s) x (g_heap s).
Definition set_g_heap x (s : gui) : gui := Gui (g_vram s) (g_width s) (g_height s) (g_bpp s) (console_height s) (console_width s) (console_y s) (console_x s) (g_server_ch s) (active_ch s) x.

(** [for (i = ...; i < ...; i++)] with [n] rounds. *)
Fixpoint for_up {S} (n : nat) (i : Z) (body : Z -> M S unit) : M S unit :=
  match n with
  | O => ret tt
  | Datatypes.S n => body i ;;; for_up n (i + 1) body
  end.

(** ** The console

    The part of the server that has only its static variables as state. *)
Module Console.

(** [*pixel_at(y, x) = color] *)
Definition set_pixel (y x color : Z) : M gui unit :=
  s <- get ;;
  v <- need (arr_set (g_vram s) (y * g_width s + x) color) ;;
  put (set_vram v s).

Definition fill_rectangle (x y height width color : Z) : M gui unit :=
  s <- get ;;
  let y_max := Z.min (g_height s) (y + height) in
  let x_max := Z.min (g_width s) (x + width) in
  for_up (Z.to_nat (y_max - y)) y (fun y =>
    for_up (Z.to_nat (x_max - x)) x (fun i => set_pixel y i color)).

Definition draw_char (base_y base_x ch color : Z) : M gui unit :=
  if 0x80 <=? u32 ch then ret tt
  else
    for_up 16 0 (fun y =>
      row <- need (arr_get font (16 * ch + y)) ;;
      for_up 8 0 (fun x =>
        if truthy (Z.land row (Z.shiftl 1 (7 - x))) then set_pixel (base_y + y) (base_x + x) color else ret tt)).

(** [memcpy] of pixels; [bpp] is 32, so that a pixel has four bytes. *)
Definition copy_pixels (dst src n : Z) : M gui unit :=
  s <- get ;;
  l <- need (arr_read (g_vram s) src n) ;;
  v <- need (arr_write (g_vram s) dst l) ;;
  put (set_vram v s).

Definition scroll : M gui unit :=
  s <- get ;;
  let bytes_per_pixel := g_bpp s / 8 in
  let pixels_per_line := console_width s * CHAR_WIDTH * LINE_HEIGHT in
  let diff := console_y s - console_height s + 1 in
  for_up (Z.to_nat (console_height s - diff)) diff (fun from =>
    copy_pixels ((from - diff) * pixels_per_line) (from * pixels_per_line) (pixels_per_line * bytes_per_pixel / 4)) ;;;
  fill_rectangle 0 ((console_height s - diff) * pixels_per_line) pixels_per_line
    ((console_height s - diff) * LINE_HEIGHT) CONSOLE_BACKGROUND_COLOR ;;;
  modify (fun s => set_console_pos (console_height s - 1) (console_x s) s).

Definition console_write_char (ch color : Z) : M gui unit :=
  s <- get ;;
  (if (ch =? 10) || (console_width s <=? console_x s) then put (set_console_pos (console_y s + 1) 0 s) else ret tt) ;;;
  s <- get ;;
  (if console_height s <=? console_y s then scroll else ret tt) ;;;
  if negb (ch =? 10) && negb (ch =? 13) then
    s <- get ;;
    draw_char (LINE_HEIGHT * console_y s) (console_x s * CHAR_WIDTH) ch color ;;;
    modify (fun s => set_console_pos (console_y s) (console_x s + 1) s)
  else ret tt.

(** [text] up to its NUL. *)
Fixpoint draw_text (text : list Z) (color : Z) : M gui unit :=
  match text with
  | [] => undef
  | c :: text => if c =? 0 then ret tt else console_write_char c color ;;; draw_text text color
  end.

Definition console_init : M gui unit :=
  s <- get ;;
  c_assert (g_bpp s =? 32) ;;;
  put (set_console (g_height s / LINE_HEIGHT) (g_width s / CHAR_WIDTH) (set_console_pos 0 0 s)) ;;;
  fill_rectangle 0 0 (g_height s) (g_width s) CONSOLE_BACKGROUND_COLOR.

End Console.
Import Console.

(** ** The server *)

Module GuiServer.
Section Server.
Context {W : Type} `{!Kernel W}.
(** A message on the stack that was never written, and the pixels of the framebuffer
    mapped at an address. *)
Context (m0 : message) (video : Z -> list Z).
Local Abbreviation S := (W * gui)%type.

Definition on_console {A} (m : M gui A) : M S A := on_static id (fun v _ => v) m.
Definition g_valloc (num_pages : Z) : M S Z := on_static g_heap set_g_heap (valloc num_pages).

Definition handle_gui_console_write (m : message) : M S (Z * message) :=
  on_console (console_write_char (s8 (field 0 1 (data m))) CONSOLE_NORMAL_COLOR) ;;;
  ret (OK, set_header GUI_CONSOLE_WRITE_REPLY_MSG m).

Definition handle_gui_activate (m : message) : M S (Z * message) :=
  s <- statics ;;
  set_statics (set_active_ch (from m) s) ;;;
  ret (OK, set_header GUI_ACTIVATE_REPLY_MSG m).

Definition handle_keyinput_event (m : message) : M S (Z * message) :=
  let keycode := field 0 1 (data m) in
  s <- statics ;;
  (if truthy (active_ch s) then async_send_gui_key_event m0 (active_ch s) keycode ;;; ret tt else ret tt) ;;;
  ret (OK, set_header KEYBOARD_DRIVER_KEYINPUT_EVENT_REPLY_MSG m).

Definition handle_mouse_event (m : message) : M S (Z * message) := ret (DONT_REPLY, m).

Definition process_message (m : message) : M S (Z * message) :=
  if header m =? SERVER_CONNECT_MSG then s <- statics ;; handle_server_connect (g_server_ch s) m
  else if header m =? GUI_CONSOLE_WRITE_MSG then handle_gui_console_write m
  else if header m =? GUI_ACTIVATE_MSG then handle_gui_activate m
  else if header m =? KEYBOARD_DRIVER_KEYINPUT_EVENT_MSG then handle_keyinput_event m
  else if header m =? MOUSE_DRIVER_MOUSE_EVENT_MSG then handle_mouse_event m
  else ret (ERR_UNEXPECTED_MESSAGE, m).

(** A result that must be there. *)
Definition or_panic {A} (m : M S (Z * A)) : M S A :=
  let* (err, a) := m in if negb (err =? OK) then panic else ret a.

(** Connect to a driver and listen to it. *)
Definition listen (memmgr_ch server_ch interface : Z) (call_listen : Z -> Z -> M S Z) : M S unit :=
  ch <- or_panic (call_discovery_connect m0 memmgr_ch interface) ;;
  listener_ch <- or_panic open ;;
  TRY_OR_PANIC (k_transfer listener_ch server_ch) ;;;
  TRY_OR_PANIC (call_listen ch listener_ch).

Definition main (fuel : nat) : M S Z :=
  server_ch <- or_panic open ;;
  s <- statics ;;
  set_statics (set_g_server_ch server_ch s) ;;;
  let memmgr_ch := 1 in
  page_base <- g_valloc 4096 ;;
  fb <- or_panic (call_memmgr_get_framebuffer m0 memmgr_ch page_base) ;;
  let '(vram, width, height, bpp) := fb in
  s <- statics ;;
  set_statics (set_framebuffer (video vram) width height bpp s) ;;;
  on_console console_init ;;;
  listen memmgr_ch server_ch KEYBOARD_DRIVER_INTERFACE (call_keyboard_driver_listen m0) ;;;
  listen memmgr_ch server_ch MOUSE_DRIVER_INTERFACE (call_mouse_driver_listen m0) ;;;
  discovery_ch <- or_panic open ;;
  TRY_OR_PANIC (k_transfer discovery_ch server_ch) ;;;
  TRY_OR_PANIC (call_discovery_publicize m0 memmgr_ch GUI_INTERFACE discovery_ch) ;;;
  server_mainloop fuel m0 server_ch process_message.

End Server.
End GuiServer.
Import GuiServer.

(** ** What is on the screen *)

(** The pixel at row [y] and column [x]. *)
Definition pixel (s : gui) (y x : Z) : option Z := arr_get (g_vram s) (y * g_width s + x).

(** [s'] is [s] with the pixels in [P] set to [c]. *)
Record painted (P : Z -> Z -> bool) (c : Z) (s s' : gui) : Prop := {
  pt_pixel : forall y x, 0 <= x < g_width s -> 0 <= y < g_height s ->
    pixel s' y x = if P y x then Some c else pixel s y x;
  pt_rest : s' = set_vram (g_vram s') s;
  pt_size : length (g_vram s') = length (g_vram s)
}.

(** The framebuffer has a pixel for every row and column. *)
Record screen_ok (s : gui) : Prop := {
  so_size : Z.of_nat (length (g_vram s)) = g_height s * g_width s;
  so_width : 0 <= g_width s;
  so_height : 0 <= g_height s
}.

Lemma painted_ok P c s s' : painted P c s s' -> screen_ok s -> screen_ok s'.
Proof. intros [_ E L] [A B C]. rewrite E. constructor; simpl; [by rewrite L | done | done]. Qed.

Lemma painted_none c s : painted (fun _ _ => false) c s s.
Proof. constructor; [done | by destruct s | done]. Qed.

Lemma painted_trans P Q c s s1 s2 : painted P c s s1 -> painted Q c s1 s2 -> painted (fun y x => Q y x || P y x) c s s2.
Proof.
  intros [A1 E1 L1] [A2 E2 L2]. assert (Ew : g_width s1 = g_width s) by (by rewrite E1). assert (Eh : g_height s1 = g_height s) by (by rewrite E1).
  constructor; [|rewrite E2, E1; by destruct s | congruence].
  intros y x Hx Hy. rewrite A2 by (by rewrite ?Ew, ?Eh). destruct (Q y x); [done|]. by rewrite A1.
Qed.

Lemma painted_ext P Q c s s' : (forall y x, 0 <= x < g_width s -> 0 <= y < g_height s -> P y x = Q y x) -> painted P c s s' -> painted Q c s s'.
Proof. intros H [A E L]. constructor; [|done|done]. intros y x Hx Hy. rewrite <- H by done. by apply A. Qed.

Lemma pixel_index w y x y' x' : 0 <= x < w -> 0 <= x' < w -> y * w + x = y' * w + x' -> y = y' /\ x = x'.
Proof.
  intros Hx Hx' E. assert (y = y'); [|subst; lia].
  transitivity ((y * w + x) / w); [apply (Z.div_unique _ _ _ x); lia|]. rewrite E. symmetry. apply (Z.div_unique _ _ _ x'); lia.
Qed.

Lemma set_pixel_ok s y x c : screen_ok s -> 0 <= x < g_width s -> 0 <= y < g_height s ->
  exists s', set_pixel y x c s = Done (tt, s') /\ painted (fun y' x' => (y' =? y) && (x' =? x)) c s s'.
Proof.
  intros [Hs _ _] Hx Hy. assert (Hi : 0 <= y * g_width s + x < Z.of_nat (length (g_vram s))) by (rewrite Hs; nia).
  eexists. split; [unfold set_pixel, bind, get; rewrite arr_set_Some by done; reflexivity|].
  constructor; [|by destruct s | cbn [g_vram set_vram]; by rewrite length_insert].
  intros y' x' Hx' Hy'. unfold pixel, arr_get. cbn [g_vram g_width set_vram].
  assert (0 <= y' * g_width s + x') by nia. destruct (Z.ltb_spec (y' * g_width s + x') 0); [lia|].
  destruct (Z.eqb_spec y' y) as [->|Hy0]; [destruct (Z.eqb_spec x' x) as [->|Hx0]|]; cbn [andb].
  - apply list_lookup_insert_eq. lia.
  - apply list_lookup_insert_ne. intros E. apply Hx0. lia.
  - apply list_lookup_insert_ne. intros E. apply Hy0, (pixel_index (g_width s) y' x' y x); lia.
Qed.

(** A loop of paintings. *)
Definition some_up (n : nat) (i : Z) (P : Z -> Z -> Z -> bool) (y x : Z) : bool := existsb (fun k => P k y x) (seqZ i (Z.of_nat n)).

Lemma for_up_painted n : forall i (body : Z -> M gui unit) (P : Z -> Z -> Z -> bool) c s, screen_ok s ->
  (forall k s0, i <= k < i + Z.of_nat n -> screen_ok s0 -> g_width s0 = g_width s -> g_height s0 = g_height s ->
     exists s1, body k s0 = Done (tt, s1) /\ painted (P k) c s0 s1) ->
  exists s', for_up n i body s = Done (tt, s') /\ painted (some_up n i P) c s s'.
Proof.
  induction n as [|n IH]; intros i body P c s Hs Hb; [exists s; split; [done | apply painted_none]|].
  destruct (Hb i s) as (s1 & E1 & P1); [lia | done..|]. pose proof P1 as [_ Es1 _].
  assert (Ew : g_width s1 = g_width s) by (by rewrite Es1). assert (Eh : g_height s1 = g_height s) by (by rewrite Es1).
  destruct (IH (i + 1) body P c s1) as (s2 & E2 & P2).
  - by apply (painted_ok _ _ _ _ P1).
  - intros k s0 Hk Hs0 Ew0 Eh0. apply Hb; [lia | done | congruence | congruence].
  - exists s2. cbn [for_up]. split; [by rewrite (bind_intro _ _ _ _ _ _ E1 eq_refl)|].
    eapply painted_ext; [|exact (painted_trans _ _ _ _ _ _ P1 P2)]. intros y x _ _. unfold some_up.
    rewrite (seqZ_cons i) by lia. replace (Z.pred (Z.of_nat (Datatypes.S n))) with (Z.of_nat n) by lia. cbn [existsb].
    by rewrite orb_comm.
Qed.

(** When one round at most paints a pixel. *)
Lemma some_up_at f n i P y x Q :
  (forall k, i <= k < i + Z.of_nat n -> P k y x = (f =? k) && Q) -> (Q = true -> i <= f < i + Z.of_nat n) -> some_up n i P y x = Q.
Proof.
  intros HP HQ. unfold some_up. apply eq_true_iff_eq. rewrite existsb_exists. setoid_rewrite <- list_elem_of_In.
  setoid_rewrite elem_of_seqZ. split.
  - intros (k & Hk & H). rewrite HP in H by lia. by apply andb_true_iff in H as [_ H].
  - intros H. exists f. rewrite HP, Z.eqb_refl, H by (apply HQ; done). split; [by apply HQ | done].
Qed.

Lemma fill_rectangle_ok s x y height width c : screen_ok s -> 0 <= x -> 0 <= y ->
  exists s', fill_rectangle x y height width c s = Done (tt, s') /\
    painted (fun y' x' => (y <=? y') && (y' <? y + height) && (x <=? x') && (x' <? x + width)) c s s'.
Proof.
  intros Hs Hx Hy. unfold fill_rectangle, bind, get.
  destruct (for_up_painted (Z.to_nat (Z.min (g_height s) (y + height) - y)) y
    (fun y0 => for_up (Z.to_nat (Z.min (g_width s) (x + width) - x)) x (fun i => set_pixel y0 i c))
    (fun k y' x' => (y' =? k) && (x <=? x') && (x' <? x + width)) c s Hs) as (s' & E & P).
  - intros k s0 Hk Hs0 Ew Eh.
    destruct (for_up_painted (Z.to_nat (Z.min (g_width s) (x + width) - x)) x (fun i => set_pixel k i c)
      (fun i y' x' => (y' =? k) && (x' =? i)) c s0 Hs0) as (s1 & E1 & P1).
    + intros i s2 Hi Hs2 Ew2 Eh2. apply set_pixel_ok; [done | lia | lia].
    + exists s1. split; [done|]. eapply painted_ext; [|exact P1]. intros y' x' Hx' Hy'.
      apply (some_up_at x'); [|intros H; zbool; lia]. intros i Hi. apply eq_true_iff_eq.
      rewrite !andb_true_iff, !Z.eqb_eq, Z.leb_le, Z.ltb_lt. lia.
  - exists s'. split; [exact E|]. eapply painted_ext; [|exact P]. intros y' x' Hx' Hy'.
    apply (some_up_at y'); [|intros H; zbool; lia]. intros i Hi. apply eq_true_iff_eq.
    rewrite !andb_true_iff, !Z.eqb_eq, !Z.leb_le, !Z.ltb_lt. lia.
Qed.

(** The pixels of a character. *)
Definition glyph (ch y x : Z) : bool :=
  (0 <=? y) && (y <? 16) && (0 <=? x) && (x <? 8) &&
  match arr_get font (16 * ch + y) with Some row => truthy (Z.land row (Z.shiftl 1 (7 - x))) | None => false end.

Lemma font_row ch y : 0 <= ch < 128 -> 0 <= y < 16 -> exists row, arr_get font (16 * ch + y) = Some row.
Proof. intros Hc Hy. apply arr_get_is_Some. replace (Z.of_nat (length font)) with 2048 by (vm_compute; reflexivity). lia. Qed.

Definition ascii (ch : Z) : bool := (0 <=? ch) && (ch <? 128).

Lemma ascii_test ch : - 128 <= ch < 128 -> (0x80 <=? u32 ch) = negb (ascii ch).
Proof.
  intros Hc. unfold ascii, u32. rewrite (proj2 (Z.ltb_lt ch 128)), andb_true_r by lia. destruct (Z.leb_spec 0 ch).
  - rewrite Z.mod_small by lia. apply Z.leb_gt. lia.
  - rewrite <- (Z_mod_plus_full ch 1), Z.mod_small by lia. apply Z.leb_le. lia.
Qed.

Lemma draw_char_ok s base_y base_x ch c : screen_ok s -> - 128 <= ch < 128 ->
  0 <= base_y -> base_y + 16 <= g_height s -> 0 <= base_x -> base_x + 8 <= g_width s ->
  exists s', draw_char base_y base_x ch c s = Done (tt, s') /\
    painted (fun y x => ascii ch && glyph ch (y - base_y) (x - base_x)) c s s'.
Proof.
  intros Hs Hc Hy Hy' Hx Hx'. unfold draw_char. rewrite ascii_test by done.
  destruct (ascii ch) eqn:Ha; cbn [negb andb]; [|exists s; split; [done | apply painted_none]].
  assert (Hch : 0 <= ch < 128) by (unfold ascii in Ha; zbool; lia).
  match goal with |- context [for_up 16 0 ?b] => destruct (for_up_painted 16 0 b
    (fun k y x => (y - base_y =? k) && glyph ch (y - base_y) (x - base_x)) c s Hs) as (s' & E & P) end.
  - intros k s0 Hk Hs0 Ew Eh. destruct (font_row ch k Hch) as [row Er]; [lia|]. unfold bind at 1. rewrite Er. cbn [need].
    unfold ret at 1.
    match goal with |- context [for_up 8 0 ?b] => destruct (for_up_painted 8 0 b
      (fun i y x => (y - base_y =? k) && (x - base_x =? i) && glyph ch (y - base_y) (x - base_x)) c s0 Hs0) as (s1 & E1 & P1) end.
    + intros i s2 Hi Hs2 Ew2 Eh2. destruct (truthy (Z.land row (Z.shiftl 1 (7 - i)))) eqn:Eb.
      * destruct (set_pixel_ok s2 (base_y + k) (base_x + i) c Hs2) as (s3 & E3 & P3); [lia | lia |].
        exists s3. split; [done|]. eapply painted_ext; [|exact P3]. intros y x _ _. apply eq_true_iff_eq.
        rewrite !andb_true_iff, !Z.eqb_eq. split; [|lia]. intros [-> ->]. replace (base_y + k - base_y) with k by lia.
        replace (base_x + i - base_x) with i by lia. split; [done|]. unfold glyph. rewrite Er, Eb, !andb_true_r.
        rewrite !andb_true_iff, !Z.leb_le, !Z.ltb_lt. lia.
      * exists s2. split; [done|]. eapply painted_ext; [|apply painted_none]. intros y x _ _. symmetry.
        destruct (Z.eqb_spec (y - base_y) k) as [->|]; [|done]. destruct (Z.eqb_spec (x - base_x) i) as [->|]; [|done].
        unfold glyph. rewrite Er, Eb. apply andb_false_r.
    + exists s1. split; [exact E1|]. eapply painted_ext; [|exact P1]. intros y x _ _.
      apply (some_up_at (x - base_x)); [intros i _; rewrite <- andb_assoc, !andb_assoc; f_equal; apply andb_comm|].
      intros H. zbool. unfold glyph in H0. zbool. lia.
  - exists s'. split; [exact E|]. eapply painted_ext; [|exact P]. intros y x _ _.
    apply (some_up_at (y - base_y)); [done|]. intros H. unfold glyph in H. zbool. lia.
Qed.

(** ** The console *)

(** A console with at least one character on a framebuffer of 32 bits per pixel. *)
Record console_ok (s : gui) : Prop := {
  co_screen : screen_ok s;
  co_bpp : g_bpp s = 32;
  co_height : console_height s = g_height s / LINE_HEIGHT;
  co_width : console_width s = g_width s / CHAR_WIDTH;
  co_rows : 1 <= console_height s;
  co_cols : 1 <= console_width s;
  co_y : 0 <= console_y s < console_height s;
  co_x : 0 <= console_x s <= console_width s
}.

Lemma console_sizes s : console_ok s ->
  16 * console_height s <= g_height s < 16 * console_height s + 16 /\ 9 * console_width s <= g_width s < 9 * console_width s + 9.
Proof. intros [_ _ Hh Hw _ _ _ _]. unfold LINE_HEIGHT, CHAR_WIDTH in *. rewrite Hh, Hw. Z.div_mod_to_equations. lia. Qed.

Lemma for_up_nothing {S} n : forall i (body : Z -> M S unit) s, (forall k s0, body k s0 = Done (tt, s0)) -> for_up n i body s = Done (tt, s).
Proof. induction n as [|n IH]; intros i body s H; [done|]. cbn [for_up]. rewrite (bind_intro _ _ _ _ _ _ (H i s) eq_refl). by apply IH. Qed.

(** The lines from [from] on are copied to the line above. *)
Lemma copy_lines_ok n : forall from s p, 1 <= from -> 0 <= p -> (from + Z.of_nat n) * p <= Z.of_nat (length (g_vram s)) ->
  exists v, for_up n from (fun from => copy_pixels ((from - 1) * p) (from * p) p) s = Done (tt, set_vram v s) /\
    length v = length (g_vram s) /\
    forall j, arr_get v j = if ((from - 1) * p <=? j) && (j <? (from - 1 + Z.of_nat n) * p) then arr_get (g_vram s) (j + p)
                            else arr_get (g_vram s) j.
Proof.
  induction n as [|n IH]; intros from s p Hf Hp Hlen.
  { exists (g_vram s). split; [by destruct s|]. split; [done|]. intros j.
    destruct (Z.leb_spec ((from - 1) * p) j), (Z.ltb_spec j ((from - 1 + Z.of_nat 0) * p)); simpl; try done. lia. }
  destruct (arr_read_spec (g_vram s) (from * p) p) as (l & El & Hl & Hgl); [nia | lia | nia|].
  destruct (arr_write_spec (g_vram s) l ((from - 1) * p)) as (v1 & E1 & Hv1 & Hg1); [nia | nia|].
  destruct (IH (from + 1) (set_vram v1 s) p) as (v & E & Hv & Hg); [lia | lia | simpl g_vram; rewrite Hv1; lia|].
  assert (Ec : copy_pixels ((from - 1) * p) (from * p) p s = Done (tt, set_vram v1 s))
    by (unfold copy_pixels, bind, get; rewrite El; cbn [need]; unfold ret; by rewrite E1).
  exists v. cbn [for_up]. split; [rewrite (bind_intro _ _ _ _ _ _ Ec eq_refl), E; by destruct s|]. split; [rewrite Hv; exact Hv1|].
  intros j. rewrite Hg. cbn [g_vram set_vram]. rewrite !Hg1, Hl. replace ((from + 1 - 1) * p) with (from * p) by lia.
  destruct (Z.leb_spec (from * p) j), (Z.ltb_spec j ((from + 1 - 1 + Z.of_nat n) * p)),
      (Z.leb_spec ((from - 1) * p) (j + p)), (Z.ltb_spec (j + p) ((from - 1) * p + p)),
      (Z.leb_spec ((from - 1) * p) j), (Z.ltb_spec j ((from - 1) * p + p)),
      (Z.ltb_spec j ((from - 1 + Z.of_nat (Datatypes.S n)) * p)); cbn [andb]; try nia; try done;
      rewrite Hgl by lia; f_equal; lia.
Qed.

(** Scrolling moves the pixels of the lines below the first one up, and clears
    nothing. *)
Lemma gui_scroll_ok s : console_ok (set_console_pos (console_height s - 1) 0 s) -> console_y s = console_height s -> console_x s = 0 ->
  let p := console_width s * 144 in
  exists v, scroll s = Done (tt, set_console_pos (console_height s - 1) 0 (set_vram v s)) /\ length v = length (g_vram s) /\
    forall j, arr_get v j = if (0 <=? j) && (j <? (console_height s - 1) * p) then arr_get (g_vram s) (j + p) else arr_get (g_vram s) j.
Proof.
  intros Hc Hy Hx p. pose proof (console_sizes _ Hc) as [Hh Hw]. destruct Hc as [[Hs _ _] Hb _ _ Hr Hcol _ _].
  cbn [g_vram g_height g_width g_bpp console_height console_width set_console_pos] in *.
  unfold scroll. unfold bind at 1. unfold get at 1. rewrite Hb. replace (console_y s - console_height s + 1) with 1 by lia.
  replace (console_width s * CHAR_WIDTH * LINE_HEIGHT) with p by (unfold p, CHAR_WIDTH, LINE_HEIGHT; lia).
  change (32 / 8) with 4. rewrite Z.div_mul by lia.
  destruct (copy_lines_ok (Z.to_nat (console_height s - 1)) 1 s p) as (v & E & Hv & Hg); [lia | lia | rewrite Hs; unfold p; nia|].
  exists v. rewrite (bind_intro _ _ _ _ _ _ E eq_refl). split; [|split; [done|]].
  - assert (Ef : fill_rectangle 0 ((console_height s - 1) * p) p ((console_height s - 1) * LINE_HEIGHT) CONSOLE_BACKGROUND_COLOR (set_vram v s)
      = Done (tt, set_vram v s)).
    { unfold fill_rectangle. unfold bind at 1. unfold get at 1. destruct (Z.eq_dec (console_height s) 1) as [E1|].
      - apply for_up_nothing. intros y s0. rewrite E1. replace (Z.to_nat _) with 0%nat; [done | unfold LINE_HEIGHT; lia].
      - replace (Z.to_nat _) with 0%nat; [done|]. cbn [g_height set_vram]. unfold p in *. nia. }
    rewrite (bind_intro _ _ _ _ _ _ Ef eq_refl). unfold modify. destruct s. simpl in *. by subst.
  - intros j. rewrite Hg. replace ((1 - 1) * p) with 0 by lia.
    by replace (1 - 1 + Z.of_nat (Z.to_nat (console_height s - 1))) with (console_height s - 1) by lia.
Qed.

(** One character. *)
Definition feed (s : gui) (ch : Z) : gui :=
  if (ch =? 10) || (console_width s <=? console_x s) then set_console_pos (console_y s + 1) 0 s else s.

Lemma console_ok_at s v y x : console_ok s -> length v = length (g_vram s) ->
  0 <= y < console_height s -> 0 <= x <= console_width s -> console_ok (set_console_pos y x (set_vram v s)).
Proof. intros [[A B C] D E F G H I J] Hv Hy Hx. constructor; try done. constructor; simpl; [by rewrite Hv | done | done]. Qed.

Lemma feed_ok s ch : console_ok s ->
  exists s1, (if console_height (feed s ch) <=? console_y (feed s ch) then scroll else ret tt) (feed s ch) = Done (tt, s1) /\
    console_ok s1 /\ console_x s1 < console_width s1 /\ (console_y (feed s ch) < console_height s -> s1 = feed s ch) /\
    g_width s1 = g_width s /\ g_height s1 = g_height s.
Proof.
  intros Hc. pose proof Hc as [_ _ _ _ Hr Hcol Hy Hx]. unfold feed.
  destruct ((ch =? 10) || (console_width s <=? console_x s)) eqn:Ef; cbn [console_height console_y set_console_pos].
  - destruct (Z.leb_spec (console_height s) (console_y s + 1)) as [Hb|Hb].
    + destruct (gui_scroll_ok (set_console_pos (console_y s + 1) 0 s)) as (v & E & Hv & _); [|simpl; lia | done|].
      { replace s with (set_vram (g_vram s) s) by (by destruct s). apply (console_ok_at s); simpl; [done | done | lia | lia]. }
      eexists. split; [exact E|]. split; [|simpl; split; [lia | split; [lia | done]]].
      apply (console_ok_at s); simpl; [done | exact Hv | lia | lia].
    + eexists. split; [reflexivity|]. split; [|simpl; split; [lia | done]].
      replace s with (set_vram (g_vram s) s) at 2 by (by destruct s). apply (console_ok_at s); simpl; [done | done | lia | lia].
  - apply orb_false_iff in Ef as [_ Ef]. apply Z.leb_gt in Ef. rewrite (proj2 (Z.leb_gt _ _)) by lia. by exists s.
Qed.

Lemma write_char_ok s ch c : console_ok s -> - 128 <= ch < 128 ->
  exists s1 s', console_write_char ch c s = Done (tt, s') /\ console_ok s' /\ g_width s' = g_width s /\ g_height s' = g_height s /\
    (console_y (feed s ch) < console_height s -> s1 = feed s ch) /\
    if (ch =? 10) || (ch =? 13) then s' = s1
    else exists s2, painted (fun y x => ascii ch && glyph ch (y - LINE_HEIGHT * console_y s1) (x - console_x s1 * CHAR_WIDTH)) c s1 s2 /\
      s' = set_console_pos (console_y s1) (console_x s1 + 1) s2.
Proof.
  intros Hc Hch. unfold console_write_char. unfold bind at 1. unfold get at 1.
  assert (Ef : (if (ch =? 10) || (console_width s <=? console_x s) then put (set_console_pos (console_y s + 1) 0 s) else ret tt) s
    = Done (tt, feed s ch)) by (unfold feed; by destruct ((ch =? 10) || _)).
  rewrite (bind_intro _ _ _ _ _ _ Ef eq_refl). unfold bind at 1. unfold get at 1.
  destruct (feed_ok s ch Hc) as (s1 & E1 & Hc1 & Hx1 & Hs1 & Hw1 & Hh1). rewrite (bind_intro _ _ _ _ _ _ E1 eq_refl). exists s1.
  rewrite <- negb_orb. destruct ((ch =? 10) || (ch =? 13)) eqn:En; cbn [negb]; [by exists s1|].
  pose proof (console_sizes s1 Hc1) as [Hh Hw]. pose proof Hc1 as [Hs _ _ _ Hr Hcol Hy Hx].
  destruct (draw_char_ok s1 (LINE_HEIGHT * console_y s1) (console_x s1 * CHAR_WIDTH) ch c Hs Hch) as (s2 & E2 & P);
    [unfold LINE_HEIGHT, CHAR_WIDTH; nia..|].
  pose proof P as [_ Es2 Hl2]. exists (set_console_pos (console_y s1) (console_x s1 + 1) s2). split; [|split; [|rewrite <- Hw1, <- Hh1, Es2; split; [done|split; [done|split; [done|by exists s2; rewrite <- Es2]]]]].
  - unfold bind at 1. unfold get at 1. rewrite (bind_intro _ _ _ _ _ _ E2 eq_refl). unfold modify. rewrite Es2. by destruct s1.
  - rewrite Es2. apply (console_ok_at s1); [done | done | lia | lia].
Qed.

(** Where a text goes: the row and the column of each character. *)
Fixpoint layout (cols y x : Z) (text : list Z) : list (Z * Z * Z) * Z :=
  match text with
  | [] => ([], y)
  | ch :: text =>
      let '(y, x) := if (ch =? 10) || (cols <=? x) then (y + 1, 0) else (y, x) in
      if (ch =? 10) || (ch =? 13) then layout cols y x text
      else let '(cells, last) := layout cols y (x + 1) text in ((y, x, ch) :: cells, last)
  end.
Definition inked (cells : list (Z * Z * Z)) (y x : Z) : bool :=
  existsb (fun '(row, col, ch) => ascii ch && glyph ch (y - LINE_HEIGHT * row) (x - col * CHAR_WIDTH)) cells.

Lemma layout_mono cols text : forall y x, y <= (layout cols y x text).2.
Proof.
  induction text as [|ch text IH]; intros y x; [done|]. cbn [layout].
  destruct ((ch =? 10) || (cols <=? x)); (destruct ((ch =? 10) || (ch =? 13));
    [pose proof (IH (y + 1) 0); pose proof (IH y x); lia|]).
  - specialize (IH (y + 1) (0 + 1)). destruct (layout cols (y + 1) (0 + 1) text). simpl in *. lia.
  - specialize (IH y (x + 1)). by destruct (layout cols y (x + 1) text).
Qed.

Lemma feed_layout s ch text :
  layout (console_width s) (console_y s) (console_x s) (ch :: text) =
  if (ch =? 10) || (ch =? 13) then layout (console_width s) (console_y (feed s ch)) (console_x (feed s ch)) text
  else let '(cells, last) := layout (console_width s) (console_y (feed s ch)) (console_x (feed s ch) + 1) text in
       ((console_y (feed s ch), console_x (feed s ch), ch) :: cells, last).
Proof. cbn [layout]. unfold feed. by destruct ((ch =? 10) || (console_width s <=? console_x s)). Qed.

Lemma pixel_pos s y x y' x' : pixel (set_console_pos y' x' s) y x = pixel s y x.
Proof. done. Qed.

Lemma pixel_feed s ch y x : pixel (feed s ch) y x = pixel s y x.
Proof. unfold feed. by destruct ((ch =? 10) || (console_width s <=? console_x s)). Qed.

Lemma draw_text_ok c text rest : forall s, console_ok s -> Forall (fun ch => - 128 <= ch < 128 /\ ch <> 0) text ->
  exists s', draw_text (text ++ 0 :: rest) c s = Done (tt, s') /\ console_ok s' /\
    g_width s' = g_width s /\ g_height s' = g_height s /\
    let '(cells, last) := layout (console_width s) (console_y s) (console_x s) text in
    last < console_height s -> forall y x, 0 <= x < g_width s -> 0 <= y < g_height s ->
      pixel s' y x = if inked cells y x then Some c else pixel s y x.
Proof.
  induction text as [|ch text IH]; intros s Hc Ht; [by exists s|]. apply Forall_cons in Ht as [[Hr Hn] Ht].
  destruct (write_char_ok s ch c Hc Hr) as (s1 & s2 & E1 & Hc2 & Hw2 & Hh2 & Hs1 & H2).
  assert (Hcw : console_width s2 = console_width s) by (by rewrite (co_width _ Hc2), (co_width _ Hc), Hw2).
  assert (Hch : console_height s2 = console_height s) by (by rewrite (co_height _ Hc2), (co_height _ Hc), Hh2).
  destruct (IH s2 Hc2 Ht) as (s' & E & Hc' & Hw' & Hh' & Hpix). exists s'. cbn [app draw_text].
  rewrite (proj2 (Z.eqb_neq ch 0)), (bind_intro _ _ _ _ _ _ E1 eq_refl) by done.
  split; [done|]. split; [done|]. split; [congruence|]. split; [congruence|].
  rewrite feed_layout. rewrite Hcw, Hch, Hw2, Hh2 in Hpix. pose proof (layout_mono (console_width s) text) as Hmono.
  destruct ((ch =? 10) || (ch =? 13)).
  - specialize (Hmono (console_y (feed s ch)) (console_x (feed s ch))).
    destruct (layout _ (console_y (feed s ch)) _ text) as [cells last] eqn:El. simpl in Hmono. intros Hlast y x Hx Hy.
    rewrite H2, Hs1, El in Hpix by lia. rewrite Hpix by done. by rewrite pixel_feed.
  - specialize (Hmono (console_y (feed s ch)) (console_x (feed s ch) + 1)).
    destruct (layout _ (console_y (feed s ch)) _ text) as [cells last] eqn:El. simpl in Hmono. intros Hlast y x Hx Hy.
    destruct H2 as (s3 & P & H2). rewrite Hs1 in P, H2 by lia. rewrite H2 in Hpix. cbn [console_y console_x set_console_pos] in Hpix.
    rewrite El in Hpix. rewrite Hpix by done. rewrite pixel_pos. destruct P as [P Es3 _].
    rewrite P by (unfold feed; by destruct ((ch =? 10) || (console_width s <=? console_x s))). rewrite pixel_feed. unfold inked at 2. cbn [existsb].
    fold (inked cells y x). destruct (inked cells y x); [by rewrite orb_true_r | by rewrite orb_false_r].
Qed.

(** C29: the console shows the text that is written to it.  After [console_init] on a
    framebuffer of 32 bits per pixel with room for at least one character, writing any
    text ends without an access outside the framebuffer, and as long as the text
    needs no more rows than the console has, a pixel has the colour of the text if
    it belongs to the glyph of a character at its row and column, and otherwise the
    colour of the background. *)
Theorem gui_shows_text (s : gui) (text : list Z) (color : Z) (Hs : screen_ok s) (Hb : g_bpp s = 32)
    (Hw : CHAR_WIDTH <= g_width s) (Hh : LINE_HEIGHT <= g_height s)
    (Ht : Forall (fun ch => - 128 <= ch < 128 /\ ch <> 0) text) :
  exists s', (console_init ;;; draw_text (text ++ [0]) color) s = Done (tt, s') /\ console_ok s' /\
    let '(cells, last) := layout (g_width s / CHAR_WIDTH) 0 0 text in
    last < g_height s / LINE_HEIGHT -> forall y x, 0 <= x < g_width s -> 0 <= y < g_height s ->
      pixel s' y x = Some (if inked cells y x then color else CONSOLE_BACKGROUND_COLOR).
Proof.
  set (s1 := set_console (g_height s / LINE_HEIGHT) (g_width s / CHAR_WIDTH) (set_console_pos 0 0 s)).
  assert (Hs1 : screen_ok s1) by (destruct Hs; by constructor).
  destruct (fill_rectangle_ok s1 0 0 (g_height s) (g_width s) CONSOLE_BACKGROUND_COLOR Hs1) as (s2 & E2 & P2); [lia | lia|].
  assert (E : console_init s = Done (tt, s2)) by (unfold console_init, bind, get, c_assert; rewrite Hb; exact E2).
  pose proof P2 as [P Es2 Hl2]. pose proof (painted_ok _ _ _ _ P2 Hs1) as Hs2.
  assert (Hc : console_ok s2).
  { unfold CHAR_WIDTH, LINE_HEIGHT in *. rewrite Es2 in *. constructor; simpl; try done; unfold LINE_HEIGHT, CHAR_WIDTH;
      Z.div_mod_to_equations; lia. }
  destruct (draw_text_ok color text [] s2 Hc Ht) as (s' & E' & Hc' & _ & _ & Hpix). exists s'.
  split; [by rewrite (bind_intro _ _ _ _ _ _ E eq_refl)|]. split; [done|]. rewrite Es2 in Hpix. simpl in Hpix. fold s1 in Hpix.
  destruct (layout _ 0 0 text) as [cells last]. intros Hlast y x Hx Hy. rewrite Hpix by done. destruct (inked cells y x); [done|].
  rewrite <- Es2, P by done. rewrite (proj2 (Z.leb_le 0 y)), (proj2 (Z.leb_le 0 x)), (proj2 (Z.ltb_lt y _)), (proj2 (Z.ltb_lt x _)) by lia. done.
Qed.

(** A framebuffer with one character, and the letter A. *)
Definition ex_gui : gui := Gui (replicate 144 0) 9 16 32 0 0 0 0 0 0 (Heap [] HEAP_AREA_START VALLOC_AREA_START).

Lemma gui_shows_text_witness : exists s',
  (console_init ;;; draw_text [65; 0] CONSOLE_NORMAL_COLOR) ex_gui = Done (tt, s') /\
  pixel s' 2 3 = Some CONSOLE_NORMAL_COLOR /\ pixel s' 2 0 = Some CONSOLE_BACKGROUND_COLOR.
Proof.
  destruct (gui_shows_text ex_gui [65] CONSOLE_NORMAL_COLOR) as (s' & E & _ & H).
  - constructor; vm_compute; congruence.
  - reflexivity.
  - vm_compute. congruence.
  - vm_compute. congruence.
  - repeat constructor; lia.
  - exists s'. split; [exact E|]. change (layout (g_width ex_gui / CHAR_WIDTH) 0 0 [65]) with ([(0, 0, 65)], 0) in H.
    split; (rewrite H; [vm_compute; reflexivity | vm_compute; congruence | vm_compute; split; congruence | vm_compute; split; congruence]).
Defined.

(** Scrolling does not clear the new line.  On a framebuffer whose width is a
    multiple of the width of a character, a line feed in the last row moves every
    row of the console up by one, as it should; but the pixels of the last row
    stay as they are, because the arguments of [fill_rectangle] are in the wrong
    units, so that what is written next is drawn over the text of the row before. *)
Theorem gui_scroll_keeps_last_row (s : gui) (color : Z) (Hc : console_ok s) (Hw : g_width s = 9 * console_width s)
    (Hy : console_y s = console_height s - 1) :
  exists s', console_write_char 10 color s = Done (tt, s') /\ console_y s' = console_y s /\ console_x s' = 0 /\
    forall y x, 0 <= x < g_width s -> 0 <= y < LINE_HEIGHT * console_height s ->
      pixel s' y x = if y <? LINE_HEIGHT * (console_height s - 1) then pixel s (y + LINE_HEIGHT) x else pixel s y x.
Proof.
  pose proof Hc as [Hs _ _ _ Hr Hcol _ _]. set (s1 := set_console_pos (console_y s + 1) 0 s).
  destruct (gui_scroll_ok s1) as (v & E & Hv & Hg); [|simpl; lia | done|].
  { replace s1 with (set_console_pos (console_y s + 1) 0 (set_vram (g_vram s) s)) by (unfold s1; by destruct s).
    apply (console_ok_at s); simpl; [done | done | lia | lia]. }
  eexists. split; [|split; [|split; [|]]].
  - unfold console_write_char. unfold bind at 1. unfold get at 1. cbn [Z.eqb Pos.eqb orb]. unfold bind at 1. unfold put at 1.
    unfold bind at 1. unfold get at 1. fold s1. rewrite (proj2 (Z.leb_le (console_height s1) (console_y s1))) by (simpl; lia).
    rewrite (bind_intro _ _ _ _ _ _ E eq_refl). reflexivity.
  - simpl. lia.
  - reflexivity.
  - intros y x Hx Hy'. unfold pixel. cbn [g_vram g_width set_console_pos set_vram s1]. rewrite Hg. unfold LINE_HEIGHT in *.
    cbn [g_vram console_width console_height set_console_pos s1].
    replace (console_width s * 144) with (16 * g_width s) by lia.
    assert (Hlt : (y * g_width s + x <? (console_height s - 1) * (16 * g_width s)) = (y <? 16 * (console_height s - 1))).
    { destruct (Z.ltb_spec y (16 * (console_height s - 1))); [apply Z.ltb_lt | apply Z.ltb_ge]; nia. }
    rewrite Hlt, (proj2 (Z.leb_le 0 _)) by nia. cbn [andb]. destruct (y <? _); [|done]. f_equal. lia.
Qed.

Lemma gui_scroll_keeps_last_row_witness : exists s',
  console_write_char 10 0 (set_console 1 1 ex_gui) = Done (tt, s') /\ pixel s' 0 0 = pixel (set_console 1 1 ex_gui) 0 0.
Proof.
  destruct (gui_scroll_keeps_last_row (set_console 1 1 ex_gui) 0) as (s' & E & _ & _ & H).
  - constructor; [constructor; vm_compute; congruence | reflexivity | reflexivity | reflexivity | simpl; lia..].
  - reflexivity.
  - reflexivity.
  - exists s'. split; [exact E|]. rewrite H; [reflexivity | simpl; lia | simpl; unfold LINE_HEIGHT; lia].
Defined.
