(* ===== verification/Initfs.v ===== *)
(** * The initial file system

    The reader in [servers/memmgr/initfs.c] and the writer [tools/mkinitfs.py].
    A [struct initfs_file *] is an offset in the image. *)
From S2P Require Import Prelude Message CString.
Import CStr.

Definition INITFS_VERSION : Z := 1.
Definition FS_HEADER_SIZE : Z := 128.
Definition FILE_HEADER_SIZE : Z := 64.
Definition JUMP_CODE_SIZE : Z := 16.
Definition PATH_SIZE : Z := 48.

(** [n] bytes at [off]; a read outside the image is undefined. *)
Definition bytes_at (image : list Z) (off n : Z) : option (list Z) :=
  if (0 <=? off) && (0 <=? n) && (off + n <=? Z.of_nat (length image))
  then Some (take (Z.to_nat n) (drop (Z.to_nat off) image)) else None.

Definition int_at (image : list Z) (off n : Z) : option Z := load_le (Z.to_nat n) <$> bytes_at image off n.

(** Members of [struct initfs_header] and [struct initfs_file]. *)
Definition fs_version (image : list Z) : option Z := int_at image 16 4.
Definition fs_num_files (image : list Z) : option Z := int_at image 24 4.
Definition file_path (image : list Z) (f : Z) : option (list Z) := bytes_at image f PATH_SIZE.
Definition file_len (image : list Z) (f : Z) : option Z := int_at image (f + 48) 4.
Definition file_padding_len (image : list Z) (f : Z) : option Z := int_at image (f + 52) 2.
(** [&file->content[i]] and what follows it. *)
Definition file_content (image : list Z) (f i : Z) : list Z := drop (Z.to_nat (f + FILE_HEADER_SIZE + i)) image.

Record initfs_dir := InitfsDir { index : Z; next : Z }.

Module Initfs.

Definition initfs_opendir : initfs_dir := InitfsDir 0 FS_HEADER_SIZE.

(** [None] stands for NULL. *)
Definition initfs_readdir (image : list Z) (dir : initfs_dir) : outcome (option Z * initfs_dir) :=
  match fs_num_files image with
  | None => Undef
  | Some n =>
      if n <=? index dir then Done (None, dir)
      else
        let current := next dir in
        match file_len image current, file_padding_len image current with
        | Some len, Some padding =>
            Done (Some current, InitfsDir (index dir + 1) (current + FILE_HEADER_SIZE + len + padding))
        | _, _ => Undef
        end
  end.

(** [initfs_init]: whether the version is right; otherwise the process exits. *)
Definition initfs_init (image : list Z) : outcome unit :=
  match fs_version image with
  | Some v => if v =? INITFS_VERSION then Done tt else Panic
  | None => Undef
  end.

(** The loop [while ((file = initfs_readdir(&dir)) != NULL)]: the files it visits. *)
Fixpoint readdir_all (fuel : nat) (image : list Z) (dir : initfs_dir) : outcome (list Z) :=
  match fuel with
  | O => Fuel
  | S fuel =>
      outcome_bind (initfs_readdir image dir) (fun '(f, dir) =>
        match f with
        | None => Done []
        | Some f => outcome_bind (readdir_all fuel image dir) (fun fs => Done (f :: fs))
        end)
  end.

(** ** mkinitfs.py *)

Definition zeros (n : Z) : list Z := replicate (Z.to_nat n) 0.

(** [struct.pack] of an unsigned integer of [n] bytes. *)
Definition pack (n : nat) (v : Z) : list Z := store_le n v (replicate n 0).

(** The padding of a file; a file of a multiple of the page size gets a page of it. *)
Definition padding_of (length : Z) : Z := PAGE_SIZE - length mod PAGE_SIZE.

Definition construct_file_header (name : list Z) (len : Z) : list Z :=
  take (Z.to_nat PATH_SIZE) (name ++ zeros PATH_SIZE) ++ pack 4 len ++ pack 2 (padding_of len) ++ zeros 10.

Definition pack_file (f : list Z * list Z) : list Z :=
  let '(name, data) := f in
  let len := Z.of_nat (length data) in
  construct_file_header name len ++ data ++ zeros (padding_of len).

(** [image[:a] + patch + image[a+len(patch):]] *)
Definition overwrite (image : list Z) (a : Z) (patch : list Z) : list Z :=
  take (Z.to_nat a) image ++ patch ++ drop (Z.to_nat a + length patch) image.

(** [startup_bin] starts with room for the two headers. *)
Definition make_image (startup_name startup_bin : list Z) (files : list (list Z * list Z)) : list Z :=
  let startup_len := Z.of_nat (length startup_bin) - FS_HEADER_SIZE - FILE_HEADER_SIZE in
  let image := startup_bin ++ zeros (padding_of startup_len) in
  let image := overwrite image FS_HEADER_SIZE (construct_file_header startup_name startup_len) in
  let image := image ++ concat (map pack_file files) in
  let num_files := 1 + Z.of_nat (length files) in
  overwrite image JUMP_CODE_SIZE
    (pack 4 INITFS_VERSION ++ pack 4 (Z.of_nat (length image)) ++ pack 4 num_files).

End Initfs.
Import Initfs.

(** ** What the writer writes, the reader reads *)

Lemma bytes_at_middle (a b c : list Z) off n :
  off = Z.of_nat (length a) -> n = Z.of_nat (length b) -> bytes_at (a ++ b ++ c) off n = Some b.
Proof.
  intros -> ->. unfold bytes_at. rewrite !length_app.
  rewrite !(proj2 (Z.leb_le _ _)) by lia. simpl. rewrite !Nat2Z.id, drop_app_length.
  by rewrite take_app_length.
Qed.

Lemma length_pack n v : length (pack n v) = n.
Proof. unfold pack. rewrite length_store_le. apply length_replicate. Qed.

Lemma length_zeros n : 0 <= n -> Z.of_nat (length (zeros n)) = n.
Proof. intros. unfold zeros. rewrite length_replicate. lia. Qed.

Lemma load_pack n v : 0 <= v < 256 ^ Z.of_nat n -> load_le n (pack n v) = v.
Proof.
  intros. unfold pack. rewrite load_store_le by (rewrite length_replicate; lia). by apply Z.mod_small.
Qed.

Lemma int_at_middle (a c : list Z) n v off k :
  off = Z.of_nat (length a) -> k = Z.of_nat n -> 0 <= v < 256 ^ Z.of_nat n ->
  int_at (a ++ pack n v ++ c) off k = Some v.
Proof.
  intros -> -> Hv. unfold int_at. rewrite (bytes_at_middle a (pack n v) c) by (rewrite ?length_pack; lia).
  simpl. by rewrite Nat2Z.id, load_pack.
Qed.

Lemma padding_of_range len : 0 < padding_of len <= PAGE_SIZE.
Proof. unfold padding_of. pose proof (Z.mod_pos_bound len PAGE_SIZE ltac:(done)). unfold PAGE_SIZE in *. lia. Qed.

(** Files the format can hold. *)
Definition file_ok (f : list Z * list Z) : Prop :=
  Z.of_nat (length f.1) < PATH_SIZE /\ Forall (fun c => c <> 0) f.1 /\ Z.of_nat (length f.2) < 2 ^ 32.

Definition padded_name (name : list Z) : list Z := take (Z.to_nat PATH_SIZE) (name ++ zeros PATH_SIZE).

Lemma length_padded_name name : length (padded_name name) = 48%nat.
Proof.
  unfold padded_name. rewrite length_take, length_app. unfold zeros. rewrite length_replicate.
  change (Z.to_nat PATH_SIZE) with 48%nat. lia.
Qed.

Lemma length_header name len : length (construct_file_header name len) = 64%nat.
Proof.
  unfold construct_file_header. fold (padded_name name).
  by rewrite !length_app, length_padded_name, !length_pack.
Qed.

Lemma length_pack_file f :
  Z.of_nat (length (pack_file f)) = FILE_HEADER_SIZE + Z.of_nat (length f.2) + padding_of (Z.of_nat (length f.2)).
Proof.
  destruct f as [name data]. unfold pack_file. simpl. pose proof (padding_of_range (Z.of_nat (length data))).
  rewrite !length_app, length_header. unfold FILE_HEADER_SIZE.
  rewrite !Nat2Z.inj_add, length_zeros by lia. lia.
Qed.

Lemma padded_name_string name : Z.of_nat (length name) < PATH_SIZE -> Forall (fun c => c <> 0) name ->
  c_string (padded_name name) name.
Proof.
  intros Hl Hn. unfold padded_name. rewrite take_app_ge by (unfold PATH_SIZE in *; lia).
  destruct (Z.to_nat PATH_SIZE - length name)%nat as [|n] eqn:E; [unfold PATH_SIZE in *; lia|].
  exists (take n (zeros (PATH_SIZE - 1))). split; [|done].
  change (zeros PATH_SIZE) with (0 :: zeros (PATH_SIZE - 1)). done.
Qed.

(** The file [f] is in the image at the offset [off]. *)
Definition holds_file (image : list Z) (f : list Z * list Z) (off : Z) : Prop :=
  (exists p, file_path image off = Some p /\ c_string p f.1) /\
  file_len image off = Some (Z.of_nat (length f.2)) /\
  file_padding_len image off = Some (padding_of (Z.of_nat (length f.2))) /\
  take (length f.2) (file_content image off 0) = f.2.

Lemma pack_file_holds (a c : list Z) f off :
  file_ok f -> off = Z.of_nat (length a) -> holds_file (a ++ pack_file f ++ c) f off.
Proof.
  destruct f as [name data]. intros (Hl & Hn & Hd) ->. simpl in Hl, Hn, Hd.
  set (len := Z.of_nat (length data)). unfold pack_file. fold len.
  unfold holds_file. cbn [fst snd]. fold len.
  pose proof (length_padded_name name) as Hp. pose proof (padding_of_range len) as Hpad.
  split; [|split; [|split]].
  - unfold construct_file_header. fold (padded_name name). exists (padded_name name). split; [|by apply padded_name_string].
    unfold file_path. rewrite <- !app_assoc. apply bytes_at_middle; [done | by rewrite Hp].
  - unfold construct_file_header. fold (padded_name name). unfold file_len. rewrite <- !app_assoc, app_assoc. apply int_at_middle; [rewrite length_app, Hp; lia | done |].
    split; [lia|]. exact Hd.
  - unfold construct_file_header. fold (padded_name name). unfold file_padding_len. rewrite <- !app_assoc, app_assoc, (app_assoc _ (pack 4 len)).
    apply int_at_middle; [rewrite !length_app, Hp, length_pack; lia | done |].
    change (256 ^ Z.of_nat 2) with 65536. unfold PAGE_SIZE in *. lia.
  - unfold file_content. rewrite Z.add_0_r.
    set (h := construct_file_header name len).
    replace (a ++ (h ++ data ++ zeros (padding_of len)) ++ c) with ((a ++ h) ++ data ++ zeros (padding_of len) ++ c)
      by (by rewrite <- !app_assoc).
    rewrite drop_app_length' by (unfold h; rewrite length_app, length_header; unfold FILE_HEADER_SIZE; lia).
    by rewrite take_app_length.
Qed.

Lemma readdir_all_ok files : forall (a : list Z) i,
  Forall file_ok files ->
  fs_num_files (a ++ concat (map pack_file files)) = Some (i + Z.of_nat (length files)) ->
  exists offs, readdir_all (S (length files)) (a ++ concat (map pack_file files))
                 (InitfsDir i (Z.of_nat (length a))) = Done offs /\
    Forall2 (holds_file (a ++ concat (map pack_file files))) files offs.
Proof.
  induction files as [|f files IH]; intros a i Hok Hnum.
  - exists []. split; [|constructor]. cbn [readdir_all]. unfold initfs_readdir. rewrite Hnum. cbn [index].
    by rewrite (proj2 (Z.leb_le _ _)) by (simpl; lia).
  - apply Forall_cons in Hok as [Hf Hok]. cbn [map concat] in *.
    destruct (pack_file_holds a (concat (map pack_file files)) f _ Hf eq_refl) as (Hpath & Hlen & Hpad & Hcont).
    rewrite (app_assoc a (pack_file f)) in *.
    destruct (IH (a ++ pack_file f) (i + 1)) as (offs & E & Hoffs); [done | rewrite Hnum; f_equal; simpl; lia |].
    exists (Z.of_nat (length a) :: offs). split; [|by constructor].
    change (length (f :: files)) with (S (length files)). remember (S (length files)) as n.
    cbn [readdir_all]. unfold initfs_readdir at 1. rewrite Hnum. cbn [index next].
    rewrite (proj2 (Z.leb_gt _ _)) by (simpl; lia). rewrite Hlen, Hpad. cbn [outcome_bind].
    replace (Z.of_nat (length a) + FILE_HEADER_SIZE + Z.of_nat (length f.2) + padding_of (Z.of_nat (length f.2)))
      with (Z.of_nat (length (a ++ pack_file f))); [by rewrite E|].
    rewrite length_app, Nat2Z.inj_add, length_pack_file. lia.
Qed.

Lemma overwrite_app (a b c patch : list Z) k :
  k = Z.of_nat (length a) -> length patch = length b -> overwrite (a ++ b ++ c) k patch = a ++ patch ++ c.
Proof.
  intros -> Hl. unfold overwrite. rewrite Nat2Z.id, take_app_length, Hl. f_equal. f_equal.
  rewrite app_assoc. apply drop_app_length'. by rewrite length_app.
Qed.

(** The image: jump code, numbers, the rest of the header, and the files. *)
Lemma make_image_shape startup_name startup_bin files :
  FS_HEADER_SIZE + FILE_HEADER_SIZE <= Z.of_nat (length startup_bin) ->
  exists jump total rest, length jump = 16%nat /\ length rest = 100%nat /\
    make_image startup_name startup_bin files =
      ((jump ++ pack 4 INITFS_VERSION ++ pack 4 total ++ pack 4 (1 + Z.of_nat (length files)) ++ rest) ++
       concat (map pack_file ((startup_name, drop 192 startup_bin) :: files))).
Proof.
  intros Hl. unfold FS_HEADER_SIZE, FILE_HEADER_SIZE in Hl.
  rewrite <- (take_drop 16 startup_bin), <- (take_drop 12 (drop 16 startup_bin)),
    <- (take_drop 100 (drop 12 (drop 16 startup_bin))),
    <- (take_drop 64 (drop 100 (drop 12 (drop 16 startup_bin)))).
  rewrite !drop_drop. change (16 + 12 + 100 + 64)%nat with 192%nat. change (16 + 12 + 100)%nat with 128%nat.
  change (16 + 12)%nat with 28%nat.
  assert (length (take 16 startup_bin) = 16%nat /\ length (take 12 (drop 16 startup_bin)) = 12%nat /\
          length (take 100 (drop 28 startup_bin)) = 100%nat /\ length (take 64 (drop 128 startup_bin)) = 64%nat) as (L1 & L2 & L3 & L4).
  { rewrite !length_take, !length_drop. lia. }
  revert L1 L2 L3 L4. generalize (take 16 startup_bin) (take 12 (drop 16 startup_bin))
    (take 100 (drop 28 startup_bin)) (take 64 (drop 128 startup_bin)) (drop 192 startup_bin).
  intros j n r h d L1 L2 L3 L4. unfold make_image.
  replace (Z.of_nat (length (j ++ n ++ r ++ h ++ d)) - FS_HEADER_SIZE - FILE_HEADER_SIZE) with (Z.of_nat (length d)).
  2: { rewrite !length_app, L1, L2, L3, L4. unfold FS_HEADER_SIZE, FILE_HEADER_SIZE. lia. }
  set (len := Z.of_nat (length d)).
  replace ((j ++ n ++ r ++ h ++ d) ++ zeros (padding_of len)) with ((j ++ n ++ r) ++ h ++ (d ++ zeros (padding_of len)))
    by (by rewrite <- !app_assoc).
  rewrite overwrite_app; [| rewrite !length_app, L1, L2, L3; done | by rewrite length_header].
  set (img := _ ++ concat _).
  replace (drop 192 (j ++ n ++ r ++ h ++ d)) with d.
  2: { rewrite !app_assoc, drop_app_length'; [done|]. rewrite !length_app. lia. }
  exists j, (Z.of_nat (length img)), r. split; [done|]. split; [done|].
  replace img with (j ++ n ++ (r ++ concat (map pack_file ((startup_name, d) :: files)))).
  2: { unfold img. cbn [map concat]. unfold pack_file at 1. fold len. by rewrite <- !app_assoc. }
  rewrite overwrite_app; [by rewrite <- !app_assoc | by rewrite L1 | by rewrite !length_app, !length_pack, L2].
Qed.

(** C37: round trip of the initial file system: for every image that [mkinitfs.py]
    writes, of any startup program and files with names shorter than 48 bytes, the
    version is accepted and the directory loop of the memory manager visits exactly
    the startup program and the files, in order; at each of them it finds the name
    as a C string, the length and the contents that were written. *)
Theorem initfs_roundtrip (startup_name startup_bin : list Z) (files : list (list Z * list Z))
    (Hstartup : FS_HEADER_SIZE + FILE_HEADER_SIZE <= Z.of_nat (length startup_bin))
    (Hok : Forall file_ok ((startup_name, drop 192 startup_bin) :: files))
    (Hnum : 1 + Z.of_nat (length files) < 2 ^ 32) :
  let image := make_image startup_name startup_bin files in
  initfs_init image = Done tt /\
  exists offs, readdir_all (S (S (length files))) image initfs_opendir = Done offs /\
    Forall2 (holds_file image) ((startup_name, drop 192 startup_bin) :: files) offs.
Proof.
  destruct (make_image_shape startup_name startup_bin files Hstartup) as (j & total & r & Lj & Lr & ->).
  set (fs := (startup_name, drop 192 startup_bin) :: files) in *. cbv zeta. split.
  - unfold initfs_init, fs_version. rewrite <- !app_assoc.
    by rewrite (int_at_middle j _ 4 INITFS_VERSION) by (rewrite ?Lj; done).
  - assert (Hn : forall tl, fs_num_files (j ++ pack 4 INITFS_VERSION ++ pack 4 total ++
        pack 4 (1 + Z.of_nat (length files)) ++ tl) = Some (0 + Z.of_nat (length fs))).
    { intros tl. rewrite (app_assoc j), (app_assoc _ (pack 4 total)). unfold fs_num_files.
      rewrite int_at_middle; [f_equal; unfold fs; simpl; lia | by rewrite !length_app, !length_pack, Lj | done |].
      split; [lia | exact Hnum]. }
    set (a := j ++ _). destruct (readdir_all_ok fs a 0) as (offs & E & H); [done | |].
    { unfold a. rewrite <- !app_assoc. apply Hn. }
    exists offs. split; [|done]. unfold initfs_opendir.
    replace FS_HEADER_SIZE with (Z.of_nat (length a)); [exact E|].
    unfold a. by rewrite !length_app, !length_pack, Lj, Lr.
Qed.

Lemma initfs_roundtrip_witness :
  let image := make_image [109] (replicate 200 7) [([97; 98], [1; 2; 3])] in
  initfs_init image = Done tt /\
  exists offs, readdir_all 3 image initfs_opendir = Done offs /\
    Forall2 (holds_file image) [([109], replicate 8 7); ([97; 98], [1; 2; 3])] offs.
Proof.
  apply (initfs_roundtrip [109] (replicate 200 7) [([97; 98], [1; 2; 3])]); [done | | done].
  repeat constructor; done.
Defined.
