(* ===== verification/Elf.v ===== *)
(** * Executables

    [libs/libelf/elf.c]: the header of a 64-bit ELF image.  The image is a sequence
    of bytes and a pointer into it is an offset. *)
From S2P Require Import Prelude Message CString Initfs.
Import CStr.

Definition SIZEOF_EHDR : Z := 64.
Definition SIZEOF_PHDR : Z := 56.

(** [struct elf_file]; [phdrs] is relative to the image. *)
Record elf_file := ElfFile { entry : Z; num_phdrs : Z; phdrs : Z }.

Record elf64_phdr := Phdr { p_offset : Z; p_vaddr : Z; p_filesz : Z; p_memsz : Z }.

Module Elf.

(** An error, or the parsed header. *)
Definition elf_parse (image : list Z) (image_len : Z) : outcome (Z + elf_file) :=
  if image_len <? SIZEOF_EHDR then Done (inl ERR_TOO_SHORT)
  else
    outcome_bind (memcmp image [0x7f; 69; 76; 70] 4) (fun c =>
      if negb (c =? 0) then Done (inl ERR_NOT_ACCEPTABLE)
      else
        match int_at image 24 8, int_at image 56 2, int_at image 52 2 with
        | Some e_entry, Some e_phnum, Some e_ehsize => Done (inr (ElfFile e_entry e_phnum e_ehsize))
        | _, _, _ => Undef
        end).

(** [elf.phdrs[i]]. *)
Definition phdr_at (image : list Z) (elf : elf_file) (i : Z) : outcome elf64_phdr :=
  let a := phdrs elf + i * SIZEOF_PHDR in
  match int_at image (a + 8) 8, int_at image (a + 16) 8, int_at image (a + 32) 8, int_at image (a + 40) 8 with
  | Some o, Some v, Some f, Some m => Done (Phdr o v f m)
  | _, _, _, _ => Undef
  end.

End Elf.
Import Elf.

(** The header of an executable as the format lays it out. *)
Definition ehdr (e_type e_machine e_version e_entry e_phoff e_shoff e_flags e_ehsize e_phentsize e_phnum
    e_shentsize e_shnum e_shstrndx : Z) (ident : list Z) : list Z :=
  [0x7f; 69; 76; 70] ++ ident ++ Initfs.pack 2 e_type ++ Initfs.pack 2 e_machine ++ Initfs.pack 4 e_version ++
  Initfs.pack 8 e_entry ++ Initfs.pack 8 e_phoff ++ Initfs.pack 8 e_shoff ++ Initfs.pack 4 e_flags ++
  Initfs.pack 2 e_ehsize ++ Initfs.pack 2 e_phentsize ++ Initfs.pack 2 e_phnum ++ Initfs.pack 2 e_shentsize ++
  Initfs.pack 2 e_shnum ++ Initfs.pack 2 e_shstrndx.

Lemma memcmp_prefix (l tl : list Z) : memcmp (l ++ tl) l (length l) = Done 0.
Proof. induction l as [|c l IH]; [by destruct tl|]. simpl. by rewrite Z.eqb_refl. Qed.

(** Members of a structure that is a sequence of packed parts. *)
Lemma int_at_part (image a c : list Z) n v off k :
  image = a ++ Initfs.pack n v ++ c -> off = Z.of_nat (length a) -> k = Z.of_nat n ->
  0 <= v < 256 ^ Z.of_nat n -> int_at image off k = Some v.
Proof. intros -> -> ->. by apply int_at_middle. Qed.

Ltac part pre :=
  eapply (int_at_part _ pre); repeat match goal with x := _ : list Z |- _ => subst x end;
  [rewrite <- ?app_assoc; reflexivity
  |rewrite ?length_app, ?length_pack; simpl; repeat match goal with H : length _ = _ |- _ => rewrite H end; done
  |done | done].

(** [elf_parse] of an ELF image gives the entry point and the number of program
    headers of its header, whatever follows the header; but it takes the program
    headers to start at [e_ehsize] and never reads [e_phoff], so it is right exactly
    for the images in which the two agree. *)
Theorem elf_parse_header (e_type e_machine e_version e_entry e_phoff e_shoff e_flags e_ehsize e_phentsize
    e_phnum e_shentsize e_shnum e_shstrndx : Z) (ident rest : list Z) (image_len : Z)
    (Hident : length ident = 12%nat) (Hlen : SIZEOF_EHDR <= image_len)
    (Hentry : 0 <= e_entry < 2 ^ 64) (Hphnum : 0 <= e_phnum < 2 ^ 16) (Hehsize : 0 <= e_ehsize < 2 ^ 16) :
  elf_parse (ehdr e_type e_machine e_version e_entry e_phoff e_shoff e_flags e_ehsize e_phentsize
               e_phnum e_shentsize e_shnum e_shstrndx ident ++ rest) image_len =
  Done (inr (ElfFile e_entry e_phnum e_ehsize)).
Proof.
  unfold elf_parse. rewrite (proj2 (Z.ltb_ge _ _)) by done. unfold ehdr. rewrite <- !app_assoc.
  rewrite memcmp_prefix. cbn [outcome_bind]. change (negb (0 =? 0)) with false. cbn iota.
  set (a1 := [0x7f; 69; 76; 70] ++ ident ++ Initfs.pack 2 e_type ++ Initfs.pack 2 e_machine ++ Initfs.pack 4 e_version).
  set (a2 := a1 ++ Initfs.pack 8 e_entry ++ Initfs.pack 8 e_phoff ++ Initfs.pack 8 e_shoff ++ Initfs.pack 4 e_flags).
  set (a3 := a2 ++ Initfs.pack 2 e_ehsize ++ Initfs.pack 2 e_phentsize).
  set (image := [0x7f; 69; 76; 70] ++ _).
  assert (int_at image 24 8 = Some e_entry) as -> by part a1.
  assert (int_at image 56 2 = Some e_phnum) as -> by part a3.
  assert (int_at image 52 2 = Some e_ehsize) as -> by part a2.
  done.
Qed.

Lemma elf_parse_header_witness :
  elf_parse (ehdr 2 62 1 0x1000000 4096 0 0 64 56 3 64 0 0 (replicate 12 0) ++ [1; 2; 3]) 67 =
  Done (inr (ElfFile 0x1000000 3 64)).
Proof. apply (elf_parse_header 2 62 1 0x1000000 4096 0 0 64 56 3 64 0 0 (replicate 12 0) [1; 2; 3] 67); done. Defined.
