(* ===== verification/AllocPages.v ===== *)
(** * The page allocator of the memory manager

    [servers/memmgr/alloc_pages.c]: a buddy allocator for each zone of free
    memory.  A [struct page] is named by its index in [zone->pages] (its page frame
    number in the zone); the free lists hold these indices. *)
From S2P Require Import Prelude Message Util.
Import Math.

Definition MAX_NUM_ZONES : Z := 16.
Definition MAX_PAGE_ORDER : Z := 12.
Definition INTERNAL_PAGES_PERC : Z := 1.
Definition SIZEOF_PAGE : Z := 24.
Definition FREE_MEMORY_START : Z := 0x04000000.

Record page := Page { in_use : bool; order : Z }.

Record zone := Zone {
  free_lists : list (list Z);
  id : Z;
  pages : list page;
  num_pages : Z;
  base_addr : Z
}.

Definition set_free_lists (l : list (list Z)) (z : zone) : zone :=
  Zone l (id z) (pages z) (num_pages z) (base_addr z).
Definition set_pages (l : list page) (z : zone) : zone :=
  Zone (free_lists z) (id z) l (num_pages z) (base_addr z).

Inductive memory_map_type := INITARGS_MEMORY_MAP_FREE | INITARGS_MEMORY_MAP_RESERVED.
Record memory_map := MemoryMap { mm_type : memory_map_type; mm_start : Z; mm_end : Z }.

Module Buddy.

Definition compute_buddy_pfn (pfn order : Z) : Z := Z.lxor pfn (Z.shiftl 1 order).

Definition pfn_to_page (pfn : Z) : M zone Z :=
  z <- get ;;
  c_assert (pfn <? num_pages z) ;;;
  ret pfn.

Definition paddr_to_pfn (paddr : Z) : M zone Z :=
  z <- get ;;
  c_assert (Z.land paddr (PAGE_SIZE - 1) =? 0) ;;;
  log <- lift (ulllog2 PAGE_SIZE) ;;
  ret (Z.shiftr (u64 (paddr - base_addr z)) (log - 1)).

Definition page_to_paddr (page : Z) : M zone Z :=
  z <- get ;;
  c_assert (0 <=? page) ;;;
  c_assert (page <? num_pages z) ;;;
  ret (u64 (base_addr z + page * PAGE_SIZE)).

Definition page_to_pfn (page : Z) : M zone Z :=
  paddr <- page_to_paddr page ;; paddr_to_pfn paddr.

Definition alloc_from_zone (order : Z) : M zone (option Z) :=
  z <- get ;;
  free_list <- need (arr_get (free_lists z) order) ;;
  match free_list with
  | [] => ret None
  | page :: rest =>
      lists <- need (arr_set (free_lists z) order rest) ;;
      p <- need (arr_get (pages z) page) ;;
      c_assert (AllocPages.order p =? order) ;;;
      c_assert (negb (in_use p)) ;;;
      ps <- need (arr_set (pages z) page (Page true (AllocPages.order p))) ;;
      put (set_pages ps (set_free_lists lists z)) ;;;
      ret (Some page)
  end.

(** Linking a page that is in a free list corrupts the lists. *)
Definition add_to_free_list (page order : Z) : M zone unit :=
  c_assert (0 <=? order) ;;;
  z <- get ;;
  ps <- need (arr_set (pages z) page (Page false order)) ;;
  free_list <- need (arr_get (free_lists z) order) ;;
  lists <- need (arr_set (free_lists z) order (free_list ++ [page])) ;;
  if bool_decide (page ∈ concat (free_lists z)) then undef
  else put (set_pages ps (set_free_lists lists z)).

(** The first order from [from] on with a free block. *)
Fixpoint find_from (fuel : nat) (lists : list (list Z)) (from : Z) : option Z :=
  match fuel with
  | O => None
  | S fuel =>
      match arr_get lists from with
      | Some (_ :: _) => Some from
      | _ => find_from fuel lists (from + 1)
      end
  end.

(** [from - target_order] rounds. *)
Fixpoint split_loop (rounds : nat) (from : Z) : M zone unit :=
  match rounds with
  | O => ret tt
  | S rounds =>
      let crnt := from - 1 in
      page <- alloc_from_zone from ;;
      match page with
      | None => panic
      | Some page =>
          pfn <- page_to_pfn page ;;
          buddy_page <- pfn_to_page (compute_buddy_pfn pfn crnt) ;;
          add_to_free_list page crnt ;;;
          add_to_free_list buddy_page crnt ;;;
          split_loop rounds crnt
      end
  end.

Definition split (target_order : Z) : M zone Z :=
  z <- get ;;
  free_list <- need (arr_get (free_lists z) target_order) ;;
  match free_list with
  | _ :: _ => ret OK
  | [] =>
      c_assert (target_order <? MAX_PAGE_ORDER) ;;;
      match find_from (Z.to_nat (MAX_PAGE_ORDER - target_order)) (free_lists z) (target_order + 1) with
      | None => ret ERR_OUT_OF_MEMORY
      | Some from => split_loop (Z.to_nat (from - target_order)) from ;;; ret OK
      end
  end.

(** The code after the [return] in [merge] is never reached. *)
Definition merge (pfn : Z) : M zone unit :=
  pfn_to_page pfn ;;;
  z <- get ;;
  p <- need (arr_get (pages z) pfn) ;;
  c_assert (negb (in_use p)).

(** One zone of the loop of [alloc_pages]; it is retried after a split. *)
Fixpoint alloc_in_zone (fuel : nat) (order : Z) : M zone (option Z) :=
  match fuel with
  | O => no_fuel
  | S fuel =>
      page <- alloc_from_zone order ;;
      match page with
      | Some page => paddr <- page_to_paddr page ;; ret (Some paddr)
      | None =>
          err <- split order ;;
          if err =? OK then alloc_in_zone fuel order else ret None
      end
  end.

(** A split leaves the free list of the order non-empty, so the second attempt
    ends. *)
Fixpoint alloc_pages (order : Z) (zones : list zone) : outcome (Z * list zone) :=
  match zones with
  | [] => Done (0, [])
  | z :: zones =>
      outcome_bind (alloc_in_zone 2 order z) (fun '(r, z) =>
        match r with
        | Some paddr => Done (paddr, z :: zones)
        | None =>
            outcome_bind (alloc_pages order zones) (fun '(paddr, zones) => Done (paddr, z :: zones))
        end)
  end.

(** The bound is the number of pages of the first zone, whichever [zone] is. *)
Definition is_paddr_in_zone (zones : list zone) (zone : zone) (paddr : Z) : outcome bool :=
  if base_addr zone <=? paddr then
    outcome_bind (paddr_to_pfn paddr zone) (fun '(pfn, _) =>
      match zones with
      | z0 :: _ => Done (pfn <? num_pages z0)
      | [] => Done (pfn <? 0)
      end)
  else Done false.

Definition free_in_zone (paddr order : Z) : M zone unit :=
  pfn <- paddr_to_pfn paddr ;;
  page <- pfn_to_page pfn ;;
  add_to_free_list page order ;;;
  merge pfn.

(** The loop that looks for the zone; [all] are the zones. *)
Fixpoint free_loop (all zones : list zone) (paddr order : Z) : outcome (list zone) :=
  match zones with
  | [] => Panic
  | z :: zones =>
      outcome_bind (is_paddr_in_zone all z paddr) (fun found =>
        if found then outcome_bind (free_in_zone paddr order z) (fun '(_, z) => Done (z :: zones))
        else outcome_bind (free_loop all zones paddr order) (fun zones => Done (z :: zones)))
  end.

Definition free_pages (paddr order : Z) (zones : list zone) : outcome (list zone) :=
  free_loop zones zones paddr order.

(** ** Initialisation *)

Fixpoint add_entries (n : nat) (i base pages_per_entry order : Z) : M zone unit :=
  match n with
  | O => ret tt
  | S n =>
      add_to_free_list (base + i * pages_per_entry) order ;;;
      add_entries n (i + 1) base pages_per_entry order
  end.

(** The orders from [n - 1] down to 0. *)
Fixpoint add_orders (n : nat) (remaining num_data_pages : Z) : M zone unit :=
  match n with
  | O => ret tt
  | S n =>
      if 0 <? remaining then
        let order := Z.of_nat n in
        let pages_per_entry := POW2 order in
        let num_entries := remaining / pages_per_entry in
        add_entries (Z.to_nat num_entries) 0 (num_data_pages - remaining) pages_per_entry order ;;;
        add_orders n (remaining - num_entries * pages_per_entry) num_data_pages
      else ret tt
  end.

(** [uninit] are the [order] members [init_page] leaves as they are. *)
Definition init_zone (uninit : Z -> Z) (zone_id start end_ : Z) : outcome zone :=
  let num_total_pages := u64 (end_ - start) / PAGE_SIZE in
  let num_internal_pages := (num_total_pages / 100) * INTERNAL_PAGES_PERC in
  let num_data_pages := num_total_pages - num_internal_pages in
  if negb (0 <? num_internal_pages) then Panic
  else if negb (num_data_pages <=? (num_internal_pages * PAGE_SIZE) / SIZEOF_PAGE) then Panic
  else
    let ps := map (fun i => Page false (uninit (start + Z.of_nat i * SIZEOF_PAGE))) (seq 0 (Z.to_nat num_data_pages)) in
    let z := Zone (replicate (Z.to_nat (MAX_PAGE_ORDER + 1)) []) zone_id ps num_data_pages
               (u64 (start + num_internal_pages * PAGE_SIZE)) in
    outcome_bind (add_orders (Z.to_nat (MAX_PAGE_ORDER + 1)) num_data_pages num_data_pages z)
      (fun '(_, z) => Done z).

Fixpoint init_zones (uninit : Z -> Z) (maps : list memory_map) (j : Z) : outcome (list zone) :=
  match maps with
  | [] => Done []
  | mmap :: maps =>
      match mm_type mmap with
      | INITARGS_MEMORY_MAP_FREE =>
          if negb (j <? MAX_NUM_ZONES) then Panic
          else
            outcome_bind (init_zone uninit j (Z.max (mm_start mmap) FREE_MEMORY_START) (mm_end mmap)) (fun z =>
            outcome_bind (init_zones uninit maps (j + 1)) (fun zones => Done (z :: zones)))
      | INITARGS_MEMORY_MAP_RESERVED => init_zones uninit maps j
      end
  end.

Definition init_alloc_pages (uninit : Z -> Z) (maps : list memory_map) : outcome (list zone) :=
  init_zones uninit maps 0.

End Buddy.
Import Buddy.

(** ** Blocks *)

(** A block is its first page and its order; its pages. *)
Definition block_pages (b : Z * Z) : list Z := seqZ b.1 (2 ^ b.2).
Definition block_ok (b : Z * Z) : Prop := 0 <= b.2 <= MAX_PAGE_ORDER /\ 0 <= b.1 /\ (2 ^ b.2 | b.1).

(** The blocks in free lists whose first list has order [k]. *)
Fixpoint list_blocks (k : Z) (lists : list (list Z)) : list (Z * Z) :=
  match lists with
  | [] => []
  | l :: lists => map (fun p => (p, k)) l ++ list_blocks (k + 1) lists
  end.
Definition free_blocks (z : zone) : list (Z * Z) := list_blocks 0 (free_lists z).

(** The free blocks and the blocks [live], which are allocated, are aligned and
    partition the first [lim] pages of the zone: every page is in exactly one of
    them. *)
Record zone_inv (lim : Z) (z : zone) (live : list (Z * Z)) : Prop := {
  zi_lists : Z.of_nat (length (free_lists z)) = MAX_PAGE_ORDER + 1;
  zi_pages : Z.of_nat (length (pages z)) = num_pages z;
  zi_lim : 0 <= lim <= num_pages z;
  zi_ok : Forall block_ok (free_blocks z ++ live);
  zi_cover : flat_map block_pages (free_blocks z ++ live) ≡ₚ seqZ 0 lim;
  zi_free : forall p k, (p, k) ∈ free_blocks z -> arr_get (pages z) p = Some (Page false k);
  zi_base : 0 < base_addr z /\ base_addr z + num_pages z * PAGE_SIZE < 2 ^ 64 /\
            base_addr z mod PAGE_SIZE = 0
}.

Lemma list_blocks_focus lists : forall k (i : nat) l, lists !! i = Some l ->
  exists rest, list_blocks k lists ≡ₚ map (fun p => (p, k + Z.of_nat i)) l ++ rest /\
    forall l', list_blocks k (<[i := l']> lists) ≡ₚ map (fun p => (p, k + Z.of_nat i)) l' ++ rest.
Proof.
  induction lists as [|l0 lists IH]; intros k [|i] l Hl; simplify_eq/=.
  - exists (list_blocks (k + 1) lists). rewrite Z.add_0_r. done.
  - destruct (IH (k + 1) i l Hl) as (rest & E1 & E2).
    exists (map (fun p => (p, k)) l0 ++ rest).
    replace (k + Z.of_nat (S i)) with (k + 1 + Z.of_nat i) by lia.
    split; [rewrite E1 | intros l'; rewrite E2]; solve_Permutation.
Qed.

Lemma free_blocks_focus z k l : arr_get (free_lists z) k = Some l ->
  exists rest, free_blocks z ≡ₚ map (fun p => (p, k)) l ++ rest /\
    forall l' lists, arr_set (free_lists z) k l' = Some lists ->
      list_blocks 0 lists ≡ₚ map (fun p => (p, k)) l' ++ rest.
Proof.
  intros [Hk Hl]%arr_get_Some. destruct (list_blocks_focus _ 0 _ _ Hl) as (rest & E1 & E2).
  rewrite Z.add_0_l, Z2Nat.id in * by done. exists rest. split; [done|].
  intros l' lists [_ ->]%arr_set_inv. apply E2.
Qed.

Lemma elem_of_list_blocks p lists : forall k, p ∈ concat lists -> exists j, (p, j) ∈ list_blocks k lists.
Proof.
  induction lists as [|l lists IH]; intros k Hp; simpl in *; [by apply elem_of_nil in Hp|].
  apply elem_of_app in Hp as [Hp|Hp].
  - exists k. apply elem_of_app. left. apply list_elem_of_fmap. eauto.
  - destruct (IH (k + 1) Hp) as [j Hj]. exists j. apply elem_of_app. auto.
Qed.

Lemma list_blocks_elem p j lists : forall k, (p, j) ∈ list_blocks k lists -> p ∈ concat lists.
Proof.
  induction lists as [|l lists IH]; intros k Hp; simpl in *; [by apply elem_of_nil in Hp|].
  apply elem_of_app in Hp as [Hp|Hp]; apply elem_of_app; [left | right; by eapply IH].
  apply list_elem_of_fmap in Hp as (? & [= -> ->] & ?). done.
Qed.

Lemma block_first b : 0 <= b.2 -> b.1 ∈ block_pages b.
Proof. intros. unfold block_pages. apply elem_of_seqZ. pose proof (Z.pow_pos_nonneg 2 b.2). lia. Qed.

Lemma elem_of_flat_map_blocks x bs b : b ∈ bs -> x ∈ block_pages b -> x ∈ flat_map block_pages bs.
Proof.
  intros Hb Hx. apply list_elem_of_In, in_flat_map. exists b. split; by apply list_elem_of_In.
Qed.

(** Two blocks at different places of a partition do not share a page. *)
Lemma cover_disjoint lim b bs b' x :
  flat_map block_pages (b :: bs) ≡ₚ seqZ 0 lim -> b' ∈ bs -> x ∈ block_pages b -> (x ∉ block_pages b').
Proof.
  intros Hc Hb Hx Hx'.
  assert (Hnd : NoDup (flat_map block_pages (b :: bs))) by (rewrite Hc; apply NoDup_seqZ).
  simpl in Hnd. apply NoDup_app in Hnd as (_ & Hd & _). apply (Hd x Hx).
  by eapply elem_of_flat_map_blocks.
Qed.

Lemma zone_inv_bounds lim z live b :
  zone_inv lim z live -> b ∈ free_blocks z ++ live -> 0 <= b.1 /\ b.1 + 2 ^ b.2 <= lim /\ 0 <= b.2 <= MAX_PAGE_ORDER.
Proof.
  intros H Hb. pose proof (zi_ok _ _ _ H) as Hok. rewrite Forall_forall in Hok.
  destruct (Hok b Hb) as (Hk & Hp & _). split; [done|]. split; [|done].
  assert (b.1 + 2 ^ b.2 - 1 ∈ seqZ 0 lim).
  { rewrite <- (zi_cover _ _ _ H). eapply elem_of_flat_map_blocks; [done|].
    apply elem_of_seqZ. pose proof (Z.pow_pos_nonneg 2 b.2). lia. }
  apply elem_of_seqZ in H0. lia.
Qed.

(** The blocks that are allocated can be rearranged and cut up. *)
Lemma zone_inv_live lim z live live' :
  zone_inv lim z live -> Forall block_ok live' ->
  flat_map block_pages live ≡ₚ flat_map block_pages live' -> zone_inv lim z live'.
Proof.
  intros [? ? ? Hok Hc ? ?] Hok' Hp. split; try done.
  - apply Forall_app in Hok as [? _]. by apply Forall_app.
  - rewrite <- Hc, !flat_map_app. by rewrite Hp.
Qed.

Lemma block_halves p k : 0 <= k -> block_pages (p, k + 1) = block_pages (p, k) ++ block_pages (p + 2 ^ k, k).
Proof.
  intros. unfold block_pages; simpl. rewrite <- seqZ_app by (pose proof (Z.pow_pos_nonneg 2 k); lia).
  f_equal. rewrite Z.pow_add_r by lia. lia.
Qed.

Lemma buddy_of p k : 0 <= k -> 0 <= p -> (2 ^ (k + 1) | p) -> compute_buddy_pfn p k = p + 2 ^ k.
Proof.
  intros Hk Hp [q Hq]. unfold compute_buddy_pfn. rewrite Z.shiftl_1_l.
  assert (Hl : Z.land p (2 ^ k) = 0).
  { apply Z.bits_inj'. intros i Hi. rewrite Z.land_spec, Z.bits_0, Z.pow2_bits_eqb by done.
    destruct (Z.eqb_spec k i) as [->|]; [|apply andb_false_r].
    rewrite Hq, Z.mul_pow2_bits_low by lia. done. }
  symmetry. by apply Z.add_nocarry_lxor.
Qed.

(** ** The operations on a zone *)

Lemma zone_inv_list lim z live k : zone_inv lim z live -> 0 <= k <= MAX_PAGE_ORDER ->
  exists l, arr_get (free_lists z) k = Some l.
Proof.
  intros H Hk. destruct (proj2 (arr_get_is_Some (free_lists z) k)) as [l Hl]; [|eauto].
  rewrite (zi_lists _ _ _ H). lia.
Qed.

Lemma free_block_intro z k l p : arr_get (free_lists z) k = Some l -> p ∈ l -> (p, k) ∈ free_blocks z.
Proof.
  intros Hl Hp. destruct (free_blocks_focus _ _ _ Hl) as (rest & E & _). rewrite E.
  apply elem_of_app. left. apply list_elem_of_fmap. eauto.
Qed.

Lemma alloc_from_zone_none z k :
  arr_get (free_lists z) k = Some [] -> alloc_from_zone k z = Done (None, z).
Proof. intros Hl. unfold alloc_from_zone, bind, get, need. by rewrite Hl. Qed.

Lemma alloc_from_zone_some lim z live k p l :
  zone_inv lim z live -> arr_get (free_lists z) k = Some (p :: l) ->
  exists z', alloc_from_zone k z = Done (Some p, z') /\ zone_inv lim z' ((p, k) :: live) /\
    num_pages z' = num_pages z /\ base_addr z' = base_addr z /\
    (p, k) ∈ free_blocks z /\ free_blocks z ≡ₚ (p, k) :: free_blocks z'.
Proof.
  intros H Hl. pose proof (free_block_intro _ _ _ p Hl ltac:(by left)) as Hpk.
  pose proof (zi_free _ _ _ H _ _ Hpk) as Hpage.
  assert (is_Some (arr_get (free_lists z) k)) as Hk by eauto. apply arr_get_is_Some in Hk.
  assert (is_Some (arr_get (pages z) p)) as Hp by eauto. apply arr_get_is_Some in Hp.
  destruct (free_blocks_focus _ _ _ Hl) as (rest & E & E').
  pose proof (arr_set_Some (free_lists z) k l Hk) as Hsl.
  pose proof (arr_set_Some (pages z) p (Page true k) Hp) as Hsp.
  specialize (E' _ _ Hsl).
  assert (Efree : free_blocks z ≡ₚ (p, k) :: list_blocks 0 (<[Z.to_nat k := l]> (free_lists z))).
  { rewrite E, E'. done. }
  eexists. split.
  { unfold alloc_from_zone, bind, get, need. rewrite Hl. cbn [ret]. rewrite Hsl. cbn [ret]. rewrite Hpage.
    unfold ret, c_assert. cbn [AllocPages.order in_use]. rewrite Z.eqb_refl. cbn [negb]. unfold ret. rewrite Hsp. done. }
  split; [|split; [done|split; [done|split; [done|exact Efree]]]].
  destruct H as [H1 H2 H3 H4 H5 H6 H7]. split; simpl; try done.
  - by rewrite length_insert.
  - by rewrite length_insert.
  - unfold free_blocks at 1. simpl. rewrite Efree in H4. simpl in H4.
    rewrite <- Permutation_middle. done.
  - unfold free_blocks at 1. simpl. rewrite Efree in H5. simpl in H5. rewrite <- H5.
    rewrite <- Permutation_middle. done.
  - intros q j Hq. rewrite (arr_get_set _ _ _ _ _ Hsp). unfold free_blocks in Hq; simpl in Hq.
    assert (Hq' : (q, j) ∈ free_blocks z) by (rewrite Efree; by right).
    destruct (Z.eqb_spec q p) as [->|]; [|auto]. exfalso.
    rewrite Efree in H5. simpl in H5.
    rewrite Efree in H4. simpl in H4. apply Forall_cons in H4 as [[? _] H4].
    apply (cover_disjoint _ (p, k) _ (p, j) p H5); [by apply elem_of_app; left | by apply (block_first (p, k)); simpl; lia |].
    apply (block_first (p, j)). rewrite Forall_forall in H4. apply (H4 (p, j)). apply elem_of_app. by left.
Qed.

(** Adding a page that is in no free list. *)
Lemma add_to_free_list_run z p k :
  0 <= k < Z.of_nat (length (free_lists z)) -> 0 <= p < Z.of_nat (length (pages z)) ->
  (p ∉ concat (free_lists z)) ->
  exists z', add_to_free_list p k z = Done (tt, z') /\
    num_pages z' = num_pages z /\ base_addr z' = base_addr z /\
    length (free_lists z') = length (free_lists z) /\ length (pages z') = length (pages z) /\
    (forall q, arr_get (pages z') q = if q =? p then Some (Page false k) else arr_get (pages z) q) /\
    free_blocks z' ≡ₚ (p, k) :: free_blocks z /\
    (exists l, arr_get (free_lists z) k = Some l /\ arr_get (free_lists z') k = Some (l ++ [p])).
Proof.
  intros Hk Hp Hnew. destruct (proj2 (arr_get_is_Some (free_lists z) k) Hk) as [l Hl].
  pose proof (arr_set_Some (free_lists z) k (l ++ [p]) Hk) as Hsl.
  pose proof (arr_set_Some (pages z) p (Page false k) Hp) as Hsp.
  destruct (free_blocks_focus _ _ _ Hl) as (rest & E & E'). specialize (E' _ _ Hsl).
  eexists. split.
  { unfold add_to_free_list, bind, c_assert, get, need.
    rewrite (proj2 (Z.leb_le 0 k)) by lia. unfold ret. rewrite Hsp, Hl, Hsl.
    rewrite bool_decide_eq_false_2 by done. done. }
  simpl. split; [done|]. split; [done|]. split; [by rewrite length_insert|]. split; [by rewrite length_insert|].
  split; [intros q; by rewrite (arr_get_set _ _ _ _ _ Hsp)|]. split.
  - unfold free_blocks. simpl. rewrite E'. unfold free_blocks in E. rewrite E, map_app. simpl. solve_Permutation.
  - exists l. split; [done|]. by rewrite (arr_get_set _ _ _ _ _ Hsl), Z.eqb_refl.
Qed.

Lemma not_in_lists lim z live b :
  Forall block_ok (free_blocks z) -> 0 <= b.2 -> flat_map block_pages (b :: free_blocks z ++ live) ≡ₚ seqZ 0 lim ->
  (b.1 ∉ concat (free_lists z)).
Proof.
  intros Hok Hb Hc (j & Hj)%(elem_of_list_blocks _ _ 0).
  assert (block_ok (b.1, j)) as [? _] by (rewrite Forall_forall in Hok; by apply Hok).
  eapply (cover_disjoint _ b _ (b.1, j) b.1 Hc); [apply elem_of_app; by left | by apply block_first |].
  apply (block_first (b.1, j)). simpl in *. lia.
Qed.

(** A block that is allocated, or the next one of the pages not yet handed out,
    becomes free. *)
Lemma add_to_free_list_spec lim lim' z live live' p k :
  zone_inv lim z live -> block_ok (p, k) -> Forall block_ok live' -> lim' <= num_pages z -> 0 <= lim' ->
  flat_map block_pages ((p, k) :: free_blocks z ++ live') ≡ₚ seqZ 0 lim' ->
  exists z', add_to_free_list p k z = Done (tt, z') /\ zone_inv lim' z' live' /\
    num_pages z' = num_pages z /\ base_addr z' = base_addr z /\
    free_blocks z' ≡ₚ (p, k) :: free_blocks z /\
    (exists l, arr_get (free_lists z') k = Some (l ++ [p])).
Proof.
  intros H Hok Hlive' Hlim Hlim0 Hc. destruct H as [H1 H2 H3 H4 H5 H6 H7]. apply Forall_app in H4 as [H4 _].
  assert (Hp : 0 <= p < lim').
  { pose proof Hok as (? & ? & _). assert (p ∈ seqZ 0 lim') as Hp%elem_of_seqZ; [|lia].
    rewrite <- Hc. simpl. apply elem_of_app. left. apply (block_first (p, k)). simpl in *; lia. }
  destruct (add_to_free_list_run z p k) as (z' & E & En & Eb & El & Ep & Eg & Ef & l & _ & El').
  { destruct Hok. simpl in *. lia. }
  { lia. }
  { eapply (not_in_lists _ _ _ (p, k)); [done | destruct Hok; simpl in *; lia | done]. }
  exists z'. split; [done|]. split; [|by eauto 10]. split.
  - by rewrite El.
  - by rewrite Ep, En.
  - lia.
  - rewrite Ef. by constructor; [|apply Forall_app].
  - by rewrite Ef.
  - intros q j Hq. rewrite Eg. rewrite Ef in Hq. destruct (Z.eqb_spec q p) as [->|Hne].
    + apply elem_of_cons in Hq as [[= ->]|Hq]; [done|]. exfalso.
      eapply (not_in_lists _ _ _ (p, k) H4); [destruct Hok; simpl in *; lia | done |]. simpl.
      by eapply list_blocks_elem.
    + apply elem_of_cons in Hq as [[= -> ->]|Hq]; [done|]. auto.
  - by rewrite En, Eb.
Qed.

Lemma page_to_paddr_run lim z live p : zone_inv lim z live -> 0 <= p < num_pages z ->
  page_to_paddr p z = Done (base_addr z + p * PAGE_SIZE, z).
Proof.
  intros H Hp. unfold page_to_paddr, bind, get, c_assert.
  rewrite (proj2 (Z.leb_le 0 p)), (proj2 (Z.ltb_lt p (num_pages z))) by lia. unfold ret.
  rewrite u64_small; [done|]. pose proof (zi_base _ _ _ H). unfold PAGE_SIZE in *. lia.
Qed.

Lemma paddr_to_pfn_at z p :
  0 < base_addr z -> base_addr z mod PAGE_SIZE = 0 -> 0 <= p -> base_addr z + p * PAGE_SIZE < 2 ^ 64 ->
  paddr_to_pfn (base_addr z + p * PAGE_SIZE) z = Done (p, z).
Proof.
  intros Hb Hal Hp Hb2. unfold paddr_to_pfn, bind, get, c_assert.
  assert (Z.land (base_addr z + p * PAGE_SIZE) (PAGE_SIZE - 1) = 0) as ->.
  { change (PAGE_SIZE - 1) with (Z.ones 12). rewrite Z.land_ones by lia. change (2 ^ 12) with PAGE_SIZE.
    by rewrite Z.mod_add by done. }
  change (ulllog2 PAGE_SIZE) with (Done 13). unfold lift, ret. cbn [outcome_bind].
  change (0 =? 0) with true. cbn iota. change (13 - 1) with 12.
  replace (base_addr z + p * PAGE_SIZE - base_addr z) with (p * PAGE_SIZE) by lia.
  rewrite u64_small by (unfold PAGE_SIZE in *; lia). rewrite Z.shiftr_div_pow2 by lia.
  change (2 ^ 12) with PAGE_SIZE. by rewrite Z.div_mul by done.
Qed.

Lemma paddr_to_pfn_run lim z live p : zone_inv lim z live -> 0 <= p < num_pages z ->
  paddr_to_pfn (base_addr z + p * PAGE_SIZE) z = Done (p, z).
Proof.
  intros H Hp. destruct (zi_base _ _ _ H) as (Hb & Hb2 & Hal).
  apply paddr_to_pfn_at; try done; unfold PAGE_SIZE in *; lia.
Qed.

Lemma pfn_to_page_run z p : p < num_pages z -> pfn_to_page p z = Done (p, z).
Proof.
  intros. unfold pfn_to_page, bind, get, c_assert. by rewrite (proj2 (Z.ltb_lt p (num_pages z))) by done.
Qed.

(** A block that is allocated is put back. *)
Lemma add_live_spec lim z live p k :
  zone_inv lim z ((p, k) :: live) ->
  exists z', add_to_free_list p k z = Done (tt, z') /\ zone_inv lim z' live /\
    num_pages z' = num_pages z /\ base_addr z' = base_addr z /\
    free_blocks z' ≡ₚ (p, k) :: free_blocks z /\
    (exists l, arr_get (free_lists z') k = Some (l ++ [p])).
Proof.
  intros H. pose proof (zi_ok _ _ _ H) as Hok. pose proof (zi_cover _ _ _ H) as Hc.
  pose proof (zi_lim _ _ _ H). apply Forall_app in Hok as [_ Hok]. apply Forall_cons in Hok as [Hpk Hok].
  rewrite <- Permutation_middle in Hc. eapply add_to_free_list_spec; try done; lia.
Qed.

Lemma split_loop_spec lim live n : forall z from p l,
  zone_inv lim z live -> Z.of_nat n <= from -> arr_get (free_lists z) from = Some (p :: l) ->
  exists z' q l', split_loop n from z = Done (tt, z') /\ zone_inv lim z' live /\
    num_pages z' = num_pages z /\ base_addr z' = base_addr z /\
    arr_get (free_lists z') (from - Z.of_nat n) = Some (q :: l').
Proof.
  induction n as [|n IH]; intros z from p l H Hn Hl.
  { exists z, p, l. rewrite Z.sub_0_r. done. }
  destruct (alloc_from_zone_some _ _ _ _ _ _ H Hl) as (z1 & E1 & H1 & En1 & Eb1 & _ & _).
  set (k := from - 1). assert (from = k + 1) as Hfrom by lia. assert (0 <= k) as Hk0 by lia.
  assert (block_ok (p, from)) as (Hk12 & Hp & Hdiv).
  { pose proof (zi_ok _ _ _ H1) as Hok. apply Forall_app in Hok as [_ Hok]. by apply Forall_cons in Hok as [? _]. }
  simpl in Hk12, Hp, Hdiv. rewrite Hfrom in Hdiv.
  assert (Hb : p + 2 ^ (k + 1) <= lim).
  { pose proof (zone_inv_bounds _ _ _ (p, from) H1 ltac:(apply elem_of_app; right; by left)) as (_ & ? & _).
    simpl in *. by rewrite <- Hfrom. }
  assert (2 ^ (k + 1) = 2 * 2 ^ k) as Hpow by (rewrite Z.pow_add_r by lia; lia).
  pose proof (Z.pow_pos_nonneg 2 k ltac:(lia) ltac:(lia)) as Hpos. pose proof (zi_lim _ _ _ H1) as Hlim.
  assert (block_ok (p, k) /\ block_ok (p + 2 ^ k, k)) as [Hok1 Hok2].
  { destruct Hdiv as [c Hc]. unfold block_ok; simpl; split_and!; try lia;
      [exists (2 * c) | exists (2 * c + 1)]; rewrite Hc, Hpow; lia. }
  assert (H2 : zone_inv lim z1 ((p, k) :: (p + 2 ^ k, k) :: live)).
  { eapply zone_inv_live; [exact H1 | |].
    - pose proof (zi_ok _ _ _ H1) as Hok. apply Forall_app in Hok as [_ Hok]. apply Forall_cons in Hok as [_ Hok].
      constructor; [exact Hok1|]. constructor; [exact Hok2 | exact Hok].
    - cbn [flat_map]. rewrite Hfrom, block_halves by lia. by rewrite <- app_assoc. }
  destruct (add_live_spec _ _ _ _ _ H2) as (z2 & E2 & H3 & En2 & Eb2 & _ & _).
  destruct (add_live_spec _ _ _ _ _ H3) as (z3 & E3 & H4 & En3 & Eb3 & _ & l3 & El3).
  destruct (IH z3 k (hd (p + 2 ^ k) l3) (tl (l3 ++ [p + 2 ^ k]))) as (z' & q & l' & E & H5 & En & Eb & El);
    [done | lia | by destruct l3 |].
  exists z', q, l'. replace (from - Z.of_nat (S n)) with (k - Z.of_nat n) by lia.
  split; [|by rewrite En, Eb, En3, Eb3, En2, Eb2, En1, Eb1].
  cbn [split_loop]. fold k. eapply bind_intro; [done|]. cbn beta iota.
  eapply bind_intro.
  { unfold page_to_pfn. eapply bind_intro; [eapply page_to_paddr_run; [done | lia]|].
    eapply paddr_to_pfn_run; [done | lia]. }
  cbn beta. rewrite (buddy_of p k) by done.
  eapply bind_intro; [apply pfn_to_page_run; lia|]. do 2 (eapply bind_intro; [done|]). done.
Qed.

Lemma find_from_some n lists : forall from f, find_from n lists from = Some f ->
  from <= f < from + Z.of_nat n /\ exists p l, arr_get lists f = Some (p :: l).
Proof.
  induction n as [|n IH]; intros from f; [done|]. cbn [find_from].
  destruct (arr_get lists from) as [[|p l]|] eqn:E; intros Hf.
  1,3: destruct (IH _ _ Hf); split; [lia | done].
  injection Hf as <-. split; [lia | eauto].
Qed.

Lemma find_from_none n lists : forall from, find_from n lists from = None ->
  forall f p l, from <= f < from + Z.of_nat n -> arr_get lists f <> Some (p :: l).
Proof.
  induction n as [|n IH]; intros from Hf f p l Hr; [lia|]. cbn [find_from] in Hf.
  destruct (Z.eq_dec f from) as [->|]; [by destruct (arr_get lists from) as [[|]|]|].
  apply (IH (from + 1)); [|lia]. by destruct (arr_get lists from) as [[|]|].
Qed.

(** No block of order [k] or more is free. *)
Definition exhausted (k : Z) (z : zone) : Prop := forall p j, (p, j) ∈ free_blocks z -> j < k.

Lemma free_block_elim z p k : (p, k) ∈ free_blocks z ->
  exists l, arr_get (free_lists z) k = Some l /\ p ∈ l.
Proof.
  assert (forall lists n, (p, k) ∈ list_blocks n lists -> n <= k /\ exists l, lists !! Z.to_nat (k - n) = Some l /\ p ∈ l) as Hgen.
  { induction lists as [|l lists IH]; intros n Hp; simpl in *; [by apply elem_of_nil in Hp|].
    apply elem_of_app in Hp as [Hp|Hp].
    - apply list_elem_of_fmap in Hp as (? & [= -> ->] & ?). rewrite Z.sub_diag. split; [lia | eauto].
    - destruct (IH _ Hp) as (Hle & l' & Hl' & ?). split; [lia|]. exists l'. split; [|done].
      replace (Z.to_nat (k - n)) with (S (Z.to_nat (k - (n + 1)))) by lia. done. }
  intros (Hk & l & Hl & ?)%(Hgen _ 0). rewrite Z.sub_0_r in Hl. exists l. by rewrite arr_get_Some.
Qed.

Lemma split_spec lim z live k :
  zone_inv lim z live -> 0 <= k < MAX_PAGE_ORDER -> arr_get (free_lists z) k = Some [] ->
  (split k z = Done (ERR_OUT_OF_MEMORY, z) /\ exhausted k z) \/
  (exists z' p l, split k z = Done (OK, z') /\ zone_inv lim z' live /\
     num_pages z' = num_pages z /\ base_addr z' = base_addr z /\ arr_get (free_lists z') k = Some (p :: l)).
Proof.
  intros H Hk Hl. assert (Hs : forall r, (match find_from (Z.to_nat (MAX_PAGE_ORDER - k)) (free_lists z) (k + 1) with
      | None => ret ERR_OUT_OF_MEMORY
      | Some from => split_loop (Z.to_nat (from - k)) from ;;; ret OK end) z = r -> split k z = r).
  { intros r <-. unfold split, bind, get, need, c_assert. rewrite Hl. unfold ret at 1.
    rewrite (proj2 (Z.ltb_lt k MAX_PAGE_ORDER)) by lia. done. }
  destruct (find_from _ _ _) as [from|] eqn:Ef.
  - apply find_from_some in Ef as (Hr & p & l & Hp). right.
    destruct (split_loop_spec lim live (Z.to_nat (from - k)) z from p l) as (z' & q & l' & E & ?); [done | lia | done |].
    exists z', q, l'. split; [|by replace (from - Z.of_nat (Z.to_nat (from - k))) with k in * by lia].
    apply Hs. by eapply bind_intro.
  - left. split; [by apply Hs|]. intros p j (l & Hj & Hp)%free_block_elim.
    assert (is_Some (arr_get (free_lists z) j)) as Hj' by eauto. apply arr_get_is_Some in Hj'.
    rewrite (zi_lists _ _ _ H) in Hj'. destruct (Z.lt_ge_cases j k); [done|]. exfalso.
    destruct (Z.eq_dec j k) as [->|]; [rewrite Hl in Hj; injection Hj as <-; by apply elem_of_nil in Hp|].
    destruct l as [|x l]; [by apply elem_of_nil in Hp|].
    eapply find_from_none; [exact Ef | | exact Hj]. lia.
Qed.

Lemma alloc_in_zone_spec lim z live k :
  zone_inv lim z live -> 0 <= k < MAX_PAGE_ORDER ->
  (alloc_in_zone 2 k z = Done (None, z) /\ exhausted k z) \/
  (exists z' p, alloc_in_zone 2 k z = Done (Some (base_addr z + p * PAGE_SIZE), z') /\
     0 <= p /\ zone_inv lim z' ((p, k) :: live) /\ num_pages z' = num_pages z /\ base_addr z' = base_addr z).
Proof.
  intros H Hk. destruct (zone_inv_list _ _ _ k H) as [l Hl]; [lia|].
  assert (Hsome : forall n z0 p l0, zone_inv lim z0 live -> arr_get (free_lists z0) k = Some (p :: l0) ->
      exists z', alloc_in_zone (S n) k z0 = Done (Some (base_addr z0 + p * PAGE_SIZE), z') /\
        0 <= p /\ zone_inv lim z' ((p, k) :: live) /\ num_pages z' = num_pages z0 /\ base_addr z' = base_addr z0).
  { intros n z0 p l0 H0 Hl0. destruct (alloc_from_zone_some _ _ _ _ _ _ H0 Hl0) as (z' & E & H' & En & Eb & _).
    pose proof (zone_inv_bounds _ _ _ (p, k) H' ltac:(apply elem_of_app; right; by left)) as (Hp & Hp2 & _).
    simpl in Hp, Hp2. pose proof (Z.pow_pos_nonneg 2 k). pose proof (zi_lim _ _ _ H').
    exists z'. split; [|done]. cbn [alloc_in_zone]. eapply bind_intro; [done|]. cbn beta iota.
    eapply bind_intro; [eapply page_to_paddr_run; [done | lia]|]. by rewrite Eb. }
  destruct l as [|p l]; [|right; destruct (Hsome 1%nat z p l H Hl) as (z' & ?); eauto].
  cbn [alloc_in_zone]. rewrite (bind_intro _ _ _ _ _ _ (alloc_from_zone_none _ _ Hl) eq_refl).
  destruct (split_spec _ _ _ _ H Hk Hl) as [[E Hex]|(z1 & p & l & E & H1 & En & Eb & Hl1)].
  - left. by rewrite (bind_intro _ _ _ _ _ _ E eq_refl).
  - right. rewrite (bind_intro _ _ _ _ _ _ E eq_refl).
    destruct (Hsome 0%nat z1 p l H1 Hl1) as (z' & E' & ? & ? & En' & Eb').
    exists z', p. rewrite <- Eb, <- En. done.
Qed.

Definition zones_inv : list zone -> list (list (Z * Z)) -> Prop :=
  Forall2 (fun z live => zone_inv (num_pages z) z live).

(** C34: [alloc_pages] is correct for every order below the maximum.  In zones whose
    free and allocated blocks partition their pages, it either returns 0, changes
    nothing, and no zone has a free block that is large enough; or it returns the
    non-zero address of an aligned block of [2^order] pages of one zone that shares
    no page with any block allocated before, and the partition holds again with
    that block allocated.  It never fails an assertion and its retry loop ends. *)
Theorem alloc_pages_correct (k : Z) (zones : list zone) (lives : list (list (Z * Z)))
    (Hinv : zones_inv zones lives) (Hk : 0 <= k < MAX_PAGE_ORDER) :
  (alloc_pages k zones = Done (0, zones) /\ Forall (exhausted k) zones) \/
  (exists i z live p zones', zones !! i = Some z /\ lives !! i = Some live /\
     alloc_pages k zones = Done (base_addr z + p * PAGE_SIZE, zones') /\
     base_addr z + p * PAGE_SIZE <> 0 /\ block_ok (p, k) /\ p + 2 ^ k <= num_pages z /\
     (forall b x, b ∈ live -> x ∈ block_pages (p, k) -> (x ∉ block_pages b)) /\
     zones_inv zones' (<[i := (p, k) :: live]> lives)).
Proof.
  induction Hinv as [|z live zones lives Hz Hinv IH]; [by left|].
  cbn [alloc_pages]. destruct (alloc_in_zone_spec _ _ _ k Hz Hk) as [[E Hex]|(z' & p & E & Hp & H' & En & Eb)].
  - rewrite E. cbn [outcome_bind]. destruct IH as [[-> Hall]|(i & z0 & live0 & p & zones' & Hi & Hl & -> & Hr)].
    + left. split; [done|]. by constructor.
    + right. exists (S i), z0, live0, p, (z :: zones'). destruct Hr as (? & ? & ? & ? & Hr).
      split_and!; try done. simpl. by constructor.
  - rewrite E. right. exists 0%nat, z, live, p, (z' :: zones).
    pose proof (zone_inv_bounds _ _ _ (p, k) H' ltac:(apply elem_of_app; right; by left)) as (_ & Hlim & _).
    pose proof (zi_base _ _ _ Hz) as (Hbase & _ & _).
    pose proof (zi_ok _ _ _ H') as Hok. apply Forall_app in Hok as [_ Hok]. apply Forall_cons in Hok as [Hok _].
    split_and!; try done; [unfold PAGE_SIZE; lia | | simpl; constructor; [by rewrite En | done]].
    intros b x Hb Hx. eapply (cover_disjoint _ (p, k) (free_blocks z' ++ live)); [|apply elem_of_app; by right | done].
    rewrite Permutation_middle. apply (zi_cover _ _ _ H').
Qed.

(** Freeing gives a block back: [free_pages] of a block that is allocated in
    the first zone returns, and the partition holds with the block free. *)
Theorem free_pages_correct (p k : Z) (z : zone) (zones : list zone) (live : list (Z * Z))
    (Hinv : zone_inv (num_pages z) z ((p, k) :: live)) :
  exists z', free_pages (base_addr z + p * PAGE_SIZE) k (z :: zones) = Done (z' :: zones) /\
    zone_inv (num_pages z') z' live /\ free_blocks z' ≡ₚ (p, k) :: free_blocks z.
Proof.
  destruct (add_live_spec _ _ _ _ _ Hinv) as (z' & E & H' & En & Eb & Ef & _).
  pose proof (zone_inv_bounds _ _ _ (p, k) Hinv ltac:(apply elem_of_app; right; by left)) as (Hp & Hp2 & Hk).
  simpl in Hp, Hp2, Hk. pose proof (Z.pow_pos_nonneg 2 k).
  pose proof (paddr_to_pfn_run _ _ _ p Hinv ltac:(lia)) as Epfn.
  exists z'. split; [|by rewrite En].
  unfold free_pages. cbn [free_loop]. unfold is_paddr_in_zone.
  rewrite (proj2 (Z.leb_le _ _)) by (unfold PAGE_SIZE; lia). rewrite Epfn. cbn [outcome_bind].
  rewrite (proj2 (Z.ltb_lt p (num_pages z))) by lia. unfold free_in_zone.
  rewrite (bind_intro _ _ _ _ _ _ Epfn eq_refl), (bind_intro _ _ _ _ _ _ (pfn_to_page_run z p ltac:(lia)) eq_refl).
  rewrite (bind_intro _ _ _ _ _ _ E eq_refl). unfold merge.
  rewrite (bind_intro _ _ _ _ _ _ (pfn_to_page_run z' p ltac:(lia)) eq_refl).
  unfold bind, get, need. rewrite (zi_free _ _ _ H' p k) by (rewrite Ef; by left). done.
Qed.

(** ** Initialisation *)

Lemma add_entries_spec k base n : forall i z,
  0 <= k <= MAX_PAGE_ORDER -> 0 <= base -> (2 ^ k | base) -> 0 <= i ->
  zone_inv (base + i * 2 ^ k) z [] -> base + (i + Z.of_nat n) * 2 ^ k <= num_pages z ->
  exists z', add_entries n i base (2 ^ k) k z = Done (tt, z') /\ num_pages z' = num_pages z /\
    base_addr z' = base_addr z /\ zone_inv (base + (i + Z.of_nat n) * 2 ^ k) z' [].
Proof.
  induction n as [|n IH]; intros i z Hk Hb Hdiv Hi H Hn.
  { exists z. by rewrite Z.add_0_r. }
  pose proof (Z.pow_pos_nonneg 2 k ltac:(lia) ltac:(lia)) as Hpos.
  destruct (add_to_free_list_spec _ (base + (i + 1) * 2 ^ k) z [] [] (base + i * 2 ^ k) k H)
    as (z1 & E & H1 & En & Eb & _); [| done | nia | nia | |].
  { split; simpl; [lia|]. split; [lia|]. apply Z.divide_add_r; [done|]. apply Z.divide_factor_r. }
  { pose proof (zi_cover _ _ _ H) as Hc. rewrite app_nil_r in Hc |- *. cbn [flat_map]. rewrite Hc.
    rewrite Permutation_app_comm. unfold block_pages; simpl.
    replace (base + (i + 1) * 2 ^ k) with (base + i * 2 ^ k + 2 ^ k) by lia. rewrite (seqZ_app 0 (base + i * 2 ^ k) (2 ^ k)) by lia. done. }
  destruct (IH (i + 1) z1) as (z' & E' & En' & Eb' & H'); try done; [lia | rewrite En; lia |].
  exists z'. rewrite En', Eb', En, Eb. split; [|split; [done|split; [done|]]].
  - cbn [add_entries]. by eapply bind_intro.
  - by replace (i + Z.of_nat (S n)) with (i + 1 + Z.of_nat n) by lia.
Qed.

Lemma add_orders_spec n : forall r z,
  Z.of_nat n <= MAX_PAGE_ORDER + 1 -> 0 <= r -> (Z.of_nat n <= MAX_PAGE_ORDER -> r < 2 ^ Z.of_nat n) ->
  (2 ^ Z.of_nat n | num_pages z - r) -> zone_inv (num_pages z - r) z [] ->
  exists z', add_orders n r (num_pages z) z = Done (tt, z') /\ num_pages z' = num_pages z /\
    base_addr z' = base_addr z /\ zone_inv (num_pages z) z' [].
Proof.
  induction n as [|n IH]; intros r z Hn Hr Hlt Hdiv H.
  { assert (r = 0) as -> by (unfold MAX_PAGE_ORDER in *; simpl in *; lia). exists z. by rewrite Z.sub_0_r in H. }
  cbn [add_orders]. destruct (Z.ltb_spec 0 r) as [Hpos|Hz].
  2: { assert (r = 0) as -> by lia. exists z. by rewrite Z.sub_0_r in H. }
  set (k := Z.of_nat n). assert (Hk : 0 <= k <= MAX_PAGE_ORDER) by lia.
  assert (POW2 k = 2 ^ k) as -> by (unfold POW2; by rewrite Z.shiftl_1_l).
  pose proof (Z.pow_pos_nonneg 2 k ltac:(lia) ltac:(lia)) as Hp2.
  pose proof (Z.div_mod r (2 ^ k) ltac:(lia)) as Hdm. pose proof (Z.mod_pos_bound r (2 ^ k) Hp2) as Hmod.
  pose proof (Z.div_pos r (2 ^ k) Hr Hp2) as Hq. pose proof (zi_lim _ _ _ H) as Hlim.
  assert (Hdiv' : (2 ^ k | num_pages z - r)).
  { etransitivity; [|exact Hdiv]. exists 2. replace (Z.of_nat (S n)) with (k + 1) by lia. rewrite Z.pow_add_r by lia. lia. }
  destruct (add_entries_spec k (num_pages z - r) (Z.to_nat (r / 2 ^ k)) 0 z) as (z1 & E & En & Eb & H1);
    [lia | lia | done | lia | by rewrite Z.mul_0_l, Z.add_0_r | rewrite Z2Nat.id by lia; lia |].
  rewrite Z2Nat.id in H1 by lia.
  replace (num_pages z - r + (0 + r / 2 ^ k) * 2 ^ k) with (num_pages z - (r - r / 2 ^ k * 2 ^ k)) in H1 by lia.
  rewrite <- En in H1.
  destruct (IH (r - r / 2 ^ k * 2 ^ k) z1) as (z' & E' & En' & Eb' & H'); [lia | lia | fold k; lia | | done |].
  { fold k. rewrite En. replace (num_pages z - (r - r / 2 ^ k * 2 ^ k)) with (num_pages z - r + r / 2 ^ k * 2 ^ k) by lia.
    apply Z.divide_add_r; [done|]. apply Z.divide_factor_r. }
  rewrite En in E', H'. exists z'. split; [by eapply bind_intro|]. by rewrite En', Eb', En, Eb.
Qed.

Lemma init_zone_ok (uninit : Z -> Z) (zid start end_ : Z) :
  0 < start -> end_ < 2 ^ 64 -> start mod PAGE_SIZE = 0 -> start + 200 * PAGE_SIZE <= end_ ->
  exists z, init_zone uninit zid start end_ = Done z /\ zone_inv (num_pages z) z [] /\
    start < base_addr z /\ base_addr z + num_pages z * PAGE_SIZE <= end_.
Proof.
  intros Hstart Hend Hal Hsize. unfold init_zone. rewrite u64_small by (unfold PAGE_SIZE in *; lia).
  set (t := (end_ - start) / PAGE_SIZE).
  assert (Ht : 200 <= t) by (apply Z.div_le_lower_bound; unfold PAGE_SIZE in *; lia).
  pose proof (Z.mul_div_le (end_ - start) PAGE_SIZE ltac:(done)) as Ht2. fold t in Ht2.
  pose proof (Z.div_mod t 100 ltac:(lia)) as Hdm. pose proof (Z.mod_pos_bound t 100 ltac:(lia)) as Hmb.
  set (q := t / 100) in *. assert (Hq : 2 <= q) by lia. unfold INTERNAL_PAGES_PERC. rewrite Z.mul_1_r.
  rewrite (proj2 (Z.ltb_lt 0 q)) by lia. cbn [negb].
  assert (Hfit : t - q <= q * PAGE_SIZE / SIZEOF_PAGE).
  { apply Z.div_le_lower_bound; unfold SIZEOF_PAGE, PAGE_SIZE in *; lia. }
  rewrite (proj2 (Z.leb_le _ _) Hfit). cbn [negb].
  rewrite u64_small by (unfold PAGE_SIZE in *; lia).
  set (z0 := Zone _ _ _ _ _).
  destruct (add_orders_spec 13 (t - q) z0) as (z & E & En & Eb & H); [done | lia | done | | |].
  { exists 0. simpl. lia. }
  { simpl num_pages. rewrite Z.sub_diag. split; simpl; try done.
    - rewrite length_map, length_seq. lia.
    - lia.
    - intros p k Hp. by apply elem_of_nil in Hp.
    - split; [unfold PAGE_SIZE in *; lia|]. split; [unfold PAGE_SIZE in *; lia|]. by rewrite Z.mod_add by done. }
  exists z. change (Z.to_nat (MAX_PAGE_ORDER + 1)) with 13%nat. change (num_pages z0) with (t - q) in E.
  rewrite E. split; [done|]. rewrite En, Eb. split; [done|]. simpl. unfold PAGE_SIZE in *. lia.
Qed.

(** [init_zone] turns every page-aligned memory region of at least 200 pages
    into a zone in which nothing is allocated and the free blocks partition the
    data pages. *)
Theorem init_zone_partition (uninit : Z -> Z) (zid start end_ : Z)
    (Hstart : 0 < start) (Hend : end_ < 2 ^ 64) (Hal : start mod PAGE_SIZE = 0)
    (Hsize : start + 200 * PAGE_SIZE <= end_) :
  exists z, init_zone uninit zid start end_ = Done z /\ zone_inv (num_pages z) z [] /\
    start < base_addr z /\ base_addr z + num_pages z * PAGE_SIZE <= end_.
Proof. by apply init_zone_ok. Qed.

Lemma init_zone_partition_witness :
  exists z, init_zone (fun _ => 0) 0 FREE_MEMORY_START 0x10000000 = Done z /\ zone_inv (num_pages z) z [] /\
    FREE_MEMORY_START < base_addr z /\ base_addr z + num_pages z * PAGE_SIZE <= 0x10000000.
Proof. apply (init_zone_partition (fun _ => 0) 0 FREE_MEMORY_START 0x10000000); done. Defined.

(** Two zones, of 198 and 396 data pages. *)
Definition ex_zone_at (start num : Z) : zone :=
  match init_zone (fun _ => 0) 0 start (start + num * PAGE_SIZE) with
  | Done z => z
  | _ => Zone [] 0 [] 0 0
  end.
Definition ex_zone : zone := ex_zone_at 0x4000000 200.
Definition ex_zone2 : zone := ex_zone_at 0x8000000 400.

Lemma ex_zone_at_inv start num :
  0 < start -> start + num * PAGE_SIZE < 2 ^ 64 -> start mod PAGE_SIZE = 0 -> 200 <= num ->
  zone_inv (num_pages (ex_zone_at start num)) (ex_zone_at start num) [].
Proof.
  intros. destruct (init_zone_ok (fun _ => 0) 0 start (start + num * PAGE_SIZE)) as (z & E & Hz & _); try done.
  { unfold PAGE_SIZE. lia. }
  unfold ex_zone_at. by rewrite E.
Qed.

Lemma ex_zone_inv : zone_inv (num_pages ex_zone) ex_zone [].
Proof. by apply ex_zone_at_inv. Qed.

Lemma alloc_pages_correct_witness :
  (alloc_pages 3 [ex_zone] = Done (0, [ex_zone]) /\ Forall (exhausted 3) [ex_zone]) \/
  (exists i z live p zones', [ex_zone] !! i = Some z /\ [[]] !! i = Some live /\
     alloc_pages 3 [ex_zone] = Done (base_addr z + p * PAGE_SIZE, zones') /\
     base_addr z + p * PAGE_SIZE <> 0 /\ block_ok (p, 3) /\ p + 2 ^ 3 <= num_pages z /\
     (forall b x, b ∈ live -> x ∈ block_pages (p, 3) -> (x ∉ block_pages b)) /\
     zones_inv zones' (<[i := (p, 3) :: live]> [[]])).
Proof.
  apply (alloc_pages_correct 3 [ex_zone] [[]]); [|done].
  constructor; [exact ex_zone_inv | constructor].
Defined.

(** The block of a first allocation. *)
Lemma alloc_in_zone_first lim z k p :
  zone_inv lim z [] -> 0 <= k < MAX_PAGE_ORDER -> (p, k) ∈ free_blocks z ->
  exists z' q, alloc_in_zone 2 k z = Done (Some (base_addr z + q * PAGE_SIZE), z') /\
    zone_inv lim z' [(q, k)] /\ num_pages z' = num_pages z /\ base_addr z' = base_addr z.
Proof.
  intros H Hk Hp. destruct (alloc_in_zone_spec _ _ _ k H Hk) as [[_ Hex]|(z' & q & E & _ & H' & En & Eb)].
  - specialize (Hex _ _ Hp). lia.
  - exists z', q. done.
Qed.

Lemma free_pages_correct_witness :
  exists z p z', alloc_in_zone 2 1 ex_zone = Done (Some (base_addr z + p * PAGE_SIZE), z) /\
    free_pages (base_addr z + p * PAGE_SIZE) 1 [z; ex_zone2] = Done [z'; ex_zone2] /\
    zone_inv (num_pages z') z' [] /\ free_blocks z' ≡ₚ (p, 1) :: free_blocks z.
Proof.
  destruct (alloc_in_zone_first _ _ 1 196 ex_zone_inv) as (z & p & E & H & En & Eb); [done | |].
  { apply (bool_decide_unpack _). vm_compute. exact I. }
  rewrite <- En, <- Eb in *.
  destruct (free_pages_correct p 1 z [ex_zone2] [] H) as (z' & Hfree). exists z, p, z'. exact (conj E Hfree).
Defined.

(** [free_pages] rejects pages of the second zone: [is_paddr_in_zone] compares
    with the size of the first zone, so for a block allocated in a second zone at a
    page number the first zone does not have, no zone is found and the assertion
    fails. *)
Theorem free_pages_second_zone (p k : Z) (z0 z1 : zone) (live0 live1 : list (Z * Z))
    (H0 : zone_inv (num_pages z0) z0 live0) (H1 : zone_inv (num_pages z1) z1 ((p, k) :: live1))
    (Hp : num_pages z0 <= p) (Hsep : base_addr z0 + num_pages z0 * PAGE_SIZE <= base_addr z1) :
  free_pages (base_addr z1 + p * PAGE_SIZE) k [z0; z1] = Panic.
Proof.
  pose proof (zone_inv_bounds _ _ _ (p, k) H1 ltac:(apply elem_of_app; right; by left)) as (Hp0 & Hp2 & Hk).
  simpl in Hp0, Hp2, Hk. pose proof (Z.pow_pos_nonneg 2 k).
  destruct (zi_base _ _ _ H0) as (Hb0 & _ & Hal0). destruct (zi_base _ _ _ H1) as (Hb1 & Hb1' & Hal1).
  pose proof (paddr_to_pfn_run _ _ _ p H1 ltac:(lia)) as E1.
  pose proof (zi_lim _ _ _ H0) as Hl0. set (paddr := base_addr z1 + p * PAGE_SIZE) in *.
  assert (exists n, paddr = base_addr z0 + n * PAGE_SIZE /\ num_pages z0 <= n) as (n & Hn & Hn0).
  { exists ((paddr - base_addr z0) / PAGE_SIZE). unfold paddr, PAGE_SIZE in *.
    pose proof (Z.div_mod (base_addr z0) 4096). pose proof (Z.div_mod (base_addr z1) 4096).
    replace (base_addr z1 + p * 4096 - base_addr z0) with ((base_addr z1 / 4096 + p - base_addr z0 / 4096) * 4096) by lia.
    rewrite Z.div_mul by lia. lia. }
  assert (E0 : paddr_to_pfn paddr z0 = Done (n, z0)).
  { rewrite Hn. apply paddr_to_pfn_at; try done; unfold paddr, PAGE_SIZE in *; lia. }
  unfold free_pages. cbn [free_loop]. unfold is_paddr_in_zone.
  rewrite E0, E1, !(proj2 (Z.leb_le _ _)) by (unfold paddr, PAGE_SIZE in *; lia). cbn [outcome_bind].
  by rewrite (proj2 (Z.ltb_ge n _)), (proj2 (Z.ltb_ge p _)) by done.
Qed.

Lemma ex_zone2_inv : zone_inv (num_pages ex_zone2) ex_zone2 [].
Proof. by apply ex_zone_at_inv. Qed.

Lemma free_pages_second_zone_witness :
  exists z1, alloc_from_zone 7 ex_zone2 = Done (Some 256, z1) /\
    free_pages (base_addr z1 + 256 * PAGE_SIZE) 7 [ex_zone; z1] = Panic.
Proof.
  assert (Hl : arr_get (free_lists ex_zone2) 7 = Some [256]) by (vm_compute; reflexivity).
  destruct (alloc_from_zone_some _ _ _ _ _ _ ex_zone2_inv Hl) as (z1 & E & H1 & En & Eb & _).
  exists z1. split; [exact E|]. rewrite <- En in H1.
  apply (free_pages_second_zone 256 7 ex_zone z1 [] [] ex_zone_inv H1).
  - vm_compute. discriminate.
  - rewrite Eb. vm_compute. discriminate.
Defined.

(** The order of a request is not checked: in the first zone, order 12 with no
    free block of that order fails the assertion of [split] instead of reporting
    that memory ran out, and an order above 12 or below 0 reads outside the free
    lists. *)
Theorem alloc_pages_bad_order (k : Z) (z : zone) (zones : list zone) (lim : Z) (live : list (Z * Z))
    (Hinv : zone_inv lim z live) :
  (k = MAX_PAGE_ORDER -> arr_get (free_lists z) k = Some [] -> alloc_pages k (z :: zones) = Panic) /\
  (k < 0 \/ MAX_PAGE_ORDER < k -> alloc_pages k (z :: zones) = Undef).
Proof.
  cbn [alloc_pages]. split.
  - intros -> Hl. cbn [alloc_in_zone]. rewrite (bind_intro _ _ _ _ _ _ (alloc_from_zone_none _ _ Hl) eq_refl).
    assert (split MAX_PAGE_ORDER z = Panic) as E; [|by unfold bind; rewrite E].
    unfold split, bind, get, need. by rewrite Hl.
  - intros Hk. assert (alloc_from_zone k z = Undef) as E.
    { unfold alloc_from_zone, bind, get, need. assert (arr_get (free_lists z) k = None) as ->; [|done].
      destruct (arr_get (free_lists z) k) eqn:E; [|done]. assert (is_Some (arr_get (free_lists z) k)) as Hs by eauto.
      apply arr_get_is_Some in Hs. rewrite (zi_lists _ _ _ Hinv) in Hs. lia. }
    cbn [alloc_in_zone]. unfold bind. by rewrite E.
Qed.

Lemma alloc_pages_bad_order_witness :
  alloc_pages 12 [ex_zone] = Panic /\ alloc_pages 13 [ex_zone] = Undef.
Proof.
  split.
  - apply (alloc_pages_bad_order 12 ex_zone [] _ _ ex_zone_inv); [done|]. vm_compute. reflexivity.
  - apply (alloc_pages_bad_order 13 ex_zone [] _ _ ex_zone_inv). right. done.
Defined.
