(* ===== verification/Setup.v ===== *)
(** * Machine setup

    The part of [kernel/arch/x64/setup.c] that computes something: the memory map
    and the framebuffer that the kernel passes to [memmgr], and the descriptors of
    the interrupt and segment tables. *)
From S2P Require Import Prelude Message KState Vm AllocPages.
Import Buddy.

(** ** The memory map of the boot loader *)

Record multiboot_mmap := MultibootMmap { mb_addr : Z; mb_len : Z; mb_type : Z }.
Definition SIZEOF_MULTIBOOT_MMAP : Z := 24.
Definition MULTIBOOT_MMAP_FREE : Z := 1.
Definition MULTIBOOT_MMAP_RESERVED : Z := 2.
Definition MULTIBOOT_MMAP_ACPI : Z := 3.
Definition MULTIBOOT_MMAP_NVS : Z := 4.
Definition MULTIBOOT_MMAP_BAD_RAM : Z := 5.

(** [struct multiboot_info], as far as it is read; [mbi_mmaps] is the array that
    [mmap_paddr] points to. *)
Record multiboot_info := MultibootInfo {
  mbi_mmap_len : Z;
  mbi_mmaps : list multiboot_mmap;
  mbi_framebuffer_paddr : Z;
  mbi_framebuffer_width : Z;
  mbi_framebuffer_height : Z;
  mbi_framebuffer_bpp : Z
}.

Record boot_framebuffer := BootFramebuffer {
  bf_available : bool; bf_paddr : Z; bf_width : Z; bf_height : Z; bf_bpp : Z
}.

(** [struct init_args]; the entries of [memory_maps] that are set. *)
Record init_args := InitArgs {
  ia_memory_maps : list memory_map;
  ia_framebuffer : boot_framebuffer;
  ia_num_memory_maps : Z
}.
Definition INIT_ARGS_MEMORY_MAPS_MAX : Z := 32.

(** The end of the memory that is passed on. *)
Definition MEMORY_LIMIT : Z := 0x10000000.

Module Setup.

Definition mmap_type (type : Z) : memory_map_type :=
  if type =? MULTIBOOT_MMAP_FREE then INITARGS_MEMORY_MAP_FREE
  else if type =? MULTIBOOT_MMAP_RESERVED then INITARGS_MEMORY_MAP_RESERVED
  else if type =? MULTIBOOT_MMAP_ACPI then INITARGS_MEMORY_MAP_RESERVED
  else if type =? MULTIBOOT_MMAP_NVS then INITARGS_MEMORY_MAP_RESERVED
  else if type =? MULTIBOOT_MMAP_BAD_RAM then INITARGS_MEMORY_MAP_RESERVED
  else INITARGS_MEMORY_MAP_RESERVED.

(** The loop over the entries from [i] on. *)
Fixpoint parse_mmaps (n : nat) (i : Z) (mmaps : list multiboot_mmap) : outcome (list memory_map) :=
  match n with
  | O => Done []
  | S n =>
      match arr_get mmaps i with
      | None => Undef
      | Some m =>
          let type := mmap_type (mb_type m) in
          let start := mb_addr m in
          let end_ := u64 (mb_addr m + mb_len m) in
          outcome_bind (parse_mmaps n (i + 1) mmaps) (fun rest =>
          if (end_ <? STRAIGHT_MAP_ADDR) || (MEMORY_LIMIT <? start) then Done rest
          else Done (MemoryMap type (Z.max start STRAIGHT_MAP_ADDR) (Z.min end_ MEMORY_LIMIT) :: rest))
      end
  end.

Section Config.
(** [CONFIG_TEXT_UI]. *)
Variable text_ui : bool.

Definition parse_multiboot_info (m : multiboot_info) (fb0 : boot_framebuffer) : outcome init_args :=
  let num_mmaps := mbi_mmap_len m / SIZEOF_MULTIBOOT_MMAP in
  if negb (num_mmaps <=? INIT_ARGS_MEMORY_MAPS_MAX - 1) then Panic
  else
    outcome_bind (parse_mmaps (Z.to_nat num_mmaps) 0 (mbi_mmaps m)) (fun maps =>
    let fb :=
      if text_ui then BootFramebuffer false (bf_paddr fb0) (bf_width fb0) (bf_height fb0) (bf_bpp fb0)
      else BootFramebuffer true (mbi_framebuffer_paddr m) (mbi_framebuffer_width m)
             (mbi_framebuffer_height m) (mbi_framebuffer_bpp m) in
    Done (InitArgs maps fb (Z.of_nat (length maps)))).
End Config.

(** ** Descriptors *)

Definition GDT_KERNEL_CODE : Z := 1.
Definition KERNEL_CS : Z := GDT_KERNEL_CODE * 8.
Definition IDT_INT_HANDLER : Z := 0x8e.

Record idt_entry := IdtEntry {
  offset1 : Z; seg : Z; ist : Z; info : Z; offset2 : Z; offset3 : Z; reserved : Z
}.

Definition set_idt_entry (handler ist : Z) : idt_entry :=
  IdtEntry (Z.land handler 0xffff) KERNEL_CS ist IDT_INT_HANDLER (Z.land (Z.shiftr handler 16) 0xffff)
    (Z.land (Z.shiftr handler 32) 0xffffffff) 0.

(** The two words of the descriptor of the TSS. *)
Definition gdt_tss (tss_addr : Z) : Z * Z :=
  (Z.lor (Z.lor (Z.lor 0x0000890000000067 (Z.shiftl (Z.land tss_addr 0xffff) 16))
       (Z.shiftl (Z.land (Z.shiftr tss_addr 16) 0xff) 32))
     (Z.shiftl (Z.land (Z.shiftr tss_addr 24) 0xff) 56),
   Z.shiftr tss_addr 32).

End Setup.
Import Setup.

(** The address the processor takes from a gate and from a TSS descriptor. *)
Definition gate_offset (e : idt_entry) : Z := offset1 e + offset2 e * 2 ^ 16 + offset3 e * 2 ^ 32.
Definition tss_base (d : Z * Z) : Z :=
  (d.1 / 2 ^ 16) mod 2 ^ 16 + (d.1 / 2 ^ 32) mod 2 ^ 8 * 2 ^ 16 + (d.1 / 2 ^ 56) mod 2 ^ 8 * 2 ^ 24 +
  d.2 mod 2 ^ 32 * 2 ^ 32.
Definition tss_limit (d : Z * Z) : Z := d.1 mod 2 ^ 16 + (d.1 / 2 ^ 48) mod 2 ^ 4 * 2 ^ 16.

(** ** The memory map *)

Definition in_mmap (m : multiboot_mmap) (paddr : Z) : Prop := mb_addr m <= paddr < mb_addr m + mb_len m.
Definition in_map (m : memory_map) (paddr : Z) : Prop := mm_start m <= paddr < mm_end m.

(** An entry that lies in the 64-bit address space. *)
Definition mmap_ok (m : multiboot_mmap) : Prop := 0 <= mb_addr m /\ 0 <= mb_len m /\ mb_addr m + mb_len m < 2 ^ 64.

(** Entries that reach the straight mapping, and what they become. *)
Definition reaches (m : multiboot_mmap) : bool :=
  negb ((mb_addr m + mb_len m <? STRAIGHT_MAP_ADDR) || (MEMORY_LIMIT <? mb_addr m)).
Definition clamp (m : multiboot_mmap) : memory_map :=
  MemoryMap (mmap_type (mb_type m)) (Z.max (mb_addr m) STRAIGHT_MAP_ADDR) (Z.min (mb_addr m + mb_len m) MEMORY_LIMIT).

Lemma parse_mmaps_ok mmaps : Forall mmap_ok mmaps ->
  forall n i, 0 <= i -> i + Z.of_nat n <= Z.of_nat (length mmaps) ->
  parse_mmaps n i mmaps = Done (map clamp (List.filter reaches (take n (drop (Z.to_nat i) mmaps)))).
Proof.
  intros Hok. induction n as [|n IH]; intros i Hi Hn; cbn [parse_mmaps]; [done|].
  destruct (proj2 (arr_get_is_Some mmaps i) ltac:(lia)) as [m Hm]. rewrite Hm, IH by lia. cbn [outcome_bind].
  apply arr_get_Some in Hm as [_ Hm]. rewrite Forall_lookup in Hok. destruct (Hok _ _ Hm) as (H1 & H2 & H3).
  rewrite u64_small by lia. rewrite (drop_S _ _ _ Hm). cbn [take List.filter].
  replace (Z.to_nat (i + 1)) with (S (Z.to_nat i)) by lia.
  change (reaches m) with (negb ((mb_addr m + mb_len m <? STRAIGHT_MAP_ADDR) || (MEMORY_LIMIT <? mb_addr m))).
  by destruct (_ || _).
Qed.

Lemma clamp_bounds m : mmap_ok m -> reaches m = true ->
  STRAIGHT_MAP_ADDR <= mm_start (clamp m) /\ mm_start (clamp m) <= mm_end (clamp m) /\ mm_end (clamp m) <= MEMORY_LIMIT.
Proof.
  unfold reaches, clamp, mmap_ok, STRAIGHT_MAP_ADDR, MEMORY_LIMIT. simpl. intros Hok H. zbool. lia.
Qed.

Lemma clamp_in m paddr : in_map (clamp m) paddr <-> STRAIGHT_MAP_ADDR <= paddr < MEMORY_LIMIT /\ in_mmap m paddr.
Proof. unfold in_map, in_mmap, clamp. simpl. lia. Qed.

Lemma in_reaches m paddr : in_mmap m paddr -> STRAIGHT_MAP_ADDR <= paddr < MEMORY_LIMIT -> reaches m = true.
Proof. unfold in_mmap, reaches. intros H1 H2. apply negb_true_iff, orb_false_iff. rewrite !Z.ltb_ge. lia. Qed.

Lemma mmap_type_free type : mmap_type type = INITARGS_MEMORY_MAP_FREE <-> type = MULTIBOOT_MMAP_FREE.
Proof. unfold mmap_type. destruct (Z.eqb_spec type MULTIBOOT_MMAP_FREE); [done|]. by repeat destruct (_ =? _). Qed.

(** The entries that are read. *)
Definition entries_of (m : multiboot_info) : list multiboot_mmap :=
  take (Z.to_nat (mbi_mmap_len m / SIZEOF_MULTIBOOT_MMAP)) (mbi_mmaps m).

(** A memory map of at most 31 well-formed entries. *)
Record boot_ok (m : multiboot_info) : Prop := {
  bo_len : 0 <= mbi_mmap_len m / SIZEOF_MULTIBOOT_MMAP <= INIT_ARGS_MEMORY_MAPS_MAX - 1;
  bo_array : mbi_mmap_len m / SIZEOF_MULTIBOOT_MMAP <= Z.of_nat (length (mbi_mmaps m));
  bo_entries : Forall mmap_ok (mbi_mmaps m)
}.

Lemma parse_multiboot_ok text_ui m fb0 : boot_ok m ->
  exists args, parse_multiboot_info text_ui m fb0 = Done args /\
    ia_memory_maps args = map clamp (List.filter reaches (entries_of m)) /\
    ia_num_memory_maps args = Z.of_nat (length (ia_memory_maps args)).
Proof.
  intros [Hl Ha He]. unfold parse_multiboot_info. rewrite (proj2 (Z.leb_le _ _)) by lia. cbn [negb].
  rewrite (parse_mmaps_ok _ He) by lia. cbn [outcome_bind]. eexists. split; [reflexivity|]. done.
Qed.

(** The memory map of [memmgr] is the memory of the machine that the straight
    mapping covers.  For every memory map of the boot loader with at most 31 entries,
    the kernel stays inside [init_args]; each entry it passes on lies between the
    start of the straight mapping and the limit, and an address is in a free entry
    exactly if it is in these bounds and in a free entry of the boot loader. *)
Theorem memory_map_exact (text_ui : bool) (m : multiboot_info) (fb0 : boot_framebuffer) (Hm : boot_ok m) :
  exists args, parse_multiboot_info text_ui m fb0 = Done args /\
    ia_num_memory_maps args = Z.of_nat (length (ia_memory_maps args)) /\
    ia_num_memory_maps args < INIT_ARGS_MEMORY_MAPS_MAX /\
    (forall e, e ∈ ia_memory_maps args ->
       STRAIGHT_MAP_ADDR <= mm_start e <= mm_end e /\ mm_end e <= MEMORY_LIMIT) /\
    (forall paddr,
       (exists e, e ∈ ia_memory_maps args /\ mm_type e = INITARGS_MEMORY_MAP_FREE /\ in_map e paddr) <->
       STRAIGHT_MAP_ADDR <= paddr < MEMORY_LIMIT /\
       exists e, e ∈ entries_of m /\ mb_type e = MULTIBOOT_MMAP_FREE /\ in_mmap e paddr).
Proof.
  destruct (parse_multiboot_ok text_ui m fb0 Hm) as (args & E & Emaps & Enum). destruct Hm as [Hl Ha He].
  assert (He' : Forall mmap_ok (entries_of m)) by (by apply Forall_take). rewrite Forall_forall in He'.
  exists args. rewrite Enum, Emaps. split; [done|]. split; [done|]. split; [|split].
  - rewrite length_map. pose proof (List.filter_length_le reaches (entries_of m)) as Hle.
    unfold entries_of in Hle at 2. rewrite length_take in Hle. lia.
  - intros e He1. apply list_elem_of_In, in_map_iff in He1 as (x & <- & Hx). apply filter_In in Hx as [Hx Hr].
    destruct (clamp_bounds x); [apply He'; by apply list_elem_of_In | done | lia].
  - intros paddr. split.
    + intros (e & He1 & Ht & Hin). apply list_elem_of_In, in_map_iff in He1 as (x & <- & Hx).
      apply filter_In in Hx as [Hx Hr]. apply clamp_in in Hin as [Hb Hin]. split; [done|].
      exists x. split; [by rewrite list_elem_of_In|]. split; [by apply mmap_type_free | done].
    + intros (Hb & x & Hx & Ht & Hin). exists (clamp x). rewrite clamp_in. split; [|split; [by apply mmap_type_free | done]].
      apply list_elem_of_In, List.in_map, filter_In. rewrite <- list_elem_of_In. eauto using in_reaches.
Qed.

(** ** The zones of memmgr *)

(** The zone of a memory map entry. *)
Definition zone_of (e : memory_map) (z : zone) : Prop :=
  zone_inv (num_pages z) z [] /\ Z.max (mm_start e) FREE_MEMORY_START < base_addr z /\
  base_addr z + num_pages z * PAGE_SIZE <= mm_end e.

Definition is_free (e : memory_map) : bool :=
  match mm_type e with INITARGS_MEMORY_MAP_FREE => true | INITARGS_MEMORY_MAP_RESERVED => false end.

(** A free entry that [init_zone] can make a zone of. *)
Definition big_enough (e : memory_map) : Prop :=
  mm_start e mod PAGE_SIZE = 0 /\ Z.max (mm_start e) FREE_MEMORY_START + 200 * PAGE_SIZE <= mm_end e < 2 ^ 64.

Lemma init_zones_ok uninit maps : forall j,
  (forall e, e ∈ maps -> is_free e = true -> big_enough e) ->
  j + Z.of_nat (length (List.filter is_free maps)) <= MAX_NUM_ZONES ->
  exists zones, init_zones uninit maps j = Done zones /\ Forall2 zone_of (List.filter is_free maps) zones.
Proof.
  induction maps as [|e maps IH]; intros j Hbig Hj; cbn [init_zones List.filter]; [by exists []|].
  assert (Hbig' : forall x, x ∈ maps -> is_free x = true -> big_enough x) by (intros x Hx; apply Hbig; by right).
  assert (Hfe : is_free e = match mm_type e with INITARGS_MEMORY_MAP_FREE => true | INITARGS_MEMORY_MAP_RESERVED => false end) by done.
  cbn [List.filter] in Hj. destruct (is_free e) eqn:Hf; destruct (mm_type e); try done.
  2: { by apply IH. }
  simpl in Hj. destruct (Z.ltb_spec j MAX_NUM_ZONES); [|lia]. cbn [negb].
  destruct (Hbig e ltac:(left) Hf) as [Hal [Hsz Hmax]].
  destruct (init_zone_ok uninit j (Z.max (mm_start e) FREE_MEMORY_START) (mm_end e)) as (z & E & Hinv & Hb1 & Hb2).
  - unfold FREE_MEMORY_START. lia.
  - lia.
  - destruct (Z.max_spec (mm_start e) FREE_MEMORY_START) as [[_ ->]|[_ ->]]; done.
  - done.
  - rewrite E. cbn [outcome_bind]. destruct (IH (j + 1) Hbig' ltac:(lia)) as (zones & -> & HF). cbn [outcome_bind].
    exists (z :: zones). split; [done|]. constructor; [by split|done].
Qed.

(** The pages that a zone gives out. *)
Definition in_zone (z : zone) (paddr : Z) : Prop := base_addr z <= paddr < base_addr z + num_pages z * PAGE_SIZE.

(** The entries that the boot loader reports as free, of those that reach the straight
    mapping. *)
Definition free_entries (m : multiboot_info) : list multiboot_mmap :=
  List.filter (fun e => mb_type e =? MULTIBOOT_MMAP_FREE) (List.filter reaches (entries_of m)).

Lemma filter_map_clamp l : List.filter is_free (map clamp l) = map clamp (List.filter (fun e => is_free (clamp e)) l).
Proof. induction l as [|e l IH]; simpl; [done|]. destruct (is_free (clamp e)); simpl; by rewrite IH. Qed.
(** The kernel passes on as free what the boot loader reports as free, and nothing else. *)
Lemma is_free_clamp e : is_free (clamp e) = (mb_type e =? MULTIBOOT_MMAP_FREE).
Proof. unfold is_free, clamp, mmap_type. cbn [mm_type]. by repeat destruct (_ =? _). Qed.
Lemma free_entries_clamp m : free_entries m = List.filter (fun e => is_free (clamp e)) (List.filter reaches (entries_of m)).
Proof. apply List.filter_ext. intros e. by rewrite is_free_clamp. Qed.

(** C16: from the boot loader to the page allocator.  Let the memory map of the boot loader
    have at most 31 entries, all in the 64-bit address space (with more the kernel fails an
    assertion), and let the entries it reports as free, with type 1, that reach the straight
    mapping be at most 16, start at page boundaries, not overlap and have 200 pages in the
    free memory.  Then the memory map of the kernel makes [init_alloc_pages] of [memmgr]
    succeed, with one zone for each of these entries.  Each zone is ready for allocation, and
    each of its pages lies in an entry of type 1, above [FREE_MEMORY_START] and below the
    limit; the zones do not overlap. *)
Theorem boot_zones (text_ui : bool) (uninit : Z -> Z) (m : multiboot_info) (fb0 : boot_framebuffer)
    (Hm : boot_ok m) (Hnum : Z.of_nat (length (free_entries m)) <= MAX_NUM_ZONES)
    (Hbig : forall e, e ∈ free_entries m -> big_enough (clamp e))
    (Hdisj : forall i j a b paddr, free_entries m !! i = Some a -> free_entries m !! j = Some b ->
       in_mmap a paddr -> in_mmap b paddr -> i = j) :
  exists args zones, parse_multiboot_info text_ui m fb0 = Done args /\
    init_alloc_pages uninit (ia_memory_maps args) = Done zones /\ length zones = length (free_entries m) /\
    (forall z, z ∈ zones -> zone_inv (num_pages z) z []) /\
    (forall z paddr, z ∈ zones -> in_zone z paddr ->
       FREE_MEMORY_START < paddr < MEMORY_LIMIT /\ exists e, e ∈ entries_of m /\ mb_type e = MULTIBOOT_MMAP_FREE /\ in_mmap e paddr) /\
    (forall i j z z' paddr, zones !! i = Some z -> zones !! j = Some z' -> in_zone z paddr -> in_zone z' paddr -> i = j).
Proof.
  destruct (parse_multiboot_ok text_ui m fb0 Hm) as (args & E & Emaps & _). exists args.
  destruct (init_zones_ok uninit (ia_memory_maps args) 0) as (zones & Ez & HF).
  { rewrite Emaps. intros e He Hf. apply list_elem_of_In, in_map_iff in He as (x & <- & Hx). apply Hbig.
    apply list_elem_of_In. rewrite free_entries_clamp. apply filter_In. auto. }
  { rewrite Emaps, filter_map_clamp, length_map, <- free_entries_clamp. lia. }
  rewrite Emaps, filter_map_clamp, <- free_entries_clamp in HF.
  assert (HL : forall i z, zones !! i = Some z -> exists e, free_entries m !! i = Some e /\ zone_of (clamp e) z).
  { intros i z Hz. destruct (Forall2_lookup_r _ _ _ _ _ HF Hz) as (c & Hc & Hzo).
    rewrite list_lookup_fmap in Hc. apply fmap_Some in Hc as (e & He & ->). eauto. }
  assert (Hin : forall e z paddr, zone_of (clamp e) z -> in_zone z paddr -> FREE_MEMORY_START < paddr < MEMORY_LIMIT /\ in_mmap e paddr).
  { intros e z paddr (_ & H1 & H2) H. unfold in_zone, in_mmap, clamp in *. simpl in *. lia. }
  exists zones. split; [done|]. split; [done|]. split; [|split; [|split]].
  - apply Forall2_length in HF. rewrite length_map in HF. congruence.
  - intros z [i Hi]%list_elem_of_lookup. destruct (HL i z Hi) as (e & _ & Hz & _). done.
  - intros z paddr [i Hi]%list_elem_of_lookup Hz. destruct (HL i z Hi) as (e & He & Hzo).
    destruct (Hin e z paddr Hzo Hz) as [? ?]. split; [done|]. exists e.
    apply list_elem_of_lookup_2, list_elem_of_In, filter_In in He as [He Ht]. apply filter_In in He as [He _].
    split; [by apply list_elem_of_In|]. split; [by apply Z.eqb_eq | done].
  - intros i j z z' paddr Hi Hj Hz Hz'. destruct (HL i z Hi) as (e & He & Hzo), (HL j z' Hj) as (e' & He' & Hzo').
    apply (Hdisj i j e e' paddr He He'); [apply (Hin e z) | apply (Hin e' z')]; done.
Qed.

(** A machine with low memory, a hole for devices and 2 GiB from 1 MiB on. *)
Definition ex_boot : multiboot_info :=
  MultibootInfo 96 [MultibootMmap 0 0x9fc00 1; MultibootMmap 0xf0000 0x10000 2; MultibootMmap 0x100000 0x7fee0000 1;
                    MultibootMmap 0x7ffe0000 0x20000 3] 0xfd000000 1024 768 32.
Definition ex_fb0 : boot_framebuffer := BootFramebuffer false 0 0 0 0.

Lemma ex_boot_ok : boot_ok ex_boot.
Proof.
  constructor; [vm_compute; split; discriminate | vm_compute; discriminate |].
  repeat constructor; simpl; lia.
Qed.

Lemma memory_map_exact_witness :
  exists args, parse_multiboot_info false ex_boot ex_fb0 = Done args /\ ia_num_memory_maps args < INIT_ARGS_MEMORY_MAPS_MAX.
Proof.
  destruct (memory_map_exact false ex_boot ex_fb0 ex_boot_ok) as (args & E & _ & H & _).
  exists args. split; [exact E | exact H].
Defined.

Lemma boot_zones_witness :
  exists args zones, parse_multiboot_info false ex_boot ex_fb0 = Done args /\
    init_alloc_pages (fun _ => 0) (ia_memory_maps args) = Done zones /\ length zones = 1%nat.
Proof.
  assert (Hfree : free_entries ex_boot = [MultibootMmap 0x100000 0x7fee0000 1]) by (vm_compute; reflexivity).
  destruct (boot_zones false (fun _ => 0) ex_boot ex_fb0 ex_boot_ok) as (args & zones & E1 & E2 & E3 & _).
  - rewrite Hfree. vm_compute. discriminate.
  - intros e He. rewrite Hfree in He. apply list_elem_of_singleton in He as ->. vm_compute. split; [reflexivity | split; congruence].
  - intros i j a b paddr Hi Hj _ _. rewrite Hfree in Hi, Hj. destruct i, j; done.
  - exists args, zones. split; [exact E1|]. split; [exact E2|]. rewrite E3, Hfree. reflexivity.
Defined.

(** ** Descriptors *)

Lemma lor_add a b n : 0 <= n -> 0 <= a < 2 ^ n -> Z.lor a (Z.shiftl b n) = a + b * 2 ^ n.
Proof.
  intros Hn Ha. rewrite Z.lor_comm, (lor_low_add _ _ n), Z.shiftl_mul_pow2 by (auto; rewrite Z.shiftl_mul_pow2 by lia; apply Z.mod_mul; lia).
  lia.
Qed.

Lemma idt_gate_offset handler : 0 <= handler < 2 ^ 64 -> gate_offset (set_idt_entry handler 0) = handler.
Proof.
  intros Hh. unfold gate_offset, set_idt_entry. cbn [offset1 offset2 offset3].
  change 0xffff with (Z.ones 16). change 0xffffffff with (Z.ones 32).
  rewrite !Z.land_ones, !Z.shiftr_div_pow2 by lia.
  replace (handler / 2 ^ 32) with (handler / 2 ^ 16 / 2 ^ 16) by (by rewrite Z.div_div).
  pose proof (Z.div_mod handler (2 ^ 16)). pose proof (Z.div_mod (handler / 2 ^ 16) (2 ^ 16)).
  rewrite (Z.mod_small (handler / 2 ^ 16 / 2 ^ 16)); [lia|]. rewrite Z.div_div by lia.
  split; [apply Z.div_pos; lia | apply Z.div_lt_upper_bound; lia].
Qed.

(** The processor finds the handlers and the TSS: the address in a gate of the
    interrupt table is the address of its handler, and the descriptor of the TSS
    holds the address of the TSS and its size. *)
Theorem descriptors_roundtrip (handler tss : Z) (Hh : 0 <= handler < 2 ^ 64) (Ht : 0 <= tss < 2 ^ 64) :
  gate_offset (set_idt_entry handler 0) = handler /\
  tss_base (gdt_tss tss) = tss /\ tss_limit (gdt_tss tss) = 0x67.
Proof.
  split; [|].
  - by apply idt_gate_offset.
  - set (a0 := tss mod 2 ^ 16). set (a1 := tss / 2 ^ 16 mod 2 ^ 8). set (a2 := tss / 2 ^ 24 mod 2 ^ 8).
    assert (Hlow : (gdt_tss tss).1 = 0x67 + a0 * 2 ^ 16 + a1 * 2 ^ 32 + 0x89 * 2 ^ 40 + a2 * 2 ^ 56).
    { unfold gdt_tss. cbn [fst]. change 0xffff with (Z.ones 16). change 0xff with (Z.ones 8).
      rewrite !Z.land_ones, !Z.shiftr_div_pow2 by lia. fold a0 a1 a2.
      change 0x0000890000000067 with (Z.lor 0x67 (Z.shiftl 0x89 40)).
      replace (Z.lor (Z.lor (Z.lor _ _) _) _) with
        (Z.lor (Z.lor (Z.lor (Z.lor 0x67 (Z.shiftl a0 16)) (Z.shiftl a1 32)) (Z.shiftl 0x89 40)) (Z.shiftl a2 56)).
      2: { f_equal. rewrite <- !Z.lor_assoc. f_equal. rewrite (Z.lor_comm (Z.shiftl a1 32)), Z.lor_assoc.
           rewrite (Z.lor_comm (Z.shiftl a0 16)), <- !Z.lor_assoc. done. }
      assert (0 <= a0 < 2 ^ 16) by (apply Z.mod_pos_bound; lia). assert (0 <= a1 < 2 ^ 8) by (apply Z.mod_pos_bound; lia).
      rewrite (lor_add 0x67 a0 16), (lor_add _ a1 32), (lor_add _ 0x89 40), (lor_add _ a2 56) by lia. done. }
    assert (Hhigh : (gdt_tss tss).2 = tss / 2 ^ 32) by (unfold gdt_tss; cbn [snd]; by rewrite Z.shiftr_div_pow2).
    assert (Htss : tss = a0 + a1 * 2 ^ 16 + a2 * 2 ^ 24 + tss / 2 ^ 32 * 2 ^ 32 /\ tss / 2 ^ 32 < 2 ^ 32 /\ 0 <= a0 < 2 ^ 16 /\ 0 <= a1 < 2 ^ 8 /\ 0 <= a2 < 2 ^ 8).
    { unfold a0, a1, a2. pose proof (Z.mod_pos_bound tss (2 ^ 16)). pose proof (Z.mod_pos_bound (tss / 2 ^ 16) (2 ^ 8)).
      pose proof (Z.mod_pos_bound (tss / 2 ^ 24) (2 ^ 8)).
      replace (tss / 2 ^ 32) with (tss / 2 ^ 16 / 2 ^ 8 / 2 ^ 8) by (by rewrite !Z.div_div).
      replace (tss / 2 ^ 24) with (tss / 2 ^ 16 / 2 ^ 8) in * by (by rewrite !Z.div_div).
      pose proof (Z.div_mod tss (2 ^ 16)). pose proof (Z.div_mod (tss / 2 ^ 16) (2 ^ 8)).
      pose proof (Z.div_mod (tss / 2 ^ 16 / 2 ^ 8) (2 ^ 8)). lia. }
    unfold tss_base, tss_limit. rewrite Hlow, Hhigh. clearbody a0 a1 a2. destruct Htss as (Htss & Hhi & H0 & H1 & H2).
    split; Z.div_mod_to_equations; lia.
Qed.
