(* ===== verification/Machine.v ===== *)
(** * The machine: interrupt controllers, processors, serial port and boot

    [kernel/arch/x64/apic.c], [mp.c], [serial.c] and the part of [setup.c] that
    programs the processor.  The instructions and the memory are the class
    [Machine] (beside [Ports]), used through the straight mapping of physical
    memory; what the hardware does with them is the class [Platform]. *)
From S2P Require Import Prelude Message KState Ipc Timer KServer System Driver Initfs AllocPages Setup.
Import Setup.

(** Memory and devices at physical addresses, and privileged instructions.
    [asm_lgdt] and [asm_lidt] get the length and the address they load. *)
Class Machine (W : Type) := {
  mm_read8 : Z -> M W Z;
  mm_read16 : Z -> M W Z;
  mm_read32 : Z -> M W Z;
  mm_write8 : Z -> Z -> M W unit;
  mm_write32 : Z -> Z -> M W unit;
  asm_rdmsr : Z -> M W Z;
  asm_wrmsr : Z -> Z -> M W unit;
  asm_read_cr0 : M W Z;
  asm_write_cr0 : Z -> M W unit;
  asm_read_cr4 : M W Z;
  asm_write_cr4 : Z -> M W unit;
  asm_lgdt : Z * Z -> M W unit;
  asm_lidt : Z * Z -> M W unit;
  asm_ltr : Z -> M W unit;
  asm_cpuid_count : Z -> Z -> M W (Z * Z * Z * Z)
}.

#[export] Instance pair_machine {W V} `{!Machine W} : Machine (W * V) := {
  mm_read8 a := on_fst (mm_read8 a);
  mm_read16 a := on_fst (mm_read16 a);
  mm_read32 a := on_fst (mm_read32 a);
  mm_write8 a v := on_fst (mm_write8 a v);
  mm_write32 a v := on_fst (mm_write32 a v);
  asm_rdmsr r := on_fst (asm_rdmsr r);
  asm_wrmsr r v := on_fst (asm_wrmsr r v);
  asm_read_cr0 := on_fst asm_read_cr0;
  asm_write_cr0 v := on_fst (asm_write_cr0 v);
  asm_read_cr4 := on_fst asm_read_cr4;
  asm_write_cr4 v := on_fst (asm_write_cr4 v);
  asm_lgdt r := on_fst (asm_lgdt r);
  asm_lidt r := on_fst (asm_lidt r);
  asm_ltr r := on_fst (asm_ltr r);
  asm_cpuid_count a b := on_fst (asm_cpuid_count a b)
}.

(** The static variables of the files, and the variables of the CPU that they set. *)
Record cpu := Cpu {
  ioapic_paddr : Z;
  counts_per_sec : Z;
  num_cpus : Z;
  cv_gdt : list Z;
  cv_idt : list idt_entry;
  cv_gdtr : Z * Z;
  cv_idtr : Z * Z;
  cv_tss_rsp0 : Z;
  cv_tss_iomap : Z;
  cv_fpu_owner : Z
}.
Definition set_ioapic_paddr v c := Cpu v (counts_per_sec c) (num_cpus c) (cv_gdt c) (cv_idt c) (cv_gdtr c) (cv_idtr c)
  (cv_tss_rsp0 c) (cv_tss_iomap c) (cv_fpu_owner c).
Definition set_counts_per_sec v c := Cpu (ioapic_paddr c) v (num_cpus c) (cv_gdt c) (cv_idt c) (cv_gdtr c) (cv_idtr c)
  (cv_tss_rsp0 c) (cv_tss_iomap c) (cv_fpu_owner c).
Definition set_num_cpus v c := Cpu (ioapic_paddr c) (counts_per_sec c) v (cv_gdt c) (cv_idt c) (cv_gdtr c) (cv_idtr c)
  (cv_tss_rsp0 c) (cv_tss_iomap c) (cv_fpu_owner c).
Definition set_cv_gdt g r c := Cpu (ioapic_paddr c) (counts_per_sec c) (num_cpus c) g (cv_idt c) r (cv_idtr c)
  (cv_tss_rsp0 c) (cv_tss_iomap c) (cv_fpu_owner c).
Definition set_cv_idt i r c := Cpu (ioapic_paddr c) (counts_per_sec c) (num_cpus c) (cv_gdt c) i (cv_gdtr c) r
  (cv_tss_rsp0 c) (cv_tss_iomap c) (cv_fpu_owner c).
Definition set_cv_tss rsp0 iomap c := Cpu (ioapic_paddr c) (counts_per_sec c) (num_cpus c) (cv_gdt c) (cv_idt c) (cv_gdtr c)
  (cv_idtr c) rsp0 iomap (cv_fpu_owner c).
Definition set_cv_fpu_owner v c := Cpu (ioapic_paddr c) (counts_per_sec c) (num_cpus c) (cv_gdt c) (cv_idt c) (cv_gdtr c)
  (cv_idtr c) (cv_tss_rsp0 c) (cv_tss_iomap c) v.

(** ** Constants *)

Definition PIT_HZ : Z := 1193182.
Definition PIT_CH2 : Z := 0x42.
Definition PIT_CMD : Z := 0x43.
Definition KBC_PORT_B : Z := 0x61.
Definition KBC_B_OUT2_STATUS : Z := 0x20.
Definition APIC_TIMER_DIV : Z := 0x03.

Definition APIC_REG_ID : Z := 0xfee00020.
Definition APIC_REG_TPR : Z := 0xfee00080.
Definition APIC_REG_EOI : Z := 0xfee000b0.
Definition APIC_REG_LOGICAL_DEST : Z := 0xfee000d0.
Definition APIC_REG_DEST_FORMAT : Z := 0xfee000e0.
Definition APIC_REG_SPURIOUS_INT : Z := 0xfee000f0.
Definition APIC_REG_ICR_LOW : Z := 0xfee00300.
Definition APIC_REG_ICR_HIGH : Z := 0xfee00310.
Definition APIC_REG_LVT_TIMER : Z := 0xfee00320.
Definition APIC_REG_LVT_ERROR : Z := 0xfee00370.
Definition APIC_REG_TIMER_INITCNT : Z := 0xfee00380.
Definition APIC_REG_TIMER_CURRENT : Z := 0xfee00390.
Definition APIC_REG_TIMER_DIV : Z := 0xfee003e0.
Definition AP_BOOT_CODE_PADDR : Z := 0x5000.
Definition IOAPIC_REG_IOAPICVER : Z := 0x01.
Definition IOAPIC_REG_NTH_IOREDTBL_LOW (n : Z) : Z := 0x10 + n * 2.
Definition IOAPIC_REG_NTH_IOREDTBL_HIGH (n : Z) : Z := 0x10 + n * 2 + 1.
Inductive ipi_dest := IPI_DEST_UNICAST | IPI_DEST_SELF | IPI_DEST_ALL_EXCLUDING_SELF | IPI_DEST_ALL.
Definition ipi_dest_value (d : ipi_dest) : Z :=
  match d with IPI_DEST_UNICAST => 0 | IPI_DEST_SELF => 1 | IPI_DEST_ALL_EXCLUDING_SELF => 2 | IPI_DEST_ALL => 3 end.
Inductive ipi_mode := IPI_MODE_FIXED | IPI_MODE_INIT | IPI_MODE_STARTUP.
Definition ipi_mode_value (m : ipi_mode) : Z :=
  match m with IPI_MODE_FIXED => 0 | IPI_MODE_INIT => 5 | IPI_MODE_STARTUP => 6 end.

Definition IOPORT_SERIAL : Z := 0x3f8.
Definition DLL : Z := 0.
Definition DLH : Z := 1.
Definition RBR : Z := 0.
Definition IER : Z := 1.
Definition FCR : Z := 2.
Definition LCR : Z := 3.
Definition LSR : Z := 5.
Definition TX_READY : Z := 0x20.

Definition MP_FLOATPTR_SIGNATURE : Z := 0x5f504d5f.
Definition MP_MPTABLE_SIGNATURE : Z := 0x504d4350.
Definition MP_BASETABLE_PROCESSOR_ENTRY : Z := 0.
Definition MP_BASETABLE_BUS_ENTRY : Z := 1.
Definition MP_BASETABLE_IOAPIC_ENTRY : Z := 2.
Definition MP_BASETABLE_IOINT_ASSIGN_ENTRY : Z := 3.
Definition MP_BASETABLE_LOCALINT_ASSIGN_ENTRY : Z := 4.
Definition SIZEOF_MP_TABLE_HEADER : Z := 44.
Definition SIZEOF_MP_PROCESSOR_ENTRY : Z := 20.
Definition SIZEOF_MP_ENTRY : Z := 8.

Definition MSR_APIC_BASE : Z := 0x1b.
Definition MSR_EFER : Z := 0xc0000080.
Definition MSR_STAR : Z := 0xc0000081.
Definition MSR_LSTAR : Z := 0xc0000082.
Definition MSR_CSTAR : Z := 0xc0000083.
Definition MSR_FMASK : Z := 0xc0000084.
Definition EFER_SCE : Z := 0x01.
Definition SYSCALL_RFLAGS_MASK : Z := 0x200.
Definition GDT_TSS : Z := 6.
Definition TSS_SEG : Z := GDT_TSS * 8.
Definition USER_CS32 : Z := 3 * 8.
Definition GDT_DESC_NUM : Z := 8.
Definition IDT_DESC_NUM : Z := 256.
Definition SIZEOF_IDT_ENTRY : Z := 16.
Definition IST_RSP0 : Z := 0.
Definition SIZEOF_TSS : Z := 104.
Definition CR0_TS : Z := Z.shiftl 1 3.
Definition CR4_FSGSBASE : Z := Z.shiftl 1 16.
Definition CR4_OSXSAVE : Z := Z.shiftl 1 18.
Definition CPUID_VENDOR : Z := 0x0.
Definition CPUID_FEATURES : Z := 0x1.
Definition CPUID_EXT_FEATURES : Z := 0x7.
Definition CPUID_EXT_STATE_ENUM : Z := 0xd.
Definition CPUID_VENDOR_INTEL_EBX : Z := 0x756e6547.
Definition CPUID_VENDOR_INTEL_ECX : Z := 0x6c65746e.
Definition CPUID_VENDOR_INTEL_EDX : Z := 0x49656e69.
Definition CPUID_FEATURES_ECX_XSAVE : Z := Z.shiftl 1 26.
Definition CPUID_EXT_FEATURES_EBX_FSGSBASE : Z := Z.shiftl 1 0.

Module X64.
Section X64.
Context {W : Type} `{!Ports W, !Machine W}.
Local Abbreviation S := (W * cpu)%type.

Definition asm_in8 (port : Z) : M S Z := p_in8 (u16 port).
Definition asm_out8 (port value : Z) : M S unit := p_out8 (u16 port) (u8 value).

(** ** apic.c *)

Definition x64_read_apic (addr : Z) : M S Z := mm_read32 addr.
Definition x64_write_apic (addr data : Z) : M S unit := mm_write32 addr (u32 data).
Definition x64_read_cpu_id : M S Z := v <- mm_read32 APIC_REG_ID ;; ret (u8 (Z.shiftr v 24)).

(** [reg] is a [uint8_t]. *)
Definition ioapic_read (reg : Z) : M S Z :=
  c <- statics ;;
  mm_write32 (ioapic_paddr c) (u8 reg) ;;;
  mm_read32 (u64 (ioapic_paddr c + 0x10)).
Definition ioapic_write (reg data : Z) : M S unit :=
  c <- statics ;;
  mm_write32 (ioapic_paddr c) (u8 reg) ;;;
  mm_write32 (u64 (ioapic_paddr c + 0x10)) (u32 data).

Definition x64_ioapic_enable_irq (vector irq : Z) : M S unit :=
  ioapic_write (IOAPIC_REG_NTH_IOREDTBL_HIGH irq) 0 ;;;
  ioapic_write (IOAPIC_REG_NTH_IOREDTBL_LOW irq) vector.

Definition enable_irq (irq : Z) : M S unit := x64_ioapic_enable_irq (u8 (VECTOR_IRQ_BASE + irq)) irq.

Definition x64_send_ipi (vector : Z) (dest : ipi_dest) (dest_apic_id : Z) (mode : ipi_mode) : M S unit :=
  let data := Z.lor (Z.lor (Z.lor (Z.lor (Z.shiftl dest_apic_id 56) (Z.shiftl (ipi_dest_value dest) 18)) (Z.shiftl 1 14))
    (Z.shiftl (ipi_mode_value mode) 8)) vector in
  x64_write_apic APIC_REG_ICR_HIGH (Z.shiftr data 32) ;;;
  x64_write_apic APIC_REG_ICR_LOW (Z.land data 0xffffffff).

(** The loop that disables the interrupts from line [i] on. *)
Fixpoint mask_lines (n : nat) (i : Z) : M S unit :=
  match n with
  | O => ret tt
  | Datatypes.S n =>
      ioapic_write (IOAPIC_REG_NTH_IOREDTBL_HIGH i) 0 ;;;
      ioapic_write (IOAPIC_REG_NTH_IOREDTBL_LOW i) (Z.shiftl 1 16) ;;;
      mask_lines n (i + 1)
  end.

Definition x64_ioapic_init (ioapic_addr : Z) : M S unit :=
  c <- statics ;;
  set_statics (set_ioapic_paddr ioapic_addr c) ;;;
  asm_out8 0x22 0x70 ;;;
  asm_out8 0x23 0x01 ;;;
  ver <- ioapic_read IOAPIC_REG_IOAPICVER ;;
  let max := Z.shiftr ver 16 + 1 in
  mask_lines (Z.to_nat max) 0.

(** Waiting for a status bit of a port, with fuel for the rounds. *)
Fixpoint wait_port (fuel : nat) (port mask : Z) : M S unit :=
  match fuel with
  | O => no_fuel
  | Datatypes.S fuel => v <- asm_in8 port ;; if Z.land v mask =? 0 then wait_port fuel port mask else ret tt
  end.

Definition calibrate_apic_timer (fuel : nat) : M S unit :=
  let freq := 1000 in
  let divider := u16 (PIT_HZ / freq) in
  v <- asm_in8 KBC_PORT_B ;;
  asm_out8 KBC_PORT_B (Z.land v 0xfc) ;;;
  asm_out8 PIT_CMD 0xb2 ;;;
  asm_out8 PIT_CH2 (Z.land divider 0xff) ;;;
  asm_out8 PIT_CH2 (Z.land (Z.shiftr divider 8) 0xff) ;;;
  v <- asm_in8 KBC_PORT_B ;;
  asm_out8 KBC_PORT_B (Z.lor v 1) ;;;
  let init_count := 0xffffffff in
  x64_write_apic APIC_REG_TIMER_INITCNT init_count ;;;
  wait_port fuel KBC_PORT_B KBC_B_OUT2_STATUS ;;;
  cur <- x64_read_apic APIC_REG_TIMER_CURRENT ;;
  let diff := u64 (init_count - cur) in
  let counts := u32 (Z.shiftl (u64 (diff * freq)) APIC_TIMER_DIV) in
  c <- statics ;;
  set_statics (set_counts_per_sec counts c) ;;;
  x64_write_apic APIC_REG_TIMER_INITCNT (counts / TICK_HZ).

Definition x64_ack_interrupt : M S unit := x64_write_apic APIC_REG_EOI 0.

Definition x64_apic_timer_init (fuel : nat) : M S unit :=
  x64_ioapic_enable_irq APIC_TIMER_VECTOR 0 ;;;
  x64_write_apic APIC_REG_TIMER_INITCNT 0xffffffff ;;;
  x64_write_apic APIC_REG_LVT_TIMER (Z.lor APIC_TIMER_VECTOR 0x20000) ;;;
  x64_write_apic APIC_REG_TIMER_DIV APIC_TIMER_DIV ;;;
  id <- x64_read_cpu_id ;;
  (if id =? 0 then calibrate_apic_timer fuel else ret tt) ;;;
  c <- statics ;;
  x64_write_apic APIC_REG_TIMER_INITCNT (counts_per_sec c / TICK_HZ).

Definition x64_apic_init : M S unit :=
  v <- asm_rdmsr MSR_APIC_BASE ;;
  asm_wrmsr MSR_APIC_BASE (Z.lor (Z.land v 0xfffff100) 0x0800) ;;;
  x64_write_apic APIC_REG_SPURIOUS_INT (Z.shiftl 1 8) ;;;
  x64_write_apic APIC_REG_TPR 0 ;;;
  x64_write_apic APIC_REG_LOGICAL_DEST 0x01000000 ;;;
  x64_write_apic APIC_REG_DEST_FORMAT 0xffffffff ;;;
  x64_write_apic APIC_REG_LVT_TIMER (Z.shiftl 1 16) ;;;
  x64_write_apic APIC_REG_LVT_ERROR (Z.shiftl 1 16).

(** ** serial.c *)

Definition x64_serial_putchar (fuel : nat) (ch : Z) : M S unit :=
  wait_port fuel (IOPORT_SERIAL + LSR) TX_READY ;;;
  asm_out8 IOPORT_SERIAL ch.

Definition arch_debugger_readchar : M S Z :=
  v <- asm_in8 (IOPORT_SERIAL + LSR) ;;
  if Z.land v 1 =? 0 then ret (-1) else asm_in8 (IOPORT_SERIAL + RBR).

Definition x64_serial_early_init : M S unit :=
  let baud := 9600 in
  let divisor := 115200 / baud in
  asm_out8 (IOPORT_SERIAL + IER) 0x00 ;;;
  asm_out8 (IOPORT_SERIAL + DLL) (Z.land divisor 0xff) ;;;
  asm_out8 (IOPORT_SERIAL + DLH) (Z.land (Z.shiftr divisor 8) 0xff) ;;;
  asm_out8 (IOPORT_SERIAL + LCR) 0x03 ;;;
  asm_out8 (IOPORT_SERIAL + FCR) 0x00.

Definition x64_serial_init : M S unit :=
  asm_out8 (IOPORT_SERIAL + IER) 0x01 ;;;
  enable_irq SERIAL_IRQ.

(** ** mp.c *)

(** The address of the table, searched for from [p] on in [n] words at most. *)
Fixpoint look_for_floatptr_table (n : nat) (p end_ : Z) : M S (option Z) :=
  match n with
  | O => ret None
  | Datatypes.S n =>
      if p <? end_ then
        v <- mm_read32 p ;;
        if v =? MP_FLOATPTR_SIGNATURE then ret (Some p) else look_for_floatptr_table n (p + 4) end_
      else ret None
  end.

(** [CONFIG_MP]. *)
Variable config_mp : bool.

(** The entry at [entry_ptr], and its size. *)
Definition read_mp_entry (entry_ptr : Z) : M S Z :=
  type <- mm_read8 entry_ptr ;;
  if type =? MP_BASETABLE_IOAPIC_ENTRY then
    ioapic_flags <- mm_read8 (entry_ptr + 3) ;;
    (if truthy ioapic_flags then
       memmaped_ioapic_addr <- mm_read32 (entry_ptr + 4) ;; x64_ioapic_init memmaped_ioapic_addr
     else ret tt) ;;;
    ret SIZEOF_MP_ENTRY
  else if type =? MP_BASETABLE_BUS_ENTRY then ret SIZEOF_MP_ENTRY
  else if type =? MP_BASETABLE_PROCESSOR_ENTRY then
    (if config_mp then
       localapic_id <- mm_read8 (entry_ptr + 1) ;;
       id <- x64_read_cpu_id ;;
       c <- statics ;;
       if negb (localapic_id =? id) then set_statics (set_num_cpus (u32 (num_cpus c + 1)) c) else ret tt
     else ret tt) ;;;
    ret SIZEOF_MP_PROCESSOR_ENTRY
  else if type =? MP_BASETABLE_IOINT_ASSIGN_ENTRY then ret SIZEOF_MP_ENTRY
  else if type =? MP_BASETABLE_LOCALINT_ASSIGN_ENTRY then ret SIZEOF_MP_ENTRY
  else panic.

(** The loop over the entries from entry [i] on, at [entry_ptr]; the number of
    entries is a 16-bit integer, so that 65536 rounds are enough. *)
Fixpoint read_mp_entries (n : nat) (mptblhdr i entry_ptr : Z) : M S unit :=
  match n with
  | O => no_fuel
  | Datatypes.S n =>
      entry_count <- mm_read16 (mptblhdr + 34) ;;
      if i <? entry_count then
        size <- read_mp_entry entry_ptr ;;
        read_mp_entries n mptblhdr (i + 1) (entry_ptr + size)
      else ret tt
  end.

Definition x64_read_mp_table : M S unit :=
  mpfltptr <- look_for_floatptr_table (Z.to_nat 0x10000) 0xf0000 0x100000 ;;
  match mpfltptr with
  | None => panic
  | Some mpfltptr =>
      mptblhdr <- mm_read32 (mpfltptr + 4) ;;
      signature <- mm_read32 mptblhdr ;;
      if negb (signature =? MP_MPTABLE_SIGNATURE) then panic
      else read_mp_entries (Z.to_nat 0x10000) mptblhdr 0 (mptblhdr + SIZEOF_MP_TABLE_HEADER)
  end.

(** [inlined_memcpy] into memory at [dst]. *)
Fixpoint copy_to (dst : Z) (bytes : list Z) : M S unit :=
  match bytes with
  | [] => ret tt
  | b :: bytes => mm_write8 dst b ;;; copy_to (dst + 1) bytes
  end.
Fixpoint udelay (usec : nat) : M S unit :=
  match usec with O => ret tt | Datatypes.S usec => asm_in8 0x80 ;;; udelay usec end.

Section Aps.
(** The boot code of the other processors, in [boot.S]. *)
Variables (x64_boot_gdtr x64_ap_boot : list Z).

Fixpoint start_ap_loop (n : nat) (apic_id : Z) : M S unit :=
  match n with
  | O => ret tt
  | Datatypes.S n =>
      x64_send_ipi 0 IPI_DEST_UNICAST (u8 apic_id) IPI_MODE_INIT ;;;
      udelay (Z.to_nat 20000) ;;;
      x64_send_ipi (Z.shiftr AP_BOOT_CODE_PADDR 12) IPI_DEST_UNICAST (u8 apic_id) IPI_MODE_STARTUP ;;;
      udelay (Z.to_nat 400) ;;;
      udelay (Z.to_nat 4000) ;;;
      start_ap_loop n (apic_id + 1)
  end.

Definition start_aps : M S unit :=
  copy_to 0x5f00 x64_boot_gdtr ;;;
  copy_to AP_BOOT_CODE_PADDR x64_ap_boot ;;;
  c <- statics ;;
  start_ap_loop (Z.to_nat (num_cpus c - 1)) 1.

Definition arch_mp_init : M S unit := start_aps.
End Aps.

(** ** setup.c *)

Section Setup.
(** [CONFIG_X86_FSGSBASE] and [CONFIG_TEXT_UI]. *)
Variables (fsgsbase text_ui : bool).
(** The addresses of the variables of the CPU and of the entry points in
    [handler.S]. *)
Variables (tss_addr gdt_addr idt_addr : Z) (interrupt_handlers x64_syscall_handler : Z).
Definition INTERRUPT_HANDLER_SIZE : Z := 16.

Definition cpu_features_init : M S unit :=
  let* (_, ebx, ecx, edx) := asm_cpuid_count CPUID_VENDOR 0 in
  (if negb (ebx =? CPUID_VENDOR_INTEL_EBX) || negb (ecx =? CPUID_VENDOR_INTEL_ECX) || negb (edx =? CPUID_VENDOR_INTEL_EDX)
   then panic else ret tt) ;;;
  (if fsgsbase then
     let* (_, ebx, _, _) := asm_cpuid_count CPUID_EXT_FEATURES 0 in
     (if Z.land ebx CPUID_EXT_FEATURES_EBX_FSGSBASE =? 0 then panic else ret tt) ;;;
     v <- asm_read_cr4 ;; asm_write_cr4 (Z.lor v CR4_FSGSBASE)
   else ret tt) ;;;
  let* (_, ebx, _, _) := asm_cpuid_count CPUID_EXT_STATE_ENUM 0 in
  if PAGE_SIZE <? ebx then panic else ret tt.

Definition fpu_init : M S unit :=
  let* (_, _, ecx, _) := asm_cpuid_count CPUID_FEATURES 0 in
  (if Z.land ecx CPUID_FEATURES_ECX_XSAVE =? 0 then panic else ret tt) ;;;
  v <- asm_read_cr4 ;;
  asm_write_cr4 (Z.lor v CR4_OSXSAVE) ;;;
  v <- asm_read_cr0 ;;
  asm_write_cr0 (Z.lor v CR0_TS) ;;;
  c <- statics ;;
  set_statics (set_cv_fpu_owner 0 c).

(** The descriptors in the order of their indices. *)
Definition gdt_init : M S unit :=
  let (tss_low, tss_high) := gdt_tss tss_addr in
  let gdtr := (8 * GDT_DESC_NUM - 1, gdt_addr) in
  c <- statics ;;
  set_statics (set_cv_gdt [0; 0x00af9a000000ffff; 0x00af92000000ffff; 0; 0x008ff2000000ffff; 0x00affa000000ffff;
    tss_low; tss_high] gdtr c) ;;;
  asm_lgdt gdtr.

Definition tss_init : M S unit :=
  c <- statics ;;
  set_statics (set_cv_tss 0 SIZEOF_TSS c) ;;;
  asm_ltr TSS_SEG.

(** The loop over the gates from [i] on. *)
Fixpoint set_gates (n : nat) (i : Z) (idt : list idt_entry) : option (list idt_entry) :=
  match n with
  | O => Some idt
  | Datatypes.S n =>
      match arr_set idt i (set_idt_entry (u64 (interrupt_handlers + i * INTERRUPT_HANDLER_SIZE)) IST_RSP0) with
      | Some idt => set_gates n (i + 1) idt
      | None => None
      end
  end.
Definition idt_init : M S unit :=
  c <- statics ;;
  idt <- need (set_gates 256 0 (cv_idt c)) ;;
  let idtr := (u16 (SIZEOF_IDT_ENTRY * IDT_DESC_NUM + 1), idt_addr) in
  set_statics (set_cv_idt idt idtr c) ;;;
  asm_lidt idtr.

Definition pic_init : M S unit :=
  asm_out8 0xa1 0xff ;;; asm_out8 0x21 0xff ;;;
  asm_out8 0x20 0x11 ;;; asm_out8 0xa0 0x11 ;;;
  asm_out8 0x21 0x20 ;;; asm_out8 0xa1 0x28 ;;;
  asm_out8 0x21 0x04 ;;; asm_out8 0xa1 0x02 ;;;
  asm_out8 0x21 0x01 ;;; asm_out8 0xa1 0x01 ;;;
  asm_out8 0xa1 0xff ;;; asm_out8 0x21 0xff.

Definition syscall_init : M S unit :=
  asm_wrmsr MSR_STAR (Z.lor (Z.shiftl USER_CS32 48) (Z.shiftl KERNEL_CS 32)) ;;;
  asm_wrmsr MSR_LSTAR x64_syscall_handler ;;;
  asm_wrmsr MSR_FMASK SYSCALL_RFLAGS_MASK ;;;
  asm_wrmsr MSR_CSTAR 0 ;;;
  v <- asm_rdmsr MSR_EFER ;;
  asm_wrmsr MSR_EFER (Z.lor v EFER_SCE).

Definition common_cpu_setup (fuel : nat) : M S unit :=
  cpu_features_init ;;;
  x64_apic_init ;;;
  fpu_init ;;;
  gdt_init ;;;
  tss_init ;;;
  idt_init ;;;
  x64_apic_timer_init fuel ;;;
  syscall_init.

Definition arch_init (fuel : nat) (m : multiboot_info) (fb0 : boot_framebuffer) : M S init_args :=
  init_args <- lift (parse_multiboot_info text_ui m fb0) ;;
  pic_init ;;;
  x64_read_mp_table ;;;
  common_cpu_setup fuel ;;;
  x64_serial_init ;;;
  ret init_args.
End Setup.

End X64.
End X64.
Import X64.

(** ** What the hardware does *)

(** Memory as bytes, the registers that were written, the interrupts sent to other
    processors (both words of the command) and the bytes sent to the serial port. *)
Record plat := Plat {
  ram : Z -> Z;
  io_sel : Z;
  io_regs : Z -> Z;
  lapic : Z -> Z;
  msrs : Z -> Z;
  ipis : list (Z * Z);
  serial : list Z;
  r_cr0 : Z;
  r_cr4 : Z;
  r_gdtr : Z * Z;
  r_idtr : Z * Z;
  r_tr : Z
}.
Definition upd (f : Z -> Z) (a v : Z) : Z -> Z := fun x => if x =? a then v else f x.
Definition set_ram f p := Plat f (io_sel p) (io_regs p) (lapic p) (msrs p) (ipis p) (serial p) (r_cr0 p) (r_cr4 p)
  (r_gdtr p) (r_idtr p) (r_tr p).
Definition set_io sel regs p := Plat (ram p) sel regs (lapic p) (msrs p) (ipis p) (serial p) (r_cr0 p) (r_cr4 p)
  (r_gdtr p) (r_idtr p) (r_tr p).
Definition set_lapic f l p := Plat (ram p) (io_sel p) (io_regs p) f (msrs p) l (serial p) (r_cr0 p) (r_cr4 p)
  (r_gdtr p) (r_idtr p) (r_tr p).
Definition set_msrs f p := Plat (ram p) (io_sel p) (io_regs p) (lapic p) f (ipis p) (serial p) (r_cr0 p) (r_cr4 p)
  (r_gdtr p) (r_idtr p) (r_tr p).
Definition set_serial l p := Plat (ram p) (io_sel p) (io_regs p) (lapic p) (msrs p) (ipis p) l (r_cr0 p) (r_cr4 p)
  (r_gdtr p) (r_idtr p) (r_tr p).
Definition set_regs c0 c4 g i t p := Plat (ram p) (io_sel p) (io_regs p) (lapic p) (msrs p) (ipis p) (serial p) c0 c4 g i t.

Definition lapic_write (a v : Z) (p : plat) : plat :=
  set_lapic (upd (lapic p) a v) (if a =? APIC_REG_ICR_LOW then ipis p ++ [(lapic p APIC_REG_ICR_HIGH, v)] else ipis p) p.

(** A little-endian integer in memory. *)
Fixpoint le (n : nat) (f : Z -> Z) (a : Z) : Z :=
  match n with O => 0 | S n => f a + 256 * le n f (a + 1) end.

Definition RAM_END : Z := 0xfec00000.

(** A machine with memory below [RAM_END], one I/O APIC with [io_lines] lines at
    [ioapic_base], and a local APIC.  The status bit that the kernel waits for at
    the two ports is set after at most [wait_bound] reads.  The serial port has
    its divisor latch off. *)
Class Platform (W : Type) `{!Ports W, !Machine W} := {
  view : W -> plat;
  ioapic_base : Z;
  io_lines : Z;
  boot_cpu : Z;
  cpuid_at : Z -> Z * Z * Z * Z;
  wait_rounds : Z -> W -> nat;
  wait_bound : nat;
  pl_base : RAM_END <= ioapic_base < 0xfee00000;
  pl_lines : 5 <= io_lines <= 120;
  pl_boot_cpu : 0 <= boot_cpu < 256;
  pl_bound : forall port w, (wait_rounds port w <= wait_bound)%nat;
  pl_in8 : forall port w, exists v w', p_in8 port w = Done (v, w') /\ view w' = view w /\
    (port = KBC_PORT_B \/ port = IOPORT_SERIAL + LSR ->
       (wait_rounds port w = 0%nat -> Z.land v 0x20 <> 0) /\
       (wait_rounds port w <> 0%nat -> (wait_rounds port w' < wait_rounds port w)%nat));
  pl_out8 : forall port v w, exists w', p_out8 port v w = Done (tt, w') /\
    view w' = if port =? IOPORT_SERIAL then set_serial (serial (view w) ++ [v]) (view w) else view w;
  pl_read8 : forall a w, 0 <= a < RAM_END -> mm_read8 a w = Done (le 1 (ram (view w)) a, w);
  pl_read16 : forall a w, 0 <= a < RAM_END - 1 -> mm_read16 a w = Done (le 2 (ram (view w)) a, w);
  pl_read32 : forall a w, 0 <= a < RAM_END - 3 -> mm_read32 a w = Done (le 4 (ram (view w)) a, w);
  pl_write8 : forall a v w, 0 <= a < RAM_END -> exists w', mm_write8 a v w = Done (tt, w') /\
    view w' = set_ram (upd (ram (view w)) a v) (view w);
  pl_cpu_id : forall w, mm_read32 APIC_REG_ID w = Done (boot_cpu * 2 ^ 24, w);
  pl_timer : forall w, exists v w', mm_read32 APIC_REG_TIMER_CURRENT w = Done (v, w') /\ 0 <= v < 2 ^ 32 /\ view w' = view w;
  pl_lapic : forall a v w, 0xfee00000 <= a < 0xfee01000 -> exists w', mm_write32 a v w = Done (tt, w') /\
    view w' = lapic_write a v (view w);
  pl_select : forall v w, exists w', mm_write32 ioapic_base v w = Done (tt, w') /\
    view w' = set_io v (io_regs (view w)) (view w);
  pl_version : forall w, io_sel (view w) = IOAPIC_REG_IOAPICVER ->
    exists v, mm_read32 (ioapic_base + 0x10) w = Done (v, w) /\ Z.shiftr v 16 = io_lines - 1;
  pl_window : forall v w, 0x10 <= io_sel (view w) < 0x10 + 2 * io_lines ->
    exists w', mm_write32 (ioapic_base + 0x10) v w = Done (tt, w') /\
      view w' = set_io (io_sel (view w)) (upd (io_regs (view w)) (io_sel (view w)) v) (view w);
  pl_rdmsr : forall r w, asm_rdmsr r w = Done (msrs (view w) r, w);
  pl_wrmsr : forall r v w, exists w', asm_wrmsr r v w = Done (tt, w') /\ view w' = set_msrs (upd (msrs (view w)) r v) (view w);
  pl_read_cr0 : forall w, asm_read_cr0 w = Done (r_cr0 (view w), w);
  pl_read_cr4 : forall w, asm_read_cr4 w = Done (r_cr4 (view w), w);
  pl_write_cr0 : forall v w, exists w', asm_write_cr0 v w = Done (tt, w') /\
    let p := view w in view w' = set_regs v (r_cr4 p) (r_gdtr p) (r_idtr p) (r_tr p) p;
  pl_write_cr4 : forall v w, exists w', asm_write_cr4 v w = Done (tt, w') /\
    let p := view w in view w' = set_regs (r_cr0 p) v (r_gdtr p) (r_idtr p) (r_tr p) p;
  pl_lgdt : forall r w, exists w', asm_lgdt r w = Done (tt, w') /\
    let p := view w in view w' = set_regs (r_cr0 p) (r_cr4 p) r (r_idtr p) (r_tr p) p;
  pl_lidt : forall r w, exists w', asm_lidt r w = Done (tt, w') /\
    let p := view w in view w' = set_regs (r_cr0 p) (r_cr4 p) (r_gdtr p) r (r_tr p) p;
  pl_ltr : forall r w, exists w', asm_ltr r w = Done (tt, w') /\
    let p := view w in view w' = set_regs (r_cr0 p) (r_cr4 p) (r_gdtr p) (r_idtr p) r p;
  pl_cpuid : forall a w, asm_cpuid_count a 0 w = Done (cpuid_at a, w)
}.

(** [m] returns, and [Q] holds of its result and of what it leaves. *)
Definition runs {W} `{!Ports W, !Machine W, !Platform W} {A} (m : M (W * cpu) A) (p : plat) (c : cpu)
    (Q : A -> plat -> cpu -> Prop) : Prop :=
  forall w, view w = p -> exists a w' c', m (w, c) = Done (a, (w', c')) /\ Q a (view w') c'.

Section Runs.
Context {W : Type} `{!Ports W, !Machine W, !Platform W}.

Lemma runs_bind {A B} (m : M (W * cpu) A) (k : A -> M (W * cpu) B) p c Q :
  runs m p c (fun a p c => runs (k a) p c Q) -> runs (bind m k) p c Q.
Proof.
  intros H w Hw. destruct (H w Hw) as (a & w1 & c1 & E & H1). destruct (H1 w1 eq_refl) as (b & w2 & c2 & E2 & HQ).
  exists b, w2, c2. split; [|done]. by rewrite (bind_intro _ _ _ _ _ _ E eq_refl).
Qed.

Lemma runs_ret {A} (a : A) p c (Q : A -> plat -> cpu -> Prop) : Q a p c -> runs (ret a) p c Q.
Proof. intros H w <-. by eexists _, _, _. Qed.

Lemma runs_conseq {A} (m : M (W * cpu) A) p c (Q Q' : A -> plat -> cpu -> Prop) :
  runs m p c Q -> (forall a p' c', Q a p' c' -> Q' a p' c') -> runs m p c Q'.
Proof. intros H HQ w Hw. destruct (H w Hw) as (a & w' & c' & E & H'). exists a, w', c'. split; [done | by apply HQ]. Qed.

Lemma runs_statics p c (Q : cpu -> plat -> cpu -> Prop) : Q c p c -> runs statics p c Q.
Proof. intros H w <-. by eexists _, _, _. Qed.

Lemma runs_set_statics c' p c (Q : unit -> plat -> cpu -> Prop) : Q tt p c' -> runs (set_statics c') p c Q.
Proof. intros H w <-. by eexists _, _, _. Qed.

(** An operation of the machine. *)
Lemma runs_op {A} (m : M W A) p c (Q : A -> plat -> cpu -> Prop) (R : A -> plat -> Prop) :
  (forall w, view w = p -> exists a w', m w = Done (a, w') /\ R a (view w')) ->
  (forall a p', R a p' -> Q a p' c) -> runs (on_fst m) p c Q.
Proof.
  intros H HQ w Hw. destruct (H w Hw) as (a & w' & E & HR). exists a, w', c. split; [by apply on_fst_done | by apply HQ].
Qed.

Lemma runs_in8 port p c (Q : Z -> plat -> cpu -> Prop) : (forall v, Q v p c) -> runs (asm_in8 port) p c Q.
Proof.
  intros H. apply (runs_op _ _ _ _ (fun _ p' => p' = p)); [|by intros v ? ->].
  intros w <-. destruct (pl_in8 (u16 port) w) as (v & w' & E & Hv & _). by exists v, w'.
Qed.

Lemma runs_out8 port v p c (Q : unit -> plat -> cpu -> Prop) :
  Q tt (if u16 port =? IOPORT_SERIAL then set_serial (serial p ++ [u8 v]) p else p) c -> runs (asm_out8 port v) p c Q.
Proof.
  intros H. apply (runs_op _ _ _ _ (fun _ p' => p' = if u16 port =? IOPORT_SERIAL then set_serial (serial p ++ [u8 v]) p else p));
    [|by intros [] ? ->].
  intros w <-. destruct (pl_out8 (u16 port) (u8 v) w) as (w' & E & Hv). by exists tt, w'.
Qed.

Lemma runs_out8_other port v p c (Q : unit -> plat -> cpu -> Prop) :
  (u16 port =? IOPORT_SERIAL) = false -> Q tt p c -> runs (asm_out8 port v) p c Q.
Proof. intros Hp H. apply runs_out8. by rewrite Hp. Qed.

Lemma runs_write_apic a v p c (Q : unit -> plat -> cpu -> Prop) :
  0xfee00000 <= a < 0xfee01000 -> Q tt (lapic_write a (u32 v) p) c -> runs (x64_write_apic a v) p c Q.
Proof.
  intros Ha H. apply (runs_op _ _ _ _ (fun _ p' => p' = lapic_write a (u32 v) p)); [|by intros [] ? ->].
  intros w <-. destruct (pl_lapic a (u32 v) w Ha) as (w' & E & Hv). by exists tt, w'.
Qed.

Lemma runs_cpu_id p c (Q : Z -> plat -> cpu -> Prop) : Q boot_cpu p c -> runs x64_read_cpu_id p c Q.
Proof.
  intros H. apply runs_bind. apply (runs_op _ _ _ _ (fun v p' => v = boot_cpu * 2 ^ 24 /\ p' = p)).
  - intros w <-. rewrite pl_cpu_id. by eexists _, _.
  - intros v p' [-> ->]. apply runs_ret. pose proof pl_boot_cpu. rewrite Z.shiftr_div_pow2, Z.div_mul by lia.
    unfold u8. by rewrite Z.mod_small by lia.
Qed.

(** Waiting ends. *)
Lemma runs_wait fuel port p c (Q : unit -> plat -> cpu -> Prop) :
  u16 port = KBC_PORT_B \/ u16 port = IOPORT_SERIAL + LSR -> (wait_bound < fuel)%nat -> Q tt p c ->
  runs (wait_port fuel port 0x20) p c Q.
Proof.
  intros Hp Hf HQ w Hw. assert (Hr : (wait_rounds (u16 port) w < fuel)%nat) by (pose proof (pl_bound (u16 port) w); lia).
  clear Hf. revert w Hw Hr. induction fuel as [|fuel IH]; intros w <- Hr; [lia|]. cbn [wait_port].
  destruct (pl_in8 (u16 port) w) as (v & w' & E & Hv & Hrel). destruct (Hrel Hp) as [H0 H1].
  assert (Ei : asm_in8 port (w, c) = Done (v, (w', c))) by (by apply on_fst_done).
  rewrite (bind_intro _ _ _ _ _ _ Ei eq_refl). destruct (Z.eqb_spec (Z.land v 32) 0) as [Hz|Hz].
  - apply (IH w' Hv). destruct (Nat.eq_dec (wait_rounds (u16 port) w) 0) as [E0|E0]; [by specialize (H0 E0)|].
    specialize (H1 E0). lia.
  - exists tt, w', c. split; [done|]. by rewrite Hv.
Qed.

(** Reading memory. *)
Lemma runs_read8 a p c (Q : Z -> plat -> cpu -> Prop) :
  0 <= a < RAM_END -> Q (le 1 (ram p) a) p c -> runs (mm_read8 a) p c Q.
Proof.
  intros Ha H. apply (runs_op _ _ _ _ (fun v p' => v = le 1 (ram p) a /\ p' = p)); [|by intros ? ? [-> ->]].
  intros w <-. rewrite pl_read8 by done. by eexists _, _.
Qed.
Lemma runs_read16 a p c (Q : Z -> plat -> cpu -> Prop) :
  0 <= a < RAM_END - 1 -> Q (le 2 (ram p) a) p c -> runs (mm_read16 a) p c Q.
Proof.
  intros Ha H. apply (runs_op _ _ _ _ (fun v p' => v = le 2 (ram p) a /\ p' = p)); [|by intros ? ? [-> ->]].
  intros w <-. rewrite pl_read16 by done. by eexists _, _.
Qed.
Lemma runs_read32 a p c (Q : Z -> plat -> cpu -> Prop) :
  0 <= a < RAM_END - 3 -> Q (le 4 (ram p) a) p c -> runs (mm_read32 a) p c Q.
Proof.
  intros Ha H. apply (runs_op _ _ _ _ (fun v p' => v = le 4 (ram p) a /\ p' = p)); [|by intros ? ? [-> ->]].
  intros w <-. rewrite pl_read32 by done. by eexists _, _.
Qed.

(** Registers of the processor. *)
Lemma runs_rdmsr r p c (Q : Z -> plat -> cpu -> Prop) : Q (msrs p r) p c -> runs (asm_rdmsr r) p c Q.
Proof.
  intros H. apply (runs_op _ _ _ _ (fun v p' => v = msrs p r /\ p' = p)); [|by intros ? ? [-> ->]].
  intros w <-. rewrite pl_rdmsr. by eexists _, _.
Qed.
Lemma runs_wrmsr r v p c (Q : unit -> plat -> cpu -> Prop) : Q tt (set_msrs (upd (msrs p) r v) p) c -> runs (asm_wrmsr r v) p c Q.
Proof.
  intros H. apply (runs_op _ _ _ _ (fun _ p' => p' = set_msrs (upd (msrs p) r v) p)); [|by intros [] ? ->].
  intros w <-. destruct (pl_wrmsr r v w) as (w' & E & Hv). by exists tt, w'.
Qed.
Lemma runs_read_cr0 p c (Q : Z -> plat -> cpu -> Prop) : Q (r_cr0 p) p c -> runs asm_read_cr0 p c Q.
Proof.
  intros H. apply (runs_op _ _ _ _ (fun v p' => v = r_cr0 p /\ p' = p)); [|by intros ? ? [-> ->]].
  intros w <-. rewrite pl_read_cr0. by eexists _, _.
Qed.
Lemma runs_read_cr4 p c (Q : Z -> plat -> cpu -> Prop) : Q (r_cr4 p) p c -> runs asm_read_cr4 p c Q.
Proof.
  intros H. apply (runs_op _ _ _ _ (fun v p' => v = r_cr4 p /\ p' = p)); [|by intros ? ? [-> ->]].
  intros w <-. rewrite pl_read_cr4. by eexists _, _.
Qed.

(** Control and descriptor table registers: which values are written is not used
    below except for the two tables. *)
Lemma runs_set_reg (m : M W unit) f p c (Q : unit -> plat -> cpu -> Prop) :
  (forall w, exists w', m w = Done (tt, w') /\ view w' = f (view w)) -> Q tt (f p) c -> runs (on_fst m) p c Q.
Proof.
  intros Hm H. apply (runs_op _ _ _ _ (fun _ p' => p' = f p)); [|by intros [] ? ->].
  intros w <-. destruct (Hm w) as (w' & E & Hv). by exists tt, w'.
Qed.
Lemma runs_write_cr0 v p c (Q : unit -> plat -> cpu -> Prop) :
  Q tt (set_regs v (r_cr4 p) (r_gdtr p) (r_idtr p) (r_tr p) p) c -> runs (asm_write_cr0 v) p c Q.
Proof. apply (runs_set_reg _ (fun p => set_regs v (r_cr4 p) (r_gdtr p) (r_idtr p) (r_tr p) p)). intros w. apply pl_write_cr0. Qed.
Lemma runs_write_cr4 v p c (Q : unit -> plat -> cpu -> Prop) :
  Q tt (set_regs (r_cr0 p) v (r_gdtr p) (r_idtr p) (r_tr p) p) c -> runs (asm_write_cr4 v) p c Q.
Proof. apply (runs_set_reg _ (fun p => set_regs (r_cr0 p) v (r_gdtr p) (r_idtr p) (r_tr p) p)). intros w. apply pl_write_cr4. Qed.
Lemma runs_lgdt r p c (Q : unit -> plat -> cpu -> Prop) :
  Q tt (set_regs (r_cr0 p) (r_cr4 p) r (r_idtr p) (r_tr p) p) c -> runs (asm_lgdt r) p c Q.
Proof. apply (runs_set_reg _ (fun p => set_regs (r_cr0 p) (r_cr4 p) r (r_idtr p) (r_tr p) p)). intros w. apply pl_lgdt. Qed.
Lemma runs_lidt r p c (Q : unit -> plat -> cpu -> Prop) :
  Q tt (set_regs (r_cr0 p) (r_cr4 p) (r_gdtr p) r (r_tr p) p) c -> runs (asm_lidt r) p c Q.
Proof. apply (runs_set_reg _ (fun p => set_regs (r_cr0 p) (r_cr4 p) (r_gdtr p) r (r_tr p) p)). intros w. apply pl_lidt. Qed.
Lemma runs_ltr r p c (Q : unit -> plat -> cpu -> Prop) :
  Q tt (set_regs (r_cr0 p) (r_cr4 p) (r_gdtr p) (r_idtr p) r p) c -> runs (asm_ltr r) p c Q.
Proof. apply (runs_set_reg _ (fun p => set_regs (r_cr0 p) (r_cr4 p) (r_gdtr p) (r_idtr p) r p)). intros w. apply pl_ltr. Qed.
Lemma runs_cpuid a p c (Q : Z * Z * Z * Z -> plat -> cpu -> Prop) : Q (cpuid_at a) p c -> runs (asm_cpuid_count a 0) p c Q.
Proof.
  intros H. apply (runs_op _ _ _ _ (fun v p' => v = cpuid_at a /\ p' = p)); [|by intros ? ? [-> ->]].
  intros w <-. rewrite pl_cpuid. by eexists _, _.
Qed.

(** ** The I/O APIC *)

Lemma runs_ioapic_write reg v p c (Q : unit -> plat -> cpu -> Prop) :
  ioapic_paddr c = ioapic_base -> 0x10 <= reg < 0x10 + 2 * io_lines ->
  Q tt (set_io reg (upd (io_regs p) reg (u32 v)) p) c -> runs (ioapic_write reg v) p c Q.
Proof.
  intros Hb Hr H. pose proof pl_base. pose proof pl_lines. unfold RAM_END in *.
  apply runs_bind, runs_statics, runs_bind. rewrite Hb, u64_small by lia.
  replace (u8 reg) with reg by (unfold u8; rewrite Z.mod_small; lia).
  apply (runs_op _ _ _ _ (fun _ p' => p' = set_io reg (io_regs p) p)).
  { intros w <-. destruct (pl_select reg w) as (w' & E & Hv). by exists tt, w'. }
  intros _ p1 ->. apply (runs_op _ _ _ _ (fun _ p' => p' = set_io reg (upd (io_regs p) reg (u32 v)) p)); [|by intros [] ? ->].
  intros w Hw. destruct (pl_window (u32 v) w) as (w' & E & Hv); [by rewrite Hw|]. exists tt, w'. split; [done|]. by rewrite Hv, Hw.
Qed.

Lemma runs_ioapic_version p c (Q : Z -> plat -> cpu -> Prop) :
  ioapic_paddr c = ioapic_base ->
  (forall v, Z.shiftr v 16 = io_lines - 1 -> Q v (set_io IOAPIC_REG_IOAPICVER (io_regs p) p) c) ->
  runs (ioapic_read IOAPIC_REG_IOAPICVER) p c Q.
Proof.
  intros Hb H. pose proof pl_base. unfold RAM_END in *. apply runs_bind, runs_statics, runs_bind.
  rewrite Hb, u64_small by lia. change (u8 IOAPIC_REG_IOAPICVER) with IOAPIC_REG_IOAPICVER.
  apply (runs_op _ _ _ _ (fun _ p' => p' = set_io IOAPIC_REG_IOAPICVER (io_regs p) p)).
  { intros w <-. destruct (pl_select IOAPIC_REG_IOAPICVER w) as (w' & E & Hv). by exists tt, w'. }
  intros _ p1 ->.
  apply (runs_op _ _ _ _ (fun v p' => Z.shiftr v 16 = io_lines - 1 /\ p' = set_io IOAPIC_REG_IOAPICVER (io_regs p) p));
    [|intros v ? [Hv ->]; by apply H].
  intros w Hw. destruct (pl_version w) as (v & E & Hv); [by rewrite Hw|]. exists v, w. by rewrite Hw.
Qed.

(** The entry of a line in the redirection table. *)
Definition line_is (regs : Z -> Z) (i low : Z) : Prop :=
  regs (IOAPIC_REG_NTH_IOREDTBL_LOW i) = low /\ regs (IOAPIC_REG_NTH_IOREDTBL_HIGH i) = 0.
Definition MASKED : Z := Z.shiftl 1 16.

Lemma line_is_upd regs i low v r :
  line_is regs i low -> r <> IOAPIC_REG_NTH_IOREDTBL_LOW i -> r <> IOAPIC_REG_NTH_IOREDTBL_HIGH i ->
  line_is (upd regs r v) i low.
Proof.
  intros [H1 H2] N1 N2. unfold line_is, upd. by rewrite (proj2 (Z.eqb_neq _ _) (not_eq_sym N1)), (proj2 (Z.eqb_neq _ _) (not_eq_sym N2)).
Qed.

(** Setting the entry of line [i] and no other. *)
Definition set_line (regs : Z -> Z) (i low : Z) : Z -> Z :=
  upd (upd regs (IOAPIC_REG_NTH_IOREDTBL_HIGH i) 0) (IOAPIC_REG_NTH_IOREDTBL_LOW i) low.
Lemma set_line_same regs i low : line_is (set_line regs i low) i low.
Proof.
  unfold line_is, set_line, upd, IOAPIC_REG_NTH_IOREDTBL_LOW, IOAPIC_REG_NTH_IOREDTBL_HIGH. rewrite !Z.eqb_refl.
  by rewrite (proj2 (Z.eqb_neq _ _)) by lia.
Qed.
Lemma set_line_other regs i j low l : i <> j -> line_is regs j l -> line_is (set_line regs i low) j l.
Proof.
  intros Hij H. unfold set_line, IOAPIC_REG_NTH_IOREDTBL_LOW, IOAPIC_REG_NTH_IOREDTBL_HIGH.
  do 2 (apply line_is_upd; [|unfold IOAPIC_REG_NTH_IOREDTBL_LOW; lia | unfold IOAPIC_REG_NTH_IOREDTBL_HIGH; lia]). done.
Qed.

(** What writing both words of an entry does. *)
Lemma runs_set_line i low p c (Q : unit -> plat -> cpu -> Prop) :
  ioapic_paddr c = ioapic_base -> 0 <= i < io_lines -> 0 <= low < 2 ^ 32 ->
  Q tt (set_io (IOAPIC_REG_NTH_IOREDTBL_LOW i) (set_line (io_regs p) i low) p) c ->
  runs (x64_ioapic_enable_irq low i) p c Q.
Proof.
  intros Hb Hi Hl H. unfold IOAPIC_REG_NTH_IOREDTBL_LOW in *. apply runs_bind.
  apply runs_ioapic_write; [done | unfold IOAPIC_REG_NTH_IOREDTBL_HIGH; lia|].
  apply runs_ioapic_write; [done | unfold IOAPIC_REG_NTH_IOREDTBL_LOW; lia|]. by rewrite (u32_small low) by lia.
Qed.

Lemma mask_lines_ok n : forall i p c, ioapic_paddr c = ioapic_base -> 0 <= i -> i + Z.of_nat n <= io_lines ->
  (forall j, 0 <= j < i -> line_is (io_regs p) j MASKED) ->
  runs (mask_lines n i) p c (fun _ p' c' => c' = c /\ exists sel regs, p' = set_io sel regs p /\
    forall j, 0 <= j < i + Z.of_nat n -> line_is regs j MASKED).
Proof.
  induction n as [|n IH]; intros i p c Hb Hi Hn Hm; cbn [mask_lines].
  { apply runs_ret. split; [done|]. exists (io_sel p), (io_regs p). split; [by destruct p|]. intros j Hj. apply Hm. lia. }
  apply runs_bind, runs_ioapic_write; [done | unfold IOAPIC_REG_NTH_IOREDTBL_HIGH; lia|].
  apply runs_bind, runs_ioapic_write; [done | unfold IOAPIC_REG_NTH_IOREDTBL_LOW; lia|].
  eapply runs_conseq; [apply IH; [done | lia | lia|]|].
  - intros j Hj. change (line_is (set_line (io_regs p) i MASKED) j MASKED).
    destruct (Z.eq_dec i j) as [->|Hij]; [apply set_line_same|]. apply set_line_other; [done|]. apply Hm. lia.
  - intros [] p' c' [-> (sel & regs & -> & H)]. split; [done|]. exists sel, regs. split; [done|].
    intros j Hj. apply H. lia.
Qed.

Lemma ioapic_init_ok p c : runs (x64_ioapic_init ioapic_base) p c (fun _ p' c' =>
  c' = set_ioapic_paddr ioapic_base c /\ exists sel regs, p' = set_io sel regs p /\
    forall j, 0 <= j < io_lines -> line_is regs j MASKED).
Proof.
  apply runs_bind, runs_statics, runs_bind, runs_set_statics, runs_bind, runs_out8, runs_bind, runs_out8, runs_bind.
  apply runs_ioapic_version; [done|]. intros v Hv. rewrite Hv. replace (io_lines - 1 + 1) with io_lines by lia.
  pose proof pl_lines. eapply runs_conseq; [apply mask_lines_ok; [done | lia | lia | lia]|].
  intros [] p' c' [-> (sel & regs & -> & H')]. split; [done|]. exists sel, regs. split; [done|].
  intros j Hj. apply H'. lia.
Qed.

End Runs.

(** ** The MP table *)

(** The entries of the table and their bytes; of the members that the kernel does
    not read only the number of bytes matters. *)
Inductive mp_entry :=
| MpProcessor (localapic_id : Z) (rest : list Z)
| MpBus (rest : list Z)
| MpIoapic (id ver flags addr : Z)
| MpIoint (rest : list Z)
| MpLocalint (rest : list Z).
Definition entry_bytes (e : mp_entry) : list Z :=
  match e with
  | MpProcessor id rest => 0 :: id :: rest
  | MpBus rest => 1 :: rest
  | MpIoapic id ver flags addr => [2; id; ver; flags] ++ Initfs.pack 4 addr
  | MpIoint rest => 3 :: rest
  | MpLocalint rest => 4 :: rest
  end.
Definition is_ioapic (e : mp_entry) : bool := match e with MpIoapic _ _ flags _ => truthy flags | _ => false end.

(** Bytes in memory. *)
Definition holds (f : Z -> Z) (a : Z) (l : list Z) : Prop := forall i b, l !! i = Some b -> f (a + Z.of_nat i) = b.

Lemma holds_app f a l1 l2 : holds f a (l1 ++ l2) -> holds f a l1 /\ holds f (a + Z.of_nat (length l1)) l2.
Proof.
  intros H. split; intros i b Hb.
  - apply H. by rewrite lookup_app_l by (by eapply lookup_lt_Some).
  - rewrite <- Z.add_assoc, <- Nat2Z.inj_add. apply H. rewrite lookup_app_r by lia. by rewrite Nat.add_comm, Nat.add_sub.
Qed.

Lemma holds_le f l : forall a, holds f a l -> le (length l) f a = load_le (length l) l.
Proof.
  induction l as [|b l IH]; intros a H; [done|]. cbn [length le load_le].
  rewrite <- (H 0%nat b eq_refl), Z.add_0_r, IH; [done|]. intros i x Hx. rewrite <- Z.add_assoc.
  rewrite <- (H (S i) x Hx). f_equal. lia.
Qed.

Lemma holds_pack f a n v : holds f a (Initfs.pack n v) -> 0 <= v < 256 ^ Z.of_nat n -> le n f a = v.
Proof.
  intros H Hv. apply holds_le in H. rewrite Initfs.length_pack in H. rewrite H. by apply Initfs.load_pack.
Qed.

Lemma holds_byte f a i l b : holds f a l -> l !! i = Some b -> le 1 f (a + Z.of_nat i) = b.
Proof. intros H E. cbn [le]. rewrite (H i b E). lia. Qed.

Section Table.
Context {W : Type} `{!Ports W, !Machine W, !Platform W}.

Definition entry_ok (e : mp_entry) : Prop :=
  match e with
  | MpProcessor _ rest => length rest = 18%nat
  | MpBus rest | MpIoint rest | MpLocalint rest => length rest = 7%nat
  | MpIoapic _ _ flags addr => 0 <= addr < 2 ^ 32 /\ (flags <> 0 -> addr = ioapic_base)
  end.
Definition other_cpu (e : mp_entry) : bool :=
  match e with MpProcessor id _ => negb (id =? boot_cpu) | _ => false end.
Definition count_cpus (config_mp : bool) (es : list mp_entry) (n : Z) : Z :=
  if config_mp then fold_left (fun n e => if other_cpu e then u32 (n + 1) else n) es n else n.

(** The table in memory: the pointer structure at [fp], the header at [hdr] and the
    entries. *)
Record mp_table (p : plat) (fp hdr : Z) (es : list mp_entry) : Prop := MpTable {
  mt_fp_range : 0xf0000 <= fp < 0x100000 /\ fp mod 4 = 0;
  mt_fp_sig : le 4 (ram p) fp = MP_FLOATPTR_SIGNATURE;
  mt_fp_first : forall a, 0xf0000 <= a < fp -> a mod 4 = 0 -> le 4 (ram p) a <> MP_FLOATPTR_SIGNATURE;
  mt_hdr_addr : le 4 (ram p) (fp + 4) = hdr;
  mt_hdr_range : 0 <= hdr /\ hdr + 44 + Z.of_nat (length (concat (map entry_bytes es))) < RAM_END;
  mt_sig : le 4 (ram p) hdr = MP_MPTABLE_SIGNATURE;
  mt_count : le 2 (ram p) (hdr + 34) = Z.of_nat (length es);
  mt_small : Z.of_nat (length es) < 2 ^ 16;
  mt_entries : holds (ram p) (hdr + 44) (concat (map entry_bytes es));
  mt_ok : Forall entry_ok es
}.

Lemma find_table_ok n p c fp : 0xf0000 <= fp < 0x100000 -> fp mod 4 = 0 -> le 4 (ram p) fp = MP_FLOATPTR_SIGNATURE ->
  (forall a, 0xf0000 <= a < fp -> a mod 4 = 0 -> le 4 (ram p) a <> MP_FLOATPTR_SIGNATURE) ->
  forall q, 0xf0000 <= q <= fp -> q mod 4 = 0 -> fp - q < Z.of_nat n ->
  runs (look_for_floatptr_table n q 0x100000) p c (fun r p' c' => r = Some fp /\ p' = p /\ c' = c).
Proof.
  intros Hfp Hm Hs Hf. induction n as [|n IH]; intros q Hq Hqm Hn; [lia|]. cbn [look_for_floatptr_table].
  rewrite (proj2 (Z.ltb_lt _ _)) by lia. apply runs_bind, runs_read32; [unfold RAM_END; lia|].
  destruct (Z.eq_dec q fp) as [->|Hne].
  - rewrite Hs, Z.eqb_refl. by apply runs_ret.
  - rewrite (proj2 (Z.eqb_neq _ _)) by (apply Hf; lia).
    apply IH; [|rewrite Zplus_mod, Hqm; done|lia].
    pose proof (Z.div_mod q 4). pose proof (Z.div_mod fp 4). lia.
Qed.

(** All lines are masked, as far as the kernel knows the I/O APIC. *)
Definition all_masked (p : plat) (c : cpu) : Prop :=
  ioapic_paddr c = ioapic_base /\ forall j, 0 <= j < io_lines -> line_is (io_regs p) j MASKED.

Lemma entry_length e : entry_ok e -> Z.of_nat (length (entry_bytes e)) =
  match e with MpProcessor _ _ => SIZEOF_MP_PROCESSOR_ENTRY | _ => SIZEOF_MP_ENTRY end.
Proof. destruct e; cbn -[Initfs.pack]; intros H; rewrite ?Initfs.length_pack, ?H; done. Qed.

(** What reading entries [es] leaves. *)
Definition entries_read (config_mp : bool) (es : list mp_entry) (p : plat) (c : cpu) (p' : plat) (c' : cpu) : Prop :=
  exists sel regs a, p' = set_io sel regs p /\
    c' = set_num_cpus (count_cpus config_mp es (num_cpus c)) (set_ioapic_paddr a c) /\
    (all_masked p c \/ existsb is_ioapic es = true -> all_masked p' c').

Lemma entries_read_same config_mp e p c : is_ioapic e = false -> other_cpu e = false -> entries_read config_mp [e] p c p c.
Proof.
  intros Hi Ho. exists (io_sel p), (io_regs p), (ioapic_paddr c). split; [by destruct p|].
  split; [unfold count_cpus; simpl; rewrite Ho; by destruct config_mp, c|]. simpl. rewrite Hi. by intros [H|H].
Qed.

(** Each kind of entry. *)
Lemma entry_type e ptr p : holds (ram p) ptr (entry_bytes e) -> le 1 (ram p) ptr =
  match e with
  | MpProcessor _ _ => MP_BASETABLE_PROCESSOR_ENTRY
  | MpBus _ => MP_BASETABLE_BUS_ENTRY
  | MpIoapic _ _ _ _ => MP_BASETABLE_IOAPIC_ENTRY
  | MpIoint _ => MP_BASETABLE_IOINT_ASSIGN_ENTRY
  | MpLocalint _ => MP_BASETABLE_LOCALINT_ASSIGN_ENTRY
  end.
Proof. intros H. rewrite <- (Z.add_0_r ptr). apply (holds_byte _ _ 0 _ _ H). by destruct e. Qed.

Lemma read_processor_ok config_mp id rest ptr p c : holds (ram p) ptr (entry_bytes (MpProcessor id rest)) ->
  0 <= ptr -> ptr + SIZEOF_MP_PROCESSOR_ENTRY < RAM_END ->
  runs (read_mp_entry config_mp ptr) p c (fun size p' c' =>
    size = SIZEOF_MP_PROCESSOR_ENTRY /\ entries_read config_mp [MpProcessor id rest] p c p' c').
Proof.
  intros Hb Hp He. unfold SIZEOF_MP_PROCESSOR_ENTRY in He. apply runs_bind, runs_read8; [lia|].
  rewrite (entry_type _ _ _ Hb). change (MP_BASETABLE_PROCESSOR_ENTRY =? _) with false at 1. apply runs_bind.
  assert (Hs : forall n c', num_cpus c' = n -> c' = set_num_cpus n c -> count_cpus config_mp [MpProcessor id rest] (num_cpus c) = n ->
    runs (ret SIZEOF_MP_PROCESSOR_ENTRY) p c' (fun size p' c' =>
      size = SIZEOF_MP_PROCESSOR_ENTRY /\ entries_read config_mp [MpProcessor id rest] p c p' c')).
  { intros n c' Hn -> Hc. apply runs_ret. split; [done|]. exists (io_sel p), (io_regs p), (ioapic_paddr c).
    split; [by destruct p|]. rewrite Hc. split; [by destruct c|]. intros [H|H]; [|done]. by destruct c. }
  destruct config_mp.
  - apply runs_bind, runs_read8; [lia|]. apply runs_bind, runs_cpu_id, runs_bind, runs_statics.
    rewrite (holds_byte _ ptr 1 _ id Hb eq_refl : le 1 (ram p) (ptr + 1) = id). destruct (id =? boot_cpu) eqn:E; simpl.
    + apply runs_ret. apply (Hs (num_cpus c)); [done | by destruct c|]. unfold count_cpus. simpl. by rewrite E.
    + apply runs_set_statics. apply (Hs (u32 (num_cpus c + 1))); [done | done|]. unfold count_cpus. simpl. by rewrite E.
  - apply runs_ret. apply (Hs (num_cpus c)); [done | by destruct c | done].
Qed.

Lemma read_ioapic_ok config_mp id ver flags addr ptr p c : entry_ok (MpIoapic id ver flags addr) ->
  holds (ram p) ptr (entry_bytes (MpIoapic id ver flags addr)) -> 0 <= ptr -> ptr + SIZEOF_MP_ENTRY < RAM_END ->
  runs (read_mp_entry config_mp ptr) p c (fun size p' c' =>
    size = SIZEOF_MP_ENTRY /\ entries_read config_mp [MpIoapic id ver flags addr] p c p' c').
Proof.
  intros [Ha Hb] H H0 He. unfold SIZEOF_MP_ENTRY in *. apply runs_bind, runs_read8; [lia|].
  rewrite (entry_type _ _ _ H), Z.eqb_refl. apply runs_bind, runs_read8; [lia|].
  rewrite (holds_byte _ ptr 3 _ flags H eq_refl : le 1 (ram p) (ptr + 3) = flags). apply holds_app in H as [_ H].
  destruct (truthy flags) eqn:Ef; apply runs_bind.
  - apply runs_bind, runs_read32; [lia|]. rewrite (holds_pack _ (ptr + 4) 4 addr H Ha), Hb by (by apply truthy_true).
    eapply runs_conseq; [apply ioapic_init_ok|]. intros [] p' c' [-> (sel & regs & -> & Hm)]. apply runs_ret. split; [done|].
    exists sel, regs, ioapic_base. split; [done|]. split; [unfold count_cpus; by destruct config_mp, c|].
    intros _. split; [by destruct c | done].
  - apply runs_ret, runs_ret. split; [done|]. by apply entries_read_same.
Qed.

Lemma read_entry_ok config_mp e ptr p c : entry_ok e -> holds (ram p) ptr (entry_bytes e) -> 0 <= ptr ->
  ptr + Z.of_nat (length (entry_bytes e)) < RAM_END ->
  runs (read_mp_entry config_mp ptr) p c (fun size p' c' =>
    size = Z.of_nat (length (entry_bytes e)) /\ entries_read config_mp [e] p c p' c').
Proof.
  intros Hok Hb H0 He. rewrite (entry_length e Hok) in *.
  destruct e as [id rest|rest|id ver flags addr|rest|rest];
    [by apply read_processor_ok | | by apply read_ioapic_ok | |];
    (apply runs_bind, runs_read8; [unfold SIZEOF_MP_ENTRY in He; lia|]; rewrite (entry_type _ _ _ Hb);
     apply runs_ret; split; [done|]; by apply entries_read_same).
Qed.

(** The entries from [i] on. *)
Lemma read_entries_ok config_mp hdr es : forall n i ptr p c,
  le 2 (ram p) (hdr + 34) = i + Z.of_nat (length es) -> (length es < n)%nat ->
  0 <= hdr -> hdr + 35 < ptr -> ptr + Z.of_nat (length (concat (map entry_bytes es))) < RAM_END ->
  holds (ram p) ptr (concat (map entry_bytes es)) -> Forall entry_ok es ->
  runs (read_mp_entries config_mp n hdr i ptr) p c (fun _ => entries_read config_mp es p c).
Proof.
  induction es as [|e es IH]; intros n i ptr p c Hc Hn Hh Hp He Hb Hok; (destruct n as [|n]; [simpl in Hn; lia|]);
    cbn [read_mp_entries]; apply runs_bind, runs_read16; try lia; rewrite Hc.
  { rewrite (proj2 (Z.ltb_ge _ _)) by (simpl; lia). apply runs_ret. exists (io_sel p), (io_regs p), (ioapic_paddr c).
    split; [by destruct p|]. split; [unfold count_cpus; destruct config_mp; by destruct c|]. by intros [H|H]. }
  rewrite (proj2 (Z.ltb_lt _ _)) by (simpl; lia). apply Forall_cons in Hok as [Hok Hoks].
  cbn [map concat] in Hb, He. apply holds_app in Hb as [Hb Hbs]. rewrite length_app in He.
  apply runs_bind. eapply runs_conseq; [apply read_entry_ok; [done | done | lia | lia]|].
  intros size p1 c1 [-> (sel & regs & a & -> & -> & Hm)].
  eapply runs_conseq; [apply IH; simpl; try lia; try done; simpl in Hn, Hc; try rewrite Hc; lia|].
  intros [] p2 c2 (sel2 & regs2 & a2 & -> & -> & Hm2). exists sel2, regs2, a2. split; [done|].
  split; [unfold count_cpus; by destruct config_mp, c|].
  intros H. apply Hm2. simpl in H. rewrite orb_true_iff in H. destruct H as [H|[H|H]]; [left; apply Hm; by left | | by right].
  left. apply Hm. right. simpl. by rewrite H.
Qed.

Lemma read_mp_table_ok config_mp fp hdr es p c : mp_table p fp hdr es ->
  runs (x64_read_mp_table config_mp) p c (fun _ => entries_read config_mp es p c).
Proof.
  intros []. unfold x64_read_mp_table. pose proof (Z2Nat.id 0x10000 ltac:(lia)) as Hn. revert Hn.
  generalize (Z.to_nat 0x10000). intros n Hn. destruct mt_fp_range0 as [Hfp Hmod]. apply runs_bind. eapply runs_conseq.
  { apply (find_table_ok n p c fp Hfp Hmod mt_fp_sig0 mt_fp_first0); [lia | reflexivity | lia]. }
  intros r p' c' (-> & -> & ->). apply runs_bind, runs_read32; [unfold RAM_END; lia|]. rewrite mt_hdr_addr0.
  apply runs_bind, runs_read32; [lia|]. rewrite mt_sig0, Z.eqb_refl. cbn [negb]. unfold SIZEOF_MP_TABLE_HEADER.
  apply read_entries_ok; [rewrite mt_count0; lia | lia | lia | lia | lia | exact mt_entries0 | exact mt_ok0].
Qed.
End Table.

(** ** The processor *)

Ltac mrun1 :=
  lazymatch goal with
  | |- runs (bind _ _) _ _ _ => apply runs_bind
  | |- runs (ret _) _ _ _ => apply runs_ret
  | |- runs statics _ _ _ => apply runs_statics
  | |- runs (set_statics _) _ _ _ => apply runs_set_statics
  | |- runs (asm_out8 _ _) _ _ _ => apply runs_out8_other; [reflexivity|]
  | |- runs (asm_in8 _) _ _ _ => apply runs_in8; intros ?
  | |- runs (x64_write_apic _ _) _ _ _ => apply runs_write_apic; [cbv; split; [discriminate | reflexivity]|]
  | |- runs x64_read_cpu_id _ _ _ => apply runs_cpu_id
  | |- runs (asm_rdmsr _) _ _ _ => apply runs_rdmsr
  | |- runs (asm_wrmsr _ _) _ _ _ => apply runs_wrmsr
  | |- runs asm_read_cr0 _ _ _ => apply runs_read_cr0
  | |- runs asm_read_cr4 _ _ _ => apply runs_read_cr4
  | |- runs (asm_write_cr0 _) _ _ _ => apply runs_write_cr0
  | |- runs (asm_write_cr4 _) _ _ _ => apply runs_write_cr4
  | |- runs (asm_lgdt _) _ _ _ => apply runs_lgdt
  | |- runs (asm_lidt _) _ _ _ => apply runs_lidt
  | |- runs (asm_ltr _) _ _ _ => apply runs_ltr
  | |- runs (asm_cpuid_count _ 0) _ _ _ => apply runs_cpuid
  end.
Ltac mrun := repeat mrun1.

Section Cpu.
Context {W : Type} `{!Ports W, !Machine W, !Platform W}.

(** What most of the initialisation leaves alone. *)
Record same (p : plat) (c : cpu) (p' : plat) (c' : cpu) : Prop := Same {
  sm_regs : io_regs p' = io_regs p;
  sm_idtr : r_idtr p' = r_idtr p;
  sm_idt : cv_idt c' = cv_idt c;
  sm_ioapic : ioapic_paddr c' = ioapic_paddr c;
  sm_cpus : num_cpus c' = num_cpus c
}.

(** An Intel processor with the features that the kernel needs. *)
Record cpu_ok (fsgsbase : bool) : Prop := CpuOk {
  ck_vendor : exists eax, cpuid_at CPUID_VENDOR = (eax, CPUID_VENDOR_INTEL_EBX, CPUID_VENDOR_INTEL_ECX, CPUID_VENDOR_INTEL_EDX);
  ck_fsgsbase : fsgsbase = true ->
    exists a b c d, cpuid_at CPUID_EXT_FEATURES = (a, b, c, d) /\ Z.land b CPUID_EXT_FEATURES_EBX_FSGSBASE <> 0;
  ck_xsave_size : exists a b c d, cpuid_at CPUID_EXT_STATE_ENUM = (a, b, c, d) /\ b <= PAGE_SIZE;
  ck_xsave : exists a b c d, cpuid_at CPUID_FEATURES = (a, b, c, d) /\ Z.land c CPUID_FEATURES_ECX_XSAVE <> 0
}.

Lemma pic_init_ok p c : runs pic_init p c (fun _ p' c' => p' = p /\ c' = c).
Proof. unfold pic_init. mrun. done. Qed.

Lemma cpu_features_ok fsgsbase p c : cpu_ok fsgsbase ->
  runs (cpu_features_init fsgsbase) p c (fun _ p' c' => same p c p' c').
Proof.
  intros [[a1 E1] H2 (a3 & b3 & c3 & d3 & E3 & H3) _]. unfold cpu_features_init. mrun. rewrite E1.
  cbv beta iota. rewrite !Z.eqb_refl. cbn [negb orb]. mrun. destruct fsgsbase; mrun.
  - destruct (H2 eq_refl) as (a2 & b2 & c2 & d2 & -> & Hb). apply Z.eqb_neq in Hb. rewrite Hb. mrun. rewrite E3.
    rewrite (proj2 (Z.ltb_ge _ _) H3). mrun. done.
  - rewrite E3. rewrite (proj2 (Z.ltb_ge _ _) H3). mrun. done.
Qed.

Lemma apic_init_ok p c : runs x64_apic_init p c (fun _ p' c' => same p c p' c').
Proof. unfold x64_apic_init. mrun. done. Qed.

Lemma fpu_init_ok fsgsbase p c : cpu_ok fsgsbase -> runs fpu_init p c (fun _ p' c' => same p c p' c' /\ cv_fpu_owner c' = 0).
Proof.
  intros [_ _ _ (a & b & cc & d & E & H)]. unfold fpu_init. mrun. rewrite E. apply Z.eqb_neq in H. rewrite H. mrun. done.
Qed.

Lemma gdt_init_ok tss_addr gdt_addr p c :
  runs (gdt_init tss_addr gdt_addr) p c (fun _ p' c' => same p c p' c' /\ r_gdtr p' = (63, gdt_addr)).
Proof. unfold gdt_init. destruct (gdt_tss tss_addr) as [l h]. mrun. done. Qed.

Lemma tss_init_ok p c : runs tss_init p c (fun _ p' c' => same p c p' c').
Proof. unfold tss_init. mrun. done. Qed.

(** The gates. *)
Lemma set_gates_ok handlers n : forall i idt, 0 <= i -> i + Z.of_nat n <= Z.of_nat (length idt) ->
  exists idt', set_gates handlers n i idt = Some idt' /\ length idt' = length idt /\
    (forall v, i <= v < i + Z.of_nat n -> arr_get idt' v = Some (set_idt_entry (u64 (handlers + v * INTERRUPT_HANDLER_SIZE)) IST_RSP0)) /\
    (forall v, v < i -> arr_get idt' v = arr_get idt v).
Proof.
  induction n as [|n IH]; intros i idt Hi Hn; cbn [set_gates].
  { exists idt. repeat split; try done. lia. }
  set (e := set_idt_entry _ _). rewrite (arr_set_Some idt i e) by lia.
  destruct (IH (i + 1) (<[Z.to_nat i := e]> idt)) as (idt' & -> & Hl & Hs & Ho); [lia | rewrite length_insert; lia|].
  assert (Eset : arr_set idt i e = Some (<[Z.to_nat i := e]> idt)) by (apply arr_set_Some; lia).
  exists idt'. split; [done|]. split; [by rewrite Hl, length_insert|]. split.
  - intros v Hv. destruct (Z.eq_dec v i) as [->|Hne]; [|apply Hs; lia]. rewrite Ho by lia.
    by rewrite (arr_get_set _ _ _ _ _ Eset), Z.eqb_refl.
  - intros v Hv. rewrite Ho by lia. rewrite (arr_get_set _ _ _ _ _ Eset). by rewrite (proj2 (Z.eqb_neq _ _)) by lia.
Qed.

(** Every gate leads to the handler of its vector. *)
Definition gates_ok (handlers : Z) (idt : list idt_entry) : Prop :=
  forall v, 0 <= v < 256 -> exists gate, arr_get idt v = Some gate /\ gate_offset gate = handlers + v * INTERRUPT_HANDLER_SIZE.

Lemma idt_init_ok handlers idt_addr p c : length (cv_idt c) = 256%nat -> 0 <= handlers < 2 ^ 64 - 4096 ->
  runs (idt_init idt_addr handlers) p c (fun _ p' c' => io_regs p' = io_regs p /\ ioapic_paddr c' = ioapic_paddr c /\
    num_cpus c' = num_cpus c /\ r_idtr p' = (4097, idt_addr) /\ gates_ok handlers (cv_idt c')).
Proof.
  intros Hl Hh. unfold idt_init. mrun. destruct (set_gates_ok handlers 256 0 (cv_idt c)) as (idt & E & _ & Hg & _); [lia | rewrite Hl; lia|].
  rewrite E. cbn [need]. mrun. repeat split; try done. intros v Hv. eexists. split; [apply Hg; lia|].
  unfold INTERRUPT_HANDLER_SIZE. rewrite u64_small by lia. apply idt_gate_offset. lia.
Qed.

(** The timer: the count set for a period is computed from what the timer counted
    while the PIT waited. *)
Lemma calibrate_ok fuel p c : (wait_bound < fuel)%nat ->
  runs (calibrate_apic_timer fuel) p c (fun _ p' c' => same p c p' c' /\ exists cur, 0 <= cur < 2 ^ 32 /\
    counts_per_sec c' = (0xffffffff - cur) * 8000 mod 2 ^ 32 /\ lapic p' APIC_REG_TIMER_INITCNT = counts_per_sec c' / TICK_HZ).
Proof.
  intros Hf. unfold calibrate_apic_timer. mrun. apply runs_wait; [by left | done|]. mrun.
  eapply (runs_op _ _ _ _ (fun v p' => 0 <= v < 2 ^ 32 /\ p' = _)).
  { intros w Hw. destruct (pl_timer w) as (cur & w' & E & Hv & Hs). exists cur, w'. split; [done|]. split; [done|]. rewrite Hs. exact Hw. }
  intros cur p' [Hc ->]. mrun. split; [done|]. exists cur. split; [done|]. cbn [counts_per_sec set_counts_per_sec lapic lapic_write set_lapic].
  unfold APIC_TIMER_DIV. rewrite Z.shiftl_mul_pow2 by lia. rewrite (u64_small (0xffffffff - cur)), u64_small by lia.
  replace ((0xffffffff - cur) * 1000 * 2 ^ 3) with ((0xffffffff - cur) * 8000) by lia. split; [done|].
  unfold upd. rewrite Z.eqb_refl. unfold TICK_HZ. apply u32_small. unfold u32.
  pose proof (Z.mod_pos_bound ((0xffffffff - cur) * 8000) (2 ^ 32)). split; [apply Z.div_pos; lia|].
  apply Z.div_lt_upper_bound; lia.
Qed.

Lemma timer_init_ok fuel p c : (wait_bound < fuel)%nat -> ioapic_paddr c = ioapic_base ->
  runs (x64_apic_timer_init fuel) p c (fun _ p' c' =>
    io_regs p' = set_line (io_regs p) 0 APIC_TIMER_VECTOR /\ r_idtr p' = r_idtr p /\ cv_idt c' = cv_idt c /\
    ioapic_paddr c' = ioapic_paddr c /\ num_cpus c' = num_cpus c).
Proof.
  intros Hf Hb. unfold x64_apic_timer_init. pose proof pl_lines. apply runs_bind, runs_set_line; [done | lia | done|]. mrun.
  destruct (boot_cpu =? 0); [|mrun; done]. eapply runs_conseq; [by apply calibrate_ok|].
  intros [] p' c' [[] _]. mrun. done.
Qed.

Lemma syscall_init_ok handler p c : runs (syscall_init handler) p c (fun _ p' c' =>
  same p c p' c' /\ msrs p' MSR_LSTAR = handler /\ msrs p' MSR_FMASK = SYSCALL_RFLAGS_MASK /\
  msrs p' MSR_STAR = USER_CS32 * 2 ^ 48 + KERNEL_CS * 2 ^ 32).
Proof. unfold syscall_init. mrun. done. Qed.

End Cpu.

(** The interrupts that servers ask for. *)
Fixpoint enable_irqs {W} `{!Ports W, !Machine W} (irqs : list Z) : M (W * cpu) unit :=
  match irqs with
  | [] => ret tt
  | irq :: irqs => X64.enable_irq irq ;;; enable_irqs irqs
  end.

Section Boot.
Context {W : Type} `{!Ports W, !Machine W, !Platform W}.

Lemma enable_irqs_ok irqs : forall p c, ioapic_paddr c = ioapic_base -> Forall (fun i => 0 <= i < io_lines) irqs ->
  runs (enable_irqs irqs) p c (fun _ p' c' => c' = c /\ exists sel regs, p' = set_io sel regs p /\
    forall i l, 0 <= i < io_lines -> line_is (io_regs p) i l ->
      line_is regs i (if bool_decide (i ∈ irqs) then VECTOR_IRQ_BASE + i else l)).
Proof.
  induction irqs as [|irq irqs IH]; intros p c Hb Hr; cbn [enable_irqs].
  { mrun. split; [done|]. exists (io_sel p), (io_regs p). split; [by destruct p | done]. }
  apply Forall_cons in Hr as [Hi Hr]. pose proof pl_lines. apply runs_bind.
  assert (Hv : u8 (VECTOR_IRQ_BASE + irq) = VECTOR_IRQ_BASE + irq) by (unfold u8, VECTOR_IRQ_BASE; rewrite Z.mod_small; lia).
  unfold X64.enable_irq. rewrite Hv. apply runs_set_line; [done | done | unfold VECTOR_IRQ_BASE; lia|].
  eapply runs_conseq; [by apply IH|]. intros [] p' c' [-> (sel & regs & -> & H')]. split; [done|].
  exists sel, regs. split; [done|]. intros i l Hil Hl. cbn [io_regs set_io] in H'.
  destruct (decide (i = irq)) as [->|Hne].
  - specialize (H' irq _ Hi (set_line_same _ irq (VECTOR_IRQ_BASE + irq))).
    rewrite (bool_decide_true (irq ∈ irq :: irqs)) by set_solver. by destruct (bool_decide (irq ∈ irqs)).
  - specialize (H' i l Hil (set_line_other _ irq i _ l (not_eq_sym Hne) Hl)).
    by rewrite (bool_decide_ext (i ∈ irq :: irqs) (i ∈ irqs)) by set_solver.
Qed.

(** What the kernel relies on after [arch_init]: the interrupts of the timer and the
    serial port alone are enabled, the gates lead to the handlers, and system
    calls to theirs. *)
Record machine_ready (handlers syscall_handler idt_addr : Z) (p : plat) (c : cpu) : Prop := MachineReady {
  mr_ioapic : ioapic_paddr c = ioapic_base;
  mr_lines : forall i, 0 <= i < io_lines ->
    line_is (io_regs p) i (if (i =? 0) || (i =? SERIAL_IRQ) then VECTOR_IRQ_BASE + i else MASKED);
  mr_idtr : (r_idtr p).2 = idt_addr;
  mr_gates : gates_ok handlers (cv_idt c);
  mr_syscall : msrs p MSR_LSTAR = syscall_handler;
  mr_fmask : msrs p MSR_FMASK = SYSCALL_RFLAGS_MASK
}.

Lemma cpu_setup_ok fsgsbase tss_addr gdt_addr idt_addr handlers syscall_handler fuel p c :
  cpu_ok fsgsbase -> (wait_bound < fuel)%nat -> all_masked p c -> length (cv_idt c) = 256%nat ->
  0 <= handlers < 2 ^ 64 - 4096 ->
  runs (common_cpu_setup fsgsbase tss_addr gdt_addr idt_addr handlers syscall_handler fuel) p c (fun _ p' c' =>
    num_cpus c' = num_cpus c /\ ioapic_paddr c' = ioapic_base /\
    (forall i, 0 <= i < io_lines -> line_is (io_regs p') i (if i =? 0 then VECTOR_IRQ_BASE + i else MASKED)) /\
    (r_idtr p').2 = idt_addr /\ gates_ok handlers (cv_idt c') /\
    msrs p' MSR_LSTAR = syscall_handler /\ msrs p' MSR_FMASK = SYSCALL_RFLAGS_MASK).
Proof.
  intros Hcpu Hf [Hb Hm] Hl Hh. unfold common_cpu_setup.
  apply runs_bind. eapply runs_conseq; [by apply cpu_features_ok|]. intros _ p1 c1 [R1 _ I1 B1 N1].
  apply runs_bind. eapply runs_conseq; [apply apic_init_ok|]. intros _ p2 c2 [R2 _ I2 B2 N2].
  apply runs_bind. eapply runs_conseq; [by eapply fpu_init_ok|]. intros _ p3 c3 [[R3 _ I3 B3 N3] _].
  apply runs_bind. eapply runs_conseq; [apply gdt_init_ok|]. intros _ p4 c4 [[R4 _ I4 B4 N4] _].
  apply runs_bind. eapply runs_conseq; [apply tss_init_ok|]. intros _ p5 c5 [R5 _ I5 B5 N5].
  apply runs_bind. eapply runs_conseq; [apply idt_init_ok; [congruence | done]|]. intros _ p6 c6 (R6 & B6 & N6 & D6 & G6).
  apply runs_bind. eapply runs_conseq; [apply timer_init_ok; [done | congruence]|]. intros _ p7 c7 (R7 & D7 & I7 & B7 & N7).
  eapply runs_conseq; [apply syscall_init_ok|]. intros _ p8 c8 [[R8 D8 I8 B8 N8] (L8 & M8 & _)].
  split; [congruence|]. split; [congruence|]. split; [|split; [by rewrite D8, D7, D6|split; [by rewrite I8, I7|done]]].
  intros i Hi. rewrite R8, R7, R6, R5, R4, R3, R2, R1. destruct (Z.eqb_spec i 0) as [->|Hne]; [apply set_line_same|].
  apply set_line_other; [done|]. by apply Hm.
Qed.

Lemma arch_init_ok config_mp fsgsbase text_ui tss_addr gdt_addr idt_addr handlers syscall_handler fuel m fb0 ia fp hdr es p c :
  parse_multiboot_info text_ui m fb0 = Done ia -> mp_table p fp hdr es -> existsb is_ioapic es = true ->
  cpu_ok fsgsbase -> (wait_bound < fuel)%nat -> length (cv_idt c) = 256%nat -> 0 <= handlers < 2 ^ 64 - 4096 ->
  runs (arch_init config_mp fsgsbase text_ui tss_addr gdt_addr idt_addr handlers syscall_handler fuel m fb0) p c
    (fun r p' c' => r = ia /\ machine_ready handlers syscall_handler idt_addr p' c' /\
      num_cpus c' = count_cpus config_mp es (num_cpus c)).
Proof.
  intros Hia Ht Hes Hcpu Hf Hl Hh. unfold arch_init. rewrite Hia.
  apply runs_bind, (runs_ret ia). apply runs_bind. eapply runs_conseq; [apply pic_init_ok|]. intros _ p1 c1 [-> ->].
  apply runs_bind. eapply runs_conseq; [by eapply read_mp_table_ok|].
  intros _ p2 c2 (sel & regs & a & -> & -> & Hm). specialize (Hm (or_intror Hes)).
  apply runs_bind. eapply runs_conseq; [by apply cpu_setup_ok|].
  intros _ p3 c3 (N3 & B3 & L3 & D3 & G3 & S3 & F3). apply runs_bind. unfold x64_serial_init.
  apply runs_bind, runs_out8_other; [done|]. pose proof pl_lines.
  apply (runs_set_line SERIAL_IRQ (VECTOR_IRQ_BASE + SERIAL_IRQ)); [done | unfold SERIAL_IRQ; lia | done|].
  apply runs_ret. split; [done|]. split; [|done]. constructor; try done.
  intros i Hi. cbn [io_regs set_io]. destruct (Z.eqb_spec i SERIAL_IRQ) as [->|Hne].
  - rewrite orb_true_r. apply set_line_same.
  - rewrite orb_false_r. apply set_line_other; [done|]. by apply L3.
Qed.

End Boot.

(** Interrupts of devices reach the function that wakes their listeners. *)
Lemma device_interrupt i error cr2 s : 0 <= i < 224 -> i <> 0 -> i <> SERIAL_IRQ ->
  Sys.x64_handle_interrupt (VECTOR_IRQ_BASE + i) error cr2 s = (KServer.deliver_interrupt i ;;; done_ 0) s.
Proof.
  intros Hi H0 Hs. unfold Sys.x64_handle_interrupt, EXP_PAGE_FAULT, EXP_DEVICE_NOT_AVAILABLE, APIC_TIMER_VECTOR, VECTOR_IRQ_BASE in *.
  rewrite !(proj2 (Z.eqb_neq (32 + i) _)) by lia. rewrite (proj2 (Z.leb_gt _ _)), (proj2 (Z.leb_le 32 _)) by lia.
  replace (32 + i - 32) with i by lia. by rewrite (proj2 (Z.eqb_neq _ _) Hs).
Qed.

(** C17: the path of an interrupt.  The machine has an Intel processor with XSAVE, whose area
    fits a page, and with FSGSBASE if the kernel is configured for it; the boot loader's
    information is accepted; the firmware's MP table has entries of the five known types
    only (another type makes the kernel panic), among them an I/O APIC, and every usable I/O
    APIC entry names the same address.  Then [arch_init] ends; after it and after the
    interrupts of some devices were enabled, the I/O APIC sends the interrupt of line [i]
    with the vector [32 + i] if the line belongs to the timer, the serial port or one of the
    devices, and masks it otherwise; the gate of every vector leads to the handler of the
    vector, and the handler of a device passes on the number of the line; system calls
    enter the kernel at their handler; with [CONFIG_MP] every other processor of the table
    is counted, and without it none. *)
Theorem interrupt_path {W : Type} `{!Ports W, !Machine W, !Platform W}
    (config_mp fsgsbase text_ui : bool) (tss_addr gdt_addr idt_addr handlers syscall_handler : Z) (fuel : nat)
    (m : multiboot_info) (fb0 : boot_framebuffer) (ia : init_args) (fp hdr : Z) (es : list mp_entry) (irqs : list Z) (w : W) (c : cpu)
    (Hia : parse_multiboot_info text_ui m fb0 = Done ia) (Ht : mp_table (view w) fp hdr es)
    (Hes : existsb is_ioapic es = true) (Hcpu : cpu_ok fsgsbase) (Hf : (wait_bound < fuel)%nat)
    (Hl : length (cv_idt c) = 256%nat) (Hh : 0 <= handlers < 2 ^ 64 - 4096)
    (Hirqs : Forall (fun i => 0 <= i < io_lines) irqs) :
  exists w' c',
    (a <- arch_init config_mp fsgsbase text_ui tss_addr gdt_addr idt_addr handlers syscall_handler fuel m fb0 ;;
     enable_irqs irqs ;;; ret a) (w, c) = Done (ia, (w', c')) /\
    (forall i, 0 <= i < io_lines -> line_is (io_regs (view w')) i
       (if (i =? 0) || (i =? SERIAL_IRQ) || bool_decide (i ∈ irqs) then VECTOR_IRQ_BASE + i else MASKED)) /\
    (r_idtr (view w')).2 = idt_addr /\ gates_ok handlers (cv_idt c') /\
    (forall i error cr2 s, 0 <= i < io_lines -> i <> 0 -> i <> SERIAL_IRQ ->
       Sys.x64_handle_interrupt (VECTOR_IRQ_BASE + i) error cr2 s = (KServer.deliver_interrupt i ;;; done_ 0) s) /\
    msrs (view w') MSR_LSTAR = syscall_handler /\ num_cpus c' = count_cpus config_mp es (num_cpus c).
Proof.
  assert (H : runs (a <- arch_init config_mp fsgsbase text_ui tss_addr gdt_addr idt_addr handlers syscall_handler fuel m fb0 ;;
     enable_irqs irqs ;;; ret a) (view w) c (fun r p' c' => r = ia /\ num_cpus c' = count_cpus config_mp es (num_cpus c) /\
     (r_idtr p').2 = idt_addr /\ gates_ok handlers (cv_idt c') /\ msrs p' MSR_LSTAR = syscall_handler /\
     (forall i, 0 <= i < io_lines -> line_is (io_regs p') i
       (if (i =? 0) || (i =? SERIAL_IRQ) || bool_decide (i ∈ irqs) then VECTOR_IRQ_BASE + i else MASKED)))).
  { apply runs_bind. eapply runs_conseq; [by eapply arch_init_ok|]. intros r p1 c1 (-> & [] & N1).
    apply runs_bind. eapply runs_conseq; [by apply enable_irqs_ok|]. intros _ p2 c2 [-> (sel & regs & -> & L)].
    apply runs_ret. do 5 (split; [done|]). intros i Hi. pose proof (L i _ Hi (mr_lines0 i Hi)) as HL.
    by destruct ((i =? 0) || (i =? SERIAL_IRQ)), (bool_decide (i ∈ irqs)). }
  destruct (H w eq_refl) as (a & w' & c' & E & -> & N & D & G & S & L). exists w', c'.
  split; [done|]. split; [done|]. split; [done|]. split; [done|]. split; [|done].
  intros i error cr2 s Hi. pose proof pl_lines. apply device_interrupt. lia.
Qed.

(** ** The other processors and the serial port *)

Section Aps.
Context {W : Type} `{!Ports W, !Machine W, !Platform W}.

(** The command words of an interrupt for one processor. *)
Definition unicast (id mode vector : Z) : Z * Z := (id * 2 ^ 24, 2 ^ 14 + mode * 2 ^ 8 + vector).

Lemma send_ipi_ok vector id mode p c : 0 <= vector < 256 -> 0 <= id < 256 ->
  runs (x64_send_ipi vector IPI_DEST_UNICAST id mode) p c (fun _ p' c' => c' = c /\
    ram p' = ram p /\ ipis p' = ipis p ++ [unicast id (ipi_mode_value mode) vector]).
Proof.
  intros Hv Hi. unfold x64_send_ipi. set (data := Z.lor _ vector).
  assert (Hd : data = vector + (2 ^ 6 + ipi_mode_value mode) * 2 ^ 8 + id * 2 ^ 56).
  { subst data. change (Z.shiftl (ipi_dest_value IPI_DEST_UNICAST) 18) with 0. rewrite Z.lor_0_r.
    rewrite <- !Z.lor_assoc, Z.lor_comm. rewrite (Z.lor_assoc (Z.shiftl 1 14)), (Z.lor_comm _ vector).
    replace (Z.lor (Z.shiftl 1 14) (Z.shiftl (ipi_mode_value mode) 8)) with (Z.shiftl (2 ^ 6 + ipi_mode_value mode) 8)
      by (by destruct mode).
    rewrite (lor_add vector) by lia. rewrite lor_add by (destruct mode; simpl; lia). done. }
  mrun. split; [done|]. split; [done|]. cbn [ipis lapic_write set_lapic lapic].
  change (APIC_REG_ICR_HIGH =? APIC_REG_ICR_LOW) with false. rewrite Z.eqb_refl. cbv iota. f_equal. unfold unicast, upd.
  rewrite Z.eqb_refl. assert (0 <= ipi_mode_value mode < 8) by (destruct mode; simpl; lia).
  change 0xffffffff with (Z.ones 32). rewrite Z.land_ones, Z.shiftr_div_pow2, Hd by lia.
  replace (id * 2 ^ 56) with ((id * 2 ^ 24) * 2 ^ 32) by lia.
  rewrite Z_div_plus, Z_mod_plus by lia. set (low := vector + _). assert (0 <= low < 2 ^ 32) by (subst low; lia).
  rewrite (Z.div_small low), (Z.mod_small low) by lia. rewrite !u32_small by lia. subst low. do 2 f_equal; lia.
Qed.

Lemma udelay_ok n p c : runs (udelay n) p c (fun _ p' c' => p' = p /\ c' = c).
Proof. induction n as [|n IH]; cbn [udelay]; mrun; done. Qed.

Lemma copy_to_ok bytes : forall dst p c, 0 <= dst -> dst + Z.of_nat (length bytes) <= RAM_END ->
  runs (copy_to dst bytes) p c (fun _ p' c' => c' = c /\ ipis p' = ipis p /\ holds (ram p') dst bytes /\
    forall a, a < dst \/ dst + Z.of_nat (length bytes) <= a -> ram p' a = ram p a).
Proof.
  induction bytes as [|b bytes IH]; intros dst p c H0 Hd; cbn [copy_to].
  { mrun. done. }
  cbn [length] in Hd. apply runs_bind.
  apply (runs_op _ _ _ _ (fun _ p' => p' = set_ram (upd (ram p) dst b) p)).
  { intros w <-. destruct (pl_write8 dst b w ltac:(lia)) as (w' & E & Hv). by exists tt, w'. }
  intros [] p1 ->. eapply runs_conseq; [apply IH; lia|]. intros [] p' c' (-> & Hi & Hh & Ho). split; [done|].
  split; [done|]. split.
  - intros [|i] x Hx; [injection Hx as ->; rewrite Z.add_0_r, Ho by lia; simpl; unfold upd; by rewrite Z.eqb_refl|].
    rewrite <- (Hh i x Hx). f_equal. lia.
  - intros a Ha. cbn [length] in Ha. rewrite Ho by lia. simpl. unfold upd. by rewrite (proj2 (Z.eqb_neq _ _)) by lia.
Qed.

Lemma start_ap_loop_ok n : forall id p c, 0 <= id -> id + Z.of_nat n <= 256 ->
  runs (start_ap_loop n id) p c (fun _ p' c' => c' = c /\ ram p' = ram p /\ ipis p' = ipis p ++
    concat (map (fun i => [unicast i 5 0; unicast i 6 5]) (seqZ id (Z.of_nat n)))).
Proof.
  induction n as [|n IH]; intros id p c H0 Hn; cbn [start_ap_loop].
  { mrun. by rewrite app_nil_r. }
  assert (Hid : u8 id = id) by (unfold u8; rewrite Z.mod_small; lia). rewrite Hid.
  apply runs_bind. eapply runs_conseq; [apply send_ipi_ok; lia|]. intros _ p1 c1 (-> & R1 & I1).
  apply runs_bind. eapply runs_conseq; [apply udelay_ok|]. intros _ ? ? [-> ->].
  apply runs_bind. eapply runs_conseq; [apply send_ipi_ok; [by vm_compute | lia]|]. intros _ p2 c2 (-> & R2 & I2).
  apply runs_bind. eapply runs_conseq; [apply udelay_ok|]. intros _ ? ? [-> ->].
  apply runs_bind. eapply runs_conseq; [apply udelay_ok|]. intros _ ? ? [-> ->].
  eapply runs_conseq; [apply IH; lia|]. intros [] p3 c3 (-> & R3 & I3). split; [done|]. split; [congruence|].
  rewrite I3, I2, I1, (seqZ_cons id) by lia. replace (Z.pred (Z.of_nat (S n))) with (Z.of_nat n) by lia.
  by rewrite <- !app_assoc, Z.add_1_r.
Qed.

End Aps.

(** The other processors are started: their boot code is in place, and each of them,
    up to the number of processors that the MP table has, gets an INIT and a STARTUP
    interrupt for the page with the boot code. *)
Theorem processors_started {W : Type} `{!Ports W, !Machine W, !Platform W} (gdtr ap_boot : list Z) (w : W) (c : cpu)
    (Hn : 1 <= num_cpus c <= 256) (Hg : length gdtr = 10%nat) (Hb : (length ap_boot <= 0xf00)%nat) :
  exists w', arch_mp_init gdtr ap_boot (w, c) = Done (tt, (w', c)) /\
    holds (ram (view w')) AP_BOOT_CODE_PADDR ap_boot /\ holds (ram (view w')) 0x5f00 gdtr /\
    ipis (view w') = ipis (view w) ++
      concat (map (fun id => [unicast id 5 0; unicast id 6 (AP_BOOT_CODE_PADDR / PAGE_SIZE)]) (seqZ 1 (num_cpus c - 1))).
Proof.
  assert (H : runs (arch_mp_init gdtr ap_boot) (view w) c (fun _ p' c' => c' = c /\
    holds (ram p') AP_BOOT_CODE_PADDR ap_boot /\ holds (ram p') 0x5f00 gdtr /\ ipis p' = ipis (view w) ++
      concat (map (fun id => [unicast id 5 0; unicast id 6 (AP_BOOT_CODE_PADDR / PAGE_SIZE)]) (seqZ 1 (num_cpus c - 1))))).
  { unfold AP_BOOT_CODE_PADDR in *. apply runs_bind. eapply runs_conseq; [apply copy_to_ok; [lia | rewrite Hg; by vm_compute]|].
    intros _ p1 c1 (-> & I1 & H1 & O1). apply runs_bind.
    eapply runs_conseq; [apply copy_to_ok; unfold AP_BOOT_CODE_PADDR, RAM_END; lia|]. intros _ p2 c2 (-> & I2 & H2 & O2).
    apply runs_bind, runs_statics. eapply runs_conseq; [apply start_ap_loop_ok; lia|]. intros [] p3 c3 (-> & R3 & I3).
    rewrite R3, I3, I2, I1, Z2Nat.id by lia. do 2 (split; [done|]). split; [|done].
    intros i b E. rewrite O2 by (unfold AP_BOOT_CODE_PADDR; lia). by apply H1. }
  destruct (H w eq_refl) as ([] & w' & c' & E & -> & HR). by exists w'.
Qed.

(** A character written to the serial port is sent once the port is ready.  Setting
    up the port sends one too: the divisor is written while the divisor latch is
    off, so that its low byte, 12, goes to the transmitter. *)
Theorem serial_output {W : Type} `{!Ports W, !Machine W, !Platform W} (fuel : nat) (ch : Z) (w : W) (c : cpu)
    (Hf : (wait_bound < fuel)%nat) (Hc : 0 <= ch < 256) :
  exists w1 w2, x64_serial_early_init (w, c) = Done (tt, (w1, c)) /\
    x64_serial_putchar fuel ch (w1, c) = Done (tt, (w2, c)) /\ serial (view w2) = serial (view w) ++ [12; ch].
Proof.
  assert (H1 : runs x64_serial_early_init (view w) c (fun _ p' c' => c' = c /\ serial p' = serial (view w) ++ [12])).
  { apply runs_bind, runs_out8_other; [done|]. apply runs_bind, runs_out8. change (u16 _ =? _) with true. cbv iota.
    mrun. done. }
  destruct (H1 w eq_refl) as ([] & w1 & c1 & E1 & -> & S1).
  assert (H2 : runs (x64_serial_putchar fuel ch) (view w1) c (fun _ p' c' => c' = c /\ serial p' = serial (view w1) ++ [ch])).
  { apply runs_bind, runs_wait; [by right | done|]. apply runs_out8. change (u16 IOPORT_SERIAL =? _) with true. cbv iota.
    unfold u8. by rewrite Z.mod_small by lia. }
  destruct (H2 w1 eq_refl) as ([] & w2 & c2 & E2 & -> & S2). exists w1, w2. by rewrite S2, S1, <- app_assoc.
Qed.

(** A machine with two processors. *)
Module Board.

Definition IOAPIC_BASE : Z := 0xfec00000.

#[export] Instance board_ports : Ports plat := {
  p_in8 _ := ret 0x20;
  p_in16 _ := ret 0;
  p_in32 _ := ret 0;
  p_out8 port v := modify (fun p => if port =? IOPORT_SERIAL then set_serial (serial p ++ [v]) p else p);
  p_out16 _ _ := ret tt;
  p_out32 _ _ := ret tt
}.
Definition write32 (a v : Z) (p : plat) : plat :=
  if a =? IOAPIC_BASE then set_io v (io_regs p) p
  else if a =? IOAPIC_BASE + 0x10 then set_io (io_sel p) (upd (io_regs p) (io_sel p) v) p
  else lapic_write a v p.
Definition read32 (a : Z) (p : plat) : Z :=
  if a <? RAM_END then le 4 (ram p) a
  else if a =? APIC_REG_ID then 0
  else if a =? APIC_REG_TIMER_CURRENT then 0xfff00000
  else Z.shiftl 23 16.
#[export] Instance board_machine : Machine plat := {
  mm_read8 a := gets (fun p => le 1 (ram p) a);
  mm_read16 a := gets (fun p => le 2 (ram p) a);
  mm_read32 a := gets (read32 a);
  mm_write8 a v := modify (fun p => set_ram (upd (ram p) a v) p);
  mm_write32 a v := modify (write32 a v);
  asm_rdmsr r := gets (fun p => msrs p r);
  asm_wrmsr r v := modify (fun p => set_msrs (upd (msrs p) r v) p);
  asm_read_cr0 := gets r_cr0;
  asm_write_cr0 v := modify (fun p => set_regs v (r_cr4 p) (r_gdtr p) (r_idtr p) (r_tr p) p);
  asm_read_cr4 := gets r_cr4;
  asm_write_cr4 v := modify (fun p => set_regs (r_cr0 p) v (r_gdtr p) (r_idtr p) (r_tr p) p);
  asm_lgdt r := modify (fun p => set_regs (r_cr0 p) (r_cr4 p) r (r_idtr p) (r_tr p) p);
  asm_lidt r := modify (fun p => set_regs (r_cr0 p) (r_cr4 p) (r_gdtr p) r (r_tr p) p);
  asm_ltr r := modify (fun p => set_regs (r_cr0 p) (r_cr4 p) (r_gdtr p) (r_idtr p) r p);
  asm_cpuid_count a _ := ret
    (if a =? CPUID_VENDOR then (0xd, CPUID_VENDOR_INTEL_EBX, CPUID_VENDOR_INTEL_ECX, CPUID_VENDOR_INTEL_EDX)
     else (0, 0x341, 0xffffffff, 0))
}.

#[export, refine] Instance board_platform : Platform plat := {
  view p := p;
  ioapic_base := IOAPIC_BASE;
  io_lines := 24;
  boot_cpu := 0;
  cpuid_at a := if a =? CPUID_VENDOR then (0xd, CPUID_VENDOR_INTEL_EBX, CPUID_VENDOR_INTEL_ECX, CPUID_VENDOR_INTEL_EDX)
     else (0, 0x341, 0xffffffff, 0);
  wait_rounds _ _ := 0%nat;
  wait_bound := 0%nat
}.
Proof.
  all: try done. all: try (intros; eexists; split; [reflexivity | done]).
  - intros port w. exists 0x20, w. done.
  - intros a w Ha. cbn [mm_read32 board_machine gets read32]. unfold read32. by rewrite (proj2 (Z.ltb_lt _ _)) by lia.
  - intros w. eexists _, w. split; [reflexivity|]. done.
  - intros a v w Ha. eexists. split; [reflexivity|]. unfold write32, IOAPIC_BASE.
    by rewrite !(proj2 (Z.eqb_neq a _)) by lia.
Defined.

(** The firmware. *)
Definition entries : list mp_entry :=
  [MpProcessor 0 (replicate 18 0); MpProcessor 1 (replicate 18 0); MpBus (replicate 7 0);
   MpIoapic 2 0x11 1 IOAPIC_BASE; MpIoint (replicate 7 0); MpLocalint (replicate 7 0)].
Definition image : list Z :=
  replicate 16 0 ++ Initfs.pack 4 MP_FLOATPTR_SIGNATURE ++ Initfs.pack 4 0xf0020 ++ replicate 8 0 ++
  Initfs.pack 4 MP_MPTABLE_SIGNATURE ++ replicate 30 0 ++ Initfs.pack 2 6 ++ replicate 8 0 ++ concat (map entry_bytes entries).
Definition board : plat :=
  Plat (fun a => default 0 (arr_get image (a - 0xf0000))) 0 (fun _ => 0) (fun _ => 0) (fun _ => 0) [] [] 0 0 (0, 0) (0, 0) 0.
Definition boot_cpu_state : cpu :=
  Cpu 0 0 1 [] (replicate 256 (IdtEntry 0 0 0 0 0 0 0)) (0, 0) (0, 0) 0 0 0.
Definition loader : multiboot_info := MultibootInfo 24 [MultibootMmap 0x100000 0x8000000 1] 0xe0000000 640 480 32.

Lemma holds_map f a l : map (fun i => f (a + Z.of_nat i)) (seq 0 (length l)) = l -> holds f a l.
Proof.
  intros E i b Hb. pose proof (lookup_lt_Some _ _ _ Hb). rewrite <- E, list_lookup_fmap, lookup_seq_lt in Hb by done. by injection Hb.
Qed.

Lemma board_table : mp_table board 0xf0010 0xf0020 entries.
Proof.
  constructor.
  - done.
  - by vm_compute.
  - intros a Ha Hm. assert (a = 0xf0000 \/ a = 0xf0004 \/ a = 0xf0008 \/ a = 0xf000c) as [-> | [-> | [-> | ->]]]
      by (pose proof (Z.div_mod a 4); lia); by vm_compute.
  - by vm_compute.
  - by vm_compute.
  - by vm_compute.
  - by vm_compute.
  - by vm_compute.
  - apply holds_map. by vm_compute.
  - repeat constructor; by vm_compute.
Qed.

Lemma board_cpu_ok : cpu_ok true.
Proof.
  constructor.
  - by eexists.
  - intros _. eexists _, _, _, _. split; [reflexivity | vm_compute; done].
  - eexists _, _, _, _. split; [reflexivity | vm_compute; done].
  - eexists _, _, _, _. split; [reflexivity | vm_compute; done].
Qed.

End Board.
Import Board.

Lemma interrupt_path_witness : exists w' c' ia,
  (a <- arch_init true true true 0x1000 0x2000 0x3000 0x200000 0x201000 1 loader (BootFramebuffer false 0 0 0 0) ;;
   enable_irqs [1; 12] ;;; ret a) (board, boot_cpu_state) = Done (ia, (w', c')) /\
  line_is (io_regs w') 1 33 /\ line_is (io_regs w') 2 0x10000 /\ num_cpus c' = 2.
Proof.
  destruct (interrupt_path true true true 0x1000 0x2000 0x3000 0x200000 0x201000 1 loader (BootFramebuffer false 0 0 0 0)
    (InitArgs [MemoryMap INITARGS_MEMORY_MAP_FREE 0x3000000 0x8100000] (BootFramebuffer false 0 0 0 0) 1)
    0xf0010 0xf0020 entries [1; 12] board boot_cpu_state eq_refl board_table eq_refl board_cpu_ok ltac:(cbn; lia) eq_refl
    ltac:(lia) ltac:(repeat constructor; done)) as (w' & c' & E & L & _ & _ & _ & _ & N).
  exists w', c'. eexists. split; [exact E|]. split; [exact (L 1 ltac:(cbn; lia))|]. split; [exact (L 2 ltac:(cbn; lia)) | exact N].
Defined.
