(* ===== verification/Memmgr.v ===== *)
(** * The memory manager

    [servers/memmgr/main.c] and [servers/memmgr/process.c]: the first user process.
    It allocates pages, fills pages of the programs it starts from the initial file
    system, connects clients with servers, and serves files.  It runs on any
    [Kernel]; the image of the file system, the boot arguments and the contents of
    memory it has not written are parameters. *)
From S2P Require Import Prelude Message CString Util AllocPages Initfs Elf UserIpc Driver Stubs.
Import CStr Math Buddy Initfs Elf User Stubs.

Definition kernel_ch : Z := 1.
Definition INTERFACE_ID_MAX : Z := 0xff.
Definition WAITERS_MAX : Z := 32.
Definition FD_TABLE_MAX : Z := 64.
Definition NUM_PROCESSES_MAX : Z := 128.
Definition APP_IMAGE_START : Z := 0x01000000.
Definition APP_IMAGE_SIZE : Z := 0x01000000.
Definition APP_ZEROED_PAGES_START : Z := 0x02000000.
Definition APP_ZEROED_PAGES_SIZE : Z := 0x02000000.
Definition APP_INITIAL_STACK_POINTER : Z := 0x03000000.
Definition APP_THREAD_INFO_ADDR : Z := 0xf1b000.

(** [struct process]; [mp_file] is the offset of the file in the image. *)
Record mproc := MProc { mp_pid : Z; mp_file : Z; mp_elf : elf_file }.

Record waiter := Waiter { w_interface : Z; w_reply_to : Z; w_server_ch : Z; w_sent_request : bool }.

Record framebuffer_info := Framebuffer {
  fb_available : bool; fb_paddr : Z; fb_width : Z; fb_height : Z; fb_bpp : Z
}.

(** The static variables, the pages it has written, and the kernel. *)
Record memmgr (W : Type) := Memmgr {
  mm_world : W;
  mm_zones : list zone;
  mm_mem : Z -> list Z;
  mm_processes : list mproc;
  mm_servers : list Z;
  mm_waiters : list waiter;
  mm_fd_table : list (option Z);
  mm_server_ch : Z
}.
Arguments Memmgr {W} _ _ _ _ _ _ _ _.
Arguments mm_world {W} _.
Arguments mm_zones {W} _.
Arguments mm_mem {W} _ _.
Arguments mm_processes {W} _.
Arguments mm_servers {W} _.
Arguments mm_waiters {W} _.
Arguments mm_fd_table {W} _.
Arguments mm_server_ch {W} _.

Section Setters.
Context {W : Type}.
Definition set_world w (s : memmgr W) : memmgr W := Memmgr w (mm_zones s) (mm_mem s) (mm_processes s) (mm_servers s) (mm_waiters s) (mm_fd_table s) (mm_server_ch s).
Definition set_zones z (s : memmgr W) : memmgr W := Memmgr (mm_world s) z (mm_mem s) (mm_processes s) (mm_servers s) (mm_waiters s) (mm_fd_table s) (mm_server_ch s).
Definition set_mem m (s : memmgr W) : memmgr W := Memmgr (mm_world s) (mm_zones s) m (mm_processes s) (mm_servers s) (mm_waiters s) (mm_fd_table s) (mm_server_ch s).
Definition set_mm_processes p (s : memmgr W) : memmgr W := Memmgr (mm_world s) (mm_zones s) (mm_mem s) p (mm_servers s) (mm_waiters s) (mm_fd_table s) (mm_server_ch s).
Definition set_servers x (s : memmgr W) : memmgr W := Memmgr (mm_world s) (mm_zones s) (mm_mem s) (mm_processes s) x (mm_waiters s) (mm_fd_table s) (mm_server_ch s).
Definition set_waiters x (s : memmgr W) : memmgr W := Memmgr (mm_world s) (mm_zones s) (mm_mem s) (mm_processes s) (mm_servers s) x (mm_fd_table s) (mm_server_ch s).
Definition set_fd_table x (s : memmgr W) : memmgr W := Memmgr (mm_world s) (mm_zones s) (mm_mem s) (mm_processes s) (mm_servers s) (mm_waiters s) x (mm_server_ch s).
Definition set_server_ch x (s : memmgr W) : memmgr W := Memmgr (mm_world s) (mm_zones s) (mm_mem s) (mm_processes s) (mm_servers s) (mm_waiters s) (mm_fd_table s) x.
End Setters.

(** A system call of the memory manager. *)
Definition on_world {W A} (m : M W A) : M (memmgr W) A :=
  fun s =>
    match m (mm_world s) with
    | Done (a, w) => Done (a, set_world w s)
    | Panic => Panic
    | Undef => Undef
    | Fuel => Fuel
    end.

#[export] Instance memmgr_kernel {W} `{!Kernel W} : Kernel (memmgr W) := {
  k_ipc_buffer s := k_ipc_buffer (mm_world s);
  k_set_ipc_buffer b s := set_world (k_set_ipc_buffer b (mm_world s)) s;
  k_set_page_base b s := set_world (k_set_page_base b (mm_world s)) s;
  k_open := on_world k_open;
  k_close ch := on_world (k_close ch);
  k_link a b := on_world (k_link a b);
  k_transfer a b := on_world (k_transfer a b);
  k_ipc ch ops := on_world (k_ipc ch ops)
}.

Module Mem.
Section Server.
Context {W : Type} `{!Kernel W}.
(** The image of the initial file system, the framebuffer of the boot arguments,
    and a message on the stack that was never written. *)
Context (image : list Z) (framebuffer : framebuffer_info) (m0 : message).
Local Abbreviation S := (memmgr W).

Definition mm_alloc_pages (order : Z) : M S Z :=
  s <- get ;;
  let* (paddr, zones) := lift (alloc_pages order (mm_zones s)) in
  put (set_zones zones s) ;;; ret paddr.

(** [memcpy_s] into an allocated page. *)
Definition write_page (paddr : Z) (src : list Z) (copy_len : Z) : M S unit :=
  s <- get ;;
  page <- lift (memcpy_s (mm_mem s paddr) PAGE_SIZE src copy_len) ;;
  put (set_mem (fun a => if a =? paddr then page else mm_mem s a) s).

(** ** Processes *)

Definition get_process_by_pid (pid : Z) : M S (option mproc) :=
  s <- get ;;
  ret (find (fun p => mp_pid p =? pid) (mm_processes s)).

(** [dot_pos] and [pos] after the first loop: the last dot, or 0. *)
Fixpoint scan_back (fuel : nat) (path : list Z) (c pos : Z) : outcome Z :=
  match fuel with
  | O => Fuel
  | Datatypes.S fuel =>
      if 0 <? pos then
        match arr_get path pos with
        | Some x => if x =? c then Done pos else scan_back fuel path c (pos - 1)
        | None => Undef
        end
      else Done pos
  end.

Definition invalid_path : list Z :=
  [40; 105; 110; 118; 97; 108; 105; 100; 32; 112; 97; 116; 104; 41; 0].

Definition copy_process_name_from_path (buf : list Z) (buf_len : Z) (path : list Z) : outcome (list Z) :=
  outcome_bind (strlen path) (fun len =>
    if len =? 0 then strcpy_s buf buf_len invalid_path
    else
      let fuel := Datatypes.S (length path) in
      outcome_bind (scan_back fuel path 46 (len - 1)) (fun pos =>
      let dot_pos := pos in
      outcome_bind (scan_back fuel path 47 pos) (fun pos =>
      let slash_pos := if 0 <? pos then pos else dot_pos in
      strncpy_s buf buf_len (drop (Z.to_nat (slash_pos + 1)) path) (u64 (dot_pos - slash_pos - 1))))).

(** [name] is an array on the stack; [name0] are the bytes it starts with. *)
Definition spawn_process (name0 : list Z) (file : Z) : M S Z :=
  len <- need (file_len image file) ;;
  r <- lift (elf_parse (file_content image file 0) len) ;;
  match r with
  | inl err => ret err
  | inr elf =>
      name <- lift (copy_process_name_from_path name0 32 (drop (Z.to_nat file) image)) ;;
      let* (err, (pid, pager_ch)) := call_process_create m0 kernel_ch name in
      if negb (err =? OK) then ret err else
      let* (err, user_kernel_ch) := call_server_connect m0 kernel_ch 0 in
      if negb (err =? OK) then ret err else
      TRY (call_process_send_channel m0 kernel_ch pid user_kernel_ch) (
      server_ch <- gets mm_server_ch ;;
      TRY (k_transfer pager_ch server_ch) (
      TRY (call_process_add_pager m0 kernel_ch pid 1 APP_IMAGE_START APP_IMAGE_SIZE 6) (
      TRY (call_process_add_pager m0 kernel_ch pid 1 APP_ZEROED_PAGES_START APP_ZEROED_PAGES_SIZE 6) (
      TRY (call_thread_spawn m0 kernel_ch pid (entry elf) APP_INITIAL_STACK_POINTER APP_THREAD_INFO_ADDR 0) (
      s <- get ;;
      match find_last (fun p => mp_pid p =? 0) (mm_processes s) with
      | None => ret ERR_OUT_OF_MEMORY
      | Some i =>
          ps <- need (arr_set (mm_processes s) i (MProc pid file elf)) ;;
          put (set_mm_processes ps s) ;;;
          ret OK
      end)))))
  end.

Definition process_init : M S unit :=
  modify (fun s => set_mm_processes (map (fun p => MProc 0 (mp_file p) (mp_elf p)) (mm_processes s)) s).

(** ** Handlers

    Each takes the request and gives the error and the message. *)

(** The loop of [handle_pager_fill] over the program headers, from [i] on. *)
Fixpoint fill_loop (n : nat) (i : Z) (proc : mproc) (addr alloced_addr : Z) : M S unit :=
  match n with
  | O => ret tt
  | Datatypes.S n =>
      let file := mp_file proc in
      let content := file_content image file 0 in
      phdr <- lift (phdr_at content (mp_elf proc) i) ;;
      let next := fill_loop n (i + 1) proc addr alloced_addr in
      if (p_vaddr phdr <=? addr) && (addr <? u64 (p_vaddr phdr + p_memsz phdr)) then
        let offset := addr - p_vaddr phdr in
        let fileoff := u64 (p_offset phdr + offset) in
        len <- need (file_len image file) ;;
        if len <=? fileoff then next
        else
          let copy_len := Z.min (Z.min PAGE_SIZE (len - fileoff)) (u64 (p_filesz phdr - offset)) in
          write_page alloced_addr (file_content image file fileoff) copy_len
      else next
  end.

Definition handle_pager_fill (m : message) : M S (Z * message) :=
  let pid := s32 (field 0 4 (data m)) in
  let addr := field 4 8 (data m) in
  alloced_addr <- mm_alloc_pages 0 ;;
  if alloced_addr =? 0 then ret (ERR_OUT_OF_MEMORY, m)
  else
    proc <- get_process_by_pid pid ;;
    match proc with
    | None => panic
    | Some proc =>
        fill_loop (Z.to_nat (num_phdrs (mp_elf proc))) 0 proc addr alloced_addr ;;;
        ret (OK, set_page (PAGE_PAYLOAD alloced_addr 0) (set_header PAGER_FILL_REPLY_MSG m))
    end.

(** [UNIMPLEMENTED] exits. *)
Definition handle_runtime_exit (m : message) : M S (Z * message) := panic.

Definition handle_runtime_printchar (m : message) : M S (Z * message) :=
  let ch := field 0 1 (data m) in
  err <- call_runtime_printchar m0 kernel_ch ch ;;
  if negb (err =? OK) then ret (err, m)
  else ret (OK, set_header RUNTIME_PRINTCHAR_REPLY_MSG m).

(** [alloc_pages] takes an [int]. *)
Definition handle_memory_alloc_pages (m : message) : M S (Z * message) :=
  let order := field 0 8 (data m) in
  paddr <- mm_alloc_pages (s32 order) ;;
  if paddr =? 0 then ret (ERR_OUT_OF_MEMORY, m)
  else ret (OK, set_page (PAGE_PAYLOAD paddr order) (set_header MEMORY_ALLOC_PAGES_REPLY_MSG m)).

Definition handle_memory_alloc_phy_pages (m : message) : M S (Z * message) :=
  let map_at := field 0 8 (data m) in
  let order := field 8 8 (data m) in
  paddr <- (if truthy map_at then ret map_at else mm_alloc_pages (s32 order)) ;;
  if paddr =? 0 then ret (ERR_OUT_OF_MEMORY, m)
  else ret (OK, set_data (set_field 0 8 paddr (data m))
                  (set_page (PAGE_PAYLOAD paddr order) (set_header MEMORY_ALLOC_PHY_PAGES_REPLY_MSG m))).

Definition handle_memmgr_get_framebuffer (m : message) : M S (Z * message) :=
  if negb (fb_available framebuffer) then ret (ERR_NOT_FOUND, m)
  else
    order <- lift (ulllog2 (u32 (fb_height framebuffer * fb_width framebuffer * (fb_bpp framebuffer / 8)) / PAGE_SIZE)) ;;
    ret (OK, set_data (set_field 8 1 (fb_bpp framebuffer) (set_field 4 4 (fb_height framebuffer)
                         (set_field 0 4 (fb_width framebuffer) (data m))))
               (set_page (PAGE_PAYLOAD (fb_paddr framebuffer) order)
                  (set_header MEMMGR_GET_FRAMEBUFFER_REPLY_MSG m))).

(** ** Discovery *)

Definition discovery_init : M S unit :=
  modify (fun s =>
    set_waiters (map (fun w => Waiter (w_interface w) 0 (w_server_ch w) (w_sent_request w)) (mm_waiters s))
      (set_servers (replicate (Z.to_nat (INTERFACE_ID_MAX + 1)) 0) s)).

Definition handle_discovery_publicize (m : message) : M S (Z * message) :=
  let interface := field 0 1 (data m) in
  let ch := channel m in
  s <- get ;;
  old <- need (arr_get (mm_servers s) interface) ;;
  c_assert (old =? 0) ;;;
  servers <- need (arr_set (mm_servers s) interface ch) ;;
  put (set_servers servers s) ;;;
  err <- k_transfer ch (mm_server_ch s) ;;
  c_assert (err =? OK) ;;;
  ret (OK, set_header DISCOVERY_PUBLICIZE_REPLY_MSG m).

Definition handle_discovery_connect (m : message) : M S (Z * message) :=
  let interface := field 0 1 (data m) in
  s <- get ;;
  match find_index (fun w => w_reply_to w =? 0) (mm_waiters s) 0 with
  | None => ret (ERR_OUT_OF_MEMORY, m)
  | Some i =>
      w <- need (arr_get (mm_waiters s) i) ;;
      ws <- need (arr_set (mm_waiters s) i (Waiter interface (from m) (w_server_ch w) false)) ;;
      put (set_waiters ws s) ;;;
      ret (DONT_REPLY, m)
  end.

(** The result of [send_discovery_connect_reply] is not looked at. *)
Definition handle_server_connect_reply (m : message) : M S (Z * message) :=
  let ch := channel m in
  s <- get ;;
  match find_index (fun w => truthy (w_reply_to w) && (w_server_ch w =? from m)) (mm_waiters s) 0 with
  | None => panic
  | Some i =>
      w <- need (arr_get (mm_waiters s) i) ;;
      ipc_send (w_reply_to w) (set_channel ch (set_header DISCOVERY_CONNECT_REPLY_MSG m0)) ;;;
      s <- get ;;
      ws <- need (arr_set (mm_waiters s) i (Waiter (w_interface w) 0 (w_server_ch w) (w_sent_request w))) ;;
      put (set_waiters ws s) ;;;
      ret (DONT_REPLY, m)
  end.

(** ** Files *)

(** The loop over the directory: the file with the path, if there is one. *)
Fixpoint find_file (fuel : nat) (path : list Z) (dir : initfs_dir) : outcome (option Z) :=
  match fuel with
  | O => Fuel
  | Datatypes.S fuel =>
      outcome_bind (initfs_readdir image dir) (fun '(f, dir) =>
        match f with
        | None => Done None
        | Some f =>
            outcome_bind (strcmp path (drop (Z.to_nat f) image)) (fun c =>
              if c =? 0 then Done (Some f) else find_file fuel path dir)
        end)
  end.

(** One round for each file the header counts, and one for the end. *)
Definition dir_fuel : nat :=
  match fs_num_files image with Some n => Datatypes.S (Z.to_nat n) | None => 1 end.

Definition handle_fs_open (m : message) : M S (Z * message) :=
  let path := data m in
  s <- get ;;
  match find_index (fun e => match e with None => true | Some _ => false end) (mm_fd_table s) 0 with
  | None => panic
  | Some fd =>
      file <- lift (find_file dir_fuel path initfs_opendir) ;;
      match file with
      | None => ret (ERR_NOT_FOUND, m)
      | Some f =>
          t <- need (arr_set (mm_fd_table s) fd (Some f)) ;;
          put (set_fd_table t s) ;;;
          ret (OK, set_data (set_field 0 4 fd (data m)) (set_header FS_OPEN_REPLY_MSG m))
      end
  end.

Definition handle_fs_read (m : message) : M S (Z * message) :=
  let handle := s32 (field 0 4 (data m)) in
  let offset := field 4 8 (data m) in
  let len := field 12 8 (data m) in
  c_assert (handle <? FD_TABLE_MAX) ;;;
  s <- get ;;
  e <- need (arr_get (mm_fd_table s) handle) ;;
  match e with
  | None => panic
  | Some file =>
      alloced_addr <- mm_alloc_pages 0 ;;
      if alloced_addr =? 0 then ret (ERR_OUT_OF_MEMORY, m)
      else
        file_len <- need (file_len image file) ;;
        c_assert (len <=? PAGE_SIZE) ;;;
        c_assert (offset <? file_len) ;;;
        let copy_len := Z.min len (file_len - offset) in
        write_page alloced_addr (file_content image file offset) copy_len ;;;
        ret (OK, set_page (PAGE_PAYLOAD alloced_addr 0) (set_header FS_READ_REPLY_MSG m))
  end.

(** ** Deferred work *)

(** [async_send_server_connect]. *)
Definition async_send_server_connect (ch interface : Z) : M S Z :=
  ipc_async_send ch (set_data (set_field 0 1 interface (data m0)) (set_header SERVER_CONNECT_MSG m0)).

(** The inner loop, over the waiters from [i] on. *)
Fixpoint connect_waiters (n : nat) (i interface server : Z) (needs_retry : bool) : M S bool :=
  match n with
  | O => ret needs_retry
  | Datatypes.S n =>
      s <- get ;;
      w <- need (arr_get (mm_waiters s) i) ;;
      if truthy (w_reply_to w) && (w_interface w =? interface) && negb (w_sent_request w) then
        err <- async_send_server_connect server interface ;;
        if err =? ERR_WOULD_BLOCK then connect_waiters n (i + 1) interface server true
        else
          c_assert (err =? OK) ;;;
          s <- get ;;
          ws <- need (arr_set (mm_waiters s) i (Waiter (w_interface w) (w_reply_to w) server true)) ;;
          put (set_waiters ws s) ;;;
          connect_waiters n (i + 1) interface server needs_retry
      else connect_waiters n (i + 1) interface server needs_retry
  end.

(** The outer loop, over the interfaces from [interface] on. *)
Fixpoint connect_servers (n : nat) (interface : Z) (needs_retry : bool) : M S bool :=
  match n with
  | O => ret needs_retry
  | Datatypes.S n =>
      s <- get ;;
      server <- need (arr_get (mm_servers s) interface) ;;
      if server =? 0 then connect_servers n (interface + 1) needs_retry
      else
        r <- connect_waiters (Z.to_nat WAITERS_MAX) 0 interface server needs_retry ;;
        connect_servers n (interface + 1) r
  end.

Definition deferred_work : M S Z :=
  needs_retry <- connect_servers (Z.to_nat (INTERFACE_ID_MAX + 1)) 0 false ;;
  ret (if (needs_retry : bool) then ERR_NEEDS_RETRY else OK).

(** ** The server *)

Definition process_message (m : message) : M S (Z * message) :=
  let h := header m in
  if h =? NOTIFICATION_MSG then ret (DONT_REPLY, m)
  else if h =? MEMMGR_GET_FRAMEBUFFER_MSG then handle_memmgr_get_framebuffer m
  else if h =? MEMORY_ALLOC_PAGES_MSG then handle_memory_alloc_pages m
  else if h =? MEMORY_ALLOC_PHY_PAGES_MSG then handle_memory_alloc_phy_pages m
  else if h =? PAGER_FILL_MSG then handle_pager_fill m
  else if h =? RUNTIME_EXIT_MSG then handle_runtime_exit m
  else if h =? RUNTIME_PRINTCHAR_MSG then handle_runtime_printchar m
  else if h =? DISCOVERY_PUBLICIZE_MSG then handle_discovery_publicize m
  else if h =? DISCOVERY_CONNECT_MSG then handle_discovery_connect m
  else if h =? SERVER_CONNECT_REPLY_MSG then handle_server_connect_reply m
  else if h =? FS_OPEN_MSG then handle_fs_open m
  else if h =? FS_READ_MSG then handle_fs_read m
  else ret (ERR_UNEXPECTED_MESSAGE, m).

(** ["startups/"] *)
Definition startups : list Z := [115; 116; 97; 114; 116; 117; 112; 115; 47; 0].

(** A program that cannot be spawned makes the memory manager exit ([ERROR]). *)
Fixpoint launch_loop (fuel : nat) (name0 : list Z) (dir : initfs_dir) : M S unit :=
  match fuel with
  | O => no_fuel
  | Datatypes.S fuel =>
      let* (f, dir) := lift (initfs_readdir image dir) in
      match f with
      | None => ret tt
      | Some f =>
          c <- lift (strncmp (drop (Z.to_nat f) image) startups 9) ;;
          (if c =? 0 then err <- spawn_process name0 f ;; c_assert (err =? OK) else ret tt) ;;;
          launch_loop fuel name0 dir
      end
  end.

Definition launch_startup_servers (name0 : list Z) : M S unit := launch_loop dir_fuel name0 initfs_opendir.

(** [maps] are the memory maps of the boot arguments; [fuel] bounds the receptions
    of the main loop. *)
Definition main (fuel : nat) (uninit : Z -> Z) (maps : list memory_map) (name0 : list Z) : M S Z :=
  let* (err, ch) := open in
  c_assert (err =? OK) ;;;
  modify (set_server_ch ch) ;;;
  zones <- lift (init_alloc_pages uninit maps) ;;
  modify (set_zones zones) ;;;
  lift (initfs_init image) ;;;
  process_init ;;;
  discovery_init ;;;
  launch_startup_servers name0 ;;;
  s <- get ;;
  server_mainloop_with_deferred fuel m0 (mm_server_ch s) process_message (Some deferred_work).

End Server.
End Mem.
Import Mem.

(** ** Process names *)

Lemma scan_back_found pre c mid : forall post fuel,
  (0 < length pre)%nat -> Forall (fun x => x <> c) mid -> (length mid < fuel)%nat ->
  scan_back fuel (pre ++ c :: mid ++ post) c (Z.of_nat (length pre + length mid)) = Done (Z.of_nat (length pre)).
Proof.
  induction mid as [|x mid IH] using rev_ind; intros post fuel Hp Hm Hf; (destruct fuel as [|fuel]; [lia|]).
  - cbn [scan_back]. rewrite Nat.add_0_r. rewrite (proj2 (Z.ltb_lt 0 _)) by lia.
    assert (arr_get (pre ++ c :: [] ++ post) (Z.of_nat (length pre)) = Some c) as ->; [|by rewrite Z.eqb_refl].
    apply arr_get_Some. split; [lia|]. by rewrite Nat2Z.id, list_lookup_middle.
  - apply Forall_app in Hm as [Hm Hx]. apply Forall_cons in Hx as [Hx _]. rewrite length_app in Hf |- *. simpl in Hf |- *.
    rewrite (proj2 (Z.ltb_lt 0 _)) by lia.
    assert (arr_get (pre ++ c :: (mid ++ [x]) ++ post) (Z.of_nat (length pre + (length mid + 1))) = Some x) as ->.
    { apply arr_get_Some. split; [lia|]. rewrite Nat2Z.id, <- app_assoc.
      replace (pre ++ c :: mid ++ [x] ++ post) with ((pre ++ c :: mid) ++ x :: post) by (by rewrite <- app_assoc).
      apply list_lookup_middle. rewrite length_app. simpl. lia. }
    rewrite (proj2 (Z.eqb_neq x c)) by done. rewrite <- app_assoc. simpl.
    replace (Z.of_nat (length pre + (length mid + 1)) - 1) with (Z.of_nat (length pre + length mid)) by lia.
    apply (IH (x :: post)); [done | done | lia].
Qed.

Lemma scan_back_none path c fuel : forall n,
  (n < fuel)%nat -> (n < length path)%nat -> Forall (fun x => x <> c) (take n (drop 1 path)) ->
  scan_back fuel path c (Z.of_nat n) = Done 0.
Proof.
  induction fuel as [|fuel IH]; intros n Hf Hl Hc; [lia|]. cbn [scan_back].
  destruct n as [|n]; [done|]. rewrite (proj2 (Z.ltb_lt 0 _)) by lia.
  destruct (lookup_lt_is_Some_2 path (S n) Hl) as [x Hx].
  assert (arr_get path (Z.of_nat (S n)) = Some x) as -> by (apply arr_get_Some; rewrite Nat2Z.id; split; [lia | done]).
  assert (Hx' : drop 1 path !! n = Some x) by (by rewrite lookup_drop).
  assert (x <> c).
  { rewrite Forall_forall in Hc. apply Hc. apply list_elem_of_lookup. exists n. by rewrite lookup_take_lt by lia. }
  rewrite (proj2 (Z.eqb_neq x c)) by done. replace (Z.of_nat (S n) - 1) with (Z.of_nat n) by lia.
  apply IH; [lia | lia|]. rewrite (take_S_r _ _ _ Hx') in Hc. by apply Forall_app in Hc as [? _].
Qed.

Lemma strncpy_s_ok (dst l rest : list Z) (dst_len n : Z) :
  Forall (fun c => c <> 0) l -> 1 <= dst_len <= Z.of_nat (length dst) -> dst_len < 2 ^ 64 -> 0 <= n ->
  let k := (Nat.min (length l) (Nat.min (Z.to_nat (dst_len - 1)) (Z.to_nat n)))%nat in
  strncpy_s dst dst_len (l ++ 0 :: rest) n = Done (take k l ++ 0 :: drop (S k) dst).
Proof.
  intros Hl Hd Hw Hn k. unfold strncpy_s.
  pose proof (copy_loop_ok l rest [] 0 dst (S (length (l ++ 0 :: rest))) dst_len (Some n) Hl eq_refl) as E.
  cbn [app length from_option Nat.add] in E. rewrite E; [|lia..|rewrite length_app; lia].
  by rewrite Z.sub_0_r.
Qed.

(** Characters of names and extensions. *)
Definition plain (c : Z) : Prop := c <> 0 /\ c <> 46 /\ c <> 47.

Lemma plain_ne l : Forall plain l ->
  Forall (fun c => c <> 0) l /\ Forall (fun c => c <> 46) l /\ Forall (fun c => c <> 47) l.
Proof. intros H. split_and!; eapply Forall_impl; try exact H; intros ? (? & ? & ?); done. Qed.

(** The name between the positions that the two scans find. *)
Lemma process_name_scans buf (pre l rest : list Z) dot slash :
  let path := pre ++ l ++ 0 :: rest in
  Forall (fun c => c <> 0) pre -> Forall (fun c => c <> 0) l -> (0 < length (pre ++ l))%nat -> length buf = 32%nat ->
  scan_back (S (length path)) path 46 (Z.of_nat (length (pre ++ l)) - 1) = Done dot ->
  scan_back (S (length path)) path 47 dot = Done slash ->
  (if 0 <? slash then slash else dot) + 1 = Z.of_nat (length pre) ->
  let n := u64 (dot - (if 0 <? slash then slash else dot) - 1) in
  let k := Nat.min (length l) (Nat.min 31 (Z.to_nat n)) in
  copy_process_name_from_path buf 32 path = Done (take k l ++ 0 :: drop (S k) buf).
Proof.
  intros path Hp Hl Hlen Hb Hdot Hslash Hpos n k. unfold copy_process_name_from_path.
  rewrite (strlen_ok path (pre ++ l)).
  2: { exists rest. unfold path. split; [by rewrite <- app_assoc | by apply Forall_app]. }
  cbn [outcome_bind]. rewrite (proj2 (Z.eqb_neq _ 0)) by lia. rewrite Hdot. cbn [outcome_bind]. rewrite Hslash.
  cbn [outcome_bind]. rewrite Hpos. fold n. unfold path. rewrite Nat2Z.id, drop_app_length.
  rewrite strncpy_s_ok; [done | done | rewrite Hb; lia | lia | unfold n; apply u64_range].
Qed.

(** The name of a process is the file name without directory and extension: for
    a path [dir/name.ext] whose [dir] is not empty and a [name] of at most 31
    characters, [copy_process_name_from_path] writes [name] as a C string.  For a
    path [name.ext] with no directory it writes the extension instead. *)
Theorem process_name_of_path (dir name ext rest buf : list Z)
    (Hdir : (0 < length dir)%nat) (Hname : (0 < length name < 32)%nat) (Hext : (length ext < 32)%nat)
    (Hbuf : length buf = 32%nat) (Hdirc : Forall (fun c => c <> 0) dir)
    (Hn : Forall plain name) (He : Forall plain ext) :
  copy_process_name_from_path buf 32 (dir ++ 47 :: name ++ 46 :: ext ++ 0 :: rest) =
    Done (name ++ 0 :: drop (S (length name)) buf) /\
  copy_process_name_from_path buf 32 (name ++ 46 :: ext ++ 0 :: rest) =
    Done (ext ++ 0 :: drop (S (length ext)) buf).
Proof.
  apply plain_ne in Hn as (Hn0 & Hn46 & Hn47). apply plain_ne in He as (He0 & He46 & He47). split.
  - pose proof (process_name_scans buf (dir ++ [47]) (name ++ 46 :: ext) rest
      (Z.of_nat (length (dir ++ 47 :: name))) (Z.of_nat (length dir))) as E. cbv zeta in E.
    replace ((dir ++ [47]) ++ (name ++ 46 :: ext) ++ 0 :: rest) with (dir ++ 47 :: name ++ 46 :: ext ++ 0 :: rest) in E
      by (by rewrite <- !app_assoc).
    set (path := dir ++ 47 :: name ++ 46 :: ext ++ 0 :: rest) in *.
    rewrite (proj2 (Z.ltb_lt 0 _)) in E by lia.
    assert (Hlen : length path = (length dir + length name + length ext + length rest + 3)%nat).
    { unfold path. rewrite !length_app. simpl. rewrite !length_app. simpl. rewrite length_app. simpl. lia. }
    rewrite E; clear E.
    + replace (u64 _) with (Z.of_nat (length name)).
      2: { rewrite length_app. simpl. rewrite u64_small by lia. lia. }
      rewrite Nat2Z.id, length_app. cbn [length].
      replace (Nat.min (length name + S (length ext)) (Nat.min 31 (length name))) with (length name) by lia.
      by rewrite take_app_length.
    + apply Forall_app. by repeat constructor.
    + apply Forall_app. split; [done|]. by constructor.
    + rewrite !length_app. simpl. lia.
    + done.
    + pose proof (scan_back_found (dir ++ 47 :: name) 46 ext (0 :: rest) (S (length path))) as E.
      rewrite <- app_assoc in E. cbn [app] in E. fold path in E. rewrite <- E; [f_equal; rewrite !length_app; cbn [length]; rewrite ?length_app; cbn [length]; lia | rewrite length_app; simpl; lia | done | lia].
    + pose proof (scan_back_found dir 47 (name ++ [46]) (ext ++ 0 :: rest) (S (length path))) as E.
      rewrite <- app_assoc in E. cbn [app] in E. fold path in E. rewrite <- E; [f_equal; rewrite !length_app; cbn [length]; lia | done | | rewrite length_app; simpl; lia].
      apply Forall_app. by repeat constructor.
    + rewrite length_app. simpl. lia.
  - pose proof (process_name_scans buf (name ++ [46]) ext rest (Z.of_nat (length name)) 0) as E. cbv zeta in E.
    replace ((name ++ [46]) ++ ext ++ 0 :: rest) with (name ++ 46 :: ext ++ 0 :: rest) in E by (by rewrite <- !app_assoc).
    set (path := name ++ 46 :: ext ++ 0 :: rest) in *. change (0 <? 0) with false in E. cbn iota in E.
    assert (Hlen : length path = (length name + length ext + length rest + 2)%nat).
    { unfold path. rewrite !length_app. simpl. rewrite !length_app. simpl. lia. }
    rewrite E; clear E.
    + replace (Z.of_nat (length name) - Z.of_nat (length name) - 1) with (-1) by lia.
      change (Z.to_nat (u64 (-1))) with (Z.to_nat 18446744073709551615).
      replace (Nat.min _ _) with (length ext) by lia. by rewrite firstn_all.
    + apply Forall_app. by repeat constructor.
    + done.
    + rewrite !length_app. simpl. lia.
    + done.
    + pose proof (scan_back_found name 46 ext (0 :: rest) (S (length path))) as E. fold path in E.
      rewrite <- E; [f_equal; rewrite !length_app; cbn [length]; lia | lia | done | lia].
    + apply scan_back_none; [lia | lia|]. unfold path. destruct name as [|c name]; [simpl in *; lia|].
      simpl. rewrite drop_0. rewrite take_app_ge by lia. apply Forall_app. apply Forall_cons in Hn47 as [_ Hn47].
      split; [done|]. replace (S (length name) - length name)%nat with 1%nat by lia. by repeat constructor.
    + rewrite length_app. simpl. lia.
Qed.

(** ["startups/gui.elf"] and ["gui.elf"] *)
Lemma process_name_of_path_witness :
  let buf := replicate 32 0 in
  copy_process_name_from_path buf 32 ([115; 116; 97; 114; 116; 117; 112; 115] ++ 47 :: [103; 117; 105] ++ 46 :: [101; 108; 102] ++ 0 :: []) =
    Done ([103; 117; 105] ++ 0 :: drop 4 buf) /\
  copy_process_name_from_path buf 32 ([103; 117; 105] ++ 46 :: [101; 108; 102] ++ 0 :: []) =
    Done ([101; 108; 102] ++ 0 :: drop 4 buf).
Proof.
  apply (process_name_of_path [115; 116; 97; 114; 116; 117; 112; 115] [103; 117; 105] [101; 108; 102] [] (replicate 32 0));
    try (simpl; lia); repeat constructor; discriminate.
Defined.

(** ** Filling pages *)

Section Fill.
Context {W : Type} `{!Kernel W} (image : list Z) (fb : framebuffer_info) (m0 : message).
Implicit Type s : memmgr W.

(** A program header whose segment has the address. *)
Definition in_segment (phdr : elf64_phdr) (addr : Z) : bool :=
  (p_vaddr phdr <=? addr) && (addr <? u64 (p_vaddr phdr + p_memsz phdr)).

(** The first segment of the program that has the address is number [i]. *)
Definition first_segment (proc : mproc) (addr : Z) (i : nat) (phdr : elf64_phdr) : Prop :=
  phdr_at (file_content image (mp_file proc) 0) (mp_elf proc) (Z.of_nat i) = Done phdr /\
  in_segment phdr addr = true /\
  forall j, (j < i)%nat -> exists ph,
    phdr_at (file_content image (mp_file proc) 0) (mp_elf proc) (Z.of_nat j) = Done ph /\ in_segment ph addr = false.

(** What the page is filled with: [n] bytes of the file from [fileoff] on. *)
Definition filled (s : memmgr W) (paddr file fileoff n : Z) : memmgr W :=
  set_mem (fun a => if a =? paddr
                    then take (Z.to_nat n) (file_content image file fileoff) ++ drop (Z.to_nat n) (mm_mem s paddr)
                    else mm_mem s a) s.

Lemma write_page_run (s : memmgr W) paddr file fileoff n :
  0 <= n <= PAGE_SIZE -> n <= Z.of_nat (length (mm_mem s paddr)) -> n <= Z.of_nat (length (file_content image file fileoff)) ->
  write_page paddr (file_content image file fileoff) n s = Done (tt, filled s paddr file fileoff n).
Proof.
  intros Hn Hd Hs. unfold write_page, bind, get, lift, memcpy_s.
  rewrite (proj2 (Z.leb_le n PAGE_SIZE)) by lia. rewrite memcpy_ok by lia. done.
Qed.

Lemma fill_loop_run (proc : mproc) (addr paddr : Z) (i : nat) (phdr : elf64_phdr) (n : nat) (s : memmgr W) (len : Z) :
  first_segment proc addr i phdr -> (i < n)%nat -> file_len image (mp_file proc) = Some len ->
  let offset := addr - p_vaddr phdr in
  let fileoff := u64 (p_offset phdr + offset) in
  let copy_len := Z.min (Z.min PAGE_SIZE (len - fileoff)) (u64 (p_filesz phdr - offset)) in
  fileoff < len -> PAGE_SIZE <= Z.of_nat (length (mm_mem s paddr)) ->
  len - fileoff <= Z.of_nat (length (file_content image (mp_file proc) fileoff)) ->
  fill_loop image n 0 proc addr paddr s = Done (tt, filled s paddr (mp_file proc) fileoff copy_len).
Proof.
  intros (Hi & Hin & Hbefore) Hn Hlen offset fileoff copy_len Hoff Hpage Hcont.
  assert (Hskip : forall k m, (k + m = i)%nat -> forall n', (m < n')%nat ->
    fill_loop image n' (Z.of_nat k) proc addr paddr s = Done (tt, filled s paddr (mp_file proc) fileoff copy_len)).
  { intros k m. revert k. induction m as [|m IH]; intros k Hk [|n'] Hn'; try lia; cbn [fill_loop].
    - rewrite Nat.add_0_r in Hk. subst k. unfold bind at 1, lift. rewrite Hi. cbn [outcome_bind].
      fold (in_segment phdr addr). rewrite Hin. unfold bind at 1, need. rewrite Hlen. unfold ret.
      fold offset. fold fileoff. rewrite (proj2 (Z.leb_gt len fileoff)) by done. fold copy_len.
      pose proof (u64_range (p_filesz phdr - offset)). apply write_page_run; unfold copy_len, PAGE_SIZE in *; lia.
    - destruct (Hbefore k ltac:(lia)) as (ph & Hph & Hno). unfold bind at 1, lift. rewrite Hph. cbn [outcome_bind].
      fold (in_segment ph addr). rewrite Hno. replace (Z.of_nat k + 1) with (Z.of_nat (S k)) by lia.
      apply IH; lia. }
  by apply (Hskip 0%nat i).
Qed.

Lemma pager_fill_run (s : memmgr W) (m : message) (proc : mproc) (phdr : elf64_phdr) (i : nat) (paddr len : Z)
    (zones : list zone) :
  let addr := field 4 8 (data m) in
  find (fun p => mp_pid p =? s32 (field 0 4 (data m))) (mm_processes s) = Some proc ->
  alloc_pages 0 (mm_zones s) = Done (paddr, zones) -> paddr <> 0 ->
  first_segment proc addr i phdr -> Z.of_nat i < num_phdrs (mp_elf proc) -> file_len image (mp_file proc) = Some len ->
  let offset := addr - p_vaddr phdr in
  let fileoff := u64 (p_offset phdr + offset) in
  let copy_len := Z.min (Z.min PAGE_SIZE (len - fileoff)) (u64 (p_filesz phdr - offset)) in
  fileoff < len -> PAGE_SIZE <= Z.of_nat (length (mm_mem s paddr)) ->
  len - fileoff <= Z.of_nat (length (file_content image (mp_file proc) fileoff)) ->
  handle_pager_fill image m s =
  Done ((OK, set_page (PAGE_PAYLOAD paddr 0) (set_header PAGER_FILL_REPLY_MSG m)),
        filled (set_zones zones s) paddr (mp_file proc) fileoff copy_len).
Proof.
  intros addr Hproc Halloc Hp Hseg Hi Hlen offset fileoff copy_len Hoff Hpage Hcont.
  unfold handle_pager_fill. fold addr.
  eapply bind_intro; [unfold mm_alloc_pages, bind, get, lift; by rewrite Halloc|].
  cbv beta. rewrite (proj2 (Z.eqb_neq paddr 0)) by done.
  eapply bind_intro; [unfold get_process_by_pid, bind, get; cbn [mm_processes set_zones]; by rewrite Hproc|].
  cbv beta iota. eapply bind_intro; [|done]. apply (fill_loop_run proc addr paddr i phdr); try done. lia.
Qed.
End Fill.

(** The pager hands out pages with the contents of the program: for a fault in
    the part of a segment that the file has, [handle_pager_fill] allocates a page,
    writes the bytes of the file that belong to that address (up to the end of the
    page, of the file and of the segment's part of it) to it, leaves every other
    page as it is, and replies with the page. *)
Theorem pager_fill_correct {W : Type} `{!Kernel W} (image : list Z) (s : memmgr W) (m : message) (proc : mproc)
    (phdr : elf64_phdr) (i : nat) (paddr len : Z) (zones : list zone)
    (Hproc : find (fun p => mp_pid p =? s32 (field 0 4 (data m))) (mm_processes s) = Some proc)
    (Halloc : alloc_pages 0 (mm_zones s) = Done (paddr, zones)) (Hpaddr : paddr <> 0)
    (Hseg : first_segment image proc (field 4 8 (data m)) i phdr) (Hi : Z.of_nat i < num_phdrs (mp_elf proc))
    (Hlen : file_len image (mp_file proc) = Some len) :
  let offset := field 4 8 (data m) - p_vaddr phdr in
  let fileoff := p_offset phdr + offset in
  let n := Z.min (Z.min PAGE_SIZE (len - fileoff)) (p_filesz phdr - offset) in
  offset < p_filesz phdr < 2 ^ 64 -> 0 <= fileoff < len -> len < 2 ^ 32 ->
  PAGE_SIZE <= Z.of_nat (length (mm_mem s paddr)) ->
  len - fileoff <= Z.of_nat (length (file_content image (mp_file proc) fileoff)) ->
  handle_pager_fill image m s =
  Done ((OK, set_page (PAGE_PAYLOAD paddr 0) (set_header PAGER_FILL_REPLY_MSG m)),
        filled image (set_zones zones s) paddr (mp_file proc) fileoff n).
Proof.
  intros offset fileoff n Hoff Hfo Hl Hpage Hcont.
  pose proof (pager_fill_run image s m proc phdr i paddr len zones Hproc Halloc Hpaddr Hseg Hi Hlen) as E.
  cbv zeta in E. fold offset in E. fold fileoff in E. rewrite (u64_small fileoff) in E by lia.
  assert (0 <= offset).
  { destruct Hseg as (_ & Hin & _). unfold in_segment in Hin. zbool. unfold offset. lia. }
  rewrite (u64_small (p_filesz phdr - offset)) in E by lia. apply E; [lia | done | done].
Qed.

(** Pages of uninitialised data are not zero: for a fault in a segment beyond
    its part of the file, the length [p_filesz - offset] wraps around, and
    [handle_pager_fill] copies bytes of the file that do not belong to the segment
    to the page, as many as the file has or the page takes. *)
Theorem pager_fill_bss {W : Type} `{!Kernel W} (image : list Z) (s : memmgr W) (m : message) (proc : mproc)
    (phdr : elf64_phdr) (i : nat) (paddr len : Z) (zones : list zone)
    (Hproc : find (fun p => mp_pid p =? s32 (field 0 4 (data m))) (mm_processes s) = Some proc)
    (Halloc : alloc_pages 0 (mm_zones s) = Done (paddr, zones)) (Hpaddr : paddr <> 0)
    (Hseg : first_segment image proc (field 4 8 (data m)) i phdr) (Hi : Z.of_nat i < num_phdrs (mp_elf proc))
    (Hlen : file_len image (mp_file proc) = Some len) :
  let offset := field 4 8 (data m) - p_vaddr phdr in
  let fileoff := p_offset phdr + offset in
  let n := Z.min PAGE_SIZE (len - fileoff) in
  0 <= p_filesz phdr < offset -> offset < 2 ^ 63 -> 0 <= fileoff < len -> len < 2 ^ 32 ->
  PAGE_SIZE <= Z.of_nat (length (mm_mem s paddr)) ->
  len - fileoff <= Z.of_nat (length (file_content image (mp_file proc) fileoff)) ->
  handle_pager_fill image m s =
  Done ((OK, set_page (PAGE_PAYLOAD paddr 0) (set_header PAGER_FILL_REPLY_MSG m)),
        filled image (set_zones zones s) paddr (mp_file proc) fileoff n).
Proof.
  intros offset fileoff n Hoff Hoff2 Hfo Hl Hpage Hcont.
  pose proof (pager_fill_run image s m proc phdr i paddr len zones Hproc Halloc Hpaddr Hseg Hi Hlen) as E.
  cbv zeta in E. fold offset in E. fold fileoff in E. rewrite (u64_small fileoff) in E by lia.
  assert (u64 (p_filesz phdr - offset) = 2 ^ 64 + p_filesz phdr - offset) as Hw.
  { unfold u64. symmetry. apply (Z.mod_unique _ _ (-1)); lia. }
  rewrite Hw in E. rewrite (Z.min_l (Z.min _ _)) in E by (unfold PAGE_SIZE; lia). apply E; [lia | done | done].
Qed.

(** A program of one segment at 0x1000000 with 10 bytes in the file. *)
Definition ex_elf : list Z :=
  ehdr 2 62 1 0x1000000 64 0 0 64 56 1 64 0 0 (replicate 12 0) ++
  (pack 4 1 ++ pack 4 7 ++ pack 8 120 ++ pack 8 0x1000000 ++ pack 8 0x1000000 ++ pack 8 10 ++ pack 8 0x3000 ++ pack 8 4096) ++
  replicate 10 5 ++ replicate 5000 9.
Definition ex_image : list Z := make_image [109] (replicate 192 0 ++ ex_elf) [].
Definition ex_proc : mproc := MProc 5 128 (ElfFile 0x1000000 1 64).
Definition ex_memmgr : memmgr qworld :=
  Memmgr (QWorld (ex_msg 0 0) [] []) [ex_zone] (fun _ => replicate 4096 0) [ex_proc] [] [] [] 1.
Definition ex_fault (addr : Z) : message :=
  Message PAGER_FILL_MSG 3 0 0 0 (set_field 4 8 addr (set_field 0 4 5 (replicate 480 0))).
Definition ex_phdr : elf64_phdr := Phdr 120 0x1000000 10 0x3000.

Lemma ex_segment addr : in_segment ex_phdr addr = true -> first_segment ex_image ex_proc addr 0 ex_phdr.
Proof. intros H. split; [vm_compute; reflexivity|]. split; [done | intros; lia]. Qed.

Lemma pager_fill_correct_witness :
  exists zones paddr, alloc_pages 0 (mm_zones ex_memmgr) = Done (paddr, zones) /\
  handle_pager_fill ex_image (ex_fault 0x1000000) ex_memmgr =
  Done ((OK, set_page (PAGE_PAYLOAD paddr 0) (set_header PAGER_FILL_REPLY_MSG (ex_fault 0x1000000))),
        filled ex_image (set_zones zones ex_memmgr) paddr 128 120 10).
Proof.
  destruct (alloc_pages 0 (mm_zones ex_memmgr)) as [[paddr zones]| | |] eqn:E; try (vm_compute in E; discriminate).
  exists zones, paddr. split; [reflexivity|].
  apply (pager_fill_correct ex_image ex_memmgr (ex_fault 0x1000000) ex_proc ex_phdr 0 paddr 5130 zones).
  - vm_compute. reflexivity.
  - exact E.
  - vm_compute in E. injection E as <- _. discriminate.
  - apply ex_segment. vm_compute. reflexivity.
  - vm_compute. reflexivity.
  - vm_compute. reflexivity.
  - vm_compute. split; reflexivity.
  - vm_compute. split; [discriminate | reflexivity].
  - vm_compute. reflexivity.
  - vm_compute. discriminate.
  - vm_compute. discriminate.
Defined.

Lemma pager_fill_bss_witness :
  exists zones paddr, alloc_pages 0 (mm_zones ex_memmgr) = Done (paddr, zones) /\
  handle_pager_fill ex_image (ex_fault 0x1001000) ex_memmgr =
  Done ((OK, set_page (PAGE_PAYLOAD paddr 0) (set_header PAGER_FILL_REPLY_MSG (ex_fault 0x1001000))),
        filled ex_image (set_zones zones ex_memmgr) paddr 128 4216 914).
Proof.
  destruct (alloc_pages 0 (mm_zones ex_memmgr)) as [[paddr zones]| | |] eqn:E; try (vm_compute in E; discriminate).
  exists zones, paddr. split; [reflexivity|].
  apply (pager_fill_bss ex_image ex_memmgr (ex_fault 0x1001000) ex_proc ex_phdr 0 paddr 5130 zones).
  - vm_compute. reflexivity.
  - exact E.
  - vm_compute in E. injection E as <- _. discriminate.
  - apply ex_segment. vm_compute. reflexivity.
  - vm_compute. reflexivity.
  - vm_compute. reflexivity.
  - vm_compute. split; [discriminate | reflexivity].
  - vm_compute. reflexivity.
  - vm_compute. split; [discriminate | reflexivity].
  - vm_compute. reflexivity.
  - vm_compute. discriminate.
  - vm_compute. discriminate.
Defined.

(** ** Discovery *)

(** Waiters only change by being marked as sent. *)
Definition waiters_step (l l' : list waiter) : Prop :=
  Forall2 (fun w w' => w_interface w' = w_interface w /\ w_reply_to w' = w_reply_to w /\
                       (w' = w \/ w_sent_request w' = true)) l l'.

Lemma waiters_step_refl l : waiters_step l l.
Proof. apply Forall2_same_length_lookup. split; [done|]. intros i x y Hx Hy. simplify_eq. auto. Qed.

Lemma waiters_step_trans l1 l2 l3 : waiters_step l1 l2 -> waiters_step l2 l3 -> waiters_step l1 l3.
Proof.
  intros H. revert l3. induction H as [|w w' l l' (A & B & C) H IH]; intros l3 H3; inversion H3; subst; [constructor|].
  destruct H2 as (A' & B' & C'). constructor; [|by apply IH]. split_and!; [congruence | congruence|].
  destruct C' as [->|]; auto.
Qed.

Lemma waiters_step_insert l i w w' : l !! i = Some w ->
  w_interface w' = w_interface w -> w_reply_to w' = w_reply_to w -> w_sent_request w' = true ->
  waiters_step l (<[i := w']> l).
Proof.
  intros Hi H1 H2 H3. rewrite <- (list_insert_id l i w) at 1 by done.
  apply Forall2_insert; [apply waiters_step_refl | auto].
Qed.

(** A client that waits for a server has its request on the way. *)
Definition requested (w : waiter) : Prop := w_reply_to w <> 0 -> w_sent_request w = true.

(** What holds of waiter [i] and of those after it holds from [i] on. *)
Lemma requested_from (l l' : list waiter) (i : nat) (interface : Z) (r r' : bool) w :
  l !! i = Some w -> (r = false -> w_interface w = interface -> requested w) -> waiters_step l l' ->
  (r' = false -> r = false /\ forall j w', (S i <= j)%nat -> l' !! j = Some w' -> w_interface w' = interface -> requested w') ->
  r' = false -> r = false /\ forall j w', (i <= j)%nat -> l' !! j = Some w' -> w_interface w' = interface -> requested w'.
Proof.
  intros Hw Hrw Hst Hr ->. destruct (Hr eq_refl) as [Hr1 Hj]. split; [done|].
  intros j w' Hij Hw'. destruct (Nat.eq_dec j i) as [->|]; [|apply (Hj j); [lia | done]].
  destruct (Forall2_lookup_lr _ _ _ _ _ _ Hst Hw Hw') as (Hi1 & Hi2 & [->|Hi3]); [by apply Hrw|].
  by intros _ _.
Qed.

Section Discovery.
Context {W : Type} `{!Kernel W} (m0 : message) (ready : W -> Prop).
(** A send with [IPC_NOBLOCK] returns; it succeeds or would block.  [ready] are the
    states of the kernel in which the process can make system calls. *)
Definition async_send_returns : Prop := forall ch interface (s : memmgr W), ready (mm_world s) -> exists err w,
  async_send_server_connect m0 ch interface s = Done (err, set_world w s) /\ ready w /\
  (err = OK \/ err = ERR_WOULD_BLOCK).
Hypothesis Hsend : async_send_returns.

Lemma connect_waiters_spec interface server n : forall i (s : memmgr W) r,
  (i + n = length (mm_waiters s))%nat -> ready (mm_world s) ->
  exists r' s', connect_waiters m0 n (Z.of_nat i) interface server r s = Done (r', s') /\ ready (mm_world s') /\
    mm_servers s' = mm_servers s /\ waiters_step (mm_waiters s) (mm_waiters s') /\
    (r' = false -> r = false /\ forall j w, (i <= j)%nat -> mm_waiters s' !! j = Some w ->
       w_interface w = interface -> requested w).
Proof.
  induction n as [|n IH]; intros i s r Hn Hrd.
  { exists r, s. split; [done|]. split; [done|]. split; [done|]. split; [apply waiters_step_refl|].
    intros ->. split; [done|]. intros j w Hj Hw. apply lookup_lt_Some in Hw. lia. }
  destruct (lookup_lt_is_Some_2 (mm_waiters s) i ltac:(lia)) as [w Hw].
  assert (Hget : arr_get (mm_waiters s) (Z.of_nat i) = Some w) by (apply arr_get_Some; rewrite Nat2Z.id; split; [lia | done]).
  cbn [connect_waiters]. rewrite (bind_intro _ _ s s s _ eq_refl eq_refl).
  unfold bind at 1, need. rewrite Hget. unfold ret at 1.
  replace (Z.of_nat i + 1) with (Z.of_nat (S i)) by lia.
  destruct (truthy (w_reply_to w) && (w_interface w =? interface) && negb (w_sent_request w)) eqn:Hcond.
  - destruct (Hsend server interface s Hrd) as (err & w' & E & Hrd' & Herr).
    rewrite (bind_intro _ _ _ _ _ _ E eq_refl). cbv beta.
    destruct Herr as [-> | ->].
    + change (OK =? ERR_WOULD_BLOCK) with false. cbn iota.
      set (nw := Waiter (w_interface w) (w_reply_to w) server true).
      set (s1 := set_waiters (<[i := nw]> (mm_waiters s)) (set_world w' s)).
      destruct (IH (S i) s1 r) as (r' & s' & E' & Hrd1 & Hsv & Hst & Hr); [unfold s1; simpl; rewrite length_insert; lia | done|].
      exists r', s'. split; [|split; [done|split; [done|split]]].
      * do 2 (eapply bind_intro; [reflexivity|]).
        eapply bind_intro; [unfold need; rewrite arr_set_Some by (simpl; lia); rewrite Nat2Z.id; reflexivity|].
        eapply bind_intro; [reflexivity|]. exact E'.
      * eapply waiters_step_trans; [|exact Hst]. by eapply waiters_step_insert.
      * apply (requested_from (mm_waiters s1) _ _ _ _ _ nw); [|done | done | done].
        unfold s1; simpl. apply list_lookup_insert_eq. lia.
    + change (ERR_WOULD_BLOCK =? ERR_WOULD_BLOCK) with true. cbn iota.
      destruct (IH (S i) (set_world w' s) true) as (r' & s' & E' & Hrd1 & Hsv & Hst & Hr); [simpl; lia | done|].
      exists r', s'. split; [done|]. split; [done|]. split; [done|]. split; [done|]. intros ->. by destruct (Hr eq_refl).
  - destruct (IH (S i) s r) as (r' & s' & E' & Hrd1 & Hsv & Hst & Hr); [lia | done|].
    exists r', s'. split; [done|]. split; [done|]. split; [done|]. split; [done|].
    apply (requested_from (mm_waiters s) _ _ _ _ _ w); [done | | done | done]. intros _ Hif Hrep.
    rewrite (proj2 (truthy_true _) Hrep), Hif, Z.eqb_refl in Hcond. by destruct (w_sent_request w).
Qed.
End Discovery.

Lemma connect_servers_spec {W : Type} `{!Kernel W} (m0 : message) (ready : W -> Prop) n :
  async_send_returns m0 ready ->
  forall i (s : memmgr W) r, (i + n = length (mm_servers s))%nat -> length (mm_waiters s) = Z.to_nat WAITERS_MAX ->
  ready (mm_world s) ->
  exists r' s', connect_servers m0 n (Z.of_nat i) r s = Done (r', s') /\
    mm_servers s' = mm_servers s /\ waiters_step (mm_waiters s) (mm_waiters s') /\
    (r' = false -> r = false /\ forall w sv, w ∈ mm_waiters s' -> Z.of_nat i <= w_interface w ->
       arr_get (mm_servers s) (w_interface w) = Some sv -> sv <> 0 -> requested w).
Proof.
  intros Hsend. induction n as [|n IH]; intros i s r Hn Hlen Hrd.
  { exists r, s. split; [done|]. split; [done|]. split; [apply waiters_step_refl|].
    intros ->. split; [done|]. intros w sv _ Hw Hsv. assert (is_Some (arr_get (mm_servers s) (w_interface w))) as Hs by eauto.
    apply arr_get_is_Some in Hs. lia. }
  destruct (lookup_lt_is_Some_2 (mm_servers s) i ltac:(lia)) as [sv Hsv].
  assert (Hget : arr_get (mm_servers s) (Z.of_nat i) = Some sv) by (apply arr_get_Some; rewrite Nat2Z.id; split; [lia | done]).
  cbn [connect_servers]. rewrite (bind_intro _ _ s s s _ eq_refl eq_refl).
  unfold bind at 1, need. rewrite Hget. unfold ret at 1.
  replace (Z.of_nat i + 1) with (Z.of_nat (S i)) by lia.
  destruct (Z.eqb_spec sv 0) as [->|Hne].
  - destruct (IH (S i) s r) as (r' & s' & E & Hs & Hst & Hr); [lia | done | done|].
    exists r', s'. split; [done|]. split; [done|]. split; [done|]. intros Hr'. destruct (Hr Hr') as [? Hreq]. split; [done|].
    intros w sv Hw Hle Hg Hsv0. destruct (Z.eq_dec (w_interface w) (Z.of_nat i)) as [Heq|]; [congruence|].
    apply (Hreq w sv); [done | lia | done | done].
  - destruct (connect_waiters_spec m0 ready Hsend (Z.of_nat i) sv (Z.to_nat WAITERS_MAX) 0 s r)
      as (r1 & s1 & E1 & Hrd1 & Hs1 & Hst1 & Hr1); [by rewrite Hlen | done|].
    rewrite (bind_intro _ _ _ _ _ _ E1 eq_refl). cbv beta.
    destruct (IH (S i) s1 r1) as (r' & s' & E & Hs & Hst & Hr).
    { rewrite Hs1. lia. }
    { rewrite <- Hlen. symmetry. by apply (Forall2_length _ _ _ Hst1). }
    { done. }
    exists r', s'. split; [done|]. split; [congruence|]. split; [by eapply waiters_step_trans|].
    intros Hr'. destruct (Hr Hr') as [Hr1' Hreq]. destruct (Hr1 Hr1') as [-> Hreq1]. split; [done|].
    intros w x Hw Hle Hg Hx. destruct (Z.eq_dec (w_interface w) (Z.of_nat i)) as [Heq|].
    + apply list_elem_of_lookup in Hw as [j Hj].
      destruct (Forall2_lookup_r _ _ _ _ _ Hst Hj) as (w1 & Hj1 & Hi1 & Hi2 & [->|Hi3]); [|by intros _].
      apply (Hreq1 j w1); [lia | done | done].
    + apply (Hreq w x); [done | lia | by rewrite Hs1 | done].
Qed.

(** Discovery makes progress: on every kernel whose non-blocking sends succeed
    or would block, [deferred_work] returns, loses no waiting client and changes no
    waiter other than by marking its request as sent; and if it returns [OK], then
    the request of every client that waits for a published interface has been sent
    to the server of that interface. *)
Theorem discovery_progress {W : Type} `{!Kernel W} (m0 : message) (ready : W -> Prop) (s : memmgr W)
    (Hsend : async_send_returns m0 ready) (Hready : ready (mm_world s))
    (Hservers : length (mm_servers s) = Z.to_nat (INTERFACE_ID_MAX + 1))
    (Hwaiters : length (mm_waiters s) = Z.to_nat WAITERS_MAX) :
  exists err s', deferred_work m0 s = Done (err, s') /\ (err = OK \/ err = ERR_NEEDS_RETRY) /\
    mm_servers s' = mm_servers s /\ waiters_step (mm_waiters s) (mm_waiters s') /\
    (err = OK -> forall w sv, w ∈ mm_waiters s' -> 0 <= w_interface w ->
       arr_get (mm_servers s) (w_interface w) = Some sv -> sv <> 0 -> requested w).
Proof.
  destruct (connect_servers_spec m0 ready (Z.to_nat (INTERFACE_ID_MAX + 1)) Hsend 0 s false)
    as (r & s' & E & Hs & Hst & Hr); [by rewrite Hservers | done | done|].
  exists (if r then ERR_NEEDS_RETRY else OK), s'. split; [|split; [by destruct r; auto|split; [done|split; [done|]]]].
  - unfold deferred_work. by rewrite (bind_intro _ _ _ _ _ _ E eq_refl).
  - destruct r; [done|]. intros _. by destruct (Hr eq_refl).
Qed.

(** Clients 7 and 8 wait for the interfaces 2 and 3; interface 2 has server 5. *)
Definition ex_discovery : memmgr qworld :=
  Memmgr (QWorld (ex_msg 0 0) [] []) [] (fun _ => []) []
    (<[2%nat := 5]> (replicate 256 0))
    (Waiter 2 7 0 false :: Waiter 3 8 0 false :: replicate 30 (Waiter 0 0 0 false)) [] 1.

Lemma discovery_progress_witness :
  exists err s', deferred_work (ex_msg 0 0) ex_discovery = Done (err, s') /\ (err = OK \/ err = ERR_NEEDS_RETRY) /\
    mm_servers s' = mm_servers ex_discovery /\ waiters_step (mm_waiters ex_discovery) (mm_waiters s') /\
    (err = OK -> forall w sv, w ∈ mm_waiters s' -> 0 <= w_interface w ->
       arr_get (mm_servers ex_discovery) (w_interface w) = Some sv -> sv <> 0 -> requested w).
Proof.
  apply (discovery_progress (ex_msg 0 0) (fun w : qworld => INLINE_PAYLOAD_LEN_MAX <= Z.of_nat (length (data (q_buffer w))))).
  - intros ch interface s Hs. unfold async_send_server_connect, ipc_async_send, copy_to_ipc_buffer.
    set (m := set_data _ _).
    assert (fits m) as Hm.
    { split; [vm_compute; discriminate|]. unfold m. cbn [data set_data]. rewrite length_set_field. vm_compute. discriminate. }
    destruct (copy_message_ok (q_buffer (mm_world s)) m Hs Hm) as (b & Eb & _ & Hlen).
    unfold bind, gets, lift, modify. cbn [k_ipc_buffer memmgr_kernel qworld_kernel]. rewrite Eb. cbn [outcome_bind].
    exists OK, (QWorld b (q_in (mm_world s)) (q_out (mm_world s) ++ [(ch, b)])).
    split; [done|]. split; [by rewrite <- Hlen in Hs|]. by left.
  - vm_compute. discriminate.
  - reflexivity.
  - reflexivity.
Defined.
