(* ===== verification/Appmgr.v ===== *)
(** * The application manager

    [servers/appmgr/main.c] and [servers/appmgr/process.c]: it starts applications
    from the file system of memmgr, fills their pages, and tells a program that
    waits for another the exit code.  It runs on any [Kernel]; what a page that was
    received holds is the class [Pages]. *)
From S2P Require Import Prelude Message CString Util Elf Malloc UserIpc Driver Stubs.
Import CStr Math Elf Heap User Stubs.

Definition FILES_MAX : Z := 32.
Definition JOINS_MAX : Z := 16.
Definition NUM_PROCESSES_MAX : Z := 128.
Definition APP_IMAGE_START : Z := 0x01000000.
Definition APP_IMAGE_SIZE : Z := 0x01000000.
Definition APP_ZEROED_PAGES_START : Z := 0x02000000.
Definition APP_ZEROED_PAGES_SIZE : Z := 0x02000000.
Definition APP_INITIAL_STACK_POINTER : Z := 0x03000000.

(** [struct file], and the pointers to one: into the table, or to the file of the
    shell. *)
Record app_file := AppFile { f_using : bool; f_fs_server : Z; f_fd : Z }.
Inductive file_ptr := TableFile (i : Z) | ShellFile.

(** [struct process]; the program headers are in the page [ap_image]. *)
Record aproc := AProc { ap_pid : Z; ap_pager_ch : Z; ap_file : option file_ptr; ap_elf : elf_file; ap_image : Z }.

Record join_request := Join { j_using : bool; j_waiter : Z; j_target : Z }.

(** The static variables, with those of [libs/libresea/malloc.c]. *)
Record appmgr := Appmgr {
  am_server_ch : Z;
  am_processes : list aproc;
  am_files : list app_file;
  am_shell_file : app_file;
  am_joins : list join_request;
  am_heap : heap
}.

Definition set_am_server_ch x (s : appmgr) : appmgr := Appmgr x (am_processes s) (am_files s) (am_shell_file s) (am_joins s) (am_heap s).
Definition set_am_processes x (s : appmgr) : appmgr := Appmgr (am_server_ch s) x (am_files s) (am_shell_file s) (am_joins s) (am_heap s).
Definition set_am_files x (s : appmgr) : appmgr := Appmgr (am_server_ch s) (am_processes s) x (am_shell_file s) (am_joins s) (am_heap s).
Definition set_am_shell_file x (s : appmgr) : appmgr := Appmgr (am_server_ch s) (am_processes s) (am_files s) x (am_joins s) (am_heap s).
Definition set_am_joins x (s : appmgr) : appmgr := Appmgr (am_server_ch s) (am_processes s) (am_files s) (am_shell_file s) x (am_heap s).
Definition set_am_heap x (s : appmgr) : appmgr := Appmgr (am_server_ch s) (am_processes s) (am_files s) (am_shell_file s) (am_joins s) x.

Definition deref (p : file_ptr) (s : appmgr) : option app_file :=
  match p with TableFile i => arr_get (am_files s) i | ShellFile => Some (am_shell_file s) end.

Module App.
Section Server.
Context {W : Type} `{!Kernel W, !Pages W}.
(** A message on the stack that was never written. *)
Context (m0 : message).
Local Abbreviation S := (W * appmgr)%type.

Definition memmgr_ch : Z := 1.
Definition kernel_ch : Z := 2.

Definition am_valloc (num_pages : Z) : M S Z := on_static am_heap set_am_heap (valloc num_pages).

(** ** [process.c] *)

Definition app_name : list Z := [97; 112; 112; 0].

(** The error and the process identifier. *)
Definition create_app (kernel_ch memmgr_ch appmgr_ch : Z) (file : file_ptr) : M S (Z * Z) :=
  page_base <- am_valloc 4096 ;;
  let header_size := 0x1000 in
  s <- statics ;;
  f <- need (deref file s) ;;
  let* (err, file_header) := call_fs_read m0 (f_fs_server f) (f_fd f) 0 header_size page_base in
  c_assert (err =? OK) ;;;
  w <- gets fst ;;
  elf <- lift (elf_parse (page_bytes w file_header) header_size) ;;
  match elf with
  | inl err => ret (err, 0)
  | inr elf =>
      let* (err, (pid, pager_ch)) := call_process_create m0 kernel_ch app_name in
      if negb (err =? OK) then ret (err, 0) else
      err <- k_transfer pager_ch appmgr_ch ;;
      if negb (err =? OK) then ret (err, 0) else
      let* (err, gui_ch) := call_discovery_connect m0 memmgr_ch GUI_INTERFACE in
      c_assert (err =? OK) ;;;
      TRY_OR_PANIC (call_process_send_channel m0 kernel_ch pid gui_ch) ;;;
      err <- call_process_add_pager m0 kernel_ch pid 1 APP_IMAGE_START APP_IMAGE_SIZE 6 ;;
      if negb (err =? OK) then ret (err, 0) else
      err <- call_process_add_pager m0 kernel_ch pid 1 APP_ZEROED_PAGES_START APP_ZEROED_PAGES_SIZE 6 ;;
      if negb (err =? OK) then ret (err, 0) else
      s <- statics ;;
      match find_last (fun p => ap_pid p =? 0) (am_processes s) with
      | None => ret (ERR_OUT_OF_MEMORY, 0)
      | Some i =>
          ps <- need (arr_set (am_processes s) i (AProc pid pager_ch (Some file) elf file_header)) ;;
          set_statics (set_am_processes ps s) ;;;
          ret (OK, pid)
      end
  end.

Definition get_process_by_pid (pid : Z) : M S (option aproc) :=
  s <- statics ;; ret (List.find (fun p => ap_pid p =? pid) (am_processes s)).
Definition get_process_by_cid (cid : Z) : M S (option aproc) :=
  s <- statics ;; ret (List.find (fun p => ap_pager_ch p =? cid) (am_processes s)).

Definition start_app (kernel_ch app_pid : Z) : M S Z :=
  proc <- get_process_by_pid app_pid ;;
  match proc with
  | None => panic
  | Some proc =>
      TRY (call_thread_spawn m0 kernel_ch app_pid (entry (ap_elf proc)) APP_INITIAL_STACK_POINTER 0x1000 0) (ret OK)
  end.

Definition process_init : M S unit :=
  s <- statics ;;
  set_statics (set_am_processes
    (map (fun p => AProc 0 (ap_pager_ch p) (ap_file p) (ap_elf p) (ap_image p)) (am_processes s)) s).

(** ** [main.c] *)

(** The loop over the program headers from [i] on: the address of the page with the
    data of the file, if a segment has the address. *)
Fixpoint fill_loop (n : nat) (i : Z) (proc : aproc) (addr : Z) : M S (option Z) :=
  match n with
  | O => ret None
  | Datatypes.S n =>
      w <- gets fst ;;
      phdr <- lift (phdr_at (page_bytes w (ap_image proc)) (ap_elf proc) i) ;;
      if (p_vaddr phdr <=? addr) && (addr <? u64 (p_vaddr phdr + p_memsz phdr)) then
        let fileoff := u64 (p_offset phdr + (addr - p_vaddr phdr)) in
        page_base <- am_valloc 4096 ;;
        s <- statics ;;
        p <- need (ap_file proc) ;;
        f <- need (deref p s) ;;
        let* (err, data) := call_fs_read m0 (f_fs_server f) (f_fd f) fileoff PAGE_SIZE page_base in
        c_assert (err =? OK) ;;;
        ret (Some data)
      else fill_loop n (i + 1) proc addr
  end.

Definition handle_pager_fill (m : message) : M S (Z * message) :=
  let pid := s32 (field 0 4 (data m)) in
  let addr := field 4 8 (data m) in
  proc <- get_process_by_pid pid ;;
  match proc with
  | None => panic
  | Some proc =>
      r <- fill_loop (Z.to_nat (num_phdrs (ap_elf proc))) 0 proc addr ;;
      match r with
      | Some data => ret (OK, set_page (PAGE_PAYLOAD data 0) (set_header PAGER_FILL_REPLY_MSG m))
      | None =>
          page_base <- am_valloc 4096 ;;
          let* (err, ptr) := call_memory_alloc_pages m0 memmgr_ch 0 page_base in
          c_assert (err =? OK) ;;;
          ret (OK, set_page (PAGE_PAYLOAD ptr 0) (set_header PAGER_FILL_REPLY_MSG m))
      end
  end.

(** The reply is the request: its header is not set. *)
Definition handle_runtime_printchar (m : message) : M S (Z * message) :=
  err <- call_runtime_printchar m0 kernel_ch (field 0 1 (data m)) ;;
  ret (err, m).

(** A pointer to the file, or NULL. *)
Definition open_app_file (path : list Z) : M S (option file_ptr) :=
  s <- statics ;;
  match find_index (fun f => negb (f_using f)) (am_files s) 0 with
  | None => panic
  | Some i =>
      let* (err, handle) := call_fs_open m0 memmgr_ch path 0 in
      if negb (err =? OK) then ret None
      else
        s <- statics ;;
        fs <- need (arr_set (am_files s) i (AppFile true memmgr_ch handle)) ;;
        set_statics (set_am_files fs s) ;;;
        ret (Some (TableFile i))
  end.

Definition handle_api_create_app (m : message) : M S (Z * message) :=
  let path := data m in
  f <- open_app_file path ;;
  match f with
  | None => ret (ERR_INVALID_MESSAGE, m)
  | Some f =>
      s <- statics ;;
      let* (err, pid) := create_app kernel_ch memmgr_ch (am_server_ch s) f in
      c_assert (err =? OK) ;;;
      ret (OK, set_data (set_field 0 4 pid (data m)) (set_header API_CREATE_APP_REPLY_MSG m))
  end.

Definition handle_api_start_app (m : message) : M S (Z * message) :=
  TRY_OR_PANIC (start_app kernel_ch (s32 (field 0 4 (data m)))) ;;;
  ret (OK, set_header API_START_APP_REPLY_MSG m).

Definition handle_api_join_app (m : message) : M S (Z * message) :=
  let pid := s32 (field 0 4 (data m)) in
  s <- statics ;;
  match find_index (fun j => negb (j_using j)) (am_joins s) 0 with
  | None => panic
  | Some i =>
      js <- need (arr_set (am_joins s) i (Join true (from m) pid)) ;;
      set_statics (set_am_joins js s) ;;;
      ret (DONT_REPLY, m)
  end.

Definition handle_api_exit_app (m : message) : M S (Z * message) :=
  let code := s8 (field 0 1 (data m)) in
  proc <- get_process_by_cid (from m) ;;
  match proc with
  | None => panic
  | Some proc =>
      s <- statics ;;
      match find_index (fun j => j_using j && (j_target j =? ap_pid proc)) (am_joins s) 0 with
      | None => panic
      | Some i =>
          j <- need (arr_get (am_joins s) i) ;;
          send_api_join_app_reply m0 (j_waiter j) code ;;;
          s <- statics ;;
          js <- need (arr_set (am_joins s) i (Join false (j_waiter j) (j_target j))) ;;
          set_statics (set_am_joins js s) ;;;
          ret (DONT_REPLY, m)
      end
  end.

Definition process_message (m : message) : M S (Z * message) :=
  if header m =? RUNTIME_PRINTCHAR_MSG then handle_runtime_printchar m
  else if header m =? PAGER_FILL_MSG then handle_pager_fill m
  else if header m =? API_CREATE_APP_MSG then handle_api_create_app m
  else if header m =? API_START_APP_MSG then handle_api_start_app m
  else if header m =? API_JOIN_APP_MSG then handle_api_join_app m
  else if header m =? API_EXIT_APP_MSG then handle_api_exit_app m
  else ret (ERR_UNEXPECTED_MESSAGE, m).

Definition shell_path : list Z := [97; 112; 112; 115; 47; 115; 104; 101; 108; 108; 46; 101; 108; 102; 0].

Definition main (fuel : nat) : M S Z :=
  let* (err, server_ch) := open in
  c_assert (err =? OK) ;;;
  s <- statics ;;
  set_statics (set_am_server_ch server_ch s) ;;;
  let* (err, gui_ch) := call_discovery_connect m0 memmgr_ch GUI_INTERFACE in
  c_assert (err =? OK) ;;;
  process_init ;;;
  s <- statics ;;
  set_statics (set_am_files (map (fun f => AppFile false (f_fs_server f) (f_fd f)) (am_files s)) s) ;;;
  s <- statics ;;
  set_statics (set_am_joins (map (fun j => Join false (j_waiter j) (j_target j)) (am_joins s)) s) ;;;
  let* (err, handle) := call_fs_open m0 memmgr_ch shell_path 0 in
  c_assert (err =? OK) ;;;
  s <- statics ;;
  set_statics (set_am_shell_file (AppFile (f_using (am_shell_file s)) memmgr_ch handle) s) ;;;
  let* (err, app_pid) := create_app kernel_ch memmgr_ch server_ch ShellFile in
  c_assert (err =? OK) ;;;
  TRY_OR_PANIC (start_app kernel_ch app_pid) ;;;
  server_mainloop fuel m0 server_ch process_message.

End Server.
End App.

Import App.

(** ** Waiting for an application *)

(** The requests to wait that are open. *)
Definition waiting (s : appmgr) : list (Z * Z) :=
  map (fun j => (j_waiter j, j_target j)) (List.filter j_using (am_joins s)).

Lemma find_index_only {A} (f : A -> bool) l i x :
  l !! i = Some x -> f x = true -> (forall k y, l !! k = Some y -> f y = true -> k = i) -> find_index f l 0 = Some (Z.of_nat i).
Proof.
  intros Hi Hx Honly. destruct (find_index_is_Some f l 0) as [k Ek].
  { apply Exists_exists. exists x. split; [by apply (list_elem_of_lookup_2 _ i) | done]. }
  destruct (find_index_Some _ _ _ _ Ek) as (Hk & y & Hy & Hf). rewrite Ek. f_equal. specialize (Honly _ _ Hy Hf). lia.
Qed.

(** The handlers of the two messages. *)
Section Dispatch.
Context {W : Type} `{!Kernel W, !Pages W} (m0 m : message).

Lemma dispatch_join : header m = API_JOIN_APP_MSG -> process_message (W := W) m0 m = handle_api_join_app m.
Proof. intros H. unfold process_message. by rewrite H. Qed.

Lemma dispatch_exit : header m = API_EXIT_APP_MSG -> process_message (W := W) m0 m = handle_api_exit_app m0 m.
Proof. intros H. unfold process_message. by rewrite H. Qed.

Lemma dispatch_fill : header m = PAGER_FILL_MSG -> process_message (W := W) m0 m = handle_pager_fill m0 m.
Proof. intros H. unfold process_message. by rewrite H. Qed.
End Dispatch.

Section Joins.
Context {W : Type} `{!Kernel W, !Pages W, !MessageQueue W}.
Context (m0 : message) (Hm0 : INLINE_PAYLOAD_LEN_MAX <= Z.of_nat (length (data m0))).

Lemma join_ok (w : W) s m : header m = API_JOIN_APP_MSG -> Exists (fun j => j_using j = false) (am_joins s) ->
  exists s' i, process_message m0 m (w, s) = Done ((DONT_REPLY, m), (w, s')) /\ am_processes s' = am_processes s /\
    am_joins s' = <[i := Join true (from m) (s32 (field 0 4 (data m)))]> (am_joins s) /\
    exists j, am_joins s !! i = Some j /\ j_using j = false.
Proof.
  intros Hh Hfree. rewrite (dispatch_join m0 m Hh). unfold handle_api_join_app, statics, gets. unfold bind at 1. cbn [snd].
  destruct (find_index_is_Some (fun j => negb (j_using j)) (am_joins s) 0) as [i Ei].
  { eapply Exists_impl; [exact Hfree|]. intros j Hj. simpl. by rewrite Hj. }
  rewrite Ei. destruct (find_index_Some _ _ _ _ Ei) as (Hi & j & Hj & Hu). rewrite Z.sub_0_r in Hj.
  unfold bind at 1. rewrite arr_set_Some by lia. cbn [need]. eexists _, (Z.to_nat i). split; [reflexivity|].
  split; [done|]. split; [done|]. exists j. split; [done|]. by apply negb_true_iff.
Qed.

Lemma send_join_reply (w : W) (s : appmgr) ch code : fits (k_ipc_buffer w) -> - 128 <= code < 128 ->
  exists err w' r, send_api_join_app_reply m0 ch code (w, s) = Done (err, (w', s)) /\ sent w' = sent w ++ [(ch, r)] /\
    header r = API_JOIN_APP_REPLY_MSG /\ s8 (field 0 1 (data r)) = code.
Proof.
  intros Hb Hc. set (m := make_request m0 API_JOIN_APP_REPLY_MSG (set_field 0 1 code (data m0))).
  assert (Hm : fits m) by (apply make_request_fits; [done | vm_compute; discriminate | apply length_set_field]).
  destruct (copy_message_ok (k_ipc_buffer w) m (proj2 Hb) Hm) as (b & Ec & Hsame & Hlen).
  assert (Hfb : fits b) by (apply (same_message_fits b m Hsame Hm); destruct Hb; lia).
  destruct (mq_buffer b w) as (B1 & _ & B3). destruct (mq_send ch (k_set_ipc_buffer b w)) as (w1 & E & _ & _ & R1).
  exists OK, w1, b. rewrite B1, B3 in R1. split; [|split; [done|split; [apply Hsame|]]].
  - unfold send_api_join_app_reply, ipc_send, copy_to_ipc_buffer, gets, lift, modify, bind. fold m. cbn [k_ipc_buffer pair_kernel fst].
    rewrite Ec. cbn [outcome_bind]. cbv beta iota. exact (on_fst_done _ _ _ s _ E).
  - rewrite (same_message_field b m) by (try done; vm_compute; discriminate). unfold m. cbn [make_request data set_data].
    rewrite field_set_field by (unfold INLINE_PAYLOAD_LEN_MAX in Hm0; lia). change (256 ^ Z.of_nat 1) with (2 ^ 8).
    unfold s8. rewrite Zplus_mod_idemp_l, Z.mod_small by lia. lia.
Qed.

Lemma exit_ok (w : W) s m proc i j : header m = API_EXIT_APP_MSG -> fits (k_ipc_buffer w) ->
  List.find (fun p => ap_pager_ch p =? from m) (am_processes s) = Some proc ->
  find_index (fun j => j_using j && (j_target j =? ap_pid proc)) (am_joins s) 0 = Some i -> arr_get (am_joins s) i = Some j ->
  exists w' s' r, process_message m0 m (w, s) = Done ((DONT_REPLY, m), (w', s')) /\
    am_joins s' = <[Z.to_nat i := Join false (j_waiter j) (j_target j)]> (am_joins s) /\
    sent w' = sent w ++ [(j_waiter j, r)] /\ header r = API_JOIN_APP_REPLY_MSG /\
    s8 (field 0 1 (data r)) = s8 (field 0 1 (data m)).
Proof.
  intros Hh Hb Hp Hi Hj. assert (Hc : - 128 <= s8 (field 0 1 (data m)) < 128).
  { unfold s8. pose proof (Z.mod_pos_bound (field 0 1 (data m) + 2 ^ 7) (2 ^ 8)). lia. }
  destruct (send_join_reply w s (j_waiter j) _ Hb Hc) as (err & w' & r & E & R & Hr & Hcode).
  eexists w', _, r. split; [|split; [|done]].
  - rewrite (dispatch_exit m0 m Hh).
    unfold handle_api_exit_app, get_process_by_cid, statics, gets. unfold bind at 1 2. cbn [snd]. unfold ret at 1. rewrite Hp.
    unfold bind at 1. cbn [snd]. rewrite Hi, Hj. unfold bind at 1. cbn [need]. unfold ret at 1.
    rewrite (bind_intro _ _ _ _ _ _ E eq_refl). unfold bind at 1. cbn [snd].
    rewrite arr_set_Some by (apply (arr_get_is_Some (am_joins s)); by eexists). reflexivity.
  - reflexivity.
Qed.

End Joins.

(** C18: an application that exits.  When a program asks to wait for an application, while a
    slot for the request is free and nobody else waits for the same application, and the
    application then exits, the program is sent its exit code, and the table of open
    requests is as before.  (Without a free slot an assertion fails; of two programs that
    wait for the same application only the first in the table is answered; and the exit of
    an application nobody waits for ends appmgr, [exit_without_join].) *)
Theorem exit_reaches_waiter {W : Type} `{!Kernel W, !Pages W, !MessageQueue W} (m0 : message) (w : W) (s : appmgr)
    (jm em : message) (proc : aproc)
    (Hm0 : INLINE_PAYLOAD_LEN_MAX <= Z.of_nat (length (data m0))) (Hb : fits (k_ipc_buffer w))
    (Hjm : header jm = API_JOIN_APP_MSG) (Hem : header em = API_EXIT_APP_MSG)
    (Hfree : Exists (fun j => j_using j = false) (am_joins s))
    (Hproc : List.find (fun p => ap_pager_ch p =? from em) (am_processes s) = Some proc)
    (Hpid : ap_pid proc = s32 (field 0 4 (data jm)))
    (Hnone : Forall (fun x => x.2 <> ap_pid proc) (waiting s)) :
  exists w' s' r, (process_message m0 jm ;;; process_message m0 em) (w, s) = Done ((DONT_REPLY, em), (w', s')) /\
    sent w' = sent w ++ [(from jm, r)] /\ header r = API_JOIN_APP_REPLY_MSG /\
    s8 (field 0 1 (data r)) = s8 (field 0 1 (data em)) /\ waiting s' = waiting s.
Proof.
  destruct (join_ok m0 w s jm Hjm Hfree) as (s1 & i & E1 & P1 & J1 & j & Hj & Hu).
  assert (Hlt : (i < length (am_joins s))%nat) by (by apply lookup_lt_Some in Hj).
  set (new := Join true (from jm) (s32 (field 0 4 (data jm)))) in J1.
  assert (Ei : find_index (fun j => j_using j && (j_target j =? ap_pid proc)) (am_joins s1) 0 = Some (Z.of_nat i)).
  { rewrite J1. apply (find_index_only _ _ _ new); [by apply list_lookup_insert_eq | unfold new; simpl; by rewrite Hpid, Z.eqb_refl |].
    intros k y Hk Hy. destruct (decide (k = i)) as [|Hne]; [done|]. rewrite list_lookup_insert_ne in Hk by done. exfalso.
    apply andb_true_iff in Hy as [Hy Ht]. apply Z.eqb_eq in Ht. rewrite Forall_forall in Hnone.
    apply (Hnone (j_waiter y, j_target y)); [|done]. unfold waiting. apply list_elem_of_In, in_map_iff. exists y. split; [done|].
    apply filter_In. split; [|done]. by apply list_elem_of_In, (list_elem_of_lookup_2 _ k). }
  destruct (exit_ok m0 Hm0 w s1 em proc (Z.of_nat i) new Hem Hb) as (w' & s' & r & E & J & R & Hh & Hc); [by rewrite P1 | done | |].
  { apply arr_get_Some. split; [lia|]. rewrite Nat2Z.id, J1. by apply list_lookup_insert_eq. }
  exists w', s', r. split; [by rewrite (bind_intro _ _ _ _ _ _ E1 eq_refl)|]. split; [done|]. split; [done|]. split; [done|].
  unfold waiting. rewrite J, J1, Nat2Z.id, list_insert_insert_eq. f_equal. rewrite <- (take_drop_middle _ _ _ Hj) at 2.
  rewrite insert_take_drop by done. rewrite !List.filter_app. simpl. by rewrite Hu.
Qed.

(** The exit of an application nobody waits for. *)
Theorem exit_without_join {W : Type} `{!Kernel W, !Pages W} (m0 : message) (w : W) (s : appmgr) (m : message) (proc : aproc)
    (Hm : header m = API_EXIT_APP_MSG)
    (Hproc : List.find (fun p => ap_pager_ch p =? from m) (am_processes s) = Some proc)
    (Hnone : Forall (fun j => j_using j && (j_target j =? ap_pid proc) = false) (am_joins s)) :
  process_message m0 m (w, s) = Panic.
Proof.
  rewrite (dispatch_exit m0 m Hm).
  unfold handle_api_exit_app, get_process_by_cid, statics, gets. unfold bind at 1 2. cbn [snd]. unfold ret at 1. rewrite Hproc.
  unfold bind at 1. cbn [snd]. by rewrite find_index_None.
Qed.

#[export] Instance qworld_pages : Pages qworld := fun _ _ => [].

Definition ex_appmgr : appmgr :=
  Appmgr 1 [AProc 5 9 None (ElfFile 0 0 0) 0] [] (AppFile false 0 0) [Join false 0 0; Join false 0 0]
    (Heap [] HEAP_AREA_START VALLOC_AREA_START).
Definition ex_join : message := Message API_JOIN_APP_MSG 3 0 0 0 (5 :: replicate 500 0).
Definition ex_exit : message := Message API_EXIT_APP_MSG 9 0 0 0 (42 :: replicate 500 0).

Lemma exit_reaches_waiter_witness : exists w' s' r,
  (process_message (ex_msg 0 0) ex_join ;;; process_message (ex_msg 0 0) ex_exit) (QWorld (ex_msg 0 0) [] [], ex_appmgr) =
    Done ((DONT_REPLY, ex_exit), (w', s')) /\ sent w' = [(3, r)] /\ s8 (field 0 1 (data r)) = 42.
Proof.
  destruct (exit_reaches_waiter (ex_msg 0 0) (QWorld (ex_msg 0 0) [] []) ex_appmgr ex_join ex_exit (AProc 5 9 None (ElfFile 0 0 0) 0))
    as (w' & s' & r & E & R & _ & Hc & _).
  - vm_compute. discriminate.
  - split; vm_compute; discriminate.
  - reflexivity.
  - reflexivity.
  - constructor. reflexivity.
  - reflexivity.
  - reflexivity.
  - constructor.
  - exists w', s', r. split; [exact E|]. split; [exact R | exact Hc].
Defined.

(** ** Page faults *)

(** A system call leaves the static variables alone. *)
Definition keeps {W V A} (m : M (W * V) A) : Prop := forall s a s', m s = Done (a, s') -> s'.2 = s.2.

Section Keeps.
Context {W V : Type} `{!Kernel W}.

Lemma keeps_bind {A B} (m : M (W * V) A) (k : A -> M (W * V) B) : keeps m -> (forall a, keeps (k a)) -> keeps (bind m k).
Proof. intros Hm Hk s b s' E. mstep E. rewrite (Hk _ _ _ _ E). exact (Hm _ _ _ Hrun). Qed.

Lemma keeps_ret {A} (a : A) : keeps (ret (S := W * V) a).
Proof. intros s b s' [= <- <-]. done. Qed.

Lemma keeps_gets {A} (f : W * V -> A) : keeps (gets f).
Proof. intros s b s' [= <- <-]. done. Qed.

Lemma keeps_lift {A} (o : outcome A) : keeps (lift (S := W * V) o).
Proof. intros s b s' E. unfold lift in E. destruct o; simpl in E; [by injection E as <- <-|done..]. Qed.

Lemma keeps_modify f : (forall s, (f s).2 = s.2) -> keeps (modify (S := W * V) f).
Proof. intros H s b s' [= <- <-]. apply H. Qed.

Lemma keeps_on_fst {A} (m : M W A) : keeps (on_fst (V := V) m).
Proof. intros s b s' E. unfold on_fst in E. destruct (m s.1) as [[x y]| | |]; [by injection E as <- <-|done..]. Qed.

Lemma keeps_call_stub ch m base : keeps (call_stub (W := W * V) ch m base).
Proof.
  unfold call_stub, ipc_call, copy_to_ipc_buffer, post_receive_work, copy_from_ipc_buffer.
  repeat first [apply keeps_bind; [|intros ?] | apply keeps_ret | apply keeps_gets | apply keeps_lift
    | apply keeps_on_fst | apply keeps_modify; done | case_match].
Qed.
End Keeps.

Section Faults.
Context {W : Type} `{!Kernel W, !Pages W} (m0 : message).

Definition area (s : W * appmgr) : Z := valloc_area_bottom (am_heap s.2).

(** Addresses for 4096 pages were taken. *)
Definition took (s s' : W * appmgr) : Prop := area s' = u64 (area s + 4096 * PAGE_SIZE) /\ area s' < VALLOC_AREA_END.

Lemma valloc_took s a s' : am_valloc (W := W) 4096 s = Done (a, s') -> took s s'.
Proof.
  unfold am_valloc, on_static. intros E. destruct (valloc 4096 (am_heap s.2)) as [[b h]| | |] eqn:Ev; try done.
  injection E as <- <-. unfold valloc in Ev. mstep Ev. injection Hrun as <- <-. mstep Ev. mstep Ev. mstep Ev.
  unfold lift in Hrun. destruct (ulllog2 4096); try done. injection Hrun as <- <-. injection Hrun0 as <-. 
  unfold c_assert in Hrun1. destruct (_ <? VALLOC_AREA_END) eqn:Hlt; [|done]. injection Hrun1 as <- <-. injection Ev as <- <-.
  apply Z.ltb_lt in Hlt. subst s1. split; [reflexivity | exact Hlt].
Qed.

Lemma area_keeps {A} (m : M (W * appmgr) A) s a s' : keeps m -> m s = Done (a, s') -> area s' = area s.
Proof. intros Hm E. unfold area. by rewrite (Hm _ _ _ E). Qed.

Lemma took_keeps {A} (m : M (W * appmgr) A) s s1 a s' : keeps m -> took s s1 -> m s1 = Done (a, s') -> took s s'.
Proof. intros Hm Ht E. unfold took. by rewrite (area_keeps m s1 a s' Hm E). Qed.

Ltac keeps := unfold call_fs_read, call_memory_alloc_pages, statics, need, c_assert;
  repeat first [apply keeps_call_stub | apply keeps_bind; [|intros ?] | apply keeps_ret | apply keeps_gets | apply keeps_lift | case_match
    | by intros ? ? ? [=]].

Lemma fill_loop_took n : forall i proc addr s r s', fill_loop m0 n i proc addr s = Done (r, s') ->
  match r with Some _ => took s s' | None => area s' = area s end.
Proof.
  induction n as [|n IH]; intros i proc addr s r s' E; [by injection E as <- <-|]. cbn [fill_loop] in E.
  mstep E. injection Hrun as <- <-. mstep E. apply (area_keeps _ _ _ _ (keeps_lift _)) in Hrun.
  destruct ((p_vaddr a <=? addr) && _).
  - mstep E. apply valloc_took in Hrun0. assert (took s s') as H.
    { refine (_ (took_keeps _ s0 s1 _ s' _ Hrun0 E)); [unfold took; by rewrite Hrun | keeps]. }
    assert (exists d, r = Some d) as [d ->]; [|done].
    mstep E. mstep E. mstep E. mstep E. destruct a4 as [err dd]. mstep E. injection E as <- <-. eauto.
  - apply IH in E. unfold took in *. by rewrite <- Hrun.
Qed.

Lemma fill_took m s r s' : header m = PAGER_FILL_MSG -> process_message m0 m s = Done (r, s') -> took s s'.
Proof.
  intros Hh E. rewrite (dispatch_fill m0 m Hh) in E. unfold handle_pager_fill in E. mstep E.
  apply area_keeps in Hrun; [|unfold get_process_by_pid; keeps]. destruct a as [proc|]; [|done]. mstep E.
  apply fill_loop_took in Hrun0. destruct a as [d|].
  - injection E as <- <-. unfold took in *. by rewrite <- Hrun.
  - mstep E. apply valloc_took in Hrun1.
    refine (_ (took_keeps _ _ _ _ s' _ Hrun1 E)); [unfold took; by rewrite Hrun0, Hrun | keeps].
Qed.
End Faults.

(** Requests one after the other. *)
Fixpoint serve_all {W} `{!Kernel W, !Pages W} (m0 : message) (ms : list message) : M (W * appmgr) unit :=
  match ms with
  | [] => ret tt
  | m :: ms => process_message m0 m ;;; serve_all m0 ms
  end.

Lemma serve_all_area {W} `{!Kernel W, !Pages W} (m0 : message) ms : forall (s s' : W * appmgr),
  Forall (fun m => header m = PAGER_FILL_MSG) ms -> VALLOC_AREA_START <= area s < VALLOC_AREA_END ->
  serve_all m0 ms s = Done (tt, s') -> area s + Z.of_nat (length ms) * 2 ^ 24 = area s' /\ area s' < VALLOC_AREA_END.
Proof.
  induction ms as [|m ms IH]; intros s s' Hms Ha E; [injection E as <-; simpl; lia|].
  apply Forall_cons in Hms as [Hm Hms]. cbn [serve_all] in E. mstep E. destruct (fill_took m0 m s a s0 Hm Hrun) as [H1 H2].
  unfold u64, VALLOC_AREA_START, VALLOC_AREA_END, PAGE_SIZE in *. rewrite Z.mod_small in H1 by lia.
  destruct (IH s0 s' Hms) as [H3 H4]; [lia | done|]. split; [|done]. simpl length. lia.
Qed.

(** Appmgr runs out of addresses.  For every page it fills, appmgr reserves
    4096 pages of its address area, because it passes the size of a page in bytes to
    [valloc], which takes pages; nothing is given back.  Whatever the kernel, the
    applications and the other servers do, it cannot serve more than 31 page faults
    in all: the next one fails an assertion of [valloc]. *)
Theorem page_faults_exhaust_appmgr {W : Type} `{!Kernel W, !Pages W} (m0 : message) (ms : list message) (s s' : W * appmgr)
    (Hms : Forall (fun m => header m = PAGER_FILL_MSG) ms) (Harea : area s = VALLOC_AREA_START)
    (Hrun : serve_all m0 ms s = Done (tt, s')) :
  (length ms <= 31)%nat.
Proof.
  destruct (serve_all_area m0 ms s s' Hms) as [H1 H2]; [rewrite Harea; vm_compute; split; congruence | done|].
  rewrite Harea in H1. unfold VALLOC_AREA_START, VALLOC_AREA_END in *. lia.
Qed.

Definition ex_fill : message := Message PAGER_FILL_MSG 9 0 0 0 (5 :: replicate 500 0).
Definition ex_page : message := Message MEMORY_ALLOC_PAGES_REPLY_MSG 1 0 0 0xa0000000 (replicate 500 0).
Definition ex_served : qworld * appmgr :=
  match serve_all (ex_msg 0 0) [ex_fill; ex_fill] (QWorld (ex_msg 0 0) [ex_page; ex_page] [], ex_appmgr) with
  | Done (_, s) => s
  | _ => (QWorld (ex_msg 0 0) [] [], ex_appmgr)
  end.

Lemma page_faults_exhaust_appmgr_witness :
  serve_all (ex_msg 0 0) [ex_fill; ex_fill] (QWorld (ex_msg 0 0) [ex_page; ex_page] [], ex_appmgr) = Done (tt, ex_served) /\
  (length [ex_fill; ex_fill] <= 31)%nat.
Proof.
  assert (E : serve_all (ex_msg 0 0) [ex_fill; ex_fill] (QWorld (ex_msg 0 0) [ex_page; ex_page] [], ex_appmgr) = Done (tt, ex_served))
    by (vm_compute; reflexivity).
  split; [exact E|].
  apply (page_faults_exhaust_appmgr (ex_msg 0 0) [ex_fill; ex_fill] (QWorld (ex_msg 0 0) [ex_page; ex_page] [], ex_appmgr) ex_served).
  - repeat constructor.
  - reflexivity.
  - exact E.
Defined.
