(* ===== verification/EnaLexer.v ===== *)
(** * ena: the lexer

    [tiny-script-interpreter/src/lexer.c] and the string functions of [utils.c] it
    uses.  A script is the sequence of its characters without the terminating zero;
    reading the character after the last one gives 0, and reading anything else
    outside it is undefined.  [SYNTAX_ERROR] jumps out of the parser: it is the
    outcome [Panic]. *)
From S2P Require Import Prelude.
From Stdlib Require Ascii String.
Import String.StringSyntax.
#[local] Open Scope Z_scope.

Bind Scope string_scope with String.string.

(** The characters of a string. *)
Definition chars (s : String.string) : list Z :=
  map (fun c => Z.of_N (Ascii.N_of_ascii c)) (String.list_ascii_of_string s).
Definition char (s : String.string) : Z := hd 0 (chars s).

Inductive ena_token_type :=
| T_UNKNOWN | T_EOF | T_ID | T_INT_LIT | T_STRING_LIT | T_PLUS | T_MINUS | T_ASTERISK | T_SLASH | T_PERCENT
| T_DOUBLECOLON | T_SEMICOLON | T_LPAREN | T_RPAREN | T_LBRACKET | T_RBRACKET | T_LBRACE | T_RBRACE | T_DOT | T_COMMA
| T_EQ | T_ADD_ASSIGN | T_SUB_ASSIGN | T_MUL_ASSIGN | T_DIV_ASSIGN | T_MOD_ASSIGN | T_DOUBLE_EQ | T_NEQ
| T_LT | T_LTE | T_GT | T_GTE | T_VAR | T_FUNC | T_WHILE | T_CONTINUE | T_BREAK | T_IF | T_ELSE | T_RETURN
| T_TRUE | T_FALSE | T_CLASS | T_NULL | T_NOT | T_OR | T_AND.
#[export] Instance ena_token_type_dec : EqDecision ena_token_type.
Proof. solve_decision. Defined.
Definition token_is (a b : ena_token_type) : bool := bool_decide (a = b).

Record ena_token := Token { type : ena_token_type; str : list Z; line : Z }.
Record ena_lexer := Lexer { next_pos : Z; current_line : Z; script : list Z }.

Module Lex.

(** ** utils.c *)

Definition ena_isdigit (c : Z) : bool := (char "0" <=? c) && (c <=? char "9").
Definition ena_isupper (c : Z) : bool := (char "A" <=? c) && (c <=? char "Z").
Definition ena_isalpha (c : Z) : bool := ena_isupper c || ((char "a" <=? c) && (c <=? char "z")).
Definition ena_isalnum (c : Z) : bool := ena_isdigit c || ena_isalpha c.

(** Strings without their terminating zero. *)
Fixpoint ena_strncmp (s1 s2 : list Z) (n : Z) : Z :=
  match s1, s2 with
  | c1 :: t1, c2 :: t2 =>
      if negb (c1 - c2 =? 0) then c1 - c2
      else if u64 (n - 1) =? 0 then c1 - c2
      else ena_strncmp t1 t2 (u64 (n - 1))
  | _, _ => hd 0 s1 - hd 0 s2
  end.

Definition INT_MAX : Z := 2 ^ 31 - 1.
Definition INT_MIN : Z := - 2 ^ 31.
(** The result of arithmetic on [int]s. *)
Definition as_int (x : Z) : outcome Z := if (INT_MIN <=? x) && (x <=? INT_MAX) then Done x else Undef.

Fixpoint str2int_loop (base r : Z) (s : list Z) : outcome Z :=
  match s with
  | [] => Done r
  | ch :: s =>
      let value := if ena_isalpha ch then (if ena_isupper ch then ch - char "A" else ch - char "a") + 10 else ch - char "0" in
      outcome_bind (as_int (r * base)) (fun p =>
      outcome_bind (as_int (p + value)) (fun r =>
      str2int_loop base r s))
  end.
Definition ena_str2int (s : list Z) : outcome Z :=
  match s with
  | c0 :: c1 :: t => if c0 =? char "0" then (if c1 =? char "x" then str2int_loop 16 0 t else Done 0) else str2int_loop 10 0 s
  | _ => str2int_loop 10 0 s
  end.

(** ** lexer.c *)

Definition set_next_pos (p : Z) : M ena_lexer unit := modify (fun s => Lexer p (current_line s) (script s)).
Definition set_current_line (n : Z) : M ena_lexer unit := modify (fun s => Lexer (next_pos s) n (script s)).

Definition ena_get_next_char : M ena_lexer Z :=
  s <- get ;;
  if next_pos s =? Z.of_nat (length (script s)) then ret 0
  else if Z.of_nat (length (script s)) <? next_pos s then undef
  else
    ch <- need (arr_get (script s) (next_pos s)) ;;
    set_next_pos (u64 (next_pos s + 1)) ;;;
    ret ch.

Definition pushback_chars (num : Z) : M ena_lexer unit := s <- get ;; set_next_pos (u64 (next_pos s - num)).
Definition skip_chars (num : Z) : M ena_lexer unit := s <- get ;; set_next_pos (u64 (next_pos s + num)).
Definition fetch_next_char : M ena_lexer Z := nextc <- ena_get_next_char ;; pushback_chars 1 ;;; ret nextc.
Definition next_line : M ena_lexer unit := s <- get ;; set_current_line (current_line s + 1).

Definition ena_pushback_token (t : ena_token) : M ena_lexer unit :=
  s <- get ;;
  set_next_pos (u64 (next_pos s - Z.of_nat (length (str t)))) ;;;
  set_current_line (line t).

(** The type of the identifier or keyword of [str_len] characters at [s]. *)
Definition special (s : list Z) (name : String.string) (num : Z) : bool := ena_strncmp s (chars name) num =? 0.
Definition id_type (s : list Z) (str_len : Z) : ena_token_type :=
  if str_len =? 2 then
    if special s "if" 2 then T_IF else if special s "or" 2 then T_OR else T_ID
  else if str_len =? 3 then
    if special s "var" 3 then T_VAR else if special s "not" 3 then T_NOT else if special s "and" 3 then T_AND else T_ID
  else if str_len =? 4 then
    if special s "if" 4 then T_IF else if special s "null" 4 then T_NULL else if special s "true" 4 then T_TRUE
    else if special s "func" 4 then T_FUNC else T_ID
  else if str_len =? 5 then
    if special s "false" 5 then T_FALSE else if special s "while" 5 then T_WHILE else if special s "break" 5 then T_BREAK
    else if special s "class" 5 then T_CLASS else T_ID
  else if str_len =? 6 then if special s "return" 6 then T_RETURN else T_ID
  else if str_len =? 8 then if special s "continue" 8 then T_CONTINUE else T_ID
  else T_ID.

(** The loop over the characters of an identifier: its type and length.  At the end
    of the script the type is still the initial one. *)
Fixpoint id_loop (fuel : nat) (start str_len : Z) : M ena_lexer (ena_token_type * Z) :=
  match fuel with
  | O => no_fuel
  | S fuel =>
      let str_len := str_len + 1 in
      nextc <- ena_get_next_char ;;
      if nextc =? 0 then ret (T_UNKNOWN, str_len)
      else if ena_isalnum nextc || (nextc =? char "_") then id_loop fuel start str_len
      else
        pushback_chars 1 ;;;
        s <- get ;;
        ret (id_type (drop (Z.to_nat start) (script s)) str_len, str_len)
  end.

Fixpoint int_loop (fuel : nat) (str_len : Z) : M ena_lexer Z :=
  match fuel with
  | O => no_fuel
  | S fuel =>
      let str_len := str_len + 1 in
      nextc <- ena_get_next_char ;;
      if nextc =? 0 then ret str_len
      else if ena_isdigit nextc then int_loop fuel str_len
      else pushback_chars 1 ;;; ret str_len
  end.

Definition QUOTE : Z := 34.
Definition BACKSLASH : Z := 92.
Definition NEWLINE : Z := 10.
Definition TAB : Z := 9.

Fixpoint string_loop (fuel : nat) (str_len prevc : Z) : M ena_lexer Z :=
  match fuel with
  | O => no_fuel
  | S fuel =>
      let str_len := str_len + 1 in
      nextc <- ena_get_next_char ;;
      if nextc =? 0 then ret str_len
      else if (nextc =? QUOTE) && negb (prevc =? BACKSLASH) then ret (str_len + 1)
      else string_loop fuel str_len nextc
  end.

(** A block comment; false at the end of the script. *)
Fixpoint block_comment (fuel : nat) (depth prevc : Z) : M ena_lexer bool :=
  match fuel with
  | O => no_fuel
  | S fuel =>
      nextc <- ena_get_next_char ;;
      if nextc =? 0 then ret false
      else
        (if nextc =? NEWLINE then next_line else ret tt) ;;;
        let depth := if (prevc =? char "/") && (nextc =? char "*") then depth + 1 else depth in
        if (prevc =? char "*") && (nextc =? char "/") then
          if depth - 1 =? 0 then ret true else block_comment fuel (depth - 1) nextc
        else block_comment fuel depth nextc
  end.

Fixpoint line_comment (fuel : nat) : M ena_lexer bool :=
  match fuel with
  | O => no_fuel
  | S fuel =>
      nextc <- ena_get_next_char ;;
      if nextc =? 0 then ret false
      else if nextc =? NEWLINE then ret true
      else line_comment fuel
  end.

(** [return_token]: [ena_strndup] writes the terminating zero at [str_len]. *)
Definition make_token (t : ena_token_type) (start str_len : Z) : M ena_lexer ena_token :=
  s <- get ;;
  if start + str_len <=? Z.of_nat (length (script s))
  then ret (Token t (take (Z.to_nat str_len) (drop (Z.to_nat start) (script s))) (current_line s))
  else undef.

(** An operator that may be followed by [=]. *)
Definition with_eq (start : Z) (eq plain : ena_token_type) : M ena_lexer ena_token :=
  nextc <- fetch_next_char ;;
  if nextc =? char "=" then skip_chars 1 ;;; make_token eq start 2 else make_token plain start 1.

Definition single (nextc : Z) : option ena_token_type :=
  if nextc =? char ";" then Some T_SEMICOLON else if nextc =? char ":" then Some T_DOUBLECOLON
  else if nextc =? char "(" then Some T_LPAREN else if nextc =? char ")" then Some T_RPAREN
  else if nextc =? char "[" then Some T_LBRACKET else if nextc =? char "]" then Some T_RBRACKET
  else if nextc =? char "{" then Some T_LBRACE else if nextc =? char "}" then Some T_RBRACE
  else if nextc =? char "." then Some T_DOT else if nextc =? char "," then Some T_COMMA
  else None.
Definition double (nextc : Z) : option (ena_token_type * ena_token_type) :=
  if nextc =? char "!" then Some (T_NEQ, T_UNKNOWN) else if nextc =? char "+" then Some (T_ADD_ASSIGN, T_PLUS)
  else if nextc =? char "-" then Some (T_SUB_ASSIGN, T_MINUS) else if nextc =? char "*" then Some (T_MUL_ASSIGN, T_ASTERISK)
  else if nextc =? char "%" then Some (T_MOD_ASSIGN, T_PERCENT) else if nextc =? char "<" then Some (T_LTE, T_LT)
  else if nextc =? char ">" then Some (T_GTE, T_GT) else if nextc =? char "=" then Some (T_DOUBLE_EQ, T_EQ)
  else None.

(** The token at the position; [fuel] bounds the jumps to [retry]. *)
Fixpoint get_token (fuel : nat) : M ena_lexer ena_token :=
  match fuel with
  | O => no_fuel
  | S fuel =>
      s <- get ;;
      let start := next_pos s in
      let n := S (length (script s)) in
      nextc <- ena_get_next_char ;;
      if nextc =? 0 then make_token T_EOF start 0
      else if ena_isalpha nextc || (nextc =? char "_") then
        let* (t, str_len) := id_loop n start 0 in make_token t start str_len
      else if ena_isdigit nextc then str_len <- int_loop n 0 ;; make_token T_INT_LIT start str_len
      else if nextc =? QUOTE then str_len <- string_loop n 0 0 ;; make_token T_STRING_LIT start str_len
      else
        match single nextc, double nextc with
        | Some t, _ => make_token t start 1
        | None, Some (eq, plain) => with_eq start eq plain
        | None, None =>
            if nextc =? char "/" then
              c <- fetch_next_char ;;
              if c =? char "*" then
                closed <- block_comment n 0 (char "/") ;;
                if closed then get_token fuel else make_token T_EOF start 1
              else if c =? char "/" then
                closed <- line_comment n ;;
                if closed then next_line ;;; get_token fuel else make_token T_EOF start 1
              else if c =? char "=" then skip_chars 1 ;;; make_token T_DIV_ASSIGN start 2
              else make_token T_SLASH start 1
            else if nextc =? NEWLINE then next_line ;;; get_token fuel
            else if (nextc =? char " ") || (nextc =? TAB) then get_token fuel
            else panic
        end
  end.

Definition ena_get_next_token : M ena_lexer ena_token := s <- get ;; get_token (S (length (script s))).

Definition ena_fetch_next_token : M ena_lexer ena_token :=
  token <- ena_get_next_token ;; ena_pushback_token token ;;; ret token.
Definition ena_fetch_next_token_type : M ena_lexer ena_token_type :=
  token <- ena_get_next_token ;; ena_pushback_token token ;;; ret (type token).

Fixpoint ena_skip_tokens (num : nat) : M ena_lexer unit :=
  match num with O => ret tt | S num => ena_get_next_token ;;; ena_skip_tokens num end.

Definition ena_expect_token (expected_type : ena_token_type) : M ena_lexer ena_token :=
  token <- ena_get_next_token ;;
  if negb (token_is (type token) expected_type) then panic else ret token.

End Lex.
Import Lex.

(** ** Reading characters *)

(** What is left of the script at the position. *)
Record at_text (s : ena_lexer) (r : list Z) : Prop := AtText {
  at_pos : 0 <= next_pos s <= Z.of_nat (length (script s));
  at_len : Z.of_nat (length (script s)) < 2 ^ 63;
  at_rest : drop (Z.to_nat (next_pos s)) (script s) = r
}.
Definition adv (s : ena_lexer) (k : Z) : ena_lexer := Lexer (next_pos s + k) (current_line s) (script s).

Lemma adv_adv s a b : adv (adv s a) b = adv s (a + b).
Proof. unfold adv. simpl. f_equal. lia. Qed.
Lemma adv_0 s : adv s 0 = s.
Proof. unfold adv. rewrite Z.add_0_r. by destruct s. Qed.

Lemma at_text_app s w r : at_text s (w ++ r) -> at_text (adv s (Z.of_nat (length w))) r.
Proof.
  intros [Hp Hl Hr]. assert (Hn : (length w <= length (script s) - Z.to_nat (next_pos s))%nat).
  { rewrite <- length_drop, Hr, length_app. lia. }
  constructor; simpl; [lia | done|]. rewrite Z2Nat.inj_add, Nat2Z.id by lia. rewrite <- drop_drop, Hr. by apply drop_app_length.
Qed.

Lemma get_char_cons s c r : at_text s (c :: r) -> ena_get_next_char s = Done (c, adv s 1) /\ at_text (adv s 1) r.
Proof.
  intros H. split; [|by apply (at_text_app s [c])]. destruct H as [Hp Hl Hr].
  assert (Hlt : (Z.to_nat (next_pos s) < length (script s))%nat).
  { apply lookup_lt_is_Some. rewrite <- (Nat.add_0_r (Z.to_nat _)), <- lookup_drop, Hr. by eexists. }
  unfold ena_get_next_char. unfold bind at 1. cbn [get]. rewrite (proj2 (Z.eqb_neq _ _)), (proj2 (Z.ltb_ge _ _)) by lia.
  assert (Hc : arr_get (script s) (next_pos s) = Some c).
  { apply arr_get_Some. split; [lia|]. by rewrite <- (Nat.add_0_r (Z.to_nat _)), <- lookup_drop, Hr. }
  rewrite Hc. unfold bind at 1. cbn [need]. unfold ret at 1. cbv beta iota. unfold bind, set_next_pos, modify, ret, adv.
  by rewrite u64_small by lia.
Qed.

Lemma get_char_nil s : at_text s [] -> ena_get_next_char s = Done (0, s).
Proof.
  intros [Hp Hl Hr]. assert (Hn : next_pos s = Z.of_nat (length (script s))).
  { apply (f_equal length) in Hr. rewrite length_drop in Hr. simpl in Hr. lia. }
  unfold ena_get_next_char. unfold bind at 1. cbn [get]. by rewrite Hn, Z.eqb_refl.
Qed.

Lemma pushback_ok s k : 0 <= k <= next_pos s -> next_pos s < 2 ^ 64 -> pushback_chars k s = Done (tt, adv s (- k)).
Proof.
  intros H1 H2. unfold pushback_chars, bind, get, set_next_pos, modify, adv. by rewrite u64_small by lia.
Qed.
Lemma pushback_after s k : 0 <= k -> 0 <= next_pos s -> next_pos s + k < 2 ^ 64 -> pushback_chars k (adv s k) = Done (tt, s).
Proof. intros H1 H2 H3. rewrite pushback_ok by (simpl; lia). rewrite adv_adv, Z.add_opp_diag_r. by rewrite adv_0. Qed.

Lemma fetch_char_cons s c r : at_text s (c :: r) -> fetch_next_char s = Done (c, s).
Proof.
  intros H. destruct (get_char_cons _ _ _ H) as [E H']. destruct H as [Hp Hl _]. unfold fetch_next_char.
  rewrite (bind_intro _ _ _ _ _ _ E eq_refl). rewrite (bind_intro _ _ _ _ _ _ (pushback_after s 1 ltac:(lia) ltac:(lia) ltac:(lia)) eq_refl).
  done.
Qed.

(** ** Words, numbers and strings *)

Definition id_char (c : Z) : bool := ena_isalnum c || (c =? char "_").
Definition id_start (c : Z) : bool := ena_isalpha c || (c =? char "_").

Lemma digit_range c : ena_isdigit c = true <-> 48 <= c <= 57.
Proof. unfold ena_isdigit. change (char "0") with 48. change (char "9") with 57. rewrite andb_true_iff, !Z.leb_le. lia. Qed.
Lemma alpha_range c : ena_isalpha c = true <-> 65 <= c <= 90 \/ 97 <= c <= 122.
Proof.
  unfold ena_isalpha, ena_isupper. change (char "A") with 65. change (char "Z") with 90. change (char "a") with 97. change (char "z") with 122.
  rewrite orb_true_iff, !andb_true_iff, !Z.leb_le. lia.
Qed.
Lemma id_char_range c : id_char c = true <-> 48 <= c <= 57 \/ 65 <= c <= 90 \/ 97 <= c <= 122 \/ c = 95.
Proof.
  unfold id_char, ena_isalnum. change (char "_") with 95. rewrite !orb_true_iff, digit_range, alpha_range, Z.eqb_eq. lia.
Qed.
Lemma id_start_range c : id_start c = true <-> 65 <= c <= 90 \/ 97 <= c <= 122 \/ c = 95.
Proof. unfold id_start. change (char "_") with 95. rewrite orb_true_iff, alpha_range, Z.eqb_eq. lia. Qed.

Lemma id_loop_ok start w c r : Forall (fun c => id_char c = true) w -> id_char c = false -> c <> 0 ->
  forall fuel k s, at_text s (w ++ c :: r) -> (length w < fuel)%nat ->
  id_loop fuel start k s = Done ((id_type (drop (Z.to_nat start) (script s)) (k + Z.of_nat (length w) + 1), k + Z.of_nat (length w) + 1),
    adv s (Z.of_nat (length w))).
Proof.
  intros Hw Hc Hc0. induction Hw as [|x w Hx Hw IH]; intros [|fuel] k s Ht Hf; simpl in Hf; try lia; cbn [id_loop].
  - destruct (get_char_cons _ _ _ Ht) as [E _]. rewrite (bind_intro _ _ _ _ _ _ E eq_refl).
    rewrite (proj2 (Z.eqb_neq _ _) Hc0). unfold id_char in Hc. rewrite Hc. destruct Ht as [Hp Hl _].
    rewrite (bind_intro _ _ _ _ _ _ (pushback_after s 1 ltac:(lia) ltac:(lia) ltac:(lia)) eq_refl).
    unfold bind, get, ret. simpl. by rewrite adv_0, Z.add_0_r.
  - destruct (get_char_cons _ _ _ Ht) as [E Ht']. rewrite (bind_intro _ _ _ _ _ _ E eq_refl).
    rewrite (proj2 (Z.eqb_neq x 0)) by (apply id_char_range in Hx; lia). unfold id_char in Hx. rewrite Hx.
    rewrite (IH fuel (k + 1) (adv s 1) Ht') by lia. rewrite adv_adv. cbn [script adv length].
    replace (k + 1 + Z.of_nat (length w) + 1) with (k + Z.of_nat (S (length w)) + 1) by lia.
    replace (1 + Z.of_nat (length w)) with (Z.of_nat (S (length w))) by lia. done.
Qed.

Lemma int_loop_ok w c r : Forall (fun c => ena_isdigit c = true) w -> ena_isdigit c = false -> c <> 0 ->
  forall fuel k s, at_text s (w ++ c :: r) -> (length w < fuel)%nat ->
  int_loop fuel k s = Done (k + Z.of_nat (length w) + 1, adv s (Z.of_nat (length w))).
Proof.
  intros Hw Hc Hc0. induction Hw as [|x w Hx Hw IH]; intros [|fuel] k s Ht Hf; simpl in Hf; try lia; cbn [int_loop].
  - destruct (get_char_cons _ _ _ Ht) as [E _]. rewrite (bind_intro _ _ _ _ _ _ E eq_refl).
    rewrite (proj2 (Z.eqb_neq _ _) Hc0), Hc. destruct Ht as [Hp Hl _].
    rewrite (bind_intro _ _ _ _ _ _ (pushback_after s 1 ltac:(lia) ltac:(lia) ltac:(lia)) eq_refl).
    unfold ret. simpl. by rewrite adv_0, Z.add_0_r.
  - destruct (get_char_cons _ _ _ Ht) as [E Ht']. rewrite (bind_intro _ _ _ _ _ _ E eq_refl).
    rewrite (proj2 (Z.eqb_neq x 0)) by (apply digit_range in Hx; lia). rewrite Hx.
    rewrite (IH fuel (k + 1) (adv s 1) Ht') by lia. rewrite adv_adv. cbn [length].
    replace (k + 1 + Z.of_nat (length w) + 1) with (k + Z.of_nat (S (length w)) + 1) by lia.
    replace (1 + Z.of_nat (length w)) with (Z.of_nat (S (length w))) by lia. done.
Qed.

(** The characters between the quotes: a quote among them follows a backslash, and
    the last one is no backslash. *)
Fixpoint body_ok (prevc : Z) (b : list Z) : Prop :=
  match b with
  | [] => prevc <> BACKSLASH
  | c :: b => c <> 0 /\ (c = QUOTE -> prevc = BACKSLASH) /\ body_ok c b
  end.

Lemma string_loop_ok b r : forall prevc fuel k s, body_ok prevc b -> at_text s (b ++ QUOTE :: r) -> (length b < fuel)%nat ->
  string_loop fuel k prevc s = Done (k + Z.of_nat (length b) + 2, adv s (Z.of_nat (length b) + 1)).
Proof.
  induction b as [|x b IH]; intros prevc [|fuel] k s Hb Ht Hf; simpl in Hf; try lia; cbn [string_loop];
    destruct (get_char_cons _ _ _ Ht) as [E Ht']; rewrite (bind_intro _ _ _ _ _ _ E eq_refl).
  - simpl in Hb. change (QUOTE =? 0) with false. rewrite Z.eqb_refl, (proj2 (Z.eqb_neq _ _) Hb). cbn [andb negb].
    unfold ret. cbn [length]. by replace (k + 1 + 1) with (k + Z.of_nat 0 + 2) by lia.
  - destruct Hb as (H0 & Hq & Hb). rewrite (proj2 (Z.eqb_neq _ _) H0).
    assert ((x =? QUOTE) && negb (prevc =? BACKSLASH) = false) as ->.
    { destruct (Z.eqb_spec x QUOTE) as [->|]; [|done]. by rewrite (Hq eq_refl), Z.eqb_refl. }
    rewrite (IH x fuel (k + 1) (adv s 1) Hb Ht') by lia. rewrite adv_adv. cbn [length]. f_equal. f_equal; [lia | f_equal; lia].
Qed.

(** ** Tokens *)

(** The spellings of tokens. *)
Inductive lexeme : ena_token_type -> list Z -> Prop :=
| lexeme_word c w : id_start c = true -> Forall (fun c => id_char c = true) w ->
    lexeme (id_type (c :: w) (Z.of_nat (length (c :: w)))) (c :: w)
| lexeme_int c w : ena_isdigit c = true -> Forall (fun c => ena_isdigit c = true) w -> lexeme T_INT_LIT (c :: w)
| lexeme_string b : body_ok 0 b -> lexeme T_STRING_LIT (QUOTE :: b ++ [QUOTE])
| lexeme_single c t : single c = Some t -> lexeme t [c]
| lexeme_eq c eq plain : double c = Some (eq, plain) -> lexeme eq [c; char "="]
| lexeme_plain c eq plain : double c = Some (eq, plain) -> lexeme plain [c]
| lexeme_slash : lexeme T_SLASH [char "/"]
| lexeme_div : lexeme T_DIV_ASSIGN [char "/"; char "="].

(** Only the characters of the word decide about its type. *)
Lemma strncmp_app name : forall w r, w <> [] -> Z.of_nat (length w) < 2 ^ 64 ->
  ena_strncmp (w ++ r) name (Z.of_nat (length w)) = ena_strncmp w name (Z.of_nat (length w)).
Proof.
  induction name as [|c name IH]; intros [|x w] r Hw Hl; try done. cbn [app ena_strncmp].
  destruct (negb (x - c =? 0)); [done|].
  replace (Z.of_nat (length (x :: w)) - 1) with (Z.of_nat (length w)) by (simpl; lia). rewrite u64_small by (simpl in Hl; lia).
  destruct (Z.eqb_spec (Z.of_nat (length w)) 0) as [|Hn]; [done|]. apply IH; [by intros -> | simpl in Hl; lia].
Qed.

Lemma id_type_app w r : w <> [] -> Z.of_nat (length w) < 2 ^ 64 ->
  id_type (w ++ r) (Z.of_nat (length w)) = id_type w (Z.of_nat (length w)).
Proof.
  intros Hw Hl. unfold id_type, special. pose proof (fun name => strncmp_app name w r Hw Hl) as E.
  repeat match goal with |- context [Z.of_nat (length w) =? ?k] =>
    destruct (Z.eqb_spec (Z.of_nat (length w)) k) as [En|_]; [rewrite En in E; cbv iota; rewrite !E; reflexivity|] end. reflexivity.
Qed.

Lemma single_char c t : single c = Some t -> c <> 0 /\ id_start c = false /\ ena_isdigit c = false /\ (c =? QUOTE) = false.
Proof.
  unfold single. repeat (match goal with |- context [c =? ?k] => destruct (Z.eqb_spec c k) as [->|] end; [intros _; by vm_compute|]). done.
Qed.
Lemma double_char c p : double c = Some p ->
  c <> 0 /\ id_start c = false /\ ena_isdigit c = false /\ (c =? QUOTE) = false /\ single c = None.
Proof.
  unfold double. repeat (match goal with |- context [c =? ?k] => destruct (Z.eqb_spec c k) as [->|] end; [intros _; by vm_compute|]). done.
Qed.

Lemma make_token_ok t s w r k : at_text s (w ++ r) ->
  make_token t (next_pos s) (Z.of_nat (length w)) (adv s k) = Done (Token t w (current_line s), adv s k).
Proof.
  intros [Hp Hl Hr]. unfold make_token, bind, get. cbn [script adv current_line].
  assert (Hn : (length w <= length (script s) - Z.to_nat (next_pos s))%nat) by (rewrite <- length_drop, Hr, length_app; lia).
  rewrite (proj2 (Z.leb_le _ _)) by lia. rewrite Nat2Z.id, Hr, take_app_length. done.
Qed.

Lemma at_text_bound s r : at_text s r -> (length r <= length (script s))%nat.
Proof. intros [_ _ <-]. rewrite length_drop. lia. Qed.

Lemma with_eq_ok s0 eq plain c d r : at_text s0 (c :: d :: r) -> (d =? char "=") = false ->
  with_eq (next_pos s0) eq plain (adv s0 1) = Done (Token plain [c] (current_line s0), adv s0 1).
Proof.
  intros H Hd. destruct (get_char_cons _ _ _ H) as [_ H']. unfold with_eq.
  rewrite (bind_intro _ _ _ _ _ _ (fetch_char_cons _ _ _ H') eq_refl), Hd. apply (make_token_ok plain s0 [c] _ 1 H).
Qed.
Lemma with_eq_eq s0 eq plain c r : at_text s0 (c :: char "=" :: r) ->
  with_eq (next_pos s0) eq plain (adv s0 1) = Done (Token eq [c; char "="] (current_line s0), adv s0 2).
Proof.
  intros H. destruct (get_char_cons _ _ _ H) as [_ H']. pose proof (at_pos _ _ H). pose proof (at_len _ _ H). unfold with_eq.
  rewrite (bind_intro _ _ _ _ _ _ (fetch_char_cons _ _ _ H') eq_refl). change (char "=" =? char "=") with true. cbv iota.
  assert (E : skip_chars 1 (adv s0 1) = Done (tt, adv s0 2)).
  { unfold skip_chars, bind, get, set_next_pos, modify, adv. cbn [next_pos current_line script].
    rewrite u64_small by lia. do 3 f_equal. lia. }
  rewrite (bind_intro _ _ _ _ _ _ E eq_refl). apply (make_token_ok eq s0 [c; char "="] r 2 H).
Qed.

Ltac slash_token :=
  change (char "/" =? 0) with false; change (ena_isalpha (char "/") || _) with false; change (ena_isdigit (char "/")) with false;
  change (char "/" =? QUOTE) with false; change (single (char "/")) with (@None ena_token_type);
  change (double (char "/")) with (@None (ena_token_type * ena_token_type)); change (char "/" =? char "/") with true; cbv iota.

(** Spaces and tabs between tokens. *)
Definition blank (c : Z) : bool := (c =? char " ") || (c =? TAB).

Lemma blank_char c : blank c = true -> c <> 0 /\ id_char c = false /\ ena_isdigit c = false /\ (c =? char "=") = false /\
  (c =? char "*") = false /\ (c =? char "/") = false.
Proof. unfold blank. intros [->%Z.eqb_eq | ->%Z.eqb_eq]%orb_true_iff; by vm_compute. Qed.

(** A token that is followed by a blank. *)
Lemma get_token_ok t w d r fuel s : lexeme t w -> blank d = true -> at_text s (w ++ d :: r) ->
  get_token (S fuel) s = Done (Token t w (current_line s), adv s (Z.of_nat (length w))).
Proof.
  intros Hx Hbl H. destruct (blank_char d Hbl) as (Hd0 & Hdi & Hdd & Hde & Hda & Hds).
  pose proof (at_text_bound _ _ H) as Hn. rewrite length_app in Hn. simpl in Hn. cbn [get_token].
  destruct Hx as [c w Hc Hw|c w Hc Hw|b Hb|c t Hs|c eq plain Hd|c eq plain Hd| |];
    cbn [app] in H; destruct (get_char_cons _ _ _ H) as [E H']; unfold bind at 1; cbn [get];
    rewrite (bind_intro _ _ _ _ _ _ E eq_refl).
  - pose proof (proj1 (id_start_range c) Hc). rewrite (proj2 (Z.eqb_neq c 0)) by lia. unfold id_start in Hc. rewrite Hc.
    rewrite (bind_intro _ _ _ _ _ _ (id_loop_ok (next_pos s) w d r Hw Hdi Hd0 (S (length (script s))) 0 (adv s 1) H'
      ltac:(simpl in Hn; lia)) eq_refl).
    cbn [script adv]. rewrite (at_rest _ _ H), adv_adv.
    replace (0 + Z.of_nat (length w) + 1) with (Z.of_nat (length (c :: w))) by (simpl; lia).
    change (c :: w ++ d :: r) with ((c :: w) ++ d :: r).
    rewrite id_type_app by (done || (destruct H; simpl in *; lia)). replace (1 + Z.of_nat (length w)) with (Z.of_nat (length (c :: w))) by (simpl; lia).
    by apply make_token_ok with (r := d :: r).
  - pose proof (proj1 (digit_range c) Hc). rewrite (proj2 (Z.eqb_neq c 0)) by lia.
    assert (ena_isalpha c || (c =? char "_") = false) as ->.
    { destruct (ena_isalpha c || _) eqn:Ea; [|done]. apply (proj1 (id_start_range c)) in Ea. lia. }
    rewrite Hc. rewrite (bind_intro _ _ _ _ _ _ (int_loop_ok w d r Hw Hdd Hd0 (S (length (script s))) 0 (adv s 1) H'
      ltac:(simpl in Hn; lia)) eq_refl). rewrite adv_adv.
    replace (0 + Z.of_nat (length w) + 1) with (Z.of_nat (length (c :: w))) by (simpl; lia).
    replace (1 + Z.of_nat (length w)) with (Z.of_nat (length (c :: w))) by (simpl; lia).
    by apply make_token_ok with (r := d :: r).
  - change (QUOTE =? 0) with false. change (ena_isalpha QUOTE || _) with false. change (ena_isdigit QUOTE) with false.
    rewrite Z.eqb_refl. cbv iota. rewrite <- app_assoc in H'.
    rewrite (bind_intro _ _ _ _ _ _ (string_loop_ok b _ 0 (S (length (script s))) 0 (adv s 1) Hb H'
      ltac:(simpl in Hn; rewrite length_app in Hn; simpl in Hn; lia)) eq_refl). rewrite adv_adv.
    replace (0 + Z.of_nat (length b) + 2) with (Z.of_nat (length (QUOTE :: b ++ [QUOTE]))) by (simpl; rewrite length_app; simpl; lia).
    replace (1 + (Z.of_nat (length b) + 1)) with (Z.of_nat (length (QUOTE :: b ++ [QUOTE]))) by (simpl; rewrite length_app; simpl; lia).
    by apply make_token_ok with (r := d :: r).
  - destruct (single_char _ _ Hs) as (H0 & H1 & H2 & H3). unfold id_start in H1. rewrite (proj2 (Z.eqb_neq _ _) H0), H1, H2, H3, Hs.
    apply (make_token_ok t s [c] _ 1 H).
  - destruct (double_char _ _ Hd) as (H0 & H1 & H2 & H3 & H4). unfold id_start in H1.
    rewrite (proj2 (Z.eqb_neq _ _) H0), H1, H2, H3, H4, Hd. by apply (with_eq_eq s eq plain c (d :: r)).
  - destruct (double_char _ _ Hd) as (H0 & H1 & H2 & H3 & H4). unfold id_start in H1.
    rewrite (proj2 (Z.eqb_neq _ _) H0), H1, H2, H3, H4, Hd. by apply (with_eq_ok s eq plain c d r).
  - slash_token. rewrite (bind_intro _ _ _ _ _ _ (fetch_char_cons _ _ _ H') eq_refl), Hda, Hds, Hde.
    apply (make_token_ok T_SLASH s [char "/"] _ 1 H).
  - slash_token. rewrite (bind_intro _ _ _ _ _ _ (fetch_char_cons _ _ _ H') eq_refl).
    pose proof (with_eq_eq s T_DIV_ASSIGN T_SLASH (char "/") _ H) as E2. unfold with_eq in E2.
    rewrite (bind_intro _ _ _ _ _ _ (fetch_char_cons _ _ _ H') eq_refl) in E2. exact E2.
Qed.

(** A blank before a token. *)
Lemma get_token_blank d r fuel s : blank d = true -> at_text s (d :: r) -> get_token (S fuel) s = get_token fuel (adv s 1).
Proof.
  intros Hd H. destruct (get_char_cons _ _ _ H) as [E _]. cbn [get_token]. unfold bind at 1. cbn [get].
  rewrite (bind_intro _ _ _ _ _ _ E eq_refl). unfold blank in Hd.
  apply orb_true_iff in Hd as [->%Z.eqb_eq | ->%Z.eqb_eq]; reflexivity.
Qed.

(** ** Sequences of tokens *)

(** A text that consists of tokens with blanks between them and after the last one. *)
Inductive spells : list (ena_token_type * list Z) -> list Z -> Prop :=
| spells_nil bl : Forall (fun c => blank c = true) bl -> spells [] bl
| spells_cons bl t w d ts r : Forall (fun c => blank c = true) bl -> lexeme t w -> blank d = true ->
    spells ts (d :: r) -> spells ((t, w) :: ts) (bl ++ w ++ d :: r).

(** The lexer is in line [l], before the tokens [ts]. *)
Definition at_tokens (l : Z) (ts : list (ena_token_type * list Z)) (s : ena_lexer) : Prop :=
  current_line s = l /\ exists r, at_text s r /\ spells ts r.

Lemma get_token_blanks bl r : Forall (fun c => blank c = true) bl -> forall fuel s, at_text s (bl ++ r) ->
  get_token (length bl + fuel) s = get_token fuel (adv s (Z.of_nat (length bl))).
Proof.
  induction 1 as [|d bl Hd Hbl IH]; intros fuel s H; [by rewrite adv_0|]. cbn [length Nat.add app] in *.
  rewrite (get_token_blank d (bl ++ r)) by done. destruct (get_char_cons _ _ _ H) as [_ H'].
  rewrite IH by done. rewrite adv_adv. do 2 f_equal. lia.
Qed.

(** The lexer skips blanks with the fuel it gives itself. *)
Lemma next_token_blanks bl r s : Forall (fun c => blank c = true) bl -> at_text s (bl ++ r) ->
  exists fuel, ena_get_next_token s = get_token (S fuel) (adv s (Z.of_nat (length bl))).
Proof.
  intros Hbl H. pose proof (at_text_bound _ _ H) as Hn. rewrite length_app in Hn. unfold ena_get_next_token, bind, get.
  exists (length (script s) - length bl)%nat. rewrite <- (get_token_blanks bl r Hbl _ _ H). f_equal. lia.
Qed.

Lemma next_token_ok l t w ts s : at_tokens l ((t, w) :: ts) s ->
  exists s', ena_get_next_token s = Done (Token t w l, s') /\ at_tokens l ts s' /\
    exists s0, at_tokens l ((t, w) :: ts) s0 /\ s' = adv s0 (Z.of_nat (length w)).
Proof.
  intros (<- & r & Ht & Hs). inversion Hs as [|bl ? ? d ? r' Hbl Hx Hd Hr]; subst.
  destruct (next_token_blanks _ _ _ Hbl Ht) as [fuel ->]. pose proof (at_text_app _ _ _ Ht) as Ht'.
  rewrite (get_token_ok t w d r' fuel _ Hx Hd Ht'). eexists. split; [reflexivity|]. split; [split; [done|]|].
  - exists (d :: r'). split; [by apply at_text_app | done].
  - eexists. split; [|reflexivity]. split; [done|]. exists ([] ++ w ++ d :: r'). split; [done|]. by constructor.
Qed.

(** At the end. *)
Lemma next_token_eof l s : at_tokens l [] s -> exists s', ena_get_next_token s = Done (Token T_EOF [] l, s') /\ at_tokens l [] s'.
Proof.
  intros (<- & r & Ht & Hs). inversion Hs as [bl Hbl|]; subst. rewrite <- (app_nil_r r) in Ht.
  destruct (next_token_blanks _ _ _ Hbl Ht) as [fuel ->]. pose proof (at_text_app _ _ _ Ht) as Ht'.
  exists (adv s (Z.of_nat (length r))). split; [|split; [done|]; exists []; split; [done | by constructor]].
  cbn [get_token]. unfold bind at 1. cbn [get]. rewrite (bind_intro _ _ _ _ _ _ (get_char_nil _ Ht') eq_refl).
  pose proof (make_token_ok T_EOF _ [] [] 0 Ht') as E. rewrite adv_0 in E. exact E.
Qed.

Lemma pushback_token_ok t w l s : 0 <= next_pos s -> next_pos s + Z.of_nat (length w) < 2 ^ 64 -> current_line s = l ->
  ena_pushback_token (Token t w l) (adv s (Z.of_nat (length w))) = Done (tt, s).
Proof.
  intros H1 H2 H3. unfold ena_pushback_token, bind, get, set_next_pos, set_current_line, modify. simpl.
  rewrite u64_small by lia. do 2 f_equal. destruct s as [p l' sc]. simpl in *. subst. f_equal. lia.
Qed.

(** A look at the next token. *)
Definition head_type (ts : list (ena_token_type * list Z)) : ena_token_type := match ts with [] => T_EOF | t :: _ => t.1 end.

Lemma next_pushback_ok l ts s : at_tokens l ts s ->
  exists token s1 s2, ena_get_next_token s = Done (token, s1) /\ type token = head_type ts /\
    ena_pushback_token token s1 = Done (tt, s2) /\ at_tokens l ts s2.
Proof.
  intros H. destruct ts as [|[t w] ts].
  - destruct (next_token_eof _ _ H) as (s' & E & H'). exists (Token T_EOF [] l), s', s'. split; [done|]. split; [done|]. split; [|done].
    pose proof H' as (Hl & r & [Hp Hn _] & _). pose proof (pushback_token_ok T_EOF [] l s' ltac:(lia) ltac:(simpl; lia) Hl) as P.
    change (Z.of_nat (length [])) with 0 in P. by rewrite adv_0 in P.
  - destruct (next_token_ok _ _ _ _ _ H) as (s' & E & _ & s0 & H0 & ->). eexists _, _, s0. split; [exact E|].
    split; [done|]. split; [|done]. pose proof H0 as (Hl & r & Ht & Hs). inversion Hs as [|bl ? ? d ? r' Hbl Hx Hd Hr]; subst.
    pose proof (at_text_bound _ _ Ht) as Hb. pose proof (at_pos _ _ Ht). pose proof (at_len _ _ Ht). rewrite !length_app in Hb.
    by apply pushback_token_ok; [lia | lia |].
Qed.

Lemma fetch_type_ok l ts s : at_tokens l ts s ->
  exists s', ena_fetch_next_token_type s = Done (head_type ts, s') /\ at_tokens l ts s'.
Proof.
  intros H. destruct (next_pushback_ok _ _ _ H) as (token & s1 & s2 & E1 & Ht & E2 & H2). exists s2. split; [|done].
  unfold ena_fetch_next_token_type. rewrite (bind_intro _ _ _ _ _ _ E1 eq_refl), (bind_intro _ _ _ _ _ _ E2 eq_refl). by rewrite Ht.
Qed.

Lemma expect_ok l t w ts s : at_tokens l ((t, w) :: ts) s ->
  exists s', ena_expect_token t s = Done (Token t w l, s') /\ at_tokens l ts s'.
Proof.
  intros H. destruct (next_token_ok _ _ _ _ _ H) as (s' & E & H' & _). exists s'. split; [|done]. unfold ena_expect_token.
  rewrite (bind_intro _ _ _ _ _ _ E eq_refl). unfold token_is. cbn [type]. by rewrite bool_decide_true.
Qed.
