(* ===== verification/EnaParser.v ===== *)
(** * ena: the parser

    [tiny-script-interpreter/src/parser.c]: a recursive descent parser on the
    lexer.  The functions for expressions call each other only through
    [parse_expr], and those for statements through [parse_stmts]; these two have
    fuel, and the others are parameterised by them.  A rule returns no node where
    the code returns [NULL]. *)
From S2P Require Import Prelude EnaLexer.
Import Lex.

Inductive ena_node_type :=
| N_PROGRAM | N_STMTS | N_VAR | N_FUNC | N_CALL | N_ID_LIST | N_EXPR_LIST | N_IF | N_WHILE | N_BREAK | N_CONTINUE
| N_RETURN | N_TRUE | N_FALSE | N_NULL | N_INT_LIT | N_STRING_LIT | N_ID | N_OP_NOT | N_OP_OR | N_OP_AND | N_OP_ASSIGN
| N_OP_ADD | N_OP_SUB | N_OP_MUL | N_OP_DIV | N_OP_MOD | N_OP_EQ | N_OP_NEQ | N_OP_LT | N_OP_LTE | N_OP_GT | N_OP_GTE
| N_CLASS | N_PROP | N_LIST_LIT | N_MAP_LIT | N_MAP_ENTRY | N_INDEX.

(** [child] has the elements of the array that were set; [num_childs] is the number
    stored beside it, which also counts a child that is missing. *)
Inductive ena_node :=
| Node (n_type : ena_node_type) (token : option ena_token) (child : list ena_node) (num_childs literal lineno : Z).

Module Parser.

#[local] Abbreviation S := ena_lexer.

Definition create_node_with_token (t : ena_node_type) (token : option ena_token) (child : list ena_node) (num_childs : Z) :
    M S (option ena_node) :=
  s <- get ;; ret (Some (Node t token child num_childs 0 (current_line s))).
Definition create_node (t : ena_node_type) (child : list ena_node) (num_childs : Z) : M S (option ena_node) :=
  create_node_with_token t None child num_childs.
Definition create_int_literal_node (value : Z) : M S (option ena_node) :=
  s <- get ;; ret (Some (Node N_INT_LIT None [] 0 value (current_line s))).

Definition CONSUME (t : ena_token_type) : M S unit := ena_expect_token t ;;; ret tt.
Definition NEXT_TYPE : M S ena_token_type := ena_fetch_next_token_type.
Definition SKIP : M S unit := ena_skip_tokens 1.
Definition next_is (t : ena_token_type) : M S bool := n <- NEXT_TYPE ;; ret (token_is n t).

(** [set_nth_child] copies the node it is given. *)
Definition two_children (a b : option ena_node) : M S (list ena_node) := a <- need a ;; b <- need b ;; ret [a; b].
Definition child_of (a : option ena_node) : list ena_node := match a with Some a => [a] | None => [] end.

(** A comma is skipped if there is one. *)
Definition opt_comma : M S unit := b <- next_is T_COMMA ;; if b then CONSUME T_COMMA else ret tt.

Section Expr.
Variable parse_expr : M S (option ena_node).
(** For the rounds of loops. *)
Variable n : nat.

Fixpoint expr_list_loop (n : nat) (exprs : list ena_node) : M S (list ena_node) :=
  match n with
  | O => no_fuel
  | Datatypes.S n =>
      expr <- parse_expr ;;
      match expr with
      | None => ret exprs
      | Some expr => opt_comma ;;; expr_list_loop n (exprs ++ [expr])
      end
  end.
Definition parse_expr_list : M S (option ena_node) :=
  exprs <- expr_list_loop n [] ;;
  create_node_with_token N_EXPR_LIST None exprs (Z.of_nat (length exprs)).

Definition parse_list_lit : M S (option ena_node) :=
  elems <- parse_expr_list ;;
  CONSUME T_RBRACKET ;;;
  create_node N_LIST_LIT (child_of elems) 1.

Fixpoint map_loop (n : nat) (entries : list ena_node) : M S (list ena_node) :=
  match n with
  | O => no_fuel
  | Datatypes.S n =>
      b <- next_is T_RBRACE ;;
      if b then ret entries
      else
        key <- parse_expr ;;
        match key with
        | None => ret entries
        | Some _ =>
            CONSUME T_DOUBLECOLON ;;;
            value <- parse_expr ;;
            match value with
            | None => panic
            | Some _ =>
                childs <- two_children key value ;;
                entry <- create_node N_MAP_ENTRY childs 2 ;;
                entry <- need entry ;;
                opt_comma ;;;
                map_loop n (entries ++ [entry])
            end
        end
  end.
Definition parse_map_lit : M S (option ena_node) :=
  entries <- map_loop n [] ;;
  CONSUME T_RBRACE ;;;
  create_node N_MAP_LIT entries (Z.of_nat (length entries)).

Definition parse_primary : M S (option ena_node) :=
  token <- ena_get_next_token ;;
  match type token with
  | T_LPAREN => expr <- parse_expr ;; CONSUME T_RPAREN ;;; ret expr
  | T_NOT => expr <- parse_expr ;; create_node N_OP_NOT (child_of expr) 1
  | T_NULL => create_node N_NULL [] 0
  | T_TRUE => create_node N_TRUE [] 0
  | T_FALSE => create_node N_FALSE [] 0
  | T_MINUS =>
      token <- ena_get_next_token ;;
      v <- lift (ena_str2int (str token)) ;;
      v <- lift (as_int (- v)) ;;
      create_int_literal_node v
  | T_PLUS => token <- ena_get_next_token ;; v <- lift (ena_str2int (str token)) ;; create_int_literal_node v
  | T_INT_LIT => v <- lift (ena_str2int (str token)) ;; create_int_literal_node v
  | T_STRING_LIT => create_node_with_token N_STRING_LIT (Some token) [] 0
  | T_LBRACKET => parse_list_lit
  | T_LBRACE => parse_map_lit
  | T_ID => create_node_with_token N_ID (Some token) [] 0
  | _ => ena_pushback_token token ;;; ret None
  end.

Fixpoint unary_loop (n : nat) (expr : option ena_node) : M S (option ena_node) :=
  match n with
  | O => no_fuel
  | Datatypes.S n =>
      t <- NEXT_TYPE ;;
      match t with
      | T_LPAREN =>
          CONSUME T_LPAREN ;;;
          exprs <- parse_expr_list ;;
          CONSUME T_RPAREN ;;;
          childs <- two_children expr exprs ;;
          expr <- create_node N_CALL childs 2 ;;
          unary_loop n expr
      | T_LBRACKET =>
          CONSUME T_LBRACKET ;;;
          index <- parse_expr ;;
          CONSUME T_RBRACKET ;;;
          childs <- two_children expr index ;;
          expr <- create_node N_INDEX childs 2 ;;
          unary_loop n expr
      | T_DOT =>
          SKIP ;;;
          prop <- ena_expect_token T_ID ;;
          expr <- create_node_with_token N_PROP (Some prop) (child_of expr) 1 ;;
          unary_loop n expr
      | _ => ret expr
      end
  end.
Definition parse_unary : M S (option ena_node) := expr <- parse_primary ;; unary_loop n expr.

(** [BIN_OP_LEFT_ASSOC] in a loop: [op] has the operators of the level and [rule] is
    the rule for the operands. *)
Fixpoint binary_loop (op : ena_token_type -> option ena_node_type) (rule : M S (option ena_node)) (n : nat)
    (expr : option ena_node) : M S (option ena_node) :=
  match n with
  | O => no_fuel
  | Datatypes.S n =>
      t <- NEXT_TYPE ;;
      match op t with
      | Some node_type =>
          SKIP ;;;
          rhs <- rule ;;
          childs <- two_children expr rhs ;;
          expr <- create_node node_type childs 2 ;;
          binary_loop op rule n expr
      | None => ret expr
      end
  end.
Definition binary (op : ena_token_type -> option ena_node_type) (rule : M S (option ena_node)) : M S (option ena_node) :=
  expr <- rule ;; binary_loop op rule n expr.

Definition mul_op (t : ena_token_type) : option ena_node_type :=
  match t with T_ASTERISK => Some N_OP_MUL | T_SLASH => Some N_OP_DIV | T_PERCENT => Some N_OP_MOD | _ => None end.
Definition add_op (t : ena_token_type) : option ena_node_type :=
  match t with T_PLUS => Some N_OP_ADD | T_MINUS => Some N_OP_SUB | _ => None end.
Definition cmp_op (t : ena_token_type) : option ena_node_type :=
  match t with T_LT => Some N_OP_LT | T_LTE => Some N_OP_LTE | T_GT => Some N_OP_GT | T_GTE => Some N_OP_GTE | _ => None end.
Definition and_op (t : ena_token_type) : option ena_node_type := match t with T_AND => Some N_OP_AND | _ => None end.
Definition or_op (t : ena_token_type) : option ena_node_type := match t with T_OR => Some N_OP_OR | _ => None end.
Definition eq_op (t : ena_token_type) : option ena_node_type :=
  match t with T_DOUBLE_EQ => Some N_OP_EQ | T_NEQ => Some N_OP_NEQ | _ => None end.

Definition parse_multiplication : M S (option ena_node) := binary mul_op parse_unary.
Definition parse_addition : M S (option ena_node) := binary add_op parse_multiplication.
Definition parse_comparison : M S (option ena_node) := binary cmp_op parse_addition.
Definition parse_logical_and : M S (option ena_node) := binary and_op parse_comparison.
Definition parse_logical_or : M S (option ena_node) := binary or_op parse_logical_and.
Definition parse_equality : M S (option ena_node) := binary eq_op parse_logical_or.

(** [lhs op= rhs] becomes [lhs = lhs op rhs]. *)
Definition assign_op (t : ena_token_type) : option ena_node_type :=
  match t with
  | T_ADD_ASSIGN => Some N_OP_ADD | T_SUB_ASSIGN => Some N_OP_SUB | T_MUL_ASSIGN => Some N_OP_MUL
  | T_DIV_ASSIGN => Some N_OP_DIV | T_MOD_ASSIGN => Some N_OP_MOD | _ => None
  end.
Fixpoint assign_loop (n : nat) (expr : option ena_node) : M S (option ena_node) :=
  match n with
  | O => no_fuel
  | Datatypes.S n =>
      t <- NEXT_TYPE ;;
      match t, assign_op t with
      | T_EQ, _ =>
          SKIP ;;;
          rhs <- parse_expr ;;
          childs <- two_children expr rhs ;;
          expr <- create_node N_OP_ASSIGN childs 2 ;;
          assign_loop n expr
      | _, Some op_type =>
          SKIP ;;;
          rhs <- parse_expr ;;
          rvalue_childs <- two_children expr rhs ;;
          rvalue <- create_node op_type rvalue_childs 2 ;;
          childs <- two_children expr rvalue ;;
          expr <- create_node N_OP_ASSIGN childs 2 ;;
          assign_loop n expr
      | _, None => ret expr
      end
  end.
Definition expr_rule : M S (option ena_node) := expr <- parse_equality ;; assign_loop n expr.

End Expr.

Fixpoint parse_expr (fuel : nat) : M S (option ena_node) :=
  match fuel with O => no_fuel | Datatypes.S fuel => expr_rule (parse_expr fuel) fuel end.

(** ** Statements *)

Section Stmt.
Variables (parse_expr parse_stmts : M S (option ena_node)).
Variable n : nat.

Fixpoint id_list_loop (n : nat) (childs : list ena_node) : M S (list ena_node) :=
  match n with
  | O => no_fuel
  | Datatypes.S n =>
      b <- next_is T_ID ;;
      if b then
        token <- ena_expect_token T_ID ;;
        id <- create_node_with_token N_ID (Some token) [] 0 ;;
        id <- need id ;;
        opt_comma ;;;
        id_list_loop n (childs ++ [id])
      else ret childs
  end.
Definition parse_id_list : M S (option ena_node) :=
  childs <- id_list_loop n [] ;;
  create_node_with_token N_ID_LIST None childs (Z.of_nat (length childs)).

(** [ '{' stmts '}' ]. *)
Definition parse_block : M S (option ena_node) :=
  CONSUME T_LBRACE ;;; stmts <- parse_stmts ;; CONSUME T_RBRACE ;;; ret stmts.

Definition parse_class_stmt : M S (option ena_node) :=
  CONSUME T_CLASS ;;;
  name_token <- ena_expect_token T_ID ;;
  stmts <- parse_block ;;
  create_node_with_token N_CLASS (Some name_token) (child_of stmts) 1.

Definition parse_func_stmt : M S (option ena_node) :=
  CONSUME T_FUNC ;;;
  name_token <- ena_expect_token T_ID ;;
  CONSUME T_LPAREN ;;;
  args <- parse_id_list ;;
  CONSUME T_RPAREN ;;;
  stmts <- parse_block ;;
  childs <- two_children args stmts ;;
  create_node_with_token N_FUNC (Some name_token) childs 2.

Definition parse_var_stmt : M S (option ena_node) :=
  CONSUME T_VAR ;;;
  name_token <- ena_expect_token T_ID ;;
  b <- next_is T_EQ ;;
  if b then
    SKIP ;;;
    initializer <- parse_expr ;;
    CONSUME T_SEMICOLON ;;;
    create_node_with_token N_VAR (Some name_token) (child_of initializer) 1
  else
    CONSUME T_SEMICOLON ;;;
    create_node_with_token N_VAR (Some name_token) [] 0.

Definition parse_return_stmt : M S (option ena_node) :=
  CONSUME T_RETURN ;;;
  expr <- parse_expr ;;
  CONSUME T_SEMICOLON ;;;
  create_node N_RETURN (child_of expr) (match expr with Some _ => 1 | None => 0 end).

Definition parse_if_stmt : M S (option ena_node) :=
  CONSUME T_IF ;;;
  condition <- parse_expr ;;
  then_stmts <- parse_block ;;
  b <- next_is T_ELSE ;;
  if b then
    SKIP ;;;
    else_stmts <- parse_block ;;
    else_stmts <- need else_stmts ;;
    childs <- two_children condition then_stmts ;;
    create_node N_IF (childs ++ [else_stmts]) 3
  else
    childs <- two_children condition then_stmts ;;
    create_node N_IF childs 2.

Definition parse_while_stmt : M S (option ena_node) :=
  CONSUME T_WHILE ;;;
  condition <- parse_expr ;;
  stmts <- parse_block ;;
  childs <- two_children condition stmts ;;
  create_node N_WHILE childs 2.

Definition parse_break_stmt : M S (option ena_node) :=
  CONSUME T_BREAK ;;; CONSUME T_SEMICOLON ;;; create_node N_BREAK [] 0.
Definition parse_continue_stmt : M S (option ena_node) :=
  CONSUME T_CONTINUE ;;; CONSUME T_SEMICOLON ;;; create_node N_CONTINUE [] 0.

Definition parse_stmt : M S (option ena_node) :=
  t <- NEXT_TYPE ;;
  match t with
  | T_CLASS => parse_class_stmt
  | T_FUNC => parse_func_stmt
  | T_IF => parse_if_stmt
  | T_WHILE => parse_while_stmt
  | T_VAR => parse_var_stmt
  | T_RETURN => parse_return_stmt
  | T_BREAK => parse_break_stmt
  | T_CONTINUE => parse_continue_stmt
  | T_EOF | T_RBRACE => ret None
  | _ => expr <- parse_expr ;; CONSUME T_SEMICOLON ;;; ret expr
  end.

Fixpoint stmts_loop (n : nat) (childs : list ena_node) : M S (list ena_node) :=
  match n with
  | O => no_fuel
  | Datatypes.S n =>
      stmt <- parse_stmt ;;
      match stmt with
      | None => ret childs
      | Some stmt => stmts_loop n (childs ++ [stmt])
      end
  end.
Definition stmts_rule : M S (option ena_node) :=
  childs <- stmts_loop n [] ;; create_node N_STMTS childs (Z.of_nat (length childs)).
End Stmt.

Fixpoint parse_stmts (fuel : nat) : M S (option ena_node) :=
  match fuel with O => no_fuel | Datatypes.S fuel => stmts_rule (parse_expr fuel) (parse_stmts fuel) fuel end.

Definition parse_program (fuel : nat) : M S (option ena_node) :=
  child <- parse_stmts fuel ;; create_node N_PROGRAM (child_of child) 1.

(** The tree, or nothing after a syntax error. *)
Definition ena_parse (fuel : nat) (script : list Z) : outcome (option ena_node) :=
  match parse_program fuel (Lexer 0 1 script) with
  | Done (tree, _) => Done tree
  | Panic => Done None
  | Undef => Undef
  | Fuel => Fuel
  end.

End Parser.
