(* ===== verification/EnaGrammar.v ===== *)
(** * ena: the grammar

    The grammar of the language as a relation between tokens and trees, and the
    proof that the parser of [EnaParser] finds the tree of every program of the
    grammar. *)
From S2P Require Import Prelude EnaLexer EnaParser.
Import Lex Parser.
Import String.StringSyntax.

Abbreviation tok := (ena_token_type * list Z)%type.

(** ** Rules *)

(** The levels of binary operators, from the loosest to the tightest. *)
Inductive blevel := LEq | LOr | LAnd | LCmp | LAdd | LMul.
Inductive rule := Expr | Bin (k : blevel) | Unary | Primary | ExprList | Entries | IdList | Block | Stmt | Stmts.

(** The operators of each level, and the operation of each compound assignment. *)
Definition op_of (k : blevel) (t : ena_token_type) : option ena_node_type :=
  match k, t with
  | LEq, T_DOUBLE_EQ => Some N_OP_EQ
  | LEq, T_NEQ => Some N_OP_NEQ
  | LOr, T_OR => Some N_OP_OR
  | LAnd, T_AND => Some N_OP_AND
  | LCmp, T_LT => Some N_OP_LT
  | LCmp, T_LTE => Some N_OP_LTE
  | LCmp, T_GT => Some N_OP_GT
  | LCmp, T_GTE => Some N_OP_GTE
  | LAdd, T_PLUS => Some N_OP_ADD
  | LAdd, T_MINUS => Some N_OP_SUB
  | LMul, T_ASTERISK => Some N_OP_MUL
  | LMul, T_SLASH => Some N_OP_DIV
  | LMul, T_PERCENT => Some N_OP_MOD
  | _, _ => None
  end.
Definition update_of (t : ena_token_type) : option ena_node_type :=
  match t with
  | T_ADD_ASSIGN => op_of LAdd T_PLUS
  | T_SUB_ASSIGN => op_of LAdd T_MINUS
  | T_MUL_ASSIGN => op_of LMul T_ASTERISK
  | T_DIV_ASSIGN => op_of LMul T_SLASH
  | T_MOD_ASSIGN => op_of LMul T_PERCENT
  | _ => None
  end.
(** The rule for the operands of a level. *)
Definition sub (k : blevel) : rule :=
  match k with LEq => Bin LOr | LOr => Bin LAnd | LAnd => Bin LCmp | LCmp => Bin LAdd | LAdd => Bin LMul | LMul => Unary end.

Section Grammar.
(** The line of the program text. *)
Variable l : Z.

Definition nd (t : ena_node_type) (child : list ena_node) : ena_node := Node t None child (Z.of_nat (length child)) 0 l.
Definition nd_tok (t : ena_node_type) (ty : ena_token_type) (w : list Z) (child : list ena_node) : ena_node :=
  Node t (Some (Token ty w l)) child (Z.of_nat (length child)) 0 l.
Definition nd_int (v : Z) : ena_node := Node N_INT_LIT None [] 0 v l.

(** [derives r open ts res]: the tokens [ts] are a phrase of the rule [r] with the
    trees [res].  An open phrase ends with an expression that takes in whatever
    may continue an expression: the operand of [not] or the right-hand side of an
    assignment. *)
Inductive derives : rule -> bool -> list tok -> list ena_node -> Prop :=
(* expressions *)
| d_equality o ts e : derives (Bin LEq) o ts [e] -> derives Expr o ts [e]
| d_assign ts1 a w o ts2 b :
    derives (Bin LEq) false ts1 [a] -> derives Expr o ts2 [b] ->
    derives Expr true (ts1 ++ (T_EQ, w) :: ts2) [nd N_OP_ASSIGN [a; b]]
| d_update ts1 a t w op o ts2 b :
    derives (Bin LEq) false ts1 [a] -> update_of t = Some op -> derives Expr o ts2 [b] ->
    derives Expr true (ts1 ++ (t, w) :: ts2) [nd N_OP_ASSIGN [a; nd op [a; b]]]
| d_operand k o ts e : derives (sub k) o ts [e] -> derives (Bin k) o ts [e]
| d_binary k ts1 a t w op o ts2 b :
    derives (Bin k) false ts1 [a] -> op_of k t = Some op -> derives (sub k) o ts2 [b] ->
    derives (Bin k) o (ts1 ++ (t, w) :: ts2) [nd op [a; b]]
| d_primary o ts e : derives Primary o ts [e] -> derives Unary o ts [e]
| d_call ts1 f w1 ts2 args w2 :
    derives Unary false ts1 [f] -> derives ExprList false ts2 args ->
    derives Unary false (ts1 ++ (T_LPAREN, w1) :: ts2 ++ [(T_RPAREN, w2)]) [nd N_CALL [f; nd N_EXPR_LIST args]]
| d_index ts1 a w1 o ts2 i w2 :
    derives Unary false ts1 [a] -> derives Expr o ts2 [i] ->
    derives Unary false (ts1 ++ (T_LBRACKET, w1) :: ts2 ++ [(T_RBRACKET, w2)]) [nd N_INDEX [a; i]]
| d_prop ts a w1 w2 :
    derives Unary false ts [a] -> derives Unary false (ts ++ [(T_DOT, w1); (T_ID, w2)]) [nd_tok N_PROP T_ID w2 [a]]
| d_paren w1 o ts e w2 : derives Expr o ts [e] -> derives Primary false ((T_LPAREN, w1) :: ts ++ [(T_RPAREN, w2)]) [e]
| d_not w o ts e : derives Expr o ts [e] -> derives Primary true ((T_NOT, w) :: ts) [nd N_OP_NOT [e]]
| d_null w : derives Primary false [(T_NULL, w)] [nd N_NULL []]
| d_true w : derives Primary false [(T_TRUE, w)] [nd N_TRUE []]
| d_false w : derives Primary false [(T_FALSE, w)] [nd N_FALSE []]
| d_minus w1 w2 v : ena_str2int w2 = Done v -> INT_MIN <= - v <= INT_MAX ->
    derives Primary false [(T_MINUS, w1); (T_INT_LIT, w2)] [nd_int (- v)]
| d_plus w1 w2 v : ena_str2int w2 = Done v -> derives Primary false [(T_PLUS, w1); (T_INT_LIT, w2)] [nd_int v]
| d_int w v : ena_str2int w = Done v -> derives Primary false [(T_INT_LIT, w)] [nd_int v]
| d_string w : derives Primary false [(T_STRING_LIT, w)] [nd_tok N_STRING_LIT T_STRING_LIT w []]
| d_id w : derives Primary false [(T_ID, w)] [nd_tok N_ID T_ID w []]
| d_list w1 ts es w2 : derives ExprList false ts es ->
    derives Primary false ((T_LBRACKET, w1) :: ts ++ [(T_RBRACKET, w2)]) [nd N_LIST_LIT [nd N_EXPR_LIST es]]
| d_map w1 ts es w2 : derives Entries false ts es ->
    derives Primary false ((T_LBRACE, w1) :: ts ++ [(T_RBRACE, w2)]) [nd N_MAP_LIT es]
| d_exprs_nil : derives ExprList false [] []
| d_exprs_one o ts e : derives Expr o ts [e] -> derives ExprList false ts [e]
| d_exprs_cons o ts1 e w ts2 es : derives Expr o ts1 [e] -> derives ExprList false ts2 es ->
    derives ExprList false (ts1 ++ (T_COMMA, w) :: ts2) (e :: es)
| d_entries_nil : derives Entries false [] []
| d_entries_one o1 o2 ts1 k w ts2 v : derives Expr o1 ts1 [k] -> derives Expr o2 ts2 [v] ->
    derives Entries false (ts1 ++ (T_DOUBLECOLON, w) :: ts2) [nd N_MAP_ENTRY [k; v]]
| d_entries_cons o1 o2 ts1 k w1 ts2 v w2 ts3 es : derives Expr o1 ts1 [k] -> derives Expr o2 ts2 [v] ->
    derives Entries false ts3 es ->
    derives Entries false (ts1 ++ (T_DOUBLECOLON, w1) :: ts2 ++ (T_COMMA, w2) :: ts3) (nd N_MAP_ENTRY [k; v] :: es)
(* statements *)
| d_ids_nil : derives IdList false [] []
| d_ids_one w : derives IdList false [(T_ID, w)] [nd_tok N_ID T_ID w []]
| d_ids_cons w w' ts ids : derives IdList false ts ids ->
    derives IdList false ((T_ID, w) :: (T_COMMA, w') :: ts) (nd_tok N_ID T_ID w [] :: ids)
| d_block w1 ts ss w2 : derives Stmts false ts ss ->
    derives Block false ((T_LBRACE, w1) :: ts ++ [(T_RBRACE, w2)]) [nd N_STMTS ss]
| d_class w1 w2 ts b : derives Block false ts [b] ->
    derives Stmt false ((T_CLASS, w1) :: (T_ID, w2) :: ts) [nd_tok N_CLASS T_ID w2 [b]]
| d_func w1 w2 w3 ts1 ids w4 ts2 b : derives IdList false ts1 ids -> derives Block false ts2 [b] ->
    derives Stmt false ((T_FUNC, w1) :: (T_ID, w2) :: (T_LPAREN, w3) :: ts1 ++ (T_RPAREN, w4) :: ts2)
      [nd_tok N_FUNC T_ID w2 [nd N_ID_LIST ids; b]]
| d_if w o ts1 c ts2 b : derives Expr o ts1 [c] -> derives Block false ts2 [b] ->
    derives Stmt false ((T_IF, w) :: ts1 ++ ts2) [nd N_IF [c; b]]
| d_while w o ts1 c ts2 b : derives Expr o ts1 [c] -> derives Block false ts2 [b] ->
    derives Stmt false ((T_WHILE, w) :: ts1 ++ ts2) [nd N_WHILE [c; b]]
| d_var w1 w2 w3 : derives Stmt false [(T_VAR, w1); (T_ID, w2); (T_SEMICOLON, w3)] [nd_tok N_VAR T_ID w2 []]
| d_var_init w1 w2 w3 o ts e w4 : derives Expr o ts [e] ->
    derives Stmt false ((T_VAR, w1) :: (T_ID, w2) :: (T_EQ, w3) :: ts ++ [(T_SEMICOLON, w4)]) [nd_tok N_VAR T_ID w2 [e]]
| d_return w1 w2 : derives Stmt false [(T_RETURN, w1); (T_SEMICOLON, w2)] [nd N_RETURN []]
| d_return_expr w1 o ts e w2 : derives Expr o ts [e] ->
    derives Stmt false ((T_RETURN, w1) :: ts ++ [(T_SEMICOLON, w2)]) [nd N_RETURN [e]]
| d_break w1 w2 : derives Stmt false [(T_BREAK, w1); (T_SEMICOLON, w2)] [nd N_BREAK []]
| d_continue w1 w2 : derives Stmt false [(T_CONTINUE, w1); (T_SEMICOLON, w2)] [nd N_CONTINUE []]
| d_expr_stmt o ts e w : derives Expr o ts [e] -> derives Stmt false (ts ++ [(T_SEMICOLON, w)]) [e]
| d_stmts_nil : derives Stmts false [] []
| d_stmts_cons ts1 x ts2 xs : derives Stmt false ts1 [x] -> derives Stmts false ts2 xs ->
    derives Stmts false (ts1 ++ ts2) (x :: xs).

(** ** Running the parser on tokens *)

Definition runs_to {A} (m : M ena_lexer A) (ts : list tok) (a : A) (rest : list tok) : Prop :=
  forall s, at_tokens l ts s -> exists s', m s = Done (a, s') /\ at_tokens l rest s'.

Lemma rt_bind {A B} (m : M ena_lexer A) (k : A -> M ena_lexer B) ts a mid b rest :
  runs_to m ts a mid -> runs_to (k a) mid b rest -> runs_to (bind m k) ts b rest.
Proof.
  intros H1 H2 s Hs. destruct (H1 s Hs) as (s1 & E1 & Hs1). destruct (H2 s1 Hs1) as (s2 & E2 & Hs2).
  exists s2. split; [|done]. by rewrite (bind_intro _ _ _ _ _ _ E1 eq_refl).
Qed.
Lemma rt_ret {A} (a : A) ts : runs_to (ret a) ts a ts.
Proof. intros s Hs. by exists s. Qed.
Lemma rt_next t w ts : runs_to ena_get_next_token ((t, w) :: ts) (Token t w l) ts.
Proof. intros s Hs. destruct (next_token_ok _ _ _ _ _ Hs) as (s' & E & H & _). by exists s'. Qed.
Lemma rt_type ts : runs_to NEXT_TYPE ts (head_type ts) ts.
Proof. intros s Hs. by apply fetch_type_ok. Qed.
Lemma rt_is t ts : runs_to (next_is t) ts (token_is (head_type ts) t) ts.
Proof. eapply rt_bind; [apply rt_type | apply rt_ret]. Qed.
Lemma rt_expect t w ts : runs_to (ena_expect_token t) ((t, w) :: ts) (Token t w l) ts.
Proof. intros s Hs. by apply expect_ok. Qed.
Lemma rt_consume t w ts : runs_to (CONSUME t) ((t, w) :: ts) tt ts.
Proof. eapply rt_bind; [apply rt_expect | apply rt_ret]. Qed.
Lemma rt_skip t w ts : runs_to SKIP ((t, w) :: ts) tt ts.
Proof. eapply rt_bind; [apply rt_next | apply rt_ret]. Qed.
Lemma rt_node t token child n ts :
  runs_to (create_node_with_token t token child n) ts (Some (Node t token child n 0 l)) ts.
Proof. intros s Hs. pose proof Hs as [Hl _]. exists s. split; [|done]. unfold create_node_with_token, bind, get, ret. by rewrite Hl. Qed.
Lemma rt_int v ts : runs_to (create_int_literal_node v) ts (Some (nd_int v)) ts.
Proof. intros s Hs. pose proof Hs as [Hl _]. exists s. split; [|done]. unfold create_int_literal_node, bind, get, ret. by rewrite Hl. Qed.
Lemma rt_two a b ts : runs_to (two_children (Some a) (Some b)) ts [a; b] ts.
Proof. intros s Hs. by exists s. Qed.
Lemma rt_need {A} (a : A) ts : runs_to (need (Some a)) ts a ts.
Proof. intros s Hs. by exists s. Qed.
Lemma rt_lift {A} (a : A) o ts : o = Done a -> runs_to (lift o) ts a ts.
Proof. intros -> s Hs. by exists s. Qed.
Lemma rt_comma w ts : runs_to opt_comma ((T_COMMA, w) :: ts) tt ts.
Proof. eapply rt_bind; [apply rt_is|]. apply rt_consume. Qed.
Lemma rt_no_comma ts : head_type ts <> T_COMMA -> runs_to opt_comma ts tt ts.
Proof. intros H. eapply rt_bind; [apply rt_is|]. unfold token_is. rewrite bool_decide_false by done. apply rt_ret. Qed.

(** ** What may follow a phrase *)

Fixpoint stop_levels (ks : list blevel) (t : ena_token_type) : bool :=
  match ks with
  | [] => negb (token_is t T_LPAREN || token_is t T_LBRACKET || token_is t T_DOT)
  | k :: ks => match op_of k t with Some _ => false | None => stop_levels ks t end
  end.
Definition levels (k : blevel) : list blevel :=
  match k with
  | LEq => [LEq; LOr; LAnd; LCmp; LAdd; LMul] | LOr => [LOr; LAnd; LCmp; LAdd; LMul] | LAnd => [LAnd; LCmp; LAdd; LMul]
  | LCmp => [LCmp; LAdd; LMul] | LAdd => [LAdd; LMul] | LMul => [LMul]
  end.
(** The token does not continue a phrase of the rule. *)
Definition stop (r : rule) (t : ena_token_type) : bool :=
  match r with
  | Expr => negb (token_is t T_EQ) && match update_of t with Some _ => false | None => true end && stop_levels (levels LEq) t
  | Bin k => stop_levels (levels k) t
  | Unary => stop_levels [] t
  | _ => true
  end.
Definition follow (r : rule) (o : bool) (rest : list tok) : Prop := stop (if o then Expr else r) (head_type rest) = true.

(** The token begins no expression and continues none. *)
Definition closes (t : ena_token_type) : bool :=
  match t with T_RPAREN | T_RBRACKET | T_RBRACE | T_SEMICOLON | T_COMMA | T_DOUBLECOLON | T_EOF => true | _ => false end.
Definition begins (t : ena_token_type) : bool :=
  match t with
  | T_LPAREN | T_NOT | T_NULL | T_TRUE | T_FALSE | T_MINUS | T_PLUS | T_INT_LIT | T_STRING_LIT | T_LBRACKET | T_LBRACE | T_ID => true
  | _ => false
  end.

Lemma stop_expr_all r t : stop Expr t = true -> stop r t = true.
Proof. destruct r as [| [] | | | | | | | |]; destruct t; done. Qed.
Lemma stop_bin k t : stop (Bin k) t = true -> op_of k t = None /\ stop (sub k) t = true.
Proof. destruct k, t; done. Qed.
Lemma stop_bin_intro k t : op_of k t = None -> stop (sub k) t = true -> stop (Bin k) t = true.
Proof. destruct k, t; done. Qed.
Lemma op_stops k t op : op_of k t = Some op -> stop (sub k) t = true.
Proof. destruct k, t; done. Qed.
Lemma closes_stop t : closes t = true -> stop Expr t = true.
Proof. by destruct t. Qed.
Lemma assign_stops t op : update_of t = Some op -> stop (Bin LEq) t = true.
Proof. by destruct t. Qed.
Lemma follow_below k o rest : follow (Bin k) o rest -> follow (sub k) o rest.
Proof. unfold follow. destruct o; [done|]. intros H. by apply stop_bin in H as [_ ?]. Qed.
Lemma follow_head r o rest : follow r o rest -> stop r (head_type rest) = true.
Proof. unfold follow. destruct o; [apply stop_expr_all | done]. Qed.
Lemma closes_follow r o rest : closes (head_type rest) = true -> follow r o rest.
Proof. intros H%closes_stop. unfold follow. destruct o; [done | by apply stop_expr_all]. Qed.

(** ** Loops *)

(** The parser of a rule for expressions, inside a [parse_expr] with fuel [f]. *)
Definition parse (r : rule) (f : nat) : M ena_lexer (option ena_node) :=
  match r with
  | Bin LEq => parse_equality (parse_expr f) f | Bin LOr => parse_logical_or (parse_expr f) f
  | Bin LAnd => parse_logical_and (parse_expr f) f | Bin LCmp => parse_comparison (parse_expr f) f
  | Bin LAdd => parse_addition (parse_expr f) f | Bin LMul => parse_multiplication (parse_expr f) f
  | Unary => parse_unary (parse_expr f) f
  | _ => parse_primary (parse_expr f) f
  end.
Lemma parse_bin k f : parse (Bin k) f = binary f (op_of k) (parse (sub k) f).
Proof. by destruct k. Qed.

Lemma loop_stops op rule n e ts : op (head_type ts) = None -> runs_to (binary_loop op rule (S n) e) ts e ts.
Proof. intros H. eapply rt_bind; [apply rt_type|]. rewrite H. apply rt_ret. Qed.
Lemma loop_step op rule n a t w nt ts b rest x out :
  op t = Some nt -> runs_to rule ts (Some b) rest ->
  runs_to (binary_loop op rule n (Some (nd nt [a; b]))) rest x out ->
  runs_to (binary_loop op rule (S n) (Some a)) ((t, w) :: ts) x out.
Proof.
  intros Ht Hr Hl. eapply rt_bind; [apply rt_type|]. cbn [head_type fst]. rewrite Ht.
  eapply rt_bind; [apply rt_skip|]. eapply rt_bind; [exact Hr|]. eapply rt_bind; [apply rt_two|].
  eapply rt_bind; [apply rt_node|]. exact Hl.
Qed.
Lemma unary_stops pe m n e ts : stop Unary (head_type ts) = true -> runs_to (unary_loop pe m (S n) e) ts e ts.
Proof. intros H. eapply rt_bind; [apply rt_type|]. destruct (head_type ts); try done; apply rt_ret. Qed.
Lemma assign_stops_loop pe n e ts : (0 < n)%nat -> stop Expr (head_type ts) = true -> runs_to (assign_loop pe n e) ts e ts.
Proof. destruct n; [lia|]. intros _ H. eapply rt_bind; [apply rt_type|]. destruct (head_type ts); try done; apply rt_ret. Qed.
Lemma assign_step pe n a w ts b rest :
  (1 < n)%nat -> runs_to pe ts (Some b) rest -> stop Expr (head_type rest) = true ->
  runs_to (assign_loop pe n (Some a)) ((T_EQ, w) :: ts) (Some (nd N_OP_ASSIGN [a; b])) rest.
Proof.
  intros Hn Hr Hs. destruct n as [|n]; [lia|]. eapply rt_bind; [apply rt_type|]. eapply rt_bind; [apply rt_skip|].
  eapply rt_bind; [exact Hr|]. eapply rt_bind; [apply rt_two|]. eapply rt_bind; [apply rt_node|].
  apply assign_stops_loop; [lia | done].
Qed.
Lemma update_step pe n a t w op ts b rest :
  (1 < n)%nat -> update_of t = Some op -> runs_to pe ts (Some b) rest -> stop Expr (head_type rest) = true ->
  runs_to (assign_loop pe n (Some a)) ((t, w) :: ts) (Some (nd N_OP_ASSIGN [a; nd op [a; b]])) rest.
Proof.
  intros Hn Ht Hr Hs. destruct n as [|n]; [lia|]. eapply rt_bind; [apply rt_type|]. cbn [head_type fst].
  destruct t; try discriminate Ht; injection Ht as <-; (eapply rt_bind; [apply rt_skip|];
    eapply rt_bind; [exact Hr|]; eapply rt_bind; [apply rt_two|]; eapply rt_bind; [apply rt_node|];
    eapply rt_bind; [apply rt_two|]; eapply rt_bind; [apply rt_node|]; apply assign_stops_loop; [lia | done]).
Qed.

(** Where no expression begins, the parser finds none. *)
Lemma primary_none pe m ts : begins (head_type ts) = false -> runs_to (parse_primary pe m) ts None ts.
Proof.
  intros H s Hs. destruct (next_pushback_ok _ _ _ Hs) as (token & s1 & s2 & E1 & Ht & E2 & H2). exists s2. split; [|done].
  unfold parse_primary. rewrite (bind_intro _ _ _ _ _ _ E1 eq_refl), Ht.
  destruct (head_type ts); try done; by rewrite (bind_intro _ _ _ _ _ _ E2 eq_refl).
Qed.
Lemma levels_none f ts : closes (head_type ts) = true -> forall k, runs_to (parse (sub k) (S f)) ts None ts.
Proof.
  intros H. assert (Hu : runs_to (parse Unary (S f)) ts None ts).
  { eapply rt_bind; [apply primary_none; by destruct (head_type ts)|]. apply unary_stops, stop_expr_all, closes_stop, H. }
  assert (Hb : forall k, runs_to (parse (sub k) (S f)) ts None ts -> runs_to (parse (Bin k) (S f)) ts None ts).
  { intros k Hk. rewrite parse_bin. eapply rt_bind; [exact Hk|]. apply loop_stops. by destruct k, (head_type ts). }
  assert (H5 := Hb LMul Hu). assert (H4 := Hb LAdd H5). assert (H3 := Hb LCmp H4). assert (H2 := Hb LAnd H3).
  assert (H1 := Hb LOr H2). by intros [].
Qed.
(** An expression, by its first operand and the loop over assignments. *)
Lemma rt_expr f ts1 a mid e rest : runs_to (parse (Bin LEq) f) ts1 a mid ->
  runs_to (assign_loop (parse_expr f) f a) mid e rest -> runs_to (parse_expr (S f)) ts1 e rest.
Proof. exact (rt_bind (parse (Bin LEq) f) (assign_loop (parse_expr f) f) ts1 a mid e rest). Qed.
Lemma expr_none f ts : (2 <= f)%nat -> closes (head_type ts) = true -> runs_to (parse_expr f) ts None ts.
Proof.
  intros Hf H. destruct f as [|[|f]]; [lia..|]. eapply rt_expr.
  - rewrite parse_bin. eapply rt_bind; [apply (levels_none f ts H LEq)|]. apply loop_stops. by destruct (head_type ts).
  - apply assign_stops_loop; [lia | apply closes_stop, H].
Qed.

(** ** The parser of each rule finds the trees of the grammar *)

(** What is proved of a phrase of each rule.  For a level of operators: the loop of
    the level, entered after the first operand, comes to the tree of the phrase
    within [m] rounds. *)
Definition found (r : rule) (o : bool) (ts : list tok) (res : list ena_node) : Prop :=
  match r with
  | Expr => forall e, res = [e] -> forall fuel rest, (length ts + 2 <= fuel)%nat -> follow Expr o rest ->
      runs_to (parse_expr fuel) (ts ++ rest) (Some e) rest
  | Bin k => forall e, res = [e] -> exists m, (m < length ts)%nat /\
      forall f n rest x out, (length ts + 1 <= f)%nat -> follow (sub k) o rest ->
      runs_to (binary_loop (op_of k) (parse (sub k) f) n (Some e)) rest x out ->
      runs_to (expr <- parse (sub k) f ;; binary_loop (op_of k) (parse (sub k) f) (m + n) expr) (ts ++ rest) x out
  | Unary => forall e, res = [e] -> exists m, (m < length ts)%nat /\
      forall f n rest x out, (length ts + 1 <= f)%nat -> follow Primary o rest ->
      runs_to (unary_loop (parse_expr f) f n (Some e)) rest x out ->
      runs_to (expr <- parse Primary f ;; unary_loop (parse_expr f) f (m + n) expr) (ts ++ rest) x out
  | Primary => forall e, res = [e] -> forall f rest, (length ts + 1 <= f)%nat -> follow Primary o rest ->
      runs_to (parse Primary f) (ts ++ rest) (Some e) rest
  | ExprList => forall f n acc rest, (length ts + 2 <= f)%nat -> (length ts < n)%nat ->
      closes (head_type rest) = true -> head_type rest <> T_COMMA ->
      runs_to (expr_list_loop (parse_expr f) n acc) (ts ++ rest) (acc ++ res) rest
  | Entries => forall f n acc rest, (length ts + 2 <= f)%nat -> (length ts < n)%nat -> head_type rest = T_RBRACE ->
      runs_to (map_loop (parse_expr f) n acc) (ts ++ rest) (acc ++ res) rest
  | IdList => forall n acc rest, (length ts < n)%nat -> head_type rest = T_RPAREN ->
      runs_to (id_list_loop n acc) (ts ++ rest) (acc ++ res) rest
  | Block => forall e, res = [e] -> forall f rest, (length ts <= f)%nat ->
      runs_to (parse_block (parse_stmts f)) (ts ++ rest) (Some e) rest
  | Stmt => forall e, res = [e] -> forall f rest, (length ts + 1 <= f)%nat -> head_type rest <> T_ELSE ->
      runs_to (parse_stmt (parse_expr f) (parse_stmts f) f) (ts ++ rest) (Some e) rest
  | Stmts => forall f n acc rest, (length ts + 1 <= f)%nat -> (length ts < n)%nat ->
      head_type rest = T_RBRACE \/ head_type rest = T_EOF ->
      runs_to (stmts_loop (parse_expr f) (parse_stmts f) f n acc) (ts ++ rest) (acc ++ res) rest
  end.

(** The whole rule, where nothing continues the phrase. *)
Definition whole (r : rule) (o : bool) (ts : list tok) (e : ena_node) : Prop :=
  forall f rest, (length ts + 1 <= f)%nat -> follow r o rest -> runs_to (parse r f) (ts ++ rest) (Some e) rest.

Lemma whole_bin k o ts e : found (Bin k) o ts [e] -> whole (Bin k) o ts e.
Proof.
  intros H f rest Hf Hs. destruct (H e eq_refl) as (m & Hm & Hl). rewrite parse_bin.
  specialize (Hl f (S (f - S m)) rest (Some e) rest Hf (follow_below _ _ _ Hs)).
  replace (m + S (f - S m))%nat with f in Hl by lia. apply Hl, loop_stops.
  apply follow_head, stop_bin in Hs as [? _]. done.
Qed.
Lemma whole_unary o ts e : found Unary o ts [e] -> whole Unary o ts e.
Proof.
  intros H f rest Hf Hs. destruct (H e eq_refl) as (m & Hm & Hl).
  assert (Hp : follow Primary o rest) by (unfold follow in *; by destruct o).
  specialize (Hl f (S (f - S m)) rest (Some e) rest Hf Hp).
  replace (m + S (f - S m))%nat with f in Hl by lia. apply Hl, unary_stops, (follow_head _ o), Hs.
Qed.
Lemma whole_sub k o ts e : found (sub k) o ts [e] -> whole (sub k) o ts e.
Proof. destruct k; solve [apply whole_bin | apply whole_unary]. Qed.

(** Expressions. *)
Lemma found_operand k o ts e : ts <> [] -> found (sub k) o ts [e] -> found (Bin k) o ts [e].
Proof.
  intros Hne H ? [= <-]. exists 0%nat. split; [destruct ts; [done | simpl; lia]|]. intros f n rest x out Hf Hs Hl.
  eapply rt_bind; [by apply (whole_sub _ o) | exact Hl].
Qed.
Lemma found_binary k ts1 a t w op o ts2 b :
  found (Bin k) false ts1 [a] -> op_of k t = Some op -> found (sub k) o ts2 [b] ->
  found (Bin k) o (ts1 ++ (t, w) :: ts2) [nd op [a; b]].
Proof.
  intros H1 Ht H2 ? [= <-]. destruct (H1 a eq_refl) as (m & Hm & Hl). exists (S m). rewrite length_app. cbn [length]. split; [lia|].
  intros f n rest x out Hf Hs Hx. rewrite <- app_assoc, Nat.add_succ_comm. apply Hl; [lia | by eapply op_stops |].
  eapply loop_step; [exact Ht | apply (whole_sub _ o); [done | lia | done] | exact Hx].
Qed.
Lemma found_equality o ts e : found (Bin LEq) o ts [e] -> found Expr o ts [e].
Proof.
  intros H ? [= <-] [|f] rest Hf Hs; [lia|]. eapply rt_expr.
  - apply (whole_bin _ o); [done | lia |]. unfold follow in *. destruct o; [done | by apply stop_expr_all].
  - apply assign_stops_loop; [lia | apply (follow_head _ o), Hs].
Qed.
Lemma found_assign ts1 a w o ts2 b : found (Bin LEq) false ts1 [a] -> found Expr o ts2 [b] ->
  found Expr true (ts1 ++ (T_EQ, w) :: ts2) [nd N_OP_ASSIGN [a; b]].
Proof.
  intros H1 H2 ? [= <-] [|f] rest; rewrite length_app; cbn [length]; intros Hf Hs; [lia|]. rewrite <- app_assoc.
  eapply rt_expr; [apply (whole_bin _ false); [done | lia | done]|].
  apply assign_step; [lia | apply H2; [done | lia | by destruct o] | done].
Qed.
Lemma found_update ts1 a t w op o ts2 b : found (Bin LEq) false ts1 [a] -> update_of t = Some op -> found Expr o ts2 [b] ->
  found Expr true (ts1 ++ (t, w) :: ts2) [nd N_OP_ASSIGN [a; nd op [a; b]]].
Proof.
  intros H1 Ht H2 ? [= <-] [|f] rest; rewrite length_app; cbn [length]; intros Hf Hs; [lia|]. rewrite <- app_assoc.
  eapply rt_expr; [apply (whole_bin _ false); [done | lia | by eapply assign_stops]|].
  apply update_step; [lia | done | apply H2; [done | lia | by destruct o] | done].
Qed.
Lemma found_primary o ts e : ts <> [] -> found Primary o ts [e] -> found Unary o ts [e].
Proof.
  intros Hne H ? [= <-]. exists 0%nat. split; [destruct ts; [done | simpl; lia]|]. intros f n rest x out Hf Hs Hl.
  eapply rt_bind; [by apply H | exact Hl].
Qed.
(** A postfix: the loop takes it in one round. *)
Lemma found_postfix ts1 a ts2 e : found Unary false ts1 [a] -> ts2 <> [] ->
  (forall f n rest x out, (length ts1 + length ts2 + 1 <= f)%nat -> runs_to (unary_loop (parse_expr f) f n (Some e)) rest x out ->
    runs_to (unary_loop (parse_expr f) f (S n) (Some a)) (ts2 ++ rest) x out) ->
  found Unary false (ts1 ++ ts2) [e].
Proof.
  intros H1 Hne H2 ? [= <-]. destruct (H1 a eq_refl) as (m & Hm & Hl). exists (S m). rewrite length_app.
  split; [destruct ts2; [done | simpl; lia]|]. intros f n rest x out Hf Hs Hx. rewrite <- app_assoc, Nat.add_succ_comm.
  apply Hl; [lia | done |]. by apply H2.
Qed.
Lemma rt_expr_list f ts es rest : found ExprList false ts es -> (length ts + 2 <= f)%nat ->
  closes (head_type rest) = true -> head_type rest <> T_COMMA ->
  runs_to (parse_expr_list (parse_expr f) f) (ts ++ rest) (Some (nd N_EXPR_LIST es)) rest.
Proof. intros H Hf Hc Hn. eapply rt_bind; [apply (H f f []); [lia | lia | done | done]|]. apply rt_node. Qed.
Lemma found_call ts1 g w1 ts2 args w2 : found Unary false ts1 [g] -> found ExprList false ts2 args ->
  found Unary false (ts1 ++ (T_LPAREN, w1) :: ts2 ++ [(T_RPAREN, w2)]) [nd N_CALL [g; nd N_EXPR_LIST args]].
Proof.
  intros H1 H2. eapply found_postfix; [exact H1 | done |]. cbn [length]. rewrite length_app. cbn [length].
  intros f n rest x out Hf Hx. cbn [app]. rewrite <- app_assoc.
  eapply rt_bind; [apply rt_type|]. eapply rt_bind; [apply rt_consume|].
  eapply rt_bind; [apply rt_expr_list; [exact H2 | lia | done | done]|]. eapply rt_bind; [apply rt_consume|].
  eapply rt_bind; [apply rt_two|]. eapply rt_bind; [apply rt_node|]. exact Hx.
Qed.
Lemma found_index ts1 a w1 o ts2 i w2 : found Unary false ts1 [a] -> found Expr o ts2 [i] ->
  found Unary false (ts1 ++ (T_LBRACKET, w1) :: ts2 ++ [(T_RBRACKET, w2)]) [nd N_INDEX [a; i]].
Proof.
  intros H1 H2. eapply found_postfix; [exact H1 | done |]. cbn [length]. rewrite length_app. cbn [length].
  intros f n rest x out Hf Hx. cbn [app]. rewrite <- app_assoc.
  eapply rt_bind; [apply rt_type|]. eapply rt_bind; [apply rt_consume|].
  eapply rt_bind; [apply H2; [done | lia | by apply closes_follow]|]. eapply rt_bind; [apply rt_consume|].
  eapply rt_bind; [apply rt_two|]. eapply rt_bind; [apply rt_node|]. exact Hx.
Qed.
Lemma found_prop ts a w1 w2 : found Unary false ts [a] ->
  found Unary false (ts ++ [(T_DOT, w1); (T_ID, w2)]) [nd_tok N_PROP T_ID w2 [a]].
Proof.
  intros H1. eapply found_postfix; [exact H1 | done |]. intros f n rest x out Hf Hx. cbn [app].
  eapply rt_bind; [apply rt_type|]. eapply rt_bind; [apply rt_skip|]. eapply rt_bind; [apply rt_expect|].
  eapply rt_bind; [apply rt_node|]. exact Hx.
Qed.

Lemma found_paren w1 o ts e w2 : found Expr o ts [e] -> found Primary false ((T_LPAREN, w1) :: ts ++ [(T_RPAREN, w2)]) [e].
Proof.
  intros H ? [= <-] f rest. cbn [length app]. rewrite length_app, <- app_assoc. cbn [length]. intros Hf _.
  eapply rt_bind; [apply rt_next|]. cbn [type]. eapply rt_bind; [apply H; [done | lia | by apply closes_follow]|].
  eapply rt_bind; [apply rt_consume | apply rt_ret].
Qed.
Lemma found_not w o ts e : found Expr o ts [e] -> found Primary true ((T_NOT, w) :: ts) [nd N_OP_NOT [e]].
Proof.
  intros H ? [= <-] f rest. cbn [length app]. intros Hf Hs.
  eapply rt_bind; [apply rt_next|]. cbn [type]. eapply rt_bind; [apply H; [done | lia | by destruct o]|]. apply rt_node.
Qed.
Lemma found_list w1 ts es w2 : found ExprList false ts es ->
  found Primary false ((T_LBRACKET, w1) :: ts ++ [(T_RBRACKET, w2)]) [nd N_LIST_LIT [nd N_EXPR_LIST es]].
Proof.
  intros H ? [= <-] f rest. cbn [length app]. rewrite length_app, <- app_assoc. cbn [length]. intros Hf _.
  eapply rt_bind; [apply rt_next|]. cbn [type]. eapply rt_bind; [apply rt_expr_list; [exact H | lia | done | done]|].
  eapply rt_bind; [apply rt_consume | apply rt_node].
Qed.
Lemma found_map w1 ts es w2 : found Entries false ts es ->
  found Primary false ((T_LBRACE, w1) :: ts ++ [(T_RBRACE, w2)]) [nd N_MAP_LIT es].
Proof.
  intros H ? [= <-] f rest. cbn [length app]. rewrite length_app, <- app_assoc. cbn [length]. intros Hf _.
  eapply rt_bind; [apply rt_next|]. cbn [type]. eapply rt_bind; [apply (H f f []); [lia | lia | done]|].
  eapply rt_bind; [apply rt_consume | apply rt_node].
Qed.
Lemma found_literals t w e : (forall pe m rest, runs_to (parse_primary pe m) ((t, w) :: rest) (Some e) rest) ->
  found Primary false [(t, w)] [e].
Proof. intros H ? [= <-] f rest _ _. apply H. Qed.
Lemma found_signed t w1 w2 v : (t = T_MINUS /\ (exists u, ena_str2int w2 = Done u /\ v = - u) /\ INT_MIN <= v <= INT_MAX) \/
    (t = T_PLUS /\ ena_str2int w2 = Done v) ->
  found Primary false [(t, w1); (T_INT_LIT, w2)] [nd_int v].
Proof.
  intros H ? [= <-] f rest _ _. destruct H as [(-> & (u & Hu & ->) & Hv)|[-> Hu]];
    (eapply rt_bind; [apply rt_next|]; cbn [type]; eapply rt_bind; [apply rt_next|]; eapply rt_bind; [by apply rt_lift|]).
  - eapply rt_bind; [apply (rt_lift (- u)); unfold as_int; by rewrite !(proj2 (Z.leb_le _ _)) by lia|]. apply rt_int.
  - apply rt_int.
Qed.

(** Lists. *)
Lemma exprs_step f n acc ts e mid rest x : runs_to (parse_expr f) ts (Some e) mid -> runs_to opt_comma mid tt rest ->
  forall out, runs_to (expr_list_loop (parse_expr f) n (acc ++ [e])) rest x out ->
  runs_to (expr_list_loop (parse_expr f) (S n) acc) ts x out.
Proof. intros H1 H2 out H3. eapply rt_bind; [exact H1|]. cbn beta iota. eapply rt_bind; [exact H2 | exact H3]. Qed.
Lemma found_exprs_nil : found ExprList false [] [].
Proof.
  intros f [|n] acc rest Hf Hn Hc _; [simpl in *; lia|]. rewrite app_nil_r. cbn [length app] in *.
  eapply rt_bind; [apply expr_none; [lia | done]|]. apply rt_ret.
Qed.
Lemma found_exprs_one o ts e : found Expr o ts [e] -> begins (head_type ts) = true -> found ExprList false ts [e].
Proof.
  intros H Hb f [|n] acc rest Hf Hn Hc Hne; [lia|]. destruct ts as [|tk ts]; [done|]. cbn [length] in *.
  eapply exprs_step; [apply H; [done | done | by apply closes_follow] | by apply rt_no_comma |].
  pose proof (found_exprs_nil f n (acc ++ [e]) rest) as N. rewrite app_nil_r in N. apply N; cbn [length]; try lia; done.
Qed.
Lemma found_exprs_cons o ts1 e w ts2 es : found Expr o ts1 [e] -> found ExprList false ts2 es ->
  found ExprList false (ts1 ++ (T_COMMA, w) :: ts2) (e :: es).
Proof.
  intros H1 H2 f n acc rest. rewrite length_app. cbn [length]. destruct n as [|n]; intros Hf Hn Hc Hne; [lia|].
  rewrite <- app_assoc. eapply exprs_step; [apply H1; [done | lia | by apply closes_follow] | apply rt_comma |].
  change (e :: es) with ([e] ++ es). rewrite app_assoc. apply H2; try lia; done.
Qed.
Lemma entry_step f n acc ts1 k w ts2 v mid rest x out : begins (head_type ts1) = true ->
  runs_to (parse_expr f) (ts1 ++ (T_DOUBLECOLON, w) :: ts2) (Some k) ((T_DOUBLECOLON, w) :: ts2) ->
  runs_to (parse_expr f) ts2 (Some v) mid -> runs_to opt_comma mid tt rest ->
  runs_to (map_loop (parse_expr f) n (acc ++ [nd N_MAP_ENTRY [k; v]])) rest x out ->
  runs_to (map_loop (parse_expr f) (S n) acc) (ts1 ++ (T_DOUBLECOLON, w) :: ts2) x out.
Proof.
  intros Hb H1 H2 H3 H4. eapply rt_bind; [apply rt_is|].
  replace (token_is _ T_RBRACE) with false by (destruct ts1 as [|[t ?] ?]; [done | by destruct t]).
  eapply rt_bind; [exact H1|]. cbn beta iota. eapply rt_bind; [apply rt_consume|]. eapply rt_bind; [exact H2|]. cbn beta iota.
  eapply rt_bind; [apply rt_two|]. eapply rt_bind; [apply rt_node|]. eapply rt_bind; [apply rt_need|].
  eapply rt_bind; [exact H3 | exact H4].
Qed.
Lemma found_entries_nil : found Entries false [] [].
Proof.
  intros f [|n] acc rest Hf Hn Hc; [simpl in *; lia|]. rewrite app_nil_r. cbn [app].
  eapply rt_bind; [apply rt_is|]. rewrite Hc. apply rt_ret.
Qed.
Lemma found_entries_one o1 o2 ts1 k w ts2 v : found Expr o1 ts1 [k] -> begins (head_type ts1) = true -> found Expr o2 ts2 [v] ->
  found Entries false (ts1 ++ (T_DOUBLECOLON, w) :: ts2) [nd N_MAP_ENTRY [k; v]].
Proof.
  intros H1 Hb H2 f n acc rest. rewrite length_app. cbn [length]. destruct n as [|n]; intros Hf Hn Hc; [lia|].
  rewrite <- app_assoc. cbn [app]. eapply entry_step; [done | apply H1; [done | lia | by apply closes_follow] | | |].
  - apply H2; [done | lia | apply closes_follow; by rewrite Hc].
  - apply rt_no_comma. by rewrite Hc.
  - pose proof (found_entries_nil f n (acc ++ [nd N_MAP_ENTRY [k; v]]) rest) as N. rewrite app_nil_r in N.
    apply N; cbn [length]; try lia; done.
Qed.
Lemma found_entries_cons o1 o2 ts1 k w1 ts2 v w2 ts3 es : found Expr o1 ts1 [k] -> begins (head_type ts1) = true ->
  found Expr o2 ts2 [v] -> found Entries false ts3 es ->
  found Entries false (ts1 ++ (T_DOUBLECOLON, w1) :: ts2 ++ (T_COMMA, w2) :: ts3) (nd N_MAP_ENTRY [k; v] :: es).
Proof.
  intros H1 Hb H2 H3 f n acc rest. rewrite !length_app. cbn [length]. rewrite length_app. cbn [length].
  destruct n as [|n]; intros Hf Hn Hc; [lia|]. rewrite <- app_assoc. cbn [app]. rewrite <- app_assoc.
  eapply entry_step; [done | apply H1; [done | lia | by apply closes_follow] | | apply rt_comma |].
  - apply H2; [done | lia | by apply closes_follow].
  - rewrite (app_assoc acc [nd N_MAP_ENTRY [k; v]] es : acc ++ _ :: es = _). apply H3; try lia; done.
Qed.
Lemma found_ids_nil : found IdList false [] [].
Proof.
  intros [|n] acc rest Hn Hc; [simpl in *; lia|]. rewrite app_nil_r. cbn [app].
  eapply rt_bind; [apply rt_is|]. rewrite Hc. apply rt_ret.
Qed.
Lemma id_step n acc w mid rest x out : runs_to opt_comma mid tt rest ->
  runs_to (id_list_loop n (acc ++ [nd_tok N_ID T_ID w []])) rest x out ->
  runs_to (id_list_loop (S n) acc) ((T_ID, w) :: mid) x out.
Proof.
  intros H1 H2. eapply rt_bind; [apply rt_is|]. cbn [head_type fst]. eapply rt_bind; [apply rt_expect|].
  eapply rt_bind; [apply rt_node|]. eapply rt_bind; [apply rt_need|]. eapply rt_bind; [exact H1 | exact H2].
Qed.
Lemma found_ids_one w : found IdList false [(T_ID, w)] [nd_tok N_ID T_ID w []].
Proof.
  intros [|n] acc rest Hn Hc; [lia|]. cbn [length app] in *. eapply id_step; [apply rt_no_comma; by rewrite Hc|].
  pose proof (found_ids_nil n (acc ++ [nd_tok N_ID T_ID w []]) rest) as N. rewrite app_nil_r in N. apply N; cbn [length]; [lia | done].
Qed.
Lemma found_ids_cons w w' ts ids : found IdList false ts ids ->
  found IdList false ((T_ID, w) :: (T_COMMA, w') :: ts) (nd_tok N_ID T_ID w [] :: ids).
Proof.
  intros H [|n] acc rest Hn Hc; [lia|]. cbn [length app] in *. eapply id_step; [apply rt_comma|].
  rewrite (app_assoc acc [nd_tok N_ID T_ID w []] ids : acc ++ _ :: ids = _). apply H; [lia | done].
Qed.

(** Statements. *)
Lemma rt_stmts f ts ss rest : found Stmts false ts ss -> (length ts + 2 <= f)%nat ->
  head_type rest = T_RBRACE \/ head_type rest = T_EOF -> runs_to (parse_stmts f) (ts ++ rest) (Some (nd N_STMTS ss)) rest.
Proof.
  intros H Hf Hc. destruct f as [|f]; [lia|]. eapply (rt_bind (stmts_loop (parse_expr f) (parse_stmts f) f f []));
    [apply (H f f []); [lia | lia | done]|]. apply rt_node.
Qed.
Lemma found_block w1 ts ss w2 : found Stmts false ts ss ->
  found Block false ((T_LBRACE, w1) :: ts ++ [(T_RBRACE, w2)]) [nd N_STMTS ss].
Proof.
  intros H ? [= <-] f rest. cbn [length app]. rewrite length_app, <- app_assoc. cbn [length]. intros Hf.
  eapply rt_bind; [apply rt_consume|]. eapply rt_bind; [apply rt_stmts; [exact H | lia | by left]|].
  eapply rt_bind; [apply rt_consume | apply rt_ret].
Qed.
Lemma found_class w1 w2 ts b : found Block false ts [b] ->
  found Stmt false ((T_CLASS, w1) :: (T_ID, w2) :: ts) [nd_tok N_CLASS T_ID w2 [b]].
Proof.
  intros H ? [= <-] f rest. cbn [length app]. intros Hf _. eapply rt_bind; [apply rt_type|].
  eapply rt_bind; [apply rt_consume|]. eapply rt_bind; [apply rt_expect|]. eapply rt_bind; [apply H; [done | lia]|]. apply rt_node.
Qed.
Lemma found_func w1 w2 w3 ts1 ids w4 ts2 b : found IdList false ts1 ids -> found Block false ts2 [b] ->
  found Stmt false ((T_FUNC, w1) :: (T_ID, w2) :: (T_LPAREN, w3) :: ts1 ++ (T_RPAREN, w4) :: ts2)
    [nd_tok N_FUNC T_ID w2 [nd N_ID_LIST ids; b]].
Proof.
  intros H1 H2 ? [= <-] f rest. cbn [length app]. rewrite length_app, <- app_assoc. cbn [length app]. intros Hf _.
  eapply rt_bind; [apply rt_type|]. eapply rt_bind; [apply rt_consume|]. eapply rt_bind; [apply rt_expect|].
  eapply rt_bind; [apply rt_consume|].
  eapply rt_bind; [eapply rt_bind; [apply (H1 f []); [lia | done] | apply rt_node]|].
  eapply rt_bind; [apply rt_consume|]. eapply rt_bind; [apply H2; [done | lia]|]. eapply rt_bind; [apply rt_two|]. apply rt_node.
Qed.
(** A condition is followed by a block. *)
Lemma rt_condition f o ts1 c ts2 b rest : found Expr o ts1 [c] -> derives Block false ts2 [b] -> (length ts1 + 2 <= f)%nat ->
  runs_to (parse_expr f) (ts1 ++ ts2 ++ rest) (Some c) (ts2 ++ rest).
Proof. intros H D Hf. inversion D; subst. apply H; [done | done |]. by destruct o. Qed.
Lemma found_if w o ts1 c ts2 b : found Expr o ts1 [c] -> derives Block false ts2 [b] -> found Block false ts2 [b] ->
  found Stmt false ((T_IF, w) :: ts1 ++ ts2) [nd N_IF [c; b]].
Proof.
  intros H1 D H2 ? [= <-] f rest. cbn [length app]. rewrite length_app, <- app_assoc. intros Hf He.
  eapply rt_bind; [apply rt_type|]. eapply rt_bind; [apply rt_consume|].
  eapply rt_bind; [eapply rt_condition; [exact H1 | exact D | lia]|].
  eapply rt_bind; [apply H2; [done | lia]|]. eapply rt_bind; [apply rt_is|].
  unfold token_is. rewrite bool_decide_false by done. eapply rt_bind; [apply rt_two|]. apply rt_node.
Qed.
Lemma found_while w o ts1 c ts2 b : found Expr o ts1 [c] -> derives Block false ts2 [b] -> found Block false ts2 [b] ->
  found Stmt false ((T_WHILE, w) :: ts1 ++ ts2) [nd N_WHILE [c; b]].
Proof.
  intros H1 D H2 ? [= <-] f rest. cbn [length app]. rewrite length_app, <- app_assoc. intros Hf _.
  eapply rt_bind; [apply rt_type|]. eapply rt_bind; [apply rt_consume|].
  eapply rt_bind; [eapply rt_condition; [exact H1 | exact D | lia]|].
  eapply rt_bind; [apply H2; [done | lia]|]. eapply rt_bind; [apply rt_two|]. apply rt_node.
Qed.
Lemma found_var w1 w2 w3 : found Stmt false [(T_VAR, w1); (T_ID, w2); (T_SEMICOLON, w3)] [nd_tok N_VAR T_ID w2 []].
Proof.
  intros ? [= <-] f rest _ _. cbn [app]. eapply rt_bind; [apply rt_type|]. eapply rt_bind; [apply rt_consume|].
  eapply rt_bind; [apply rt_expect|]. eapply rt_bind; [apply rt_is|]. eapply rt_bind; [apply rt_consume | apply rt_node].
Qed.
Lemma found_var_init w1 w2 w3 o ts e w4 : found Expr o ts [e] ->
  found Stmt false ((T_VAR, w1) :: (T_ID, w2) :: (T_EQ, w3) :: ts ++ [(T_SEMICOLON, w4)]) [nd_tok N_VAR T_ID w2 [e]].
Proof.
  intros H ? [= <-] f rest. cbn [length app]. rewrite length_app, <- app_assoc. cbn [length]. intros Hf _.
  eapply rt_bind; [apply rt_type|]. eapply rt_bind; [apply rt_consume|]. eapply rt_bind; [apply rt_expect|].
  eapply rt_bind; [apply rt_is|]. eapply rt_bind; [apply rt_skip|].
  eapply rt_bind; [apply H; [done | lia | by apply closes_follow]|]. eapply rt_bind; [apply rt_consume | apply rt_node].
Qed.
Lemma found_return w1 w2 : found Stmt false [(T_RETURN, w1); (T_SEMICOLON, w2)] [nd N_RETURN []].
Proof.
  intros ? [= <-] f rest. cbn [length app]. intros Hf _. eapply rt_bind; [apply rt_type|]. eapply rt_bind; [apply rt_consume|].
  eapply rt_bind; [apply expr_none; [lia | done]|]. eapply rt_bind; [apply rt_consume | apply rt_node].
Qed.
Lemma found_return_expr w1 o ts e w2 : found Expr o ts [e] ->
  found Stmt false ((T_RETURN, w1) :: ts ++ [(T_SEMICOLON, w2)]) [nd N_RETURN [e]].
Proof.
  intros H ? [= <-] f rest. cbn [length app]. rewrite length_app, <- app_assoc. cbn [length]. intros Hf _.
  eapply rt_bind; [apply rt_type|]. eapply rt_bind; [apply rt_consume|].
  eapply rt_bind; [apply H; [done | lia | by apply closes_follow]|]. eapply rt_bind; [apply rt_consume | apply rt_node].
Qed.
Lemma found_jump t nt w1 w2 : (t, nt) = (T_BREAK, N_BREAK) \/ (t, nt) = (T_CONTINUE, N_CONTINUE) ->
  found Stmt false [(t, w1); (T_SEMICOLON, w2)] [nd nt []].
Proof.
  intros H ? [= <-] f rest _ _. cbn [app]. destruct H as [[= -> ->]|[= -> ->]];
    (eapply rt_bind; [apply rt_type|]; eapply rt_bind; [apply rt_consume|]; eapply rt_bind; [apply rt_consume | apply rt_node]).
Qed.
Lemma found_expr_stmt o ts e w : found Expr o ts [e] -> begins (head_type ts) = true ->
  found Stmt false (ts ++ [(T_SEMICOLON, w)]) [e].
Proof.
  intros H Hb ? [= <-] f rest. rewrite length_app, <- app_assoc. cbn [length app]. intros Hf _.
  assert (He : runs_to (expr <- parse_expr f ;; CONSUME T_SEMICOLON ;;; ret expr) (ts ++ (T_SEMICOLON, w) :: rest) (Some e) rest).
  { eapply rt_bind; [apply H; [done | lia | by apply closes_follow]|]. eapply rt_bind; [apply rt_consume | apply rt_ret]. }
  eapply rt_bind; [apply rt_type|]. destruct ts as [|[t ?] ts]; [done|]. cbn [app head_type fst] in *.
  destruct t; try discriminate Hb; exact He.
Qed.

Definition begins_stmt (t : ena_token_type) : bool :=
  match t with T_CLASS | T_FUNC | T_IF | T_WHILE | T_VAR | T_RETURN | T_BREAK | T_CONTINUE => true | _ => begins t end.
Lemma found_stmts_nil : found Stmts false [] [].
Proof.
  intros f [|n] acc rest _ Hn Hc; [simpl in *; lia|]. rewrite app_nil_r. cbn [app].
  eapply rt_bind; [eapply rt_bind; [apply rt_type|]; destruct Hc as [-> | ->]; apply rt_ret|]. apply rt_ret.
Qed.
Lemma found_stmts_cons ts1 x ts2 xs : ts1 <> [] -> (ts2 = [] \/ begins_stmt (head_type ts2) = true) ->
  found Stmt false ts1 [x] -> found Stmts false ts2 xs -> found Stmts false (ts1 ++ ts2) (x :: xs).
Proof.
  intros Hne Hb H1 H2 f n acc rest. rewrite length_app, <- app_assoc. intros Hf Hn Hc.
  destruct n as [|n]; [lia|]. destruct ts1 as [|tk ts1]; [done|]. cbn [length] in *.
  eapply rt_bind; [apply H1; [done | simpl; lia |]|].
  - destruct ts2 as [|[t ?] ts2]; [destruct Hc as [Hc|Hc]; cbn [app]; by rewrite Hc|].
    destruct Hb as [?|Hb]; [done|]. cbn in *. by destruct t.
  - rewrite (app_assoc acc [x] xs : acc ++ x :: xs = _). apply H2; [lia | lia | done].
Qed.

(** How phrases begin. *)
Lemma derives_begins r o ts res : derives r o ts res ->
  match r with
  | Expr | Bin _ | Unary | Primary => begins (head_type ts) = true
  | Stmt => begins_stmt (head_type ts) = true
  | Stmts => ts = [] \/ begins_stmt (head_type ts) = true
  | _ => True
  end.
Proof.
  induction 1; try done; try (destruct ts1 as [|[] ?]; done); try (by destruct k); try (destruct ts as [|[] ?]; done).
  - destruct ts as [|[t ?] ?]; [done|]. cbn in *. by destruct t.
  - by left.
  - right. destruct ts1 as [|[] ?]; done.
Qed.
Lemma begins_ne ts : begins (head_type ts) = true \/ begins_stmt (head_type ts) = true -> ts <> [].
Proof. by intros [H|H] ->. Qed.

(** The facts on how the sub-phrases of a derivation begin. *)
Ltac phrase_heads :=
  repeat match goal with H : derives ?r _ _ _ |- _ => pose proof (derives_begins _ _ _ _ H); revert H end; intros; cbn beta iota in *.

Lemma derives_found r o ts res : derives r o ts res -> found r o ts res.
Proof.
  induction 1; phrase_heads;
    eauto using found_equality, found_assign, found_update, found_binary, found_call, found_index, found_prop,
    found_paren, found_not, found_list, found_map, found_exprs_nil, found_exprs_one, found_exprs_cons, found_entries_nil,
    found_entries_one, found_entries_cons, found_ids_nil, found_ids_one, found_ids_cons, found_block, found_class, found_func,
    found_if, found_while, found_var, found_var_init, found_return, found_return_expr, found_jump, found_expr_stmt,
    found_stmts_nil, found_stmts_cons, found_primary, begins_ne.
  - apply found_operand; [|done]. apply begins_ne. left. by destruct k.
  - apply found_literals. intros. eapply rt_bind; [apply rt_next | apply rt_node].
  - apply found_literals. intros. eapply rt_bind; [apply rt_next | apply rt_node].
  - apply found_literals. intros. eapply rt_bind; [apply rt_next | apply rt_node].
  - apply found_signed. left. eauto.
  - apply found_signed. by right.
  - apply found_literals. intros. eapply rt_bind; [apply rt_next|]. eapply rt_bind; [by apply rt_lift | apply rt_int].
  - apply found_literals. intros. eapply rt_bind; [apply rt_next | apply rt_node].
  - apply found_literals. intros. eapply rt_bind; [apply rt_next | apply rt_node].
Qed.

End Grammar.

(** ** Programs *)

Definition program (xs : list ena_node) : ena_node := nd 1 N_PROGRAM [nd 1 N_STMTS xs].

Lemma spells_length ts text : spells ts text -> (length ts <= length text)%nat.
Proof.
  induction 1 as [|bl t w d ts r Hbl Hw Hd Hr IH]; [simpl; lia|]. rewrite !length_app. simpl in *.
  assert (w <> []) by (destruct Hw; simpl; try done; by destruct b). destruct w; [done | simpl; lia].
Qed.
(** The tokens with a blank after each. *)
Definition print (ts : list tok) : list Z := concat (map (fun t => t.2 ++ [char " "]) ts).
Lemma spells_blank d ts r : blank d = true -> spells ts r -> spells ts (d :: r).
Proof.
  intros Hd. destruct 1 as [bl Hbl|bl t w d' ts r Hbl Hw Hd' Hr]; [by constructor; constructor|].
  change (d :: bl ++ w ++ d' :: r) with ((d :: bl) ++ w ++ d' :: r). constructor; [by constructor | done..].
Qed.
Lemma spells_print ts : Forall (fun t => lexeme t.1 t.2) ts -> spells ts (print ts).
Proof.
  induction 1 as [|[t w] ts Hw Hts IH]; [by constructor|]. unfold print. cbn [map concat snd]. rewrite <- app_assoc.
  apply (spells_cons []); [done | done | done | by apply spells_blank].
Qed.
Lemma start_tokens ts text : spells ts text -> Z.of_nat (length text) < 2 ^ 63 -> at_tokens 1 ts (Lexer 0 1 text).
Proof. intros Hs Hl. split; [done|]. exists text. split; [|done]. constructor; cbn; [lia | done | by rewrite drop_0]. Qed.
Lemma parse_derived ts xs text fuel :
  derives 1 Stmts false ts xs -> spells ts text -> Z.of_nat (length text) < 2 ^ 63 -> (length ts + 2 <= fuel)%nat ->
  ena_parse fuel text = Done (Some (program xs)).
Proof.
  intros H Hs Hl Hf. pose proof (rt_stmts 1 fuel ts xs [] (derives_found _ _ _ _ _ H) Hf ltac:(by right)) as Hr.
  rewrite app_nil_r in Hr.
  assert (Hp : runs_to 1 (parse_program fuel) ts (Some (program xs)) []) by (eapply rt_bind; [exact Hr | apply rt_node]).
  destruct (Hp _ (start_tokens _ _ Hs Hl)) as (s' & E & _). unfold ena_parse. by rewrite E.
Qed.

Ltac lex_concrete :=
  match goal with |- lexeme ?t ?w =>
    let w' := eval vm_compute in w in change w with w';
    match w' with ?c :: ?r => first
      [ by apply (lexeme_int c r); repeat constructor
      | refine (lexeme_word c r _ _ : lexeme t w'); [done | by repeat constructor]
      | by apply (lexeme_single c)
      | let d := eval vm_compute in (double c) in
        match d with Some (?eq, ?plain) => first [by apply (lexeme_plain c eq plain) | by apply (lexeme_eq c eq plain)] end ]
    end
  end.

(** ** The written language *)

(** The words and signs of the language, and their tokens.  [else] is not among the words:
    the lexer takes it for an identifier ([else_rejected]). *)
Definition fixed (name : String.string) (t : ena_token_type) : String.string * ena_token_type := (name, t).
Definition keywords : list (String.string * ena_token_type) :=
  [fixed "if" T_IF; fixed "or" T_OR; fixed "var" T_VAR; fixed "not" T_NOT; fixed "and" T_AND; fixed "null" T_NULL; fixed "true" T_TRUE; fixed "func" T_FUNC;
   fixed "false" T_FALSE; fixed "while" T_WHILE; fixed "break" T_BREAK; fixed "class" T_CLASS; fixed "return" T_RETURN; fixed "continue" T_CONTINUE].
Definition signs : list (String.string * ena_token_type) :=
  [fixed ";" T_SEMICOLON; fixed ":" T_DOUBLECOLON; fixed "(" T_LPAREN; fixed ")" T_RPAREN; fixed "[" T_LBRACKET; fixed "]" T_RBRACKET;
   fixed "{" T_LBRACE; fixed "}" T_RBRACE; fixed "." T_DOT; fixed "," T_COMMA; fixed "=" T_EQ; fixed "==" T_DOUBLE_EQ; fixed "!=" T_NEQ;
   fixed "<" T_LT; fixed "<=" T_LTE; fixed ">" T_GT; fixed ">=" T_GTE; fixed "+" T_PLUS; fixed "-" T_MINUS; fixed "*" T_ASTERISK; fixed "/" T_SLASH;
   fixed "%" T_PERCENT; fixed "+=" T_ADD_ASSIGN; fixed "-=" T_SUB_ASSIGN; fixed "*=" T_MUL_ASSIGN; fixed "/=" T_DIV_ASSIGN; fixed "%=" T_MOD_ASSIGN].
Definition letter (c : Z) : Prop := 65 <= c <= 90 \/ 97 <= c <= 122 \/ c = 95.
Definition digit (c : Z) : Prop := 48 <= c <= 57.
Inductive written : tok -> Prop :=
| written_fixed name t : (name, t) ∈ keywords ++ signs -> written (t, chars name)
| written_name c w : letter c -> Forall (fun c => letter c \/ digit c) w -> (forall k, k ∈ keywords -> chars k.1 <> c :: w) ->
    written (T_ID, c :: w)
| written_number c w : digit c -> Forall digit w -> written (T_INT_LIT, c :: w)
| written_string b : body_ok 0 b -> written (T_STRING_LIT, QUOTE :: b ++ [QUOTE]).
(** A text of one line: each token is followed by a blank at least. *)
Inductive writes : list tok -> list Z -> Prop :=
| writes_nil bl : Forall (fun c => blank c = true) bl -> writes [] bl
| writes_cons bl t w d ts r : Forall (fun c => blank c = true) bl -> written (t, w) -> blank d = true ->
    writes ts (d :: r) -> writes ((t, w) :: ts) (bl ++ w ++ d :: r).

(** Only a word that begins like [name] compares equal to it. *)
Lemma strncmp_prefix w : forall name, Forall (fun c => c <> 0) w -> w <> [] -> Z.of_nat (length w) < 2 ^ 64 ->
  ena_strncmp w name (Z.of_nat (length w)) = 0 -> w `prefix_of` name.
Proof.
  induction w as [|c w IH]; intros name Hw Hne Hl E; [done|]. apply Forall_cons in Hw as [Hc Hw].
  destruct name as [|d name]; cbn [ena_strncmp hd] in E; [lia|].
  destruct (Z.eqb_spec (c - d) 0) as [Hcd|]; cbn [negb] in E; [|lia]. replace d with c by lia. apply prefix_cons.
  replace (Z.of_nat (length (c :: w)) - 1) with (Z.of_nat (length w)) in E by (simpl; lia). simpl in Hl.
  rewrite u64_small in E by lia. destruct w as [|x w]; [apply prefix_nil|].
  destruct (Z.eqb_spec (Z.of_nat (length (x :: w))) 0); [simpl in *; lia|]. apply IH; [done | done | simpl in *; lia | done].
Qed.
Lemma special_word w name num : Forall (fun c => c <> 0) w -> Z.of_nat (length w) = num -> 0 < num < 2 ^ 64 -> special w name num = true ->
  exists r, chars name = w ++ r.
Proof.
  intros Hw <- Hn E. unfold special in E. apply Z.eqb_eq, strncmp_prefix in E; [done | done | intros ->; simpl in Hn; lia | lia].
Qed.
Lemma name_type w : Forall (fun c => c <> 0) w -> w <> [] -> (forall k, k ∈ keywords -> chars k.1 <> w) -> id_type w (Z.of_nat (length w)) = T_ID.
Proof.
  intros Hw Hne Hk.
  assert (Hs : forall name num, Z.of_nat (length w) = num -> 0 < num < 2 ^ 64 -> (Z.of_nat (length (chars name)) < num \/
    (Z.of_nat (length (chars name)) = num /\ exists t, (name, t) ∈ keywords)) -> special w name num = false).
  { intros name num Hl Hn Hnum. destruct (special w name num) eqn:E; [|done]. exfalso.
    destruct (special_word w name num Hw Hl Hn E) as [r Hr]. rewrite Hr, length_app in Hnum.
    destruct Hnum as [?|[Hq [t Hin]]]; [lia|]. destruct r; [|simpl in Hq; lia]. rewrite app_nil_r in Hr. by apply (Hk _ Hin). }
  unfold id_type. repeat match goal with
  | |- (if ?a =? ?b then _ else _) = _ => destruct (Z.eqb_spec a b)
  | |- (if special w ?n ?k then _ else _) = _ =>
      rewrite (Hs n k) by first [done | lia | first [left; done | right; split; [done | eexists; unfold keywords, fixed; repeat (apply elem_of_cons; first [left; reflexivity | right])]]]
  end; done.
Qed.
Lemma letter_ok c : letter c -> id_start c = true /\ c <> 0.
Proof. intros H. split; [by apply id_start_range | unfold letter in H; lia]. Qed.
Lemma written_lexeme t w : written (t, w) -> lexeme t w.
Proof.
  inversion 1 as [name t' Hin|c w' Hc Hw Hk|c w' Hc Hw|b Hb]; subst.
  - unfold keywords, signs, fixed in Hin. cbn [app] in Hin.
    repeat (apply elem_of_cons in Hin as [Hin|Hin]; [injection Hin as -> ->; first [lex_concrete | apply lexeme_slash | apply lexeme_div]|]).
    by apply not_elem_of_nil in Hin.
  - rewrite <- (name_type (c :: w')); [|constructor; [by apply letter_ok|]; eapply Forall_impl; [exact Hw|] | done | done].
    + apply lexeme_word; [by apply letter_ok|]. eapply Forall_impl; [exact Hw|]. intros x Hx. apply id_char_range. unfold letter, digit in Hx. lia.
    + intros x [Hx|Hx]; [by apply letter_ok | unfold digit in Hx; lia].
  - apply lexeme_int; [by apply digit_range|]. eapply Forall_impl; [exact Hw|]. intros x Hx. by apply digit_range.
  - by apply lexeme_string.
Qed.
Lemma writes_spells ts text : writes ts text -> spells ts text.
Proof. induction 1; constructor; [done..| by apply written_lexeme | done | done]. Qed.


(** [while x < 3 { x += f ( y . z , - 1 ) ; }] *)
Definition example_tokens : list tok :=
  [(T_WHILE, chars "while"); (T_ID, chars "x"); (T_LT, chars "<"); (T_INT_LIT, chars "3"); (T_LBRACE, chars "{");
   (T_ID, chars "x"); (T_ADD_ASSIGN, chars "+="); (T_ID, chars "f"); (T_LPAREN, chars "("); (T_ID, chars "y"); (T_DOT, chars ".");
   (T_ID, chars "z"); (T_COMMA, chars ","); (T_MINUS, chars "-"); (T_INT_LIT, chars "1"); (T_RPAREN, chars ")");
   (T_SEMICOLON, chars ";"); (T_RBRACE, chars "}")].
Definition example_tree : list ena_node :=
  let n := nd 1 in let id w := nd_tok 1 N_ID T_ID w [] in
  [n N_WHILE [n N_OP_LT [id (chars "x"); nd_int 1 3];
    n N_STMTS [n N_OP_ASSIGN [id (chars "x"); n N_OP_ADD [id (chars "x");
      n N_CALL [id (chars "f"); n N_EXPR_LIST [nd_tok 1 N_PROP T_ID (chars "z") [id (chars "y")]; nd_int 1 (- 1)]]]]]]].
(** Down to the tightest level. *)
Ltac to_unary := repeat (apply d_operand; cbn [sub]).
Ltac descend := to_unary; try apply d_primary.
Lemma example_derived : derives 1 Stmts false example_tokens example_tree.
Proof.
  apply (d_stmts_cons 1 example_tokens _ [] []); [|apply d_stmts_nil].
  apply (d_while 1 _ false (take 3 (drop 1 example_tokens)) _ (drop 4 example_tokens)).
  - do 4 (apply d_equality || (apply d_operand; cbn [sub])).
    apply (d_binary 1 LCmp [(T_ID, chars "x")] _ T_LT _ _ false [(T_INT_LIT, chars "3")]); [|done|]; descend; by constructor.
  - apply (d_block 1 _ (take 12 (drop 5 example_tokens)) _ (chars "}")).
    apply (d_stmts_cons 1 (take 12 (drop 5 example_tokens)) _ [] []); [|apply d_stmts_nil]. apply (d_expr_stmt 1 true (take 11 (drop 5 example_tokens))).
    apply (d_update 1 [(T_ID, chars "x")] _ T_ADD_ASSIGN _ _ false (take 9 (drop 7 example_tokens))); [descend; by constructor | done |].
    apply d_equality. to_unary. apply (d_call 1 [(T_ID, chars "f")] _ _ (take 6 (drop 9 example_tokens))).
    { descend. by constructor. }
    apply (d_exprs_cons 1 false (take 3 (drop 9 example_tokens)) _ _ (take 2 (drop 13 example_tokens))).
    + apply d_equality. to_unary. apply (d_prop 1 [(T_ID, chars "y")]). descend. by constructor.
    + eapply d_exprs_one, d_equality. descend. by apply (d_minus 1 _ _ 1).
Qed.
Lemma example_lexemes : Forall (fun t => lexeme t.1 t.2) example_tokens.
Proof. repeat (constructor; [cbn [fst snd]; lex_concrete|]). constructor. Qed.

Lemma example_written : writes example_tokens (print example_tokens).
Proof.
  assert (W : forall ts, Forall written ts -> writes ts (print ts)).
  { assert (WB : forall d ts r, blank d = true -> writes ts r -> writes ts (d :: r)).
    { intros d ts r Hd. destruct 1 as [bl Hbl|bl t w d' ts r Hbl Hw Hd' Hr]; [by constructor; constructor|].
      change (d :: bl ++ w ++ d' :: r) with ((d :: bl) ++ w ++ d' :: r). constructor; [by constructor | done..]. }
    induction 1 as [|[t w] ts Hw Hts IH]; [by constructor|]. unfold print. cbn [map concat snd]. rewrite <- app_assoc.
    apply (writes_cons []); [done | done | done | by apply WB]. }
  apply W. repeat (constructor; [first
    [ solve [apply written_fixed; unfold keywords, signs, fixed; cbn [app]; repeat (apply elem_of_cons; first [left; reflexivity | right])]
    | apply written_number; [unfold digit; vm_compute; split; discriminate | constructor]
    | apply written_name; [unfold letter; vm_compute; right; left; split; discriminate | constructor | intros k Hk; unfold keywords, fixed in Hk;
        repeat (apply elem_of_cons in Hk as [->|Hk]; [by vm_compute|]); by apply not_elem_of_nil in Hk] ]|]). constructor.
Qed.

(** ** Syntax errors *)

Definition fails_at (l : Z) {A} (m : M ena_lexer A) (ts : list tok) : Prop := forall s, at_tokens l ts s -> m s = Panic.
Lemma fails_bind l {A B} (m : M ena_lexer A) (k : A -> M ena_lexer B) ts : fails_at l m ts -> fails_at l (bind m k) ts.
Proof. intros H s Hs. unfold bind. by rewrite (H s Hs). Qed.
Lemma fails_later l {A B} (m : M ena_lexer A) (k : A -> M ena_lexer B) ts a mid :
  runs_to l m ts a mid -> fails_at l (k a) mid -> fails_at l (bind m k) ts.
Proof. intros H1 H2 s Hs. destruct (H1 s Hs) as (s1 & E & Hs1). unfold bind. rewrite E. by apply H2. Qed.
Lemma fails_consume l t ts : head_type ts <> t -> fails_at l (CONSUME t) ts.
Proof.
  intros H s Hs. destruct (next_pushback_ok _ _ _ Hs) as (token & s1 & s2 & E1 & Ht & _).
  unfold CONSUME, ena_expect_token, bind. rewrite E1, Ht. unfold token_is. by rewrite bool_decide_false.
Qed.
Lemma fails_parse ts text fuel : fails_at 1 (parse_stmts fuel) ts -> spells ts text -> Z.of_nat (length text) < 2 ^ 63 ->
  ena_parse fuel text = Done None.
Proof.
  intros H Hs Hl. unfold ena_parse, parse_program. by rewrite (fails_bind _ _ _ _ H _ (start_tokens _ _ Hs Hl)).
Qed.
Lemma fails_second l pe ps m n acc ts x mid : runs_to l (parse_stmt pe ps m) ts (Some x) mid ->
  fails_at l (parse_stmt pe ps m) mid -> (2 <= n)%nat -> fails_at l (stmts_loop pe ps m n acc) ts.
Proof.
  intros H1 H2 Hn. destruct n as [|[|n]]; [lia..|]. eapply fails_later; [exact H1|]. by apply fails_bind.
Qed.

(** The word is an identifier for the lexer, which looks for the keyword [if] among
    the words of four letters. *)
Lemma else_is_identifier : lexeme T_ID (chars "else").
Proof. lex_concrete. Qed.
Lemma fails_else l f w w' ts : (4 <= f)%nat ->
  fails_at l (parse_stmt (parse_expr f) (parse_stmts f) f) ((T_ID, w) :: (T_LBRACE, w') :: ts).
Proof.
  assert (D : derives l Expr false [(T_ID, w)] [nd_tok l N_ID T_ID w []]) by (apply d_equality; descend; apply d_id).
  intros Hf. eapply fails_later; [apply rt_type|]. eapply fails_later.
  - apply (derives_found _ _ _ _ _ D _ eq_refl f ((T_LBRACE, w') :: ts)); [simpl; lia | done].
  - by apply fails_bind, fails_consume.
Qed.

(** An [if] statement with an [else] branch is a syntax error: no text that
    spells a condition, a block, the word [else] and a block is accepted. *)
Theorem else_rejected w o ts1 c ts2 b w' ts3 text :
  derives 1 Expr o ts1 [c] -> derives 1 Block false ts2 [b] ->
  spells ((T_IF, w) :: ts1 ++ ts2 ++ (T_ID, chars "else") :: (T_LBRACE, w') :: ts3) text -> Z.of_nat (length text) < 2 ^ 63 ->
  ena_parse (length text + 2) text = Done None.
Proof.
  intros D1 D2 Hs Hl. pose proof (spells_length _ _ Hs) as Hn. eapply fails_parse; [|exact Hs | exact Hl].
  pose proof (derives_found _ _ _ _ _ (d_if 1 w o ts1 c ts2 b D1 D2)) as H. simpl in Hn. rewrite !length_app in Hn. simpl in Hn.
  pose proof (begins_ne _ (or_introl (derives_begins _ _ _ _ _ D1))) as Hne. destruct ts1 as [|tk ts1]; [done|]. simpl in Hn.
  rewrite <- plus_n_Sm. apply (fails_bind 1 (stmts_loop _ _ _ _ [])). rewrite app_comm_cons, app_assoc.
  eapply fails_second; [apply (H _ eq_refl); [simpl; rewrite length_app; simpl; lia | done] | apply fails_else; lia | lia].
Qed.

Lemma else_rejected_witness :
  let text := print [(T_IF, chars "if"); (T_ID, chars "x"); (T_LBRACE, chars "{"); (T_RBRACE, chars "}"); (T_ID, chars "else");
                     (T_LBRACE, chars "{"); (T_RBRACE, chars "}")] in
  ena_parse (length text + 2) text = Done None.
Proof.
  apply (else_rejected (chars "if") false [(T_ID, chars "x")] (nd_tok 1 N_ID T_ID (chars "x") [])
    [(T_LBRACE, chars "{"); (T_RBRACE, chars "}")] (nd 1 N_STMTS []) (chars "{") [(T_RBRACE, chars "}")]).
  - apply d_equality. descend. apply d_id.
  - apply (d_block 1 _ [] []), d_stmts_nil.
  - apply spells_print. repeat (constructor; [cbn [fst snd]; lex_concrete|]). constructor.
  - done.
Defined.
