(* ===== verification/EnaHash.v ===== *)
(** * ena: hash tables

    [tiny-script-interpreter/src/hash.c]: tables with chained buckets, which hold
    the identifiers, the variables of a scope, the methods of a class and the
    entries of a map.  The functions to compare and to hash keys are a class, as
    [ena_hash_methods] is a structure of functions in the code.

    A bucket is the chain of its entries.  Each entry is pointed to by one pointer
    only, the bucket's or the [next] of the entry before it, so that the chain has
    all there is to know about the pointers; [Dangling] is a pointer to an entry
    that was freed. *)
From S2P Require Import Prelude EnaLexer.
Import Lex.
#[local] Open Scope Z_scope.

Class HashMethods (K : Type) := { equals : K -> K -> outcome bool; hash : K -> outcome Z }.

Inductive chain (K V : Type) :=
| Null
| Entry (digest : Z) (key : K) (value : V) (next : chain K V)
| Dangling.
Arguments Null {_ _}.
Arguments Entry {_ _} _ _ _ _.
Arguments Dangling {_ _}.

Record ena_hash_table (K V : Type) := Table { buckets : list (chain K V); num_buckets : Z; num_entries : Z }.
Arguments Table {_ _} _ _ _.
Arguments buckets {_ _} _.
Arguments num_buckets {_ _} _.
Arguments num_entries {_ _} _.

Definition some_or_undef {A} (o : option A) : outcome A := match o with Some a => Done a | None => Undef end.

Module Hash.

Definition INITIAL_NUM_BUCKETS : Z := 32.

Section Ops.
Context {K V : Type} `{HashMethods K}.
Implicit Types (t : ena_hash_table K V) (c : chain K V).

Definition ena_hash_init_table : ena_hash_table K V := Table (replicate (Z.to_nat INITIAL_NUM_BUCKETS) Null) INITIAL_NUM_BUCKETS 0.

Definition ENTRY_EQUALS (digest : Z) (key entry_key : K) : outcome bool :=
  d <-- hash key ;; if negb (digest =? d) then Done false else equals key entry_key.

(** The bucket of a key. *)
Definition bucket_index t (digest : Z) : Z := digest mod num_buckets t.
Definition bucket t (i : Z) : outcome (chain K V) := some_or_undef (arr_get (buckets t) i).
Definition set_bucket t (i : Z) c : outcome (list (chain K V)) := some_or_undef (arr_set (buckets t) i c).

(** The entry that is found, as its place in the bucket. *)
Fixpoint search_chain (digest : Z) (key : K) c (pos : nat) : outcome (option nat) :=
  match c with
  | Null => Done None
  | Dangling => Undef
  | Entry _ k _ next =>
      b <-- ENTRY_EQUALS digest key k ;;
      if b then Done (Some pos) else search_chain digest key next (S pos)
  end.
Definition entry_ptr : Type := Z * nat.
Definition ena_hash_search t (key : K) : outcome (option entry_ptr) :=
  digest <-- hash key ;;
  let i := bucket_index t digest in
  c <-- bucket t i ;;
  pos <-- search_chain digest key c 0 ;;
  Done (match pos with Some pos => Some (i, pos) | None => None end).

(** [e->value] and [e->value = value]. *)
Fixpoint chain_value c (pos : nat) : outcome V :=
  match c, pos with
  | Entry _ _ v _, O => Done v
  | Entry _ _ _ next, S pos => chain_value next pos
  | _, _ => Undef
  end.
Definition entry_value t (e : entry_ptr) : outcome V := c <-- bucket t e.1 ;; chain_value c e.2.
Fixpoint chain_set_value c (pos : nat) (value : V) : outcome (chain K V) :=
  match c, pos with
  | Entry d k _ next, O => Done (Entry d k value next)
  | Entry d k v next, S pos => next <-- chain_set_value next pos value ;; Done (Entry d k v next)
  | _, _ => Undef
  end.
Definition set_entry_value t (e : entry_ptr) (value : V) : outcome (ena_hash_table K V) :=
  c <-- bucket t e.1 ;;
  c <-- chain_set_value c e.2 value ;;
  bs <-- set_bucket t e.1 c ;;
  Done (Table bs (num_buckets t) (num_entries t)).

(** The walk to the pointer that is [NULL], where the new entry goes. *)
Fixpoint append_chain c (new_entry : chain K V) : outcome (chain K V) :=
  match c with
  | Null => Done new_entry
  | Dangling => Undef
  | Entry d k v next => next <-- append_chain next new_entry ;; Done (Entry d k v next)
  end.
(** The body of [rehash] is empty. *)
Definition rehash t : ena_hash_table K V := t.
Definition ena_hash_insert t (key : K) (value : V) : outcome (ena_hash_table K V) :=
  digest <-- hash key ;;
  let i := bucket_index t digest in
  c <-- bucket t i ;;
  d <-- hash key ;;
  c <-- append_chain c (Entry d key value Null) ;;
  bs <-- set_bucket t i c ;;
  n <-- as_int (num_entries t + 1) ;;
  let t := Table bs (num_buckets t) n in
  Done (if 8 <? n / num_buckets t then rehash t else t).

(** The entry with the key, if there is one, and the table. *)
Definition ena_hash_search_or_insert t (key : K) (value : V) : outcome (option entry_ptr * ena_hash_table K V) :=
  e <-- ena_hash_search t key ;;
  match e with
  | Some e => Done (Some e, t)
  | None => t <-- ena_hash_insert t key value ;; Done (None, t)
  end.

(** The chain without the first entry with the key.  The pointer in the bucket is
    not changed when it is the one to the entry that is freed ([prev] is [NULL]). *)
Fixpoint remove_chain (digest : Z) (key : K) c (first : bool) : outcome (option (chain K V)) :=
  match c with
  | Null => Done None
  | Dangling => Undef
  | Entry d k v next =>
      b <-- ENTRY_EQUALS digest key k ;;
      if b then Done (Some (if first then Dangling else next))
      else r <-- remove_chain digest key next false ;; Done (match r with Some r => Some (Entry d k v r) | None => None end)
  end.
Definition ena_hash_remove t (key : K) : outcome (bool * ena_hash_table K V) :=
  digest <-- hash key ;;
  let i := bucket_index t digest in
  c <-- bucket t i ;;
  r <-- remove_chain digest key c true ;;
  match r with
  | None => Done (false, t)
  | Some c => bs <-- set_bucket t i c ;; n <-- as_int (num_entries t - 1) ;; Done (true, Table bs (num_buckets t) n)
  end.
Fixpoint ena_hash_remove_all (fuel : nat) t (key : K) : outcome (ena_hash_table K V) :=
  match fuel with
  | O => Fuel
  | S fuel => r <-- ena_hash_remove t key ;; if (r.1 : bool) then ena_hash_remove_all fuel r.2 key else Done r.2
  end.

(** The keys and the values, in the order in which [ena_hash_foreach_key] and
    [ena_hash_foreach_value] come to them. *)
Fixpoint chain_entries c : outcome (list (K * V)) :=
  match c with
  | Null => Done []
  | Dangling => Undef
  | Entry _ k v next => r <-- chain_entries next ;; Done ((k, v) :: r)
  end.
Fixpoint all_entries (cs : list (chain K V)) : outcome (list (K * V)) :=
  match cs with [] => Done [] | c :: cs => a <-- chain_entries c ;; r <-- all_entries cs ;; Done (a ++ r) end.
Definition foreach_key t : outcome (list K) := es <-- all_entries (buckets t) ;; Done (map fst es).
Definition foreach_value t : outcome (list V) := es <-- all_entries (buckets t) ;; Done (map snd es).
(** The walk over all entries to free them. *)
Definition ena_hash_free_table t : outcome unit := _ <-- all_entries (buckets t) ;; Done tt.

End Ops.

(** Identifiers are integers. *)
#[export] Instance ident_hash_methods : HashMethods Z := {| equals k1 k2 := Done (k1 =? k2); hash k := Done k |}.

Fixpoint ena_strcmp (s1 s2 : list Z) : Z :=
  match s1, s2 with
  | c1 :: t1, c2 :: t2 => if negb (c1 - c2 =? 0) then c1 - c2 else ena_strcmp t1 t2
  | _, _ => hd 0 s1 - hd 0 s2
  end.
Definition cstr_hash (s : list Z) : Z := fold_left (fun digest c => u64 (digest + c)) s 0.
#[export] Instance cstr_hash_methods : HashMethods (list Z) :=
  {| equals k1 k2 := Done (ena_strcmp k1 k2 =? 0); hash k := Done (cstr_hash k) |}.

End Hash.
Import Hash.

(** ** Tables as maps *)

(** What a table needs of its methods: on proper keys, [equals] is equality and
    [hash] always gives the same number for a key. *)
Class HashLaws (K : Type) `{HashMethods K} `{EqDecision K} := {
  proper : K -> Prop;
  digest_of : K -> Z;
  equals_proper k1 k2 : proper k1 -> proper k2 -> equals k1 k2 = Done (bool_decide (k1 = k2));
  hash_proper k : proper k -> hash k = Done (digest_of k) /\ 0 <= digest_of k
}.

#[export] Program Instance ident_hash_laws : HashLaws Z := {| proper k := 0 <= k; digest_of k := k |}.
Next Obligation. intros k1 k2 _ _. simpl. f_equal. symmetry. destruct (Z.eqb_spec k1 k2); [by apply bool_decide_true | by apply bool_decide_false]. Qed.
Next Obligation. done. Qed.

Lemma strcmp_eq s1 : forall s2, Forall (fun c => 0 < c) s1 -> Forall (fun c => 0 < c) s2 ->
  (ena_strcmp s1 s2 =? 0) = bool_decide (s1 = s2).
Proof.
  induction s1 as [|c1 s1 IH]; intros [|c2 s2] H1 H2; inversion H1; inversion H2; subst; cbn [ena_strcmp hd].
  - by rewrite bool_decide_true.
  - rewrite bool_decide_false by done. lia.
  - rewrite bool_decide_false by done. lia.
  - destruct (Z.eqb_spec (c1 - c2) 0); simpl.
    + assert (c1 = c2) as -> by lia. rewrite IH by done. apply bool_decide_ext. split; congruence.
    + rewrite bool_decide_false by (intros [= -> _]; lia). lia.
Qed.
Lemma cstr_hash_pos s : 0 <= cstr_hash s.
Proof.
  unfold cstr_hash. assert (H : forall z, 0 <= z -> 0 <= fold_left (fun digest c => u64 (digest + c)) s z); [|by apply H].
  induction s as [|c s IH]; [done|]. intros z Hz. apply IH. unfold u64. by apply Z.mod_pos_bound.
Qed.
#[export] Program Instance cstr_hash_laws : HashLaws (list Z) := {| proper := Forall (fun c => 0 < c); digest_of := cstr_hash |}.
Next Obligation. intros k1 k2 H1 H2. simpl. by rewrite strcmp_eq. Qed.
Next Obligation. intros k _. split; [done | apply cstr_hash_pos]. Qed.

Section Refinement.
Context {K V : Type} `{HashLaws K}.
Implicit Types (t : ena_hash_table K V) (k : K) (v : V).

(** A chain without dangling pointers, from its entries. *)
#[local] Abbreviation entry := (Z * K * V)%type.
Definition entry_key (e : entry) : K := e.1.2.
Fixpoint of_list (l : list entry) : chain K V :=
  match l with [] => Null | (d, k, v) :: l => Entry d k v (of_list l) end.
(** The values of a key, first to last. *)
Fixpoint assoc (k : K) (l : list entry) : list V :=
  match l with [] => [] | (_, k', v) :: l => if decide (k = k') then v :: assoc k l else assoc k l end.
Definition keys_proper (l : list entry) : Prop := Forall (fun e => proper (entry_key e)) l.

Lemma ENTRY_EQUALS_proper k k' : proper k -> proper k' ->
  ENTRY_EQUALS (digest_of k) k k' = Done (bool_decide (k = k')).
Proof.
  intros Hk Hk'. unfold ENTRY_EQUALS. destruct (hash_proper k Hk) as [-> _]. simpl. by rewrite Z.eqb_refl, equals_proper.
Qed.

(** The search ends at the first entry with the key; changing its value changes
    nothing else. *)
Lemma search_chain_spec k l : proper k -> keys_proper l -> forall p,
  match assoc k l with
  | [] => search_chain (digest_of k) k (of_list l) p = Done None
  | x :: r => exists j, search_chain (digest_of k) k (of_list l) p = Done (Some (p + j)%nat) /\ chain_value (of_list l) j = Done x /\
      forall v, exists l', chain_set_value (of_list l) j v = Done (of_list l') /\ map entry_key l' = map entry_key l /\
        assoc k l' = v :: r /\ forall k', k' <> k -> assoc k' l' = assoc k' l
  end.
Proof.
  intros Hk. induction 1 as [|[[d k'] x] l Hk' Hl IH]; intros p; [done|]. simpl in *.
  rewrite ENTRY_EQUALS_proper by done. simpl. destruct (decide (k = k')) as [<-|Hne].
  - rewrite bool_decide_true by done. exists 0%nat. rewrite Nat.add_0_r. split; [done|]. split; [done|]. intros v.
    exists ((d, k, v) :: l). simpl. rewrite decide_True by done. do 3 (split; [done|]). intros k' Hk1. by rewrite !decide_False.
  - rewrite bool_decide_false by done. specialize (IH (S p)). destruct (assoc k l) as [|y r]; [done|].
    destruct IH as (j & -> & Hv & Hs). exists (S j). rewrite Nat.add_succ_r. split; [done|]. split; [done|]. intros v.
    destruct (Hs v) as (l' & -> & Hm & Ha & Ho). exists ((d, k', x) :: l'). simpl. rewrite decide_False by done.
    split; [done|]. split; [by f_equal|]. split; [done|]. intros k1 Hk1. by rewrite Ho.
Qed.
Lemma append_chain_spec l d k v : append_chain (of_list l) (Entry d k v Null) = Done (of_list (l ++ [(d, k, v)])).
Proof. induction l as [|[[d' k'] v'] l IH]; [done|]. simpl. by rewrite IH. Qed.
Lemma assoc_app k l1 l2 : assoc k (l1 ++ l2) = assoc k l1 ++ assoc k l2.
Proof. induction l1 as [|[[d' k'] v'] l IH]; [done|]. simpl. destruct (decide _); [simpl; by rewrite IH | done]. Qed.

(** The number of the bucket of a key. *)
Definition slot k : nat := Z.to_nat (digest_of k mod INITIAL_NUM_BUCKETS).
Lemma slot_bound k : proper k -> (slot k < 32)%nat /\ Z.of_nat (slot k) = digest_of k mod INITIAL_NUM_BUCKETS.
Proof.
  intros Hk. destruct (hash_proper k Hk) as [_ Hd]. unfold slot, INITIAL_NUM_BUCKETS.
  pose proof (Z.mod_pos_bound (digest_of k) 32). lia.
Qed.

(** [t] has the entries [L], bucket by bucket. *)
Record holds t (L : list (list entry)) : Prop := Holds {
  h_buckets : buckets t = map of_list L;
  h_length : length L = 32%nat;
  h_num : num_buckets t = 32;
  h_entries : num_entries t = Z.of_nat (length (concat L));
  h_proper : forall i l, L !! i = Some l -> keys_proper l
}.
(** The contents of the table: the values of each key. *)
Definition contents (L : list (list entry)) k : list V := assoc k (default [] (L !! slot k)).

Lemma init_holds : holds ena_hash_init_table (replicate 32 []).
Proof. split; try done. intros i l [-> _]%lookup_replicate. constructor. Qed.

Lemma bucket_holds t L k : holds t L -> proper k -> exists l, L !! slot k = Some l /\ keys_proper l /\
  bucket_index t (digest_of k) = Z.of_nat (slot k) /\ bucket t (Z.of_nat (slot k)) = Done (of_list l).
Proof.
  intros [Hb Hl Hn _ Hp] Hk. destruct (slot_bound k Hk) as [Hs He].
  destruct (lookup_lt_is_Some_2 L (slot k)) as [l Hsl]; [lia|]. exists l. split; [done|]. split; [by eapply Hp|].
  split; [by unfold bucket_index; rewrite Hn, He|]. unfold bucket. rewrite Hb.
  rewrite (proj2 (arr_get_Some _ _ (of_list l))); [done|]. split; [lia|]. by rewrite Nat2Z.id, list_lookup_fmap, Hsl.
Qed.
Lemma length_concat_insert {A} (L : list (list A)) i l l' : L !! i = Some l ->
  (length (concat (<[i := l']> L)) + length l = length (concat L) + length l')%nat.
Proof.
  revert i. induction L as [|x L IH]; intros [|i] Hi; try done; simpl in *; rewrite !length_app.
  - injection Hi as ->. lia.
  - specialize (IH _ Hi). lia.
Qed.
(** One bucket is replaced. *)
Lemma set_bucket_holds t L k l l' n : holds t L -> proper k -> L !! slot k = Some l -> keys_proper l' ->
  n = num_entries t + Z.of_nat (length l') - Z.of_nat (length l) ->
  exists bs, set_bucket t (Z.of_nat (slot k)) (of_list l') = Done bs /\ holds (Table bs (num_buckets t) n) (<[slot k := l']> L).
Proof.
  intros [Hb Hl Hn He Hp] Hk Hs Hl' ->. destruct (slot_bound k Hk) as [Hlt _]. unfold set_bucket. rewrite Hb.
  rewrite arr_set_Some by (rewrite length_map; lia). rewrite Nat2Z.id. eexists. split; [reflexivity|].
  pose proof (length_concat_insert L (slot k) l l' Hs). split; simpl.
  - by rewrite (list_fmap_insert of_list).
  - by rewrite length_insert.
  - done.
  - lia.
  - intros i l2 Hi. destruct (decide (slot k = i)) as [<-|Hne].
    + rewrite list_lookup_insert_eq in Hi by lia. by injection Hi as <-.
    + rewrite list_lookup_insert_ne in Hi by done. by eapply Hp.
Qed.
Lemma contents_insert L k l l' k' : length L = 32%nat -> proper k -> L !! slot k = Some l ->
  (forall k1, k1 <> k -> assoc k1 l' = assoc k1 l) ->
  contents (<[slot k := l']> L) k' = if decide (k' = k) then assoc k l' else contents L k'.
Proof.
  intros HL Hk Hl Ho. destruct (slot_bound k Hk) as [Hlt _]. unfold contents. destruct (decide (slot k = slot k')) as [E|E].
  - rewrite <- E, list_lookup_insert_eq, Hl by lia. simpl. destruct (decide (k' = k)) as [->|Hne]; [done | by apply Ho].
  - rewrite list_lookup_insert_ne by done. rewrite decide_False; [done | by intros ->].
Qed.

(** The value found for a key is the first one; changing it through the entry
    changes nothing else. *)
Lemma search_holds t L k : holds t L -> proper k ->
  match contents L k with
  | [] => ena_hash_search t k = Done None
  | x :: r => exists e, ena_hash_search t k = Done (Some e) /\ entry_value t e = Done x /\
      forall v, exists t' L', set_entry_value t e v = Done t' /\ holds t' L' /\ num_entries t' = num_entries t /\
        forall k', contents L' k' = if decide (k' = k) then v :: r else contents L k'
  end.
Proof.
  intros Ht Hk. destruct (bucket_holds _ _ _ Ht Hk) as (l & Hl & Hp & Hi & Hb). destruct (hash_proper k Hk) as [Hd _].
  unfold ena_hash_search. rewrite Hd. simpl. rewrite Hi, Hb. simpl.
  assert (Hc : contents L k = assoc k l) by (unfold contents; by rewrite Hl). rewrite Hc.
  pose proof (search_chain_spec k l Hk Hp 0) as Hs. destruct (assoc k l) as [|x r]; [by rewrite Hs|].
  destruct Hs as (j & -> & Hv & Hset). simpl. eexists. split; [reflexivity|]. unfold entry_value, set_entry_value. simpl. rewrite Hb. simpl.
  split; [done|]. intros v. destruct (Hset v) as (l' & -> & Hm & Ha & Ho). simpl.
  pose proof (f_equal length Hm) as Hll. rewrite !length_map in Hll.
  assert (Hp' : keys_proper l').
  { unfold keys_proper in *. rewrite <- (Forall_map entry_key proper) in *. by rewrite Hm. }
  destruct (set_bucket_holds t L k l l' (num_entries t) Ht Hk Hl Hp' ltac:(lia)) as (bs & -> & Hh). simpl.
  eexists _, _. split; [reflexivity|]. split; [exact Hh|]. split; [done|]. intros k'.
  rewrite (contents_insert L k l) by (done || apply Ht). by rewrite Ha.
Qed.
(** A new entry goes behind those with the same key. *)
Lemma insert_holds t L k v : holds t L -> proper k -> num_entries t < INT_MAX -> exists t' L',
  ena_hash_insert t k v = Done t' /\ holds t' L' /\ num_entries t' = num_entries t + 1 /\
  forall k', contents L' k' = if decide (k' = k) then contents L k ++ [v] else contents L k'.
Proof.
  intros Ht Hk Hn. destruct (bucket_holds _ _ _ Ht Hk) as (l & Hl & Hp & Hi & Hb). destruct (hash_proper k Hk) as [Hd _].
  unfold ena_hash_insert. rewrite Hd. simpl. rewrite Hi, Hb. simpl. rewrite append_chain_spec. simpl.
  set (l' := l ++ [(digest_of k, k, v)]).
  assert (Hp' : keys_proper l') by (apply Forall_app; split; [done | by constructor]).
  destruct (set_bucket_holds t L k l l' (num_entries t + 1) Ht Hk Hl Hp') as (bs & -> & Hh).
  { unfold l'. rewrite length_app. simpl. lia. }
  simpl. pose proof (h_entries _ _ Ht). unfold as_int, INT_MIN, INT_MAX in *. rewrite !(proj2 (Z.leb_le _ _)) by lia. simpl.
  exists (Table bs (num_buckets t) (num_entries t + 1)), (<[slot k := l']> L). split; [by unfold rehash; case_match|].
  split; [exact Hh|]. split; [done|]. intros k'. rewrite (contents_insert L k l); [| apply Ht | done | done |].
  - destruct (decide (k' = k)); [|done]. unfold contents. rewrite Hl. unfold l'. rewrite assoc_app. simpl. by rewrite decide_True.
  - intros k1 Hk1. unfold l'. rewrite assoc_app. simpl. by rewrite decide_False, app_nil_r.
Qed.


(** The operations on a table, and what they do to the values of each key. *)
Inductive hash_op := OSearch (k : K) | OInsert (k : K) (v : V) | OSearchOrInsert (k : K) (v : V) | OSet (k : K) (v : V).
Definition op_key (op : hash_op) : K := match op with OSearch k | OInsert k _ | OSearchOrInsert k _ | OSet k _ => k end.

(** The value of an entry that was found. *)
Definition found_value t (e : option entry_ptr) : outcome (option V) :=
  match e with None => Done None | Some e => v <-- entry_value t e ;; Done (Some v) end.
Definition run_op t (op : hash_op) : outcome (option V * ena_hash_table K V) :=
  match op with
  | OSearch k => e <-- ena_hash_search t k ;; r <-- found_value t e ;; Done (r, t)
  | OInsert k v => t <-- ena_hash_insert t k v ;; Done (None, t)
  | OSearchOrInsert k v => p <-- ena_hash_search_or_insert t k v ;; r <-- found_value t p.1 ;; Done (r, p.2)
  | OSet k v =>
      e <-- ena_hash_search t k ;;
      r <-- found_value t e ;;
      match e with None => Done (r, t) | Some e => t <-- set_entry_value t e v ;; Done (r, t) end
  end.
Fixpoint run_ops t (ops : list hash_op) : outcome (list (option V) * ena_hash_table K V) :=
  match ops with
  | [] => Done ([], t)
  | op :: ops => p <-- run_op t op ;; q <-- run_ops p.2 ops ;; Done (p.1 :: q.1, q.2)
  end.

Definition upd (m : K -> list V) (k : K) (vs : list V) : K -> list V := fun k' => if decide (k' = k) then vs else m k'.
Definition spec_op (m : K -> list V) (op : hash_op) : option V * (K -> list V) :=
  match op with
  | OSearch k => (head (m k), m)
  | OInsert k v => (None, upd m k (m k ++ [v]))
  | OSearchOrInsert k v => match m k with [] => (None, upd m k [v]) | x :: _ => (Some x, m) end
  | OSet k v => match m k with [] => (None, m) | x :: r => (Some x, upd m k (v :: r)) end
  end.
Fixpoint spec_ops (m : K -> list V) (ops : list hash_op) : list (option V) :=
  match ops with [] => [] | op :: ops => let '(r, m) := spec_op m op in r :: spec_ops m ops end.

Lemma run_op_spec t L m op : holds t L -> (forall k, contents L k = m k) -> proper (op_key op) -> num_entries t < INT_MAX ->
  exists t' L', run_op t op = Done ((spec_op m op).1, t') /\ holds t' L' /\ num_entries t' <= num_entries t + 1 /\
    forall k, contents L' k = (spec_op m op).2 k.
Proof.
  intros Ht Hm Hk Hn. destruct op as [k|k v|k v|k v]; simpl in *; rewrite <- ?Hm;
    pose proof (search_holds t L k Ht Hk) as Hs; pose proof (fun v => insert_holds t L k v Ht Hk Hn) as Hi.
  - exists t, L. destruct (contents L k) as [|x r]; [by rewrite Hs; split; [|split; [|split; [lia|]]]|].
    destruct Hs as (e & -> & Hv & _). simpl. rewrite Hv. by split; [|split; [|split; [lia|]]].
  - destruct (Hi v) as (t' & L' & -> & Ht' & Hn' & Hc). exists t', L'. split; [done|]. split; [done|]. split; [lia|].
    intros k'. rewrite Hc. unfold upd. by rewrite (Hm k').
  - unfold ena_hash_search_or_insert. destruct (contents L k) as [|x r].
    + rewrite Hs. simpl. destruct (Hi v) as (t' & L' & -> & Ht' & Hn' & Hc). exists t', L'. split; [done|]. split; [done|].
      split; [lia|]. intros k'. rewrite Hc. simpl. unfold upd. by rewrite (Hm k').
    + destruct Hs as (e & -> & Hv & _). simpl. rewrite Hv. exists t, L. by split; [|split; [|split; [lia|]]].
  - destruct (contents L k) as [|x r].
    + rewrite Hs. exists t, L. by split; [|split; [|split; [lia|]]].
    + destruct Hs as (e & -> & Hv & Hset). simpl. rewrite Hv. simpl. destruct (Hset v) as (t' & L' & -> & Ht' & Hn' & Hc).
      exists t', L'. split; [done|]. split; [done|]. split; [lia|]. intros k'. rewrite Hc. unfold upd. by rewrite (Hm k').
Qed.
Lemma run_ops_spec ops : forall t L m, holds t L -> (forall k, contents L k = m k) -> Forall (fun op => proper (op_key op)) ops ->
  num_entries t + Z.of_nat (length ops) <= INT_MAX -> exists t', run_ops t ops = Done (spec_ops m ops, t').
Proof.
  induction ops as [|op ops IH]; intros t L m Ht Hm Hp Hn; [by exists t|]. inversion Hp; subst. cbn [length] in Hn.
  destruct (run_op_spec t L m op Ht Hm) as (t1 & L1 & E & Ht1 & Hn1 & Hc1); [done | lia|].
  destruct (IH t1 L1 (spec_op m op).2 Ht1 Hc1) as [t' E']; [done | lia|]. exists t'. simpl. rewrite E. simpl. rewrite E'.
  by destruct (spec_op m op).
Qed.

End Refinement.

(** C23: a hash table is a map from keys to the sequences of their values.  Whatever
    sequence of searches, insertions, conditional insertions and changes of values
    through entries is run on a new table, no operation fails and each one returns
    what it returns on the map: [ena_hash_search] gives the first value of the key,
    [ena_hash_insert] adds one behind those it has, [ena_hash_search_or_insert] adds
    one only if there is none. *)
Theorem ena_hash_refines {K V : Type} `{HashLaws K} (ops : list (@hash_op K V)) :
  Forall (fun op => proper (op_key op)) ops -> Z.of_nat (length ops) <= INT_MAX ->
  exists t, run_ops ena_hash_init_table ops = Done (spec_ops (fun _ => []) ops, t).
Proof.
  intros Hp Hn. apply (run_ops_spec ops _ (replicate 32 [])); [apply init_holds | | done | done].
  intros k. unfold contents. destruct (replicate 32 [] !! slot k) as [l|] eqn:E; [|done].
  apply lookup_replicate in E as [-> _]. done.
Qed.

Definition example_ops : list (@hash_op Z Z) :=
  [OSearchOrInsert 3 10; OInsert 35 20; OInsert 3 30; OSet 3 11; OSearch 35; OSearch 3; OSearch 4].
Lemma ena_hash_refines_witness :
  exists t, run_ops ena_hash_init_table example_ops = Done ([None; None; None; Some 10; Some 20; Some 11; None], t).
Proof.
  change [None; None; None; Some 10; Some 20; Some 11; None] with (spec_ops (fun _ : Z => ([] : list Z)) example_ops).
  apply (ena_hash_refines example_ops); [repeat constructor; simpl; lia | simpl; unfold INT_MAX; lia].
Defined.

(** ** Removal *)

(** Removing the first entry of a bucket leaves the bucket with a pointer to the
    freed entry: [ena_hash_remove] succeeds, and every later search for a key of that
    bucket reads freed memory. *)
Theorem remove_first_dangles {K V : Type} `{HashLaws K} (t : ena_hash_table K V) (L : list (list (Z * K * V))) k d v l :
  holds t L -> proper k -> L !! slot k = Some ((d, k, v) :: l) -> num_entries t <= INT_MAX ->
  exists t', ena_hash_remove t k = Done (true, t') /\ forall k', proper k' -> slot k' = slot k -> ena_hash_search t' k' = Undef.
Proof.
  intros Ht Hk Hl Hn. destruct (bucket_holds _ _ _ Ht Hk) as (l' & Hl' & Hp & Hi & Hb). rewrite Hl in Hl'. injection Hl' as <-.
  destruct (hash_proper k Hk) as [Hd _]. unfold ena_hash_remove. rewrite Hd. simpl. rewrite Hi, Hb. simpl.
  rewrite ENTRY_EQUALS_proper by done. simpl. rewrite bool_decide_true by done. simpl. unfold set_bucket.
  destruct (slot_bound k Hk) as [Hlt _]. pose proof Ht as [Eb El En Ee _].
  rewrite arr_set_Some by (rewrite Eb, length_map; lia). rewrite Nat2Z.id. simpl.
  unfold as_int, INT_MIN, INT_MAX in *. rewrite !(proj2 (Z.leb_le _ _)) by lia. simpl. eexists. split; [reflexivity|].
  intros k' Hk' Hs. destruct (hash_proper k' Hk') as [Hd' _]. destruct (slot_bound k' Hk') as [_ He'].
  unfold ena_hash_search. rewrite Hd'. simpl. unfold bucket_index, bucket. simpl. rewrite En.
  change 32 with INITIAL_NUM_BUCKETS. rewrite <- He', Hs. rewrite (proj2 (arr_get_Some _ _ Dangling)); [done|].
  split; [lia|]. rewrite Nat2Z.id. apply list_lookup_insert_eq. rewrite Eb, length_map. lia.
Qed.

Lemma remove_first_dangles_witness :
  exists t', ena_hash_remove (Table (<[3%nat := Entry 3 3 10 Null]> (replicate 32 Null)) 32 1) 3 = Done (true, t') /\
    forall k', proper k' -> slot k' = slot 3 -> ena_hash_search t' k' = Undef.
Proof.
  apply (remove_first_dangles _ (<[3%nat := [(3, 3, 10)]]> (replicate 32 [])) 3 3 10 []); [|done | done | done].
  split; try done. intros i l Hi. destruct (decide (3%nat = i)) as [<-|Hne].
  - injection Hi as <-. constructor; [done | constructor].
  - rewrite list_lookup_insert_ne in Hi by done. apply lookup_replicate in Hi as [-> _]. constructor.
Defined.
