(* ===== verification/EnaUtf8.v ===== *)
(** * ena: UTF-8

    The functions on UTF-8 byte sequences of [tiny-script-interpreter/src/string.c].
    A sequence is the array of its bytes, as unsigned integers, and a size that need
    not be the length of the array; a read outside the array is undefined.

    [encode] is the encoding of RFC 3629, to which [utf8_roundtrip] compares them. *)
From S2P Require Import Prelude Message EnaHash.
#[local] Open Scope Z_scope.

Module Utf8.

Definition FFFD_CHAR : Z := 0xfffd.
Definition ena_isascii (ch : Z) : bool := Z.land ch 0x80 =? 0.

Fixpoint validate_loop (fuel : nat) (str : list Z) (size i : Z) : outcome bool :=
  if size <=? i then Done true
  else
    match fuel with
    | O => Fuel
    | S fuel =>
        c <-- some_or_undef (arr_get str i) ;;
        if ena_isascii c then validate_loop fuel str size (i + 1) else validate_loop fuel str size (i + 1)
    end.
Definition ena_utf8_validate (str : list Z) (size : Z) : outcome bool := validate_loop (Z.to_nat size) str size 0.

Definition char_len (c : Z) : Z :=
  if Z.land c 0xf8 =? 0xf0 then 4 else if Z.land c 0xf0 =? 0xe0 then 3 else if Z.land c 0xe0 =? 0xc0 then 2 else 1.
Fixpoint strlen_loop (fuel : nat) (str : list Z) (size i len : Z) : outcome Z :=
  if size <=? i then Done len
  else
    match fuel with
    | O => Fuel
    | S fuel => c <-- some_or_undef (arr_get str i) ;; strlen_loop fuel str size (u64 (i + char_len c)) (len + 1)
    end.
(** Every round moves the position by at least one byte. *)
Definition ena_utf8_strlen (str : list Z) (size : Z) : outcome Z := strlen_loop (Z.to_nat size) str size 0 0.

(** The value of the character whose first byte [c] is at [i]. *)
Definition char_value (str : list Z) (size i c : Z) : outcome Z :=
  let byte k := some_or_undef (arr_get str (i + k)) in
  if Z.land c 0xf8 =? 0xf0 then
    if u64 (i + 3) <? size then
      c1 <-- byte 1 ;; c2 <-- byte 2 ;; c3 <-- byte 3 ;;
      Done (Z.lor (Z.lor (Z.lor (Z.shiftl (Z.land c 0x07) 18) (Z.shiftl (Z.land c1 0x3f) 12)) (Z.shiftl (Z.land c2 0x3f) 6)) (Z.land c3 0x3f))
    else Panic
  else if Z.land c 0xf0 =? 0xe0 then
    if u64 (i + 2) <? size then
      c1 <-- byte 1 ;; c2 <-- byte 2 ;;
      Done (Z.lor (Z.lor (Z.shiftl (Z.land c 0x0f) 12) (Z.shiftl (Z.land c1 0x3f) 6)) (Z.land c2 0x3f))
    else Panic
  else if Z.land c 0xe0 =? 0xc0 then
    if u64 (i + 1) <? size then
      c1 <-- byte 1 ;;
      Done (Z.lor (Z.shiftl (Z.land c 0x1f) 6) (Z.land c1 0x3f))
    else Panic
  else Done (u32 (if c <? 0x80 then c else c - 0x100)).
Fixpoint char_at_loop (fuel : nat) (str : list Z) (size i index : Z) : outcome Z :=
  if size <=? i then Done FFFD_CHAR
  else
    match fuel with
    | O => Fuel
    | S fuel =>
        c <-- some_or_undef (arr_get str i) ;;
        if index =? 0 then char_value str size i c
        else char_at_loop fuel str size (u64 (i + char_len c)) (u64 (index - 1))
    end.
Definition ena_utf8_char_at (str : list Z) (size index : Z) : outcome Z := char_at_loop (Z.to_nat size) str size 0 index.

End Utf8.
Export Utf8.

(** ** The encoding *)

Definition continuation (x : Z) : Z := 0x80 + x mod 2 ^ 6.
Definition encode_char (c : Z) : list Z :=
  if c <? 0x80 then [c]
  else if c <? 0x800 then [0xc0 + c / 2 ^ 6; continuation c]
  else if c <? 0x10000 then [0xe0 + c / 2 ^ 12; continuation (c / 2 ^ 6); continuation c]
  else [0xf0 + c / 2 ^ 18; continuation (c / 2 ^ 12); continuation (c / 2 ^ 6); continuation c].
Definition encode (cs : list Z) : list Z := concat (map encode_char cs).
Definition code_point (c : Z) : Prop := 0 <= c < 0x110000.

Definition masks_ok (c : Z) : bool :=
  if c <? 0x80 then char_len c =? 1
  else if c <? 0xc0 then Z.land c 0x3f =? c - 0x80
  else if c <? 0xe0 then (char_len c =? 2) && (Z.land c 0x1f =? c - 0xc0)
  else if c <? 0xf0 then (char_len c =? 3) && (Z.land c 0x0f =? c - 0xe0)
  else if c <? 0xf8 then (char_len c =? 4) && (Z.land c 0x07 =? c - 0xf0)
  else true.
Lemma masks_of_byte c : 0 <= c < 0x100 -> masks_ok c = true.
Proof.
  intros Hc. assert (forallb (fun n => masks_ok (Z.of_nat n)) (seq 0 256) = true) as H by (vm_compute; reflexivity).
  rewrite forallb_forall in H. rewrite <- (Z2Nat.id c) by lia. apply H, in_seq. lia.
Qed.
Ltac masks c := let H := fresh in
  assert (masks_ok c = true) as H by (apply masks_of_byte; lia); unfold masks_ok in H;
  repeat (first [rewrite (proj2 (Z.ltb_lt c _)) in H by lia | rewrite (proj2 (Z.ltb_ge c _)) in H by lia]);
  rewrite ?andb_true_iff, ?Z.eqb_eq in H.
Lemma masks_1 c : 0 <= c < 0x80 -> char_len c = 1.
Proof. intros Hc. masks c. done. Qed.
Lemma masks_2 c : 0xc0 <= c < 0xe0 -> char_len c = 2 /\ Z.land c 0x1f = c - 0xc0.
Proof. intros Hc. masks c. done. Qed.
Lemma masks_3 c : 0xe0 <= c < 0xf0 -> char_len c = 3 /\ Z.land c 0x0f = c - 0xe0.
Proof. intros Hc. masks c. done. Qed.
Lemma masks_4 c : 0xf0 <= c < 0xf8 -> char_len c = 4 /\ Z.land c 0x07 = c - 0xf0.
Proof. intros Hc. masks c. done. Qed.
Lemma continuation_bits x : Z.land (continuation x) 0x3f = x mod 2 ^ 6.
Proof. unfold continuation. pose proof (Z.mod_pos_bound x (2 ^ 6) ltac:(lia)). masks (0x80 + x mod 2 ^ 6). lia. Qed.

Ltac div_lia := change (2 ^ 18) with 262144 in *; change (2 ^ 12) with 4096 in *; change (2 ^ 6) with 64 in *;
  Z.to_euclidean_division_equations; lia.

(** The length of the encoding of a character is what its first byte says. *)
Lemma encode_char_len c : code_point c -> exists b bs, encode_char c = b :: bs /\ char_len b = Z.of_nat (length (encode_char c)).
Proof.
  unfold code_point, encode_char. intros Hc.
  destruct (Z.ltb_spec c 0x80); [|destruct (Z.ltb_spec c 0x800); [|destruct (Z.ltb_spec c 0x10000)]]; do 2 eexists; (split; [reflexivity|]).
  - apply masks_1. div_lia.
  - apply masks_2. div_lia.
  - apply masks_3. div_lia.
  - apply masks_4. div_lia.
Qed.

Lemma shift_add hi lo n : 0 <= n -> 0 <= lo < 2 ^ n -> Z.lor (Z.shiftl hi n) lo = hi * 2 ^ n + lo.
Proof. intros Hn Hlo. rewrite Z.shiftl_mul_pow2 by done. apply (lor_low_add _ _ n); [done | by apply Z_mod_mult | done]. Qed.
Lemma char_len_cases c :
  char_len c = 4 /\ Z.land c 0xf8 = 0xf0 \/
  char_len c = 3 /\ Z.land c 0xf8 <> 0xf0 /\ Z.land c 0xf0 = 0xe0 \/
  char_len c = 2 /\ Z.land c 0xf8 <> 0xf0 /\ Z.land c 0xf0 <> 0xe0 /\ Z.land c 0xe0 = 0xc0 \/
  char_len c = 1 /\ Z.land c 0xf8 <> 0xf0 /\ Z.land c 0xf0 <> 0xe0 /\ Z.land c 0xe0 <> 0xc0.
Proof.
  unfold char_len. destruct (Z.eqb_spec (Z.land c 0xf8) 0xf0), (Z.eqb_spec (Z.land c 0xf0) 0xe0), (Z.eqb_spec (Z.land c 0xe0) 0xc0); tauto.
Qed.
Ltac by_char_len c H :=
  destruct (char_len_cases c) as [(? & ?)|[(? & ? & ?)|[(? & ? & ? & ?)|(? & ? & ? & ?)]]]; try (exfalso; lia);
  unfold char_value; repeat (first [rewrite (proj2 (Z.eqb_neq (Z.land c _) _)) by done | rewrite (proj2 (Z.eqb_eq (Z.land c _) _)) by done]).
Lemma digit6 x : 0 <= x mod 2 ^ 6 < 2 ^ 6.
Proof. by apply Z.mod_pos_bound. Qed.
Lemma char_value_1 str size i b : char_len b = 1 -> 0 <= b < 0x80 -> char_value str size i b = Done b.
Proof. intros H Hb. by_char_len b H. rewrite (proj2 (Z.ltb_lt _ _)) by lia. rewrite u32_small by lia. done. Qed.
Lemma char_value_2 str size i b x : char_len b = 2 -> u64 (i + 1) < size -> arr_get str (i + 1) = Some (continuation x) ->
  char_value str size i b = Done (Z.land b 0x1f * 2 ^ 6 + x mod 2 ^ 6).
Proof.
  intros H Hi H1. by_char_len b H. rewrite (proj2 (Z.ltb_lt _ _)) by lia. rewrite H1. cbn [some_or_undef outcome_bind].
  rewrite continuation_bits, shift_add by first [done | apply digit6]. done.
Qed.
Lemma char_value_3 str size i b x y : char_len b = 3 -> u64 (i + 2) < size ->
  arr_get str (i + 1) = Some (continuation x) -> arr_get str (i + 2) = Some (continuation y) ->
  char_value str size i b = Done (Z.land b 0x0f * 2 ^ 12 + (x mod 2 ^ 6 * 2 ^ 6 + y mod 2 ^ 6)).
Proof.
  intros H Hi H1 H2. by_char_len b H. rewrite (proj2 (Z.ltb_lt _ _)) by lia. rewrite H1, H2. cbn [some_or_undef outcome_bind].
  pose proof (digit6 x). pose proof (digit6 y). rewrite !continuation_bits, <- Z.lor_assoc, (shift_add _ _ 6), shift_add by lia. done.
Qed.
Lemma char_value_4 str size i b x y z : char_len b = 4 -> u64 (i + 3) < size ->
  arr_get str (i + 1) = Some (continuation x) -> arr_get str (i + 2) = Some (continuation y) -> arr_get str (i + 3) = Some (continuation z) ->
  char_value str size i b = Done (Z.land b 0x07 * 2 ^ 18 + (x mod 2 ^ 6 * 2 ^ 12 + (y mod 2 ^ 6 * 2 ^ 6 + z mod 2 ^ 6))).
Proof.
  intros H Hi H1 H2 H3. by_char_len b H. rewrite (proj2 (Z.ltb_lt _ _)) by lia. rewrite H1, H2, H3. cbn [some_or_undef outcome_bind].
  pose proof (digit6 x). pose proof (digit6 y). pose proof (digit6 z). rewrite !continuation_bits, <- !Z.lor_assoc, (shift_add _ _ 6), (shift_add _ _ 12), shift_add by lia. done.
Qed.

(** A character of the encoding, between what comes before and after it. *)
Lemma char_value_encode pre c post b bs : code_point c -> encode_char c = b :: bs -> Z.of_nat (length (pre ++ encode_char c ++ post)) < 2 ^ 63 ->
  char_value (pre ++ encode_char c ++ post) (Z.of_nat (length (pre ++ encode_char c ++ post))) (Z.of_nat (length pre)) b = Done c.
Proof.
  intros Hc E Hl.
  assert (Hg : forall k x, encode_char c !! k = Some x -> arr_get (pre ++ encode_char c ++ post) (Z.of_nat (length pre) + Z.of_nat k) = Some x).
  { intros k x Hk. apply arr_get_Some. split; [lia|]. rewrite lookup_app_r by lia.
    replace (Z.to_nat (Z.of_nat (length pre) + Z.of_nat k) - length pre)%nat with k by lia. by apply lookup_app_l_Some. }
  assert (Z.of_nat (length pre) + Z.of_nat (length (encode_char c)) <= Z.of_nat (length (pre ++ encode_char c ++ post))) as Hlen
    by (rewrite !length_app; lia).
  generalize dependent (pre ++ encode_char c ++ post). intros str Hl Hg Hlen.
  revert E Hg Hlen. unfold encode_char, code_point in *.
  destruct (Z.ltb_spec c 0x80); [|destruct (Z.ltb_spec c 0x800); [|destruct (Z.ltb_spec c 0x10000)]]; intros [= <- <-] Hg Hlen; cbn [length] in Hlen.
  - apply char_value_1; [apply masks_1|]; lia.
  - destruct (masks_2 (0xc0 + c / 2 ^ 6)) as [G1 G2]; [div_lia|].
    erewrite char_value_2; [|done|rewrite u64_small; lia|exact (Hg 1%nat _ eq_refl)]. rewrite G2. f_equal. div_lia.
  - destruct (masks_3 (0xe0 + c / 2 ^ 12)) as [G1 G2]; [div_lia|].
    erewrite char_value_3; [|done|rewrite u64_small; lia|exact (Hg 1%nat _ eq_refl)|exact (Hg 2%nat _ eq_refl)]. rewrite G2. f_equal. div_lia.
  - destruct (masks_4 (0xf0 + c / 2 ^ 18)) as [G1 G2]; [div_lia|].
    erewrite char_value_4; [|done|rewrite u64_small; lia|exact (Hg 1%nat _ eq_refl)|exact (Hg 2%nat _ eq_refl)|exact (Hg 3%nat _ eq_refl)].
    rewrite G2. f_equal. div_lia.
Qed.

Section Walk.
Variable str : list Z.
Hypothesis str_small : Z.of_nat (length str) < 2 ^ 63.

(** One round of either loop, at the start of a character. *)
Lemma walk_round pre c cs : str = pre ++ encode (c :: cs) -> code_point c ->
  exists b bs, encode_char c = b :: bs /\ arr_get str (Z.of_nat (length pre)) = Some b /\ Z.of_nat (length pre) < Z.of_nat (length str) /\
    u64 (Z.of_nat (length pre) + char_len b) = Z.of_nat (length (pre ++ encode_char c)) /\ str = (pre ++ encode_char c) ++ encode cs.
Proof.
  intros E Hc. destruct (encode_char_len c Hc) as (b & bs & Eb & Hb). exists b, bs.
  assert (str = (pre ++ encode_char c) ++ encode cs) as E' by (rewrite E, <- app_assoc; done).
  assert (length str = length pre + length (encode_char c) + length (encode cs))%nat as Hl by (rewrite E', !length_app; done).
  split; [done|]. split.
  - apply arr_get_Some. split; [lia|]. rewrite Nat2Z.id, E'. rewrite Eb, <- app_assoc. by apply list_lookup_middle.
  - rewrite Hb, length_app, u64_small by lia. rewrite Eb in Hl |- *. cbn [length] in *. split; [lia|]. split; [lia | by rewrite E', Eb].
Qed.
Lemma strlen_walk cs : forall fuel pre len, str = pre ++ encode cs -> Forall code_point cs -> (length (encode cs) <= fuel)%nat ->
  strlen_loop fuel str (Z.of_nat (length str)) (Z.of_nat (length pre)) len = Done (len + Z.of_nat (length cs)).
Proof.
  induction cs as [|c cs IH]; intros fuel pre len E Hcs Hf.
  - rewrite app_nil_r in E. rewrite <- E. destruct fuel; cbn [strlen_loop]; rewrite Z.leb_refl; f_equal; cbn; lia.
  - apply Forall_cons in Hcs as [Hc Hcs]. destruct (walk_round pre c cs E Hc) as (b & bs & Eb & Hb & Hlt & Hn & E').
    change (encode (c :: cs)) with (encode_char c ++ encode cs) in Hf. rewrite length_app, Eb in Hf. cbn [length] in Hf. destruct fuel as [|fuel]; [lia|]. cbn [strlen_loop].
    rewrite (proj2 (Z.leb_gt _ _)) by lia. rewrite Hb. cbn [some_or_undef outcome_bind]. rewrite Hn, (IH fuel) by (done || lia). f_equal. cbn [length]. lia.
Qed.
Lemma char_at_walk cs : forall fuel pre index, str = pre ++ encode cs -> Forall code_point cs -> (length (encode cs) <= fuel)%nat -> Z.of_nat index < 2 ^ 63 ->
  char_at_loop fuel str (Z.of_nat (length str)) (Z.of_nat (length pre)) (Z.of_nat index) = Done (default FFFD_CHAR (cs !! index)).
Proof.
  induction cs as [|c cs IH]; intros fuel pre index E Hcs Hf Hi.
  - rewrite app_nil_r in E. rewrite <- E. destruct fuel; cbn [char_at_loop]; rewrite Z.leb_refl; done.
  - apply Forall_cons in Hcs as [Hc Hcs]. destruct (walk_round pre c cs E Hc) as (b & bs & Eb & Hb & Hlt & Hn & E').
    change (encode (c :: cs)) with (encode_char c ++ encode cs) in Hf. rewrite length_app, Eb in Hf. cbn [length] in Hf. destruct fuel as [|fuel]; [lia|]. cbn [char_at_loop].
    rewrite (proj2 (Z.leb_gt _ _)) by lia. rewrite Hb. cbn [some_or_undef outcome_bind]. destruct index as [|index].
    + cbn [Z.of_nat Z.eqb lookup list_lookup]. cbn in E. rewrite E. apply (char_value_encode pre c (encode cs) b bs); [done..|]. by rewrite E in str_small.
    + rewrite (proj2 (Z.eqb_neq _ _)) by lia. rewrite Hn. rewrite u64_small by lia. replace (Z.of_nat (S index) - 1) with (Z.of_nat index) by lia.
      rewrite IH by (done || lia). done.
Qed.
End Walk.

(** C38: UTF-8 round trip.  On the encoding of a sequence of code points,
    [ena_utf8_strlen] returns their number and [ena_utf8_char_at] the code point at an
    index, or U+FFFD after the last one.  Neither fails an assertion, reads outside the
    bytes or fails to end. *)
Theorem utf8_roundtrip cs index :
  Forall code_point cs -> Z.of_nat (length (encode cs)) < 2 ^ 63 -> Z.of_nat index < 2 ^ 63 ->
  let size := Z.of_nat (length (encode cs)) in
  ena_utf8_strlen (encode cs) size = Done (Z.of_nat (length cs)) /\
  ena_utf8_char_at (encode cs) size (Z.of_nat index) = Done (default FFFD_CHAR (cs !! index)).
Proof.
  intros Hcs Hl Hi size. unfold ena_utf8_strlen, ena_utf8_char_at, size. rewrite Nat2Z.id.
  split; [apply (strlen_walk _ Hl cs _ [] 0) | apply (char_at_walk _ Hl cs _ [] index)]; done.
Qed.
(** A, e with an acute accent, the character for bird, a hamburger. *)
Lemma utf8_roundtrip_witness :
  encode [0x41; 0xe9; 0x9ce5; 0x1f354] = [0x41; 0xc3; 0xa9; 0xe9; 0xb3; 0xa5; 0xf0; 0x9f; 0x8d; 0x94] /\
  ena_utf8_char_at (encode [0x41; 0xe9; 0x9ce5; 0x1f354]) 10 2 = Done 0x9ce5.
Proof.
  split; [reflexivity|].
  apply (utf8_roundtrip [0x41; 0xe9; 0x9ce5; 0x1f354] 2); [|vm_compute; done..].
  repeat constructor; unfold code_point; lia.
Defined.

(** Validation accepts every sequence of bytes; a lone continuation byte is a
    character of its own, sign-extended. *)
Lemma validate_accepts str : ena_utf8_validate str (Z.of_nat (length str)) = Done true.
Proof.
  unfold ena_utf8_validate. rewrite Nat2Z.id.
  assert (forall fuel i, (Z.of_nat (length str) - i <= Z.of_nat fuel) -> 0 <= i -> validate_loop fuel str (Z.of_nat (length str)) i = Done true) as H.
  { induction fuel as [|fuel IH]; intros i Hf Hi; cbn [validate_loop]; destruct (Z.leb_spec (Z.of_nat (length str)) i); [done|lia|done|].
    destruct (arr_get_is_Some str i) as [_ Hg]. destruct Hg as [c ->]; [lia|]. cbn [some_or_undef outcome_bind]. rewrite IH by lia. by destruct (ena_isascii c). }
  apply H; lia.
Qed.
Lemma lone_continuation_byte : ena_utf8_validate [0x80] 1 = Done true /\ ena_utf8_char_at [0x80] 1 0 = Done 0xffffff80.
Proof. split; reflexivity. Qed.
