(* ===== verification/EnaHeap.v ===== *)
(** * ena: values, objects and the garbage collector

    [tiny-script-interpreter/src/gc.c], with the values of [api.c] and [eval.h] and
    the scopes and identifiers of [internal.c].  Objects are in a pool of fixed size;
    a value is the address of an object, a small integer or a constant.

    The collector also takes as roots the words in the registers and on the stack of
    the machine that look like addresses of objects.  What it sees there is up to the
    compiler, so it is a parameter: for each collection, any sequence of words. *)
From S2P Require Import Prelude EnaLexer EnaParser EnaHash.
Import Lex Hash.
Import String.StringSyntax.
#[local] Open Scope Z_scope.

(** ** Values *)

Inductive ena_value_type :=
| ENA_T_UNDEFINED | ENA_T_NULL | ENA_T_INT | ENA_T_STRING | ENA_T_LIST | ENA_T_MAP | ENA_T_BOOL | ENA_T_FUNC | ENA_T_CLASS
| ENA_T_INSTANCE | ENA_T_MODULE | ENA_T_USERDATA | ENA_T_SCOPE | ENA_T_ANY.
#[export] Instance ena_value_type_dec : EqDecision ena_value_type.
Proof. solve_decision. Defined.
Definition value_types : list ena_value_type :=
  [ENA_T_UNDEFINED; ENA_T_NULL; ENA_T_INT; ENA_T_STRING; ENA_T_LIST; ENA_T_MAP; ENA_T_BOOL; ENA_T_FUNC; ENA_T_CLASS;
   ENA_T_INSTANCE; ENA_T_MODULE; ENA_T_USERDATA; ENA_T_SCOPE; ENA_T_ANY].
(** The number of the enumerator. *)
Definition type_code (t : ena_value_type) : Z :=
  match t with
  | ENA_T_UNDEFINED => 0 | ENA_T_NULL => 1 | ENA_T_INT => 2 | ENA_T_STRING => 3 | ENA_T_LIST => 4 | ENA_T_MAP => 5
  | ENA_T_BOOL => 6 | ENA_T_FUNC => 7 | ENA_T_CLASS => 8 | ENA_T_INSTANCE => 9 | ENA_T_MODULE => 10 | ENA_T_USERDATA => 11
  | ENA_T_SCOPE => 12 | ENA_T_ANY => 13
  end.
Definition type_of_code (n : Z) : option ena_value_type := arr_get value_types n.

Definition ENA_UNDEFINED : Z := 0.
Definition ENA_NULL : Z := 2.
Definition ENA_TRUE : Z := 4.
Definition ENA_FALSE : Z := 6.

Inductive ena_error_type :=
| ENA_ERROR_NONE | ENA_ERROR_NOT_YET_IMPLEMENTED | ENA_ERROR_INVALID_SYNTAX | ENA_ERROR_BUG | ENA_ERROR_TYPE | ENA_ERROR_RUNTIME.

(** The functions that are written in C. *)
Inductive int_op := I_add | I_sub | I_mul | I_div | I_mod | I_lt | I_lte | I_gt | I_gte | I_eq | I_neq.
Inductive native :=
| N_print | N_int (op : int_op)
| N_string_concat | N_string_contains | N_string_replace | N_string_find
| N_list_append | N_list_prepend | N_list_pop | N_list_get | N_list_set
| N_map_get | N_map_set
| N_assert_eq.
Inductive func_body := Native_body (f : native) | Script_body (stmts param_names : ena_node).

Abbreviation ident_table := (ena_hash_table Z Z).

(** The members of the union after the header.  An element of a list is missing
    while it was not written. *)
Inductive obj_data :=
| D_none
| D_int (value : Z)
| D_string (str : list Z) (ident size_in_bytes : Z)
| D_func (flags name scope : Z) (body : func_body)
| D_class (methods : ident_table)
| D_instance (cls props : Z)
| D_list (elems : list (option Z))
| D_map (entries : ident_table)
| D_scope (vars : ident_table) (parent : Z)
| D_module (next scope : Z)
| D_userdata (data : Z).
Record ena_object := Object { flags : Z; data : obj_data }.

(** What [print] writes, and the message of a failed [assert_eq]. *)
Inductive print_item := P_int (z : Z) | P_string (s : list Z) | P_bool (b : bool) | P_null | P_unprintable | P_newline | P_assert_failed.

Record ena_vm := Vm {
  error_type : ena_error_type;
  next_ident : Z;
  ident2cstr : ena_hash_table Z (list Z);
  cstr2ident : ena_hash_table (list Z) Z;
  modules : Z;
  current_frame : list Z;
  current_scope : Z;
  unwind_points : list Z;
  current_class : Z;
  self : Z;
  stack_end : Z;
  value_pool : Z;
  pool : list ena_object;
  num_free : Z;
  int_class : Z;
  string_class : Z;
  list_class : Z;
  map_class : Z;
  collections : nat;
  output : list print_item
}.

(** What the collector sees: the registers and the words of the stack, in the n-th
    collection; the address of the stack; and the callbacks that free the data of the
    host's objects. *)
Class Host := {
  arch_load_regs : nat -> list Z;
  stack_words : nat -> list Z;
  arch_get_stack_bottom : Z;
  userdata_free : Z -> outcome unit
}.

Module Heap.

Definition ENA_MAX_NUM_VALUES : Z := 8192.
Definition ENA_GC_THRESHOLD : Z := 4098.
Definition SIZEOF_OBJECT : Z := 40.
Definition OBJECT_FLAG_MARKED : Z := Z.shiftl 1 16.
Definition OBJECT_FLAG_TYPE_MASK : Z := 0xff.

(** ** Assignments to the fields *)

Definition set_pool (x : list ena_object) (v : ena_vm) : ena_vm :=
  Vm (error_type v) (next_ident v) (ident2cstr v) (cstr2ident v) (modules v) (current_frame v) (current_scope v)
    (unwind_points v) (current_class v) (self v) (stack_end v) (value_pool v) x (num_free v) (int_class v) (string_class v)
    (list_class v) (map_class v) (collections v) (output v).
Definition set_num_free (x : Z) (v : ena_vm) : ena_vm :=
  Vm (error_type v) (next_ident v) (ident2cstr v) (cstr2ident v) (modules v) (current_frame v) (current_scope v)
    (unwind_points v) (current_class v) (self v) (stack_end v) (value_pool v) (pool v) x (int_class v) (string_class v)
    (list_class v) (map_class v) (collections v) (output v).
Definition set_collections (x : nat) (v : ena_vm) : ena_vm :=
  Vm (error_type v) (next_ident v) (ident2cstr v) (cstr2ident v) (modules v) (current_frame v) (current_scope v)
    (unwind_points v) (current_class v) (self v) (stack_end v) (value_pool v) (pool v) (num_free v) (int_class v)
    (string_class v) (list_class v) (map_class v) x (output v).
Definition set_idents (n : Z) (i2c : ena_hash_table Z (list Z)) (c2i : ena_hash_table (list Z) Z) (v : ena_vm) : ena_vm :=
  Vm (error_type v) n i2c c2i (modules v) (current_frame v) (current_scope v) (unwind_points v) (current_class v) (self v)
    (stack_end v) (value_pool v) (pool v) (num_free v) (int_class v) (string_class v) (list_class v) (map_class v)
    (collections v) (output v).
Definition set_modules (x : Z) (v : ena_vm) : ena_vm :=
  Vm (error_type v) (next_ident v) (ident2cstr v) (cstr2ident v) x (current_frame v) (current_scope v) (unwind_points v)
    (current_class v) (self v) (stack_end v) (value_pool v) (pool v) (num_free v) (int_class v) (string_class v) (list_class
    v) (map_class v) (collections v) (output v).
Definition set_error_type (x : ena_error_type) (v : ena_vm) : ena_vm :=
  Vm x (next_ident v) (ident2cstr v) (cstr2ident v) (modules v) (current_frame v) (current_scope v) (unwind_points v)
    (current_class v) (self v) (stack_end v) (value_pool v) (pool v) (num_free v) (int_class v) (string_class v) (list_class
    v) (map_class v) (collections v) (output v).
Definition set_current_frame (x : list Z) (v : ena_vm) : ena_vm :=
  Vm (error_type v) (next_ident v) (ident2cstr v) (cstr2ident v) (modules v) x (current_scope v) (unwind_points v)
    (current_class v) (self v) (stack_end v) (value_pool v) (pool v) (num_free v) (int_class v) (string_class v) (list_class
    v) (map_class v) (collections v) (output v).
Definition set_current_scope (x : Z) (v : ena_vm) : ena_vm :=
  Vm (error_type v) (next_ident v) (ident2cstr v) (cstr2ident v) (modules v) (current_frame v) x (unwind_points v)
    (current_class v) (self v) (stack_end v) (value_pool v) (pool v) (num_free v) (int_class v) (string_class v) (list_class
    v) (map_class v) (collections v) (output v).
Definition set_unwind_points (x : list Z) (v : ena_vm) : ena_vm :=
  Vm (error_type v) (next_ident v) (ident2cstr v) (cstr2ident v) (modules v) (current_frame v) (current_scope v) x
    (current_class v) (self v) (stack_end v) (value_pool v) (pool v) (num_free v) (int_class v) (string_class v) (list_class
    v) (map_class v) (collections v) (output v).
Definition set_current_class (x : Z) (v : ena_vm) : ena_vm :=
  Vm (error_type v) (next_ident v) (ident2cstr v) (cstr2ident v) (modules v) (current_frame v) (current_scope v)
    (unwind_points v) x (self v) (stack_end v) (value_pool v) (pool v) (num_free v) (int_class v) (string_class v)
    (list_class v) (map_class v) (collections v) (output v).
Definition set_self (x : Z) (v : ena_vm) : ena_vm :=
  Vm (error_type v) (next_ident v) (ident2cstr v) (cstr2ident v) (modules v) (current_frame v) (current_scope v)
    (unwind_points v) (current_class v) x (stack_end v) (value_pool v) (pool v) (num_free v) (int_class v) (string_class v)
    (list_class v) (map_class v) (collections v) (output v).
Definition set_stack_end (x : Z) (v : ena_vm) : ena_vm :=
  Vm (error_type v) (next_ident v) (ident2cstr v) (cstr2ident v) (modules v) (current_frame v) (current_scope v)
    (unwind_points v) (current_class v) (self v) x (value_pool v) (pool v) (num_free v) (int_class v) (string_class v)
    (list_class v) (map_class v) (collections v) (output v).
Definition set_output (x : list print_item) (v : ena_vm) : ena_vm :=
  Vm (error_type v) (next_ident v) (ident2cstr v) (cstr2ident v) (modules v) (current_frame v) (current_scope v)
    (unwind_points v) (current_class v) (self v) (stack_end v) (value_pool v) (pool v) (num_free v) (int_class v)
    (string_class v) (list_class v) (map_class v) (collections v) x.
Definition set_classes (ci cs cl cm : Z) (v : ena_vm) : ena_vm :=
  Vm (error_type v) (next_ident v) (ident2cstr v) (cstr2ident v) (modules v) (current_frame v) (current_scope v)
    (unwind_points v) (current_class v) (self v) (stack_end v) (value_pool v) (pool v) (num_free v) ci cs cl cm (collections
    v) (output v).

(** ** Objects *)

(** The address of an object and the object at an address. *)
Definition addr_of (v : ena_vm) (i : nat) : Z := value_pool v + SIZEOF_OBJECT * Z.of_nat i.
Definition index_of (v : ena_vm) (p : Z) : option nat :=
  let off := p - value_pool v in
  if (0 <=? off) && (off <? SIZEOF_OBJECT * ENA_MAX_NUM_VALUES) && (off mod SIZEOF_OBJECT =? 0)
  then Some (Z.to_nat (off / SIZEOF_OBJECT)) else None.
Definition object_at (p : Z) : M ena_vm ena_object :=
  v <- get ;; i <- need (index_of v p) ;; need (pool v !! i).
Definition put_object (p : Z) (o : ena_object) : M ena_vm unit :=
  v <- get ;;
  i <- need (index_of v p) ;;
  if decide (i < length (pool v))%nat then put (set_pool (<[i := o]> (pool v)) v) else undef.
Definition set_data (p : Z) (d : obj_data) : M ena_vm unit :=
  o <- object_at p ;; put_object p (Object (flags o) d).

(** The bound is included. *)
Definition ena_is_in_heap (v : ena_vm) (value : Z) : bool :=
  (value_pool v <=? value) && (value <=? value_pool v + ENA_MAX_NUM_VALUES * SIZEOF_OBJECT).
Definition IS_SMALLINT (value : Z) : bool := negb (Z.land value 1 =? 0).
Definition INT2SMALLINT (value : Z) : Z := Z.lor (Z.shiftl value 1) 1.
Definition SMALLINT2INT (value : Z) : Z := Z.shiftr value 1.
Definition SMALL_INT_MAX : Z := 2.

Definition ena_get_type (value : Z) : M ena_vm ena_value_type :=
  if value =? ENA_NULL then ret ENA_T_NULL
  else if (value =? ENA_TRUE) || (value =? ENA_FALSE) then ret ENA_T_BOOL
  else if IS_SMALLINT value then ret ENA_T_INT
  else
    in_heap <- gets (fun v => ena_is_in_heap v value) ;;
    if (in_heap : bool) then o <- object_at value ;; need (type_of_code (Z.land (flags o) OBJECT_FLAG_TYPE_MASK))
    else ret ENA_T_UNDEFINED.

Fixpoint iter {A} (f : A -> M ena_vm unit) (l : list A) : M ena_vm unit :=
  match l with [] => ret tt | a :: l => f a ;;; iter f l end.

(** ** Marking *)

Definition mark_object (p : Z) : M ena_vm unit :=
  o <- object_at p ;; put_object p (Object (Z.lor (flags o) OBJECT_FLAG_MARKED) (data o)).
Definition is_marked (o : ena_object) : bool := negb (Z.land (flags o) OBJECT_FLAG_MARKED =? 0).

(** The marking functions that call each other: [mark], [mark_func], [mark_scope],
    [mark_class], [mark_instance], [mark_map] and [mark_list]. *)
Inductive mark_call :=
| C_value (value : Z) | C_func (p : Z) | C_scope (p : Z) | C_class (p : Z) | C_instance (p : Z) | C_map (p : Z) | C_list (p : Z).

(** The flag is only looked at by [mark], not by the functions for the types. *)
Fixpoint mark (fuel : nat) (c : mark_call) : M ena_vm unit :=
  match fuel with
  | O => no_fuel
  | S fuel =>
      let mark_values vs := iter (fun v => mark fuel (C_value v)) vs in
      match c with
      | C_value value =>
          in_heap <- gets (fun v => ena_is_in_heap v value) ;;
          marked <- (if (in_heap : bool) then o <- object_at value ;; ret (is_marked o) else ret false) ;;
          if (marked : bool) then ret tt
          else
            t <- ena_get_type value ;;
            match t with
            | ENA_T_INT => if IS_SMALLINT value then ret tt else mark_object value
            | ENA_T_STRING => mark_object value
            | ENA_T_FUNC => mark fuel (C_func value)
            | ENA_T_SCOPE => mark fuel (C_scope value)
            | ENA_T_CLASS => mark fuel (C_class value)
            | ENA_T_INSTANCE => mark fuel (C_instance value)
            | ENA_T_MAP => mark fuel (C_map value)
            | ENA_T_LIST => mark fuel (C_list value)
            | ENA_T_USERDATA => mark_object value
            | _ => ret tt
            end
      | C_func func =>
          mark_object func ;;;
          o <- object_at func ;;
          match data o with
          | D_func _ _ scope _ => if scope =? 0 then ret tt else mark fuel (C_scope scope)
          | _ => undef
          end
      | C_scope scope =>
          mark_object scope ;;;
          o <- object_at scope ;;
          match data o with
          | D_scope vars parent =>
              vs <- lift (foreach_value vars) ;;
              mark_values vs ;;;
              if parent =? 0 then ret tt else mark fuel (C_scope parent)
          | _ => undef
          end
      | C_class cls =>
          mark_object cls ;;;
          o <- object_at cls ;;
          match data o with
          | D_class methods => vs <- lift (foreach_value methods) ;; mark_values vs
          | _ => undef
          end
      | C_instance instance =>
          mark_object instance ;;;
          o <- object_at instance ;;
          match data o with
          | D_instance cls props => mark fuel (C_class cls) ;;; mark fuel (C_scope props)
          | _ => undef
          end
      | C_map map =>
          mark_object map ;;;
          o <- object_at map ;;
          match data o with
          | D_map entries =>
              ks <- lift (foreach_key entries) ;;
              mark_values ks ;;;
              vs <- lift (foreach_value entries) ;;
              mark_values vs
          | _ => undef
          end
      | C_list list =>
          mark_object list ;;;
          o <- object_at list ;;
          match data o with
          | D_list elems => iter (fun e => v <- need e ;; mark fuel (C_value v)) elems
          | _ => undef
          end
      end
  end.

Section Collector.
Context `{Host}.
(** For the depth of the calls of the marking functions. *)
Variable fuel : nat.

Definition mark_module (module : Z) : M ena_vm unit :=
  mark_object module ;;;
  o <- object_at module ;;
  match data o with D_module _ scope => mark fuel (C_scope scope) | _ => undef end.

Definition try_mark (ptr : Z) : M ena_vm unit :=
  v <- get ;;
  let aligned := u64 (ptr - value_pool v) mod SIZEOF_OBJECT =? 0 in
  if ena_is_in_heap v ptr && aligned then mark fuel (C_value ptr) else ret tt.

Definition mark_regs : M ena_vm unit := v <- get ;; iter try_mark (arch_load_regs (collections v)).
(** Outside of [ena_eval], [stack_end] is zero and nothing of the stack is marked. *)
Definition mark_stack : M ena_vm unit :=
  v <- get ;; if stack_end v =? 0 then ret tt else iter try_mark (stack_words (collections v)).

Definition destroy (value : Z) : M ena_vm unit :=
  t <- ena_get_type value ;;
  match t with
  | ENA_T_SCOPE => o <- object_at value ;; match data o with D_scope vars _ => lift (ena_hash_free_table vars) | _ => undef end
  | ENA_T_CLASS => o <- object_at value ;; match data o with D_class methods => lift (ena_hash_free_table methods) | _ => undef end
  | ENA_T_MAP => o <- object_at value ;; match data o with D_map entries => lift (ena_hash_free_table entries) | _ => undef end
  | ENA_T_USERDATA => o <- object_at value ;; match data o with D_userdata data => lift (userdata_free data) | _ => undef end
  | _ => ret tt
  end.

Definition sweep_object (i : nat) : M ena_vm unit :=
  v <- get ;;
  let p := addr_of v i in
  o <- object_at p ;;
  if flags o =? 0 then ret tt
  else if is_marked o then put_object p (Object (Z.land (flags o) (u32 (Z.lnot OBJECT_FLAG_MARKED))) (data o))
  else
    destroy p ;;;
    put_object p (Object 0 (data o)) ;;;
    modify (fun v => set_num_free (num_free v + 1) v).
Definition sweep : M ena_vm unit := iter sweep_object (seq 0 (Z.to_nat ENA_MAX_NUM_VALUES)).

(** The list of modules, with fuel for its length. *)
Fixpoint mark_modules (n : nat) (module : Z) : M ena_vm unit :=
  match n with
  | O => no_fuel
  | S n =>
      if module =? 0 then ret tt
      else
        mark_module module ;;;
        o <- object_at module ;;
        match data o with D_module next _ => mark_modules n next | _ => undef end
  end.

Definition ena_gc : M ena_vm unit :=
  mark_regs ;;;
  mark_stack ;;;
  v <- get ;;
  mark_modules fuel (modules v) ;;;
  (if current_scope v =? 0 then ret tt else mark fuel (C_scope (current_scope v))) ;;;
  (if current_class v =? 0 then ret tt else mark fuel (C_class (current_class v))) ;;;
  mark fuel (C_class (int_class v)) ;;;
  mark fuel (C_class (string_class v)) ;;;
  mark fuel (C_class (list_class v)) ;;;
  mark fuel (C_class (map_class v)) ;;;
  sweep ;;;
  modify (fun v => set_collections (S (collections v)) v).

(** The first object that is not in use, or [NULL]. *)
Definition ena_alloc_object (type : ena_value_type) : M ena_vm Z :=
  v <- get ;;
  (if num_free v <? ENA_GC_THRESHOLD then ena_gc else ret tt) ;;;
  v <- get ;;
  match find_index (fun o => flags o =? 0) (pool v) 0 with
  | None => ret 0
  | Some i =>
      let p := addr_of v (Z.to_nat i) in
      o <- object_at p ;;
      put_object p (Object (type_code type) (data o)) ;;;
      modify (fun v => set_num_free (num_free v - 1) v) ;;;
      ret p
  end.

(** ** Identifiers *)

Definition IDENT_ANONYMOUS : Z := 1.
Definition IDENT_START : Z := 100.

Definition ena_cstr2ident (str : list Z) : M ena_vm Z :=
  v <- get ;;
  e <- lift (ena_hash_search (cstr2ident v) str) ;;
  match e with
  | Some e => lift (entry_value (cstr2ident v) e)
  | None =>
      let ident := next_ident v in
      c2i <- lift (ena_hash_insert (cstr2ident v) str ident) ;;
      i2c <- lift (ena_hash_insert (ident2cstr v) ident str) ;;
      put (set_idents (u64 (ident + 1)) i2c c2i v) ;;;
      ret ident
  end.
(** An identifier that is not in the table is a null pointer here. *)
Definition ena_ident2cstr (ident : Z) : M ena_vm (list Z) :=
  if ident =? IDENT_ANONYMOUS then ret (chars "(anonymous)")
  else
    v <- get ;;
    e <- lift (ena_hash_search (ident2cstr v) ident) ;;
    e <- need e ;;
    lift (entry_value (ident2cstr v) e).

(** ** Integers *)

Definition ena_to_int (value : Z) : M ena_vm Z :=
  if IS_SMALLINT value then ret (SMALLINT2INT value)
  else
    t <- ena_get_type value ;;
    if decide (t = ENA_T_UNDEFINED) then ret 0
    else o <- object_at value ;; match data o with D_int n => ret n | _ => undef end.
Definition ena_create_bool (condition : bool) : Z := if condition then ENA_TRUE else ENA_FALSE.
Definition ena_create_int (value : Z) : M ena_vm Z :=
  if (0 <=? value) && (value <=? SMALL_INT_MAX) then ret (INT2SMALLINT value)
  else obj <- ena_alloc_object ENA_T_INT ;; set_data obj (D_int value) ;;; ret obj.

(** ** Scopes *)

Definition ena_create_scope (parent : Z) : M ena_vm Z :=
  scope <- ena_alloc_object ENA_T_SCOPE ;; set_data scope (D_scope ena_hash_init_table parent) ;;; ret scope.
Definition ena_create_class : M ena_vm Z :=
  cls <- ena_alloc_object ENA_T_CLASS ;; set_data cls (D_class ena_hash_init_table) ;;; ret cls.

Definition scope_of (scope : Z) : M ena_vm (ident_table * Z) :=
  o <- object_at scope ;; match data o with D_scope vars parent => ret (vars, parent) | _ => undef end.

(** The scope where the variable is, and its entry there. *)
Fixpoint lookup_var (n : nat) (scope name : Z) : M ena_vm (option (Z * entry_ptr)) :=
  match n with
  | O => no_fuel
  | S n =>
      if scope =? 0 then ret None
      else
        s <- scope_of scope ;;
        e <- lift (ena_hash_search s.1 name) ;;
        match e with Some e => ret (Some (scope, e)) | None => lookup_var n s.2 name end
  end.
Definition ena_get_var_value (scope name : Z) : M ena_vm Z :=
  value <- lookup_var fuel scope name ;;
  match value with
  | Some (scope, e) => s <- scope_of scope ;; lift (entry_value s.1 e)
  | None => ret ENA_UNDEFINED
  end.
Definition ena_set_var_value (scope name new_value : Z) : M ena_vm bool :=
  value <- lookup_var fuel scope name ;;
  match value with
  | Some (scope, e) =>
      s <- scope_of scope ;; vars <- lift (set_entry_value s.1 e new_value) ;; set_data scope (D_scope vars s.2) ;;; ret true
  | None => ret false
  end.

Definition ena_is_equal (v1 v2 : Z) : M ena_vm bool :=
  t1 <- ena_get_type v1 ;;
  t2 <- ena_get_type v2 ;;
  if decide (t1 = t2) then
    match t1 with
    | ENA_T_BOOL | ENA_T_NULL => ret (v1 =? v2)
    | ENA_T_INT => a <- ena_to_int v1 ;; b <- ena_to_int v2 ;; ret (a =? b)
    | ENA_T_STRING =>
        a <- object_at v1 ;;
        b <- object_at v2 ;;
        match data a, data b with D_string _ i _, D_string _ j _ => ret (i =? j) | _, _ => undef end
    | _ => ret false
    end
  else ret false.

End Collector.

End Heap.
