(* ===== verification/EnaGc.v ===== *)
(** * ena: the garbage collector keeps what is reachable

    The marking functions of [EnaHeap] are run on a heap whose pointers are valid:
    they come to an end, and the objects they mark are those that can be reached
    from the roots.  With the sweep, a collection frees exactly the other ones. *)
From S2P Require Import Prelude EnaLexer EnaParser EnaHash EnaHeap.
Import Lex Hash Heap.
#[local] Open Scope Z_scope.

(** The size of the pool, as a number that is not computed with. *)
Lemma nobj_sig : { n : nat | n = Z.to_nat ENA_MAX_NUM_VALUES }.
Proof. eexists. reflexivity. Qed.
Definition NOBJ : nat := proj1_sig nobj_sig.
Lemma NOBJ_eq : NOBJ = Z.to_nat ENA_MAX_NUM_VALUES.
Proof. apply (proj2_sig nobj_sig). Qed.
Lemma NOBJ_val : Z.of_nat NOBJ = 8192.
Proof. by rewrite NOBJ_eq. Qed.

(** ** Well-formed heaps *)

Section Wf.
Variable v : ena_vm.

(** [p] is the address of an object of type [t]. *)
Definition is_obj (p : Z) (t : ena_value_type) : Prop :=
  exists i o, index_of v p = Some i /\ pool v !! i = Some o /\ flags o = type_code t.
(** A value is not an address in the pool, or it is the address of an object. *)
Definition val_ok (x : Z) : Prop := ena_is_in_heap v x = false \/ is_Some (index_of v x).

Definition values_of (t : ident_table) : list Z := match foreach_value t with Done vs => vs | _ => [] end.
Definition keys_of (t : ident_table) : list Z := match foreach_key t with Done ks => ks | _ => [] end.
Definition table_ok (t : ident_table) : Prop := exists es, all_entries (buckets t) = Done es.

(** The data of an object fits its type. *)
Definition data_ok (t : ena_value_type) (d : obj_data) : Prop :=
  match t, d with
  | ENA_T_INT, D_int _ | ENA_T_STRING, D_string _ _ _ | ENA_T_USERDATA, D_userdata _ => True
  | ENA_T_FUNC, D_func _ _ scope _ => scope = 0 \/ is_obj scope ENA_T_SCOPE
  | ENA_T_CLASS, D_class methods => table_ok methods /\ Forall val_ok (values_of methods)
  | ENA_T_INSTANCE, D_instance cls props => is_obj cls ENA_T_CLASS /\ is_obj props ENA_T_SCOPE
  | ENA_T_LIST, D_list elems => Forall (fun e => exists x, e = Some x /\ val_ok x) elems
  | ENA_T_MAP, D_map entries => table_ok entries /\ Forall val_ok (keys_of entries) /\ Forall val_ok (values_of entries)
  | ENA_T_SCOPE, D_scope vars parent => table_ok vars /\ Forall val_ok (values_of vars) /\ (parent = 0 \/ is_obj parent ENA_T_SCOPE)
  | ENA_T_MODULE, D_module next scope => (next = 0 \/ is_obj next ENA_T_MODULE) /\ is_obj scope ENA_T_SCOPE
  | _, _ => False
  end.

(** [rank] witnesses that a chain of scopes has an end. *)
Record heap_ok (rank : nat -> nat) : Prop := HeapOk {
  ho_length : length (pool v) = NOBJ;
  ho_base : 8 <= value_pool v /\ Z.even (value_pool v) = true /\ value_pool v + SIZEOF_OBJECT * ENA_MAX_NUM_VALUES < 2 ^ 64;
  ho_data : forall i o, pool v !! i = Some o -> flags o = 0 \/ exists t, flags o = type_code t /\ data_ok t (data o);
  ho_rank : forall i, (rank i <= NOBJ)%nat;
  ho_parent : forall i o vars parent j, pool v !! i = Some o -> flags o = type_code ENA_T_SCOPE -> data o = D_scope vars parent ->
    index_of v parent = Some j -> (rank j < rank i)%nat
}.

(** ** Reachability *)

(** The objects a program can come to from the values [xs], by the pointers in the data
    of the objects in use. *)
Definition fields (d : obj_data) : list Z :=
  match d with
  | D_func _ _ scope _ => [scope]
  | D_class methods => values_of methods
  | D_instance cls props => [cls; props]
  | D_list elems => omap id elems
  | D_map entries => keys_of entries ++ values_of entries
  | D_scope vars parent => parent :: values_of vars
  | D_module next scope => [next; scope]
  | D_int _ | D_string _ _ _ | D_userdata _ | D_none => []
  end.
Definition in_use (i : nat) : Prop := exists o, pool v !! i = Some o /\ flags o <> 0.
Inductive reachable (xs : list Z) : nat -> Prop :=
| reachable_root x i : x ∈ xs -> index_of v x = Some i -> in_use i -> reachable xs i
| reachable_field i o x j : reachable xs i -> pool v !! i = Some o -> x ∈ fields (data o) -> index_of v x = Some j -> in_use j ->
    reachable xs j.

(** The part of it that the collector follows: the pointers it looks at in the data of
    an object. *)
Definition refs (d : obj_data) : list Z :=
  match d with
  | D_func _ _ scope _ => [scope]
  | D_class methods => values_of methods
  | D_instance cls props => [cls; props]
  | D_list elems => omap id elems
  | D_map entries => keys_of entries ++ values_of entries
  | D_scope vars parent => values_of vars ++ [parent]
  | D_module _ scope => [scope]
  | _ => []
  end.
(** The objects [mark] marks when it comes to their address: those in use, except
    modules, for which it has no case. *)
Definition markable (i : nat) : Prop :=
  exists o, pool v !! i = Some o /\ flags o <> 0 /\ flags o <> type_code ENA_T_MODULE.
Definition points_to (i j : nat) : Prop :=
  exists o p, pool v !! i = Some o /\ p ∈ refs (data o) /\ index_of v p = Some j /\ markable j.
Inductive reach (R : nat -> Prop) : nat -> Prop :=
| reach_root i : R i -> reach R i
| reach_step i j : reach R i -> points_to i j -> reach R j.

(** What [mark] is called for. *)
Definition values_target (xs : list Z) (i : nat) : Prop := exists x, x ∈ xs /\ index_of v x = Some i /\ markable i.

End Wf.

Lemma reach_mono v (R R' : nat -> Prop) i : (forall j, R j -> R' j) -> reach v R i -> reach v R' i.
Proof. intros H. induction 1; [by apply reach_root, H | by eapply reach_step]. Qed.
Lemma reach_trans v (R R' : nat -> Prop) i : (forall j, R j -> reach v R' j) -> reach v R i -> reach v R' i.
Proof. intros H. induction 1; [by apply H | by eapply reach_step]. Qed.

(** ** Addresses *)

Lemma index_of_spec v p i : index_of v p = Some i <-> (i < NOBJ)%nat /\ p = addr_of v i.
Proof.
  unfold index_of, addr_of, SIZEOF_OBJECT, ENA_MAX_NUM_VALUES. pose proof NOBJ_val as HN.
  pose proof (Z.div_mod (p - value_pool v) 40 ltac:(lia)) as Hd.
  pose proof (Z.mod_pos_bound (p - value_pool v) 40 ltac:(lia)) as Hm. split.
  - destruct (_ && _ && _) eqn:E; [|done]. intros [= <-].
    apply andb_prop in E as [[E1%Z.leb_le E2%Z.ltb_lt]%andb_prop E3%Z.eqb_eq].
    pose proof (Z.div_pos (p - value_pool v) 40). pose proof (Z.div_lt_upper_bound (p - value_pool v) 40 8192). lia.
  - intros [Hi ->]. replace (value_pool v + 40 * Z.of_nat i - value_pool v) with (Z.of_nat i * 40) by lia.
    rewrite Z.div_mul, Z.mod_mul, Nat2Z.id by lia. rewrite (proj2 (Z.leb_le _ _)), (proj2 (Z.ltb_lt _ _)) by lia. done.
Qed.
Lemma index_of_0 v rank : heap_ok v rank -> index_of v 0 = None.
Proof.
  intros H. destruct (index_of v 0) as [i|] eqn:E; [|done]. apply index_of_spec in E as [_ E].
  pose proof (ho_base _ _ H). unfold addr_of, SIZEOF_OBJECT in E. lia.
Qed.
Lemma index_in_heap v p i : index_of v p = Some i -> ena_is_in_heap v p = true.
Proof.
  intros [Hi ->]%index_of_spec. pose proof NOBJ_val. unfold ena_is_in_heap, addr_of, SIZEOF_OBJECT, ENA_MAX_NUM_VALUES.
  rewrite !(proj2 (Z.leb_le _ _)) by lia. done.
Qed.

Lemma addr_not_const v p i : 8 <= value_pool v -> Z.even (value_pool v) = true -> index_of v p = Some i ->
  (p =? ENA_NULL) = false /\ (p =? ENA_TRUE) = false /\ (p =? ENA_FALSE) = false /\ IS_SMALLINT p = false.
Proof.
  intros H1 H2 [Hi ->]%index_of_spec. unfold addr_of, SIZEOF_OBJECT.
  unfold ENA_NULL, ENA_TRUE, ENA_FALSE. repeat split; try (apply Z.eqb_neq; lia).
  unfold IS_SMALLINT. change 1 with (Z.ones 1). rewrite Z.land_ones by lia. change (2 ^ 1) with 2.
  apply Zeven_bool_iff, Zeven_ex in H2 as [m ->]. replace (2 * m + 40 * Z.of_nat i) with ((m + 20 * Z.of_nat i) * 2) by lia.
  by rewrite Z.mod_mul.
Qed.

(** ** Heaps with marks *)

Definition mark_flag (o : ena_object) : ena_object := Object (Z.lor (flags o) OBJECT_FLAG_MARKED) (data o).
Definition marks (X : gset nat) (i : nat) (o : ena_object) : ena_object := if decide (i ∈ X) then mark_flag o else o.
Definition with_marks (X : gset nat) (v : ena_vm) : ena_vm := set_pool (imap (marks X) (pool v)) v.

Lemma type_code_bound t : 0 <= type_code t < 16.
Proof. destruct t; simpl; lia. Qed.
Lemma type_of_type_code t : type_of_code (type_code t) = Some t.
Proof. by destruct t. Qed.
Lemma type_code_inj t1 t2 : type_code t1 = type_code t2 -> t1 = t2.
Proof. intros E. apply (f_equal type_of_code) in E. rewrite !type_of_type_code in E. by injection E. Qed.
Lemma marked_code X i o t : flags o = type_code t ->
  is_marked (marks X i o) = bool_decide (i ∈ X) /\ Z.land (flags (marks X i o)) OBJECT_FLAG_TYPE_MASK = type_code t.
Proof.
  intros E. unfold marks, is_marked. case_decide as Hi; simpl; rewrite E.
  - rewrite bool_decide_true by done. by destruct t.
  - rewrite bool_decide_false by done. by destruct t.
Qed.
Lemma data_marks X i o : data (marks X i o) = data o.
Proof. unfold marks. by case_decide. Qed.
Lemma marked_zero X i o : flags o = 0 -> i ∉ X -> is_marked (marks X i o) = false.
Proof. intros E Hi. unfold marks, is_marked. rewrite decide_False by done. by rewrite E. Qed.

Lemma pool_with_marks X v i : pool (with_marks X v) !! i = marks X i <$> pool v !! i.
Proof. apply list_lookup_imap. Qed.
Lemma with_marks_add X v i o : pool v !! i = Some o ->
  set_pool (<[i := mark_flag (marks X i o)]> (pool (with_marks X v))) (with_marks X v) = with_marks (X ∪ {[i]}) v.
Proof.
  intros Hi. unfold with_marks. destruct v. unfold set_pool. simpl in *. f_equal. apply list_eq. intros j.
  rewrite list_lookup_imap. destruct (decide (i = j)) as [<-|Hne].
  - rewrite list_lookup_insert_eq by (rewrite length_imap; by eapply lookup_lt_Some). rewrite Hi. simpl. f_equal.
    unfold marks at 2. rewrite decide_True by set_solver. unfold marks. case_decide; [|done].
    unfold mark_flag. simpl. f_equal. by rewrite <- Z.lor_assoc, Z.lor_diag.
  - rewrite list_lookup_insert_ne, list_lookup_imap by done. destruct (pool !! j); [|done]. simpl. f_equal.
    unfold marks. by rewrite (decide_ext (j ∈ X ∪ {[i]}) (j ∈ X)) by set_solver.
Qed.
Lemma with_marks_empty v : with_marks ∅ v = v.
Proof.
  unfold with_marks. destruct v. unfold set_pool. simpl. f_equal. apply list_eq. intros i. rewrite list_lookup_imap.
  destruct (pool !! i); [|done]. simpl. unfold marks. by rewrite decide_False by set_solver.
Qed.

Section Marking.
Variables (v : ena_vm) (rank : nat -> nat).
Hypothesis Hv : heap_ok v rank.
Abbreviation V X := (with_marks X v).
Implicit Types (X : gset nat) (i : nat) (p : Z).

Lemma object_at_V X p i o : index_of v p = Some i -> pool v !! i = Some o -> object_at p (V X) = Done (marks X i o, V X).
Proof.
  intros Hp Hi. unfold object_at, bind, get, need. change (index_of (V X) p) with (index_of v p). rewrite Hp. unfold ret.
  by rewrite pool_with_marks, Hi.
Qed.
Lemma mark_object_V X p i o : index_of v p = Some i -> pool v !! i = Some o -> mark_object p (V X) = Done (tt, V (X ∪ {[i]})).
Proof.
  intros Hp Hi. unfold mark_object. rewrite (bind_intro _ _ _ _ _ _ (object_at_V X p i o Hp Hi) eq_refl).
  unfold put_object, bind, get, need. change (index_of (V X) p) with (index_of v p). rewrite Hp. unfold ret.
  rewrite decide_True by (simpl; rewrite length_imap; by eapply lookup_lt_Some). unfold put. do 2 f_equal. by apply with_marks_add.
Qed.
Lemma lookup_pool i : (i < NOBJ)%nat -> exists o, pool v !! i = Some o.
Proof. intros Hi. apply lookup_lt_is_Some_2. by rewrite (ho_length _ _ Hv). Qed.
Lemma index_object p i : index_of v p = Some i -> exists o, pool v !! i = Some o.
Proof. intros [Hi _]%index_of_spec. by apply lookup_pool. Qed.
Lemma addr_consts p i : index_of v p = Some i -> (p =? ENA_NULL) = false /\ (p =? ENA_TRUE) = false /\ (p =? ENA_FALSE) = false /\
  IS_SMALLINT p = false.
Proof. destruct (ho_base _ _ Hv) as (H1 & H2 & _). by apply addr_not_const. Qed.
Lemma get_type_V X p i o t : index_of v p = Some i -> pool v !! i = Some o -> flags o = type_code t ->
  ena_get_type p (V X) = Done (t, V X).
Proof.
  intros Hp Hi Ht. unfold ena_get_type. destruct (addr_consts p i Hp) as (-> & -> & -> & ->). simpl.
  unfold gets, bind at 1. change (ena_is_in_heap (V X) p) with (ena_is_in_heap v p). rewrite (index_in_heap _ _ _ Hp).
  rewrite (bind_intro _ _ _ _ _ _ (object_at_V X p i o Hp Hi) eq_refl).
  destruct (marked_code X i o t Ht) as [_ ->]. by rewrite type_of_type_code.
Qed.
Lemma get_type_other X x : ena_is_in_heap v x = false -> exists t, ena_get_type x (V X) = Done (t, V X) /\
  (t = ENA_T_NULL \/ t = ENA_T_BOOL \/ (t = ENA_T_INT /\ IS_SMALLINT x = true) \/ t = ENA_T_UNDEFINED).
Proof.
  intros Hx. unfold ena_get_type. destruct (x =? ENA_NULL); [eexists; eauto|]. destruct (_ || _); [eexists; eauto|].
  destruct (IS_SMALLINT x) eqn:E; [eexists; eauto 6|]. unfold gets, bind at 1. change (ena_is_in_heap (V X) x) with (ena_is_in_heap v x).
  rewrite Hx. eexists. eauto 6.
Qed.

(** ** Marking *)

Definition arg (c : mark_call) : Z :=
  match c with C_value p | C_func p | C_scope p | C_class p | C_instance p | C_map p | C_list p => p end.
Definition call_ok (c : mark_call) : Prop :=
  match c with
  | C_value x => val_ok v x
  | C_func p => is_obj v p ENA_T_FUNC | C_scope p => is_obj v p ENA_T_SCOPE | C_class p => is_obj v p ENA_T_CLASS
  | C_instance p => is_obj v p ENA_T_INSTANCE | C_map p => is_obj v p ENA_T_MAP | C_list p => is_obj v p ENA_T_LIST
  end.
(** [marked R X Y]: from the marks [X], the objects in [R] and what is reachable from
    them and not yet marked are marked. *)
Record marked (R : nat -> Prop) X (Y : gset nat) : Prop := Marked {
  m_mono : X ⊆ Y;
  m_range : forall i, i ∈ Y -> (i < NOBJ)%nat;
  m_all : forall i, R i -> i ∈ Y;
  m_only : forall i, i ∈ Y -> i ∈ X \/ reach v R i;
  m_closed : forall i j, i ∈ Y -> i ∉ X -> points_to v i j -> j ∈ Y
}.

Definition in_range X : Prop := forall i, i ∈ X -> (i < NOBJ)%nat.
Abbreviation marks_from xs := (marked (values_target v xs)).

Lemma marked_refl X xs : in_range X -> (forall i, values_target v xs i -> i ∈ X) -> marks_from xs X X.
Proof. intros H1 H2. split; [done | done | done | by left | done]. Qed.
Lemma values_target_app xs ys i : values_target v (xs ++ ys) i <-> values_target v xs i \/ values_target v ys i.
Proof.
  unfold values_target. split.
  - intros (x & [Hx|Hx]%elem_of_app & Hi); [left | right]; by exists x.
  - intros [(x & Hx & Hi)|(x & Hx & Hi)]; exists x; (split; [apply elem_of_app; tauto | done]).
Qed.
Lemma marked_or (R1 R2 : nat -> Prop) X Y Z : marked R1 X Y -> marked R2 Y Z -> marked (fun i => R1 i \/ R2 i) X Z.
Proof.
  intros [M1 G1 A1 O1 C1] [M2 G2 A2 O2 C2]. split.
  - set_solver.
  - done.
  - intros i [H|H]; [by apply M2, A1 | by apply A2].
  - intros i Hi. destruct (O2 i Hi) as [Hy|Hr]; [destruct (O1 i Hy) as [Hx|Hr]; [by left|]|]; right;
      (eapply reach_mono; [|exact Hr]); tauto.
  - intros i j Hi Hx Hj. destruct (decide (i ∈ Y)) as [Hy|Hy]; [apply M2; by eapply C1 | by eapply C2].
Qed.
Lemma marked_ext (R R' : nat -> Prop) X Y : (forall i, R i <-> R' i) -> marked R X Y -> marked R' X Y.
Proof.
  intros E [M1 G1 A1 O1 C1]. split; try done.
  - intros i Hi. by apply A1, E.
  - intros i Hi. destruct (O1 i Hi) as [?|Hr]; [by left|]. right. eapply reach_mono; [|exact Hr]. intros j. apply E.
Qed.
Lemma marked_app xs ys X Y Z : marks_from xs X Y -> marks_from ys Y Z -> marks_from (xs ++ ys) X Z.
Proof.
  intros H1 H2. eapply marked_ext; [|by eapply marked_or]. intros i. symmetry. apply values_target_app.
Qed.
Lemma points_to_refs i o j : pool v !! i = Some o -> points_to v i j <-> values_target v (refs (data o)) j.
Proof.
  intros Hi. unfold points_to, values_target. split.
  - intros (o' & p & Ho & Hp & Hj & Hm). rewrite Hi in Ho. injection Ho as <-. eauto.
  - intros (p & Hp & Hj & Hm). eauto 6.
Qed.
(** An object is marked, then what it points to. *)
Lemma marked_object i o X Y : pool v !! i = Some o -> marks_from (refs (data o)) (X ∪ {[i]}) Y -> marked (fun j => j = i) X Y.
Proof.
  intros Hi [M1 G1 A1 O1 C1]. split.
  - set_solver.
  - done.
  - intros j ->. set_solver.
  - intros j Hj. destruct (O1 j Hj) as [Hx|Hreach].
    + apply elem_of_union in Hx as [Hx|Hx%elem_of_singleton]; [by left | subst; right; by apply reach_root].
    + right. eapply reach_trans; [|exact Hreach]. intros k Hk. eapply reach_step; [by apply reach_root|].
      by apply (points_to_refs i o).
  - intros j k Hj Hx Hk. destruct (decide (j = i)) as [->|Hne]; [apply A1; by apply (points_to_refs i o)|].
    eapply C1; [done | set_solver | done].
Qed.
Lemma marked_node p i o X Y : index_of v p = Some i -> pool v !! i = Some o -> markable v i ->
  marks_from (refs (data o)) (X ∪ {[i]}) Y -> marks_from [p] X Y.
Proof.
  intros Hp Hi Hm H. eapply marked_ext; [|by eapply marked_object]. intros j. split.
  - intros ->. exists p. split; [by apply list_elem_of_singleton | done].
  - intros (p' & Hp' & Hj & _). apply list_elem_of_singleton in Hp' as ->. rewrite Hp in Hj. by injection Hj.
Qed.
Lemma is_obj_markable p t : is_obj v p t -> t <> ENA_T_MODULE -> t <> ENA_T_UNDEFINED ->
  exists i o, index_of v p = Some i /\ pool v !! i = Some o /\ flags o = type_code t /\ markable v i /\ data_ok v t (data o).
Proof.
  intros (i & o & Hp & Hi & Ht) H1 H2. exists i, o. assert (Hz : flags o <> 0) by (rewrite Ht; by destruct t).
  repeat split; try done.
  - exists o. repeat split; try done. rewrite Ht. by intros ?%type_code_inj.
  - destruct (ho_data _ _ Hv i o Hi) as [?|(t' & Ht' & Hd)]; [done|]. rewrite Ht in Ht'. apply type_code_inj in Ht' as <-. done.
Qed.

(** ** The measure of a call *)

Definition left X : nat := NOBJ - size X.
Definition K : nat := NOBJ + 4.
Definition extra (c : mark_call) (i : nat) : nat :=
  match c with C_scope _ => rank i + 1 | C_func _ | C_instance _ => NOBJ + 2 | _ => 1 end.
Definition meas (c : mark_call) X : nat :=
  match c with
  | C_value _ => left X * K
  | _ => match index_of v (arg c) with Some i => left (X ∪ {[i]}) * K + extra c i | None => 0 end
  end.
Lemma size_in_range X : in_range X -> (size X <= NOBJ)%nat.
Proof.
  intros H. rewrite <- (size_set_seq (C := gset nat) 0 NOBJ). apply subseteq_size. intros i Hi. apply elem_of_set_seq. pose proof (H i Hi). lia.
Qed.
Lemma left_mono X Y : X ⊆ Y -> (left Y <= left X)%nat.
Proof. intros H%subseteq_size. unfold left. lia. Qed.
Lemma left_add X i : in_range X -> (i < NOBJ)%nat -> i ∉ X -> left X = S (left (X ∪ {[i]})).
Proof.
  intros H Hi Hx. assert (in_range (X ∪ {[i]})) as H' by (intros j [?|?%elem_of_singleton]%elem_of_union; [by apply H | by subst]).
  apply size_in_range in H'. unfold left. rewrite size_union in * by set_solver. rewrite size_singleton in *. lia.
Qed.
Lemma extra_bound c i : (extra c i < K)%nat.
Proof. unfold extra, K. pose proof (ho_rank _ _ Hv i). destruct c; lia. Qed.

(** ** The marking functions *)

Definition marks_ok (fuel : nat) : Prop := forall c X, call_ok c -> in_range X -> (meas c X < fuel)%nat ->
  exists Y, mark fuel c (V X) = Done (tt, V Y) /\ marks_from [arg c] X Y.

Lemma iter_marks fuel xs : marks_ok fuel -> Forall (val_ok v) xs -> forall X, in_range X -> (left X * K < fuel)%nat ->
  exists Y, iter (fun x => mark fuel (C_value x)) xs (V X) = Done (tt, V Y) /\ marks_from xs X Y.
Proof.
  intros HF. induction 1 as [|x xs Hx Hxs IH]; intros X HX Hf.
  - exists X. split; [done|]. apply marked_refl; [done|]. intros i (x & Hx & _). by apply not_elem_of_nil in Hx.
  - destruct (HF (C_value x) X Hx HX Hf) as (Y & E1 & M1).
    pose proof (left_mono _ _ (m_mono _ _ _ M1)). destruct (IH Y (m_range _ _ _ M1)) as (Z & E2 & M2); [nia|].
    exists Z. split; [cbn [iter]; by rewrite (bind_intro _ _ _ _ _ _ E1 E2) | by apply (marked_app [x] xs X Y Z)].
Qed.
Lemma iter_elems f es : Forall (fun e => exists x, e = Some x /\ val_ok v x) es ->
  Forall (val_ok v) (omap id es) /\ forall s, iter (fun e => x <- need e ;; f x) es s = iter f (omap id es) s.
Proof.
  induction 1 as [|? es (x & -> & Hx) He [IH1 IH2]]; [done|]. split; [by constructor|]. intros s. cbn. unfold bind. simpl.
  destruct (f x s) as [[u s1]| | |]; [apply IH2 | done..].
Qed.

(** A function for a type marks its object, then goes on with the data. *)
Lemma mark_type_ok c t fuel X (m : obj_data -> M ena_vm unit) :
  is_obj v (arg c) t -> t <> ENA_T_MODULE -> t <> ENA_T_UNDEFINED -> in_range X -> (forall x, c <> C_value x) -> (meas c X < S fuel)%nat ->
  (forall i o Y, index_of v (arg c) = Some i -> pool v !! i = Some o -> flags o = type_code t -> data_ok v t (data o) -> in_range Y ->
    (left Y * K + extra c i <= fuel)%nat -> exists Z, m (data o) (V Y) = Done (tt, V Z) /\ marks_from (refs (data o)) Y Z) ->
  exists Y, (mark_object (arg c) ;;; o <- object_at (arg c) ;; m (data o)) (V X) = Done (tt, V Y) /\ marks_from [arg c] X Y.
Proof.
  intros Ho H1 H2 HX Hnv Hf Hm. destruct (is_obj_markable (arg c) t Ho H1 H2) as (i & o & Hp & Hi & Ht & Hmk & Hd).
  assert (Hme : meas c X = (left (X ∪ {[i]}) * K + extra c i)%nat).
  { unfold meas. rewrite Hp. destruct c; try done. by destruct (Hnv value). }
  assert (HX1 : in_range (X ∪ {[i]})).
  { intros j [?|?%elem_of_singleton]%elem_of_union; [by apply HX|]. subst. by apply index_of_spec in Hp as [? _]. }
  destruct (Hm i o (X ∪ {[i]}) Hp Hi Ht Hd HX1) as (Z & E & HM); [lia|]. exists Z. split; [|by apply (marked_node _ i o)].
  rewrite (bind_intro _ _ _ _ _ _ (mark_object_V X _ i o Hp Hi) eq_refl).
  rewrite (bind_intro _ _ _ _ _ _ (object_at_V _ _ i o Hp Hi) eq_refl). by rewrite data_marks.
Qed.
Lemma foreach_value_ok t : table_ok t -> foreach_value t = Done (values_of t) /\ foreach_key t = Done (keys_of t).
Proof. intros [es E]. unfold values_of, keys_of, foreach_value, foreach_key. by rewrite E. Qed.
Lemma marks_none X : in_range X -> marks_from [0] X X.
Proof.
  intros HX. apply marked_refl; [done|]. intros i (x & Hx & Hi & _). apply list_elem_of_singleton in Hx as ->.
  by rewrite (index_of_0 v rank Hv) in Hi.
Qed.
(** A pointer to a scope that may be [NULL]. *)
Lemma mark_opt_scope fuel sc X : marks_ok fuel -> sc = 0 \/ is_obj v sc ENA_T_SCOPE -> in_range X ->
  (forall j, index_of v sc = Some j -> left X * K + rank j + 1 < fuel)%nat ->
  exists Y, (if sc =? 0 then ret tt else mark fuel (C_scope sc)) (V X) = Done (tt, V Y) /\ marks_from [sc] X Y.
Proof.
  intros HF Hsc HX Hf. destruct (Z.eqb_spec sc 0) as [->|Hne]; [exists X; split; [done | by apply marks_none]|].
  destruct Hsc as [?|Hsc]; [done|]. apply (HF (C_scope sc)); [done | done |]. destruct Hsc as (j & o & Hj & _).
  unfold meas. cbn [arg extra]. rewrite Hj. specialize (Hf j Hj). pose proof (left_mono X (X ∪ {[j]}) ltac:(set_solver)). nia.
Qed.

Section Step.
Variable fuel : nat.
Hypothesis HF : marks_ok fuel.
Definition step_ok (c : mark_call) : Prop := forall X, call_ok c -> in_range X -> (meas c X < S fuel)%nat ->
  exists Y, mark (S fuel) c (V X) = Done (tt, V Y) /\ marks_from [arg c] X Y.

Lemma mark_func_step p : step_ok (C_func p).
Proof.
  intros X Hc HX Hf. apply (mark_type_ok (C_func p) ENA_T_FUNC fuel X (fun d => match d with
    D_func _ _ scope _ => if scope =? 0 then ret tt else mark fuel (C_scope scope) | _ => undef end)); try done.
  intros i o Y Hp Hi Ht Hd HY HfY. destruct (data o); try done. apply mark_opt_scope; [done | done | done |].
  intros j Hj. cbn [extra] in HfY. pose proof (ho_rank _ _ Hv j). lia.
Qed.
Lemma mark_scope_step p : step_ok (C_scope p).
Proof.
  intros X Hc HX Hf. apply (mark_type_ok (C_scope p) ENA_T_SCOPE fuel X (fun d => match d with
    | D_scope vars parent => vs <- lift (foreach_value vars) ;; iter (fun v => mark fuel (C_value v)) vs ;;;
        if parent =? 0 then ret tt else mark fuel (C_scope parent)
    | _ => undef end)); try done.
  intros i o Y Hp Hi Ht Hd HY HfY. destruct (data o) as [| | | | | | | |vars parent| |] eqn:Ed; try done. destruct Hd as (Hok & Hvs & Hpar).
  destruct (foreach_value_ok _ Hok) as [-> _]. cbn [extra] in HfY.
  destruct (iter_marks fuel _ HF Hvs Y HY) as (Z & E & HM); [lia|]. pose proof (left_mono _ _ (m_mono _ _ _ HM)).
  destruct (mark_opt_scope fuel parent Z HF Hpar (m_range _ _ _ HM)) as (W & E2 & HM2).
  { intros j Hj. pose proof (ho_parent _ _ Hv i o vars parent j Hi Ht Ed Hj). nia. }
  exists W. split; [|by eapply marked_app]. unfold lift, bind at 1. simpl. by rewrite (bind_intro _ _ _ _ _ _ E E2).
Qed.
Lemma mark_class_step p : step_ok (C_class p).
Proof.
  intros X Hc HX Hf. apply (mark_type_ok (C_class p) ENA_T_CLASS fuel X (fun d => match d with
    D_class methods => vs <- lift (foreach_value methods) ;; iter (fun v => mark fuel (C_value v)) vs | _ => undef end)); try done.
  intros i o Y Hp Hi Ht Hd HY HfY. destruct (data o); try done. destruct Hd as (Hok & Hvs).
  destruct (foreach_value_ok _ Hok) as [-> _]. cbn [extra] in HfY. apply iter_marks; [done | done | done | lia].
Qed.
Lemma mark_list_step p : step_ok (C_list p).
Proof.
  intros X Hc HX Hf. apply (mark_type_ok (C_list p) ENA_T_LIST fuel X (fun d => match d with
    D_list elems => iter (fun e => v <- need e ;; mark fuel (C_value v)) elems | _ => undef end)); try done.
  intros i o Y Hp Hi Ht Hd HY HfY. destruct (data o) as [| | | | | |elems| | | |]; try done. cbn [extra] in HfY.
  destruct (iter_elems (fun x => mark fuel (C_value x)) elems Hd) as [Hvs ->]. apply iter_marks; [done | done | done | lia].
Qed.
Lemma mark_map_step p : step_ok (C_map p).
Proof.
  intros X Hc HX Hf. apply (mark_type_ok (C_map p) ENA_T_MAP fuel X (fun d => match d with
    | D_map entries => ks <- lift (foreach_key entries) ;; iter (fun v => mark fuel (C_value v)) ks ;;;
        vs <- lift (foreach_value entries) ;; iter (fun v => mark fuel (C_value v)) vs
    | _ => undef end)); try done.
  intros i o Y Hp Hi Ht Hd HY HfY. destruct (data o); try done. destruct Hd as (Hok & Hks & Hvs).
  destruct (foreach_value_ok _ Hok) as [E1 E2]. cbn [extra] in HfY.
  destruct (iter_marks fuel _ HF Hks Y HY) as (Z & E & HM); [lia|]. pose proof (left_mono _ _ (m_mono _ _ _ HM)).
  destruct (iter_marks fuel _ HF Hvs Z (m_range _ _ _ HM)) as (W & E' & HM'); [nia|].
  exists W. split; [|by eapply marked_app]. rewrite E1, E2. unfold lift, bind at 1. simpl.
  by rewrite (bind_intro _ _ _ _ _ _ E E').
Qed.
Lemma mark_instance_step p : step_ok (C_instance p).
Proof.
  intros X Hc HX Hf. apply (mark_type_ok (C_instance p) ENA_T_INSTANCE fuel X (fun d => match d with
    D_instance cls props => mark fuel (C_class cls) ;;; mark fuel (C_scope props) | _ => undef end)); try done.
  intros i o Y Hp Hi Ht Hd HY HfY. destruct (data o) as [| | | | |cls props| | | | |]; try done. destruct Hd as (Hcls & Hprops).
  cbn [extra] in HfY. destruct (HF (C_class cls) Y Hcls HY) as (Z & E & HM).
  { destruct Hcls as (j & ? & Hj & _). unfold meas. cbn [arg extra]. rewrite Hj. pose proof (left_mono Y (Y ∪ {[j]}) ltac:(set_solver)). nia. }
  pose proof (left_mono _ _ (m_mono _ _ _ HM)).
  destruct (HF (C_scope props) Z Hprops (m_range _ _ _ HM)) as (W & E' & HM').
  { destruct Hprops as (j & ? & Hj & _). unfold meas. cbn [arg extra]. rewrite Hj. pose proof (ho_rank _ _ Hv j).
    pose proof (left_mono Z (Z ∪ {[j]}) ltac:(set_solver)). nia. }
  exists W. split; [by rewrite (bind_intro _ _ _ _ _ _ E E') | by apply (marked_app [cls] [props] Y Z W)].
Qed.

Lemma not_target x i X : index_of v x = Some i -> ~ markable v i -> in_range X -> marks_from [x] X X.
Proof.
  intros Hx Hm HX. apply marked_refl; [done|]. intros j (y & Hy & Hj & Hmj). apply list_elem_of_singleton in Hy as ->.
  rewrite Hx in Hj. by injection Hj as <-.
Qed.
Lemma markable_flags i o : pool v !! i = Some o -> markable v i -> flags o <> 0 /\ flags o <> type_code ENA_T_MODULE.
Proof. intros Hi (o' & Ho & H). rewrite Hi in Ho. injection Ho as <-. done. Qed.
(** A leaf: only the object itself is marked. *)
Lemma mark_leaf x i o X : index_of v x = Some i -> pool v !! i = Some o -> markable v i -> refs (data o) = [] -> in_range X ->
  exists Y, mark_object x (V X) = Done (tt, V Y) /\ marks_from [x] X Y.
Proof.
  intros Hx Hi Hm Hr HX. exists (X ∪ {[i]}). split; [by apply (mark_object_V X x i o)|]. apply (marked_node x i o); [done..|].
  rewrite Hr. apply marked_refl; [|intros j (y & Hy & _); by apply not_elem_of_nil in Hy].
  intros j [?|?%elem_of_singleton]%elem_of_union; [by apply HX|]. subst. by apply index_of_spec in Hx as [? _].
Qed.
Lemma mark_value_unmarked x i o t X : index_of v x = Some i -> pool v !! i = Some o -> flags o = type_code t -> i ∉ X ->
  mark (S fuel) (C_value x) (V X) =
  match t with
  | ENA_T_INT | ENA_T_STRING | ENA_T_USERDATA => mark_object x (V X)
  | ENA_T_FUNC => mark fuel (C_func x) (V X) | ENA_T_SCOPE => mark fuel (C_scope x) (V X)
  | ENA_T_CLASS => mark fuel (C_class x) (V X) | ENA_T_INSTANCE => mark fuel (C_instance x) (V X)
  | ENA_T_MAP => mark fuel (C_map x) (V X) | ENA_T_LIST => mark fuel (C_list x) (V X)
  | _ => Done (tt, V X)
  end.
Proof.
  intros Hx Hi Ht Hn. cbn [mark]. unfold gets, bind at 1. change (ena_is_in_heap (V X) x) with (ena_is_in_heap v x).
  rewrite (index_in_heap _ _ _ Hx). destruct (marked_code X i o t Ht) as [Hmk _]. rewrite bool_decide_false in Hmk by done.
  erewrite (bind_intro _ _ (V X) false (V X)); [|by rewrite (bind_intro _ _ _ _ _ _ (object_at_V X x i o Hx Hi) eq_refl), Hmk | reflexivity].
  rewrite (bind_intro _ _ _ _ _ _ (get_type_V X x i o t Hx Hi Ht) eq_refl). destruct (addr_consts x i Hx) as (_ & _ & _ & ->). by destruct t.
Qed.
Lemma mark_value_marked x i o t X : index_of v x = Some i -> pool v !! i = Some o -> flags o = type_code t -> i ∈ X ->
  mark (S fuel) (C_value x) (V X) = Done (tt, V X).
Proof.
  intros Hx Hi Ht Hn. cbn [mark]. unfold gets, bind at 1. change (ena_is_in_heap (V X) x) with (ena_is_in_heap v x).
  rewrite (index_in_heap _ _ _ Hx). destruct (marked_code X i o t Ht) as [Hmk _]. rewrite bool_decide_true in Hmk by done.
  erewrite (bind_intro _ _ (V X) true (V X)); [|by rewrite (bind_intro _ _ _ _ _ _ (object_at_V X x i o Hx Hi) eq_refl), Hmk | reflexivity].
  done.
Qed.
Lemma mark_value_other x X : ena_is_in_heap v x = false -> mark (S fuel) (C_value x) (V X) = Done (tt, V X).
Proof.
  intros Hx. cbn [mark]. unfold gets, bind at 1. change (ena_is_in_heap (V X) x) with (ena_is_in_heap v x). rewrite Hx. unfold ret at 1.
  unfold bind at 1. destruct (get_type_other X x Hx) as (t & Et & Ht). rewrite (bind_intro _ _ _ _ _ _ Et eq_refl).
  destruct Ht as [-> | [-> | [[-> ->] | ->]]]; done.
Qed.
(** The object of a value that is not marked, by its type. *)
Lemma mark_dispatch x i o t X : index_of v x = Some i -> pool v !! i = Some o -> flags o = type_code t -> data_ok v t (data o) ->
  i ∉ X -> in_range X -> (left X * K < S fuel)%nat ->
  exists Y, mark (S fuel) (C_value x) (V X) = Done (tt, V Y) /\ marks_from [x] X Y.
Proof.
  intros Hx Hi Ht Hd Hn HX Hf. rewrite (mark_value_unmarked x i o t X Hx Hi Ht Hn).
  assert (Ho : is_obj v x t) by (by exists i, o).
  pose proof (left_add X i HX (proj1 (proj1 (index_of_spec _ _ _) Hx)) Hn) as Hl.
  assert (Hsub : forall c, arg c = x -> call_ok c -> (forall y, c <> C_value y) ->
    exists Y, mark fuel c (V X) = Done (tt, V Y) /\ marks_from [x] X Y).
  { intros c <- Hc Hnv. apply HF; [done | done |]. pose proof (extra_bound c i). unfold meas. rewrite Hx. rewrite Hl in Hf.
    destruct c; try nia. by destruct (Hnv value). }
  assert (Hleaf : markable v i -> refs (data o) = [] -> exists Y, mark_object x (V X) = Done (tt, V Y) /\ marks_from [x] X Y)
    by (intros; by apply (mark_leaf x i o)).
  destruct t; try done; try (by apply Hsub); try (apply Hleaf; [|by destruct (data o)]; by exists o; rewrite Ht).
  - exists X. split; [done|]. apply (not_target x i); [done| |done]. intros Hm%(markable_flags i o Hi). by destruct Hm as [_ Hm].
Qed.
Lemma mark_value_step x : step_ok (C_value x).
Proof.
  intros X Hc HX Hf. cbn [meas arg call_ok] in *. destruct Hc as [Hx|[i Hx]].
  - exists X. split; [by apply mark_value_other|]. apply marked_refl; [done|]. intros i (y & Hy & Hi & _).
    apply list_elem_of_singleton in Hy as ->. apply index_in_heap in Hi. congruence.
  - destruct (index_object x i Hx) as [o Hi]. destruct (ho_data _ _ Hv i o Hi) as [Hz|(t & Ht & Hd)].
    + assert (Hm : ~ markable v i) by (intros Hm%(markable_flags i o Hi); by destruct Hm).
      exists X. split; [|by apply (not_target x i)].
      destruct (decide (i ∈ X)); [by apply (mark_value_marked x i o ENA_T_UNDEFINED)|].
      by rewrite (mark_value_unmarked x i o ENA_T_UNDEFINED).
    + destruct (decide (i ∈ X)) as [Hin|Hn]; [|by apply (mark_dispatch x i o t)].
      exists X. split; [by apply (mark_value_marked x i o t)|]. apply marked_refl; [done|]. intros j (y & Hy & Hj & _).
      apply list_elem_of_singleton in Hy as ->. rewrite Hx in Hj. by injection Hj as <-.
Qed.

End Step.

(** Every call comes to an end and marks what is reachable. *)
Lemma mark_ok fuel : marks_ok fuel.
Proof.
  induction fuel as [|fuel IH]; intros c X Hc HX Hf; [lia|]. destruct c.
  - by apply mark_value_step. - by apply mark_func_step. - by apply mark_scope_step. - by apply mark_class_step.
  - by apply mark_instance_step. - by apply mark_map_step. - by apply mark_list_step.
Qed.

(** ** The roots *)

Definition enough : nat := (NOBJ + 1) * K.
Lemma call_marks fuel c X : (enough <= fuel)%nat -> call_ok c -> in_range X ->
  exists Y, mark fuel c (V X) = Done (tt, V Y) /\ marks_from [arg c] X Y.
Proof.
  intros Hf Hc HX. apply mark_ok; [done | done |]. unfold enough in Hf.
  assert (Hl : forall Y, (left Y <= NOBJ)%nat) by (intros Y; unfold left; lia). pose proof (Hl X).
  assert (HK : (0 < K)%nat) by (unfold K; lia).
  assert (Hm : (meas c X < left X * K + K)%nat); [|nia].
  unfold meas. destruct c; try lia; (destruct (index_of v _) as [i|]; [|lia];
    pose proof (left_mono X (X ∪ {[i]}) ltac:(set_solver)); match goal with |- context [extra ?c i] => pose proof (extra_bound c i) end; nia).
Qed.

(** No word is the address behind the last object, which [ena_is_in_heap] takes for
    the address of an object. *)
Definition word_ok (w : Z) : Prop := 0 <= w < 2 ^ 64 /\ w <> value_pool v + SIZEOF_OBJECT * ENA_MAX_NUM_VALUES.
Lemma try_mark_ok fuel w X : (enough <= fuel)%nat -> word_ok w -> in_range X ->
  exists Y, try_mark fuel w (V X) = Done (tt, V Y) /\ marks_from [w] X Y.
Proof.
  intros Hf [Hw Hne] HX. destruct (ho_base _ _ Hv) as (Hb1 & _ & Hb2). unfold try_mark, bind at 1. cbn [get].
  change (ena_is_in_heap (V X) w) with (ena_is_in_heap v w). change (value_pool (V X)) with (value_pool v).
  destruct (_ && _) eqn:E.
  - apply (call_marks fuel (C_value w)); [done | | done]. right. apply andb_prop in E as [E1 E2%Z.eqb_eq].
    unfold ena_is_in_heap in E1. apply andb_prop in E1 as [E1%Z.leb_le E3%Z.leb_le].
    unfold SIZEOF_OBJECT, ENA_MAX_NUM_VALUES in *. rewrite u64_small in E2 by lia. unfold index_of, SIZEOF_OBJECT, ENA_MAX_NUM_VALUES.
    rewrite E2, (proj2 (Z.leb_le _ _)), (proj2 (Z.ltb_lt _ _)) by lia. done.
  - exists X. split; [done|]. apply marked_refl; [done|]. intros i (y & Hy & Hi & _). apply list_elem_of_singleton in Hy as ->.
    exfalso. rewrite (index_in_heap _ _ _ Hi) in E. apply index_of_spec in Hi as [Hi ->]. pose proof NOBJ_val.
    unfold addr_of, SIZEOF_OBJECT, ENA_MAX_NUM_VALUES in *. rewrite u64_small in E by lia.
    replace (value_pool v + 40 * Z.of_nat i - value_pool v) with (Z.of_nat i * 40) in E by lia. by rewrite Z.mod_mul in E.
Qed.
Lemma iter_try_mark fuel ws : (enough <= fuel)%nat -> Forall word_ok ws -> forall X, in_range X ->
  exists Y, iter (try_mark fuel) ws (V X) = Done (tt, V Y) /\ marks_from ws X Y.
Proof.
  intros Hf. induction 1 as [|w ws Hw Hws IH]; intros X HX.
  - exists X. split; [done|]. apply marked_refl; [done|]. intros i (x & Hx & _). by apply not_elem_of_nil in Hx.
  - destruct (try_mark_ok fuel w X Hf Hw HX) as (Y & E1 & M1). destruct (IH Y (m_range _ _ _ M1)) as (Z & E2 & M2).
    exists Z. split; [cbn [iter]; by rewrite (bind_intro _ _ _ _ _ _ E1 E2) | by apply (marked_app [w] ws X Y Z)].
Qed.

(** The modules in the list. *)
Inductive module_list : Z -> list nat -> Prop :=
| module_nil : module_list 0 []
| module_cons p i o next scope ms : index_of v p = Some i -> pool v !! i = Some o -> flags o = type_code ENA_T_MODULE ->
    data o = D_module next scope -> module_list next ms -> module_list p (i :: ms).
Lemma mark_modules_ok fuel p ms : (enough <= fuel)%nat -> module_list p ms -> forall n X, (length ms < n)%nat -> in_range X ->
  exists Y, mark_modules fuel n p (V X) = Done (tt, V Y) /\ marked (fun i => i ∈ ms) X Y.
Proof.
  intros Hf. induction 1 as [|p i o next scope ms Hp Hi Ht Hd Hms IH]; intros n X Hn HX; (destruct n as [|n]; [lia|]).
  - exists X. split; [done|]. split; [done | done | by intros i ?%not_elem_of_nil | by left | done].
  - assert (Hp0 : (p =? 0) = false).
    { apply Z.eqb_neq. intros ->. by rewrite (index_of_0 v rank Hv) in Hp. }
    destruct (ho_data _ _ Hv i o Hi) as [Hz|(t & Ht' & Hok)]; [by rewrite Ht in Hz|].
    rewrite Ht in Ht'. apply type_code_inj in Ht' as <-. rewrite Hd in Hok. destruct Hok as [_ Hsc].
    assert (HX1 : in_range (X ∪ {[i]})).
    { intros j [?|?%elem_of_singleton]%elem_of_union; [by apply HX|]. subst. by apply index_of_spec in Hp as [? _]. }
    destruct (call_marks fuel (C_scope scope) _ Hf Hsc HX1) as (Y & E1 & M1). cbn [arg] in M1.
    destruct (IH n Y) as (Z & E2 & M2); [cbn in Hn; lia | exact (m_range _ _ _ M1)|].
    exists Z. split.
    + cbn [mark_modules]. rewrite Hp0. erewrite (bind_intro (mark_module fuel p) _ _ tt (V Y)); [|
        unfold mark_module; rewrite (bind_intro _ _ _ _ _ _ (mark_object_V X p i o Hp Hi) eq_refl);
        rewrite (bind_intro _ _ _ _ _ _ (object_at_V _ p i o Hp Hi) eq_refl); rewrite data_marks, Hd; exact E1 | reflexivity].
      rewrite (bind_intro _ _ _ _ _ _ (object_at_V _ p i o Hp Hi) eq_refl). by rewrite data_marks, Hd.
    + eapply marked_ext; [|eapply marked_or; [apply (marked_object i o); [done | by rewrite Hd] | exact M2]].
      intros j. rewrite elem_of_cons. done.
Qed.

(** ** The sweep *)

Definition free_count (l : list ena_object) : Z := Z.of_nat (length (filter (fun o => flags o = 0) l)).
Lemma free_count_cons o l : free_count (o :: l) = (if decide (flags o = 0) then 1 else 0) + free_count l.
Proof. unfold free_count. rewrite filter_cons. case_decide; cbn [length]; lia. Qed.
Lemma free_count_insert l i o o' : l !! i = Some o ->
  free_count (<[i := o']> l) + (if decide (flags o = 0) then 1 else 0) = free_count l + (if decide (flags o' = 0) then 1 else 0).
Proof.
  revert i. induction l as [|x l IH]; intros [|i] Hi; try done.
  - injection Hi as ->. change (<[0%nat := o']> (o :: l)) with (o' :: l). rewrite !free_count_cons. lia.
  - change (<[S i := o']> (x :: l)) with (x :: <[i := o']> l). rewrite !free_count_cons. specialize (IH i Hi). lia.
Qed.
Lemma free_count_imap (f : nat -> ena_object -> ena_object) l :
  (forall i o, l !! i = Some o -> flags (f i o) = 0 <-> flags o = 0) -> free_count (imap f l) = free_count l.
Proof.
  revert f. induction l as [|x l IH]; intros f Hf; [done|]. rewrite imap_cons, !free_count_cons.
  rewrite (decide_ext (flags (f 0%nat x) = 0) (flags x = 0)) by (by apply (Hf 0%nat)). rewrite IH; [done|]. intros i o Hi. by apply (Hf (S i)).
Qed.

Section Sweep.
Context `{Host}.
Variable X : gset nat.
Hypothesis Hfree : forall d, userdata_free d = Done tt.
Hypothesis HXuse : forall i o, i ∈ X -> pool v !! i = Some o -> flags o <> 0.

Definition swept i (o : ena_object) : ena_object := if decide (flags o = 0 \/ i ∈ X) then o else Object 0 (data o).
Definition stage (k : nat) i (o : ena_object) : ena_object := if decide (i < k)%nat then swept i o else marks X i o.
Definition W (k : nat) (nf : Z) : ena_vm := set_num_free nf (set_pool (imap (stage k) (pool v)) v).

Lemma pool_W k nf i : pool (W k nf) !! i = stage k i <$> pool v !! i.
Proof. apply list_lookup_imap. Qed.
Lemma object_at_W k nf p i o : index_of v p = Some i -> pool v !! i = Some o -> object_at p (W k nf) = Done (stage k i o, W k nf).
Proof.
  intros Hp Hi. unfold object_at, bind, get, need. change (index_of (W k nf) p) with (index_of v p). rewrite Hp. unfold ret.
  by rewrite pool_W, Hi.
Qed.
Lemma stage_now k o : stage k k o = marks X k o.
Proof. unfold stage. by rewrite decide_False by lia. Qed.
Lemma stage_next k o : pool v !! k = Some o -> <[k := swept k o]> (imap (stage k) (pool v)) = imap (stage (S k)) (pool v).
Proof.
  intros Hk. apply list_eq. intros j. rewrite list_lookup_imap. destruct (decide (k = j)) as [<-|Hne].
  - rewrite list_lookup_insert_eq by (rewrite length_imap; by eapply lookup_lt_Some). rewrite Hk. simpl. unfold stage.
    by rewrite decide_True by lia.
  - rewrite list_lookup_insert_ne, list_lookup_imap by done. destruct (pool v !! j); [|done]. simpl. f_equal. unfold stage.
    by rewrite (decide_ext (j < S k)%nat (j < k)%nat) by lia.
Qed.
Lemma put_object_W k nf p o o' : index_of v p = Some k -> pool v !! k = Some o -> o' = swept k o ->
  put_object p o' (W k nf) = Done (tt, W (S k) nf).
Proof.
  intros Hp Hk ->. unfold put_object, bind, get, need. change (index_of (W k nf) p) with (index_of v p). rewrite Hp. unfold ret.
  rewrite decide_True by (simpl; rewrite length_imap; by eapply lookup_lt_Some). unfold put, W, set_pool, set_num_free. simpl.
  by rewrite (stage_next k o Hk).
Qed.
Lemma destroy_W k nf p o t : index_of v p = Some k -> pool v !! k = Some o -> flags o = type_code t -> data_ok v t (data o) -> k ∉ X ->
  destroy p (W k nf) = Done (tt, W k nf).
Proof.
  intros Hp Hk Ht Hd HkX. pose proof (object_at_W k nf p k o Hp Hk) as Ho. rewrite stage_now in Ho.
  destruct (marked_code X k o t Ht) as [_ Hc].
  assert (Hty : ena_get_type p (W k nf) = Done (t, W k nf)).
  { unfold ena_get_type. destruct (addr_consts p k Hp) as (-> & -> & -> & ->). simpl. unfold gets, bind at 1.
    change (ena_is_in_heap (W k nf) p) with (ena_is_in_heap v p). rewrite (index_in_heap _ _ _ Hp).
    rewrite (bind_intro _ _ _ _ _ _ Ho eq_refl), Hc. by rewrite type_of_type_code. }
  unfold destroy. rewrite (bind_intro _ _ _ _ _ _ Hty eq_refl).
  destruct t; try done; rewrite (bind_intro _ _ _ _ _ _ Ho eq_refl), data_marks; destruct (data o); try done;
    first [by unfold lift; rewrite Hfree | by unfold lift, ena_hash_free_table; destruct Hd as [[es ->] _]].
Qed.
Lemma sweep_object_W k nf o : pool v !! k = Some o -> (k < NOBJ)%nat -> nf = free_count (pool (W k nf)) ->
  exists nf', sweep_object k (W k nf) = Done (tt, W (S k) nf') /\ nf' = free_count (pool (W (S k) nf')).
Proof.
  intros Hk Hlt Hnf. assert (Hp : index_of v (addr_of v k) = Some k) by (by apply index_of_spec).
  unfold sweep_object, bind at 1. cbn [get]. change (addr_of (W k nf) k) with (addr_of v k).
  rewrite (bind_intro _ _ _ _ _ _ (object_at_W k nf _ k o Hp Hk) eq_refl), stage_now.
  assert (Hcount : free_count (pool (W (S k) nf)) + (if decide (flags (marks X k o) = 0) then 1 else 0) =
    free_count (pool (W k nf)) + (if decide (flags (swept k o) = 0) then 1 else 0)).
  { unfold W. simpl. rewrite <- (stage_next k o Hk). apply free_count_insert. rewrite list_lookup_imap, Hk. simpl. by rewrite stage_now. }
  destruct (ho_data _ _ Hv k o Hk) as [Hz|(t & Ht & Hd)].
  - assert (HkX : k ∉ X) by (intros Hin; by apply (HXuse k o Hin Hk)). exists nf.
    assert (Em : marks X k o = o) by (unfold marks; by rewrite decide_False).
    assert (Es : swept k o = o) by (unfold swept; rewrite decide_True; tauto). rewrite Em, Es in *. rewrite Hz in *. split; [|lia].
    simpl. unfold ret. do 2 f_equal. unfold W. f_equal. f_equal. rewrite <- (stage_next k o Hk), Es.
    rewrite list_insert_id; [done|]. by rewrite list_lookup_imap, Hk; simpl; rewrite stage_now, Em.
  - destruct (marked_code X k o t Ht) as [Hmk _].
    assert (Hnz : flags o <> 0) by (rewrite Ht; destruct t; done).
    assert (Hmz : flags (marks X k o) <> 0) .
    { unfold marks. destruct (decide (k ∈ X)); [|done]. unfold mark_flag. cbn [flags]. rewrite Ht. destruct t; discriminate. }
    rewrite (proj2 (Z.eqb_neq _ _)) by done. rewrite (decide_False (P := flags (marks X k o) = 0)) in Hcount by done.
    rewrite Hmk. destruct (decide (k ∈ X)) as [Hin|Hn].
    + rewrite bool_decide_true by done. assert (Es : swept k o = o) by (unfold swept; rewrite decide_True; tauto).
      exists nf. split; [|rewrite Es, decide_False in Hcount by done; lia]. apply (put_object_W k nf _ o _ Hp Hk).
      rewrite Es. unfold marks. rewrite decide_True by done. unfold mark_flag. destruct o as [f d]. cbn [flags data] in *. f_equal. rewrite Ht. by destruct t.
    + rewrite bool_decide_false by done.
      assert (Es : swept k o = Object 0 (data o)) by (unfold swept; rewrite decide_False; [done | tauto]).
      rewrite (bind_intro _ _ _ _ _ _ (destroy_W k nf _ o t Hp Hk Ht Hd Hn) eq_refl).
      rewrite data_marks. rewrite <- Es. rewrite (bind_intro _ _ _ _ _ _ (put_object_W k nf _ o _ Hp Hk eq_refl) eq_refl).
      exists (nf + 1). split; [done|]. rewrite Es in Hcount. cbn [flags] in Hcount. rewrite decide_True in Hcount by done.
      change (pool (W (S k) (nf + 1))) with (pool (W (S k) nf)). lia.
Qed.
Lemma sweep_W n : forall k nf, (k + n <= NOBJ)%nat -> nf = free_count (pool (W k nf)) ->
  exists nf', iter sweep_object (seq k n) (W k nf) = Done (tt, W (k + n) nf') /\ nf' = free_count (pool (W (k + n) nf')).
Proof.
  induction n as [|n IH]; intros k nf Hkn Hnf; [exists nf; rewrite Nat.add_0_r; done|].
  destruct (lookup_pool k) as [o Hk]; [lia|]. destruct (sweep_object_W k nf o Hk) as (nf1 & E1 & Hnf1); [lia | done|].
  destruct (IH (S k) nf1) as (nf2 & E2 & Hnf2); [lia | done|]. rewrite <- Nat.add_succ_comm. exists nf2. split; [|done].
  cbn [seq iter]. by rewrite (bind_intro _ _ _ _ _ _ E1 E2).
Qed.
Lemma sweep_all : num_free v = free_count (pool v) ->
  exists nf', sweep (V X) = Done (tt, set_num_free nf' (set_pool (imap swept (pool v)) v)) /\
    nf' = free_count (imap swept (pool v)).
Proof.
  intros Hnf. assert (E0 : V X = W 0 (num_free v)).
  { unfold W, with_marks, set_num_free, set_pool. destruct v. simpl. f_equal. }
  assert (Hc : free_count (pool (W 0 (num_free v))) = num_free v).
  { rewrite Hnf. apply free_count_imap. intros i o Hi. unfold stage, marks. rewrite decide_False by lia.
    case_decide as Hin; [|done]. pose proof (HXuse i o Hin Hi). split; [|done]. intros Hz%Z.lor_eq_0_iff. by destruct Hz. }
  destruct (sweep_W NOBJ 0 (num_free v)) as (nf & E & Hn); [lia | done|]. exists nf. rewrite E0. unfold sweep. rewrite <- NOBJ_eq, E.
  assert (EW : W (0 + NOBJ) nf = set_num_free nf (set_pool (imap swept (pool v)) v)).
  { unfold W. do 2 f_equal. apply imap_ext. intros i o Hi. unfold stage. rewrite decide_True; [done|].
    apply lookup_lt_Some in Hi. by rewrite (ho_length _ _ Hv) in Hi. }
  rewrite EW in *. done.
Qed.

End Sweep.

End Marking.

(** ** A collection *)

Lemma module_used v p ms i o : module_list v p ms -> i ∈ ms -> pool v !! i = Some o -> flags o <> 0.
Proof.
  induction 1 as [|p j o' nx sc ms Hp Hj Ht Hd _ IH]; [by intros ?%not_elem_of_nil|]. intros [->|Hin]%elem_of_cons Ho; [|by apply IH].
  rewrite Ho in Hj. injection Hj as ->. by rewrite Ht.
Qed.

Section Collection.
Context `{Host}.
Variable v : ena_vm.

(** The words seen in the registers and on the stack. *)
Definition words : list Z := arch_load_regs (collections v) ++ (if stack_end v =? 0 then [] else stack_words (collections v)).
Definition fixed_roots : list Z := [current_scope v; current_class v; int_class v; string_class v; list_class v; map_class v].
(** The roots: the modules [ms] of the list, the objects of the words, the current
    scope and class, and the classes of the builtin types. *)
Definition root (ms : list nat) (i : nat) : Prop := i ∈ ms \/ values_target v (words ++ fixed_roots) i.

Record roots_ok (ms : list nat) : Prop := RootsOk {
  ro_words : Forall (word_ok v) words;
  ro_modules : module_list v (modules v) ms;
  ro_scope : current_scope v = 0 \/ is_obj v (current_scope v) ENA_T_SCOPE;
  ro_class : current_class v = 0 \/ is_obj v (current_class v) ENA_T_CLASS;
  ro_builtin : Forall (fun p => is_obj v p ENA_T_CLASS) [int_class v; string_class v; list_class v; map_class v]
}.

Section Run.
Variables (rank : nat -> nat) (ms : list nat) (fuel : nat).
Hypotheses (Hv : heap_ok v rank) (Hr : roots_ok ms) (Hf : (enough <= fuel)%nat) (Hms : (length ms < fuel)%nat).
Abbreviation V X := (with_marks X v).
Abbreviation marks_from xs := (marked v (values_target v xs)).

Lemma mark_opt c p X : call_ok v (c p) -> arg (c p) = p -> in_range X ->
  exists Y, mark fuel (c p) (V X) = Done (tt, V Y) /\ marks_from [p] X Y.
Proof. intros Hc Ha HX. pose proof (call_marks v rank Hv fuel (c p) X Hf Hc HX) as Hm. by rewrite Ha in Hm. Qed.
Lemma mark_current c p X : (p = 0 \/ call_ok v (c p)) -> arg (c p) = p -> in_range X ->
  exists Y, (if p =? 0 then ret tt else mark fuel (c p)) (V X) = Done (tt, V Y) /\ marks_from [p] X Y.
Proof.
  intros Hc Ha HX. destruct (Z.eqb_spec p 0) as [->|Hne]; [exists X; split; [done | by apply (marks_none v rank)]|].
  destruct Hc as [?|Hc]; [done|]. by apply mark_opt.
Qed.
Lemma mark_words : exists X, (mark_regs fuel ;;; mark_stack fuel) v = Done (tt, V X) /\ marks_from words ∅ X.
Proof.
  pose proof (ro_words _ Hr) as Hw. unfold words in Hw. apply Forall_app in Hw as [Hw1 Hw2].
  destruct (iter_try_mark v rank Hv fuel _ Hf Hw1 ∅) as (X & E1 & M1); [done|]. rewrite with_marks_empty in E1.
  unfold words. erewrite (bind_intro (mark_regs fuel)); [|exact E1|reflexivity]. unfold mark_stack, bind, get.
  change (stack_end (V X)) with (stack_end v). change (collections (V X)) with (collections v).
  destruct (stack_end v =? 0); [exists X; rewrite app_nil_r; done|].
  destruct (iter_try_mark v rank Hv fuel _ Hf Hw2 X (m_range _ _ _ _ M1)) as (Y & E2 & M2). exists Y. split; [done|].
  by eapply marked_app.
Qed.
Lemma mark_all : exists X, (forall i, i ∈ X <-> reach v (root ms) i) /\
  forall k, (mark_regs fuel ;;; mark_stack fuel ;;; v <- get ;; mark_modules fuel fuel (modules v) ;;;
    (if current_scope v =? 0 then ret tt else mark fuel (C_scope (current_scope v))) ;;;
    (if current_class v =? 0 then ret tt else mark fuel (C_class (current_class v))) ;;;
    mark fuel (C_class (int_class v)) ;;; mark fuel (C_class (string_class v)) ;;; mark fuel (C_class (list_class v)) ;;;
    mark fuel (C_class (map_class v)) ;;; k) v = (k : M ena_vm unit) (V X).
Proof.
  destruct mark_words as (X1 & E1 & M1). destruct (bind_done _ _ _ _ _ E1) as (u0 & s0 & E0 & E1').
  destruct (mark_modules_ok v rank Hv fuel _ ms Hf (ro_modules _ Hr) fuel X1 Hms (m_range _ _ _ _ M1)) as (X2 & E2 & M2).
  destruct (mark_current C_scope _ X2 (ro_scope _ Hr) eq_refl (m_range _ _ _ _ M2)) as (X3 & E3 & M3).
  destruct (mark_current C_class _ X3 (ro_class _ Hr) eq_refl (m_range _ _ _ _ M3)) as (X4 & E4 & M4).
  pose proof (ro_builtin _ Hr) as Hb. rewrite !Forall_cons in Hb. destruct Hb as (B1 & B2 & B3 & B4 & _).
  destruct (mark_opt C_class _ X4 B1 eq_refl (m_range _ _ _ _ M4)) as (X5 & E5 & M5).
  destruct (mark_opt C_class _ X5 B2 eq_refl (m_range _ _ _ _ M5)) as (X6 & E6 & M6).
  destruct (mark_opt C_class _ X6 B3 eq_refl (m_range _ _ _ _ M6)) as (X7 & E7 & M7).
  destruct (mark_opt C_class _ X7 B4 eq_refl (m_range _ _ _ _ M7)) as (X8 & E8 & M8).
  pose proof (fun R1 R2 X Y Z => marked_or v rank Hv R1 R2 X Y Z) as HO.
  pose proof (fun xs ys X Y Z => marked_app v rank Hv xs ys X Y Z) as HA.
  pose proof (HO _ _ _ _ _ M1 (HO _ _ _ _ _ M2 (HA _ _ _ _ _ M3 (HA _ _ _ _ _ M4 (HA _ _ _ _ _ M5
    (HA _ _ _ _ _ M6 (HA _ _ _ _ _ M7 M8))))))) as MM.
  assert (HR : forall R, marked v R ∅ X8 -> (forall i, R i <-> root ms i) -> marked v (root ms) ∅ X8)
    by (intros R HM HE; by eapply marked_ext).
  apply HR in MM; [|intros i; unfold root; rewrite (values_target_app v words); unfold fixed_roots; cbn [app]; tauto].
  exists X8. split.
  - intros i. split; [intros Hi; destruct (m_only _ _ _ _ MM i Hi) as [?|?]; [set_solver | done]|].
    induction 1 as [i Hi|i j Hi IH Hj]; [by apply (m_all _ _ _ _ MM) | eapply (m_closed _ _ _ _ MM); [exact IH | set_solver | done]].
  - intros k. rewrite (bind_intro _ _ _ _ _ _ E0 eq_refl). rewrite (bind_intro _ _ _ _ _ _ E1' eq_refl). unfold bind at 1. cbn [get].
    rewrite (bind_intro _ _ _ _ _ _ E2 eq_refl), (bind_intro _ _ _ _ _ _ E3 eq_refl), (bind_intro _ _ _ _ _ _ E4 eq_refl),
      (bind_intro _ _ _ _ _ _ E5 eq_refl), (bind_intro _ _ _ _ _ _ E6 eq_refl), (bind_intro _ _ _ _ _ _ E7 eq_refl).
    by rewrite (bind_intro _ _ _ _ _ _ E8 eq_refl).
Qed.
Lemma reach_used i o : reach v (root ms) i -> pool v !! i = Some o -> flags o <> 0.
Proof.
  intros Hi Ho. assert (Hc : i ∈ ms \/ markable v i).
  { destruct Hi as [i [Hi|(x & _ & _ & Hm)]|i j _ (o' & p & _ & _ & _ & Hm)]; auto. }
  destruct Hc as [Hin|Hm]; [by eapply module_used; [apply (ro_modules _ Hr)|..] | exact (proj1 (markable_flags v i o Ho Hm))].
Qed.
End Run.

(** What a collection does, by the paths the collector follows. *)
Lemma gc_follows rank ms fuel :
  heap_ok v rank -> roots_ok ms -> num_free v = free_count (pool v) -> (forall d, userdata_free d = Done tt) ->
  (enough <= fuel)%nat -> (length ms < fuel)%nat ->
  exists v', ena_gc fuel v = Done (tt, v') /\ num_free v' = free_count (pool v') /\
    forall i o, pool v !! i = Some o ->
      (reach v (root ms) i -> pool v' !! i = Some o) /\ (~ reach v (root ms) i -> pool v' !! i = Some (Object 0 (data o)) \/ flags o = 0).
Proof.
  intros Hv Hr Hnf Hfree Hf Hms. destruct (mark_all rank ms fuel Hv Hr Hf Hms) as (X & HX & E).
  destruct (sweep_all v rank Hv X Hfree) as (nf & Es & Hn); [|done|].
  { intros i o Hi%HX Ho. by eapply reach_used. }
  eexists. split; [unfold ena_gc; rewrite E; by rewrite (bind_intro _ _ _ _ _ _ Es eq_refl)|]. split; [done|].
  intros i o Hi. simpl. rewrite list_lookup_imap, Hi. simpl. unfold swept. split.
  - intros Hre%HX. by rewrite decide_True by tauto.
  - intros Hre. destruct (decide (flags o = 0)) as [Hz|Hz]; [by right|]. left. rewrite decide_False; [done|].
    rewrite HX. tauto.
Qed.


(** Where a program can come to: from the list of modules, the words in the registers
    and on the stack, the current scope and class and the builtin classes. *)
Definition live : nat -> Prop := reachable v (modules v :: words ++ fixed_roots).
Definition modules_listed (ms : list nat) : Prop :=
  forall i o, live i -> pool v !! i = Some o -> flags o = type_code ENA_T_MODULE -> i ∈ ms.

Lemma refs_fields d x : x ∈ refs d -> x ∈ fields d.
Proof. destruct d; simpl; rewrite ?elem_of_app, ?elem_of_cons; set_solver. Qed.
Lemma markable_in_use i : markable v i -> in_use v i.
Proof. intros (o & Ho & Hf & _). by exists o. Qed.
Lemma in_use_markable i o : in_use v i -> pool v !! i = Some o -> flags o <> type_code ENA_T_MODULE -> markable v i.
Proof. intros (o' & Ho' & Hf) Ho Ht. rewrite Ho in Ho'. injection Ho' as <-. by exists o. Qed.
Lemma module_list_live p ms xs : module_list v p ms -> (forall i, index_of v p = Some i -> in_use v i -> reachable v xs i) ->
  forall i, i ∈ ms -> reachable v xs i.
Proof.
  induction 1 as [|p i o next scope ms Hp Hi Ht Hd _ IH]; intros Hs j; [by intros ?%not_elem_of_nil|].
  assert (Hr : reachable v xs i) by (apply Hs; [done | exists o; by rewrite Ht]).
  intros [->|Hj]%elem_of_cons; [done|]. apply IH; [|done]. intros k Hk Hu. eapply reachable_field; [exact Hr | exact Hi | | exact Hk | done].
  rewrite Hd. by left.
Qed.
Lemma reach_live ms i : module_list v (modules v) ms -> reach v (root ms) i -> live i.
Proof.
  intros Hms. induction 1 as [i [Hi|(x & Hx & Hi & Hm)]|i j _ IH (o & x & Ho & Hx & Hj & Hm)].
  - apply (module_list_live (modules v) ms); [done| |done]. intros j Hj Hu. eapply reachable_root; [by left | done | done].
  - eapply reachable_root; [by right | exact Hi | by apply markable_in_use].
  - eapply reachable_field; [exact IH | exact Ho | by apply refs_fields | exact Hj | by apply markable_in_use].
Qed.
(** A pointer that the collector does not look at, or that it does not follow, leads to a module. *)
Lemma field_followed rank i o x j : heap_ok v rank -> in_use v i -> pool v !! i = Some o -> x ∈ fields (data o) -> index_of v x = Some j ->
  in_use v j -> points_to v i j \/ exists o', pool v !! j = Some o' /\ flags o' = type_code ENA_T_MODULE.
Proof.
  intros Hv (oi & Hoi & Hfi) Ho Hx Hj Hu. rewrite Ho in Hoi. injection Hoi as <-. destruct Hu as (o' & Ho' & Hf').
  destruct (decide (flags o' = type_code ENA_T_MODULE)) as [Hm|Hm]; [right; by exists o'|].
  destruct (decide (x ∈ refs (data o))) as [Hr|Hr]; [left; exists o, x; split; [done|]; split; [done|]; split; [done|]; by exists o'|].
  right. exists o'. split; [done|]. destruct (ho_data _ _ Hv i o Ho) as [Hz|(t & _ & Hd)]; [done|].
  destruct (data o) eqn:Ed; simpl in Hx, Hr; try (exfalso; set_solver).
  match goal with H : x ∈ [?n; _] |- _ => rename n into next end. assert (x = next) as -> by set_solver. destruct t; simpl in Hd; try done. destruct Hd as [[->|(k & ok & Hk & Hok & Ht)] _].
  - by rewrite (index_of_0 v rank Hv) in Hj.
  - rewrite Hj in Hk. injection Hk as <-. rewrite Ho' in Hok. by injection Hok as ->.
Qed.
Lemma live_in_use i : live i -> in_use v i.
Proof. by destruct 1. Qed.
Lemma live_reach rank ms i : heap_ok v rank -> roots_ok ms -> modules_listed ms -> live i -> reach v (root ms) i.
Proof.
  intros Hv Hr Hl. induction 1 as [x i Hx Hi Hu|i o x j Hi IH Ho Hx Hj Hu].
  - apply reach_root. destruct Hu as (o & Ho & Hf). assert (Hli : live i) by (by eapply reachable_root; [..|exists o]).
    destruct (decide (flags o = type_code ENA_T_MODULE)) as [Hm|Hm]; [left; by eapply Hl|].
    apply elem_of_cons in Hx as [->|Hx]; [|right; exists x; split; [done|]; split; [done|]; by exists o].
    destruct (ro_modules _ Hr) as [|p k o' next scope ms' Hp Hk]; [by rewrite (index_of_0 v rank Hv) in Hi|].
    rewrite Hi in Hp. injection Hp as <-. left. by left.
  - destruct (field_followed rank i o x j Hv (live_in_use i Hi) Ho Hx Hj Hu) as [Hp|(o' & Ho' & Ht)]; [by eapply reach_step|].
    apply reach_root. left. eapply Hl; [by eapply reachable_field | exact Ho' | exact Ht].
Qed.
Lemma reach_module ms i o : pool v !! i = Some o -> flags o = type_code ENA_T_MODULE -> reach v (root ms) i -> i ∈ ms.
Proof.
  intros Hi Ht Hre. assert (Hc : i ∈ ms \/ markable v i).
  { destruct Hre as [i [?|(x & _ & _ & Hm)]|i j _ (o' & p & _ & _ & _ & Hm)]; auto. }
  destruct Hc as [?|Hm]; [done|]. by destruct (markable_flags v i o Hi Hm) as [_ ?].
Qed.

(** C7: what a collection frees.  The heap is well formed (every pointer leads to an
    object of the right type, scope chains end), [num_free] is right, the host's function
    that frees a userdata returns, and no word in the registers or on the stack is the
    address just behind the pool, on which the scan reads outside it.  Then [ena_gc]
    comes to an end, [num_free] is again the number of unused objects, and:
    an object in use that the program cannot reach is freed; if every module that can be
    reached is in the list of modules, each reachable object is as before, without its
    mark; a module that is not in the list is freed even if it can be reached.
    Reachability follows all the pointers in all the objects, modules included, from the
    list of modules, the words in the registers and on the stack, the current scope and
    class and the four builtin classes. *)
Theorem gc_exact rank ms fuel :
  heap_ok v rank -> roots_ok ms -> num_free v = free_count (pool v) -> (forall d, userdata_free d = Done tt) ->
  (enough <= fuel)%nat -> (length ms < fuel)%nat ->
  exists v', ena_gc fuel v = Done (tt, v') /\ num_free v' = free_count (pool v') /\
    forall i o, pool v !! i = Some o -> flags o <> 0 ->
      (~ live i -> pool v' !! i = Some (Object 0 (data o))) /\
      (modules_listed ms -> live i -> pool v' !! i = Some o) /\
      (flags o = type_code ENA_T_MODULE -> i ∉ ms -> pool v' !! i = Some (Object 0 (data o))).
Proof.
  intros Hv Hr Hnf Hfree Hf Hms. destruct (gc_follows rank ms fuel Hv Hr Hnf Hfree Hf Hms) as (v' & E & Hn & Hall).
  exists v'. split; [done|]. split; [done|]. intros i o Hi Hu. destruct (Hall i o Hi) as [Hk Hd].
  assert (Hd' : ~ reach v (root ms) i -> pool v' !! i = Some (Object 0 (data o))) by (intros Hn'; by destruct (Hd Hn')).
  split; [|split].
  - intros Hl. apply Hd'. intros Hre. apply Hl. eapply reach_live; [apply (ro_modules _ Hr) | exact Hre].
  - intros Hml Hl. apply Hk. by eapply live_reach.
  - intros Ht Hni. apply Hd'. intros Hre. apply Hni. by eapply reach_module.
Qed.

End Collection.

(** A word with the address behind the pool makes the collector read behind it. *)
Lemma pool_end_word `{Host} v rank fuel : heap_ok v rank ->
  try_mark (S fuel) (value_pool v + SIZEOF_OBJECT * ENA_MAX_NUM_VALUES) v = Undef.
Proof.
  intros Hv. destruct (ho_base _ _ Hv) as (Hb1 & _ & Hb2). set (w := value_pool v + SIZEOF_OBJECT * ENA_MAX_NUM_VALUES).
  assert (Hin : ena_is_in_heap v w = true).
  { unfold ena_is_in_heap, w, SIZEOF_OBJECT, ENA_MAX_NUM_VALUES. rewrite !(proj2 (Z.leb_le _ _)) by lia. done. }
  assert (Hidx : index_of v w = None).
  { destruct (index_of v w) as [i|] eqn:E; [|done]. apply index_of_spec in E as [Hi E]. pose proof NOBJ_val.
    unfold w, addr_of, SIZEOF_OBJECT, ENA_MAX_NUM_VALUES in E. lia. }
  assert (E : ena_is_in_heap v w && (u64 (w - value_pool v) mod SIZEOF_OBJECT =? 0) = true).
  { rewrite Hin. by replace (w - value_pool v) with (8192 * 40) by (unfold w, SIZEOF_OBJECT, ENA_MAX_NUM_VALUES; lia). }
  unfold try_mark, bind at 1. cbn [get]. rewrite E. change (mark (S fuel) (C_value w) v = Undef). cbn [mark].
  unfold gets, bind at 1. rewrite Hin. unfold object_at, get, need, bind. by rewrite Hidx.
Qed.

(** ** An example: a module with a variable, and an object that is garbage *)

Definition example_objects : list ena_object :=
  let class := Object (type_code ENA_T_CLASS) (D_class ena_hash_init_table) in
  [class; class; class; class;
   Object (type_code ENA_T_SCOPE)
     (D_scope (Table (<[4%nat := Entry 100 100 (4096 + 40 * 6) Null]> (replicate 32 Null)) 32 1) 0);
   Object (type_code ENA_T_MODULE) (D_module 0 (4096 + 40 * 4));
   Object (type_code ENA_T_INT) (D_int 314); Object (type_code ENA_T_INT) (D_int 159)].
Definition unused : ena_object := Object 0 D_none.
Definition example_heap : ena_vm :=
  Vm ENA_ERROR_NONE 101 ena_hash_init_table ena_hash_init_table (4096 + 40 * 5) [] 0 [] 0 0 0 4096
    (example_objects ++ replicate (Z.to_nat 8184) unused) 8184 4096 (4096 + 40) (4096 + 80) (4096 + 120) 0 [].
#[local] Instance example_host : Host :=
  {| arch_load_regs _ := [7; 4096]; stack_words _ := []; arch_get_stack_bottom := 0x7ff0; userdata_free _ := Done tt |}.

Lemma example_pool i o : pool example_heap !! i = Some o -> example_objects !! i = Some o \/ o = unused.
Proof. cbn [pool example_heap]. intros [H|[_ H]]%lookup_app_Some; [by left|]. right. by apply lookup_replicate in H as [-> _]. Qed.
Lemma example_is_obj i t : (exists o, example_objects !! i = Some o /\ flags o = type_code t) -> is_obj example_heap (4096 + 40 * Z.of_nat i) t.
Proof.
  intros (o & Hi & Ht). exists i, o. split; [|split; [|done]].
  - apply index_of_spec. split; [|done]. apply lookup_lt_Some in Hi. cbn in Hi. pose proof NOBJ_val. lia.
  - cbn [pool example_heap]. by apply lookup_app_l_Some.
Qed.
Lemma example_ok : heap_ok example_heap (fun _ => 0%nat).
Proof.
  split.
  - cbn [pool example_heap]. rewrite length_app, length_replicate. pose proof NOBJ_val. change (length example_objects) with 8%nat. lia.
  - done.
  - intros i o [Hi| ->]%example_pool; [|by left]. right.
    assert (Hc : table_ok ena_hash_init_table) by (eexists; reflexivity).
    destruct i as [|[|[|[|[|[|[|[|i]]]]]]]]; [..|done]; injection Hi as <-.
    1-4: exists ENA_T_CLASS; split; [done | split; [done | constructor]].
    + exists ENA_T_SCOPE. split; [done|]. split; [eexists; reflexivity|]. split; [|by left]. constructor; [|constructor].
      right. exists 6%nat. apply index_of_spec. pose proof NOBJ_val. split; [lia | done].
    + exists ENA_T_MODULE. split; [done|]. split; [by left|]. apply (example_is_obj 4). by eexists.
    + by exists ENA_T_INT.
    + by exists ENA_T_INT.
  - lia.
  - intros i o vars parent j [Hi| ->]%example_pool Ht Hd Hj; [|done]. exfalso.
    destruct i as [|[|[|[|[|[|[|[|i]]]]]]]]; try done; injection Hi as <-; try done. injection Hd as _ <-.
    apply index_of_spec in Hj as [_ Hj]. unfold addr_of, SIZEOF_OBJECT in Hj. cbn in Hj. lia.
Qed.
Lemma example_modules : modules_listed example_heap [5%nat].
Proof.
  intros i o _ [Hi| ->]%example_pool Ht; [|done].
  destruct i as [|[|[|[|[|[|[|[|i]]]]]]]]; try done; injection Hi as <-; try done. by left.
Qed.
Lemma example_index i : (i < NOBJ)%nat -> index_of example_heap (4096 + 40 * Z.of_nat i) = Some i.
Proof. intros Hi. by apply index_of_spec. Qed.
Lemma example_live : live example_heap 6.
Proof.
  assert (H5 : live example_heap 5).
  { eapply reachable_root; [by left | apply (example_index 5); pose proof NOBJ_val; lia | by eexists]. }
  assert (H4 : live example_heap 4).
  { eapply reachable_field; [exact H5 | reflexivity | right; by left | apply (example_index 4); pose proof NOBJ_val; lia | by eexists]. }
  eapply reachable_field; [exact H4 | reflexivity | right; by left | apply (example_index 6); pose proof NOBJ_val; lia | by eexists].
Qed.
Lemma example_garbage : ~ live example_heap 7.
Proof.
  assert (Hi : forall x, index_of example_heap x = Some 7%nat -> x = 4096 + 40 * 7) by (intros x Hx; by apply index_of_spec in Hx as [_ ->]).
  inversion 1 as [x i Hx Hx7 _|i o x j _ Ho Hx Hx7 _]; subst; apply Hi in Hx7 as ->.
  - unfold fixed_roots in Hx. cbn in Hx. rewrite !elem_of_cons in Hx. destruct_or? Hx; try done. by apply not_elem_of_nil in Hx.
  - apply example_pool in Ho as [Ho| ->]; [|by apply not_elem_of_nil in Hx].
    destruct i as [|[|[|[|[|[|[|[|i]]]]]]]]; try done; injection Ho as <-; cbn in Hx; rewrite ?elem_of_cons in Hx;
      destruct_or? Hx; try done; by apply not_elem_of_nil in Hx.
Qed.
Lemma gc_exact_witness :
  exists v', ena_gc enough example_heap = Done (tt, v') /\ num_free v' = free_count (pool v') /\
    pool v' !! 6%nat = Some (Object (type_code ENA_T_INT) (D_int 314)) /\ pool v' !! 7%nat = Some (Object 0 (D_int 159)).
Proof.
  destruct (gc_exact example_heap (fun _ => 0%nat) [5%nat] enough) as (v' & E & Hn & Hall).
  - apply example_ok.
  - split.
    + repeat constructor; discriminate.
    + eapply (module_cons _ _ 5 (Object (type_code ENA_T_MODULE) (D_module 0 (4096 + 40 * 4)))); [| | done | done | constructor].
      * apply index_of_spec. pose proof NOBJ_val. split; [lia | done].
      * done.
    + by left.
    + by left.
    + repeat constructor; [apply (example_is_obj 0) | apply (example_is_obj 1) | apply (example_is_obj 2) | apply (example_is_obj 3)]; by eexists.
  - vm_compute. reflexivity.
  - done.
  - lia.
  - unfold enough, K. pose proof NOBJ_val. simpl. nia.
  - exists v'. split; [exact E|]. split; [exact Hn|]. split.
    + apply (proj1 (proj2 (Hall 6%nat _ eq_refl ltac:(discriminate)))); [apply example_modules | apply example_live].
    + apply (proj1 (Hall 7%nat _ eq_refl ltac:(discriminate))), example_garbage.
Defined.
