(* ===== verification/EnaEval.v ===== *)
(** * ena: the evaluator

    [tiny-script-interpreter/src/eval.c] with the builtin types of [builtins.c],
    [list.c], [map.c] and [string.c] and the functions of [api.c] that set up an
    interpreter.  The code leaves a function in the middle in two ways, both with
    [longjmp]: an error goes to [ena_eval], and [return], [break] and [continue] go to
    the last point that was pushed to unwind to.  Here both are results ([flow]).

    The text of error messages and the trace of calls are not modelled; the type of
    the error is. *)
From S2P Require Import Prelude EnaLexer EnaParser EnaHash EnaHeap.
Import Lex Hash Heap.
Import String.StringSyntax.
#[local] Open Scope Z_scope.

Inductive ena_unwind_type := ENA_UNWIND_RETURN | ENA_UNWIND_BREAK | ENA_UNWIND_CONTINUE.

Inductive flow (A : Type) :=
| Ok (a : A)
| Unwind (t : ena_unwind_type)
| Error.
Arguments Ok {_} _.
Arguments Unwind {_} _.
Arguments Error {_}.

Definition ev (A : Type) : Type := M ena_vm (flow A).
Definition ev_bind {A B} (m : ev A) (k : A -> ev B) : ev B :=
  r <- m ;; match r with Ok a => k a | Unwind t => ret (Unwind t) | Error => ret Error end.
Notation "x <~ m ;; k" := (ev_bind m (fun x => k)) (at level 60, m at next level, right associativity).
Notation "m ~; k" := (ev_bind m (fun _ => k)) (at level 60, right associativity).

Module Eval.

Definition ok {A} (a : A) : ev A := ret (Ok a).
(** Code that always goes on. *)
Definition io {A} (m : M ena_vm A) : ev A := a <- m ;; ok a.
Definition ENA_PANIC {A} (e : ena_error_type) : ev A := modify (set_error_type e) ;;; ret Error.
Definition RUNTIME_ERROR {A} : ev A := ENA_PANIC ENA_ERROR_RUNTIME.
Definition TYPE_ERROR {A} : ev A := ENA_PANIC ENA_ERROR_TYPE.
Definition NOT_YET_IMPLEMENTED {A} : ev A := ENA_PANIC ENA_ERROR_NOT_YET_IMPLEMENTED.

Definition FUNC_FLAGS_METHOD : Z := 1.
Definition FUNC_FLAGS_NATIVE : Z := 2.

Section Eval.
Context `{Host}.
(** For the collector and the chains of scopes. *)
Variable gf : nat.

Definition ena_define_var (scope name value : Z) : ev unit :=
  s <~ io (scope_of scope) ;;
  r <~ io (lift (ena_hash_search_or_insert s.1 name value)) ;;
  match r with
  | (None, vars) => io (set_data scope (D_scope vars s.2))
  | (Some _, _) => io (ena_ident2cstr name) ~; RUNTIME_ERROR
  end.

(** The rule has a letter for each argument, but the loop goes on with the letter
    after the next one. *)
Fixpoint check_args (rule : list Z) (args : list Z) (arg_index : nat) : ev unit :=
  match rule with
  | [] => ok tt
  | r :: rest =>
      if decide (length args < arg_index + 1)%nat then RUNTIME_ERROR
      else
        arg <~ io (need (args !! arg_index)) ;;
        t <~ io (ena_get_type arg) ;;
        let mismatch :=
          if r =? char "s" then bool_decide (t <> ENA_T_STRING)
          else if r =? char "i" then bool_decide (t <> ENA_T_INT) else false in
        if (mismatch : bool) then RUNTIME_ERROR
        else match rest with [] => ok tt | _ :: rest => check_args rest args (S arg_index) end
  end.
Definition ena_check_args (rule : list Z) (args : list Z) : ev unit := check_args rule args 0.

(** ** Integers *)

Definition int_arith (op : int_op) (lhs rhs : Z) : outcome (Z + bool) :=
  match op with
  | I_add => r <-- as_int (lhs + rhs) ;; Done (inl r)
  | I_sub => r <-- as_int (lhs - rhs) ;; Done (inl r)
  | I_mul => r <-- as_int (lhs * rhs) ;; Done (inl r)
  | I_div => r <-- as_int (Z.quot lhs rhs) ;; Done (inl r)
  | I_mod => _ <-- as_int (Z.quot lhs rhs) ;; Done (inl (Z.rem lhs rhs))
  | I_lt => Done (inr (lhs <? rhs)) | I_lte => Done (inr (lhs <=? rhs))
  | I_gt => Done (inr (rhs <? lhs)) | I_gte => Done (inr (rhs <=? lhs))
  | I_eq => Done (inr (lhs =? rhs)) | I_neq => Done (inr (negb (lhs =? rhs)))
  end.
Definition divides (op : int_op) : bool := match op with I_div | I_mod => true | _ => false end.
(** [DEFINE_BINOP] and [DEFINE_BINOP_DIV]. *)
Definition int_binop (op : int_op) (self : Z) (args : list Z) : ev Z :=
  lhs <~ io (ena_to_int self) ;;
  arg <~ io (need (args !! 0%nat)) ;;
  rhs <~ io (ena_to_int arg) ;;
  if divides op && (rhs =? 0) then RUNTIME_ERROR
  else
    r <~ io (lift (int_arith op lhs rhs)) ;;
    match r with inl n => io (ena_create_int gf n) | inr b => ok (ena_create_bool b) end.

(** ** Lists *)

Definition list_elems (self : Z) : M ena_vm (list (option Z)) :=
  t <- ena_get_type self ;;
  if decide (t = ENA_T_LIST) then o <- object_at self ;; match data o with D_list elems => ret elems | _ => undef end else undef.
Definition list_append (self : Z) (args : list Z) : ev Z :=
  ena_check_args (chars "x") args ~;
  elems <~ io (list_elems self) ;;
  item <~ io (need (args !! 0%nat)) ;;
  io (set_data self (D_list (elems ++ [Some item]))) ~;
  ok ENA_UNDEFINED.
Definition list_prepend (self : Z) (args : list Z) : ev Z :=
  ena_check_args (chars "x") args ~;
  elems <~ io (list_elems self) ;;
  item <~ io (need (args !! 0%nat)) ;;
  io (set_data self (D_list (Some item :: elems))) ~;
  ok ENA_UNDEFINED.
Definition list_pop (self : Z) (args : list Z) : ev Z :=
  elems <~ io (list_elems self) ;;
  match rev elems with
  | [] => ok ENA_NULL
  | item :: rest => item <~ io (need item) ;; io (set_data self (D_list (rev rest))) ~; ok item
  end.
(** The index is converted to [size_t]. *)
Definition list_index (elems : list (option Z)) (index : Z) : option nat :=
  let index := u64 index in if Z.of_nat (length elems) <=? index then None else Some (Z.to_nat index).
Definition list_get (self : Z) (args : list Z) : ev Z :=
  ena_check_args (chars "i") args ~;
  elems <~ io (list_elems self) ;;
  arg <~ io (need (args !! 0%nat)) ;;
  index <~ io (ena_to_int arg) ;;
  match list_index elems index with
  | None => RUNTIME_ERROR
  | Some i => e <~ io (need (elems !! i)) ;; io (need e)
  end.
Definition list_set (self : Z) (args : list Z) : ev Z :=
  ena_check_args (chars "ix") args ~;
  elems <~ io (list_elems self) ;;
  arg <~ io (need (args !! 0%nat)) ;;
  index <~ io (ena_to_int arg) ;;
  value <~ io (need (args !! 1%nat)) ;;
  match list_index elems index with
  | None => RUNTIME_ERROR
  | Some i => io (set_data self (D_list (<[i := Some value]> elems))) ~; ok ENA_UNDEFINED
  end.

(** ** Maps *)

(** The methods of a table with values as keys look at the objects. *)
Definition value_hash (key : Z) : M ena_vm Z :=
  t <- ena_get_type key ;;
  match t with
  | ENA_T_INT => n <- ena_to_int key ;; ret (u64 n)
  | ENA_T_STRING => o <- object_at key ;; match data o with D_string _ _ size => ret size | _ => undef end
  | _ => ret 0
  end.
Definition value_hash_methods (v : ena_vm) : HashMethods Z :=
  {| equals k1 k2 := r <-- ena_is_equal k1 k2 v ;; Done r.1; hash k := r <-- value_hash k v ;; Done r.1 |}.
Definition map_entries (self : Z) : M ena_vm ident_table :=
  t <- ena_get_type self ;;
  if decide (t = ENA_T_MAP) then o <- object_at self ;; match data o with D_map entries => ret entries | _ => undef end else undef.
Definition map_insert (entries : ident_table) (key value : Z) : M ena_vm ident_table :=
  v <- get ;; lift (@ena_hash_insert _ _ (value_hash_methods v) entries key value).
Definition map_search (entries : ident_table) (key : Z) : M ena_vm (option entry_ptr) :=
  v <- get ;; lift (@ena_hash_search _ _ (value_hash_methods v) entries key).
Definition map_get (self : Z) (args : list Z) : ev Z :=
  ena_check_args (chars "x") args ~;
  entries <~ io (map_entries self) ;;
  key <~ io (need (args !! 0%nat)) ;;
  e <~ io (map_search entries key) ;;
  match e with Some e => io (lift (entry_value entries e)) | None => ok ENA_NULL end.
Definition map_set (self : Z) (args : list Z) : ev Z :=
  ena_check_args (chars "xx") args ~;
  entries <~ io (map_entries self) ;;
  key <~ io (need (args !! 0%nat)) ;;
  value <~ io (need (args !! 1%nat)) ;;
  e <~ io (map_search entries key) ;;
  entries <~ io (match e with Some e => lift (set_entry_value entries e value) | None => map_insert entries key value end) ;;
  io (set_data self (D_map entries)) ~;
  ok ENA_NULL.

(** ** Strings *)

(** The bytes of a string are followed by a zero; what is behind it is not ours. *)
Definition mem_bytes (s : list Z) (off len : Z) : outcome (list Z) :=
  let b := s ++ [0] in
  if (0 <=? off) && (0 <=? len) && (off + len <=? Z.of_nat (length b)) then Done (take (Z.to_nat len) (drop (Z.to_nat off) b)) else Undef.
(** The bytes before the first zero. *)
Fixpoint cstr (b : list Z) : list Z := match b with [] => [] | c :: b => if c =? 0 then [] else c :: cstr b end.

Fixpoint find_byte (c : Z) (b : list Z) (n : Z) (i : Z) : outcome (option Z) :=
  if n <=? 0 then Done None
  else match b with [] => Undef | x :: b => if x =? c then Done (Some i) else find_byte c b (n - 1) (i + 1) end.
(** [memchr] of the [n] bytes at [pos]: the place in the string. *)
Definition ena_memchr (s : list Z) (pos c n : Z) : outcome (option Z) :=
  if Z.of_nat (length s) + 1 <? pos then (if n <=? 0 then Done None else Undef)
  else find_byte c (drop (Z.to_nat pos) (s ++ [0])) n pos.
Fixpoint same_bytes (a b : list Z) (n : Z) : outcome bool :=
  if n <=? 0 then Done true
  else match a, b with x :: a, y :: b => if negb (y - x =? 0) then Done false else same_bytes a b (n - 1) | _, _ => Undef end.

Fixpoint search_loop (fuel : nat) (haystack : list Z) (pos haystack_size : Z) (needle : list Z) (needle_size : Z) :
    outcome (option Z) :=
  match fuel with
  | O => Fuel
  | S fuel =>
      begin <-- ena_memchr haystack pos (hd 0 needle) (u64 (haystack_size - pos)) ;;
      match begin with
      | None => Done None
      | Some offset =>
          if u64 (haystack_size - offset) <? needle_size then Done None
          else
            b <-- same_bytes (drop (Z.to_nat offset) (haystack ++ [0])) (needle ++ [0]) needle_size ;;
            if (b : bool) then Done (Some offset)
            else search_loop fuel haystack (u64 (pos + offset)) haystack_size needle needle_size
      end
  end.
Definition search (fuel : nat) (haystack : list Z) (start haystack_size : Z) (needle : list Z) (needle_size : Z) : outcome (option Z) :=
  if needle_size =? 0 then Done None else search_loop fuel haystack start haystack_size needle needle_size.

(** [r] is what is left of the string from [str_i] on, and [n] is [size - str_i].  For a
    character that is not known after a backslash, [str_i] stays as it is. *)
Fixpoint handle_escape_sequence (fuel : nat) (r : list Z) (n : Z) (str2 : list Z) : outcome (list Z) :=
  match fuel with
  | O => Fuel
  | S fuel =>
      if n <=? 0 then Done str2
      else
        match r with
        | [] => Undef
        | c :: r' =>
            if c =? 92 then
              match r' with
              | [] => Undef
              | d :: r'' =>
                  if d =? char "t" then handle_escape_sequence fuel r'' (n - 2) (str2 ++ [TAB])
                  else if d =? char "n" then handle_escape_sequence fuel r'' (n - 2) (str2 ++ [NEWLINE])
                  else if d =? QUOTE then handle_escape_sequence fuel r'' (n - 2) (str2 ++ [QUOTE])
                  else handle_escape_sequence fuel r n str2
              end
            else handle_escape_sequence fuel r' (n - 1) (str2 ++ [c])
        end
  end.

(** [str] has the bytes from the pointer on. *)
Definition ena_create_string (str : list Z) (size : Z) : M ena_vm Z :=
  obj <- ena_alloc_object gf ENA_T_STRING ;;
  buf <- lift (handle_escape_sequence gf (str ++ [0]) size []) ;;
  ident <- ena_cstr2ident (cstr buf) ;;
  str <- ena_ident2cstr ident ;;
  set_data obj (D_string str ident size) ;;;
  ret obj.
Definition concat (str1 : list Z) (str1_size : Z) (str2 : list Z) (str2_off str2_size : Z) : M ena_vm Z :=
  b1 <- lift (mem_bytes str1 0 str1_size) ;;
  b2 <- lift (mem_bytes str2 str2_off str2_size) ;;
  ena_create_string (b1 ++ b2) (u64 (str1_size + str2_size)).

Definition string_of (value : Z) : M ena_vm (list Z * Z) :=
  o <- object_at value ;; match data o with D_string str _ size => ret (str, size) | _ => undef end.
Definition string_concat (self : Z) (args : list Z) : ev Z :=
  ena_check_args (chars "s") args ~;
  arg <~ io (need (args !! 0%nat)) ;;
  s <~ io (string_of self) ;;
  t <~ io (string_of arg) ;;
  io (concat s.1 s.2 t.1 0 t.2).
Definition string_contains (self : Z) (args : list Z) : ev Z :=
  ena_check_args (chars "s") args ~;
  arg <~ io (need (args !! 0%nat)) ;;
  s <~ io (string_of self) ;;
  t <~ io (string_of arg) ;;
  pos <~ io (lift (search gf s.1 0 s.2 t.1 t.2)) ;;
  ok (match pos with None => ENA_FALSE | Some _ => ENA_TRUE end).
Definition string_find (self : Z) (args : list Z) : ev Z :=
  ena_check_args (chars "s") args ~;
  arg <~ io (need (args !! 0%nat)) ;;
  s <~ io (string_of self) ;;
  t <~ io (string_of arg) ;;
  pos <~ io (lift (search gf s.1 0 s.2 t.1 t.2)) ;;
  io (ena_create_int gf (match pos with None => - 1 | Some pos => s32 pos end)).
(** The string up to the last occurrence, and the index behind it. *)
Fixpoint replace_loop (n : nat) (self old new new_self index : Z) : M ena_vm (Z * Z) :=
  match n with
  | O => no_fuel
  | S n =>
      s <- string_of self ;;
      if s.2 <=? index then ret (new_self, index)
      else
        o <- string_of old ;;
        pos <- lift (search gf s.1 index s.2 o.1 o.2) ;;
        match pos with
        | None => ret (new_self, index)
        | Some m =>
            a <- string_of new_self ;;
            new_self <- concat a.1 a.2 s.1 index (u64 (m - index)) ;;
            a <- string_of new_self ;;
            w <- string_of new ;;
            new_self <- concat a.1 a.2 w.1 0 w.2 ;;
            o <- string_of old ;;
            replace_loop n self old new new_self (u64 (m + o.2))
        end
  end.
Definition string_replace (self : Z) (args : list Z) : ev Z :=
  ena_check_args (chars "ss") args ~;
  old <~ io (need (args !! 0%nat)) ;;
  new <~ io (need (args !! 1%nat)) ;;
  new_self <~ io (ena_create_string [] 0) ;;
  r <~ io (replace_loop gf self old new new_self 0) ;;
  s <~ io (string_of self) ;;
  a <~ io (string_of r.1) ;;
  io (concat a.1 a.2 s.1 r.2 (u64 (s.2 - r.2))).

(** ** Native functions *)

Definition print_value (value : Z) : M ena_vm unit :=
  t <- ena_get_type value ;;
  item <- match t with
          | ENA_T_INT => n <- ena_to_int value ;; ret (P_int n)
          | ENA_T_STRING => s <- string_of value ;; ret (P_string s.1)
          | ENA_T_BOOL => ret (P_bool (value =? ENA_TRUE))
          | ENA_T_NULL => ret P_null
          | _ => ret P_unprintable
          end ;;
  modify (fun v => set_output (output v ++ [item]) v).
Definition print_func_handler (args : list Z) : ev Z :=
  io (iter print_value args) ~; io (modify (fun v => set_output (output v ++ [P_newline]) v)) ~; ok ENA_NULL.

(** A failure is reported and counted. *)
Definition assert_eq_handler (args : list Z) : ev Z :=
  ena_check_args (chars "xx") args ~;
  x <~ io (need (args !! 0%nat)) ;;
  y <~ io (need (args !! 1%nat)) ;;
  b <~ io (ena_is_equal x y) ;;
  (if (b : bool) then ok tt else io (modify (fun v => set_output (output v ++ [P_assert_failed]) v))) ~;
  ok ENA_NULL.

Definition call_native (f : native) (self : Z) (args : list Z) : ev Z :=
  match f with
  | N_print => print_func_handler args
  | N_int op => int_binop op self args
  | N_string_concat => string_concat self args | N_string_contains => string_contains self args
  | N_string_replace => string_replace self args | N_string_find => string_find self args
  | N_list_append => list_append self args | N_list_prepend => list_prepend self args | N_list_pop => list_pop self args
  | N_list_get => list_get self args | N_list_set => list_set self args
  | N_map_get => map_get self args | N_map_set => map_set self args
  | N_assert_eq => assert_eq_handler args
  end.

(** ** Nodes *)

Definition n_type (node : ena_node) : ena_node_type := match node with Node t _ _ _ _ _ => t end.
Definition token_str (node : ena_node) : M ena_vm (list Z) :=
  match node with Node _ (Some token) _ _ _ _ => ret (str token) | _ => undef end.
Definition child (node : ena_node) (i : nat) : M ena_vm ena_node := match node with Node _ _ c _ _ _ => need (c !! i) end.
Definition childs (node : ena_node) : list ena_node := match node with Node _ _ c _ _ _ => c end.
Definition num_childs (node : ena_node) : Z := match node with Node _ _ _ n _ _ => n end.

Definition get_builtin_class_by_type (type : ena_value_type) : ev Z :=
  v <~ io get ;;
  match type with
  | ENA_T_INT => ok (int_class v) | ENA_T_STRING => ok (string_class v) | ENA_T_LIST => ok (list_class v) | ENA_T_MAP => ok (map_class v)
  | _ => NOT_YET_IMPLEMENTED
  end.
Definition copy_if_immutable (value : Z) : ev Z :=
  t <~ io (ena_get_type value) ;;
  match t with ENA_T_INT => n <~ io (ena_to_int value) ;; io (ena_create_int gf n) | _ => ok value end.

Definition PUSH_UNWIND_POINT : M ena_vm unit := modify (fun v => set_unwind_points (0 :: unwind_points v) v).
Definition POP_UNWIND_POINT : ev unit :=
  v <~ io get ;;
  match unwind_points v with [] => ENA_PANIC ENA_ERROR_BUG | _ :: r => io (put (set_unwind_points r v)) end.
(** [UNWIND_UNWIND_POINT]: a jump to the point that is the last one when it is made; there
    is one, of [ena_eval]. *)
Definition UNWIND_UNWIND_POINT {A} (t : ena_unwind_type) : ev A := ret (Unwind t).
(** Code after a [setjmp] for the [own]th point.  A jump arrives here if this point is the
    last one, and passes by on its way to the function of another point otherwise; where it
    arrives, the handler runs, and a jump that it makes can arrive here again. *)
Fixpoint landing {A} (n own : nat) (handler : ena_unwind_type -> ev A) (m : ev A) : ev A :=
  r <- m ;;
  match r with
  | Unwind t =>
      v <- get ;;
      if (length (unwind_points v) =? own)%nat then match n with O => no_fuel | S n => landing n own handler (handler t) end
      else ret (Unwind t)
  | r => ret r
  end.
Definition EXEC_UNWIND_POINT {A} (n : nat) (m : ev A) (handler : ena_unwind_type -> ev A) : ev A :=
  v <~ io get ;; landing n (length (unwind_points v)) handler m.
Definition PUSH_FRAME (func : Z) : M ena_vm unit := modify (fun v => set_current_frame (func :: current_frame v) v).
Definition POP_FRAME : M ena_vm unit := modify (fun v => set_current_frame (tail (current_frame v)) v).

Definition lookup_method (cls name : Z) : M ena_vm (option Z) :=
  o <- object_at cls ;;
  match data o with
  | D_class methods =>
      e <- lift (ena_hash_search methods name) ;;
      match e with Some e => v <- lift (entry_value methods e) ;; ret (Some v) | None => ret None end
  | _ => undef
  end.

Section Nodes.
Variable eval_node : ena_node -> ev Z.

Fixpoint eval_each (nodes : list ena_node) : ev (list Z) :=
  match nodes with
  | [] => ok []
  | node :: nodes => v <~ eval_node node ;; vs <~ eval_each nodes ;; ok (v :: vs)
  end.
Fixpoint define_params (new_scope : Z) (params : list ena_node) (args : list Z) : ev unit :=
  match params, args with
  | p :: params, a :: args =>
      s <~ io (token_str p) ;;
      param_name <~ io (ena_cstr2ident s) ;;
      ena_define_var new_scope param_name a ~;
      define_params new_scope params args
  | _, _ => ok tt
  end.
Definition run_body (func new_scope self : Z) (args : list Z) : ev Z :=
  o <~ io (object_at func) ;;
  match data o with
  | D_func fflags _ _ (Native_body f) => call_native f (if Z.land fflags FUNC_FLAGS_METHOD =? 0 then ENA_UNDEFINED else self) args
  | D_func _ _ _ (Script_body stmts param_names) =>
      if negb (Z.of_nat (length args) =? num_childs param_names) then RUNTIME_ERROR
      else
        define_params new_scope (childs param_names) args ~;
        io (modify (set_current_scope new_scope)) ~;
        io (modify (set_self self)) ~;
        eval_node stmts ~;
        ok ENA_UNDEFINED
  | _ => io undef
  end.
Definition call_func (self func : Z) (args : list Z) : ev Z :=
  v <~ io get ;;
  let caller_scope := current_scope v in
  o <~ io (object_at func) ;;
  match data o with
  | D_func _ _ scope _ =>
      new_scope <~ io (ena_create_scope gf scope) ;;
      io PUSH_UNWIND_POINT ~;
      io (PUSH_FRAME func) ~;
      ret_value <~ EXEC_UNWIND_POINT 1 (run_body func new_scope self args) (fun unwind_type =>
                     match unwind_type with
                     | ENA_UNWIND_RETURN => v <- get ;; p <- need (head (unwind_points v)) ;; ok p
                     | _ => ok ENA_UNDEFINED
                     end) ;;
      io (modify (set_current_scope caller_scope)) ~;
      io (modify (set_self ENA_UNDEFINED)) ~;
      io POP_FRAME ~;
      POP_UNWIND_POINT ~;
      ok ret_value
  | _ => io undef
  end.

Definition invoke_method (method_name self : Z) (args : list Z) : ev Z :=
  lhs_type <~ io (ena_get_type self) ;;
  cls <~ match lhs_type with
         | ENA_T_INSTANCE => o <~ io (object_at self) ;; match data o with D_instance cls _ => ok cls | _ => io undef end
         | ENA_T_STRING | ENA_T_LIST | ENA_T_MAP => get_builtin_class_by_type lhs_type
         | _ => RUNTIME_ERROR
         end ;;
  method <~ io (lookup_method cls method_name) ;;
  match method with
  | None => io (ena_ident2cstr method_name) ~; RUNTIME_ERROR
  | Some method => call_func self method args
  end.
Definition instantiate (node : ena_node) (cls : Z) : ev Z :=
  scope <~ io (ena_create_scope gf 0) ;;
  instance <~ io (ena_alloc_object gf ENA_T_INSTANCE) ;;
  io (set_data instance (D_instance cls scope)) ~;
  new <~ io (ena_cstr2ident (chars "new")) ;;
  new_method <~ io (lookup_method cls new) ;;
  match new_method with
  | None => ok instance
  | Some new_method =>
      expr_list <~ io (child node 1) ;;
      args <~ eval_each (childs expr_list) ;;
      call_func instance new_method args ~;
      ok instance
  end.

(** [EVAL_BINOP_NODE]. *)
Definition eval_binop (method_name : list Z) (node : ena_node) : ev Z :=
  c0 <~ io (child node 0) ;;
  lhs <~ eval_node c0 ;;
  c1 <~ io (child node 1) ;;
  rhs <~ eval_node c1 ;;
  lhs_type <~ io (ena_get_type lhs) ;;
  rhs_type <~ io (ena_get_type rhs) ;;
  if decide (lhs_type <> rhs_type) then TYPE_ERROR
  else
    cls <~ get_builtin_class_by_type lhs_type ;;
    name <~ io (ena_cstr2ident method_name) ;;
    method <~ io (lookup_method cls name) ;;
    match method with None => RUNTIME_ERROR | Some method => call_func lhs method [rhs] end.

Definition eval_STMTS (node : ena_node) : ev Z := eval_each (childs node) ~; ok ENA_UNDEFINED.
Definition eval_VAR (node : ena_node) : ev Z :=
  s <~ io (token_str node) ;;
  name <~ io (ena_cstr2ident s) ;;
  initial <~ (if num_childs node =? 1 then c <~ io (child node 0) ;; eval_node c else ok ENA_UNDEFINED) ;;
  v <~ io get ;;
  ena_define_var (current_scope v) name initial ~;
  ok ENA_UNDEFINED.
Definition eval_OP_ASSIGN (node : ena_node) : ev Z :=
  c1 <~ io (child node 1) ;;
  rvalue <~ eval_node c1 ;;
  lvalue <~ io (child node 0) ;;
  match n_type lvalue with
  | N_PROP =>
      s <~ io (token_str lvalue) ;;
      name <~ io (ena_cstr2ident s) ;;
      obj <~ io (child lvalue 0) ;;
      obj_str <~ io (token_str obj) ;;
      if ena_strcmp obj_str (chars "self") =? 0 then
        v <~ io get ;;
        if self v =? ENA_UNDEFINED then RUNTIME_ERROR
        else
          t <~ io (ena_get_type (self v)) ;;
          if decide (t <> ENA_T_INSTANCE) then RUNTIME_ERROR
          else
            o <~ io (object_at (self v)) ;;
            match data o with
            | D_instance _ props =>
                b <~ io (ena_set_var_value gf props name rvalue) ;;
                (if (b : bool) then ok tt else ena_define_var props name rvalue) ~;
                ok rvalue
            | _ => io undef
            end
      else NOT_YET_IMPLEMENTED
  | N_INDEX =>
      c <~ io (child lvalue 0) ;;
      self <~ eval_node c ;;
      c <~ io (child lvalue 1) ;;
      index <~ eval_node c ;;
      method_name <~ io (ena_cstr2ident (chars "[]=")) ;;
      invoke_method method_name self [index; rvalue] ~;
      ok rvalue
  | N_ID =>
      s <~ io (token_str lvalue) ;;
      name <~ io (ena_cstr2ident s) ;;
      v <~ io get ;;
      b <~ io (ena_set_var_value gf (current_scope v) name rvalue) ;;
      if (b : bool) then ok rvalue else io (ena_ident2cstr name) ~; RUNTIME_ERROR
  | _ => RUNTIME_ERROR
  end.

Definition eval_FUNC (node : ena_node) : ev Z :=
  s <~ io (token_str node) ;;
  name <~ io (ena_cstr2ident s) ;;
  param_names <~ io (child node 0) ;;
  stmts <~ io (child node 1) ;;
  func <~ io (ena_alloc_object gf ENA_T_FUNC) ;;
  v <~ io get ;;
  if current_class v =? 0 then
    io (set_data func (D_func 0 name (current_scope v) (Script_body stmts param_names))) ~;
    sc <~ io (scope_of (current_scope v)) ;;
    r <~ io (lift (ena_hash_search_or_insert sc.1 name func)) ;;
    match r with
    | (None, vars) => io (set_data (current_scope v) (D_scope vars sc.2)) ~; ok ENA_UNDEFINED
    | (Some _, _) => io (ena_ident2cstr name) ~; RUNTIME_ERROR
    end
  else
    io (set_data func (D_func FUNC_FLAGS_METHOD name (current_scope v) (Script_body stmts param_names))) ~;
    o <~ io (object_at (current_class v)) ;;
    match data o with
    | D_class methods =>
        r <~ io (lift (ena_hash_search_or_insert methods name func)) ;;
        match r with
        | (None, methods) => io (set_data (current_class v) (D_class methods)) ~; ok ENA_UNDEFINED
        | (Some _, _) => io (ena_ident2cstr name) ~; RUNTIME_ERROR
        end
    | _ => io undef
    end.

Definition eval_CALL (node : ena_node) : ev Z :=
  callee <~ io (child node 0) ;;
  match n_type callee with
  | N_ID =>
      s <~ io (token_str callee) ;;
      func_name <~ io (ena_cstr2ident s) ;;
      v <~ io get ;;
      func <~ io (ena_get_var_value gf (current_scope v) func_name) ;;
      t <~ io (ena_get_type func) ;;
      match t with
      | ENA_T_FUNC => expr_list <~ io (child node 1) ;; args <~ eval_each (childs expr_list) ;; call_func ENA_UNDEFINED func args
      | ENA_T_CLASS => instantiate node func
      | _ => io (ena_ident2cstr func_name) ~; RUNTIME_ERROR
      end
  | _ =>
      s <~ io (token_str callee) ;;
      method_name <~ io (ena_cstr2ident s) ;;
      c <~ io (child callee 0) ;;
      self <~ eval_node c ;;
      expr_list <~ io (child node 1) ;;
      args <~ eval_each (childs expr_list) ;;
      invoke_method method_name self args
  end.

Definition eval_RETURN (node : ena_node) : ev Z :=
  ret_value <~ (match childs node with [] => ok ENA_NULL | c :: _ => eval_node c end) ;;
  v <~ io get ;;
  if current_scope v =? 0 then RUNTIME_ERROR
  else
    sc <~ io (scope_of (current_scope v)) ;;
    match unwind_points v with
    | [] => io undef
    | _ :: points => io (put (set_unwind_points (ret_value :: points) (set_current_scope sc.2 v))) ~; UNWIND_UNWIND_POINT ENA_UNWIND_RETURN
    end.

Definition eval_CLASS (node : ena_node) : ev Z :=
  s <~ io (token_str node) ;;
  name <~ io (ena_cstr2ident s) ;;
  stmts <~ io (child node 0) ;;
  cls <~ io (ena_create_class gf) ;;
  io (modify (set_current_class cls)) ~;
  eval_node stmts ~;
  io (modify (set_current_class 0)) ~;
  v <~ io get ;;
  ena_define_var (current_scope v) name cls ~;
  ok ENA_UNDEFINED.

Definition eval_ID (node : ena_node) : ev Z :=
  s <~ io (token_str node) ;;
  name <~ io (ena_cstr2ident s) ;;
  v <~ io get ;;
  value <~ io (ena_get_var_value gf (current_scope v) name) ;;
  if value =? ENA_UNDEFINED then
    self_name <~ io (ena_cstr2ident (chars "self")) ;;
    if name =? self_name then v <~ io get ;; ok (self v)
    else io (ena_ident2cstr name) ~; RUNTIME_ERROR
  else copy_if_immutable value.

Definition eval_PROP (node : ena_node) : ev Z :=
  s <~ io (token_str node) ;;
  prop_name <~ io (ena_cstr2ident s) ;;
  c <~ io (child node 0) ;;
  self_value <~ eval_node c ;;
  t <~ io (ena_get_type self_value) ;;
  if decide (t <> ENA_T_INSTANCE) then RUNTIME_ERROR
  else
    o <~ io (object_at self_value) ;;
    match data o with
    | D_instance _ props =>
        value <~ io (ena_get_var_value gf props prop_name) ;;
        if value =? ENA_UNDEFINED then io (ena_ident2cstr prop_name) ~; RUNTIME_ERROR else ok value
    | _ => io undef
    end.

Definition eval_INDEX (node : ena_node) : ev Z :=
  c0 <~ io (child node 0) ;;
  self <~ eval_node c0 ;;
  c1 <~ io (child node 1) ;;
  index <~ eval_node c1 ;;
  method_name <~ io (ena_cstr2ident (chars "[]")) ;;
  invoke_method method_name self [index].

Definition eval_IF (node : ena_node) : ev Z :=
  c <~ io (child node 0) ;;
  condition <~ eval_node c ;;
  (if condition =? ENA_TRUE then then_part <~ io (child node 1) ;; eval_node then_part
   else if num_childs node =? 3 then else_part <~ io (child node 2) ;; eval_node else_part
   else ok ENA_UNDEFINED) ~;
  ok ENA_UNDEFINED.

Fixpoint while_loop (n : nat) (condition_part stmts : ena_node) : ev unit :=
  match n with
  | O => no_fuel
  | S n => c <~ eval_node condition_part ;; if c =? ENA_TRUE then eval_node stmts ~; while_loop n condition_part stmts else ok tt
  end.
Definition eval_WHILE (n : nat) (node : ena_node) : ev Z :=
  condition_part <~ io (child node 0) ;;
  stmts <~ io (child node 1) ;;
  io PUSH_UNWIND_POINT ~;
  EXEC_UNWIND_POINT n (while_loop n condition_part stmts) (fun unwind_type =>
    match unwind_type with
    | ENA_UNWIND_BREAK => ok tt
    | ENA_UNWIND_CONTINUE => while_loop n condition_part stmts
    | ENA_UNWIND_RETURN => UNWIND_UNWIND_POINT unwind_type
    end) ~;
  POP_UNWIND_POINT ~;
  ok ENA_UNDEFINED.

(** The token has the quotes. *)
Definition eval_STRING_LIT (node : ena_node) : ev Z :=
  s <~ io (token_str node) ;; io (ena_create_string (tail s) (u64 (Z.of_nat (length s) - 2))).

Fixpoint fill_list (lst : Z) (nodes : list ena_node) (i : nat) : ev unit :=
  match nodes with
  | [] => ok tt
  | node :: nodes =>
      v <~ eval_node node ;;
      o <~ io (object_at lst) ;;
      match data o with
      | D_list elems => io (set_data lst (D_list (<[i := Some v]> elems))) ~; fill_list lst nodes (S i)
      | _ => io undef
      end
  end.
Definition eval_LIST_LIT (node : ena_node) : ev Z :=
  expr_list <~ io (child node 0) ;;
  lst <~ io (ena_alloc_object gf ENA_T_LIST) ;;
  io (set_data lst (D_list (replicate (length (childs expr_list)) None))) ~;
  fill_list lst (childs expr_list) 0 ~;
  ok lst.
Fixpoint fill_map (mp : Z) (entries : list ena_node) : ev unit :=
  match entries with
  | [] => ok tt
  | entry :: entries =>
      c0 <~ io (child entry 0) ;;
      key <~ eval_node c0 ;;
      c1 <~ io (child entry 1) ;;
      value <~ eval_node c1 ;;
      o <~ io (object_at mp) ;;
      match data o with
      | D_map t => t <~ io (map_insert t key value) ;; io (set_data mp (D_map t)) ~; fill_map mp entries
      | _ => io undef
      end
  end.
Definition eval_MAP_LIT (node : ena_node) : ev Z :=
  mp <~ io (ena_alloc_object gf ENA_T_MAP) ;;
  io (set_data mp (D_map ena_hash_init_table)) ~;
  fill_map mp (childs node) ~;
  ok mp.

Definition eval_OP_NOT (node : ena_node) : ev Z :=
  c <~ io (child node 0) ;; v <~ eval_node c ;; ok (if v =? ENA_TRUE then ENA_FALSE else ENA_TRUE).
(** Both operands are always evaluated. *)
Definition eval_logical (op : bool -> bool -> bool) (node : ena_node) : ev Z :=
  c0 <~ io (child node 0) ;;
  lhs <~ eval_node c0 ;;
  c1 <~ io (child node 1) ;;
  rhs <~ eval_node c1 ;;
  ok (ena_create_bool (op (lhs =? ENA_TRUE) (rhs =? ENA_TRUE))).

End Nodes.

Definition literal (node : ena_node) : Z := match node with Node _ _ _ _ n _ => n end.
Fixpoint eval_node (fuel : nat) (node : ena_node) : ev Z :=
  match fuel with
  | O => no_fuel
  | S fuel =>
      let eval := eval_node fuel in
      match n_type node with
      | N_PROGRAM => c <~ io (child node 0) ;; eval c
      | N_STMTS => eval_STMTS eval node
      | N_OP_ADD => eval_binop eval (chars "+") node | N_OP_SUB => eval_binop eval (chars "-") node
      | N_OP_DIV => eval_binop eval (chars "/") node | N_OP_MUL => eval_binop eval (chars "*") node
      | N_OP_MOD => eval_binop eval (chars "%") node | N_OP_EQ => eval_binop eval (chars "==") node
      | N_OP_NEQ => eval_binop eval (chars "!=") node | N_OP_LT => eval_binop eval (chars "<") node
      | N_OP_LTE => eval_binop eval (chars "<=") node | N_OP_GT => eval_binop eval (chars ">") node
      | N_OP_GTE => eval_binop eval (chars ">=") node
      | N_OP_ASSIGN => eval_OP_ASSIGN eval node
      | N_VAR => eval_VAR eval node
      | N_FUNC => eval_FUNC node
      | N_NULL => ok ENA_NULL
      | N_INT_LIT => io (ena_create_int gf (literal node))
      | N_STRING_LIT => eval_STRING_LIT node
      | N_LIST_LIT => eval_LIST_LIT eval node
      | N_MAP_LIT => eval_MAP_LIT eval node
      | N_TRUE => ok ENA_TRUE
      | N_FALSE => ok ENA_FALSE
      | N_CALL => eval_CALL eval node
      | N_IF => eval_IF eval node
      | N_RETURN => eval_RETURN eval node
      | N_ID => eval_ID node
      | N_PROP => eval_PROP eval node
      | N_CLASS => eval_CLASS eval node
      | N_WHILE => eval_WHILE eval fuel node
      | N_CONTINUE => UNWIND_UNWIND_POINT ENA_UNWIND_CONTINUE
      | N_BREAK => UNWIND_UNWIND_POINT ENA_UNWIND_BREAK
      | N_OP_NOT => eval_OP_NOT eval node
      | N_OP_OR => eval_logical eval orb node
      | N_OP_AND => eval_logical eval andb node
      | N_INDEX => eval_INDEX eval node
      | _ => NOT_YET_IMPLEMENTED
      end
  end.

(** [fuel] is for the parser and the evaluator.  The unwind point and the frame stay
    behind. *)
Definition ena_eval (fuel : nat) (module : Z) (script : list Z) : M ena_vm bool :=
  modify (set_stack_end arch_get_stack_bottom) ;;;
  modify (set_error_type ENA_ERROR_NONE) ;;;
  ast <- lift (Parser.ena_parse fuel script) ;;
  match ast with
  | None => modify (set_error_type ENA_ERROR_INVALID_SYNTAX) ;;; modify (set_stack_end 0) ;;; ret false
  | Some tree =>
      r <- (t <~ io (ena_get_type module) ;;
            if decide (t <> ENA_T_MODULE) then io undef
            else
              o <~ io (object_at module) ;;
              match data o with
              | D_module _ scope =>
                  io (modify (set_current_scope scope)) ~;
                  io PUSH_UNWIND_POINT ~;
                  io (PUSH_FRAME 0) ~;
                  EXEC_UNWIND_POINT 1 (eval_node fuel tree) (fun _ => RUNTIME_ERROR)
              | _ => io undef
              end) ;;
      modify (set_stack_end 0) ;;;
      match r with Ok _ => ret true | Error => ret false | Unwind _ => undef end
  end.

(** ** An interpreter *)

(** An error outside of [ena_eval] jumps nowhere. *)
Definition expect {A} (m : ev A) : M ena_vm A := r <- m ;; match r with Ok a => ret a | _ => undef end.

Definition ena_define_method (cls : Z) (name : list Z) (f : native) : M ena_vm unit :=
  ident <- ena_cstr2ident name ;;
  func <- ena_alloc_object gf ENA_T_FUNC ;;
  v <- get ;;
  set_data func (D_func (Z.lor FUNC_FLAGS_NATIVE FUNC_FLAGS_METHOD) ident (current_scope v) (Native_body f)) ;;;
  o <- object_at cls ;;
  match data o with
  | D_class methods =>
      r <- lift (ena_hash_search_or_insert methods ident func) ;;
      match r with (None, methods) => set_data cls (D_class methods) | (Some _, _) => undef end
  | _ => undef
  end.
Fixpoint define_methods (cls : Z) (l : list (list Z * native)) : M ena_vm unit :=
  match l with [] => ret tt | (name, f) :: l => ena_define_method cls name f ;;; define_methods cls l end.
Definition create_class_with (l : list (list Z * native)) : M ena_vm Z :=
  cls <- ena_create_class gf ;; define_methods cls l ;;; ret cls.

Definition int_methods : list (list Z * native) :=
  [(chars "+", N_int I_add); (chars "-", N_int I_sub); (chars "*", N_int I_mul); (chars "/", N_int I_div); (chars "%", N_int I_mod);
   (chars "<", N_int I_lt); (chars "<=", N_int I_lte); (chars ">", N_int I_gt); (chars ">=", N_int I_gte);
   (chars "!=", N_int I_neq); (chars "==", N_int I_eq)].
Definition string_methods : list (list Z * native) :=
  [(chars "+", N_string_concat); (chars "concat", N_string_concat); (chars "contains", N_string_contains);
   (chars "replace", N_string_replace); (chars "find", N_string_find)].
Definition list_methods : list (list Z * native) :=
  [(chars "append", N_list_append); (chars "prepend", N_list_prepend); (chars "pop", N_list_pop);
   (chars "[]", N_list_get); (chars "[]=", N_list_set)].
Definition map_methods : list (list Z * native) := [(chars "get", N_map_get); (chars "set", N_map_set)].

(** [base] is the address of the pool. *)
Definition new_vm (base : Z) : ena_vm :=
  Vm ENA_ERROR_NONE IDENT_START ena_hash_init_table ena_hash_init_table 0 [] 0 [] 0 ENA_UNDEFINED 0 base
    (replicate (Z.to_nat ENA_MAX_NUM_VALUES) (Object 0 D_none)) ENA_MAX_NUM_VALUES 0 0 0 0 0 [].
Definition ena_create_classes : M ena_vm unit :=
  ci <- create_class_with int_methods ;;
  modify (fun v => set_classes ci (string_class v) (list_class v) (map_class v) v) ;;;
  cs <- create_class_with string_methods ;;
  modify (fun v => set_classes (int_class v) cs (list_class v) (map_class v) v) ;;;
  cl <- create_class_with list_methods ;;
  modify (fun v => set_classes (int_class v) (string_class v) cl (map_class v) v) ;;;
  cm <- create_class_with map_methods ;;
  modify (fun v => set_classes (int_class v) (string_class v) (list_class v) cm v).
Definition ena_create_vm (base : Z) : outcome ena_vm := r <-- ena_create_classes (new_vm base) ;; Done r.2.

Definition ena_create_func (f : native) : M ena_vm Z :=
  func <- ena_alloc_object gf ENA_T_FUNC ;; set_data func (D_func FUNC_FLAGS_NATIVE IDENT_ANONYMOUS 0 (Native_body f)) ;;; ret func.
Definition ena_create_module : M ena_vm Z :=
  scope <- ena_create_scope gf 0 ;;
  module <- ena_alloc_object gf ENA_T_MODULE ;;
  set_data module (D_module 0 scope) ;;;
  print_func <- ena_create_func N_print ;;
  name <- ena_cstr2ident (chars "print") ;;
  expect (ena_define_var scope name print_func) ;;;
  ret module.
(** To the end of the list of modules. *)
Fixpoint append_module (n : nat) (entry module : Z) : M ena_vm unit :=
  match n with
  | O => no_fuel
  | S n =>
      o <- object_at entry ;;
      match data o with
      | D_module next scope => if next =? 0 then set_data entry (D_module module scope) else append_module n next module
      | _ => undef
      end
  end.
Definition ena_register_module (module : Z) : M ena_vm unit :=
  v <- get ;; if modules v =? 0 then put (set_modules module v) else append_module gf (modules v) module.

Definition ena_add_to_module (module : Z) (name : list Z) (value : Z) : M ena_vm unit :=
  o <- object_at module ;;
  match data o with
  | D_module _ scope => ident <- ena_cstr2ident name ;; expect (ena_define_var scope ident value)
  | _ => undef
  end.

(** [file_main] from the script on: a new interpreter with a module runs it. *)
Definition run_script (fuel : nat) (base : Z) (script : list Z) : outcome (bool * ena_vm) :=
  v <-- ena_create_vm base ;;
  (module <- ena_create_module ;; ena_register_module module ;;; ena_eval fuel module script) v.

(** The same in the debug build, which has [assert_eq]; the exit code counts failures. *)
Definition debug_setup (base : Z) : outcome (Z * ena_vm) :=
  v <-- ena_create_vm base ;;
  (module <- ena_create_module ;;
   assert_eq <- ena_create_func N_assert_eq ;;
   ena_add_to_module module (chars "assert_eq") assert_eq ;;;
   ena_register_module module ;;;
   ret module) v.
Definition debug_main (fuel : nat) (module : Z) (script : list Z) : M ena_vm Z :=
  b <- ena_eval fuel module script ;;
  v <- get ;;
  ret (if negb b then 1 else if existsb (fun i => match i with P_assert_failed => true | _ => false end) (output v) then 1 else 0).

(** The buffer of the characters read; its last character is overwritten by the zero at
    the end. *)
Definition terminated (contents : list Z) : outcome (list Z) :=
  match contents with [] => Undef | _ => Done (cstr (removelast contents)) end.
(** The exit code for the contents of a file, and the interpreter before it is freed. *)
Definition file_main (fuel : nat) (base : Z) (contents : list Z) : outcome (Z * ena_vm) :=
  script <-- terminated contents ;; r <-- run_script fuel base script ;;
  Done (if fst r then 0 else 1, snd r).

(** The lines of the input; the last one ends with the input. *)
Fixpoint split_lines (input : list Z) : list (list Z) :=
  match input with
  | [] => [[]]
  | c :: input =>
      if c =? NEWLINE then [] :: split_lines input
      else match split_lines input with l :: ls => (c :: l) :: ls | [] => [[c]] end
  end.
Fixpoint repl_rounds (fuel : nat) (module : Z) (lines : list (list Z)) : M ena_vm Z :=
  match lines with
  | [] => ret 0
  | l :: lines =>
      modify (fun v => set_output (output v ++ [P_string (chars ">>> ")]) v) ;;;
      script <- lift (terminated l) ;;
      b <- ena_eval fuel module script ;;
      if b then repl_rounds fuel module lines else ret 1
  end.
Definition repl_main (fuel : nat) (base : Z) (input : list Z) : outcome (Z * ena_vm) :=
  v <-- ena_create_vm base ;;
  (module <- ena_create_module ;; ena_register_module module ;;; repl_rounds fuel module (split_lines input)) v.

End Eval.
End Eval.
