(* ===== verification/EnaShape.v ===== *)
(** * ena: the shape of syntax trees

    The evaluator reads the children and the token of a node as the type of the node
    says, without looking.  Here is what it may rely on: the sorts of nodes, the
    signature of every node type, and that the parser respects them whatever the script
    ([parse_shaped]).  The signatures say where an operand can be missing, and scripts
    show that it is read nevertheless. *)
From S2P Require Import Prelude EnaLexer EnaParser EnaHash EnaHeap EnaEval.
From Stdlib Require String.
Import Lex Parser Heap Eval.
Import String.StringSyntax.
#[local] Open Scope Z_scope.

Inductive sort := S_program | S_block | S_stmt | S_expr | S_args | S_params | S_name | S_entry.
#[export] Instance sort_dec : EqDecision sort.
Proof. solve_decision. Defined.

(** What the children of a node are.  [Missing s] is a child of sort [s] that is
    counted but need not be there. *)
Inductive children := Exactly (ss : list sort) | OneOf (c1 c2 : list sort) | Many (s : sort) | Missing (s : sort).

Definition sort_of (t : ena_node_type) : sort :=
  match t with
  | N_PROGRAM => S_program
  | N_STMTS => S_block
  | N_VAR | N_FUNC | N_IF | N_WHILE | N_BREAK | N_CONTINUE | N_RETURN | N_CLASS => S_stmt
  | N_EXPR_LIST => S_args
  | N_ID_LIST => S_params
  | N_MAP_ENTRY => S_entry
  | _ => S_expr
  end.
Definition signature (t : ena_node_type) : children :=
  match t with
  | N_PROGRAM | N_CLASS => Exactly [S_block]
  | N_STMTS => Many S_stmt
  | N_VAR => Missing S_expr
  | N_FUNC => Exactly [S_params; S_block]
  | N_CALL => Exactly [S_expr; S_args]
  | N_ID_LIST => Many S_name
  | N_EXPR_LIST => Many S_expr
  | N_IF => OneOf [S_expr; S_block] [S_expr; S_block; S_block]
  | N_WHILE => Exactly [S_expr; S_block]
  | N_RETURN => OneOf [] [S_expr]
  | N_BREAK | N_CONTINUE | N_TRUE | N_FALSE | N_NULL | N_INT_LIT | N_STRING_LIT | N_ID => Exactly []
  | N_OP_NOT | N_PROP => Missing S_expr
  | N_OP_OR | N_OP_AND | N_OP_ASSIGN | N_OP_ADD | N_OP_SUB | N_OP_MUL | N_OP_DIV | N_OP_MOD | N_OP_EQ | N_OP_NEQ
  | N_OP_LT | N_OP_LTE | N_OP_GT | N_OP_GTE | N_INDEX | N_MAP_ENTRY => Exactly [S_expr; S_expr]
  | N_LIST_LIT => Exactly [S_args]
  | N_MAP_LIT => Many S_entry
  end.
Definition has_token (t : ena_node_type) : bool :=
  match t with N_VAR | N_FUNC | N_CLASS | N_ID | N_STRING_LIT | N_PROP => true | _ => false end.

(** A node can be used where a sort is expected: expressions are statements, and only
    identifiers are names. *)
Definition fits (s : sort) (node : ena_node) : bool :=
  match s with
  | S_name => bool_decide (sort_of (n_type node) = S_expr) && (match n_type node with N_ID => true | _ => false end)
  | S_stmt => bool_decide (sort_of (n_type node) = S_stmt) || bool_decide (sort_of (n_type node) = S_expr)
  | _ => bool_decide (sort_of (n_type node) = s)
  end.
Fixpoint fit_all (ss : list sort) (c : list ena_node) : bool :=
  match ss, c with [], [] => true | s :: ss, x :: c => fits s x && fit_all ss c | _, _ => false end.
Definition children_ok (sg : children) (c : list ena_node) (num : Z) : bool :=
  match sg with
  | Exactly ss => fit_all ss c && (num =? Z.of_nat (length ss))
  | OneOf s1 s2 => (fit_all s1 c && (num =? Z.of_nat (length s1))) || (fit_all s2 c && (num =? Z.of_nat (length s2)))
  | Many s => forallb (fits s) c && (num =? Z.of_nat (length c))
  | Missing s => match c with [] => (num =? 0) || (num =? 1) | [x] => fits s x && (num =? 1) | _ => false end
  end.
Fixpoint shaped (node : ena_node) : bool :=
  match node with
  | Node t token c num _ _ =>
      forallb shaped c && children_ok (signature t) c num && Bool.eqb (has_token t) (match token with Some _ => true | None => false end)
  end.

(** ** Results of the parser *)

Definition yields {A} (m : M ena_lexer A) (P : A -> Prop) : Prop := forall s a s', m s = Done (a, s') -> P a.
Definition good (s : sort) (node : ena_node) : Prop := shaped node = true /\ fits s node = true.
Definition good_opt (s : sort) (r : option ena_node) : Prop := match r with Some node => good s node | None => True end.
Definition good_some (s : sort) (r : option ena_node) : Prop := exists node, r = Some node /\ good s node.

Section Yields.
Context {A B : Type}.
Lemma yields_bind (m : M ena_lexer A) (k : A -> M ena_lexer B) P Q : yields m P -> (forall a, P a -> yields (k a) Q) -> yields (bind m k) Q.
Proof. intros Hm Hk s b s' E. destruct (bind_done _ _ _ _ _ E) as (a & s1 & E1 & E2). exact (Hk a (Hm _ _ _ E1) _ _ _ E2). Qed.
Lemma yields_any (m : M ena_lexer A) : yields m (fun _ => True).
Proof. by intros s a s' _. Qed.
Lemma yields_ret (a : A) (P : A -> Prop) : P a -> yields (ret a) P.
Proof. intros HP s b s' [= <- _]. done. Qed.
Lemma yields_no_fuel (P : A -> Prop) : yields no_fuel P.
Proof. done. Qed.
Lemma yields_panic (P : A -> Prop) : yields panic P.
Proof. done. Qed.
Lemma yields_weaken (m : M ena_lexer A) (P Q : A -> Prop) : yields m P -> (forall a, P a -> Q a) -> yields m Q.
Proof. intros Hm HQ s a s' E. exact (HQ _ (Hm _ _ _ E)). Qed.
End Yields.

Create HintDb shape.
#[export] Hint Resolve yields_no_fuel yields_panic : shape.

Lemma yields_need {A} (o : option A) : yields (need o) (fun a => o = Some a).
Proof. by destruct o as [a|]; intros s b s' [= <- _]. Qed.
Lemma yields_two a b : yields (two_children a b) (fun l => exists x y, a = Some x /\ b = Some y /\ l = [x; y]).
Proof.
  eapply yields_bind; [apply yields_need|]. intros x ->. eapply yields_bind; [apply yields_need|]. intros y ->. apply yields_ret. eauto.
Qed.
Lemma yields_create t token c num s : (forall l, good s (Node t token c num 0 l)) -> yields (create_node_with_token t token c num) (good_some s).
Proof. intros H. eapply yields_bind; [apply yields_any|]. intros l _. apply yields_ret. eexists. eauto. Qed.
Lemma yields_int z : yields (create_int_literal_node z) (good_some S_expr).
Proof. eapply yields_bind; [apply yields_any|]. intros l _. apply yields_ret. eexists. split; [reflexivity|]. by split. Qed.
Lemma good_some_opt s r : good_some s r -> good_opt s r.
Proof. by intros (node & -> & H). Qed.
#[export] Hint Resolve yields_int yields_two yields_need good_some_opt : shape.

(** Children that are shaped make a shaped node. *)
Lemma good_node s t token c num l : Forall (fun x => shaped x = true) c -> children_ok (signature t) c num = true ->
  has_token t = (match token with Some _ => true | None => false end) ->
  (forall n, fits s (Node t token c num n l) = true) -> forall n, good s (Node t token c num n l).
Proof.
  intros Hc Hk Ht Hf n. split; [|apply Hf]. cbn. rewrite Hk, Ht, Bool.eqb_reflx, !andb_true_r. apply forallb_forall. rewrite Forall_forall in Hc. intros x Hx%list_elem_of_In. by apply Hc.
Qed.
(** A node with fixed children. *)
Lemma good_fixed s t token c ss num l : signature t = Exactly ss -> Forall2 (fun s x => good s x) ss c -> num = Z.of_nat (length ss) ->
  has_token t = (match token with Some _ => true | None => false end) -> fits s (Node t token [] 0 0 0) = true ->
  good s (Node t token c num 0 l).
Proof.
  intros Hs Hc -> Ht Hf. apply good_node; [| |done|done].
  - clear Hs. induction Hc as [|s1 x ss c [Hx _] _ IH]; [apply Forall_nil_2 | by apply Forall_cons_2].
  - rewrite Hs. unfold children_ok. rewrite Z.eqb_refl, andb_true_r. clear Hs. induction Hc as [|s1 x ss c [_ Hx] _ IH]; [done|]. cbn. by rewrite Hx, IH.
Qed.
Lemma good_many s t c s' l : signature t = Many s' -> Forall (good s') c -> has_token t = false -> fits s (Node t None [] 0 0 0) = true ->
  good s (Node t None c (Z.of_nat (length c)) 0 l).
Proof.
  intros Hs Hc Ht Hf. apply good_node; [| |done|done].
  - eapply Forall_impl; [exact Hc|]. by intros x [].
  - rewrite Hs. unfold children_ok. rewrite Z.eqb_refl, andb_true_r. apply forallb_forall. rewrite Forall_forall in Hc. intros x Hx%list_elem_of_In. by apply Hc.
Qed.
Lemma good_missing s t token r l : signature t = Missing S_expr -> good_opt S_expr r -> has_token t = (match token with Some _ => true | None => false end) ->
  fits s (Node t token [] 0 0 0) = true -> good s (Node t token (child_of r) 1 0 l).
Proof.
  intros Hs Hr Ht Hf. apply good_node; [| |done|done].
  - destruct r as [x|]; [|constructor]. by constructor; [apply Hr|].
  - rewrite Hs. destruct r as [x|]; [|done]. unfold children_ok, child_of. destruct Hr as [_ ->]. done.
Qed.

(** A step of the parser whose result does not matter; one whose result is known. *)
Ltac skip := eapply yields_bind; [apply yields_any|]; let x := fresh "u" in intros x _.
Ltac step lem := eapply yields_bind; [apply lem|].

Section ExprShape.
Variable parse_expr : M ena_lexer (option ena_node).
Hypothesis expr_good : yields parse_expr (good_opt S_expr).
#[local] Hint Resolve expr_good : shape.
Variable n : nat.

Lemma expr_list_loop_good k : forall c, Forall (good S_expr) c -> yields (expr_list_loop parse_expr k c) (Forall (good S_expr)).
Proof.
  induction k as [|k IH]; intros c Hc; [auto with shape|]. step expr_good. intros [x|] Hx; [|by apply yields_ret].
  skip. apply IH. apply Forall_app. by split; [|constructor].
Qed.
Lemma parse_expr_list_good : yields (parse_expr_list parse_expr n) (good_some S_args).
Proof.
  eapply yields_bind; [by apply expr_list_loop_good|]. intros c Hc. apply yields_create. intros l. by apply (good_many _ _ _ S_expr).
Qed.
Lemma parse_list_lit_good : yields (parse_list_lit parse_expr n) (good_some S_expr).
Proof.
  eapply yields_bind; [apply parse_expr_list_good|]. intros r (x & -> & Hx). skip. apply yields_create.
  intros l. apply (good_fixed _ _ _ _ [S_args]); try done. by constructor.
Qed.
Lemma good_pair s t a b l s1 s2 : signature t = Exactly [s1; s2] -> has_token t = false -> fits s (Node t None [] 0 0 0) = true ->
  good s1 a -> good s2 b -> good s (Node t None [a; b] 2 0 l).
Proof. intros Hs Ht Hf Ha Hb. apply (good_fixed _ _ _ _ [s1; s2]); try done. by constructor; [|constructor]. Qed.
Lemma map_loop_good k : forall c, Forall (good S_entry) c -> yields (map_loop parse_expr k c) (Forall (good S_entry)).
Proof.
  induction k as [|k IH]; intros c Hc; [auto with shape|]. eapply yields_bind; [apply yields_any|]. intros [|] _; [by apply yields_ret|].
  step expr_good. intros [key|] Hkey; [|by apply yields_ret]. skip.
  step expr_good. intros [x|] Hx; [|auto with shape].
  step yields_two. intros c2 (a & b & [= <-] & [= <-] & ->).
  eapply yields_bind; [apply (yields_create _ _ _ _ S_entry); intros l; by apply (good_pair _ _ _ _ _ S_expr S_expr)|]. intros r (e & -> & He).
  eapply yields_bind; [apply yields_need|]. intros e' [= <-]. skip. apply IH. apply Forall_app. by split; [|constructor].
Qed.
Lemma parse_map_lit_good : yields (parse_map_lit parse_expr n) (good_some S_expr).
Proof.
  eapply yields_bind; [by apply map_loop_good|]. intros c Hc. skip. apply yields_create. intros l.
  by apply (good_many _ _ _ S_entry).
Qed.
Lemma yields_opt (m : M ena_lexer (option ena_node)) s : yields m (good_some s) -> yields m (good_opt s).
Proof. intros Hm. eapply yields_weaken; [exact Hm|]. apply good_some_opt. Qed.
Lemma parse_primary_good : yields (parse_primary parse_expr n) (good_opt S_expr).
Proof.
  assert (Hleaf : forall t token, signature t = Exactly [] -> has_token t = (match token with Some _ => true | None => false end) -> sort_of t = S_expr ->
    yields (create_node_with_token t token [] 0) (good_opt S_expr)).
  { intros t token Hs Ht Ho. apply yields_opt, yields_create. intros l. apply (good_fixed _ _ _ _ []); try done. unfold fits. cbn. by rewrite Ho. }
  eapply yields_bind; [apply yields_any|]. intros token _.
  destruct (type token); try (skip; by apply yields_ret); try by apply Hleaf.
  - skip. apply yields_opt, yields_int.
  - skip. skip. apply yields_opt, yields_int.
  - skip. skip. skip. apply yields_opt, yields_int.
  - step expr_good. intros r Hr. skip. by apply yields_ret.
  - apply yields_opt, parse_list_lit_good.
  - apply yields_opt, parse_map_lit_good.
  - step expr_good. intros r Hr. apply yields_opt, yields_create. intros l. by apply good_missing.
Qed.
Lemma unary_loop_good k : forall r, good_opt S_expr r -> yields (unary_loop parse_expr n k r) (good_opt S_expr).
Proof.
  induction k as [|k IH]; intros r Hr; [auto with shape|]. eapply yields_bind; [apply yields_any|]. intros t _.
  destruct t; try by apply yields_ret.
  - skip. step parse_expr_list_good. intros args (a & -> & Ha). skip. step yields_two. intros c (x & y & -> & [= <-] & ->).
    eapply yields_bind; [apply (yields_create _ _ _ _ S_expr); intros l; by apply (good_pair _ _ _ _ _ S_expr S_args)|]. intros e He. by apply IH, good_some_opt.
  - skip. step expr_good. intros index Hi. skip. step yields_two. intros c (x & y & -> & -> & ->).
    eapply yields_bind; [apply (yields_create _ _ _ _ S_expr); intros l; by apply (good_pair _ _ _ _ _ S_expr S_expr)|]. intros e He. by apply IH, good_some_opt.
  - skip. skip. eapply yields_bind; [apply (yields_create _ _ _ _ S_expr); intros l; by apply good_missing|]. intros e He. by apply IH, good_some_opt.
Qed.
Lemma parse_unary_good : yields (parse_unary parse_expr n) (good_opt S_expr).
Proof. step parse_primary_good. intros r Hr. by apply unary_loop_good. Qed.

(** The operators of a level are for two expressions. *)
Definition binary_ops (op : ena_token_type -> option ena_node_type) : Prop := forall t ty, op t = Some ty ->
  signature ty = Exactly [S_expr; S_expr] /\ has_token ty = false /\ sort_of ty = S_expr.
Lemma good_binary ty a b l : signature ty = Exactly [S_expr; S_expr] /\ has_token ty = false /\ sort_of ty = S_expr ->
  good S_expr a -> good S_expr b -> good S_expr (Node ty None [a; b] 2 0 l).
Proof. intros (Hs & Ht & Ho) Ha Hb. apply (good_pair _ _ _ _ _ S_expr S_expr); try done. unfold fits. cbn. by rewrite Ho. Qed.
Lemma binary_good op rule : binary_ops op -> yields rule (good_opt S_expr) -> yields (binary n op rule) (good_opt S_expr).
Proof.
  intros Hop Hrule. step Hrule. intros r Hr. generalize n as k. intros k. revert r Hr. induction k as [|k IH]; intros r Hr; [auto with shape|].
  eapply yields_bind; [apply yields_any|]. intros t _. destruct (op t) as [ty|] eqn:E; [|by apply yields_ret].
  skip. step Hrule. intros rhs Hrhs. step yields_two. intros c (x & y & -> & -> & ->).
  eapply yields_bind; [apply (yields_create _ _ _ _ S_expr); intros l; apply good_binary; eauto|]. intros e He. by apply IH, good_some_opt.
Qed.
Ltac ops := intros t ty; destruct t; try discriminate; intros [= <-]; done.
Lemma parse_equality_good : yields (parse_equality parse_expr n) (good_opt S_expr).
Proof. unfold parse_equality, parse_logical_or, parse_logical_and, parse_comparison, parse_addition, parse_multiplication. repeat (apply binary_good; [ops|]). apply parse_unary_good. Qed.
Lemma assign_loop_good k : forall r, good_opt S_expr r -> yields (assign_loop parse_expr k r) (good_opt S_expr).
Proof.
  induction k as [|k IH]; intros r Hr; [auto with shape|]. eapply yields_bind; [apply yields_any|]. intros t _.
  assert (Hassign : forall rhs, good_opt S_expr rhs -> yields (childs <- two_children r rhs ;; expr <- create_node N_OP_ASSIGN childs 2 ;; assign_loop parse_expr k expr) (good_opt S_expr)).
  { intros rhs Hrhs. step yields_two. intros c (x & y & -> & -> & ->).
    eapply yields_bind; [apply (yields_create _ _ _ _ S_expr); intros l; by apply good_binary|]. intros e He. by apply IH, good_some_opt. }
  destruct (assign_op t) as [ty|] eqn:E.
  - destruct t; try discriminate E; (skip; step expr_good; intros rhs Hrhs; step yields_two; intros c (x & y & -> & -> & ->);
      eapply yields_bind; [apply (yields_create _ _ _ _ S_expr); intros l; by apply good_binary|];
      intros e He; by apply Hassign, good_some_opt).
  - destruct t; try discriminate E; try by apply yields_ret. skip. step expr_good. intros rhs Hrhs. by apply Hassign.
Qed.
Lemma expr_rule_good : yields (expr_rule parse_expr n) (good_opt S_expr).
Proof. step parse_equality_good. intros r Hr. by apply assign_loop_good. Qed.
End ExprShape.

Lemma parse_expr_good fuel : yields (parse_expr fuel) (good_opt S_expr).
Proof. induction fuel as [|fuel IH]; [auto with shape | by apply expr_rule_good]. Qed.

Section StmtShape.
Variables (parse_expr parse_stmts : M ena_lexer (option ena_node)).
Hypothesis expr_good : yields parse_expr (good_opt S_expr).
Hypothesis stmts_good : yields parse_stmts (good_some S_block).
Variable n : nat.

Lemma id_list_loop_good k : forall c, Forall (good S_name) c -> yields (id_list_loop k c) (Forall (good S_name)).
Proof.
  induction k as [|k IH]; intros c Hc; [auto with shape|]. eapply yields_bind; [apply yields_any|]. intros [|] _; [|by apply yields_ret].
  skip. eapply yields_bind; [apply (yields_create _ _ _ _ S_name); intros l; by apply (good_fixed _ _ _ _ [])|]. intros r (x & -> & Hx).
  step (@yields_need ena_node). intros y [= <-]. skip. apply IH. apply Forall_app. by split; [|constructor].
Qed.
Lemma parse_id_list_good : yields (parse_id_list n) (good_some S_params).
Proof.
  eapply yields_bind; [by apply id_list_loop_good|]. intros c Hc. apply yields_create. intros l. by apply (good_many _ _ _ S_name).
Qed.
Lemma parse_block_good : yields (parse_block parse_stmts) (good_some S_block).
Proof. skip. step stmts_good. intros r Hr. skip. by apply yields_ret. Qed.
Lemma parse_class_stmt_good : yields (parse_class_stmt parse_stmts) (good_some S_stmt).
Proof.
  skip. skip. step parse_block_good. intros r (x & -> & Hx). apply yields_create. intros l. apply (good_fixed _ _ _ _ [S_block]); try done. by constructor.
Qed.
Lemma parse_func_stmt_good : yields (parse_func_stmt parse_stmts n) (good_some S_stmt).
Proof.
  skip. skip. skip. step parse_id_list_good. intros args (a & -> & Ha). skip. step parse_block_good. intros r (x & -> & Hx).
  step yields_two. intros c (? & ? & [= <-] & [= <-] & ->). apply yields_create. intros l. apply (good_fixed _ _ _ _ [S_params; S_block]); try done.
  by constructor; [|constructor].
Qed.
Lemma parse_var_stmt_good : yields (parse_var_stmt parse_expr) (good_some S_stmt).
Proof.
  skip. skip. eapply yields_bind; [apply yields_any|]. intros [|] _.
  - skip. step expr_good. intros r Hr. skip. apply yields_create. intros l. by apply good_missing.
  - skip. apply yields_create. intros l. by apply good_node.
Qed.
Lemma parse_return_stmt_good : yields (parse_return_stmt parse_expr) (good_some S_stmt).
Proof.
  skip. step expr_good. intros r Hr. skip. apply yields_create. intros l. destruct r as [x|]; [|by apply good_node].
  apply good_node; [by constructor; [apply Hr|] | | done | done]. unfold children_ok, signature, fit_all, child_of. destruct Hr as [_ ->]. done.
Qed.
Lemma parse_if_stmt_good : yields (parse_if_stmt parse_expr parse_stmts) (good_some S_stmt).
Proof.
  skip. step expr_good. intros cond Hc. step parse_block_good. intros r (x & -> & Hx). eapply yields_bind; [apply yields_any|]. intros [|] _.
  - skip. step parse_block_good. intros r2 (y & -> & Hy). step (@yields_need ena_node). intros ? [= <-].
    step yields_two. intros c (a & ? & -> & [= <-] & ->). apply yields_create. intros l. destruct Hc as [C1 C2], Hx as [X1 X2], Hy as [Y1 Y2].
    apply good_node; [by repeat constructor | | done | done]. unfold children_ok, signature, app, fit_all. rewrite C2, X2, Y2. done.
  - step yields_two. intros c (a & ? & -> & [= <-] & ->). apply yields_create. intros l. destruct Hc as [C1 C2], Hx as [X1 X2].
    apply good_node; [by repeat constructor | | done | done]. unfold children_ok, signature, fit_all. rewrite C2, X2. done.
Qed.
Lemma parse_while_stmt_good : yields (parse_while_stmt parse_expr parse_stmts) (good_some S_stmt).
Proof.
  skip. step expr_good. intros cond Hc. step parse_block_good. intros r (x & -> & Hx).
  step yields_two. intros c (a & ? & -> & [= <-] & ->). apply yields_create. intros l. by apply (good_pair _ _ _ _ _ S_expr S_block).
Qed.
Lemma expr_is_stmt node : good S_expr node -> good S_stmt node.
Proof. intros [H1 H2]. split; [done|]. unfold fits in *. rewrite H2. by rewrite orb_true_r. Qed.
Lemma parse_stmt_good : yields (parse_stmt parse_expr parse_stmts n) (good_opt S_stmt).
Proof.
  assert (He : yields (expr <- parse_expr ;; CONSUME T_SEMICOLON ;;; ret expr) (good_opt S_stmt)).
  { step expr_good. intros [x|] Hx; skip; apply yields_ret; [by apply expr_is_stmt | done]. }
  eapply yields_bind; [apply yields_any|]. intros t _. destruct t; try exact He; try (by apply yields_ret); apply yields_opt.
  - apply parse_var_stmt_good.
  - apply parse_func_stmt_good.
  - apply parse_while_stmt_good.
  - skip. skip. apply yields_create. intros l. by apply (good_fixed _ _ _ _ []).
  - skip. skip. apply yields_create. intros l. by apply (good_fixed _ _ _ _ []).
  - apply parse_if_stmt_good.
  - apply parse_return_stmt_good.
  - apply parse_class_stmt_good.
Qed.
Lemma stmts_rule_good : yields (stmts_rule parse_expr parse_stmts n) (good_some S_block).
Proof.
  assert (H : forall k c, Forall (good S_stmt) c -> yields (stmts_loop parse_expr parse_stmts n k c) (Forall (good S_stmt))).
  { induction k as [|k IH]; intros c Hc; [auto with shape|]. step parse_stmt_good. intros [x|] Hx; [|by apply yields_ret].
    apply IH. apply Forall_app. by split; [|constructor]. }
  eapply yields_bind; [by apply H|]. intros c Hc. apply yields_create. intros l. by apply (good_many _ _ _ S_stmt).
Qed.
End StmtShape.
Lemma parse_stmts_good fuel : yields (parse_stmts fuel) (good_some S_block).
Proof. induction fuel as [|fuel IH]; [auto with shape|]. apply stmts_rule_good; [apply parse_expr_good | done]. Qed.

(** C21: the trees of the parser are well-sorted.  Whatever the script, in a tree that
    [ena_parse] returns every node has the children of its signature, of the right sorts
    and in the right number, and a token if its type has one; only the operand of [not],
    the object of a property and the initial value of a variable can be missing. *)
Theorem parse_shaped fuel script tree :
  ena_parse fuel script = Done (Some tree) -> shaped tree = true /\ fits S_program tree = true.
Proof.
  unfold ena_parse. destruct (parse_program fuel (Lexer 0 1 script)) as [[r s']| | |] eqn:E; try discriminate. intros [= ->].
  assert (H : yields (parse_program fuel) (good_some S_program)).
  { step parse_stmts_good. intros r (x & -> & Hx). apply yields_create. intros l. apply (good_fixed _ _ _ _ [S_block]); try done. by constructor. }
  destruct (H _ _ _ E) as (node & [= <-] & Hn). exact Hn.
Qed.
Lemma parse_shaped_witness : exists tree, ena_parse 60 (chars "if not a.b { f(1); } ") = Done (Some tree) /\ shaped tree = true.
Proof.
  destruct (ena_parse 60 (chars "if not a.b { f(1); } ")) as [[tree|]| | |] eqn:E; try (by vm_compute in E).
  exists tree. split; [reflexivity|]. apply (parse_shaped 60 (chars "if not a.b { f(1); } ") tree E).
Defined.
