(* ===== verification/EnaIdent.v ===== *)
(** * ena: identifiers

    The names of a script are interned: [ena_cstr2ident] gives every string a number
    and [ena_ident2cstr] takes the number back to the string
    ([tiny-script-interpreter/src/internal.c]).  The two hash tables are refined by the
    sequence of the names seen so far. *)
From S2P Require Import Prelude EnaLexer EnaHash EnaHeap EnaEval.
From Stdlib Require String.
Import Lex Hash Heap Eval.
Import String.StringSyntax.
#[local] Open Scope Z_scope.

(** The place of a name. *)
Fixpoint place (s : list Z) (names : list (list Z)) (i : Z) : option Z :=
  match names with [] => None | t :: names => if decide (s = t) then Some i else place s names (i + 1) end.

Lemma place_Some s names : forall i k, place s names i = Some k -> exists n, k = i + Z.of_nat n /\ names !! n = Some s.
Proof.
  induction names as [|t names IH]; intros i k; [done|]. simpl. destruct (decide (s = t)) as [->|Hne].
  - intros [= <-]. exists 0%nat. split; [lia | done].
  - intros Hk. destruct (IH _ _ Hk) as (n & -> & Hn). exists (S n). split; [lia | done].
Qed.
Lemma place_None s names i : place s names i = None <-> s ∉ names.
Proof.
  revert i. induction names as [|t names IH]; intros i; simpl; [split; [intros _; apply not_elem_of_nil | done]|]. rewrite elem_of_cons.
  destruct (decide (s = t)); [naive_solver|]. rewrite IH. naive_solver.
Qed.
Lemma place_snoc s t names : forall i,
  place s (names ++ [t]) i = match place s names i with Some k => Some k | None => if decide (s = t) then Some (i + Z.of_nat (length names)) else None end.
Proof.
  induction names as [|x names IH]; intros i; simpl.
  - destruct (decide (s = t)); [f_equal; lia | done].
  - destruct (decide (s = x)); [done|]. rewrite IH. destruct (place s names (i + 1)); [done|]. destruct (decide (s = t)); [f_equal; lia | done].
Qed.

Definition name_of (names : list (list Z)) (id : Z) : option (list Z) := if id <? IDENT_START then None else names !! Z.to_nat (id - IDENT_START).

(** The interpreter has interned these names, in this order. *)
Record interned (v : ena_vm) (names : list (list Z)) : Prop := Interned {
  in_next : next_ident v = IDENT_START + Z.of_nat (length names);
  in_proper : Forall proper names;
  in_c2i : exists L, holds (cstr2ident v) L /\ (forall s, contents L s = option_list (place s names IDENT_START)) /\ num_entries (cstr2ident v) = Z.of_nat (length names);
  in_i2c : exists L, holds (ident2cstr v) L /\ (forall id, 0 <= id -> contents L id = option_list (name_of names id)) /\ num_entries (ident2cstr v) = Z.of_nat (length names)
}.

Lemma contents_init {K V} `{HashLaws K} (k : K) : contents (V := V) (replicate 32 []) k = [].
Proof. unfold contents. destruct (replicate 32 [] !! slot k) as [l|] eqn:E; [|done]. by apply lookup_replicate in E as [-> _]. Qed.
Lemma new_interned base : interned (new_vm base) [].
Proof.
  split; [reflexivity | constructor | |]; exists (replicate 32 []); (split; [apply init_holds|]); split; try done.
  - intros s. apply contents_init.
  - intros id _. unfold name_of. rewrite contents_init. by destruct (id <? IDENT_START).
Qed.

Lemma interned_ident2cstr v names n s : interned v names -> names !! n = Some s -> ena_ident2cstr (IDENT_START + Z.of_nat n) v = Done (s, v).
Proof.
  intros [_ _ _ (L & HL & Hc & _)] Hn. unfold ena_ident2cstr, IDENT_ANONYMOUS, IDENT_START in *. rewrite (proj2 (Z.eqb_neq _ _)) by lia.
  set (id := 100 + Z.of_nat n). assert (0 <= id) as Hid by lia. pose proof (search_holds _ _ id HL Hid) as Hs.
  rewrite Hc in Hs by done. unfold name_of, IDENT_START in Hs. rewrite (proj2 (Z.ltb_ge _ _)) in Hs by lia.
  replace (Z.to_nat (id - 100)) with n in Hs by lia. rewrite Hn in Hs. destruct Hs as (e & He & Hv & _).
  unfold bind, get, lift, need, ret. rewrite He. cbn [outcome_bind]. rewrite Hv. done.
Qed.
Lemma interned_old v names s k : interned v names -> proper s -> place s names IDENT_START = Some k -> ena_cstr2ident s v = Done (k, v).
Proof.
  intros [_ _ (L & HL & Hc & _) _] Hs Hk. pose proof (search_holds _ _ s HL Hs) as Hf. rewrite Hc, Hk in Hf.
  destruct Hf as (e & He & Hv & _). unfold ena_cstr2ident, bind, get, lift, ret. rewrite He. cbn [outcome_bind]. rewrite Hv. done.
Qed.
(** Only the tables of identifiers change. *)
Definition only_idents (v v' : ena_vm) : Prop := exists n i2c c2i, v' = set_idents n i2c c2i v.
Lemma only_idents_refl v : only_idents v v.
Proof. exists (next_ident v), (ident2cstr v), (cstr2ident v). by destruct v. Qed.
Lemma interned_new v names s : interned v names -> proper s -> s ∉ names -> Z.of_nat (length names) < INT_MAX ->
  exists v', ena_cstr2ident s v = Done (IDENT_START + Z.of_nat (length names), v') /\ interned v' (names ++ [s]) /\ only_idents v v'.
Proof.
  intros [Hn Hp (L1 & H1 & C1 & N1) (L2 & H2 & C2 & N2)] Hs Hnew Hlen. pose proof (proj2 (place_None s names IDENT_START) Hnew) as Hpl.
  pose proof (search_holds _ _ s H1 Hs) as Hf. rewrite C1, Hpl in Hf. unfold INT_MAX in *.
  assert (IDENT_START = 100) as Est by done.
  destruct (insert_holds _ _ s (next_ident v) H1 Hs) as (t1 & L1' & I1 & H1' & M1 & C1'); [rewrite N1; unfold INT_MAX; lia|].
  assert (0 <= next_ident v) as Hid by lia.
  destruct (insert_holds _ _ (next_ident v) s H2 Hid) as (t2 & L2' & I2 & H2' & M2 & C2'); [rewrite N2; unfold INT_MAX; lia|].
  exists (set_idents (u64 (next_ident v + 1)) t2 t1 v). split; [|split; [|by eexists _, _, _]].
  - unfold ena_cstr2ident, bind, get, put, lift, ret. cbn [option_list] in Hf. rewrite Hf. cbn [outcome_bind]. rewrite I1. cbn [outcome_bind]. rewrite I2. cbn [outcome_bind].
    by rewrite Hn.
  - split.
    + cbn. rewrite u64_small by lia. rewrite length_app, Hn. cbn [length]. lia.
    + apply Forall_app. by split; [|constructor].
    + exists L1'. split; [exact H1'|]. split; [|change (num_entries t1 = Z.of_nat (length (names ++ [s]))); rewrite M1, N1, length_app; cbn [length]; lia].
      intros s'. rewrite C1', place_snoc. destruct (decide (s' = s)) as [->|Hne]; rewrite C1; [by rewrite Hpl, Hn|].
      by destruct (place s' names IDENT_START).
    + exists L2'. split; [exact H2'|]. split; [|change (num_entries t2 = Z.of_nat (length (names ++ [s]))); rewrite M2, N2, length_app; cbn [length]; lia].
      intros id Hid'. rewrite C2'. destruct (decide (id = next_ident v)) as [->|Hne]; rewrite C2 by done; unfold name_of.
      * rewrite (proj2 (Z.ltb_ge _ _)) by lia. replace (Z.to_nat (next_ident v - IDENT_START)) with (length names) by lia.
        rewrite lookup_ge_None_2 by lia. by rewrite list_lookup_middle.
      * destruct (Z.ltb_spec id IDENT_START); [done|]. destruct (decide (Z.to_nat (id - IDENT_START) < length names)%nat).
        -- by rewrite lookup_app_l.
        -- rewrite !lookup_ge_None_2; [done | rewrite length_app; cbn [length]; lia | lia].
Qed.

(** Interning a sequence of strings. *)
Fixpoint intern_all (ss : list (list Z)) : M ena_vm (list Z) :=
  match ss with [] => ret [] | s :: ss => id <- ena_cstr2ident s ;; ids <- intern_all ss ;; ret (id :: ids) end.

Lemma place_app s names k l : place s names IDENT_START = Some k -> place s (names ++ l) IDENT_START = Some k.
Proof.
  intros Hk. induction l as [|x l IH] using rev_ind; [by rewrite app_nil_r|]. by rewrite app_assoc, place_snoc, IH.
Qed.
(** One more string: it gets a place. *)
Lemma intern_one s v names : interned v names -> NoDup names -> proper s -> Z.of_nat (length names) < INT_MAX ->
  exists id v' new, ena_cstr2ident s v = Done (id, v') /\ interned v' (names ++ new) /\ NoDup (names ++ new) /\ (new = [] \/ new = [s]) /\
    place s (names ++ new) IDENT_START = Some id /\ only_idents v v'.
Proof.
  intros Hv Hd Hs Hl. destruct (place s names IDENT_START) as [k|] eqn:Hk.
  - exists k, v, []. rewrite app_nil_r. split; [by apply (interned_old v names)|]. do 2 (split; [done|]). split; [by left|]. split; [done | apply only_idents_refl].
  - pose proof (proj1 (place_None _ _ _) Hk) as Hnew. destruct (interned_new v names s Hv Hs Hnew Hl) as (v' & He & Hv' & Hi).
    eexists _, v', [s]. split; [exact He|]. split; [done|]. split; [|split; [by right | split; [|done]]].
    + apply NoDup_app. split; [done|]. split; [|apply NoDup_singleton]. intros x Hx ->%list_elem_of_singleton. done.
    + rewrite place_snoc, Hk. by rewrite decide_True.
Qed.
Lemma intern_all_spec ss : forall v names, interned v names -> NoDup names -> Forall proper ss -> Z.of_nat (length names + length ss) < INT_MAX ->
  exists ids v' new, intern_all ss v = Done (ids, v') /\ interned v' (names ++ new) /\ NoDup (names ++ new) /\
    Forall2 (fun s id => place s (names ++ new) IDENT_START = Some id) ss ids.
Proof.
  induction ss as [|s ss IH]; intros v names Hv Hd Hp Hl.
  - exists [], v, []. rewrite app_nil_r. done.
  - apply Forall_cons in Hp as [Hs Hp]. cbn [length] in Hl.
    destruct (intern_one s v names Hv Hd Hs ltac:(lia)) as (id & v1 & new1 & E1 & Hv1 & Hd1 & Hn1 & Hi1 & _).
    destruct (IH v1 (names ++ new1) Hv1 Hd1 Hp) as (ids & v2 & new2 & E2 & Hv2 & Hd2 & Hall);
      [rewrite length_app; destruct Hn1 as [-> | ->]; cbn [length]; lia|].
    exists (id :: ids), v2, (new1 ++ new2). rewrite app_assoc. split; [|do 2 (split; [done|]); constructor; [by apply place_app | done]].
    cbn [intern_all]. apply (bind_intro _ _ _ _ _ _ E1). by apply (bind_intro _ _ _ _ _ _ E2).
Qed.

(** C22: interning is a bijection.  Whatever strings a new interpreter interns, in
    whatever order and however often, it does so without an error, two of them get the
    same identifier exactly if they are equal, and every identifier is taken back to
    its string. *)
Theorem intern_correct base ss :
  Forall proper ss -> Z.of_nat (length ss) < INT_MAX ->
  exists ids v, intern_all ss (new_vm base) = Done (ids, v) /\ length ids = length ss /\
    (forall i j s t a b, ss !! i = Some s -> ss !! j = Some t -> ids !! i = Some a -> ids !! j = Some b -> (a = b <-> s = t)) /\
    (forall i s a, ss !! i = Some s -> ids !! i = Some a -> ena_ident2cstr a v = Done (s, v)).
Proof.
  intros Hp Hl. destruct (intern_all_spec ss (new_vm base) [] (new_interned base)) as (ids & v & names & E & Hv & Hd & Hall); [constructor | done | cbn; lia|].
  cbn [app] in *. exists ids, v. split; [done|]. split; [symmetry; by eapply Forall2_length|].
  assert (forall i s a, ss !! i = Some s -> ids !! i = Some a -> exists n, a = IDENT_START + Z.of_nat n /\ names !! n = Some s) as Hat.
  { intros i s a Hs Ha. apply (place_Some s names IDENT_START a). by apply (Forall2_lookup_lr _ _ _ i s a Hall). }
  split.
  - intros i j s t a b Hs Ht Ha Hb. destruct (Hat i s a Hs Ha) as (n & -> & Hn). destruct (Hat j t b Ht Hb) as (m & -> & Hm). split.
    + intros Heq. replace m with n in Hm by lia. congruence.
    + intros ->. by rewrite (NoDup_lookup names n m t Hd Hn Hm).
  - intros i s a Hs Ha. destruct (Hat i s a Hs Ha) as (n & -> & Hn). by apply (interned_ident2cstr v names).
Qed.
(** Names in one bucket: the digests of [ab] and [ba] are the same. *)
Lemma intern_correct_witness : exists v, intern_all [chars "ab"; chars "ba"; chars "ab"] (new_vm 4096) = Done ([100; 101; 100], v) /\
  ena_ident2cstr 101 v = Done (chars "ba", v).
Proof.
  destruct (intern_correct 4096 [chars "ab"; chars "ba"; chars "ab"]) as (ids & v & E & _ & _ & H).
  - repeat constructor.
  - reflexivity.
  - exists v. assert (ids = [100; 101; 100]) as ->.
    { enough (match intern_all [chars "ab"; chars "ba"; chars "ab"] (new_vm 4096) with Done (l, _) => l | _ => [] end = [100; 101; 100]) as H0
        by (rewrite E in H0; exact H0). vm_compute. reflexivity. }
    split; [exact E|]. apply (H 1%nat); reflexivity.
Defined.
