(* ===== verification/EnaRun.v ===== *)
(** * ena: running the evaluator

    Lemmas for the steps of the evaluator while the pool is large enough: allocation
    adds objects and changes no other, integers and booleans are values, an operator is
    the call of a method that is written in C, [print] appends to the output. *)
From S2P Require Import Prelude EnaLexer EnaParser EnaHash EnaHeap EnaGc EnaEval.
From Stdlib Require String.
Import Lex Parser Hash Heap Eval.
Import String.StringSyntax.
#[local] Open Scope Z_scope.

(** ** Growing heaps *)

(** Objects are added and [self] may change; all else stays. *)
Definition st (P : list ena_object) (nf s : Z) (v : ena_vm) : ena_vm := set_self s (set_num_free nf (set_pool P v)).
Record sane (v : ena_vm) : Prop := Sane {
  s_length : length (pool v) = NOBJ;
  s_base : 8 <= value_pool v /\ Z.even (value_pool v) = true /\ value_pool v + SIZEOF_OBJECT * ENA_MAX_NUM_VALUES < 2 ^ 64;
  s_free : num_free v = free_count (pool v)
}.
(** The objects in use stay. *)
Definition keeps (P Q : list ena_object) : Prop := forall i o, P !! i = Some o -> flags o <> 0 -> Q !! i = Some o.
Definition grows (k : Z) (v v' : ena_vm) : Prop :=
  exists P nf s, v' = st P nf s v /\ keeps (pool v) P /\ sane v' /\ num_free v - k <= nf.

Lemma st_st P nf s P' nf' s' v : st P' nf' s' (st P nf s v) = st P' nf' s' v.
Proof. done. Qed.
Lemma grows_refl v : sane v -> grows 0 v v.
Proof. intros H. exists (pool v), (num_free v), (self v). split; [destruct v; reflexivity|]. split; [by intros i o|]. split; [done | lia]. Qed.
Lemma grows_trans k1 k2 v1 v2 v3 : grows k1 v1 v2 -> grows k2 v2 v3 -> grows (k1 + k2) v1 v3.
Proof.
  intros (P1 & n1 & s1 & -> & K1 & S1 & L1) (P2 & n2 & s2 & -> & K2 & S2 & L2). exists P2, n2, s2. rewrite st_st. split; [done|].
  cbn [pool st set_self set_num_free set_pool num_free] in *. split; [|split; [done | lia]]. intros i o Hi Ho. apply K2; [|done]. by apply K1.
Qed.
Lemma grows_sane k v v' : grows k v v' -> sane v'.
Proof. by intros (P & nf & s & -> & _ & H & _). Qed.
Lemma grows_le k k' v v' : k <= k' -> grows k v v' -> grows k' v v'.
Proof. intros Hk (P & nf & s & -> & HK & HS & L). exists P, nf, s. split; [done|]. split; [done|]. split; [done | lia]. Qed.
Lemma grows_self k v v' s : grows k v v' -> grows k v (set_self s v').
Proof.
  intros (P & nf & s' & -> & HK & [H1 H2 H3] & L). exists P, nf, s. split; [done|]. split; [done|]. split; [by split | done].
Qed.
Lemma grows_fields k v v' : grows k v v' -> value_pool v' = value_pool v /\ int_class v' = int_class v /\ cstr2ident v' = cstr2ident v /\
  ident2cstr v' = ident2cstr v /\ current_scope v' = current_scope v /\ unwind_points v' = unwind_points v /\
  current_frame v' = current_frame v /\ output v' = output v /\ current_class v' = current_class v.
Proof. intros (P & nf & s & -> & _). by repeat split. Qed.
Lemma grows_pool k v v' i o : grows k v v' -> pool v !! i = Some o -> flags o <> 0 -> pool v' !! i = Some o.
Proof. intros (P & nf & s & -> & HK & _) Hi Ho. by apply HK. Qed.
Lemma grows_free k v v' : grows k v v' -> num_free v - k <= num_free v'.
Proof. by intros (P & nf & s & -> & _ & _ & L). Qed.

(** An object in use at an address. *)
Definition obj_at (v : ena_vm) (p : Z) (o : ena_object) : Prop := exists i, index_of v p = Some i /\ pool v !! i = Some o /\ flags o <> 0.
Lemma obj_at_grows k v v' p o : grows k v v' -> obj_at v p o -> obj_at v' p o.
Proof.
  intros H (i & Hp & Hi & Ho). exists i. split; [|split; [by eapply grows_pool | done]].
  unfold index_of in *. by destruct (grows_fields _ _ _ H) as (-> & _).
Qed.
Lemma object_at_index v p i o : index_of v p = Some i -> pool v !! i = Some o -> object_at p v = Done (o, v).
Proof. intros Hp Hi. unfold object_at, bind, get, need. rewrite Hp. unfold ret. by rewrite Hi. Qed.
Lemma object_at_ok v p o : obj_at v p o -> object_at p v = Done (o, v).
Proof. intros (i & Hp & Hi & _). by apply (object_at_index v p i). Qed.
Lemma put_object_index v p i o' o : index_of v p = Some i -> pool v !! i = Some o' ->
  put_object p o v = Done (tt, set_pool (<[i := o]> (pool v)) v).
Proof.
  intros Hp Hi. unfold put_object, bind, get, need. rewrite Hp. unfold ret. by rewrite decide_True by (by eapply lookup_lt_Some).
Qed.
Lemma set_data_index v p i o d : index_of v p = Some i -> pool v !! i = Some o ->
  set_data p d v = Done (tt, set_pool (<[i := Object (flags o) d]> (pool v)) v).
Proof.
  intros Hp Hi. unfold set_data. rewrite (bind_intro _ _ _ _ _ _ (object_at_index v p i o Hp Hi) eq_refl).
  by apply (put_object_index v p i o).
Qed.

(** ** Allocation *)

Section Alloc.
Context `{Host}.
Variable gf : nat.

Lemma free_exists l : 0 < free_count l -> Exists (fun o => (flags o =? 0) = true) l.
Proof.
  induction l as [|o l IH]; [done|]. rewrite free_count_cons. case_decide as Ho; [intros _; left; lia | intros ?; right; apply IH; lia].
Qed.
Lemma sane_index v i o : sane v -> pool v !! i = Some o -> index_of v (addr_of v i) = Some i.
Proof. intros Hs Hi. apply index_of_spec. split; [|done]. rewrite <- (s_length _ Hs). by eapply lookup_lt_Some. Qed.
(** A new object with its data. *)
Lemma alloc_ok v t d : sane v -> ENA_GC_THRESHOLD <= num_free v -> t <> ENA_T_UNDEFINED ->
  exists p v', (p <- ena_alloc_object gf t ;; set_data p d ;;; ret p) v = Done (p, v') /\ grows 1 v v' /\
    obj_at v' p (Object (type_code t) d) /\ self v' = self v.
Proof.
  intros Hs Hn Ht. unfold ENA_GC_THRESHOLD in Hn.
  destruct (find_index_is_Some (fun o => flags o =? 0) (pool v) 0 (free_exists _ ltac:(rewrite <- (s_free _ Hs); lia))) as [j Ej].
  destruct (find_index_Some _ _ _ _ Ej) as (Hj & o & Ho & Hz%Z.eqb_eq). rewrite Z.sub_0_r in Ho.
  set (i := Z.to_nat j) in *. pose proof (sane_index v i o Hs Ho) as Hidx.
  assert (Hlt : (i < length (pool v))%nat) by (by eapply lookup_lt_Some).
  assert (Hnz : type_code t <> 0) by (intros E; apply Ht; by apply type_code_inj).
  set (P := <[i := Object (type_code t) d]> (pool v)).
  exists (addr_of v i), (st P (num_free v - 1) (self v) v). split; [|split; [|split; [|done]]].
  - set (v1 := set_num_free (num_free v - 1) (set_pool (<[i := Object (type_code t) (data o)]> (pool v)) v)).
    assert (E1 : ena_alloc_object gf t v = Done (addr_of v i, v1)).
    { unfold ena_alloc_object. unfold bind at 1. cbn [get]. rewrite (proj2 (Z.ltb_ge _ _)) by (unfold ENA_GC_THRESHOLD; lia).
      unfold bind at 1. cbn [ret]. unfold bind at 1. cbn [get]. rewrite Ej. fold i.
      rewrite (bind_intro _ _ _ _ _ _ (object_at_index _ _ _ _ Hidx Ho) eq_refl).
      by rewrite (bind_intro _ _ _ _ _ _ (put_object_index _ _ _ _ _ Hidx Ho) eq_refl). }
    rewrite (bind_intro _ _ _ _ _ _ E1 eq_refl).
    assert (Hi1 : pool v1 !! i = Some (Object (type_code t) (data o))) by (cbn; by apply list_lookup_insert_eq).
    rewrite (bind_intro _ _ _ _ _ _ (set_data_index v1 (addr_of v i) i _ d Hidx Hi1) eq_refl). unfold ret. do 2 f_equal.
    unfold v1, P, st, set_self, set_num_free, set_pool. cbn. by rewrite list_insert_insert_eq.
  - exists P, (num_free v - 1), (self v). split; [done|]. split.
    + intros i' o' Hi' Hz'. unfold P. rewrite list_lookup_insert_ne; [done|]. intros <-. rewrite Ho in Hi'. by injection Hi' as <-.
    + split; [|lia]. split; cbn.
      * unfold P. rewrite length_insert. apply Hs.
      * apply Hs.
      * pose proof (free_count_insert (pool v) i o (Object (type_code t) d) Ho) as Hc. cbn [flags] in Hc.
        rewrite decide_True, decide_False in Hc by done. rewrite (s_free _ Hs). fold P in Hc. lia.
  - exists i. split; [done|]. split; [cbn; unfold P; by apply list_lookup_insert_eq | done].
Qed.

(** ** Integers as values *)

(** [x] is the value of the integer [n]. *)
Definition is_int (v : ena_vm) (x n : Z) : Prop :=
  (0 <= n <= SMALL_INT_MAX /\ x = INT2SMALLINT n) \/ obj_at v x (Object (type_code ENA_T_INT) (D_int n)).
Lemma is_int_grows k v v' x n : grows k v v' -> is_int v x n -> is_int v' x n.
Proof. intros Hg [?|Ho]; [by left | right; by eapply obj_at_grows]. Qed.
Lemma get_type_obj v p o t : sane v -> obj_at v p o -> flags o = type_code t -> ena_get_type p v = Done (t, v).
Proof.
  intros Hs (i & Hp & Hi & _) Ht. destruct (s_base _ Hs) as (Hb1 & Hb2 & _).
  destruct (addr_not_const v p i Hb1 Hb2 Hp) as (E1 & E2 & E3 & E4). unfold ena_get_type. rewrite E1, E2, E3, E4. simpl.
  unfold gets, bind at 1. rewrite (index_in_heap _ _ _ Hp).
  rewrite (bind_intro _ _ _ _ _ _ (object_at_index v p i o Hp Hi) eq_refl), Ht.
  replace (Z.land (type_code t) OBJECT_FLAG_TYPE_MASK) with (type_code t) by (by destruct t). by rewrite type_of_type_code.
Qed.
Lemma small_int n : 0 <= n <= SMALL_INT_MAX -> n = 0 \/ n = 1 \/ n = 2.
Proof. unfold SMALL_INT_MAX. lia. Qed.
Lemma get_type_int v x n : sane v -> is_int v x n -> ena_get_type x v = Done (ENA_T_INT, v).
Proof.
  intros Hs [[Hn ->]|Ho]; [|by eapply get_type_obj]. destruct (small_int n Hn) as [-> | [-> | ->]]; done.
Qed.
Lemma to_int_ok v x n : sane v -> is_int v x n -> ena_to_int x v = Done (n, v).
Proof.
  intros Hs Hx. pose proof (get_type_int v x n Hs Hx) as Ht. destruct Hx as [[Hn ->]|Ho].
  - destruct (small_int n Hn) as [-> | [-> | ->]]; done.
  - unfold ena_to_int. destruct Ho as (i & Hp & Hi & Hz). destruct (s_base _ Hs) as (Hb1 & Hb2 & _).
    destruct (addr_not_const v x i Hb1 Hb2 Hp) as (_ & _ & _ & ->).
    rewrite (bind_intro _ _ _ _ _ _ Ht eq_refl). rewrite decide_False by done. by rewrite (bind_intro _ _ _ _ _ _ (object_at_index v x i _ Hp Hi) eq_refl).
Qed.
Lemma create_int_ok v n : sane v -> ENA_GC_THRESHOLD <= num_free v ->
  exists x v', ena_create_int gf n v = Done (x, v') /\ grows 1 v v' /\ is_int v' x n.
Proof.
  intros Hs Hn. unfold ena_create_int. destruct (_ && _) eqn:E.
  - apply andb_prop in E as [E1%Z.leb_le E2%Z.leb_le]. exists (INT2SMALLINT n), v. split; [done|].
    split; [apply (grows_le 0); [lia | by apply grows_refl] | by left].
  - destruct (alloc_ok v ENA_T_INT (D_int n) Hs Hn ltac:(done)) as (p & v' & E' & Hg & Ho & _). exists p, v'. by split; [|split; [|right]].
Qed.

(** ** Steps of the evaluator *)

Lemma bind_step {S A B} (m : M S A) (k : A -> M S B) s a s' : m s = Done (a, s') -> bind m k s = k a s'.
Proof. intros E. by apply (bind_intro m k s a s'). Qed.
Lemma ev_ok {A B} (m : ev A) (k : A -> ev B) s a s' : m s = Done (Ok a, s') -> ev_bind m k s = k a s'.
Proof. intros E. unfold ev_bind. by rewrite (bind_intro _ _ _ _ _ _ E eq_refl). Qed.
Lemma ev_io {A B} (m : M ena_vm A) (k : A -> ev B) s a s' : m s = Done (a, s') -> ev_bind (io m) k s = k a s'.
Proof. intros E. apply ev_ok. unfold io. by rewrite (bind_intro _ _ _ _ _ _ E eq_refl). Qed.
Lemma ev_error {A B} (m : ev A) (k : A -> ev B) s s' : m s = Done (Error, s') -> ev_bind m k s = Done (Error, s').
Proof. intros E. unfold ev_bind. by rewrite (bind_intro _ _ _ _ _ _ E eq_refl). Qed.

(** ** Operators *)

Inductive val := VI (n : Z) | VB (b : bool).
Definition is_val (v : ena_vm) (x : Z) (w : val) : Prop := match w with VI n => is_int v x n | VB b => x = ena_create_bool b end.
Definition val_type (w : val) : ena_value_type := match w with VI _ => ENA_T_INT | VB _ => ENA_T_BOOL end.
Lemma is_val_grows k v v' x w : grows k v v' -> is_val v x w -> is_val v' x w.
Proof. destruct w; [apply is_int_grows | done]. Qed.
Lemma get_type_val v x w : sane v -> is_val v x w -> ena_get_type x v = Done (val_type w, v).
Proof. intros Hs Hx. destruct w as [n|b]; [by eapply get_type_int|]. cbn in Hx. subst. by destruct b. Qed.

Definition op_text (op : int_op) : list Z :=
  match op with
  | I_add => chars "+" | I_sub => chars "-" | I_mul => chars "*" | I_div => chars "/" | I_mod => chars "%"
  | I_lt => chars "<" | I_lte => chars "<=" | I_gt => chars ">" | I_gte => chars ">=" | I_eq => chars "==" | I_neq => chars "!="
  end.
(** The value in mathematics, as far as it is an [int]: an error after a division by
    zero, undefined after an overflow. *)
Definition den_op (op : int_op) (a b : Z) : outcome (val + ena_error_type) :=
  let int r := n <-- as_int r ;; Done (inl (VI n)) in
  match op with
  | I_add => int (a + b)
  | I_sub => int (a - b)
  | I_mul => int (a * b)
  | I_div => if b =? 0 then Done (inr ENA_ERROR_RUNTIME) else int (Z.quot a b)
  | I_mod => if b =? 0 then Done (inr ENA_ERROR_RUNTIME) else _ <-- as_int (Z.quot a b) ;; Done (inl (VI (Z.rem a b)))
  | I_lt => Done (inl (VB (a <? b)))
  | I_lte => Done (inl (VB (a <=? b)))
  | I_gt => Done (inl (VB (b <? a)))
  | I_gte => Done (inl (VB (b <=? a)))
  | I_eq => Done (inl (VB (a =? b)))
  | I_neq => Done (inl (VB (negb (a =? b))))
  end.

(** What evaluating gives for a value in mathematics. *)
Definition gives (r : outcome (val + ena_error_type)) (k : Z) (v : ena_vm) (res : outcome (flow Z * ena_vm)) : Prop :=
  match r with
  | Done (inl w) => exists x v', res = Done (Ok x, v') /\ grows k v v' /\ is_val v' x w
  | Done (inr err) => exists v', res = Done (Error, v') /\ error_type v' = err /\ output v' = output v
  | _ => True
  end.
Lemma int_binop_ok v op x y a b : sane v -> ENA_GC_THRESHOLD <= num_free v -> is_int v x a -> is_int v y b ->
  gives (den_op op a b) 1 v (int_binop gf op x [y] v).
Proof.
  intros Hs Hn Hx Hy. unfold int_binop. rewrite (ev_io _ _ _ _ _ (to_int_ok v x a Hs Hx)).
  change (need ([y] !! 0%nat)) with (@need ena_vm _ (Some y)). rewrite (ev_io _ _ v y v eq_refl).
  rewrite (ev_io _ _ _ _ _ (to_int_ok v y b Hs Hy)).
  assert (Hnew : forall n, gives (Done (inl (VI n))) 1 v ((r <~ io (lift (Done (inl n : Z + bool))) ;;
    match r with inl n => io (ena_create_int gf n) | inr b => ok (ena_create_bool b) end) v)).
  { intros n. destruct (create_int_ok v n Hs Hn) as (z & v' & Ez & Hg & Hz).
    exists z, v'. split; [|done]. rewrite (ev_io _ _ v (inl n) v eq_refl). unfold io. by rewrite (bind_intro _ _ _ _ _ _ Ez eq_refl). }
  assert (Hval : forall r, gives (n <-- as_int r ;; Done (inl (VI n))) 1 v ((r <~ io (lift (n <-- as_int r ;; Done (inl n : Z + bool))) ;;
    match r with inl n => io (ena_create_int gf n) | inr b => ok (ena_create_bool b) end) v)).
  { intros r. destruct (as_int r) as [n| | |] eqn:E; try done. apply Hnew. }
  assert (Hbool : forall c, gives (Done (inl (VB c))) 1 v ((r <~ io (lift (Done (inr c : Z + bool))) ;;
    match r with inl n => io (ena_create_int gf n) | inr b => ok (ena_create_bool b) end) v)).
  { intros c. exists (ena_create_bool c), v. split; [done|]. split; [apply (grows_le 0); [lia | by apply grows_refl] | done]. }
  destruct op; cbn [divides den_op andb int_arith]; try apply Hval; try apply Hbool; (destruct (Z.eqb_spec b 0); [by eexists|]); [apply Hval|].
  destruct (as_int (a ÷ b)) as [q| | |] eqn:E; try done. apply Hnew.
Qed.

(** Code that does not jump, and code that jumps to the point of the function itself. *)
Lemma landing_ok {A} n own h (m : ev A) v r v' : m v = Done (r, v') -> (forall t, r <> Unwind t) -> landing n own h m v = Done (r, v').
Proof. intros E Hr. destruct n; cbn [landing]; rewrite (bind_step _ _ _ _ _ E); destruct r; try done; by destruct (Hr t). Qed.
Lemma landing_lands {A} n own h (m : ev A) v t v' : m v = Done (Unwind t, v') -> length (unwind_points v') = own ->
  landing (S n) own h m v = landing n own h (h t) v'.
Proof. intros E <-. cbn [landing]. rewrite (bind_step _ _ _ _ _ E). rewrite (bind_step get _ v' v' v' eq_refl). by rewrite Nat.eqb_refl. Qed.
Lemma landing_cong {A} n own h (m m' : ev A) v v' : m v = m' v' -> landing n own h m v = landing n own h m' v'.
Proof. intros E. destruct n; cbn [landing]; unfold bind at 1 3; by rewrite E. Qed.
Lemma exec_point {A} n (m : ev A) h v : EXEC_UNWIND_POINT n m h v = landing n (length (unwind_points v)) h m v.
Proof. unfold EXEC_UNWIND_POINT. by rewrite (ev_io get _ v v v eq_refl). Qed.
Lemma exec_point_ok {A} n (m : ev A) h v r v' : m v = Done (r, v') -> (forall t, r <> Unwind t) -> EXEC_UNWIND_POINT n m h v = Done (r, v').
Proof. rewrite exec_point. apply landing_ok. Qed.

(** A state with other frames and points to unwind to has the same objects. *)
Lemma obj_at_same v v' p o : value_pool v' = value_pool v -> pool v' = pool v -> obj_at v p o -> obj_at v' p o.
Proof. intros E1 E2 (i & Hp & Hi & Ho). exists i. unfold index_of in *. by rewrite E1, E2. Qed.
Lemma is_int_same v v' x n : value_pool v' = value_pool v -> pool v' = pool v -> is_int v x n -> is_int v' x n.
Proof. intros E1 E2 [?|Ho]; [by left | right; by apply (obj_at_same v)]. Qed.
Lemma sane_same v v' : value_pool v' = value_pool v -> pool v' = pool v -> num_free v' = num_free v -> sane v -> sane v'.
Proof. intros E1 E2 E3 [H1 H2 H3]. split; by rewrite ?E1, ?E2, ?E3. Qed.
Definition inside (f : Z) (v : ena_vm) : ena_vm :=
  set_current_frame (f :: current_frame v) (set_unwind_points (0 :: unwind_points v) v).
Definition outside (sc : Z) (points frames : list Z) (v : ena_vm) : ena_vm :=
  set_unwind_points points (set_current_frame frames (set_self ENA_UNDEFINED (set_current_scope sc v))).
Lemma inside_sane f v : sane v -> sane (inside f v).
Proof. by intros [H1 H2 H3]. Qed.
Lemma outside_objects sc points frames v : value_pool (outside sc points frames v) = value_pool v /\
  pool (outside sc points frames v) = pool v /\ num_free (outside sc points frames v) = num_free v.
Proof. done. Qed.
Lemma outside_inside sc points frames f P1 n1 s1 P3 n3 s3 v : sc = current_scope v -> points = unwind_points v -> frames = current_frame v ->
  outside sc points frames (st P3 n3 s3 (inside f (st P1 n1 s1 v))) = st P3 n3 ENA_UNDEFINED v.
Proof. intros -> -> ->. destruct v. reflexivity. Qed.
Lemma epilogue_ok v sc (z : Z) q points : unwind_points v = q :: points ->
  (io (modify (set_current_scope sc)) ~; io (modify (set_self ENA_UNDEFINED)) ~; io POP_FRAME ~; POP_UNWIND_POINT ~; ok z) v =
  Done (Ok z, outside sc points (tail (current_frame v)) v).
Proof.
  intros Hu. rewrite (ev_io _ _ v tt (set_current_scope sc v) eq_refl).
  rewrite (ev_io _ _ _ tt (set_self ENA_UNDEFINED (set_current_scope sc v)) eq_refl). set (w := set_self _ _).
  rewrite (ev_io POP_FRAME _ w tt (set_current_frame (tail (current_frame w)) w) eq_refl). set (w2 := set_current_frame _ w).
  assert (Ew : POP_UNWIND_POINT w2 = Done (Ok tt, set_unwind_points points w2)).
  { unfold POP_UNWIND_POINT. rewrite (ev_io get _ w2 w2 w2 eq_refl). change (unwind_points w2) with (unwind_points v). by rewrite Hu. }
  by rewrite (ev_ok _ _ _ _ _ Ew).
Qed.
Lemma call_native_ok ev_node v f sc id op x y a b :
  sane v -> ENA_GC_THRESHOLD + 1 <= num_free v -> is_int v x a -> is_int v y b ->
  obj_at v f (Object (type_code ENA_T_FUNC) (D_func 3 id sc (Native_body (N_int op)))) ->
  gives (den_op op a b) 2 v (call_func gf ev_node x f [y] v).
Proof.
  intros Hs Hn Hx Hy Hf. unfold call_func. rewrite (ev_io get _ v v v eq_refl). rewrite (ev_io _ _ _ _ _ (object_at_ok _ _ _ Hf)). cbn [data].
  destruct (alloc_ok v ENA_T_SCOPE (D_scope ena_hash_init_table sc) Hs ltac:(lia) ltac:(done)) as (p & v1 & E1 & Hg1 & _ & _).
  rewrite (ev_io (ena_create_scope gf sc) _ _ _ _ E1). rewrite (ev_io _ _ v1 tt _ eq_refl), (ev_io _ _ _ tt (inside f v1) eq_refl).
  assert (Hn1 : ENA_GC_THRESHOLD <= num_free (inside f v1)) by (pose proof (grows_free _ _ _ Hg1); cbn; lia).
  pose proof (int_binop_ok (inside f v1) op x y a b (inside_sane f v1 (grows_sane _ _ _ Hg1)) Hn1
    (is_int_grows _ _ _ _ _ Hg1 Hx) (is_int_grows _ _ _ _ _ Hg1 Hy)) as Hb.
  assert (Eb : run_body gf ev_node f p x [y] (inside f v1) = int_binop gf op x [y] (inside f v1)).
  { unfold run_body. rewrite (ev_io _ _ _ _ _ (object_at_ok (inside f v1) f _ (obj_at_grows _ _ _ _ _ Hg1 Hf))). done. }
  destruct (den_op op a b) as [[w|err]| | |]; try done.
  - destruct Hb as (z & v3 & Ez & Hg3 & Hz). exists z, (outside (current_scope v) (unwind_points v) (current_frame v) v3).
    destruct (outside_objects (current_scope v) (unwind_points v) (current_frame v) v3) as (Eo1 & Eo2 & Eo3).
    split; [|split; [|destruct w; [by apply (is_int_same v3) | done]]].
    + rewrite (ev_ok _ _ _ z _ (exec_point_ok 1 _ _ _ (Ok z) v3 (eq_trans Eb Ez) ltac:(done))).
      destruct (grows_fields _ _ _ Hg1) as (_ & _ & _ & _ & _ & F1 & F2 & _). destruct (grows_fields _ _ _ Hg3) as (_ & _ & _ & _ & _ & F3 & F4 & _).
      rewrite (epilogue_ok v3 _ z 0 (unwind_points v)); [by rewrite F4; cbn; rewrite F2 | rewrite F3; cbn; by rewrite F1].
    + pose proof (sane_same v3 _ Eo1 Eo2 Eo3 (grows_sane _ _ _ Hg3)) as S4. pose proof (grows_free _ _ _ Hg3) as L3.
      pose proof (grows_free _ _ _ Hg1) as L1. cbn [num_free inside set_current_frame set_unwind_points] in L3.
      destruct Hg1 as (P1 & n1 & s1 & -> & K1 & _ & _). destruct Hg3 as (P3 & n3 & s3 & -> & K3 & _ & _).
      exists P3, n3, ENA_UNDEFINED. split; [by apply outside_inside|]. split; [intros i o Hi Ho; apply K3; [by apply K1 | done]|].
      split; [exact S4|]. cbn in L1, L3. lia.
  - destruct Hb as (v3 & Ez & He & Ho). exists v3. split; [|split; [done|]].
    2: { rewrite Ho. by destruct (grows_fields _ _ _ Hg1) as (_ & _ & _ & _ & _ & _ & _ & F & _). }
    by rewrite (ev_error _ _ _ v3) by (by apply (exec_point_ok 1 _ _ _ Error v3 (eq_trans Eb Ez))).
Qed.

Lemma cstr2ident_found v str e id : ena_hash_search (cstr2ident v) str = Done (Some e) -> entry_value (cstr2ident v) e = Done id ->
  ena_cstr2ident str v = Done (id, v).
Proof. intros H1 H2. unfold ena_cstr2ident, bind, get, lift. rewrite H1. simpl. by rewrite H2. Qed.
Lemma lookup_method_found v cls o tb name e f : obj_at v cls o -> data o = D_class tb -> ena_hash_search tb name = Done (Some e) ->
  entry_value tb e = Done f -> lookup_method cls name v = Done (Some f, v).
Proof.
  intros Ho Hd H1 H2. unfold lookup_method. rewrite (bind_intro _ _ _ _ _ _ (object_at_ok _ _ _ Ho) eq_refl), Hd.
  unfold lift, bind. rewrite H1. simpl. by rewrite H2.
Qed.
(** The method of the class of integers for an operator is found. *)
Definition ready_op (v : ena_vm) (op : int_op) : Prop :=
  exists id tb e2 f sc, (exists e, ena_hash_search (cstr2ident v) (op_text op) = Done (Some e) /\ entry_value (cstr2ident v) e = Done id) /\
    obj_at v (int_class v) (Object (type_code ENA_T_CLASS) (D_class tb)) /\ ena_hash_search tb id = Done (Some e2) /\
    entry_value tb e2 = Done f /\ obj_at v f (Object (type_code ENA_T_FUNC) (D_func 3 id sc (Native_body (N_int op)))).
(** The end of [eval_binop], with the values of the operands. *)
Definition binop_tail (ev_node : ena_node -> ev Z) (op : int_op) (lhs rhs : Z) : ev Z :=
  lhs_type <~ io (ena_get_type lhs) ;; rhs_type <~ io (ena_get_type rhs) ;;
  if decide (lhs_type <> rhs_type) then TYPE_ERROR
  else cls <~ get_builtin_class_by_type lhs_type ;; name <~ io (ena_cstr2ident (op_text op)) ;;
    method <~ io (lookup_method cls name) ;;
    match method with None => RUNTIME_ERROR | Some method => call_func gf ev_node lhs method [rhs] end.
(** An operator on values: only integers have a class. *)
Definition den_bin (op : int_op) (x y : val) : outcome (val + ena_error_type) :=
  match x, y with
  | VI a, VI b => den_op op a b
  | VB _, VB _ => Done (inr ENA_ERROR_NOT_YET_IMPLEMENTED)
  | _, _ => Done (inr ENA_ERROR_TYPE)
  end.
Lemma binop_tail_ok ev_node v op x y a b : sane v -> ENA_GC_THRESHOLD + 1 <= num_free v -> ready_op v op -> is_val v x a -> is_val v y b ->
  gives (den_bin op a b) 2 v (binop_tail ev_node op x y v).
Proof.
  intros Hs Hn (id & tb & e2 & f & sc & (e & H1 & H2) & H3 & H4 & H5 & H6) Hx Hy. unfold binop_tail.
  rewrite (ev_io _ _ _ _ _ (get_type_val v x a Hs Hx)), (ev_io _ _ _ _ _ (get_type_val v y b Hs Hy)).
  destruct a as [a|a], b as [b|b]; cbn [val_type den_bin].
  - rewrite decide_False by tauto. rewrite (ev_ok _ _ v (int_class v) v eq_refl).
    rewrite (ev_io _ _ _ _ _ (cstr2ident_found v _ e id H1 H2)).
    rewrite (ev_io _ _ _ _ _ (lookup_method_found v _ _ tb id e2 f H3 eq_refl H4 H5)). by eapply call_native_ok.
  - rewrite decide_True by done. by eexists.
  - rewrite decide_True by done. by eexists.
  - rewrite decide_False by tauto. by eexists.
Qed.

(** ** Printing *)

Definition item (w : val) : print_item := match w with VI n => P_int n | VB b => P_bool b end.
Lemma print_value_ok v x w : sane v -> is_val v x w -> print_value x v = Done (tt, set_output (output v ++ [item w]) v).
Proof.
  intros Hs Hx. unfold print_value. rewrite (bind_step _ _ _ _ _ (get_type_val v x w Hs Hx)). destruct w as [n|b]; cbn [val_type].
  - rewrite (bind_step _ _ v (P_int n) v); [done|]. by rewrite (bind_step _ _ _ _ _ (to_int_ok v x n Hs Hx)).
  - cbn in Hx. subst. by destruct b.
Qed.
(** The call of [print] with a value. *)
Lemma call_print_ok ev_node v pf sc x w :
  sane v -> ENA_GC_THRESHOLD <= num_free v -> is_val v x w ->
  obj_at v pf (Object (type_code ENA_T_FUNC) (D_func 2 IDENT_ANONYMOUS sc (Native_body N_print))) ->
  exists v', call_func gf ev_node ENA_UNDEFINED pf [x] v = Done (Ok ENA_NULL, set_output (output v ++ [item w; P_newline]) v') /\ grows 1 v v'.
Proof.
  intros Hs Hn Hx Hf. unfold call_func. rewrite (ev_io get _ v v v eq_refl). rewrite (ev_io _ _ _ _ _ (object_at_ok _ _ _ Hf)). cbn [data].
  destruct (alloc_ok v ENA_T_SCOPE (D_scope ena_hash_init_table sc) Hs ltac:(lia) ltac:(done)) as (p & v1 & E1 & Hg1 & _ & _).
  rewrite (ev_io (ena_create_scope gf sc) _ _ _ _ E1). rewrite (ev_io _ _ v1 tt _ eq_refl), (ev_io _ _ _ tt (inside pf v1) eq_refl).
  set (u := inside pf v1). pose proof (inside_sane pf v1 (grows_sane _ _ _ Hg1)) as Hsu.
  assert (Hxu : is_val u x w) by (pose proof (is_val_grows _ _ _ _ _ Hg1 Hx) as Hx1; destruct w; [by apply (is_int_same v1) | done]).
  set (u1 := set_output (output u ++ [item w]) u). set (u2 := set_output (output u1 ++ [P_newline]) u1).
  assert (Eb : run_body gf ev_node pf p ENA_UNDEFINED [x] u = Done (Ok ENA_NULL, u2)).
  { unfold run_body. rewrite (ev_io _ _ _ _ _ (object_at_ok u pf _ (obj_at_same v1 u pf _ eq_refl eq_refl (obj_at_grows _ _ _ _ _ Hg1 Hf)))).
    cbn [data call_native]. unfold print_func_handler. rewrite (ev_io _ _ u tt u1); [done|]. cbn [iter].
    by rewrite (bind_step _ _ _ _ _ (print_value_ok u x w Hsu Hxu)). }
  rewrite (ev_ok _ _ _ ENA_NULL _ (exec_point_ok 1 _ _ _ (Ok ENA_NULL) u2 Eb ltac:(done))).
  destruct (grows_fields _ _ _ Hg1) as (_ & _ & _ & _ & _ & F1 & F2 & F3 & _).
  exists (set_self ENA_UNDEFINED v1). split; [|by apply grows_self].
  rewrite (epilogue_ok u2 _ ENA_NULL 0 (unwind_points v)) by (cbn; by rewrite F1).
  destruct Hg1 as (P & nf & s & -> & _). unfold u2, u1, u. destruct v. cbn. by rewrite <- app_assoc.
Qed.

End Alloc.
