(* ===== verification/EnaStart.v ===== *)
(** * ena: a new interpreter

    The interpreter that [main] sets up before it runs a script, and a procedure that
    reads the contents of its tables: whether the chains are intact and hold what they
    should is decided by computation. *)
From S2P Require Import Prelude EnaLexer EnaHash EnaHeap EnaGc EnaEval EnaIdent EnaRun.
From Stdlib Require String.
Import Lex Hash.
Import String.StringSyntax.
#[local] Open Scope Z_scope.

(** ** The contents of a table *)

Section Tables.
Context {K V : Type} `{HashLaws K} `{!forall k : K, Decision (proper k)} `{EqDecision V}.
#[local] Abbreviation entry := (Z * K * V)%type.

Fixpoint to_list (c : chain K V) : option (list entry) :=
  match c with Null => Some [] | Dangling => None | Entry d k v c => l ← to_list c; Some ((d, k, v) :: l) end.
Fixpoint placed (i : nat) (L : list (list entry)) : bool :=
  match L with [] => true | l :: L => forallb (fun e => bool_decide (slot (entry_key e) = i)) l && placed (S i) L end.
Definition tidy (t : ena_hash_table K V) (L : list (list entry)) : bool :=
  bool_decide (length L = 32%nat) && (num_buckets t =? 32) && (num_entries t =? Z.of_nat (length (concat L))) &&
  forallb (fun e => bool_decide (proper (entry_key e))) (concat L) && placed 0 L.
(** The table maps the keys of [dom] as [spec] does, and has no other. *)
Definition table_is (t : ena_hash_table K V) (dom : list K) (spec : K -> list V) : bool :=
  match mapM to_list (buckets t) with
  | Some L => tidy t L && forallb (fun k => bool_decide (assoc k (concat L) = spec k)) (map entry_key (concat L) ++ dom)
  | None => false
  end.

Lemma to_list_sound c : forall l, to_list c = Some l -> c = of_list l.
Proof.
  induction c as [|d k v c IH|]; intros l; cbn; [by intros [= <-] | |done]. destruct (to_list c) as [l'|]; [|done]. intros [= <-]. cbn. f_equal. by apply IH.
Qed.
Lemma assoc_absent k (l : list entry) : k ∉ map entry_key l -> assoc k l = [].
Proof.
  induction l as [|[[d k'] v] l IH]; [done|]. cbn. rewrite elem_of_cons. intros Hk. destruct (decide (k = k')) as [Hd|Hd]; [naive_solver|]. apply IH. naive_solver.
Qed.
Lemma placed_assoc k L : forall i, placed i L = true ->
  assoc k (concat L) = if decide (slot k < i)%nat then [] else assoc k (default [] (L !! (slot k - i)%nat)).
Proof.
  induction L as [|l L IH]; intros i Hp; cbn [concat]; [by destruct (decide _)|]. cbn in Hp. apply andb_true_iff in Hp as [Hl Hp].
  rewrite assoc_app, (IH _ Hp). assert (Hne : slot k <> i -> assoc k l = []).
  { intros Hk. apply assoc_absent. intros Hin. apply list_elem_of_In, in_map_iff in Hin as (e & <- & He).
    rewrite forallb_forall in Hl. by apply Hl, bool_decide_eq_true in He. }
  destruct (decide (slot k < i)%nat) as [Hi|Hi].
  - rewrite decide_True by lia. by rewrite Hne by lia.
  - destruct (decide (slot k = i)) as [<-|Hi']; [rewrite decide_True by lia; rewrite Nat.sub_diag, app_nil_r; done|].
    rewrite decide_False, (Hne Hi') by lia. replace (slot k - i)%nat with (S (slot k - S i)) by lia. done.
Qed.
Lemma table_is_sound t dom spec : table_is t dom spec = true -> (forall k, k ∉ dom -> spec k = []) ->
  exists L, holds t L /\ forall k, contents L k = spec k.
Proof.
  unfold table_is, tidy. destruct (mapM to_list (buckets t)) as [L|] eqn:EL; [|done]. rewrite !andb_true_iff, !forallb_forall, !Z.eqb_eq.
  intros [((((Hlen & Hb) & Hn) & Hp) & Hpl) Hspec] Hout. apply bool_decide_eq_true in Hlen. exists L. split.
  - split; [|done..|].
    + clear - EL. apply mapM_Some in EL. induction EL as [|c l cs L' Hc _ IH]; [done|]. cbn. f_equal; [by apply to_list_sound | done].
    + intros i l Hl. apply Forall_forall. intros e He. apply (bool_decide_eq_true (proper (entry_key e))), Hp, in_concat. exists l.
      split; apply list_elem_of_In; [by eapply list_elem_of_lookup_2 | done].
  - intros k. unfold contents. pose proof (placed_assoc k L 0 Hpl) as Ha. rewrite decide_False, Nat.sub_0_r in Ha by lia. rewrite <- Ha.
    destruct (decide (k ∈ map entry_key (concat L) ++ dom)) as [Hin|Hin].
    + apply (bool_decide_eq_true (assoc k (concat L) = spec k)), Hspec. by apply list_elem_of_In.
    + rewrite elem_of_app in Hin. rewrite assoc_absent, Hout; naive_solver.
Qed.
End Tables.
Import Heap Eval.

#[export] Instance ident_proper_dec (k : Z) : Decision (proper k) := Z_le_dec 0 k.
#[export] Instance name_proper_dec (s : list Z) : Decision (proper s) := Forall_dec (fun c => 0 < c) s.

(** ** The names of an interpreter *)

Definition interned_b (v : ena_vm) (names : list (list Z)) : bool :=
  (next_ident v =? IDENT_START + Z.of_nat (length names)) && forallb (fun s => bool_decide (proper s)) names &&
  (num_entries (cstr2ident v) =? Z.of_nat (length names)) && (num_entries (ident2cstr v) =? Z.of_nat (length names)) &&
  table_is (cstr2ident v) names (fun s => option_list (place s names IDENT_START)) &&
  table_is (ident2cstr v) (map (fun i => IDENT_START + Z.of_nat i) (seq 0 (length names))) (fun id => option_list (name_of names id)).
Lemma name_of_bound names id : id ∉ map (fun i => IDENT_START + Z.of_nat i) (seq 0 (length names)) -> name_of names id = None.
Proof.
  intros Hid. unfold name_of. destruct (Z.ltb_spec id IDENT_START) as [|Hge]; [done|]. apply lookup_ge_None_2.
  destruct (decide (length names <= Z.to_nat (id - IDENT_START))%nat) as [|Hlt]; [done|]. destruct Hid. apply list_elem_of_In, in_map_iff.
  exists (Z.to_nat (id - IDENT_START)). split; [lia|]. apply in_seq. lia.
Qed.
Lemma interned_sound v names : interned_b v names = true -> interned v names.
Proof.
  unfold interned_b. rewrite !andb_true_iff, !Z.eqb_eq, forallb_forall. intros (((((H1 & H2) & H3) & H4) & H5) & H6). split; [done| | |].
  - apply Forall_forall. intros s Hs. by apply (bool_decide_eq_true (proper s)), H2, list_elem_of_In.
  - destruct (table_is_sound _ _ _ H5) as (L & HL & Hc); [|by exists L]. intros s Hs. by rewrite (proj2 (place_None _ _ _) Hs).
  - destruct (table_is_sound _ _ _ H6) as (L & HL & Hc); [|exists L; split; [done|]; split; [intros id _; apply Hc | done]].
    intros id Hid. by rewrite name_of_bound.
Qed.

(** ** The interpreter that [main] sets up *)

Definition get_obj (v : ena_vm) (p : Z) : option ena_object := match index_of v p with Some i => pool v !! i | None => None end.
Lemma get_obj_at v p o : get_obj v p = Some o -> flags o <> 0 -> obj_at v p o.
Proof. unfold get_obj. destruct (index_of v p) as [i|] eqn:E; [|done]. intros Hi Ho. by exists i. Qed.
Definition module_scope (v : ena_vm) (p : Z) : option (Z * Z) :=
  match get_obj v p with Some (Object fl (D_module next scope)) => if fl =? type_code ENA_T_MODULE then Some (next, scope) else None | _ => None end.
Lemma module_scope_sound v p next scope : module_scope v p = Some (next, scope) -> obj_at v p (Object (type_code ENA_T_MODULE) (D_module next scope)).
Proof.
  unfold module_scope. destruct (get_obj v p) as [[fl d]|] eqn:E; [|done]. destruct d; try done. destruct (Z.eqb_spec fl (type_code ENA_T_MODULE)) as [->|]; [|done].
  intros [= -> ->]. by apply get_obj_at.
Qed.

(** A host without pointers in its registers and on its stack. *)
Definition quiet_host : Host :=
  {| arch_load_regs _ := []; stack_words _ := []; arch_get_stack_bottom := 0x7ff0; userdata_free _ := Done tt |}.
#[local] Existing Instance quiet_host.
(** The pool is at 4096. *)
Definition started : outcome (Z * ena_vm) :=
  v <-- ena_create_vm 1 4096 ;; (module <- ena_create_module 1 ;; ena_register_module 1 module ;;; ret module) v.
Definition started_vm : ena_vm := match started with Done (_, v) => v | _ => new_vm 0 end.
Definition started_module : Z := match started with Done (m, _) => m | _ => 0 end.
(** The names in the order of their identifiers. *)
Definition names_of (v : ena_vm) : list (list Z) :=
  omap (fun i => match (e <-- ena_hash_search (ident2cstr v) (IDENT_START + Z.of_nat i) ;; match e with Some e => entry_value (ident2cstr v) e | None => Undef end) with
                 | Done s => Some s | _ => None end) (seq 0 (Z.to_nat (next_ident v - IDENT_START))).
Definition started_names : list (list Z) := names_of started_vm.
Lemma started_sane : sane started_vm.
Proof. split; [rewrite NOBJ_eq; vm_compute; reflexivity | vm_compute; done | vm_compute; reflexivity]. Qed.
Lemma started_interned : interned started_vm started_names.
Proof. apply interned_sound. vm_compute. reflexivity. Qed.
