(* ===== verification/EnaWhile.v ===== *)
(** * ena: scripts with variables and loops

    The lexer, the parser, the hash tables, the heap and the evaluator together.  Scripts
    with variables, conditions and loops over integers and booleans have a semantics of
    their own, [exec], that knows nothing of tokens, trees, objects or tables; the text
    of such a script, given to [ena_eval], has the same output and ends in the same
    way ([script_runs]). *)
From S2P Require Import Prelude EnaLexer EnaParser EnaGrammar EnaHash EnaHeap EnaGc EnaEval EnaIdent EnaRun EnaStart.
From stdpp Require Import gmap.
From Stdlib Require String.
Import Lex Parser Hash Heap Eval.
Import String.StringSyntax.
#[local] Open Scope Z_scope.

(** ** Syntax *)

Inductive exp :=
| Lit (w : list Z) (n : Z) | Bool (b : bool) | Var (x : list Z)
| BinE (op : int_op) (a b : exp) | NotE (a : exp) | AndE (a b : exp) | OrE (a b : exp).
Inductive stmt :=
| SVar (x : list Z) (e : exp) | SAssign (x : list Z) (e : exp) | SPrint (e : exp)
| SIf (c : exp) (b : block) | SWhile (c : exp) (b : block) | SBreak | SContinue
with block := Nil | Cons (s : stmt) (b : block).

Definition op_token (op : int_op) : ena_token_type :=
  match op with
  | I_add => T_PLUS | I_sub => T_MINUS | I_mul => T_ASTERISK | I_div => T_SLASH | I_mod => T_PERCENT
  | I_lt => T_LT | I_lte => T_LTE | I_gt => T_GT | I_gte => T_GTE | I_eq => T_DOUBLE_EQ | I_neq => T_NEQ
  end.
Definition op_node (op : int_op) : ena_node_type :=
  match op with
  | I_add => N_OP_ADD | I_sub => N_OP_SUB | I_mul => N_OP_MUL | I_div => N_OP_DIV | I_mod => N_OP_MOD
  | I_lt => N_OP_LT | I_lte => N_OP_LTE | I_gt => N_OP_GT | I_gte => N_OP_GTE | I_eq => N_OP_EQ | I_neq => N_OP_NEQ
  end.
Definition op_level (op : int_op) : blevel :=
  match op with I_add | I_sub => LAdd | I_mul | I_div | I_mod => LMul | I_eq | I_neq => LEq | _ => LCmp end.

(** The tokens, with parentheses around every operation, and the tree. *)
Abbreviation paren ts := ((T_LPAREN, chars "(") :: ts ++ [(T_RPAREN, chars ")")]).
Abbreviation braces ts := ((T_LBRACE, chars "{") :: ts ++ [(T_RBRACE, chars "}")]).
Abbreviation semi := (T_SEMICOLON, chars ";").
Fixpoint tokens (e : exp) : list tok :=
  match e with
  | Lit w _ => [(T_INT_LIT, w)]
  | Bool b => [if b then (T_TRUE, chars "true") else (T_FALSE, chars "false")]
  | Var x => [(T_ID, x)]
  | BinE op a b => paren (tokens a ++ (op_token op, op_text op) :: tokens b)
  | NotE a => paren ((T_NOT, chars "not") :: tokens a)
  | AndE a b => paren (tokens a ++ (T_AND, chars "and") :: tokens b)
  | OrE a b => paren (tokens a ++ (T_OR, chars "or") :: tokens b)
  end.
Fixpoint tree (e : exp) : ena_node :=
  match e with
  | Lit _ n => nd_int 1 n
  | Bool b => nd 1 (if b then N_TRUE else N_FALSE) []
  | Var x => nd_tok 1 N_ID T_ID x []
  | BinE op a b => nd 1 (op_node op) [tree a; tree b]
  | NotE a => nd 1 N_OP_NOT [tree a]
  | AndE a b => nd 1 N_OP_AND [tree a; tree b]
  | OrE a b => nd 1 N_OP_OR [tree a; tree b]
  end.
Fixpoint stmt_tokens (s : stmt) : list tok :=
  match s with
  | SVar x e => (T_VAR, chars "var") :: (T_ID, x) :: (T_EQ, chars "=") :: tokens e ++ [semi]
  | SAssign x e => ([(T_ID, x)] ++ (T_EQ, chars "=") :: tokens e) ++ [semi]
  | SPrint e => ([(T_ID, chars "print")] ++ paren (tokens e)) ++ [semi]
  | SIf c b => (T_IF, chars "if") :: tokens c ++ braces (block_tokens b)
  | SWhile c b => (T_WHILE, chars "while") :: tokens c ++ braces (block_tokens b)
  | SBreak => [(T_BREAK, chars "break"); semi]
  | SContinue => [(T_CONTINUE, chars "continue"); semi]
  end
with block_tokens (b : block) : list tok := match b with Nil => [] | Cons s b => stmt_tokens s ++ block_tokens b end.
Definition print_tree (e : exp) : ena_node :=
  nd 1 N_CALL [nd_tok 1 N_ID T_ID (chars "print") []; nd 1 N_EXPR_LIST [tree e]].
Fixpoint stmt_tree (s : stmt) : ena_node :=
  match s with
  | SVar x e => nd_tok 1 N_VAR T_ID x [tree e]
  | SAssign x e => nd 1 N_OP_ASSIGN [nd_tok 1 N_ID T_ID x []; tree e]
  | SPrint e => print_tree e
  | SIf c b => nd 1 N_IF [tree c; nd 1 N_STMTS (block_trees b)]
  | SWhile c b => nd 1 N_WHILE [tree c; nd 1 N_STMTS (block_trees b)]
  | SBreak => nd 1 N_BREAK []
  | SContinue => nd 1 N_CONTINUE []
  end
with block_trees (b : block) : list ena_node := match b with Nil => [] | Cons s b => stmt_tree s :: block_trees b end.

(** Literals are spelled with digits, and names are neither keywords nor taken. *)
Record name_ok (x : list Z) : Prop := NameOk { n_lexeme : lexeme T_ID x; n_print : x <> chars "print"; n_self : x <> chars "self" }.
Fixpoint exp_ok (e : exp) : Prop :=
  match e with
  | Lit w n => lexeme T_INT_LIT w /\ ena_str2int w = Done n /\ 0 <= n <= INT_MAX
  | Bool _ => True
  | Var x => name_ok x
  | BinE _ a b | AndE a b | OrE a b => exp_ok a /\ exp_ok b
  | NotE a => exp_ok a
  end.
Fixpoint stmt_ok (s : stmt) : Prop :=
  match s with
  | SVar x e | SAssign x e => name_ok x /\ exp_ok e
  | SPrint e => exp_ok e
  | SIf c b | SWhile c b => exp_ok c /\ block_ok b
  | SBreak | SContinue => True
  end
with block_ok (b : block) : Prop := match b with Nil => True | Cons s b => stmt_ok s /\ block_ok b end.

(** The names that occur. *)
Fixpoint exp_names (e : exp) : list (list Z) :=
  match e with
  | Lit _ _ | Bool _ => []
  | Var x => [x]
  | BinE _ a b | AndE a b | OrE a b => exp_names a ++ exp_names b
  | NotE a => exp_names a
  end.
Fixpoint stmt_names (s : stmt) : list (list Z) :=
  match s with
  | SVar x e | SAssign x e => x :: exp_names e
  | SPrint e => exp_names e
  | SIf c b | SWhile c b => exp_names c ++ block_names b
  | SBreak | SContinue => []
  end
with block_names (b : block) : list (list Z) := match b with Nil => [] | Cons s b => stmt_names s ++ block_names b end.

Scheme stmt_mut := Induction for stmt Sort Prop with block_mut := Induction for block Sort Prop.
Combined Scheme stmt_block_ind from stmt_mut, block_mut.

(** ** The text *)

Lemma tokens_primary e : exp_ok e -> derives 1 Primary false (tokens e) [tree e].
Proof.
  induction e as [w n|b|x|op a IHa b IHb|a IHa|a IHa b IHb|a IHa b IHb]; cbn [exp_ok tokens tree].
  - intros (_ & H & _). by apply d_int.
  - intros _. destruct b; [apply d_true | apply d_false].
  - intros _. apply d_id.
  - intros [Ha Hb]. specialize (IHa Ha). specialize (IHb Hb). apply (d_paren 1 _ false), d_equality.
    assert (Hbin : derives 1 (Bin (op_level op)) false (tokens a ++ (op_token op, op_text op) :: tokens b) [nd 1 (op_node op) [tree a; tree b]]).
    { apply d_binary; [destruct op; descend; exact IHa | by destruct op | destruct op; descend; exact IHb]. }
    destruct op; do 5 (try exact Hbin; apply d_operand; cbn [sub]); exact Hbin.
  - intros Ha. apply (d_paren 1 _ true), d_equality. descend. apply (d_not 1 _ false), d_equality. descend. by apply IHa.
  - intros [Ha Hb]. apply (d_paren 1 _ false), d_equality. do 2 (apply d_operand; cbn [sub]).
    apply (d_binary 1 LAnd); [descend; by apply IHa | done | descend; by apply IHb].
  - intros [Ha Hb]. apply (d_paren 1 _ false), d_equality. apply d_operand; cbn [sub].
    apply (d_binary 1 LOr); [descend; by apply IHa | done | descend; by apply IHb].
Qed.
Lemma tokens_expr e : exp_ok e -> derives 1 Expr false (tokens e) [tree e].
Proof. intros He. apply d_equality. descend. by apply tokens_primary. Qed.
Lemma text_derived : (forall s, stmt_ok s -> derives 1 Stmt false (stmt_tokens s) [stmt_tree s]) /\
  (forall b, block_ok b -> derives 1 Stmts false (block_tokens b) (block_trees b)).
Proof.
  apply stmt_block_ind; cbn [stmt_ok block_ok stmt_tokens block_tokens stmt_tree block_trees].
  - intros x e [_ He]. by apply (d_var_init 1 _ _ _ false), tokens_expr.
  - intros x e [_ He]. apply (d_expr_stmt 1 true). apply (d_assign 1 [(T_ID, x)] _ _ false); [|by apply tokens_expr]. descend. apply d_id.
  - intros e He. apply (d_expr_stmt 1 false), d_equality. to_unary. apply d_call; [apply d_primary, d_id|].
    by apply (d_exprs_one 1 false), tokens_expr.
  - intros c b IH [Hc Hb]. apply (d_if 1 _ false); [by apply tokens_expr | by apply d_block, IH].
  - intros c b IH [Hc Hb]. apply (d_while 1 _ false); [by apply tokens_expr | by apply d_block, IH].
  - intros _. apply d_break.
  - intros _. apply d_continue.
  - intros _. apply d_stmts_nil.
  - intros s IHs b IHb [Hs Hb]. apply d_stmts_cons; [by apply IHs | by apply IHb].
Qed.
Lemma tokens_lexemes e : exp_ok e -> Forall (fun t => lexeme t.1 t.2) (tokens e).
Proof.
  assert (Hp : forall ts, Forall (fun t : tok => lexeme t.1 t.2) ts -> Forall (fun t : tok => lexeme t.1 t.2) (paren ts)).
  { intros ts Hts. constructor; [cbn; lex_concrete|]. apply Forall_app. split; [done|]. constructor; [cbn; lex_concrete | done]. }
  induction e as [w n|b|x|op a IHa b IHb|a IHa|a IHa b IHb|a IHa b IHb]; cbn [exp_ok tokens].
  - intros (H & _). by repeat constructor.
  - intros _. constructor; [|done]. destruct b; cbn; lex_concrete.
  - intros [H _ _]. by repeat constructor.
  - intros [Ha Hb]. apply Hp, Forall_app. split; [by apply IHa|]. constructor; [|by apply IHb]. cbn. destruct op; cbn; try lex_concrete. apply lexeme_slash.
  - intros Ha. apply Hp. constructor; [cbn; lex_concrete | by apply IHa].
  - intros [Ha Hb]. apply Hp, Forall_app. split; [by apply IHa|]. constructor; [cbn; lex_concrete | by apply IHb].
  - intros [Ha Hb]. apply Hp, Forall_app. split; [by apply IHa|]. constructor; [cbn; lex_concrete | by apply IHb].
Qed.
Lemma block_lexemes : (forall s, stmt_ok s -> Forall (fun t => lexeme t.1 t.2) (stmt_tokens s)) /\
  (forall b, block_ok b -> Forall (fun t => lexeme t.1 t.2) (block_tokens b)).
Proof.
  assert (Hsemi : Forall (fun t : tok => lexeme t.1 t.2) [semi]) by (constructor; [cbn; lex_concrete | done]).
  apply stmt_block_ind; cbn [stmt_ok block_ok stmt_tokens block_tokens].
  - intros x e [Hx He]. do 3 (constructor; [first [apply Hx | cbn; lex_concrete]|]). apply Forall_app. split; [by apply tokens_lexemes | done].
  - intros x e [Hx He]. apply Forall_app. split; [|done]. cbn [app]. do 2 (constructor; [first [apply Hx | cbn; lex_concrete]|]). by apply tokens_lexemes.
  - intros e He. apply Forall_app. split; [|done]. cbn [app]. do 2 (constructor; [cbn; lex_concrete|]). apply Forall_app.
    split; [by apply tokens_lexemes | constructor; [cbn; lex_concrete | done]].
  - intros c b IH [Hc Hb]. constructor; [cbn; lex_concrete|]. apply Forall_app. split; [by apply tokens_lexemes|].
    constructor; [cbn; lex_concrete|]. apply Forall_app. split; [by apply IH | constructor; [cbn; lex_concrete | done]].
  - intros c b IH [Hc Hb]. constructor; [cbn; lex_concrete|]. apply Forall_app. split; [by apply tokens_lexemes|].
    constructor; [cbn; lex_concrete|]. apply Forall_app. split; [by apply IH | constructor; [cbn; lex_concrete | done]].
  - intros _. constructor; [cbn; lex_concrete | done].
  - intros _. constructor; [cbn; lex_concrete | done].
  - done.
  - intros s IHs b IHb [Hs Hb]. apply Forall_app. split; [by apply IHs | by apply IHb].
Qed.

(** ** Semantics *)

Abbreviation env := (gmap (list Z) val).
Definition truth (w : val) : bool := match w with VB true => true | _ => false end.
(** The value of an expression, or the error. *)
Fixpoint eval_exp (s : env) (e : exp) : outcome (val + ena_error_type) :=
  let bind2 a b k :=
    x <-- eval_exp s a ;;
    match x with
    | inr err => Done (inr err)
    | inl x => y <-- eval_exp s b ;; match y with inr err => Done (inr err) | inl y => k x y end
    end in
  match e with
  | Lit _ n => Done (inl (VI n))
  | Bool b => Done (inl (VB b))
  | Var x => Done (match s !! x with Some w => inl w | None => inr ENA_ERROR_RUNTIME end)
  | BinE op a b => bind2 a b (den_bin op)
  | NotE a => x <-- eval_exp s a ;; Done (match x with inr err => inr err | inl x => inl (VB (negb (truth x))) end)
  | AndE a b => bind2 a b (fun x y => Done (inl (VB (truth x && truth y))))
  | OrE a b => bind2 a b (fun x y => Done (inl (VB (truth x || truth y))))
  end.

(** How a statement ends. *)
Inductive signal := Next | Break | Continue | Fail (err : ena_error_type).
(** The variables, the output, and the number of objects that may still be created. *)
Record config := Config { c_env : env; c_out : list print_item; c_room : Z }.

(** An expression creates at most two objects per node. *)
Fixpoint nodes (e : exp) : nat :=
  match e with Lit _ _ | Bool _ | Var _ => 1 | BinE _ a b | AndE a b | OrE a b => S (nodes a + nodes b) | NotE a => S (nodes a) end.
Definition cost (e : exp) : Z := 2 * Z.of_nat (nodes e).
Definition spend (k : Z) (c : config) : outcome config :=
  if k <=? c_room c then Done (Config (c_env c) (c_out c) (c_room c - k)) else Panic.

Section Exec.
(** The value of [e] goes to [k], an error ends the statement. *)
Definition with_value (e : exp) (c : config) (k : val -> config -> outcome (signal * config)) : outcome (signal * config) :=
  c <-- spend (cost e) c ;;
  r <-- eval_exp (c_env c) e ;;
  match r with inr err => Done (Fail err, c) | inl w => k w c end.
Definition set_var (x : list Z) (w : val) (c : config) : config := Config (<[x := w]> (c_env c)) (c_out c) (c_room c).
Fixpoint loop (body : config -> outcome (signal * config)) (e : exp) (n : nat) (c : config) : outcome (signal * config) :=
  match n with
  | O => Fuel
  | S n =>
      with_value e c (fun w c =>
        if truth w then
          r <-- body c ;;
          match r with
          | (Next, c) | (Continue, c) => loop body e n c
          | (Break, c) => Done (Next, c)
          | (Fail err, c) => Done (Fail err, c)
          end
        else Done (Next, c))
  end.
Fixpoint exec_block (exec : stmt -> config -> outcome (signal * config)) (b : block) (c : config) : outcome (signal * config) :=
  match b with
  | Nil => Done (Next, c)
  | Cons s b => r <-- exec s c ;; match r with (Next, c) => exec_block exec b c | r => Done r end
  end.
Fixpoint exec (fuel : nat) (s : stmt) (c : config) : outcome (signal * config) :=
  match fuel with
  | O => Fuel
  | S fuel =>
      match s with
      | SVar x e =>
          with_value e c (fun w c =>
            match c_env c !! x with Some _ => Done (Fail ENA_ERROR_RUNTIME, c) | None => Done (Next, set_var x w c) end)
      | SAssign x e =>
          with_value e c (fun w c =>
            match c_env c !! x with Some _ => Done (Next, set_var x w c) | None => Done (Fail ENA_ERROR_RUNTIME, c) end)
      | SPrint e =>
          with_value e c (fun w c => c <-- spend 1 c ;; Done (Next, Config (c_env c) (c_out c ++ [item w; P_newline]) (c_room c)))
      | SIf e b => with_value e c (fun w c => if truth w then exec_block (exec fuel) b c else Done (Next, c))
      | SWhile e b => loop (exec_block (exec fuel) b) e fuel c
      | SBreak => Done (Break, c)
      | SContinue => Done (Continue, c)
      end
  end.
End Exec.

(** ** The state of the interpreter *)

(** Objects that are not scopes stay. *)
Definition keeps_objects (v v' : ena_vm) : Prop := forall p o, obj_at v p o -> flags o <> type_code ENA_T_SCOPE -> obj_at v' p o.
Lemma keeps_vals v v' x w : keeps_objects v v' -> is_val v x w -> is_val v' x w.
Proof. intros Hk. destruct w as [n|b]; [|done]. intros [Hn|Ho]; [by left | right; by apply Hk]. Qed.
(** What evaluation does not change. *)
Record frame (v v' : ena_vm) : Prop := Frame {
  fr_scope : current_scope v' = current_scope v;
  fr_points : unwind_points v' = unwind_points v;
  fr_frames : current_frame v' = current_frame v;
  fr_objects : keeps_objects v v'
}.
Lemma frame_refl v : frame v v.
Proof. split; [done..|]. by intros p o. Qed.
Lemma frame_trans v1 v2 v3 : frame v1 v2 -> frame v2 v3 -> frame v1 v3.
Proof. intros [A1 A2 A3 A4] [B1 B2 B3 B4]. split; [congruence | congruence | congruence |]. intros p o Ho Hf. by apply B4; [apply A4|]. Qed.
Lemma fr_vals v v' x w : frame v v' -> is_val v x w -> is_val v' x w.
Proof. intros Hf. apply keeps_vals, (fr_objects _ _ Hf). Qed.

Section World.
Context `{Host}.
Variable gf : nat.
Hypothesis gf_large : (2 <= gf)%nat.
(** The names that are interned, now or later. *)
Variable known : list (list Z).
Hypothesis known_small : Z.of_nat (length known) < INT_MAX.
Hypothesis known_self : chars "self" ∈ known.

(** The entry of a name in the scope. *)
Definition entry_ok (v : ena_vm) (pf : Z) (s : env) (x : option (list Z)) (c : list Z) : Prop :=
  match x with
  | None => c = []
  | Some x =>
      if decide (x = chars "print") then c = [pf]
      else match s !! x with Some w => exists p, c = [p] /\ is_val v p w | None => c = [] end
  end.
(** The method for an operator. *)
Definition op_ready (v : ena_vm) (names : list (list Z)) (op : int_op) : Prop :=
  exists id tb e2 f sc, place (op_text op) names IDENT_START = Some id /\
    obj_at v (int_class v) (Object (type_code ENA_T_CLASS) (D_class tb)) /\ ena_hash_search tb id = Done (Some e2) /\
    entry_value tb e2 = Done f /\ obj_at v f (Object (type_code ENA_T_FUNC) (D_func 3 id sc (Native_body (N_int op)))).
Record scope_ok (v : ena_vm) (s : env) (names : list (list Z)) (vars : ident_table) (L : list (list (Z * Z * Z))) (pf : Z) : Prop := ScopeOk {
  so_obj : obj_at v (current_scope v) (Object (type_code ENA_T_SCOPE) (D_scope vars 0));
  so_holds : holds vars L;
  so_num : num_entries vars <= Z.of_nat (S (size s));
  so_vars : forall id, 0 <= id -> entry_ok v pf s (name_of names id) (contents L id);
  so_dom : forall x, is_Some (s !! x) -> x ∈ names /\ x <> chars "print"
}.
(** The interpreter between two steps of a script, with the names it has interned. *)
Record world (s : env) (names : list (list Z)) (v : ena_vm) : Prop := World {
  w_sane : sane v;
  w_interned : interned v names;
  w_nodup : NoDup names;
  w_known : forall x, x ∈ names -> x ∈ known;
  w_ops : forall op, op_ready v names op;
  w_print : chars "print" ∈ names;
  w_scope : exists vars L pf psc, scope_ok v s names vars L pf /\
    obj_at v pf (Object (type_code ENA_T_FUNC) (D_func 2 IDENT_ANONYMOUS psc (Native_body N_print)))
}.

Lemma entry_keeps v v' pf s x c : keeps_objects v v' -> entry_ok v pf s x c -> entry_ok v' pf s x c.
Proof.
  intros Hk. destruct x as [x|]; [|done]. unfold entry_ok. destruct (decide (x = chars "print")); [done|].
  destruct (s !! x); [|done]. intros (p & -> & Hp). exists p. split; [done|]. by eapply keeps_vals.
Qed.
Lemma op_keeps v v' names op : keeps_objects v v' -> int_class v' = int_class v -> op_ready v names op -> op_ready v' names op.
Proof.
  intros Hk Hi (id & tb & e2 & f & sc & H1 & H2 & H3 & H4 & H5). exists id, tb, e2, f, sc. rewrite Hi.
  split; [done|]. split; [by apply Hk|]. do 2 (split; [done|]). by apply Hk.
Qed.
Lemma interned_same v v' names : next_ident v' = next_ident v -> cstr2ident v' = cstr2ident v -> ident2cstr v' = ident2cstr v ->
  interned v names -> interned v' names.
Proof. intros E1 E2 E3 [H1 H2 H3 H4]. split; [by rewrite E1 | done | by rewrite E2 | by rewrite E3]. Qed.

(** New objects. *)
Lemma world_grows k s names v v' : grows k v v' -> world s names v -> world s names v' /\ frame v v' /\ output v' = output v.
Proof.
  intros Hg [Hs Hi Hd Hk Hop Hpr (vars & L & pf & psc & [S1 S2 S3 S4 S5] & Hpf)].
  assert (Hko : keeps_objects v v') by (intros p o Ho _; by eapply obj_at_grows).
  destruct (grows_fields _ _ _ Hg) as (F1 & F2 & F3 & F4 & F5 & F6 & F7 & F8 & _).
  split; [|by split].
  split; [by eapply grows_sane | | done | done | intros op; by apply (op_keeps v) | done |].
  - apply (interned_same v); [|done..|done]. by destruct Hg as (? & ? & ? & -> & _).
  - exists vars, L, pf, psc. split; [|by apply Hko].
    split; [rewrite F5; by eapply obj_at_grows | done | done | intros id Hid; by apply (entry_keeps v), S4 | done].
Qed.

(** A name is interned. *)
Lemma place_bounds x names id : place x names IDENT_START = Some id -> 0 <= id /\ name_of names id = Some x.
Proof.
  intros Hp. destruct (place_Some _ _ _ _ Hp) as (n & -> & Hn). unfold name_of, IDENT_START. split; [lia|].
  rewrite (proj2 (Z.ltb_ge _ _)) by lia. by replace (Z.to_nat (100 + Z.of_nat n - 100)) with n by lia.
Qed.
Lemma names_small s names v : world s names v -> Z.of_nat (length names) < INT_MAX.
Proof.
  intros Hw. assert (length names <= length known)%nat; [|lia].
  apply submseteq_length, NoDup_submseteq; [apply (w_nodup _ _ _ Hw) | apply (w_known _ _ _ Hw)].
Qed.
Lemma name_of_app names new id : 0 <= id ->
  name_of (names ++ new) id = name_of names id \/ (name_of names id = None /\ exists x, name_of (names ++ new) id = Some x /\ x ∈ new) \/
  name_of names id = None /\ name_of (names ++ new) id = None.
Proof.
  intros Hid. unfold name_of. destruct (id <? IDENT_START); [by left|]. destruct (decide (Z.to_nat (id - IDENT_START) < length names)%nat) as [Hlt|Hge].
  - left. by rewrite lookup_app_l.
  - right. rewrite (lookup_ge_None_2 names) by lia. rewrite lookup_app_r by lia. destruct (new !! _) as [x|] eqn:E; [left | by right].
    split; [done|]. exists x. split; [done|]. by eapply list_elem_of_lookup_2.
Qed.
Lemma world_intern s names v x : world s names v -> x ∈ known -> proper x ->
  exists id v' names', ena_cstr2ident x v = Done (id, v') /\ world s names' v' /\ names `prefix_of` names' /\ place x names' IDENT_START = Some id /\
    frame v v' /\ output v' = output v /\ num_free v' = num_free v.
Proof.
  intros Hw Hx Hp. pose proof (names_small _ _ _ Hw) as Hlen. destruct Hw as [Hs Hi Hd Hk Hop Hpr (vars & L & pf & psc & [S1 S2 S3 S4 S5] & Hpf)].
  destruct (intern_one x v names Hi Hd Hp Hlen) as (id & v' & new & E & Hi' & Hd' & Hnew & Hpl & (n & i2c & c2i & ->)).
  set (v' := set_idents n i2c c2i v) in *. exists id, v', (names ++ new). split; [done|].
  assert (Hko : keeps_objects v v') by (intros p o Ho _; by apply (obj_at_same v)).
  split; [|split; [by eexists|]; split; [done|]; by split].
  assert (Hn : forall y, y ∈ new -> y = x) by (destruct Hnew as [-> | ->]; intros y Hy; [by apply not_elem_of_nil in Hy | by apply list_elem_of_singleton in Hy]).
  split; [by apply (sane_same v) | done | done | | | apply elem_of_app; by left |].
  - intros y [Hy|Hy]%elem_of_app; [by apply Hk|]. by rewrite (Hn y Hy).
  - intros op. destruct (Hop op) as (id' & tb & e2 & f & sc & H1 & H2 & H3). apply (op_keeps v); [done | done|]. exists id', tb, e2, f, sc.
    split; [by apply place_app | done].
  - exists vars, L, pf, psc. split; [|by apply Hko]. split; [by apply (obj_at_same v) | done | done | | intros y Hy; destruct (S5 y Hy); split; [apply elem_of_app; by left | done]].
    intros i Hid. apply (entry_keeps v); [done|]. specialize (S4 i Hid).
    destruct (name_of_app names new i Hid) as [->|[[E0 (y & -> & Hy)]|[E0 ->]]]; [done| |by rewrite E0 in S4].
    rewrite E0 in S4. cbn in S4. rewrite S4. unfold entry_ok.
    assert (Hny : y ∉ names) by (apply NoDup_app in Hd' as (_ & Hdis & _); intros Hin; by eapply Hdis).
    rewrite decide_False by (intros ->; done). destruct (s !! y) eqn:Ey; [|done]. destruct (S5 y) as [Hin _]; [by rewrite Ey|]. done.
Qed.

(** The scope has other variables. *)
Lemma scope_of_ok v sc vars par : obj_at v sc (Object (type_code ENA_T_SCOPE) (D_scope vars par)) -> scope_of sc v = Done ((vars, par), v).
Proof. intros Ho. unfold scope_of. by rewrite (bind_step _ _ _ _ _ (object_at_ok _ _ _ Ho)). Qed.
Lemma scope_nonzero v sc o : sane v -> obj_at v sc o -> (sc =? 0) = false.
Proof.
  intros Hs (i & [_ ->]%index_of_spec & _). apply Z.eqb_neq. destruct (s_base _ Hs). unfold addr_of, SIZEOF_OBJECT. lia.
Qed.
Lemma world_update s names v x w id p vars vars' L L' pf psc :
  world s names v -> scope_ok v s names vars L pf ->
  obj_at v pf (Object (type_code ENA_T_FUNC) (D_func 2 IDENT_ANONYMOUS psc (Native_body N_print))) ->
  place x names IDENT_START = Some id -> x <> chars "print" -> is_val v p w ->
  holds vars' L' -> num_entries vars' <= Z.of_nat (S (size (<[x := w]> s))) ->
  (forall k, contents L' k = if decide (k = id) then [p] else contents L k) ->
  exists v', set_data (current_scope v) (D_scope vars' 0) v = Done (tt, v') /\ world (<[x := w]> s) names v' /\ frame v v' /\
    output v' = output v /\ num_free v' = num_free v.
Proof.
  intros Hw [S1 S2 S3 S4 S5] Hpf Hpl Hnp Hp Hh Hnum Hc. destruct S1 as (i & Hidx & Hi & Hnz). pose proof (w_sane _ _ _ Hw) as Hs.
  eexists. split; [exact (set_data_index v _ i _ (D_scope vars' 0) Hidx Hi)|]. cbn [flags]. set (o := Object _ _). set (v' := set_pool _ v).
  assert (Hlt : (i < length (pool v))%nat) by (by eapply lookup_lt_Some).
  assert (Hko : keeps_objects v v').
  { intros q o' (j & Hq & Hj & Hz) Hf. exists j. split; [done|]. split; [|done]. cbn. rewrite list_lookup_insert_ne; [done|].
    intros <-. rewrite Hi in Hj. by injection Hj as <-. }
  assert (Hfr : frame v v') by done.
  split; [|by split]. destruct Hw as [_ Hin Hd Hk Hop Hpr _].
  split; [| by apply (interned_same v) | done | done | intros op; by apply (op_keeps v) | done |].
  - destruct Hs as [H1 H2 H3]. split; [cbn; by rewrite length_insert | done|]. cbn.
    pose proof (free_count_insert (pool v) i _ o Hi) as Hfc. cbn [flags o] in Hfc. rewrite decide_False in Hfc by done. lia.
  - exists vars', L', pf, psc. split; [|by apply Hko]. split; [exists i; split; [done|]; split; [by apply list_lookup_insert_eq | done] | done | done | |].
    + intros k Hk0. rewrite Hc. apply (entry_keeps v); [done|]. destruct (decide (k = id)) as [->|Hne].
      * destruct (place_bounds _ _ _ Hpl) as [_ ->]. unfold entry_ok. rewrite decide_False by done. rewrite lookup_insert_eq. eauto.
      * specialize (S4 k Hk0). destruct (name_of names k) as [y|] eqn:Ey; [|done]. unfold entry_ok in *. destruct (decide (y = chars "print")); [done|].
        rewrite lookup_insert_ne; [done|]. intros <-. apply Hne. clear S4 Hc.
        unfold name_of in Ey. destruct (Z.ltb_spec k IDENT_START); [done|]. destruct (place_Some _ _ _ _ Hpl) as (m & -> & Hm).
        pose proof (NoDup_lookup _ _ _ _ Hd Ey Hm). lia.
    + intros y Hy. destruct (decide (y = x)) as [->|Hne]; [|rewrite lookup_insert_ne in Hy by done; by apply S5].
      split; [|done]. destruct (place_Some _ _ _ _ Hpl) as (n & _ & Hn). by eapply list_elem_of_lookup_2.
Qed.

(** ** Variables *)

(** The search for a variable ends in the scope or finds nothing. *)
Lemma lookup_var_ok s names v x id vars L pf : world s names v -> scope_ok v s names vars L pf -> place x names IDENT_START = Some id ->
  match contents L id with
  | [] => lookup_var gf (current_scope v) id v = Done (None, v) /\ ena_hash_search vars id = Done None
  | p :: r => exists e, lookup_var gf (current_scope v) id v = Done (Some (current_scope v, e), v) /\ ena_hash_search vars id = Done (Some e) /\ entry_value vars e = Done p /\
      forall q, exists t' L', set_entry_value vars e q = Done t' /\ holds t' L' /\ num_entries t' = num_entries vars /\
        forall k, contents L' k = if decide (k = id) then q :: r else contents L k
  end.
Proof.
  intros Hw [S1 S2 S3 S4 S5] Hpl. destruct (place_bounds _ _ _ Hpl) as [Hid _]. pose proof (search_holds vars L id S2 Hid) as Hs.
  pose proof (scope_of_ok _ _ _ _ S1) as Eo. pose proof (scope_nonzero _ _ _ (w_sane _ _ _ Hw) S1) as Ez.
  destruct gf as [|[|g]]; [lia..|]. cbn [lookup_var]. rewrite Ez, (bind_step _ _ _ _ _ Eo). unfold lift. cbn [fst snd].
  destruct (contents L id) as [|p r].
  - split; [|done]. unfold bind. by rewrite Hs.
  - destruct Hs as (e & Hf & Hv & Hset). exists e. split; [unfold bind; by rewrite Hf | done].
Qed.
Lemma entry_found v pf s names id c x : entry_ok v pf s (name_of names id) c -> place x names IDENT_START = Some id -> x <> chars "print" ->
  match s !! x with Some w => exists p, c = [p] /\ is_val v p w | None => c = [] end.
Proof. intros He Hpl Hx. destruct (place_bounds _ _ _ Hpl) as [_ E]. rewrite E in He. cbn in He. by rewrite decide_False in He. Qed.
Lemma world_get s names v x id : world s names v -> place x names IDENT_START = Some id -> x <> chars "print" ->
  match s !! x with
  | Some w => exists p, ena_get_var_value gf (current_scope v) id v = Done (p, v) /\ is_val v p w
  | None => ena_get_var_value gf (current_scope v) id v = Done (ENA_UNDEFINED, v)
  end.
Proof.
  intros Hw Hpl Hx. destruct (w_scope _ _ _ Hw) as (vars & L & pf & psc & Hsc & _). pose proof (lookup_var_ok _ _ _ _ _ _ _ _ Hw Hsc Hpl) as Hl.
  pose proof (entry_found _ _ _ _ _ _ _ (so_vars _ _ _ _ _ _ Hsc id (proj1 (place_bounds _ _ _ Hpl))) Hpl Hx) as He. unfold ena_get_var_value.
  destruct (s !! x) as [w|].
  - destruct He as (p & Eq & Hp). rewrite Eq in Hl. destruct Hl as (e & El & _ & Ev & _). exists p. split; [|done].
    rewrite (bind_step _ _ _ _ _ El), (bind_step _ _ _ _ _ (scope_of_ok _ _ _ _ (so_obj _ _ _ _ _ _ Hsc))). unfold lift. cbn [fst]. by rewrite Ev.
  - rewrite He in Hl. by rewrite (bind_step _ _ _ _ _ (proj1 Hl)).
Qed.
Lemma world_set s names v x id p w : world s names v -> place x names IDENT_START = Some id -> x <> chars "print" -> is_val v p w ->
  match s !! x with
  | Some _ => exists v', ena_set_var_value gf (current_scope v) id p v = Done (true, v') /\ world (<[x := w]> s) names v' /\ frame v v' /\
      output v' = output v /\ num_free v' = num_free v
  | None => ena_set_var_value gf (current_scope v) id p v = Done (false, v)
  end.
Proof.
  intros Hw Hpl Hx Hp. destruct (w_scope _ _ _ Hw) as (vars & L & pf & psc & Hsc & Hpf). pose proof (lookup_var_ok _ _ _ _ _ _ _ _ Hw Hsc Hpl) as Hl.
  pose proof (entry_found _ _ _ _ _ _ _ (so_vars _ _ _ _ _ _ Hsc id (proj1 (place_bounds _ _ _ Hpl))) Hpl Hx) as He. unfold ena_set_var_value.
  destruct (s !! x) as [w0|] eqn:Ex.
  - destruct He as (q & Eq & _). rewrite Eq in Hl. destruct Hl as (e & El & _ & Ev & Hset). destruct (Hset p) as (t' & L' & Et & Hh & Hn & Hc).
    destruct (world_update s names v x w id p vars t' L L' pf psc) as (v' & E' & Hw' & Hf & Ho & Hnf); try done.
    { rewrite Hn, map_size_insert, Ex. apply (so_num _ _ _ _ _ _ Hsc). }
    exists v'. split; [|done].
    rewrite (bind_step _ _ _ _ _ El), (bind_step _ _ _ _ _ (scope_of_ok _ _ _ _ (so_obj _ _ _ _ _ _ Hsc))). cbn [fst snd].
    rewrite (bind_step _ _ v t' v) by (unfold lift; by rewrite Et). by rewrite (bind_step _ _ _ _ _ E').
  - rewrite He in Hl. by rewrite (bind_step _ _ _ _ _ (proj1 Hl)).
Qed.
Lemma size_known s names v : world s names v -> (S (size s) <= length names)%nat.
Proof.
  intros Hw. destruct (w_scope _ _ _ Hw) as (vars & L & pf & psc & Hsc & _). pose proof (so_dom _ _ _ _ _ _ Hsc) as Hdom.
  assert (E : size ({[chars "print"]} ∪ dom s : gset (list Z)) = S (size s)).
  { rewrite size_union, size_singleton, size_dom; [done|]. apply disjoint_singleton_l. intros Hin%elem_of_dom. by destruct (Hdom _ Hin). }
  rewrite <- E, <- (size_list_to_set (C := gset (list Z)) names) by apply (w_nodup _ _ _ Hw). apply subseteq_size.
  intros x [->%elem_of_singleton|Hx%elem_of_dom]%elem_of_union; apply elem_of_list_to_set; [apply (w_print _ _ _ Hw) | by apply Hdom].
Qed.
Lemma world_define s names v x id p w : world s names v -> place x names IDENT_START = Some id -> x <> chars "print" -> is_val v p w ->
  match s !! x with
  | None => exists v', ena_define_var (current_scope v) id p v = Done (Ok tt, v') /\ world (<[x := w]> s) names v' /\ frame v v' /\
      output v' = output v /\ num_free v' = num_free v
  | Some _ => exists v', ena_define_var (current_scope v) id p v = Done (Error, v') /\ error_type v' = ENA_ERROR_RUNTIME /\ output v' = output v
  end.
Proof.
  intros Hw Hpl Hx Hp. destruct (w_scope _ _ _ Hw) as (vars & L & pf & psc & Hsc & Hpf). pose proof (lookup_var_ok _ _ _ _ _ _ _ _ Hw Hsc Hpl) as Hl.
  destruct (place_bounds _ _ _ Hpl) as [Hid _]. pose proof (size_known _ _ _ Hw) as Hsz. pose proof (names_small _ _ _ Hw) as Hsm.
  pose proof (entry_found _ _ _ _ _ _ _ (so_vars _ _ _ _ _ _ Hsc id Hid) Hpl Hx) as He. unfold ena_define_var.
  rewrite (ev_io _ _ _ _ _ (scope_of_ok _ _ _ _ (so_obj _ _ _ _ _ _ Hsc))). cbn [fst snd]. unfold ena_hash_search_or_insert.
  destruct (s !! x) as [w0|] eqn:Ex.
  - destruct He as (q & Eq & _). rewrite Eq in Hl. destruct Hl as (e & _ & Ef & _). rewrite Ef.
    rewrite (ev_io _ _ v (Some e, vars) v) by done. destruct (place_Some _ _ _ _ Hpl) as (n & -> & Hn).
    rewrite (ev_io _ _ _ _ _ (interned_ident2cstr v names n x (w_interned _ _ _ Hw) Hn)). by eexists.
  - rewrite He in Hl. destruct Hl as [_ Ef]. rewrite Ef. cbn [outcome_bind]. pose proof (so_num _ _ _ _ _ _ Hsc) as Hnum.
    destruct (insert_holds vars L id p (so_holds _ _ _ _ _ _ Hsc) Hid) as (t' & L' & Et & Hh & Hn & Hc); [lia|].
    rewrite Et. rewrite (ev_io _ _ v (None, t') v) by done.
    destruct (world_update s names v x w id p vars t' L L' pf psc) as (v' & E' & Hw' & Hf & Ho & Hnf); try done.
    { rewrite Hn, map_size_insert, Ex. lia. }
    { intros k. rewrite Hc, He. done. }
    exists v'. split; [|done]. unfold io. by rewrite (bind_step _ _ _ _ _ E').
Qed.

(** ** Expressions *)

(** From one state of a script to another, with at most [k] new objects. *)
Record moves (k : Z) (s : env) (names : list (list Z)) (v : ena_vm) (s' : env) (names' : list (list Z)) (v' : ena_vm) : Prop := Moves {
  m_world : world s' names' v';
  m_names : names `prefix_of` names';
  m_frame : frame v v';
  m_free : num_free v - k <= num_free v'
}.
Lemma moves_refl s names v : world s names v -> moves 0 s names v s names v.
Proof. intros Hw. split; [done | done | apply frame_refl | lia]. Qed.
Lemma moves_trans k1 k2 s1 n1 v1 s2 n2 v2 s3 n3 v3 : moves k1 s1 n1 v1 s2 n2 v2 -> moves k2 s2 n2 v2 s3 n3 v3 -> moves (k1 + k2) s1 n1 v1 s3 n3 v3.
Proof.
  intros [A1 A2 A3 A4] [B1 B2 B3 B4]. split; [done | by etransitivity | by eapply frame_trans | lia].
Qed.
Lemma moves_le k k' s n v s' n' v' : k <= k' -> moves k s n v s' n' v' -> moves k' s n v s' n' v'.
Proof. intros Hk [A1 A2 A3 A4]. split; [done | done | done | lia]. Qed.
Lemma moves_grows k s names v v' : grows k v v' -> world s names v -> moves k s names v s names v' /\ output v' = output v.
Proof.
  intros Hg Hw. destruct (world_grows k s names v v' Hg Hw) as (Hw' & Hf & Ho). split; [|done].
  split; [done | done | done | by apply grows_free].
Qed.
Lemma moves_place k s names v s' names' v' x id : moves k s names v s' names' v' -> place x names IDENT_START = Some id -> place x names' IDENT_START = Some id.
Proof. intros [_ [l ->] _ _] Hx. by apply place_app. Qed.
Lemma moves_intern s names v x : world s names v -> x ∈ known -> proper x ->
  exists id v' names', ena_cstr2ident x v = Done (id, v') /\ moves 0 s names v s names' v' /\ place x names' IDENT_START = Some id /\ output v' = output v.
Proof.
  intros Hw Hx Hp. destruct (world_intern s names v x Hw Hx Hp) as (id & v' & names' & E & Hw' & Hn & Hpl & Hf & Ho & Hnf).
  exists id, v', names'. split; [done|]. split; [|done]. split; [done | done | done | lia].
Qed.

(** The value of an expression, or its error. *)
Definition gives_exp (r : outcome (val + ena_error_type)) (k : Z) (s : env) (names : list (list Z)) (v : ena_vm) (res : outcome (flow Z * ena_vm)) : Prop :=
  match r with
  | Done (inl w) => exists x v' names', res = Done (Ok x, v') /\ moves k s names v s names' v' /\ output v' = output v /\ is_val v' x w
  | Done (inr err) => exists v', res = Done (Error, v') /\ error_type v' = err /\ output v' = output v
  | _ => True
  end.
Lemma gives_grown r k s names v res : world s names v -> gives r k v res -> gives_exp r k s names v res.
Proof.
  intros Hw. unfold gives, gives_exp. destruct r as [[w|err]| | |]; try done. intros (x & v' & E & Hg & Hx).
  destruct (moves_grows k s names v v' Hg Hw) as [Hm Ho]. by exists x, v', names.
Qed.
Lemma gives_moves r k k1 s names v names1 v1 res : moves k1 s names v s names1 v1 -> output v1 = output v ->
  gives_exp r k s names1 v1 res -> gives_exp r (k1 + k) s names v res.
Proof.
  intros Hm Ho. unfold gives_exp. destruct r as [[w|err]| | |]; try done.
  - intros (x & v' & names' & E & Hm' & Ho' & Hx). exists x, v', names'. split; [done|]. split; [by eapply moves_trans|]. by rewrite Ho', Ho.
  - intros (v' & E & He & Ho'). exists v'. by rewrite Ho', Ho.
Qed.
Lemma gives_exp_le r k k' s names v res : k <= k' -> gives_exp r k s names v res -> gives_exp r k' s names v res.
Proof.
  intros Hk. unfold gives_exp. destruct r as [[w|err]| | |]; try done. intros (x & v' & names' & E & Hm & Ho & Hx).
  exists x, v', names'. split; [done|]. split; [by eapply moves_le | done].
Qed.
Lemma ready_of_world s names v op : world s names v -> ready_op v op.
Proof.
  intros Hw. destruct (w_ops _ _ _ Hw op) as (id & tb & e2 & f & sc & Hpl & H1 & H2 & H3 & H4). exists id, tb, e2, f, sc. split; [|done].
  destruct (in_c2i _ _ (w_interned _ _ _ Hw)) as (L & HL & Hc & _).
  assert (Hp : proper (op_text op)) by (destruct op; repeat constructor).
  pose proof (search_holds _ _ (op_text op) HL Hp) as Hs. rewrite Hc, Hpl in Hs. destruct Hs as (e & He & Hv & _). eauto.
Qed.
Lemma value_defined v x w : sane v -> is_val v x w -> (x =? ENA_UNDEFINED) = false.
Proof.
  intros Hs. destruct w as [n|[|]]; cbn; [|by intros ->..]. intros [[Hn ->]|Ho]; [|by eapply scope_nonzero].
  destruct (small_int n Hn) as [-> | [-> | ->]]; done.
Qed.
Lemma id_proper x : lexeme T_ID x -> proper x.
Proof.
  intros Hx. remember T_ID as t eqn:Et. destruct Hx as [c w Hc Hw|c w Hc Hw|b Hb|c t Hc|c eq plain Hc|c eq plain Hc| |]; try discriminate Et.
  - constructor; [apply id_start_range in Hc; lia|]. eapply Forall_impl; [exact Hw|]. intros d Hd%id_char_range. lia.
  - subst. unfold single in Hc. repeat case_match; discriminate Hc.
  - subst. unfold double in Hc. repeat case_match; discriminate Hc.
  - subst. unfold double in Hc. repeat case_match; discriminate Hc.
Qed.

Lemma eval_var_ok s names v x fuel : world s names v -> name_ok x -> x ∈ known -> ENA_GC_THRESHOLD <= num_free v ->
  gives_exp (eval_exp s (Var x)) 1 s names v (eval_node gf (S fuel) (tree (Var x)) v).
Proof.
  intros Hw [Hlex Hnp Hns] Hx Hn. cbn [eval_node tree n_type nd_tok eval_exp]. unfold eval_ID.
  rewrite (ev_io _ _ v x v) by done.
  destruct (moves_intern s names v x Hw Hx (id_proper x Hlex)) as (id & v1 & names1 & E1 & M1 & P1 & O1). rewrite (ev_io _ _ _ _ _ E1).
  rewrite (ev_io get _ v1 v1 v1) by done. pose proof (m_world _ _ _ _ _ _ _ M1) as W1. pose proof (world_get _ _ _ _ _ W1 P1 Hnp) as Hg.
  pose proof (m_free _ _ _ _ _ _ _ M1) as F1.
  apply (gives_moves _ 1 0 s names v names1 v1); [done | done|]. destruct (s !! x) as [w|].
  - destruct Hg as (p & Eg & Hp). rewrite (ev_io _ _ _ _ _ Eg). rewrite (value_defined v1 p w (w_sane _ _ _ W1) Hp). unfold copy_if_immutable.
    rewrite (ev_io _ _ _ _ _ (get_type_val v1 p w (w_sane _ _ _ W1) Hp)). destruct w as [n|b]; cbn [val_type].
    + rewrite (ev_io _ _ _ _ _ (to_int_ok v1 p n (w_sane _ _ _ W1) Hp)). apply gives_grown; [done|].
      destruct (create_int_ok gf v1 n (w_sane _ _ _ W1)) as (z & v2 & E2 & G2 & Z2); [lia|]. exists z, v2. split; [|done].
      unfold io. by rewrite (bind_step _ _ _ _ _ E2).
    + exists p, v1, names1. split; [done|]. split; [apply (moves_le 0); [lia | by apply moves_refl] | done].
  - rewrite (ev_io _ _ _ _ _ Hg). change (ENA_UNDEFINED =? ENA_UNDEFINED) with true. cbv iota.
    destruct (moves_intern s names1 v1 (chars "self") W1 known_self) as (id2 & v2 & names2 & E2 & M2 & P2 & O2); [repeat constructor|].
    rewrite (ev_io _ _ _ _ _ E2). pose proof (moves_place _ _ _ _ _ _ _ _ _ M2 P1) as P1'.
    destruct (place_Some _ _ _ _ P1') as (n1 & -> & Hn1). destruct (place_Some _ _ _ _ P2) as (n2 & -> & Hn2).
    rewrite (proj2 (Z.eqb_neq _ _)) by (intros Heq; replace n2 with n1 in Hn2 by lia; congruence).
    rewrite (ev_io _ _ _ _ _ (interned_ident2cstr v2 names2 n1 x (w_interned _ _ _ (m_world _ _ _ _ _ _ _ M2)) Hn1)). by eexists.
Qed.

Lemma truth_ok v x w : sane v -> is_val v x w -> (x =? ENA_TRUE) = truth w.
Proof.
  intros Hs. destruct w as [n|[|]]; cbn; [|by intros ->..]. intros [[Hn ->]|(i & Hi & _)].
  - destruct (small_int n Hn) as [-> | [-> | ->]]; done.
  - destruct (s_base _ Hs) as (Hb1 & Hb2 & _). by destruct (addr_not_const v x i Hb1 Hb2 Hi) as (_ & ? & _).
Qed.
(** Both operands, and what is done with their values. *)
Definition exp_runs (fuel : nat) (s : env) (e : exp) : Prop := forall names v, world s names v -> ENA_GC_THRESHOLD + cost e <= num_free v ->
  gives_exp (eval_exp s e) (cost e) s names v (eval_node gf fuel (tree e) v).
Lemma operands_ok fuel s a b k kv names v : exp_runs fuel s a -> exp_runs fuel s b ->
  (forall x y w u names' v', world s names' v' -> is_val v' x w -> is_val v' y u -> ENA_GC_THRESHOLD + 2 <= num_free v' ->
    gives_exp (kv w u) 2 s names' v' (k x y v')) ->
  world s names v -> ENA_GC_THRESHOLD + (cost a + (cost b + 2)) <= num_free v ->
  gives_exp (x <-- eval_exp s a ;; match x with inr err => Done (inr err) | inl x =>
      y <-- eval_exp s b ;; match y with inr err => Done (inr err) | inl y => kv x y end end) (cost a + (cost b + 2)) s names v
    ((lhs <~ eval_node gf fuel (tree a) ;; rhs <~ eval_node gf fuel (tree b) ;; k lhs rhs) v).
Proof.
  intros Ha Hb Hk Hw Hn. assert (0 <= cost a /\ 0 <= cost b) as [? ?] by (unfold cost; lia).
  specialize (Ha names v Hw ltac:(lia)). destruct (eval_exp s a) as [[w|err]| | |]; try done;
    [|destruct Ha as (v' & E & He); exists v'; by rewrite (ev_error _ _ _ _ E)].
  destruct Ha as (x & v1 & n1 & E1 & M1 & O1 & X1). rewrite (ev_ok _ _ _ _ _ E1). cbn [outcome_bind].
  apply (gives_moves _ _ _ _ _ _ _ _ _ M1 O1). pose proof (m_free _ _ _ _ _ _ _ M1) as F1. pose proof (m_world _ _ _ _ _ _ _ M1) as W1.
  specialize (Hb n1 v1 W1 ltac:(lia)). destruct (eval_exp s b) as [[u|err]| | |]; try done;
    [|destruct Hb as (v' & E & He); exists v'; by rewrite (ev_error _ _ _ _ E)].
  destruct Hb as (y & v2 & n2 & E2 & M2 & O2 & Y2). rewrite (ev_ok _ _ _ _ _ E2). cbn [outcome_bind].
  apply (gives_moves _ _ _ _ _ _ _ _ _ M2 O2). pose proof (m_free _ _ _ _ _ _ _ M2) as F2.
  apply Hk; [apply (m_world _ _ _ _ _ _ _ M2) | by apply (fr_vals _ _ _ _ (m_frame _ _ _ _ _ _ _ M2)) | done | lia].
Qed.
Lemma bool_ok k s names v b : world s names v -> 0 <= k -> gives_exp (Done (inl (VB b))) k s names v (ok (ena_create_bool b) v).
Proof. intros Hw Hk. exists (ena_create_bool b), v, names. split; [done|]. split; [apply (moves_le 0); [done | by apply moves_refl] | done]. Qed.
Lemma logical_ok fuel s a b f names v : exp_runs fuel s a -> exp_runs fuel s b -> world s names v ->
  ENA_GC_THRESHOLD + (cost a + (cost b + 2)) <= num_free v ->
  gives_exp (x <-- eval_exp s a ;; match x with inr err => Done (inr err) | inl x =>
      y <-- eval_exp s b ;; match y with inr err => Done (inr err) | inl y => Done (inl (VB (f (truth x) (truth y)))) end end)
    (cost a + (cost b + 2)) s names v
    ((lhs <~ eval_node gf fuel (tree a) ;; rhs <~ eval_node gf fuel (tree b) ;; ok (ena_create_bool (f (lhs =? ENA_TRUE) (rhs =? ENA_TRUE)))) v).
Proof.
  intros Ha Hb Hw Hn. apply (operands_ok fuel s a b _ (fun x y => Done (inl (VB (f (truth x) (truth y)))))); [done | done | | done | done].
  intros x y w u names' v' Hw' Hx Hy Hn'. pose proof (w_sane _ _ _ Hw') as Hs. rewrite (truth_ok v' x w Hs Hx), (truth_ok v' y u Hs Hy). by apply bool_ok.
Qed.
Lemma cost_operands a b : 2 * Z.of_nat (S (nodes a + nodes b)) = cost a + (cost b + 2).
Proof. unfold cost. lia. Qed.
(** The operands of an operation run. *)
Ltac both_operands fuel s a b IHa IHb Hok Hkn Hn := destruct Hok as [Ha Hb];
  assert (exp_runs fuel s a) by (apply IHa; [done | intros; apply Hkn, elem_of_app; by left | lia]);
  assert (exp_runs fuel s b) by (apply IHb; [done | intros; apply Hkn, elem_of_app; by right | lia]);
  unfold cost at 1 in Hn; unfold cost at 1; cbn [nodes] in Hn |- *; rewrite cost_operands in Hn |- *.
Lemma eval_exp_ok s e : forall fuel, exp_ok e -> (forall x, x ∈ exp_names e -> x ∈ known) -> (nodes e <= fuel)%nat -> exp_runs fuel s e.
Proof.
  induction e as [w n|b|x|op a IHa b IHb|a IHa|a IHa b IHb|a IHa b IHb]; cbn [exp_ok exp_names nodes];
    intros fuel Hok Hkn Hf names v Hw Hn; (destruct fuel as [|fuel]; [lia|]).
  - apply gives_grown; [done|]. destruct (create_int_ok gf v n (w_sane _ _ _ Hw)) as (x & v' & E & Hg & Hx); [unfold cost in Hn; lia|].
    exists x, v'. split; [cbn; unfold io; by rewrite (bind_step _ _ _ _ _ E)|]. split; [by apply (grows_le 1) | done].
  - replace (eval_node gf (S fuel) (tree (Bool b)) v) with (@ok Z (ena_create_bool b) v) by (by destruct b). by apply bool_ok.
  - apply (gives_exp_le _ 1); [done|]. apply eval_var_ok; [done | done | apply Hkn, elem_of_cons; by left | unfold cost in Hn; lia].
  - both_operands fuel s a b IHa IHb Hok Hkn Hn. replace (eval_node gf (S fuel) (tree (BinE op a b)) v) with
      ((lhs <~ eval_node gf fuel (tree a) ;; rhs <~ eval_node gf fuel (tree b) ;; binop_tail gf (eval_node gf fuel) op lhs rhs) v) by (by destruct op).
    apply operands_ok; [done | done | | done | done].
    intros x y w u names' v' Hw' Hx Hy Hn'. apply gives_grown; [done|].
    apply binop_tail_ok; [apply (w_sane _ _ _ Hw') | lia | by eapply ready_of_world | done | done].
  - unfold cost in Hn |- *. cbn [nodes] in Hn |- *. replace (2 * Z.of_nat (S (nodes a))) with (cost a + 2) in * by (unfold cost; lia).
    assert (0 <= cost a) by (unfold cost; lia). pose proof (IHa fuel Hok Hkn ltac:(lia) names v Hw ltac:(lia)) as Ha. cbn [eval_exp].
    cbn [eval_node tree n_type nd]. unfold eval_OP_NOT. rewrite (ev_io _ _ v (tree a) v) by done.
    destruct (eval_exp s a) as [[w|err]| | |]; try done; [|destruct Ha as (v' & E & He); exists v'; by rewrite (ev_error _ _ _ _ E)].
    destruct Ha as (x & v1 & n1 & E1 & M1 & O1 & X1). rewrite (ev_ok _ _ _ _ _ E1). apply (gives_moves _ _ _ _ _ _ _ _ _ M1 O1).
    rewrite (truth_ok v1 x w (w_sane _ _ _ (m_world _ _ _ _ _ _ _ M1)) X1).
    replace (if truth w then ENA_FALSE else ENA_TRUE) with (ena_create_bool (negb (truth w))) by (by destruct (truth w)).
    apply bool_ok; [apply (m_world _ _ _ _ _ _ _ M1) | lia].
  - both_operands fuel s a b IHa IHb Hok Hkn Hn. by apply (logical_ok fuel s a b andb).
  - both_operands fuel s a b IHa IHb Hok Hkn Hn. by apply (logical_ok fuel s a b orb).
Qed.

(** ** Statements *)

(** States with the same heap and names. *)
Lemma world_same s names v v' : value_pool v' = value_pool v -> pool v' = pool v -> num_free v' = num_free v -> int_class v' = int_class v ->
  current_scope v' = current_scope v -> next_ident v' = next_ident v -> cstr2ident v' = cstr2ident v -> ident2cstr v' = ident2cstr v ->
  world s names v -> world s names v'.
Proof.
  intros E1 E2 E3 E4 E5 E6 E7 E8 [Hs Hi Hd Hk Hop Hpr (vars & L & pf & psc & [S1 S2 S3 S4 S5] & Hpf)].
  assert (Hko : keeps_objects v v') by (intros p o Ho _; by apply (obj_at_same v)).
  split; [by apply (sane_same v) | by apply (interned_same v) | done | done | intros op; by apply (op_keeps v) | done |].
  exists vars, L, pf, psc. split; [|by apply Hko]. split; [rewrite E5; by apply (obj_at_same v) | done | done | | done].
  intros id Hid. by apply (entry_keeps v), S4.
Qed.

(** The interpreter is in the state of the semantics. *)
Record at_config (c : config) (names : list (list Z)) (v : ena_vm) : Prop := AtConfig {
  ac_world : world (c_env c) names v;
  ac_out : output v = c_out c;
  ac_room : ENA_GC_THRESHOLD + c_room c <= num_free v
}.
Definition flow_of {A} (sg : signal) (x : A) : flow A :=
  match sg with Break => Unwind ENA_UNWIND_BREAK | Continue => Unwind ENA_UNWIND_CONTINUE | _ => Ok x end.
(** A step of the evaluator ends as the semantics says. *)
Definition ends {A} (sg : signal) (c' : config) (names : list (list Z)) (v : ena_vm) (res : outcome (flow A * ena_vm)) : Prop :=
  match sg with
  | Fail err => exists v', res = Done (Error, v') /\ error_type v' = err /\ output v' = c_out c'
  | _ => exists x v' names', res = Done (flow_of sg x, v') /\ at_config c' names' v' /\ names `prefix_of` names' /\ frame v v'
  end.
Lemma ends_after {A} sg c' names v names1 v1 (res : outcome (flow A * ena_vm)) : names `prefix_of` names1 -> frame v v1 ->
  ends sg c' names1 v1 res -> ends sg c' names v res.
Proof.
  intros Hn Hf. destruct sg; try done; intros (x & v' & names' & E & Ha & Hn' & Hf'); exists x, v', names';
    (split; [done|]; split; [done|]; split; [by etransitivity | by eapply frame_trans]).
Qed.
Lemma ends_next {A} c names v (x : A) : at_config c names v -> ends Next c names v (Done (Ok x, v)).
Proof. intros Ha. exists x, v, names. split; [done|]. split; [done|]. split; [done | apply frame_refl]. Qed.
(** What follows a step in the evaluator. *)
Lemma ends_then {A B} sg c' names v (m : ev A) (y : B) : ends sg c' names v (m v) -> ends sg c' names v ((m ~; ok y) v).
Proof.
  destruct sg; cbn [ends flow_of]; [intros (x & v' & names' & E & H1)..|intros (v' & E & H1)].
  - exists y, v', names'. split; [|done]. by rewrite (ev_ok _ _ _ _ _ E).
  - exists y, v', names'. split; [|done]. unfold ev_bind. by rewrite (bind_step _ _ _ _ _ E).
  - exists y, v', names'. split; [|done]. unfold ev_bind. by rewrite (bind_step _ _ _ _ _ E).
  - exists v'. split; [|done]. by rewrite (ev_error _ _ _ _ E).
Qed.

Lemma spend_ok k c c' : spend k c = Done c' -> 0 <= k -> k <= c_room c /\ c' = Config (c_env c) (c_out c) (c_room c - k).
Proof. unfold spend. destruct (Z.leb_spec k (c_room c)); [|done]. intros [= <-] _. done. Qed.
(** The value of an expression goes to [k], or the error ends the statement. *)
Lemma with_value_cases e c k sg c' fuel names v :
  with_value e c k = Done (sg, c') -> at_config c names v -> exp_ok e -> (forall x, x ∈ exp_names e -> x ∈ known) -> (nodes e <= fuel)%nat ->
  (exists err v', sg = Fail err /\ eval_node gf fuel (tree e) v = Done (Error, v') /\ error_type v' = err /\ output v' = c_out c') \/
  exists w c1 x names1 v1, eval_node gf fuel (tree e) v = Done (Ok x, v1) /\ k w c1 = Done (sg, c') /\ names `prefix_of` names1 /\ frame v v1 /\
    at_config c1 names1 v1 /\ is_val v1 x w.
Proof.
  unfold with_value. intros E [Hw Ho Hr] He Hkn Hf. destruct (spend (cost e) c) as [c1| | |] eqn:Esp; try done. cbn [outcome_bind] in E.
  destruct (spend_ok _ _ _ Esp) as [Hle ->]; [unfold cost; lia|]. cbn [c_env] in E.
  pose proof (eval_exp_ok (c_env c) e fuel He Hkn Hf names v Hw ltac:(lia)) as Hx.
  destruct (eval_exp (c_env c) e) as [[w|err]| | |]; try done; cbn [outcome_bind] in E.
  - right. destruct Hx as (x & v1 & names1 & E1 & [M1 M2 M3 M4] & O1 & X1). do 5 eexists. split; [exact E1|]. split; [exact E|].
    split; [done|]. split; [done|]. split; [|exact X1]. split; [done | by rewrite O1 | cbn; lia].
  - left. injection E as <- <-. destruct Hx as (v' & E' & Hv' & Ho'). exists err, v'. do 3 (split; [done|]). by rewrite Ho', Ho.
Qed.
Lemma with_value_ok {B} e c k sg c' fuel names v (kv : Z -> ev B) :
  with_value e c k = Done (sg, c') -> at_config c names v -> exp_ok e -> (forall x, x ∈ exp_names e -> x ∈ known) -> (nodes e <= fuel)%nat ->
  (forall w c1 x names1 v1, k w c1 = Done (sg, c') -> names `prefix_of` names1 -> frame v v1 -> at_config c1 names1 v1 -> is_val v1 x w ->
    ends sg c' names1 v1 (kv x v1)) ->
  ends sg c' names v ((x <~ eval_node gf fuel (tree e) ;; kv x) v).
Proof.
  intros E Ha He Hkn Hf Hk. destruct (with_value_cases _ _ _ _ _ _ _ _ E Ha He Hkn Hf) as [(err & v' & -> & E' & Hv')|(w & c1 & x & names1 & v1 & E1 & Ek & Hn1 & Hf1 & Ha1 & Hx)].
  - exists v'. split; [by rewrite (ev_error _ _ _ _ E') | done].
  - rewrite (ev_ok _ _ _ _ _ E1). apply (ends_after _ _ _ _ names1 v1); [done | done|]. by eapply Hk.
Qed.

(** Interning the name that a statement begins with. *)
Lemma config_intern c names v x : at_config c names v -> x ∈ known -> proper x ->
  exists id v' names', ena_cstr2ident x v = Done (id, v') /\ at_config c names' v' /\ names `prefix_of` names' /\ frame v v' /\ place x names' IDENT_START = Some id.
Proof.
  intros [Hw Ho Hr] Hx Hp. destruct (moves_intern _ _ _ _ Hw Hx Hp) as (id & v' & names' & E & [M1 M2 M3 M4] & P & O).
  exists id, v', names'. split; [done|]. split; [split; [done | by rewrite O | lia] | done].
Qed.
Lemma config_set c names v x w v' : at_config c names v -> world (<[x := w]> (c_env c)) names v' -> output v' = output v -> num_free v' = num_free v ->
  at_config (set_var x w c) names v'.
Proof. intros [Hw Ho Hr] Hw' Ho' Hn'. split; [done | by rewrite Ho' | cbn; lia]. Qed.
Lemma exec_var_ok x e c sg c' fuel names v :
  with_value e c (fun w c => match c_env c !! x with Some _ => Done (Fail ENA_ERROR_RUNTIME, c) | None => Done (Next, set_var x w c) end) = Done (sg, c') ->
  at_config c names v -> name_ok x -> exp_ok e -> (forall y, y ∈ x :: exp_names e -> y ∈ known) -> (nodes e <= fuel)%nat ->
  ends sg c' names v (eval_node gf (S fuel) (stmt_tree (SVar x e)) v).
Proof.
  intros E Ha [Hlex Hnp Hns] He Hkn Hf. cbn [eval_node stmt_tree n_type nd_tok]. unfold eval_VAR. rewrite (ev_io _ _ v x v) by done.
  destruct (config_intern c names v x Ha) as (id & v0 & names0 & E0 & Ha0 & Hn0 & Hf0 & P0); [apply Hkn, elem_of_cons; by left | by apply id_proper|].
  rewrite (ev_io _ _ _ _ _ E0). apply (ends_after _ _ _ _ names0 v0); [done | done|].
  refine (with_value_ok e c _ sg c' fuel names0 v0 (fun x => v <~ io get ;; ena_define_var (current_scope v) id x ~; ok ENA_UNDEFINED) E Ha0 He _ Hf _).
  { intros y Hy. apply Hkn, elem_of_cons. by right. }
  intros w c1 p names1 v1 Ek Hn1 Hf1 Ha1 Hp. rewrite (ev_io get _ v1 v1 v1) by done. apply ends_then.
  assert (P1 : place x names1 IDENT_START = Some id) by (destruct Hn1 as [l ->]; by apply place_app).
  pose proof (world_define _ _ _ _ _ p w (ac_world _ _ _ Ha1) P1 Hnp Hp) as Hd.
  destruct (c_env c1 !! x) as [w0|]; injection Ek as <- <-.
  - destruct Hd as (v2 & E2 & Ev & Eo). exists v2. split; [done|]. split; [done|]. by rewrite Eo, (ac_out _ _ _ Ha1).
  - destruct Hd as (v2 & E2 & Hw2 & Hf2 & Ho2 & Hn2). exists tt, v2, names1. split; [done|]. split; [by eapply config_set | done].
Qed.
Lemma exec_assign_ok x e c sg c' fuel names v :
  with_value e c (fun w c => match c_env c !! x with Some _ => Done (Next, set_var x w c) | None => Done (Fail ENA_ERROR_RUNTIME, c) end) = Done (sg, c') ->
  at_config c names v -> name_ok x -> exp_ok e -> (forall y, y ∈ x :: exp_names e -> y ∈ known) -> (nodes e <= fuel)%nat ->
  ends sg c' names v (eval_node gf (S fuel) (stmt_tree (SAssign x e)) v).
Proof.
  intros E Ha [Hlex Hnp Hns] He Hkn Hf. cbn [eval_node stmt_tree n_type nd]. unfold eval_OP_ASSIGN. rewrite (ev_io _ _ v (tree e) v) by done.
  apply (with_value_ok e c _ sg c' fuel names v _ E Ha He); [intros y Hy; apply Hkn, elem_of_cons; by right | done|].
  intros w c1 p names1 v1 Ek Hn1 Hf1 Ha1 Hp. rewrite (ev_io _ _ v1 (nd_tok 1 N_ID T_ID x []) v1) by done. cbn [n_type nd_tok].
  rewrite (ev_io _ _ v1 x v1) by done.
  destruct (config_intern c1 names1 v1 x Ha1) as (id & v2 & names2 & E2 & Ha2 & Hn2 & Hf2 & P2); [apply Hkn, elem_of_cons; by left | by apply id_proper|].
  rewrite (ev_io _ _ _ _ _ E2). rewrite (ev_io get _ v2 v2 v2) by done. apply (ends_after _ _ _ _ names2 v2); [done | done|].
  pose proof (world_set _ _ _ _ _ p w (ac_world _ _ _ Ha2) P2 Hnp (fr_vals _ _ _ _ Hf2 Hp)) as Hset.
  destruct (c_env c1 !! x) as [w0|]; injection Ek as <- <-.
  - destruct Hset as (v3 & E3 & Hw3 & Hf3 & Ho3 & Hn3). rewrite (ev_io _ _ _ _ _ E3). exists p, v3, names2. split; [done|]. split; [by eapply config_set | done].
  - rewrite (ev_io _ _ _ _ _ Hset). destruct (place_Some _ _ _ _ P2) as (n & -> & Hn).
    rewrite (ev_io _ _ _ _ _ (interned_ident2cstr v2 names2 n x (w_interned _ _ _ (ac_world _ _ _ Ha2)) Hn)).
    eexists. split; [reflexivity|]. split; [done|]. apply (ac_out _ _ _ Ha2).
Qed.

(** [print] is found. *)
Lemma world_print s names v : world s names v -> exists id pf psc, ena_cstr2ident (chars "print") v = Done (id, v) /\
  ena_get_var_value gf (current_scope v) id v = Done (pf, v) /\
  obj_at v pf (Object (type_code ENA_T_FUNC) (D_func 2 IDENT_ANONYMOUS psc (Native_body N_print))).
Proof.
  intros Hw. destruct (w_scope _ _ _ Hw) as (vars & L & pf & psc & Hsc & Hpf).
  destruct (place (chars "print") names IDENT_START) as [id|] eqn:Hpl; [|by apply place_None in Hpl; destruct (Hpl (w_print _ _ _ Hw))].
  exists id, pf, psc. split; [apply (interned_old v names); [apply (w_interned _ _ _ Hw) | repeat constructor | done]|]. split; [|done].
  pose proof (lookup_var_ok _ _ _ _ _ _ _ _ Hw Hsc Hpl) as Hl. destruct (place_bounds _ _ _ Hpl) as [Hid Hnm].
  pose proof (so_vars _ _ _ _ _ _ Hsc id Hid) as He. rewrite Hnm in He. cbn in He. rewrite decide_True in He by done. rewrite He in Hl.
  destruct Hl as (e & El & _ & Ev & _). unfold ena_get_var_value. rewrite (bind_step _ _ _ _ _ El).
  rewrite (bind_step _ _ _ _ _ (scope_of_ok _ _ _ _ (so_obj _ _ _ _ _ _ Hsc))). unfold lift. cbn [fst]. by rewrite Ev.
Qed.
Lemma eval_one_arg {B} (m : ev Z) (k : list Z -> ev B) v :
  ev_bind (ev_bind m (fun x => ev_bind (ok []) (fun xs => ok (x :: xs)))) k v = (x <~ m ;; k [x]) v.
Proof. unfold ev_bind, bind. destruct (m v) as [[[x|u|] v']| | |]; done. Qed.
Lemma exec_print_ok e c sg c' fuel names v :
  with_value e c (fun w c => c <-- spend 1 c ;; Done (Next, Config (c_env c) (c_out c ++ [item w; P_newline]) (c_room c))) = Done (sg, c') ->
  at_config c names v -> exp_ok e -> (forall y, y ∈ exp_names e -> y ∈ known) -> (nodes e <= fuel)%nat ->
  ends sg c' names v (eval_node gf (S fuel) (stmt_tree (SPrint e)) v).
Proof.
  intros E Ha He Hkn Hf. destruct (world_print _ _ _ (ac_world _ _ _ Ha)) as (id & pf & psc & E1 & E2 & Hpf).
  cbn [eval_node stmt_tree print_tree n_type nd]. unfold eval_CALL. rewrite (ev_io _ _ v (nd_tok 1 N_ID T_ID (chars "print") []) v) by done.
  cbn [n_type nd_tok]. rewrite (ev_io _ _ v (chars "print") v) by done. rewrite (ev_io _ _ _ _ _ E1), (ev_io get _ v v v) by done.
  rewrite (ev_io _ _ _ _ _ E2). rewrite (ev_io _ _ _ _ _ (get_type_obj v pf _ ENA_T_FUNC (w_sane _ _ _ (ac_world _ _ _ Ha)) Hpf eq_refl)).
  rewrite (ev_io _ _ v (nd 1 N_EXPR_LIST [tree e]) v) by done. cbn [childs nd eval_each].
  rewrite eval_one_arg. apply (with_value_ok e c _ sg c' fuel names v _ E Ha He Hkn Hf).
  intros w c1 x names1 v1 Ek Hn1 Hf1 Ha1 Hx. destruct (spend 1 c1) as [c2| | |] eqn:Es; try done. cbn [outcome_bind] in Ek. injection Ek as <- <-.
  destruct (spend_ok _ _ _ Es ltac:(lia)) as [Hr ->]. cbn [c_env c_out c_room]. destruct Ha1 as [W1 O1 R1].
  destruct (call_print_ok gf (eval_node gf fuel) v1 pf psc x w (w_sane _ _ _ W1) ltac:(lia) Hx) as (v2 & E' & Hg); [by apply (fr_objects _ _ Hf1)|].
  destruct (world_grows _ _ _ _ _ Hg W1) as (W2 & F2 & O2). pose proof (grows_free _ _ _ Hg) as N2.
  eexists ENA_NULL, _, names1. split; [exact E'|]. split; [split; [by apply (world_same _ _ v2) | cbn; by rewrite O1 | cbn in *; lia]|].
  split; [done|]. destruct F2 as [A1 A2 A3 A4]. by split.
Qed.

(** The evaluator runs the statements that the semantics runs with fuel [F]. *)
Fixpoint stmt_nodes (s : stmt) : nat :=
  match s with
  | SVar _ e | SAssign _ e | SPrint e => nodes e
  | SIf c b | SWhile c b => Nat.max (nodes c) (block_nodes b)
  | SBreak | SContinue => 0
  end
with block_nodes (b : block) : nat := match b with Nil => 0 | Cons s b => Nat.max (stmt_nodes s) (block_nodes b) end.
Definition stmt_runs (F fuel : nat) : Prop := forall s c sg c' names v, exec F s c = Done (sg, c') -> at_config c names v -> stmt_ok s ->
  (forall x, x ∈ stmt_names s -> x ∈ known) -> (2 * F + stmt_nodes s <= fuel)%nat -> ends sg c' names v (eval_node gf fuel (stmt_tree s) v).
Lemma exec_block_ok F fuel b : stmt_runs F fuel -> forall c sg c' names v, exec_block (exec F) b c = Done (sg, c') -> at_config c names v -> block_ok b ->
  (forall x, x ∈ block_names b -> x ∈ known) -> (2 * F + block_nodes b <= fuel)%nat -> ends sg c' names v (eval_each (eval_node gf fuel) (block_trees b) v).
Proof.
  intros Hrun. induction b as [|s b IH]; intros c sg c' names v E Ha Hok Hkn Hf; cbn [exec_block block_trees eval_each block_ok block_names block_nodes] in *.
  - injection E as <- <-. by apply ends_next.
  - destruct Hok as [Hs Hb]. destruct (exec F s c) as [[sg1 c1]| | |] eqn:E1; try done. cbn [outcome_bind] in E.
    pose proof (Hrun s c sg1 c1 names v E1 Ha Hs ltac:(intros; apply Hkn, elem_of_app; by left) ltac:(lia)) as Hs1.
    destruct sg1; try (injection E as <- <-).
    + destruct Hs1 as (x & v1 & names1 & Ex & Ha1 & Hn1 & Hf1). rewrite (ev_ok _ _ _ _ _ Ex). apply (ends_after _ _ _ _ names1 v1); [done | done|].
      assert (Hb1 : ends sg c' names1 v1 (eval_each (eval_node gf fuel) (block_trees b) v1)).
      { apply (IH c1); [done | done | done | intros; apply Hkn, elem_of_app; by right | lia]. }
      destruct sg; cbn [ends flow_of] in Hb1 |- *; [destruct Hb1 as (xs & v' & names' & Exs & Hb1)..|destruct Hb1 as (v' & Exs & Hb1)].
      * exists (x :: xs), v', names'. split; [|done]. by rewrite (ev_ok _ _ _ _ _ Exs).
      * exists [], v', names'. split; [|done]. unfold ev_bind. by rewrite (bind_step _ _ _ _ _ Exs).
      * exists [], v', names'. split; [|done]. unfold ev_bind. by rewrite (bind_step _ _ _ _ _ Exs).
      * exists v'. split; [|done]. by rewrite (ev_error _ _ _ _ Exs).
    + destruct Hs1 as (x & v1 & names1 & Ex & Hs1). exists [], v1, names1. split; [|done]. unfold ev_bind. by rewrite (bind_step _ _ _ _ _ Ex).
    + destruct Hs1 as (x & v1 & names1 & Ex & Hs1). exists [], v1, names1. split; [|done]. unfold ev_bind. by rewrite (bind_step _ _ _ _ _ Ex).
    + destruct Hs1 as (v1 & Ex & Hs1). exists v1. split; [|done]. by rewrite (ev_error _ _ _ _ Ex).
Qed.
(** The node of a block. *)
Lemma exec_stmts_ok F fuel b c sg c' names v : stmt_runs F fuel -> exec_block (exec F) b c = Done (sg, c') -> at_config c names v -> block_ok b ->
  (forall x, x ∈ block_names b -> x ∈ known) -> (2 * F + block_nodes b <= fuel)%nat ->
  ends sg c' names v (eval_node gf (S fuel) (nd 1 N_STMTS (block_trees b)) v).
Proof. intros Hrun E Ha Hok Hkn Hf. cbn [eval_node n_type nd]. unfold eval_STMTS. cbn [childs]. apply ends_then. by eapply exec_block_ok. Qed.

Lemma exec_if_ok F fuel e b c sg c' names v : stmt_runs F fuel ->
  with_value e c (fun w c => if truth w then exec_block (exec F) b c else Done (Next, c)) = Done (sg, c') -> at_config c names v -> exp_ok e -> block_ok b ->
  (forall x, x ∈ exp_names e ++ block_names b -> x ∈ known) -> (nodes e <= S fuel)%nat -> (2 * F + block_nodes b <= fuel)%nat ->
  ends sg c' names v (eval_node gf (S (S fuel)) (stmt_tree (SIf e b)) v).
Proof.
  intros Hrun E Ha He Hb Hkn Hfe Hfb. cbn [stmt_tree]. remember (S fuel) as fuel1 eqn:Ef. cbn [eval_node n_type nd]. unfold eval_IF. rewrite (ev_io _ _ v (tree e) v) by done.
  apply (with_value_ok e c _ sg c' fuel1 names v _ E Ha He); [intros y Hy; apply Hkn, elem_of_app; by left | lia|].
  intros w c1 x names1 v1 Ek Hn1 Hf1 Ha1 Hx. rewrite (truth_ok v1 x w (w_sane _ _ _ (ac_world _ _ _ Ha1)) Hx). apply ends_then. destruct (truth w).
  - rewrite (ev_io _ _ v1 (nd 1 N_STMTS (block_trees b)) v1) by done. subst. apply (exec_stmts_ok F fuel b c1); try done. intros y Hy. apply Hkn, elem_of_app. by right.
  - injection Ek as <- <-. by apply ends_next.
Qed.
(** The rounds of a loop, and what the loop does with a jump to its point. *)
Definition while_handler (n : nat) (f : nat) (e b : ena_node) (t : ena_unwind_type) : ev unit :=
  match t with
  | ENA_UNWIND_BREAK => ok tt
  | ENA_UNWIND_CONTINUE => while_loop (eval_node gf f) n e b
  | ENA_UNWIND_RETURN => UNWIND_UNWIND_POINT t
  end.
Lemma loop_ok F fuel e b N own : stmt_runs F fuel -> exp_ok e -> block_ok b -> (forall x, x ∈ exp_names e ++ block_names b -> x ∈ known) ->
  (nodes e <= S fuel)%nat -> (2 * F + block_nodes b <= fuel)%nat ->
  forall n m k c sg c' names v, loop (exec_block (exec F) b) e n c = Done (sg, c') -> at_config c names v -> (n <= m)%nat -> (n <= k)%nat -> (n <= N)%nat ->
  length (unwind_points v) = own ->
  (sg = Next \/ exists err, sg = Fail err) /\
  ends sg c' names v (landing k own (while_handler N (S fuel) (tree e) (nd 1 N_STMTS (block_trees b)))
    (while_loop (eval_node gf (S fuel)) m (tree e) (nd 1 N_STMTS (block_trees b))) v).
Proof.
  intros Hrun He Hb Hkn Hfe Hfb. induction n as [|n IH]; intros m k c sg c' names v E Ha Hm Hk HN Hown; [done|].
  destruct m as [|m]; [lia|]. destruct k as [|k]; [lia|]. cbn [loop] in E. set (h := while_handler _ _ _ _).
  set (body := nd 1 N_STMTS (block_trees b)) in *. cbn [while_loop].
  destruct (with_value_cases _ _ _ _ _ (S fuel) names v E Ha He) as [(err & v' & -> & E' & Hv')|(w & c1 & x & names1 & v1 & E1 & Ek & Hn1 & Hf1 & Ha1 & Hx)];
    [intros y Hy; apply Hkn, elem_of_app; by left | done | |].
  { split; [by right; eexists|]. exists v'. split; [|done]. by apply landing_ok; [apply (ev_error _ _ _ _ E')|]. }
  pose proof (truth_ok v1 x w (w_sane _ _ _ (ac_world _ _ _ Ha1)) Hx) as Ht. destruct (truth w).
  2: { injection Ek as <- <-. split; [by left|]. rewrite (landing_ok _ _ _ _ v (Ok tt) v1); [|by rewrite (ev_ok _ _ _ _ _ E1), Ht | done].
       apply (ends_after _ _ _ _ names1 v1); [done | done|]. by apply ends_next. }
  destruct (exec_block (exec F) b c1) as [[sg2 c2]| | |] eqn:Eb; try done. cbn [outcome_bind] in Ek.
  assert (Hbody : ends sg2 c2 names1 v1 (eval_node gf (S fuel) body v1)).
  { apply (exec_stmts_ok F fuel b c1); try done. intros y Hy. apply Hkn, elem_of_app. by right. }
  assert (Hstep : forall own' k' h', landing k' own' h' (c <~ eval_node gf (S fuel) (tree e) ;;
      if c =? ENA_TRUE then eval_node gf (S fuel) body ~; while_loop (eval_node gf (S fuel)) m (tree e) body else ok tt) v =
    landing k' own' h' (eval_node gf (S fuel) body ~; while_loop (eval_node gf (S fuel)) m (tree e) body) v1).
  { intros own' k' h'. apply landing_cong. by rewrite (ev_ok _ _ _ _ _ E1), Ht. }
  rewrite Hstep. clear Hstep.
  destruct sg2; cbn [ends flow_of] in Hbody; [destruct Hbody as (y & v2 & names2 & E2 & Ha2 & Hn2 & Hf2)..|destruct Hbody as (v2 & E2 & Hv2)].
  - assert (Hp2 : length (unwind_points v2) = own) by (rewrite (fr_points _ _ Hf2), (fr_points _ _ Hf1); done).
    rewrite (landing_cong _ _ _ _ (while_loop (eval_node gf (S fuel)) m (tree e) body) v1 v2) by (by rewrite (ev_ok _ _ _ _ _ E2)).
    destruct (IH m (S k) c2 sg c' names2 v2 Ek Ha2 ltac:(lia) ltac:(lia) ltac:(lia) Hp2) as [Hsg Hends]. split; [done|].
    apply (ends_after _ _ _ _ names2 v2); [by etransitivity | by eapply frame_trans | done].
  - assert (Hp2 : length (unwind_points v2) = own) by (rewrite (fr_points _ _ Hf2), (fr_points _ _ Hf1); done).
    injection Ek as <- <-. split; [by left|]. rewrite (landing_lands _ _ _ _ v1 ENA_UNWIND_BREAK v2) by (done || unfold ev_bind; by rewrite (bind_step _ _ _ _ _ E2)).
    rewrite (landing_ok _ _ _ _ v2 (Ok tt) v2) by done.
    apply (ends_after _ _ _ _ names2 v2); [by etransitivity | by eapply frame_trans|]. by apply ends_next.
  - assert (Hp2 : length (unwind_points v2) = own) by (rewrite (fr_points _ _ Hf2), (fr_points _ _ Hf1); done).
    rewrite (landing_lands _ _ _ _ v1 ENA_UNWIND_CONTINUE v2) by (done || unfold ev_bind; by rewrite (bind_step _ _ _ _ _ E2)).
    destruct (IH N k c2 sg c' names2 v2 Ek Ha2 ltac:(lia) ltac:(lia) ltac:(lia) Hp2) as [Hsg Hends]. split; [done|].
    apply (ends_after _ _ _ _ names2 v2); [by etransitivity | by eapply frame_trans | done].
  - injection Ek as <- <-. split; [by right; eexists|]. exists v2. split; [|done]. by apply landing_ok; [apply (ev_error _ _ _ _ E2)|].
Qed.
Lemma exec_while_ok F fuel e b c sg c' names v : stmt_runs F fuel ->
  loop (exec_block (exec F) b) e F c = Done (sg, c') -> at_config c names v -> exp_ok e -> block_ok b ->
  (forall x, x ∈ exp_names e ++ block_names b -> x ∈ known) -> (nodes e <= S fuel)%nat -> (2 * F + block_nodes b <= fuel)%nat ->
  ends sg c' names v (eval_node gf (S (S fuel)) (stmt_tree (SWhile e b)) v).
Proof.
  intros Hrun E Ha He Hb Hkn Hfe Hfb. cbn [stmt_tree]. remember (S fuel) as fuel1 eqn:Ef. cbn [eval_node n_type nd]. unfold eval_WHILE.
  rewrite (ev_io _ _ v (tree e) v) by done. rewrite (ev_io _ _ v (nd 1 N_STMTS (block_trees b)) v) by done.
  set (w := set_unwind_points (0 :: unwind_points v) v). rewrite (ev_io _ _ v tt w) by done.
  assert (Hw : at_config c names w) by (destruct Ha as [W O R]; split; [by apply (world_same _ _ v) | done | done]).
  subst fuel1. destruct (loop_ok F fuel e b (S fuel) (length (unwind_points w)) Hrun He Hb Hkn Hfe Hfb F (S fuel) (S fuel) c sg c' names w E Hw ltac:(lia) ltac:(lia) ltac:(lia) eq_refl) as [Hsg Hends].
  rewrite <- exec_point in Hends.
  destruct Hsg as [-> |[err ->]]; cbn [ends flow_of] in Hends.
  - destruct Hends as (x & v1 & names1 & E1 & [W1 O1 R1] & Hn1 & [F1 F2 F3 F4]). rewrite (ev_ok _ _ _ _ _ E1).
    assert (Ep : POP_UNWIND_POINT v1 = Done (Ok tt, set_unwind_points (unwind_points v) v1)).
    { unfold POP_UNWIND_POINT. rewrite (ev_io get _ v1 v1 v1) by done. by rewrite F2. }
    rewrite (ev_ok _ _ _ _ _ Ep). exists ENA_UNDEFINED, (set_unwind_points (unwind_points v) v1), names1. split; [done|].
    split; [split; [by apply (world_same _ _ v1) | done | done]|]. split; [done|]. split; [done | done | done | exact F4].
  - destruct Hends as (v1 & E1 & Hv1). exists v1. split; [by rewrite (ev_error _ _ _ _ E1) | done].
Qed.
Lemma exec_ok F : forall fuel, stmt_runs F fuel.
Proof.
  induction F as [|F IH]; intros fuel s c sg c' names v E Ha Hok Hkn Hf; [done|]. destruct fuel as [|[|fuel]]; [lia..|].
  destruct s as [x e|x e|e|e b|e b| |]; cbn [exec stmt_ok stmt_names stmt_nodes] in *.
  - destruct Hok. apply (exec_var_ok x e c); try done. lia.
  - destruct Hok. apply (exec_assign_ok x e c); try done. lia.
  - apply (exec_print_ok e c); try done. lia.
  - destruct Hok. apply (exec_if_ok F fuel e b c); try done; lia.
  - destruct Hok. apply (exec_while_ok F fuel e b c); try done; lia.
  - injection E as <- <-. exists 0, v, names. split; [done|]. split; [done|]. split; [done | apply frame_refl].
  - injection E as <- <-. exists 0, v, names. split; [done|]. split; [done|]. split; [done | apply frame_refl].
Qed.
End World.

(** ** Scripts *)

Lemma nodes_tokens e : (nodes e <= length (tokens e))%nat.
Proof.
  induction e as [w n|b|x|op a IHa b IHb|a IHa|a IHa b IHb|a IHa b IHb]; [done..|destruct op| | |]; cbn [tokens nodes length]; rewrite ?length_app; cbn [length]; rewrite ?length_app; cbn [length]; lia.
Qed.
Lemma block_nodes_tokens : (forall s, (stmt_nodes s <= length (stmt_tokens s))%nat) /\ (forall b, (block_nodes b <= length (block_tokens b))%nat).
Proof.
  apply stmt_block_ind; intros; cbn [stmt_nodes block_nodes stmt_tokens block_tokens length app]; rewrite ?length_app; cbn [length]; rewrite ?length_app; cbn [length];
    try match goal with e : exp |- _ => pose proof (nodes_tokens e) end; lia.
Qed.

Section Scripts.
Context `{Host}.
Variable gf : nat.
Hypothesis gf_large : (2 <= gf)%nat.

(** An interpreter with a module whose variables are those of [s]; beside them there are
    the operators and [print]. *)
Definition ready (s : env) (names : list (list Z)) (v : ena_vm) (module : Z) : Prop :=
  exists next scope, obj_at v module (Object (type_code ENA_T_MODULE) (D_module next scope)) /\ world names s names (set_current_scope scope v).
Lemma world_mono known known' s names v : (forall x, x ∈ names -> x ∈ known') -> world known s names v -> world known' s names v.
Proof. by intros Hk [H1 H2 H3 H4 H5 H6 H7]. Qed.

(** The state in which the tree is evaluated. *)
Definition entered (scope : Z) (v : ena_vm) : ena_vm :=
  set_current_frame (0 :: current_frame v) (set_unwind_points (0 :: unwind_points v) (set_current_scope scope
    (set_error_type ENA_ERROR_NONE (set_stack_end arch_get_stack_bottom v)))).
Lemma eval_program_ok fuel xs v : eval_node gf (S (S fuel)) (program xs) v = (eval_each (eval_node gf fuel) xs ~; ok ENA_UNDEFINED) v.
Proof. reflexivity. Qed.
(** [ena_eval] around the evaluation of the statements. *)
Lemma ena_eval_ok v module next scope b text fuel r u : sane v ->
  obj_at v module (Object (type_code ENA_T_MODULE) (D_module next scope)) -> block_ok b -> spells (block_tokens b) text -> Z.of_nat (length text) < 2 ^ 63 ->
  (length text + 2 <= fuel)%nat ->
  (eval_each (eval_node gf fuel) (block_trees b) ~; ok ENA_UNDEFINED) (entered scope v) = Done (r, u) ->
  (forall t, r = Unwind t -> unwind_points u = unwind_points (entered scope v)) ->
  ena_eval gf (S (S fuel)) module text v =
    match r with
    | Ok _ => Done (true, set_stack_end 0 u)
    | Unwind _ => Done (false, set_stack_end 0 (set_error_type ENA_ERROR_RUNTIME u))
    | Error => Done (false, set_stack_end 0 u)
    end.
Proof.
  intros Hs Hm Hb Hsp Hlen Hf E Hu. pose proof (spells_length _ _ Hsp) as Hl. set (v0 := set_error_type ENA_ERROR_NONE (set_stack_end arch_get_stack_bottom v)).
  pose proof (parse_derived _ _ _ (S (S fuel)) (proj2 text_derived b Hb) Hsp Hlen ltac:(lia)) as Epar.
  assert (Hs0 : sane v0) by (by apply (sane_same v)).
  assert (Hm0 : obj_at v0 module (Object (type_code ENA_T_MODULE) (D_module next scope))) by (by apply (obj_at_same v)).
  unfold ena_eval. rewrite (bind_step _ _ v tt (set_stack_end arch_get_stack_bottom v) eq_refl). rewrite (bind_step _ _ _ tt v0 eq_refl).
  rewrite (bind_step _ _ v0 (Some (program (block_trees b))) v0) by (unfold lift; by rewrite Epar). cbn iota beta.
  rewrite (bind_step _ _ v0 (match r with Unwind _ => Error | _ => r end) (match r with Unwind _ => set_error_type ENA_ERROR_RUNTIME u | _ => u end)); [by destruct r|].
  rewrite (ev_io _ _ _ _ _ (get_type_obj v0 module _ ENA_T_MODULE Hs0 Hm0 eq_refl)). rewrite decide_False by tauto.
  rewrite (ev_io _ _ _ _ _ (object_at_ok _ _ _ Hm0)). cbn [data].
  rewrite (ev_io _ _ v0 tt _ eq_refl), (ev_io _ _ _ tt _ eq_refl), (ev_io _ _ _ tt (entered scope v) eq_refl).
  pose proof (eq_trans (eval_program_ok fuel _ _) E) as E'. destruct r as [x|t|]; [by apply exec_point_ok | | by apply exec_point_ok].
  rewrite exec_point, (landing_lands _ _ _ _ _ t u E') by (by rewrite (Hu t eq_refl)). by apply landing_ok.
Qed.

(** C8: a script of declarations, assignments, [print] statements, [if]s without [else] and
    [while] loops with [break] and [continue] over integers and booleans, with every
    operation in parentheses, written on one line with a blank after each token, is lexed,
    parsed and evaluated to its end with the outcome that the semantics of the language
    gives.  The semantics counts the objects a statement may create, two for each node of an
    expression and one for a [print], and is defined only as long as they fit above the
    threshold of the collector, so that no collection starts; names are neither keywords nor
    [print] or [self], and are fewer than [INT_MAX].  Then the output is the same, the kind
    of error is the same, and after a script without an error the interpreter holds the
    variables of the semantics and is ready for the next script. *)
Theorem script_runs s names v module b text F fuel sg c' :
  ready s names v module -> block_ok b -> spells (block_tokens b) text -> Z.of_nat (length text) < 2 ^ 63 ->
  Z.of_nat (length names + S (length (block_names b))) < INT_MAX ->
  exec_block (exec F) b (Config s (output v) (num_free v - ENA_GC_THRESHOLD)) = Done (sg, c') ->
  (2 * F + length text + 4 <= fuel)%nat ->
  exists v', ena_eval gf fuel module text v = Done (match sg with Next => true | _ => false end, v') /\ output v' = c_out c' /\
    match sg with
    | Next => exists names', (length names' <= length names + S (length (block_names b)))%nat /\ ready (c_env c') names' v' module /\ c_room c' <= num_free v' - ENA_GC_THRESHOLD
    | Fail err => error_type v' = err
    | Break | Continue => error_type v' = ENA_ERROR_RUNTIME
    end.
Proof.
  intros (next & scope & Hm & Hw) Hb Hsp Hlen Hn E Hf. destruct fuel as [|[|fuel]]; [lia..|].
  pose proof (spells_length _ _ Hsp) as Hl. pose proof (proj2 block_nodes_tokens b) as Hbn.
  set (known := names ++ chars "self" :: block_names b).
  assert (Hkn : Z.of_nat (length known) < INT_MAX) by (unfold known; rewrite length_app; cbn [length]; lia).
  assert (Hself : chars "self" ∈ known) by (apply elem_of_app; right; by left).
  assert (Ha : at_config known (Config s (output v) (num_free v - ENA_GC_THRESHOLD)) names (entered scope v)).
  { split; [|done | cbn; lia]. apply (world_same _ _ _ (set_current_scope scope v)); [done..|]. apply (world_mono names); [|done]. intros x Hx. apply elem_of_app. by left. }
  assert (Hends : ends known sg c' names (entered scope v) ((eval_each (eval_node gf fuel) (block_trees b) ~; ok ENA_UNDEFINED) (entered scope v))).
  { apply ends_then. apply (exec_block_ok gf gf_large known F fuel b (exec_ok gf gf_large known Hkn Hself F fuel) _ _ _ _ _ E Ha Hb); [|lia].
    intros x Hx. apply elem_of_app. right. by apply elem_of_cons; right. }
  assert (Hs : sane v) by (apply (sane_same (set_current_scope scope v)); [done..|]; exact (w_sane _ _ _ _ Hw)).
  pose proof (fun r u => ena_eval_ok v module next scope b text fuel r u Hs Hm Hb Hsp Hlen ltac:(lia)) as Hrun.
  destruct sg as [| | |err]; cbn [ends flow_of] in Hends.
  - destruct Hends as (x & u & names' & Eu & [Hw' Ho Hr] & Hp & Hfr). exists (set_stack_end 0 u). split; [exact (Hrun _ _ Eu ltac:(done))|]. split; [done|].
    exists names'. split; [|split; [|cbn; lia]].
    + pose proof (submseteq_length _ _ (NoDup_submseteq _ _ (w_nodup _ _ _ _ Hw') (w_known _ _ _ _ Hw'))) as Hsz. unfold known in Hsz. rewrite length_app in Hsz. exact Hsz.
    + exists next, scope. split; [by apply (obj_at_same u); [| |apply (fr_objects _ _ Hfr); [apply (obj_at_same v)|]]|].
      apply (world_same _ _ _ u); [done..| exact (eq_sym (fr_scope _ _ Hfr)) |done|done|done|]. by apply (world_mono known).
  - destruct Hends as (x & u & names' & Eu & [Hw' Ho Hr] & Hp & Hfr). eexists. split; [exact (Hrun _ _ Eu (fun _ _ => fr_points _ _ Hfr))|]. done.
  - destruct Hends as (x & u & names' & Eu & [Hw' Ho Hr] & Hp & Hfr). eexists. split; [exact (Hrun _ _ Eu (fun _ _ => fr_points _ _ Hfr))|]. done.
  - destruct Hends as (u & Eu & Herr & Ho). eexists. split; [exact (Hrun _ _ Eu ltac:(done))|]. done.
Qed.
End Scripts.

(** ** A new interpreter is ready *)

Definition int_op_eqb (a b : int_op) : bool :=
  match a, b with
  | I_add, I_add | I_sub, I_sub | I_mul, I_mul | I_div, I_div | I_mod, I_mod
  | I_lt, I_lt | I_lte, I_lte | I_gt, I_gt | I_gte, I_gte | I_eq, I_eq | I_neq, I_neq => true
  | _, _ => false
  end.
Definition table_value (t : ident_table) (k : Z) : option (entry_ptr * Z) :=
  match ena_hash_search t k with Done (Some e) => match entry_value t e with Done x => Some (e, x) | _ => None end | _ => None end.
Definition op_ready_b (v : ena_vm) (names : list (list Z)) (op : int_op) : bool :=
  match place (op_text op) names IDENT_START, get_obj v (int_class v) with
  | Some id, Some (Object fl (D_class tb)) =>
      match table_value tb id with
      | Some (_, f) =>
          match get_obj v f with
          | Some (Object fl' (D_func ff id' _ (Native_body (N_int op')))) =>
              (fl =? type_code ENA_T_CLASS) && (fl' =? type_code ENA_T_FUNC) && (ff =? 3) && (id' =? id) && int_op_eqb op' op
          | _ => false
          end
      | None => false
      end
  | _, _ => false
  end.
(** In the scope of a new module there is only [print]. *)
Definition scope_b (v : ena_vm) (names : list (list Z)) (scope : Z) : bool :=
  match place (chars "print") names IDENT_START, get_obj v scope with
  | Some id, Some (Object fl (D_scope vars par)) =>
      match table_value vars id with
      | Some (_, pf) =>
          match get_obj v pf with
          | Some (Object fl' (D_func ff name _ (Native_body N_print))) =>
              (fl =? type_code ENA_T_SCOPE) && (fl' =? type_code ENA_T_FUNC) && (ff =? 2) && (name =? IDENT_ANONYMOUS) && (par =? 0) &&
              (num_entries vars =? 1) && table_is vars [id] (fun k => if decide (k = id) then [pf] else [])
          | _ => false
          end
      | None => false
      end
  | _, _ => false
  end.

Lemma table_value_found t k e x : table_value t k = Some (e, x) -> ena_hash_search t k = Done (Some e) /\ entry_value t e = Done x.
Proof. unfold table_value. intros E. repeat case_match; by simplify_eq. Qed.
Lemma op_ready_sound v names op : op_ready_b v names op = true -> op_ready v names op.
Proof.
  unfold op_ready_b. destruct (place (op_text op) names IDENT_START) as [id|] eqn:E1; [|done]. destruct (get_obj v (int_class v)) as [[fl d]|] eqn:E2; [|done].
  destruct d as [| | | |tb| | | | | |]; try done. destruct (table_value tb id) as [[e f]|] eqn:E3; [|done].
  destruct (get_obj v f) as [[fl' d']|] eqn:E4; [|done]. destruct d' as [| | |ff id' sc [nat|]| | | | | | |]; try done. destruct nat as [|op'| | | | | | | | | | | |]; try done.
  intros E. rewrite !andb_true_iff, !Z.eqb_eq in E. destruct E as ((((-> & ->) & ->) & ->) & E5).
  assert (op' = op) as -> by (destruct op, op'; done). destruct (table_value_found _ _ _ _ E3) as [H3 H4].
  exists id, tb, e, f, sc. split; [done|]. split; [by apply get_obj_at|]. do 2 (split; [done|]). by apply get_obj_at.
Qed.
Lemma scope_sound v names scope : NoDup names -> scope_b v names scope = true -> chars "print" ∈ names /\
  exists vars L pf psc, scope_ok (set_current_scope scope v) ∅ names vars L pf /\
    obj_at (set_current_scope scope v) pf (Object (type_code ENA_T_FUNC) (D_func 2 IDENT_ANONYMOUS psc (Native_body N_print))).
Proof.
  intros Hnd. unfold scope_b. destruct (place (chars "print") names IDENT_START) as [id|] eqn:E1; [|done]. destruct (get_obj v scope) as [[fl d]|] eqn:E2; [|done].
  destruct d as [| | | | | | | |vars par| |]; try done. destruct (table_value vars id) as [[e pf]|] eqn:E3; [|done].
  destruct (get_obj v pf) as [[fl' d']|] eqn:E4; [|done]. destruct d' as [| | |ff id' sc [nat|]| | | | | | |]; try done. destruct nat; try done.
  intros E. rewrite !andb_true_iff, !Z.eqb_eq in E. destruct E as ((((((-> & ->) & ->) & ->) & ->) & Hn) & Ht).
  destruct (place_Some _ _ _ _ E1) as (n & Eid & Hpn). split; [by eapply list_elem_of_lookup_2|].
  destruct (table_is_sound _ _ _ Ht) as (L & HL & Hc); [intros k Hk; rewrite decide_False; [done|]; intros ->; by destruct Hk; left|].
  exists vars, L, pf, sc. split; [|by apply (obj_at_same v); [done..|]; apply get_obj_at].
  split; [by apply (obj_at_same v); [done..|]; apply get_obj_at | done | by rewrite Hn | | by intros x [w Hx]].
  intros k _. rewrite Hc. unfold name_of, entry_ok. destruct (Z.ltb_spec k IDENT_START) as [Hk|Hk]; [by rewrite decide_False by lia|].
  destruct (names !! Z.to_nat (k - IDENT_START)) as [x|] eqn:Ex.
  - destruct (decide (x = chars "print")) as [->|Hx].
    + pose proof (NoDup_lookup _ _ _ _ Hnd Hpn Ex). by rewrite decide_True by lia.
    + rewrite decide_False; [by rewrite lookup_empty|]. intros ->. rewrite Eid in Ex. replace (Z.to_nat _) with n in Ex by lia. congruence.
  - rewrite decide_False; [done|]. intros ->. rewrite Eid in Ex. replace (Z.to_nat _) with n in Ex by lia. congruence.
Qed.

Definition int_ops : list int_op := [I_add; I_sub; I_mul; I_div; I_mod; I_lt; I_lte; I_gt; I_gte; I_eq; I_neq].
Definition ready_b (v : ena_vm) (names : list (list Z)) (module : Z) : bool :=
  match module_scope v module with
  | Some (_, scope) => bool_decide (NoDup names) && forallb (op_ready_b v names) int_ops && scope_b v names scope
  | None => false
  end.
Lemma ready_sound v names module : sane v -> interned v names -> ready_b v names module = true -> ready ∅ names v module.
Proof.
  intros Hs Hi. unfold ready_b. destruct (module_scope v module) as [[next scope]|] eqn:E; [|done].
  rewrite !andb_true_iff, bool_decide_eq_true, forallb_forall. intros ((Hnd & Hop) & Hsc). exists next, scope. split; [by apply module_scope_sound|].
  destruct (scope_sound v names scope Hnd Hsc) as [Hp Hscope]. split; try done.
  - by apply (sane_same v).
  - by apply (interned_same v).
  - intros op. apply (op_keeps v); [intros p o Ho _; by apply (obj_at_same v) | done|]. apply op_ready_sound, Hop. destruct op; cbn; tauto.
Qed.
Lemma started_ready : ready ∅ started_names started_vm started_module.
Proof. apply ready_sound; [exact started_sane | exact started_interned | vm_compute; reflexivity]. Qed.

(** [var s = 0; var i = 1; while (i < 6) { if (i == 4) { i = (i + 1); continue; } s = (s + i); i = (i + 1); } print(s);] *)
Definition lit (w : list Z) : exp := Lit w (match ena_str2int w with Done n => n | _ => 0 end).
Definition sum_script : block :=
  let s := chars "s" in let i := chars "i" in
  let next := SAssign i (BinE I_add (Var i) (lit (chars "1"))) in
  Cons (SVar s (lit (chars "0"))) (Cons (SVar i (lit (chars "1")))
    (Cons (SWhile (BinE I_lt (Var i) (lit (chars "6")))
      (Cons (SIf (BinE I_eq (Var i) (lit (chars "4"))) (Cons next (Cons SContinue Nil)))
      (Cons (SAssign s (BinE I_add (Var s) (Var i))) (Cons next Nil))))
    (Cons (SPrint (Var s)) Nil))).
Lemma sum_script_ok : block_ok sum_script.
Proof. cbn. repeat split; try lex_concrete; try done. Qed.
#[local] Existing Instance quiet_host.
Lemma sum_ends : exists c', exec_block (exec 20) sum_script (Config ∅ (output started_vm) (num_free started_vm - ENA_GC_THRESHOLD)) = Done (Next, c') /\
  c_out c' = output started_vm ++ [P_int 11; P_newline].
Proof.
  destruct (exec_block (exec 20) sum_script (Config ∅ (output started_vm) (num_free started_vm - ENA_GC_THRESHOLD))) as [[[] c']| | |] eqn:E; try (vm_compute in E; discriminate E).
  exists c'. split; [reflexivity|]. vm_compute in E. injection E as <-. vm_compute. reflexivity.
Qed.
Lemma script_runs_witness : exists v', ena_eval 2 300 started_module (EnaGrammar.print (block_tokens sum_script)) started_vm = Done (true, v') /\
  output v' = output started_vm ++ [P_int 11; P_newline].
Proof.
  destruct sum_ends as (c' & E & Ec).
  destruct (script_runs 2 ltac:(lia) ∅ started_names started_vm started_module sum_script (EnaGrammar.print (block_tokens sum_script)) 20 300 Next c')
    as (v' & Ev & Eo & _).
  - exact started_ready.
  - exact sum_script_ok.
  - exact (spells_print _ (proj2 block_lexemes _ sum_script_ok)).
  - vm_compute. reflexivity.
  - vm_compute. reflexivity.
  - exact E.
  - vm_compute. lia.
  - exists v'. split; [exact Ev | exact (eq_trans Eo Ec)].
Defined.
