(* ===== verification/EnaScripts.v ===== *)
(** * ena: scripts with surprises

    Whole scripts run by the model of [main]: what the interpreter does with the last
    character of its input, with [return] in a loop, and with programs that look
    harmless. *)
From S2P Require Import Prelude EnaLexer EnaParser EnaHash EnaHeap EnaGc EnaEval EnaRun EnaStart.
From Stdlib Require String.
Import Lex Parser Hash Heap Eval.
Import String.StringSyntax.
#[local] Open Scope Z_scope.
#[local] Existing Instance quiet_host.

(** ** The input of the main program *)

(** The last character of a file is lost: without a newline at its end, the semicolon
    of this script. *)
Definition exit_code (r : outcome (Z * ena_vm)) : option (Z * ena_error_type * list print_item) :=
  match r with Done (c, v) => Some (c, error_type v, output v) | _ => None end.
Lemma file_loses_last_char :
  exit_code (file_main 1 100 4096 (chars "print(40 + 2);" ++ [NEWLINE])) = Some (0, ENA_ERROR_NONE, [P_int 42; P_newline]) /\
  exit_code (file_main 1 100 4096 (chars "print(40 + 2);")) = Some (1, ENA_ERROR_INVALID_SYNTAX, []) /\
  file_main 1 100 4096 [] = Undef.
Proof. vm_compute. done. Qed.
(** The same at the prompt, where the newline is not part of the line; the end of the
    input at the prompt writes before the buffer. *)
Lemma repl_loses_last_char :
  exit_code (repl_main 1 100 4096 (chars "var x = 40; " ++ [NEWLINE] ++ chars "print(x); ")) =
    Some (0, ENA_ERROR_NONE, [P_string (chars ">>> "); P_string (chars ">>> "); P_int 40; P_newline]) /\
  exit_code (repl_main 1 100 4096 (chars "print(1);" ++ [NEWLINE])) = Some (1, ENA_ERROR_INVALID_SYNTAX, [P_string (chars ">>> ")]) /\
  repl_main 1 100 4096 [] = Undef.
Proof. vm_compute. done. Qed.

(** ** [return] in a loop *)

(** [while (true) { return; }] *)
Definition returning_loop (l1 l2 l3 l4 : Z) : ena_node :=
  Node N_WHILE None [Node N_TRUE None [] 0 0 l1; Node N_STMTS None [Node N_RETURN None [] 0 0 l2] 1 0 l3] 2 0 l4.

Lemma child_ok node i c v : childs node !! i = Some c -> child node i v = Done (c, v).
Proof. destruct node. cbn [childs child]. by intros ->. Qed.
Lemma ev_fuel {A B} (m : ev A) (k : A -> ev B) s : m s = Fuel -> ev_bind m k s = Fuel.
Proof. intros E. unfold ev_bind, bind. by rewrite E. Qed.

(** More rounds change nothing for a loop that has ended, and fewer only leave it without
    fuel. *)
Lemma while_loop_rounds {H : Host} (ev_node : ena_node -> ev Z) cp stmts n : forall m v r,
  while_loop ev_node n cp stmts v = Done r -> while_loop ev_node m cp stmts v = Done r \/ while_loop ev_node m cp stmts v = Fuel.
Proof.
  induction n as [|n IH]; intros m v r E; [done|]. destruct m as [|m]; [by right|]. cbn [while_loop] in *. unfold ev_bind, bind in *.
  destruct (ev_node cp v) as [[[c|t|] v1]| | |]; try (by left). destruct (c =? ENA_TRUE); [|by left].
  destruct (ev_node stmts v1) as [[[x|t|] v2]| | |]; try (by left). by apply IH.
Qed.
Lemma landing_forever {A} own (h : ena_unwind_type -> ev A) t : h t = UNWIND_UNWIND_POINT t ->
  forall n v, length (unwind_points v) = own -> landing n own h (UNWIND_UNWIND_POINT t) v = Fuel.
Proof.
  intros Eh. induction n as [|n IH]; intros v Hv.
  - cbn [landing]. rewrite (bind_step _ _ v (Unwind t) v) by done. rewrite (bind_step get _ v v v eq_refl). by rewrite Hv, Nat.eqb_refl.
  - rewrite (landing_lands _ _ _ _ v t v) by done. rewrite Eh. by apply IH.
Qed.
(** C40: a loop that returns never ends.  Let the rounds of a loop, whatever its condition and
    its body, and however their nodes are evaluated, come to a [return], with the unwind point
    of the loop the last one.  The loop then continues the unwinding with a jump to the last
    unwind point, which is its own: the loop is not left, for any number of rounds and jumps. *)
Theorem return_in_loop_never_ends {H : Host} (ev_node : ena_node -> ev Z) (n m : nat) (node cp stmts : ena_node) (v w : ena_vm) :
  childs node !! 0%nat = Some cp -> childs node !! 1%nat = Some stmts ->
  while_loop ev_node n cp stmts (set_unwind_points (0 :: unwind_points v) v) = Done (Unwind ENA_UNWIND_RETURN, w) ->
  length (unwind_points w) = S (length (unwind_points v)) ->
  eval_WHILE ev_node m node v = Fuel.
Proof.
  intros H0 H1 E Hw. unfold eval_WHILE. rewrite (ev_io _ _ v cp v) by (by apply child_ok). rewrite (ev_io _ _ v stmts v) by (by apply child_ok).
  set (v1 := set_unwind_points _ v) in *. rewrite (ev_io _ _ v tt v1) by done. apply ev_fuel. rewrite exec_point. change (length (unwind_points v1)) with (S (length (unwind_points v))).
  destruct (while_loop_rounds ev_node cp stmts n m v1 _ E) as [Em|Em].
  - destruct m as [|m]; [done|]. rewrite (landing_lands _ _ _ _ v1 ENA_UNWIND_RETURN w Em Hw). by apply landing_forever.
  - destruct m; cbn [landing]; unfold bind at 1; by rewrite Em.
Qed.
(** In the scope of the main module of a new interpreter. *)
Definition in_main : ena_vm :=
  set_current_scope (match module_scope started_vm started_module with Some (_, scope) => scope | None => 0 end) started_vm.
Definition after_return : option ena_vm :=
  match while_loop (eval_node 1 999) 1 (Node N_TRUE None [] 0 0 1) (Node N_STMTS None [Node N_RETURN None [] 0 0 1] 1 0 1)
          (set_unwind_points (0 :: unwind_points in_main) in_main) with
  | Done (Unwind ENA_UNWIND_RETURN, w) => Some w
  | _ => None
  end.
Lemma return_in_loop_never_ends_witness : eval_WHILE (eval_node 1 999) 999 (returning_loop 1 1 1 1) in_main = Fuel.
Proof.
  destruct after_return as [w|] eqn:E; [|by vm_compute in E].
  apply (return_in_loop_never_ends (eval_node 1 999) 1 999 (returning_loop 1 1 1 1) (Node N_TRUE None [] 0 0 1) (Node N_STMTS None [Node N_RETURN None [] 0 0 1] 1 0 1) in_main w).
  - reflexivity.
  - reflexivity.
  - revert E. unfold after_return. destruct (while_loop _ _ _ _ _) as [[[|[]|] ?]| | |]; try discriminate. intros [= ->]. reflexivity.
  - revert E. vm_compute. intros [= <-]. reflexivity.
Defined.

(** ** Scripts that do not do what they say *)

(** An operator in a method is a call, which resets [self]. *)
Lemma operator_in_method_loses_self :
  exit_code (file_main 10 200 4096 (chars "class A { func set(v) { self.v = v; } } var a = A(); a.set(7); print(a.v); ")) =
    Some (0, ENA_ERROR_NONE, [P_int 7; P_newline]) /\
  exit_code (file_main 10 200 4096 (chars "class A { func set(v) { self.v = v + 1; } } var a = A(); a.set(7); print(a.v); ")) =
    Some (1, ENA_ERROR_RUNTIME, []).
Proof. vm_compute. done. Qed.
(** Maps have no method for indexing. *)
Lemma map_index_fails :
  exit_code (file_main 10 200 4096 (chars "var m = {1: 5}; print(m.get(1)); ")) = Some (0, ENA_ERROR_NONE, [P_int 5; P_newline]) /\
  exit_code (file_main 10 200 4096 (chars "var m = {1: 5}; print(m[1]); ")) = Some (1, ENA_ERROR_RUNTIME, []).
Proof. vm_compute. done. Qed.
(** The right operand of [or] is evaluated even if the left one is true. *)
Lemma or_evaluates_both :
  exit_code (file_main 10 200 4096 (chars "func f() { print(1); return true; } print(true or f()); ")) =
    Some (0, ENA_ERROR_NONE, [P_int 1; P_newline; P_bool true; P_newline]).
Proof. vm_compute. done. Qed.
(** A missing operand is a null pointer for the evaluator, and so is the token of a
    callee that is neither a name nor a property. *)
Lemma missing_operand_crashes :
  Forall (fun s => file_main 10 200 4096 s = Undef) [chars "not ; "; chars ".x; "; chars "var x = ; "; chars "func f() { return f; } f()(); "].
Proof. repeat (constructor; [vm_compute; reflexivity|]). constructor. Qed.
