(* ===== verification/EnaTests.v ===== *)
(** * ena: the test scripts

    The scripts of [tiny-script-interpreter/test] in the debug build, which has
    [assert_eq]: in the model each of them ends as [tools/test.py] expects.  Two are left
    out: [empty.ena] is the empty file for which [file_main] writes outside its buffer
    ([EnaScripts.file_loses_last_char]), and [fib.ena] is here with a smaller argument. *)
From S2P Require Import Prelude EnaLexer EnaParser EnaHash EnaHeap EnaEval.
From Stdlib Require String.
Import Lex Parser Hash Heap Eval.
Import String.StringSyntax.
#[local] Open Scope Z_scope.

(** Nothing of interest in the registers and on the stack; the scripts use too few
    objects for a collection. *)
#[local] Instance test_host : Host :=
  {| arch_load_regs _ := []; stack_words _ := []; arch_get_stack_bottom := 0x7ff0; userdata_free _ := Done tt |}.
(** The exit code, the error and the output of each script, run by a new interpreter. *)
Definition test_results (scripts : list (list Z)) : list (option (Z * ena_error_type * list print_item)) :=
  match debug_setup 100 4096 with
  | Done (module, v) =>
      map (fun s => match debug_main 100 100 module s v with Done (c, v) => Some (c, error_type v, output v) | _ => None end) scripts
  | _ => []
  end.

Definition test_assignment : list Z :=
  chars "var x = 1;
var y = 2;
var z = x = y = 3;
assert_eq(x, 3);
assert_eq(y, 3);
assert_eq(z, 3);

z = x = 4;
assert_eq(x, 4);
assert_eq(y, 3);
assert_eq(z, 4);".
Definition test_assignment_ops : list Z :=
  chars "var x = 0;

x += 1;
assert_eq(x, 1);

x -= 2;
assert_eq(x, -1);

x *= 10;
assert_eq(x, -10);

x /= 2;
assert_eq(x, -5);".
Definition test_class : list Z :=
  chars "class Car {
    func gas() {
        return 10;
    }
}

class User {
    func new(age) {
        self.user_age = age;
        self.my_car = Car();
    }

    func age() {
        return self.user_age - 3;
    }
}

var mike = User(24);
var age = mike.age();
assert_eq(mike.my_car.gas(), 10);".
Definition test_closure : list Z :=
  chars "func returnCounter() {
    var i = 0;
    func counter() {
        i = i + 1;
        return i;
    }

    return counter;
}

var f = returnCounter();
assert_eq(f(), 1);
assert_eq(f(), 2);
assert_eq(f(), 3);".
Definition test_comment : list Z :=
  chars "// ans(0;
// ans(124;

/*
123;
123;
123;
*/

/* /* / // / */ */
assert_eq(123, 123);".
Definition test_expr : list Z :=
  chars "var x = 99 * 2 + 20 - 3 + 6 / 3 * 5 + 27 % 3 * 2 - 3 * 1;
assert_eq(x, 222);".
Definition test_if : list Z :=
  chars "var ans = 0;
if false or true and not false {
    ans = 123;
}

assert_eq(ans, 123);".
Definition test_indexer : list Z :=
  chars "var xs = [null, [123, 456], " ++ [QUOTE] ++ chars "abc" ++ [QUOTE] ++ chars ", true];
assert_eq(xs[1][0], 123);
assert_eq(xs[1][1], 456);

xs[0] = false;
xs[1][0] = 777;
assert_eq(xs[0], false);
assert_eq(xs[1][0], 777);".
Definition test_int : list Z :=
  chars "var small1 = 1;
var small2 = 32768;
small2 += 1;
assert_eq(small1, 1);
assert_eq(small2, 32769);

var small3 = -32768;
small3 -= 2;
assert_eq(small3, -32770);

var small4 = 410000000;
var small5 = small4 + 10000000;
assert_eq(small5, 420000000);".
Definition test_lexer : list Z :=
  chars "assert_eq(123 +      // This
          39 + 4 +   //     is
                321  //        a comment.
, 487);".
Definition test_list : list Z :=
  chars "var users = [
    [" ++ [QUOTE] ++ chars "Joey" ++ [QUOTE] ++ chars ", " ++ [QUOTE] ++ chars "Actor" ++ [QUOTE] ++ chars ", 27],
    [" ++ [QUOTE] ++ chars "Chandler" ++ [QUOTE] ++ chars ", " ++ [QUOTE] ++ chars "Data Processing Supervisor" ++ [QUOTE] ++ chars ", 27],
    [" ++ [QUOTE] ++ chars "Ross" ++ [QUOTE] ++ chars ", " ++ [QUOTE] ++ chars "Dinosaur" ++ [QUOTE] ++ chars ", 27]
];

users.append([1, 2, 3]);
users.append(774);
assert_eq(users.pop(), 774);".
Definition test_map : list Z :=
  chars "var movie = {
    " ++ [QUOTE] ++ chars "name" ++ [QUOTE] ++ chars ": " ++ [QUOTE] ++ chars "Back to the Future" ++ [QUOTE] ++ chars ",
    " ++ [QUOTE] ++ chars "released_date" ++ [QUOTE] ++ chars ": " ++ [QUOTE] ++ chars "July 3, 1985" ++ [QUOTE] ++ chars ",
    " ++ [QUOTE] ++ chars "running_time" ++ [QUOTE] ++ chars ": 116,
};

assert_eq(movie.get(" ++ [QUOTE] ++ chars "name" ++ [QUOTE] ++ chars "), " ++ [QUOTE] ++ chars "Back to the Future" ++ [QUOTE] ++ chars ");".
Definition test_string : list Z :=
  chars "var s = " ++ [QUOTE] ++ chars "Hello, " ++ [QUOTE] ++ chars ";
s = s.concat(" ++ [QUOTE] ++ chars "World" ++ [QUOTE] ++ chars ");
s = s.replace(" ++ [QUOTE] ++ chars ", World" ++ [QUOTE] ++ chars ", " ++ [QUOTE] ++ chars " " ++ [QUOTE] ++ chars ");
s = s + " ++ [QUOTE] ++ chars ":)" ++ [QUOTE] ++ chars ";
assert_eq(s, " ++ [QUOTE] ++ chars "Hello :)" ++ [QUOTE] ++ chars ");".
Definition test_while : list Z :=
  chars "var i = 0;
var ans = 0;

// ans += 3
i = 0;
while i < 3 {
    ans = ans + i;
    i = i + 1;
}

// ans += 2
i = 0;
while i < 3 {
    ans = ans + i;
    if i == 1 {
        break;
    }
    i = i + 1;
}

// ans += 5
i = 0;
var continued = 0;
while i < 4 {
    ans = ans + i;

    if continued == 0 {
        continued = 1;
        continue;
    }

    i = i + 1;
}

assert_eq(ans, 10);".
Definition test_fib : list Z :=
  chars "func fib(n) {
    if n < 2 {
        return n;
    }

    return fib(n - 1) + fib(n - 2);
}

assert_eq(fib(5), 5);
".
Definition test_print : list Z :=
  chars "print(" ++ [QUOTE] ++ chars "Hello!" ++ [QUOTE] ++ chars ");
print(" ++ [QUOTE] ++ chars "My" ++ [QUOTE] ++ chars ", " ++ [QUOTE] ++ chars "name" ++ [QUOTE] ++ chars ", " ++ [QUOTE] ++ chars "is" ++ [QUOTE] ++ chars ", null, 101);".
Definition test_bad_syntax_1 : list Z :=
  chars "// error: syntax
var abc = 123;
abc + 456 // Error! Expected a semicolon.
".
Definition test_return_in_top_level : list Z :=
  chars "// error: runtime

return; // TODO: deny by parser".
Definition test_stack_trace : list Z :=
  chars "// error: runtime

func a(n) {
    // comment
    // comment
    // comment
    b(n + 1);
}

func b(n) {
    e(n + 1);
    e(n + 1);
    c(n + 1);
}

func c(n) {
    // comment
    // comment
    d(n + 1);
}

func d(n) {
    print(n);
    func_does_not_exist();
}

func e(n) {
}

a(1);".

Definition good_tests : list (list Z) :=
  [test_assignment; test_assignment_ops; test_class; test_closure; test_comment; test_expr; test_if; test_indexer; test_int; test_lexer; test_list; test_map; test_string; test_while; test_fib].
(** Those in [bad] announce their error in the first line. *)
Definition bad_tests : list (list Z) := [test_bad_syntax_1; test_return_in_top_level; test_stack_trace].

Lemma tests_pass : test_results good_tests = replicate 15 (Some (0, ENA_ERROR_NONE, [])).
Proof. vm_compute. reflexivity. Qed.
Lemma bad_tests_fail : test_results bad_tests =
  [Some (1, ENA_ERROR_INVALID_SYNTAX, []); Some (1, ENA_ERROR_RUNTIME, []); Some (1, ENA_ERROR_RUNTIME, [P_int 4; P_newline])].
Proof. vm_compute. reflexivity. Qed.
(** The output of [print.ena], and an assertion that does not hold. *)
Lemma test_output : test_results [test_print; chars "assert_eq(1 + 1, 3); "] =
  [Some (0, ENA_ERROR_NONE,
     [P_string (chars "Hello!"); P_newline;
      P_string (chars "My"); P_string (chars "name"); P_string (chars "is"); P_null; P_int 101; P_newline]);
   Some (1, ENA_ERROR_NONE, [P_assert_failed])].
Proof. vm_compute. reflexivity. Qed.
