(* ===== verification/MyosMem.v ===== *)
(** * myos: memory, strings and byte order

    Objects in memory as lists of bytes ([kernel/lib/string.c], [kernel/net/endian.c] and
    the allocator of [kernel/core/memory.c]).  A read or a write outside of an object is
    undefined. *)
From S2P Require Import Prelude.
#[local] Open Scope Z_scope.

(** ** Integers in memory *)

(** [n] bytes of an integer, the least significant one first. *)
Fixpoint le (n : nat) (v : Z) : list Z := match n with O => [] | S n => v mod 256 :: le n (v / 256) end.
Fixpoint un_le (m : list Z) : Z := match m with [] => 0 | b :: m => b + 256 * un_le m end.
(** The same in the order of the network. *)
Definition be (n : nat) (v : Z) : list Z := rev (le n v).
Definition un_be (m : list Z) : Z := un_le (rev m).
#[global] Arguments le : simpl never.
Definition bytes (m : list Z) : Prop := Forall (fun b => 0 <= b < 256) m.

Definition rd (off : Z) (n : nat) (m : list Z) : outcome (list Z) :=
  match arr_read m off (Z.of_nat n) with Some l => Done l | None => Undef end.
Definition rd_int (off : Z) (n : nat) (m : list Z) : outcome Z := l <-- rd off n m ;; Done (un_le l).
Definition wr (off : Z) (l m : list Z) : outcome (list Z) :=
  match arr_write m off l with Some m => Done m | None => Undef end.

(** ** lib/string.c *)

Module Lib.

(** At the addresses [to] and [from]. *)
Fixpoint memcpy (to from : list Z) (size : nat) {struct size} : outcome (list Z) :=
  match size with
  | O => Done to
  | S size => match to, from with _ :: to, b :: from => r <-- memcpy to from size ;; Done (b :: r) | _, _ => Undef end
  end.
Fixpoint strlen (str : list Z) : outcome Z :=
  match str with [] => Undef | c :: str => if c =? 0 then Done 0 else n <-- strlen str ;; Done (n + 1) end.
Fixpoint strncmp (str1 str2 : list Z) (len : nat) : outcome Z :=
  match str1, str2 with
  | c1 :: str1, c2 :: str2 =>
      if c1 =? c2 then match len with O => Done 0 | S len => strncmp str1 str2 len end
      else Done (match len with O => 0 | S _ => 1 end)
  | _, _ => Undef
  end.
Fixpoint strcmp (str1 str2 : list Z) : outcome Z :=
  match str1, str2 with
  | c1 :: str1, c2 :: str2 =>
      if (c1 =? c2) && (negb (c1 =? 0) && negb (c2 =? 0)) then strcmp str1 str2
      else Done (if c1 =? c2 then 0 else 1)
  | _, _ => Undef
  end.
Fixpoint strcpy (str1 str2 : list Z) : outcome (list Z) :=
  match str1, str2 with
  | _ :: str1, c :: str2 => if c =? 0 then Done (0 :: str1) else r <-- strcpy str1 str2 ;; Done (c :: r)
  | _, _ => Undef
  end.

(** ** net/endian.c *)

Definition swap (i j : Z) (m : list Z) : outcome (list Z) :=
  match arr_get m i, arr_get m j with
  | Some tmp, Some b => match arr_set m i b with Some m => match arr_set m j tmp with Some m => Done m | None => Undef end | None => Undef end
  | _, _ => Undef
  end.
(** [data] is an offset in the object [m]. *)
Definition he2ne (data : Z) (size : Z) (m : list Z) : outcome (list Z) :=
  if size =? 2 then swap data (data + 1) m
  else if size =? 4 then m <-- swap data (data + 3) m ;; swap (data + 1) (data + 2) m
  else Done m.
Definition ne2he (data : Z) (size : Z) (m : list Z) : outcome (list Z) := he2ne data size m.

(** ** net/macaddr.c *)

Definition setMACAddress (addr1 : Z) (addr2 : list Z) (m : list Z) : outcome (list Z) :=
  from <-- rd 0 6 addr2 ;; wr addr1 from m.

End Lib.
Import Lib.

(** ** Lemmas *)

Lemma le_S n v : le (S n) v = v mod 256 :: le n (v / 256).
Proof. done. Qed.
Lemma le_length n : forall v, length (le n v) = n.
Proof. induction n as [|n IH]; intros v; [done | rewrite le_S; cbn; by rewrite IH]. Qed.
Lemma be_length n v : length (be n v) = n.
Proof. unfold be. by rewrite length_rev, le_length. Qed.
Lemma le_bytes n : forall v, bytes (le n v).
Proof.
  induction n as [|n IH]; intros v; [constructor|]. rewrite le_S. constructor; [|apply IH]. pose proof (Z.mod_pos_bound v 256). lia.
Qed.
Lemma be_bytes n v : bytes (be n v).
Proof. unfold be, bytes. apply Forall_rev, le_bytes. Qed.
Lemma un_le_le n : forall v, un_le (le n v) = v mod 256 ^ Z.of_nat n.
Proof.
  induction n as [|n IH]; intros v; [by rewrite Z.mod_1_r|]. rewrite le_S. cbn [un_le].
  rewrite IH. replace (256 ^ Z.of_nat (S n)) with (256 * 256 ^ Z.of_nat n) by (rewrite Nat2Z.inj_succ, Z.pow_succ_r by lia; lia).
  symmetry. apply Z.rem_mul_r; [lia|]. apply Z.pow_pos_nonneg; lia.
Qed.
Lemma un_be_be n v : un_be (be n v) = v mod 256 ^ Z.of_nat n.
Proof. unfold un_be, be. rewrite rev_involutive. apply un_le_le. Qed.
Lemma un_le_range m : bytes m -> 0 <= un_le m < 256 ^ Z.of_nat (length m).
Proof.
  induction 1 as [|b m Hb Hm IH]; cbn [un_le length]; [lia|]. rewrite Nat2Z.inj_succ, Z.pow_succ_r by lia. lia.
Qed.
Lemma le_un_le m : bytes m -> le (length m) (un_le m) = m.
Proof.
  induction 1 as [|b m Hb Hm IH]; [done|]. cbn [length un_le]. rewrite le_S.
  replace ((b + 256 * un_le m) mod 256) with b by (rewrite Z.mul_comm, Z_mod_plus_full; symmetry; apply Z.mod_small; lia).
  replace ((b + 256 * un_le m) / 256) with (un_le m) by (rewrite Z.mul_comm, Z.div_add, (Z.div_small b) by lia; lia). by rewrite IH.
Qed.

(** Accesses to the first part of an object. *)
Lemma rd_app off n l m r : rd off n l = Done r -> rd off n (l ++ m) = Done r.
Proof.
  unfold rd, arr_read. destruct (Z.leb_spec 0 off), (Z.leb_spec 0 (Z.of_nat n)); cbn; try done; try lia.
  destruct (Z.leb_spec (off + Z.of_nat n) (Z.of_nat (length l))) as [Hl|]; [|done]. intros [= <-].
  rewrite (proj2 (Z.leb_le _ _)) by (rewrite length_app; lia). f_equal. rewrite drop_app_le by lia. rewrite take_app_le; [done|]. rewrite length_drop. lia.
Qed.
Lemma rd_int_app off n l m r : rd_int off n l = Done r -> rd_int off n (l ++ m) = Done r.
Proof. unfold rd_int. destruct (rd off n l) as [x| | |] eqn:E; try done. by rewrite (rd_app _ _ _ m _ E). Qed.
Lemma wr_app off x l m r : wr off x l = Done r -> wr off x (l ++ m) = Done (r ++ m).
Proof.
  unfold wr, arr_write. destruct (Z.leb_spec 0 off); cbn; try done.
  destruct (Z.leb_spec (off + Z.of_nat (length x)) (Z.of_nat (length l))) as [Hl|]; [|done]. intros [= <-].
  rewrite (proj2 (Z.leb_le _ _)) by (rewrite length_app; lia). f_equal. rewrite take_app_le, drop_app_le by lia. by rewrite <- !app_assoc.
Qed.
Lemma arr_get_app {A} (l m : list A) i x : arr_get l i = Some x -> arr_get (l ++ m) i = Some x.
Proof. unfold arr_get. destruct (i <? 0); [done|]. apply lookup_app_l_Some. Qed.
Lemma arr_set_app {A} (l m : list A) i x r : arr_set l i x = Some r -> arr_set (l ++ m) i x = Some (r ++ m).
Proof.
  unfold arr_set. destruct (Z.ltb_spec i 0); cbn; [done|]. destruct (Z.leb_spec (Z.of_nat (length l)) i); [done|]. intros [= <-].
  rewrite (proj2 (Z.leb_gt _ _)) by (rewrite length_app; lia). f_equal. apply insert_app_l. lia.
Qed.
Lemma swap_app i j l m r : swap i j l = Done r -> swap i j (l ++ m) = Done (r ++ m).
Proof.
  unfold swap. destruct (arr_get l i) as [a|] eqn:E1; [|done]. destruct (arr_get l j) as [b|] eqn:E2; [|done].
  rewrite (arr_get_app _ m _ _ E1), (arr_get_app _ m _ _ E2). destruct (arr_set l i b) as [l'|] eqn:E3; [|done]. rewrite (arr_set_app _ m _ _ _ E3).
  destruct (arr_set l' j a) as [l''|] eqn:E4; [|done]. rewrite (arr_set_app _ m _ _ _ E4). by intros [= <-].
Qed.
Lemma he2ne_app off n l m r : he2ne off n l = Done r -> he2ne off n (l ++ m) = Done (r ++ m).
Proof.
  unfold he2ne. destruct (n =? 2); [apply swap_app|]. destruct (n =? 4); [|by intros [= <-]].
  destruct (swap off (off + 3) l) as [l'| | |] eqn:E; try done. rewrite (swap_app _ _ _ m _ E). cbn. apply swap_app.
Qed.
Lemma setMAC_app off from l m r : setMACAddress off from l = Done r -> setMACAddress off from (l ++ m) = Done (r ++ m).
Proof. unfold setMACAddress. destruct (rd 0 6 from); try done. cbn. apply wr_app. Qed.
(** Accesses to the last part. *)
Lemma arr_get_app_r {A} (l m : list A) i : Z.of_nat (length l) <= i -> arr_get (l ++ m) i = arr_get m (i - Z.of_nat (length l)).
Proof.
  intros Hi. unfold arr_get. rewrite !(proj2 (Z.ltb_ge _ _)) by lia. rewrite lookup_app_r by lia. f_equal. lia.
Qed.
Lemma arr_set_app_r {A} (l m : list A) i x r : Z.of_nat (length l) <= i -> arr_set m (i - Z.of_nat (length l)) x = Some r -> arr_set (l ++ m) i x = Some (l ++ r).
Proof.
  intros Hi. unfold arr_set. rewrite !(proj2 (Z.ltb_ge _ _)) by lia. cbn [orb]. rewrite length_app.
  destruct (Z.leb_spec (Z.of_nat (length m)) (i - Z.of_nat (length l))); [done|]. intros [= <-]. rewrite (proj2 (Z.leb_gt _ _)) by lia. f_equal.
  rewrite insert_app_r_alt by lia. do 2 f_equal. lia.
Qed.
Lemma rd_app_r off n l m : Z.of_nat (length l) <= off -> rd off n (l ++ m) = rd (off - Z.of_nat (length l)) n m.
Proof.
  intros Hi. unfold rd, arr_read. rewrite length_app. rewrite (proj2 (Z.leb_le 0 off)), (proj2 (Z.leb_le 0 (off - _))) by lia.
  replace (off - Z.of_nat (length l) + Z.of_nat n <=? Z.of_nat (length m)) with (off + Z.of_nat n <=? Z.of_nat (length l + length m)) by (apply eq_true_iff_eq; rewrite !Z.leb_le; lia).
  destruct (_ && _); [|done]. do 2 f_equal. rewrite drop_app_ge by lia. f_equal. lia.
Qed.
Lemma wr_app_r off x l m r : Z.of_nat (length l) <= off -> wr (off - Z.of_nat (length l)) x m = Done r -> wr off x (l ++ m) = Done (l ++ r).
Proof.
  intros Hi. unfold wr, arr_write. rewrite length_app. rewrite (proj2 (Z.leb_le 0 off)), (proj2 (Z.leb_le 0 (off - _))) by lia.
  replace (off - Z.of_nat (length l) + Z.of_nat (length x) <=? Z.of_nat (length m)) with (off + Z.of_nat (length x) <=? Z.of_nat (length l + length m)) by (apply eq_true_iff_eq; rewrite !Z.leb_le; lia).
  cbn [andb]. destruct (_ <=? _); [|done]. intros [= <-]. f_equal. rewrite take_app_ge, drop_app_ge by lia. rewrite <- app_assoc.
  replace (Z.to_nat off - length l)%nat with (Z.to_nat (off - Z.of_nat (length l))) by lia.
  replace (Z.to_nat off + length x - length l)%nat with (Z.to_nat (off - Z.of_nat (length l)) + length x)%nat by lia. done.
Qed.
Lemma swap_app_r i j l m r : Z.of_nat (length l) <= i -> Z.of_nat (length l) <= j ->
  swap (i - Z.of_nat (length l)) (j - Z.of_nat (length l)) m = Done r -> swap i j (l ++ m) = Done (l ++ r).
Proof.
  intros Hi Hj. unfold swap. rewrite !arr_get_app_r by lia. destruct (arr_get m _) as [a|]; [|done]. destruct (arr_get m _) as [b|]; [|done].
  destruct (arr_set m _ b) as [m'|] eqn:E3; [|done]. rewrite (arr_set_app_r _ _ _ _ _ Hi E3). destruct (arr_set m' _ a) as [m''|] eqn:E4; [|done].
  rewrite (arr_set_app_r _ _ _ _ _ Hj E4). by intros [= <-].
Qed.
Lemma he2ne_app_r off n l m r : Z.of_nat (length l) <= off -> he2ne (off - Z.of_nat (length l)) n m = Done r -> he2ne off n (l ++ m) = Done (l ++ r).
Proof.
  intros Hi. unfold he2ne. destruct (n =? 2).
  - intros E. apply swap_app_r; [lia | lia|]. by replace (off + 1 - Z.of_nat (length l)) with (off - Z.of_nat (length l) + 1) by lia.
  - destruct (n =? 4); [|by intros [= <-]]. destruct (swap _ _ m) as [m'| | |] eqn:E; try done. cbn [outcome_bind]. intros E'.
    rewrite (swap_app_r off (off + 3) l m m'); [|lia|lia|by replace (off + 3 - Z.of_nat (length l)) with (off - Z.of_nat (length l) + 3) by lia].
    cbn [outcome_bind]. apply swap_app_r; [lia | lia|].
    replace (off + 1 - Z.of_nat (length l)) with (off - Z.of_nat (length l) + 1) by lia. by replace (off + 2 - Z.of_nat (length l)) with (off - Z.of_nat (length l) + 2) by lia.
Qed.
Lemma setMAC_app_r off from l m r : Z.of_nat (length l) <= off -> setMACAddress (off - Z.of_nat (length l)) from m = Done r -> setMACAddress off from (l ++ m) = Done (l ++ r).
Proof. intros Hi. unfold setMACAddress. destruct (rd 0 6 from); try done. cbn [outcome_bind]. by apply wr_app_r. Qed.
Lemma memcpy_copies n : forall to from, (n <= length to)%nat -> (n <= length from)%nat -> memcpy to from n = Done (take n from ++ drop n to).
Proof.
  induction n as [|n IH]; intros to from Ht Hf; [done|]. destruct to as [|a to], from as [|b from]; cbn in *; try lia. rewrite IH by lia. done.
Qed.
