(* ===== verification/MyosNet.v ===== *)
(** * myos: the network stack

    The state [struct NetInfo] and the protocols of [kernel/net], from frames to the HTTP
    server, with the file system of [kernel/core/fs.c] it serves.  Packets are built as
    the code builds them, field by field in an object on the stack, and received packets
    are converted in the buffer of the network card. *)
From S2P Require Import Prelude MyosMem.
From Stdlib Require String Ascii.
Import Lib.
Import String.StringSyntax.
#[local] Open Scope Z_scope.
Bind Scope string_scope with String.string.
#[local] Open Scope Z_scope.

(** ** include/net.h *)

Inductive ARPCACHE_STATUS := ARPCACHE_WAIT_REPLY | ARPCACHE_CACHED.
Record ARPCacheEntry := Entry { c_IPAddr : Z; c_MACAddr : list Z; c_status : ARPCACHE_STATUS }.

Inductive TCP_CONT_STATUS :=
| TCP_CONT_CLOSED | TCP_CONT_SYN_SENT | TCP_CONT_ESTABLISHED | TCP_CONT_ACK_WAIT | TCP_CONT_SENDING
| TCP_CONT_FIN_WAIT1 | TCP_CONT_FIN_WAIT2 | TCP_CONT_TIME_WAIT.
(** [data] is the memory that was allocated for the connection. *)
Record TCPConnection := Connection {
  status : TCP_CONT_STATUS; IPDest : Z; portDest : Z; portSrc : Z; seqNum : Z; ackNum : Z;
  windowSize : Z; sendP : Z; length_ : Z; data : list Z
}.

(** Beside the variables of [Net]: [kmalloced] of the allocator, the memory at
    [TEMP_ADDRESS+1000], the frames given to the network card, and the image of the file
    system with the variable [FS] that points into it. *)
Record myosFS := Fs { Header : Z; MetaData : Z; fs_data : Z }.
Record NetInfo := Net {
  IPAddr : Z; requestedIPAddr : Z; MACAddr : list Z; subnetMask : Z; RouterIPAddr : Z; DNSServerIPAddr : Z;
  gotIPAddr : bool; IP_id : Z; Cache : list ARPCacheEntry; Connections : list TCPConnection;
  kmalloced : Z; temp : list Z; sent : list (list Z); image : list Z; FS : myosFS
}.

Definition set_IPAddr x s := Net x (requestedIPAddr s) (MACAddr s) (subnetMask s) (RouterIPAddr s) (DNSServerIPAddr s) (gotIPAddr s) (IP_id s) (Cache s) (Connections s) (kmalloced s) (temp s) (sent s) (image s) (FS s).
Definition set_requestedIPAddr x s := Net (IPAddr s) x (MACAddr s) (subnetMask s) (RouterIPAddr s) (DNSServerIPAddr s) (gotIPAddr s) (IP_id s) (Cache s) (Connections s) (kmalloced s) (temp s) (sent s) (image s) (FS s).
Definition set_MACAddr x s := Net (IPAddr s) (requestedIPAddr s) x (subnetMask s) (RouterIPAddr s) (DNSServerIPAddr s) (gotIPAddr s) (IP_id s) (Cache s) (Connections s) (kmalloced s) (temp s) (sent s) (image s) (FS s).
Definition set_subnetMask x s := Net (IPAddr s) (requestedIPAddr s) (MACAddr s) x (RouterIPAddr s) (DNSServerIPAddr s) (gotIPAddr s) (IP_id s) (Cache s) (Connections s) (kmalloced s) (temp s) (sent s) (image s) (FS s).
Definition set_RouterIPAddr x s := Net (IPAddr s) (requestedIPAddr s) (MACAddr s) (subnetMask s) x (DNSServerIPAddr s) (gotIPAddr s) (IP_id s) (Cache s) (Connections s) (kmalloced s) (temp s) (sent s) (image s) (FS s).
Definition set_DNSServerIPAddr x s := Net (IPAddr s) (requestedIPAddr s) (MACAddr s) (subnetMask s) (RouterIPAddr s) x (gotIPAddr s) (IP_id s) (Cache s) (Connections s) (kmalloced s) (temp s) (sent s) (image s) (FS s).
Definition set_gotIPAddr x s := Net (IPAddr s) (requestedIPAddr s) (MACAddr s) (subnetMask s) (RouterIPAddr s) (DNSServerIPAddr s) x (IP_id s) (Cache s) (Connections s) (kmalloced s) (temp s) (sent s) (image s) (FS s).
Definition set_IP_id x s := Net (IPAddr s) (requestedIPAddr s) (MACAddr s) (subnetMask s) (RouterIPAddr s) (DNSServerIPAddr s) (gotIPAddr s) x (Cache s) (Connections s) (kmalloced s) (temp s) (sent s) (image s) (FS s).
Definition set_Cache x s := Net (IPAddr s) (requestedIPAddr s) (MACAddr s) (subnetMask s) (RouterIPAddr s) (DNSServerIPAddr s) (gotIPAddr s) (IP_id s) x (Connections s) (kmalloced s) (temp s) (sent s) (image s) (FS s).
Definition set_Connections x s := Net (IPAddr s) (requestedIPAddr s) (MACAddr s) (subnetMask s) (RouterIPAddr s) (DNSServerIPAddr s) (gotIPAddr s) (IP_id s) (Cache s) x (kmalloced s) (temp s) (sent s) (image s) (FS s).
Definition set_kmalloced x s := Net (IPAddr s) (requestedIPAddr s) (MACAddr s) (subnetMask s) (RouterIPAddr s) (DNSServerIPAddr s) (gotIPAddr s) (IP_id s) (Cache s) (Connections s) x (temp s) (sent s) (image s) (FS s).
Definition set_temp x s := Net (IPAddr s) (requestedIPAddr s) (MACAddr s) (subnetMask s) (RouterIPAddr s) (DNSServerIPAddr s) (gotIPAddr s) (IP_id s) (Cache s) (Connections s) (kmalloced s) x (sent s) (image s) (FS s).
Definition set_sent x s := Net (IPAddr s) (requestedIPAddr s) (MACAddr s) (subnetMask s) (RouterIPAddr s) (DNSServerIPAddr s) (gotIPAddr s) (IP_id s) (Cache s) (Connections s) (kmalloced s) (temp s) x (image s) (FS s).
Definition set_FS x s := Net (IPAddr s) (requestedIPAddr s) (MACAddr s) (subnetMask s) (RouterIPAddr s) (DNSServerIPAddr s) (gotIPAddr s) (IP_id s) (Cache s) (Connections s) (kmalloced s) (temp s) (sent s) (image s) x.

Definition FRAME_HEADER_LENGTH : Z := 18.
Definition FRAME_DATA_MAX : Z := 1000.
Definition FRAME_IP : Z := 0x0800.
Definition FRAME_ARP : Z := 0x0806.
Definition ARP_PACKET_SIZE : Z := 46.
Definition ARP_CACHE_MAX : Z := 20.
Definition UDP_HEADER_LENGTH : Z := 8.
Definition TCP_DEFAULT_WINDOW_SIZE : Z := 400.
Definition TCP_DATASIZE_MAX : Z := 1300.
Definition TCP_HEADER_LENGTH : Z := 5.
Definition TCP_CONT_MAX : Z := 30.
Definition TCP_CTRLFLAG_FIN : Z := 0x01.
Definition TCP_CTRLFLAG_SYN : Z := 0x02.
Definition TCP_CTRLFLAG_ACK : Z := 0x10.
Definition IP_BROADCAST_ADDRESS : Z := 0xffffffff.
Definition IP_PACKET_TTL : Z := 0x80.
Definition IP_ID_MAX : Z := 0xffff.
Definition IP_HEADER_LENGTH : Z := 20.
Definition IP_PROTOCOL_ICMP : Z := 1.
Definition IP_PROTOCOL_TCP : Z := 6.
Definition IP_PROTOCOL_UDP : Z := 17.
Definition DHCP_OPTION_TYPE : Z := 0x35.
Definition DHCP_OPTION_ROUTER_IP_ADDR : Z := 0x03.
Definition DHCP_OPTION_REQUEST_IP_ADDR : Z := 0x32.
Definition DHCP_OPTION_REQUEST_IP_ADDR_LENGTH : Z := 0x04.
Definition DHCP_OPTION_DNS_SERVER_IP_ADDR : Z := 0x06.
Definition DHCP_OPTION_SUBNETMASK : Z := 0x01.
Definition DHCP_OPTION_PADDING : Z := 0x00.
Definition DHCP_OPTION_END : Z := 0xffffffff.
Definition DHCP_DISCOVER : Z := 0x01.
Definition DHCP_OFFER : Z := 0x02.
Definition DHCP_REQUEST : Z := 0x03.
Definition DHCP_ACK : Z := 0x05.

(** ** What the C code leaves open *)

(** Objects on the stack start with what was there before, and [sendFrame] takes the
    bytes of a pointer. *)
Inductive local := L_Frame | L_ARP | L_IP | L_Echo | L_UDP | L_TCP | L_DHCP | L_DNS | L_domain | L_method | L_path | L_version.
Inductive mac_array := A_gateway | A_broadcast | A_request.
Class Machine := {
  left_over : local -> NetInfo -> nat -> Z;
  address_of : mac_array -> NetInfo -> Z
}.

Module Stack.
Section Stack.
Context `{Machine}.
#[local] Abbreviation net := (M NetInfo).

Definition uninit (l : local) (n : nat) (s : NetInfo) : list Z := map (left_over l s) (seq 0 n).
Definition set8 (off v : Z) (m : list Z) : outcome (list Z) := wr off (le 1 v) m.
Definition set16 (off v : Z) (m : list Z) : outcome (list Z) := wr off (le 2 v) m.
Definition set32 (off v : Z) (m : list Z) : outcome (list Z) := wr off (le 4 v) m.
(** [memcpy] to the end of an object, from [off] on. *)
Definition copy_to (off : nat) (from : list Z) (size : Z) (m : list Z) : outcome (list Z) :=
  r <-- memcpy (drop off m) from (Z.to_nat (u32 size)) ;; Done (take off m ++ r).

(** ** sys/sys.c *)

Definition sendPacket (frame : list Z) (size : Z) : net unit :=
  f <- lift (rd 0 (Z.to_nat size) frame) ;; modify (fun s => set_sent (sent s ++ [f]) s).

(** ** net.c *)

(** [hwDest] is a pointer, and its own bytes are copied. *)
Definition sendFrame (hwDest : Z) (type : Z) (data : list Z) (size : Z) : net unit :=
  s <- get ;;
  Frame <- lift (
    m <-- setMACAddress 0 (le 8 hwDest) (uninit L_Frame 1014 s) ;;
    m <-- setMACAddress 6 (MACAddr s) m ;;
    m <-- set16 12 type m ;;
    m <-- copy_to 14 data size m ;;
    he2ne 12 2 m) ;;
  sendPacket Frame (u32 (size + FRAME_HEADER_LENGTH)).

(** ** ip.c *)

(** The sum of [n] words of an object. *)
Fixpoint sum_words (off : Z) (n : nat) (m : list Z) : outcome Z :=
  match n with O => Done 0 | S n => w <-- rd_int off 2 m ;; r <-- sum_words (off + 2) n m ;; Done (w + r) end.
Definition fold_checksum (checksum : Z) : Z := u32 (Z.land checksum 0xffff + Z.shiftr checksum 16).
Definition complement (checksum : Z) : Z :=
  if u32 (Z.lnot checksum) =? 0 then 0xffff else u16 (u32 (Z.lnot checksum)).

Definition sendIPPacket (IPDest protocol : Z) (data : list Z) (size : Z) : net unit :=
  s <- get ;;
  let hwDest := address_of A_gateway s in
  let id0 := u16 (IP_id s + 1) in
  let id := if id0 =? IP_ID_MAX then 0 else id0 in
  put (set_IP_id id s) ;;;
  Packet <- lift (
    m <-- set8 0 0x45 (uninit L_IP 1020 s) ;;
    m <-- set8 1 0x00 m ;;
    m <-- set16 2 (20 + size) m ;;
    m <-- set16 4 id m ;;
    m <-- set16 6 0x00 m ;;
    m <-- set8 8 IP_PACKET_TTL m ;;
    m <-- set8 9 protocol m ;;
    m <-- set16 10 0x0000 m ;;
    m <-- set32 12 (IPAddr s) m ;;
    m <-- set32 16 IPDest m ;;
    m <-- copy_to 20 data size m ;;
    m <-- he2ne 2 2 m ;;
    m <-- he2ne 4 2 m ;;
    m <-- he2ne 6 2 m ;;
    m <-- he2ne 10 2 m ;;
    m <-- he2ne 12 4 m ;;
    m <-- he2ne 16 4 m ;;
    checksum <-- sum_words 0 10 m ;;
    set16 10 (complement (fold_checksum (u32 checksum))) m) ;;
  sendFrame hwDest FRAME_IP Packet (u32 (IP_HEADER_LENGTH + size)).

(** ** udp.c *)

Definition sendUDPPacket (IPDest portSrc portDest : Z) (data : list Z) (size : Z) : net unit :=
  s <- get ;;
  Packet <- lift (
    m <-- set16 0 portSrc (uninit L_UDP 1008 s) ;;
    m <-- set16 2 portDest m ;;
    m <-- set16 4 (UDP_HEADER_LENGTH + size) m ;;
    m <-- set16 6 0x0000 m ;;
    m <-- copy_to 8 data size m ;;
    m <-- he2ne 0 2 m ;;
    m <-- he2ne 2 2 m ;;
    m <-- he2ne 4 2 m ;;
    he2ne 6 2 m) ;;
  sendIPPacket IPDest IP_PROTOCOL_UDP Packet (UDP_HEADER_LENGTH + size).

(** ** icmp.c *)

(** The packet of [sendEchoRequest], and with another type of [receiveICMPPacket]. *)
Definition echo_packet (type : Z) (s : NetInfo) : outcome (list Z) :=
  m <-- set8 0 type (uninit L_Echo 12 s) ;;
  m <-- set8 1 0x00 m ;;
  m <-- set16 2 0x00 m ;;
  m <-- set16 4 0x1221 m ;;
  m <-- set16 6 1 m ;;
  m <-- set32 8 0x1234abcd m ;;
  m <-- he2ne 2 2 m ;;
  m <-- he2ne 4 2 m ;;
  m <-- he2ne 6 2 m ;;
  m <-- he2ne 8 4 m ;;
  checksum <-- sum_words 0 6 m ;;
  set16 2 (complement (fold_checksum (u32 checksum))) m.
Definition sendEchoRequest (to : Z) : net unit :=
  s <- get ;; Packet <- lift (echo_packet 0x08 s) ;; sendIPPacket to IP_PROTOCOL_ICMP Packet 12.
(** [Request] is an offset in the buffer. *)
Definition receiveICMPPacket (Request : Z) (IPSrc : Z) (buf : list Z) : net (list Z) :=
  buf <- lift (
    m <-- he2ne (Request + 2) 2 buf ;;
    m <-- he2ne (Request + 4) 2 m ;;
    m <-- he2ne (Request + 6) 2 m ;;
    he2ne (Request + 8) 4 m) ;;
  s <- get ;; Packet <- lift (echo_packet 0x00 s) ;; sendIPPacket IPSrc IP_PROTOCOL_ICMP Packet 12 ;;; ret buf.

(** ** arp.c *)

Definition arp_convert (off : Z) (m : list Z) : outcome (list Z) :=
  m <-- he2ne off 2 m ;;
  m <-- he2ne (off + 2) 2 m ;;
  m <-- he2ne (off + 6) 2 m ;;
  m <-- he2ne (off + 14) 4 m ;;
  he2ne (off + 24) 4 m.
Definition sendARPRequest (to : Z) : net unit :=
  s <- get ;;
  Packet <- lift (
    m <-- setMACAddress 8 (MACAddr s) (uninit L_ARP 28 s) ;;
    m <-- set32 24 to m ;;
    m <-- set32 14 (IPAddr s) m ;;
    m <-- set16 0 0x0001 m ;;
    m <-- set16 2 0x0800 m ;;
    m <-- set8 4 0x06 m ;;
    m <-- set8 5 0x04 m ;;
    m <-- set16 6 0x0001 m ;;
    arp_convert 0 m) ;;
  sendFrame (address_of A_broadcast s) FRAME_ARP Packet ARP_PACKET_SIZE.
Definition receiveARPRequest (Request : Z) (buf : list Z) : net unit :=
  s <- get ;;
  Reply <- lift (
    m <-- setMACAddress 8 (MACAddr s) (uninit L_ARP 28 s) ;;
    hwSrc <-- rd (Request + 8) 6 buf ;;
    m <-- setMACAddress 18 hwSrc m ;;
    IPSrc <-- rd_int (Request + 14) 4 buf ;;
    m <-- set32 24 IPSrc m ;;
    m <-- set32 14 (IPAddr s) m ;;
    m <-- set16 0 0x0001 m ;;
    m <-- set16 2 0x0800 m ;;
    m <-- set8 4 0x06 m ;;
    m <-- set8 5 0x04 m ;;
    m <-- set16 6 0x0002 m ;;
    arp_convert 0 m) ;;
  sendFrame (address_of A_request s) FRAME_ARP Reply ARP_PACKET_SIZE.
(** The loop reads an entry before it tests the index. *)
Fixpoint find_cache (fuel : nat) (stop : ARPCacheEntry -> bool) (i : Z) : net Z :=
  match fuel with
  | O => no_fuel
  | S fuel => s <- get ;; e <- need (arr_get (Cache s) i) ;; if negb (stop e) && (i <? ARP_CACHE_MAX) then find_cache fuel stop (i + 1) else ret i
  end.
Definition set_cache (i : Z) (f : ARPCacheEntry -> ARPCacheEntry) : net unit :=
  s <- get ;; e <- need (arr_get (Cache s) i) ;; c <- need (arr_set (Cache s) i (f e)) ;; put (set_Cache c s).
Definition receiveARPReply (Reply : Z) (buf : list Z) : net unit :=
  IPSrc <- lift (rd_int (Reply + 14) 4 buf) ;;
  i <- find_cache 21 (fun e => c_IPAddr e =? IPSrc) 1 ;;
  if i =? ARP_CACHE_MAX then ret tt
  else
    hwSrc <- lift (rd (Reply + 8) 6 buf) ;;
    set_cache i (fun e => Entry (c_IPAddr e) hwSrc ARPCACHE_CACHED).
Definition receiveARPPacket (Packet : Z) (buf : list Z) : net (list Z) :=
  buf <- lift (arp_convert Packet buf) ;;
  operation <- lift (rd_int (Packet + 6) 2 buf) ;;
  (if operation =? 0x0001 then receiveARPRequest Packet buf
   else if operation =? 0x0002 then receiveARPReply Packet buf
   else ret tt) ;;;
  ret buf.

(** ** dhcp.c *)

Definition sendDHCPPacket (type : Z) : net unit :=
  s <- get ;;
  packet <- lift (
    m <-- set8 0 0x01 (uninit L_DHCP 300 s) ;;
    m <-- set8 1 1 m ;;
    m <-- set8 2 6 m ;;
    m <-- set8 3 0 m ;;
    m <-- set32 4 0x1234 m ;;
    m <-- set16 8 1 m ;;
    m <-- set32 12 0 m ;;
    m <-- set32 16 0 m ;;
    m <-- set32 24 0 m ;;
    m <-- set32 236 0x63825363 m ;;
    m <-- set8 240 0x35 m ;;
    m <-- set8 241 0x01 m ;;
    m <-- set8 242 type m ;;
    m <-- set8 243 0x3d m ;;
    m <-- set8 244 0x07 m ;;
    m <-- set8 245 0x01 m ;;
    m <-- (if type =? DHCP_DISCOVER then set8 252 0xff m else Done m) ;;
    m <-- setMACAddress 246 (MACAddr s) m ;;
    m <-- setMACAddress 28 (MACAddr s) m ;;
    m <-- (if type =? DHCP_REQUEST then
             m <-- set8 252 DHCP_OPTION_REQUEST_IP_ADDR m ;;
             m <-- set8 253 DHCP_OPTION_REQUEST_IP_ADDR_LENGTH m ;;
             m <-- set32 254 (IPAddr s) m ;;
             m <-- he2ne 254 4 m ;;
             set8 258 0xff m
           else Done m) ;;
    m <-- he2ne 4 4 m ;;
    m <-- he2ne 8 2 m ;;
    m <-- he2ne 12 4 m ;;
    m <-- he2ne 16 4 m ;;
    m <-- he2ne 24 4 m ;;
    he2ne 236 4 m) ;;
  sendUDPPacket 0xffffffff 68 67 packet 300.
Definition getIPAddrByDHCP : net unit := sendDHCPPacket DHCP_DISCOVER.

(** A [char] is signed. *)
Definition option_byte (options : Z) (buf : list Z) : outcome Z := b <-- rd_int options 1 buf ;; Done (s8 b).
(** An address in an option: it is stored and then converted where it is stored. *)
Definition option_address (options : Z) (buf : list Z) : outcome Z :=
  l <-- rd (options + 2) 4 buf ;; l <-- ne2he 0 4 l ;; Done (un_le l).
(** The loop over the options; the result is [isOFFERPacket]. *)
Fixpoint read_options (fuel : nat) (options : Z) (isOFFERPacket : bool) (buf : list Z) : net bool :=
  match fuel with
  | O => no_fuel
  | S fuel =>
      o0 <- lift (option_byte options buf) ;;
      let skip isOFFER := o1 <- lift (option_byte (options + 1) buf) ;; read_options fuel (options + (2 + o1)) isOFFER buf in
      if o0 =? DHCP_OPTION_TYPE then
        o2 <- lift (option_byte (options + 2) buf) ;;
        let isOFFER := if o2 =? DHCP_OFFER then true else isOFFERPacket in
        if o2 =? DHCP_ACK then
          modify (set_gotIPAddr true) ;;; modify (fun s => set_IPAddr (requestedIPAddr s) s) ;;; ret false
        else skip isOFFER
      else if o0 =? DHCP_OPTION_ROUTER_IP_ADDR then
        a <- lift (option_address options buf) ;; modify (set_RouterIPAddr a) ;;; skip isOFFERPacket
      else if o0 =? DHCP_OPTION_DNS_SERVER_IP_ADDR then
        a <- lift (option_address options buf) ;; modify (set_DNSServerIPAddr a) ;;; skip isOFFERPacket
      else if o0 =? DHCP_OPTION_SUBNETMASK then
        a <- lift (option_address options buf) ;; modify (set_subnetMask a) ;;; skip isOFFERPacket
      else if u32 o0 =? DHCP_OPTION_END then ret isOFFERPacket
      else if o0 =? DHCP_OPTION_PADDING then read_options fuel (options + 1) isOFFERPacket buf
      else skip isOFFERPacket
  end.
Definition receiveDHCPPacket (fuel : nat) (Packet : Z) (buf : list Z) : net (list Z) :=
  buf <- lift (ne2he (Packet + 16) 4 buf) ;;
  IPUser <- lift (rd_int (Packet + 16) 4 buf) ;;
  modify (set_requestedIPAddr IPUser) ;;;
  isOFFERPacket <- read_options fuel (Packet + 240) false buf ;;
  (if (isOFFERPacket : bool) then sendDHCPPacket DHCP_REQUEST else ret tt) ;;;
  ret buf.

Definition receiveUDPPacket (fuel : nat) (Packet : Z) (IPSrc size : Z) (buf : list Z) : net (list Z) :=
  buf <- lift (
    m <-- ne2he Packet 2 buf ;;
    m <-- ne2he (Packet + 2) 2 m ;;
    m <-- ne2he (Packet + 4) 2 m ;;
    ne2he (Packet + 6) 2 m) ;;
  portDest <- lift (rd_int (Packet + 2) 2 buf) ;;
  if portDest =? 68 then receiveDHCPPacket fuel (Packet + 8) buf else ret buf.

(** ** dns.c *)

Definition DNS_PORT_SRC : Z := 12345.
Definition DNS_PORT_DEST : Z := 53.
Definition DOT : Z := 46.
(** Dots become ends of strings; the number of dots. *)
Fixpoint cut_labels (domain : list Z) : outcome (Z * list Z) :=
  match domain with
  | [] => Undef
  | c :: domain' =>
      if c =? 0 then Done (0, domain)
      else r <-- cut_labels domain' ;; Done (if c =? DOT then (fst r + 1, 0 :: snd r) else (fst r, c :: snd r))
  end.
(** To the next zero. *)
Fixpoint skip_label (fuel : nat) (j : Z) (domain : list Z) : outcome Z :=
  match fuel with
  | O => Fuel
  | S fuel => c <-- rd_int j 1 domain ;; if c =? 0 then Done j else skip_label fuel (j + 1) domain
  end.
Fixpoint put_lengths (n : nat) (j : Z) (domain : list Z) : outcome (list Z) :=
  match n with
  | O => Done domain
  | S n =>
      len <-- (rest <-- rd (j + 1) (Z.to_nat (250 - (j + 1))) domain ;; strlen rest) ;;
      domain <-- set8 j len domain ;;
      j <-- skip_label 251 j domain ;;
      put_lengths n j domain
  end.
Definition dns_question (qDomain : list Z) (s : NetInfo) : outcome (Z * list Z) :=
  domain <-- (let d := uninit L_domain 250 s in r <-- strcpy (drop 1 d) qDomain ;; Done (take 1 d ++ r)) ;;
  domainLength <-- strlen domain ;;
  r <-- cut_labels domain ;;
  domain <-- put_lengths (Z.to_nat (fst r + 1)) 0 (snd r) ;;
  Done (domainLength, domain).
Definition resolveDomainByDNS (qDomain : list Z) : net Z :=
  s <- get ;;
  Packet <- lift (
    q <-- dns_question qDomain s ;;
    let domainLength := fst q in
    m <-- set16 0 0x1234 (uninit L_DNS 262 s) ;;
    m <-- set16 2 0x0100 m ;;
    m <-- set16 4 1 m ;;
    m <-- copy_to 12 (snd q) (domainLength + 1) m ;;
    m <-- set16 (12 + domainLength + 1) 1 m ;;
    m <-- set16 (12 + domainLength + 3) 1 m ;;
    m <-- he2ne 0 2 m ;;
    m <-- he2ne 2 2 m ;;
    m <-- he2ne 4 2 m ;;
    m <-- he2ne 6 2 m ;;
    m <-- he2ne 8 2 m ;;
    m <-- he2ne 10 2 m ;;
    m <-- he2ne (12 + domainLength + 1) 2 m ;;
    he2ne (12 + domainLength + 3) 2 m) ;;
  sendUDPPacket (DNSServerIPAddr s) DNS_PORT_DEST DNS_PORT_SRC Packet 262 ;;;
  ret 0.

(** ** tcp.c *)

Definition connection (ct : Z) : net TCPConnection := s <- get ;; need (arr_get (Connections s) ct).
Definition set_connection (ct : Z) (f : TCPConnection -> TCPConnection) : net unit :=
  s <- get ;; c <- need (arr_get (Connections s) ct) ;; cs <- need (arr_set (Connections s) ct (f c)) ;; put (set_Connections cs s).
Definition set_status x c := Connection x (IPDest c) (portDest c) (portSrc c) (seqNum c) (ackNum c) (windowSize c) (sendP c) (length_ c) (data c).
Definition set_sendP x c := Connection (status c) (IPDest c) (portDest c) (portSrc c) (seqNum c) (ackNum c) (windowSize c) x (length_ c) (data c).
Definition set_data n x c := Connection (status c) (IPDest c) (portDest c) (portSrc c) (seqNum c) (ackNum c) (windowSize c) (sendP c) n x.
(** The numbers of the received packet, and the smaller window. *)
Definition set_numbers seq ack window c :=
  Connection (status c) (IPDest c) (portDest c) (portSrc c) seq ack (if windowSize c <? window then windowSize c else window) (sendP c) (length_ c) (data c).

(** The sum over the pseudo header. *)
Definition swap16 (v : Z) : outcome Z := m <-- he2ne 0 2 (le 2 v) ;; Done (un_le m).
Fixpoint sum_swapped (vs : list Z) : outcome Z :=
  match vs with [] => Done 0 | v :: vs => w <-- swap16 v ;; r <-- sum_swapped vs ;; Done (w + r) end.
Definition pseudo_header (src dst size : Z) : list Z :=
  [Z.land src 0xffff; Z.land (Z.shiftr src 16) 0xffff; Z.land dst 0xffff; Z.land (Z.shiftr dst 16) 0xffff; 0x0006; u16 size].
Definition sendTCPPacket (cont : TCPConnection) (ctrlBits size : Z) (data : list Z) (isHeaderOnly : bool) : net unit :=
  s <- get ;;
  Packet <- lift (
    m <-- set16 0 (portSrc cont) (uninit L_TCP 1320 s) ;;
    m <-- set16 2 (portDest cont) m ;;
    m <-- set32 4 (seqNum cont) m ;;
    m <-- set32 8 (ackNum cont) m ;;
    m <-- set16 14 (windowSize cont) m ;;
    m <-- set16 18 0 m ;;
    m <-- set16 12 (Z.shiftl TCP_HEADER_LENGTH 12 + ctrlBits) m ;;
    m <-- set16 16 0 m ;;
    m <-- (if isHeaderOnly then Done m else copy_to 20 data (size - TCP_HEADER_LENGTH * 4) m) ;;
    m <-- he2ne 0 2 m ;;
    m <-- he2ne 2 2 m ;;
    m <-- he2ne 4 4 m ;;
    m <-- he2ne 8 4 m ;;
    m <-- he2ne 14 2 m ;;
    m <-- he2ne 18 2 m ;;
    m <-- he2ne 12 2 m ;;
    m <-- he2ne 16 2 m ;;
    ps <-- sum_swapped (pseudo_header (IPAddr s) (IPDest cont) size) ;;
    hs <-- sum_words 0 10 m ;;
    ds <-- (if isHeaderOnly then Done 0 else sum_words 20 (Z.to_nat (Z.quot (size - TCP_HEADER_LENGTH * 4) 2)) m) ;;
    set16 16 (complement (fold_checksum (u32 (ps + hs + ds)))) m) ;;
  sendIPPacket (IPDest cont) IP_PROTOCOL_TCP Packet (u32 size).

(** core/memory.c *)
Definition BASE_ADDRESS : Z := 0xc0000000000.
Definition kmalloc (memsize : Z) : net Z :=
  s <- get ;;
  let k := u64 (kmalloced s + u64 (memsize + 0x1000)) in
  put (set_kmalloced k s) ;;;
  ret (Z.land (u64 (k - u64 (memsize + 0x1000) + BASE_ADDRESS)) 0xfffffffff000).

Definition HEADER_BYTES : Z := TCP_HEADER_LENGTH * 4.
(** [data] is the memory at the pointer. *)
Definition sendDataByTCP (ct : Z) (data : list Z) (length : Z) : net unit :=
  c <- connection ct ;;
  if length <? windowSize c then
    set_connection ct (fun c => set_sendP 0 (set_status TCP_CONT_FIN_WAIT1 c)) ;;;
    (c <- connection ct ;; sendTCPPacket c TCP_CTRLFLAG_ACK (s32 (length + HEADER_BYTES)) data false) ;;;
    (c <- connection ct ;; sendTCPPacket c (Z.lor TCP_CTRLFLAG_ACK TCP_CTRLFLAG_FIN) HEADER_BYTES [] true)
  else
    kmalloc length ;;;
    copy <- lift (rd 0 (Z.to_nat (u32 length)) data) ;;
    set_connection ct (fun c => set_sendP 400 (set_data (u32 length) copy (set_status TCP_CONT_SENDING c))) ;;;
    (c <- connection ct ;; sendTCPPacket c TCP_CTRLFLAG_ACK (400 + HEADER_BYTES) data false).

(** The loop has the test for the end of the array as its body. *)
Fixpoint find_connection (fuel : nat) (port i : Z) : net Z :=
  match fuel with
  | O => no_fuel
  | S fuel =>
      c <- connection i ;;
      if negb (portSrc c =? port) && (i <? TCP_CONT_MAX) then if i =? TCP_CONT_MAX then ret 1 else find_connection fuel port (i + 1)
      else ret i
  end.
Definition getTCPContBySrcPort (port : Z) : net Z := find_connection 31 port 1.
(** The loop has the first assignment as its body. *)
Fixpoint find_free (fuel : nat) (i : Z) : net Z :=
  match fuel with
  | O => no_fuel
  | S fuel =>
      c <- connection i ;;
      if (portSrc c =? 0) && (i <? TCP_CONT_MAX) then set_connection i (set_status TCP_CONT_CLOSED) ;;; find_free fuel (i + 1) else ret i
  end.
Definition createTCPConnection (IPDest portDest portSrc : Z) : net Z :=
  i <- find_free 31 1 ;;
  set_connection i (fun c => Connection (status c) IPDest portDest portSrc 0x1234 0 TCP_DEFAULT_WINDOW_SIZE (sendP c) (length_ c) (data c)) ;;;
  ret (if i =? TCP_CONT_MAX then 0 else i).
Definition closeTCPConnection (i : Z) : net unit :=
  set_connection i (set_status TCP_CONT_FIN_WAIT1) ;;;
  (c <- connection i ;; sendTCPPacket c (Z.lor TCP_CTRLFLAG_ACK TCP_CTRLFLAG_FIN) HEADER_BYTES [] true).

(** ** core/fs.c *)

Definition SIZEOF_METADATA : Z := 40.
Definition FILE_USING : Z := 1.
Fixpoint count_files (fuel : nat) (i : Z) : net Z :=
  match fuel with
  | O => no_fuel
  | S fuel =>
      s <- get ;; flag <- lift (rd_int (MetaData (FS s) + i * SIZEOF_METADATA) 1 (image s)) ;;
      if flag =? FILE_USING then count_files fuel (i + 1) else ret i
  end.
(** The pointers of [FS] are offsets in the image; the result is the number of files. *)
Definition initFS (fuel : nat) : net Z :=
  s <- get ;;
  fs <- lift (headerSize <-- rd_int 12 4 (image s) ;; metaDataAddr <-- rd_int 16 4 (image s) ;; dataAddr <-- rd_int 20 4 (image s) ;;
              Done (Fs 0 metaDataAddr (dataAddr + headerSize))) ;;
  put (set_FS fs s) ;;; count_files fuel 0.
(** The search of the function comes after a [return]. *)
Definition searchFile (filename : list Z) : net Z := ret 0.
Definition fileExists (filename : list Z) : net bool := i <- searchFile filename ;; ret (negb (i =? -1)).
Definition file_field (off : Z) (filename : list Z) : net Z :=
  i <- searchFile filename ;; s <- get ;; lift (rd_int (MetaData (FS s) + i * SIZEOF_METADATA + off) 4 (image s)).
Definition getFilesize (filename : list Z) : net Z :=
  b <- fileExists filename ;; if (b : bool) then file_field 36 filename else ret (-1).
(** The copy is to [buf] in [temp]. *)
Definition loadFile (buf : Z) (filename : list Z) (bufsize : Z) : net bool :=
  b <- fileExists filename ;;
  if negb b then ret false
  else
    filesize <- getFilesize filename ;;
    if bufsize <? u32 filesize then ret false
    else
      address <- file_field 32 filename ;; filesize <- file_field 36 filename ;;
      s <- get ;; file <- lift (rd (fs_data (FS s) + address) (Z.to_nat filesize) (image s)) ;;
      t <- lift (wr buf file (temp s)) ;; put (set_temp t s) ;;; ret true.

(** ** http-server.c *)

Fixpoint text (s : String.string) : list Z :=
  match s with String.EmptyString => [] | String.String c s => Z.of_N (Ascii.N_of_ascii c) :: text s end.
Definition SPACE : Z := 32.
Definition CR : Z := 13.
Definition LF : Z := 10.
Definition line (s : String.string) : list Z := text s ++ [CR; LF].
Definition HTTP_200_HEADER : list Z :=
  line "HTTP/1.1 200 OK" ++ line "Server: myos" ++ line "Content-Type: text/html; charset=utf-8" ++ line "Connection: close" ++ line "" ++ [0; 0].
Definition HTTP_404_HEADER : list Z :=
  line "HTTP/1.1 404 Not Found" ++ line "Server: myos" ++ line "Connection: close" ++ line "" ++ [0; 0].
Definition sizeof (l : list Z) : Z := Z.of_nat (length l).

Definition char_at (request : list Z) (i : Z) : outcome Z := rd_int i 1 request.
(** Up to [n] characters of a word. *)
Fixpoint read_word (n : nat) (request : list Z) (i : Z) : outcome (list Z * Z) :=
  c <-- char_at request i ;;
  match n with
  | O => Done ([], i)
  | S n => if (c =? SPACE) || (c =? CR) then Done ([], i) else r <-- read_word n request (i + 1) ;; Done (c :: fst r, snd r)
  end.
Definition blank_at (request : list Z) (i : Z) : outcome bool :=
  c <-- char_at request i ;; if negb (c =? CR) then Done false else
  c <-- char_at request (i + 1) ;; if negb (c =? LF) then Done false else
  c <-- char_at request (i + 2) ;; if negb (c =? CR) then Done false else
  c <-- char_at request (i + 3) ;; Done (c =? LF).
Fixpoint find_blank (n : nat) (request : list Z) (i : Z) : outcome Z :=
  match n with O => Done i | S n => b <-- blank_at request i ;; if (b : bool) then Done i else find_blank n request (i + 1) end.
Definition temp_strcpy (str : list Z) : net unit :=
  s <- get ;; t <- lift (strcpy (temp s) str) ;; put (set_temp t s).

Definition HTTPServer (ct : Z) (request : list Z) : net unit :=
  s <- get ;;
  w1 <- lift (read_word 15 request 0) ;;
  method <- lift (wr 0 (fst w1 ++ [0]) (uninit L_method 16 s)) ;;
  w2 <- lift (read_word 31 request (snd w1 + 1)) ;;
  path <- lift (wr 0 (fst w2 ++ [0]) (uninit L_path 32 s)) ;;
  w3 <- lift (read_word 15 request (snd w2 + 1)) ;;
  i <- lift (find_blank 300 request 0) ;;
  b <- lift (blank_at request i) ;;
  if negb b then ret tt
  else
    get_ <- lift (strcmp (text "GET" ++ [0]) method) ;;
    if get_ =? 0 then
      (s <- get ;; t <- lift (wr 0 (repeat 0 8) (temp s)) ;; put (set_temp t s)) ;;;
      temp_strcpy HTTP_200_HEADER ;;;
      root <- lift (strcmp path (text "/" ++ [0])) ;;
      path <- lift (if root =? 0 then strcpy path (text "/index.html" ++ [0]) else Done path) ;;
      filename <- lift (rd 1 31 path) ;;
      loaded <- loadFile (sizeof HTTP_200_HEADER) filename (u64 (8 - sizeof HTTP_200_HEADER)) ;;
      filesize <- (if (loaded : bool) then n <- getFilesize filename ;; ret (u32 n)
                   else temp_strcpy HTTP_404_HEADER ;;; ret (sizeof HTTP_404_HEADER)) ;;
      s <- get ;; sendDataByTCP ct (temp s) (u32 (filesize + 400))
    else
      head_ <- lift (strcmp (text "HEAD" ++ [0]) method) ;;
      if head_ =? 0 then
        temp_strcpy HTTP_200_HEADER ;;; s <- get ;; sendDataByTCP ct (temp s) (sizeof HTTP_200_HEADER)
      else ret tt.

(** ** Received packets *)

(** The three-way handshake. *)
Definition tcp_syn (ct IPSrc p_src p_dest p_seq window : Z) : net unit :=
  set_connection ct (fun c => set_numbers 0x1000 (u32 (p_seq + 1)) window
    (Connection (status c) IPSrc p_src p_dest (seqNum c) (ackNum c) (windowSize c) (sendP c) (length_ c) (data c))) ;;;
  (c <- connection ct ;; sendTCPPacket c (Z.lor TCP_CTRLFLAG_ACK TCP_CTRLFLAG_SYN) HEADER_BYTES [] true).
Definition tcp_fin (ct p_seq p_ack window : Z) : net unit :=
  set_connection ct (set_numbers p_ack (u32 (p_seq + 1)) window) ;;;
  (c <- connection ct ;; sendTCPPacket c (Z.lor TCP_CTRLFLAG_ACK TCP_CTRLFLAG_FIN) HEADER_BYTES [] true).
(** An acknowledgement while data is sent. *)
Definition tcp_sending (ct p_seq p_ack window : Z) : net unit :=
  set_connection ct (set_numbers p_ack p_seq window) ;;;
  c <- connection ct ;;
  rest <- lift (rd (sendP c) (length (data c) - Z.to_nat (sendP c)) (data c)) ;;
  if u32 (length_ c - sendP c) <? windowSize c then
    set_connection ct (set_status TCP_CONT_FIN_WAIT1) ;;;
    (c <- connection ct ;;
     sendTCPPacket c (Z.lor TCP_CTRLFLAG_ACK TCP_CTRLFLAG_FIN) (s32 (u32 (u32 (length_ c - sendP c) + HEADER_BYTES))) rest false)
  else
    sendTCPPacket c TCP_CTRLFLAG_ACK (windowSize c + HEADER_BYTES) rest false ;;;
    set_connection ct (fun c => set_sendP (u32 (sendP c + windowSize c)) c).
Definition tcp_input (ct IPSrc p_src p_dest p_seq p_ack info window : Z) (request : outcome (list Z)) : net unit :=
  if truthy (Z.land info TCP_CTRLFLAG_SYN) then tcp_syn ct IPSrc p_src p_dest p_seq window
  else
    (if truthy (Z.land info TCP_CTRLFLAG_FIN) then tcp_fin ct p_seq p_ack window else ret tt) ;;;
    c <- connection ct ;;
    match status c with
    | TCP_CONT_SENDING => tcp_sending ct p_seq p_ack window
    | _ =>
        set_connection ct (fun c => set_numbers p_ack (u32 (p_seq + 1)) window (set_status TCP_CONT_ACK_WAIT c)) ;;;
        request <- lift request ;;
        HTTPServer ct request
    end.
Definition receiveTCPPacket (Packet : Z) (IPSrc size : Z) (buf : list Z) : net (list Z) :=
  buf <- lift (
    m <-- ne2he (Packet + 12) 2 buf ;;
    m <-- ne2he Packet 2 m ;;
    m <-- ne2he (Packet + 2) 2 m ;;
    m <-- ne2he (Packet + 14) 2 m ;;
    m <-- ne2he (Packet + 8) 4 m ;;
    ne2he (Packet + 4) 4 m) ;;
  p_src <- lift (rd_int Packet 2 buf) ;; p_dest <- lift (rd_int (Packet + 2) 2 buf) ;;
  p_seq <- lift (rd_int (Packet + 4) 4 buf) ;; p_ack <- lift (rd_int (Packet + 8) 4 buf) ;;
  info <- lift (rd_int (Packet + 12) 2 buf) ;; window <- lift (rd_int (Packet + 14) 2 buf) ;;
  ct <- getTCPContBySrcPort p_dest ;;
  tcp_input ct IPSrc p_src p_dest p_seq p_ack info window (rd (Packet + 20) (length buf - Z.to_nat (Packet + 20)) buf) ;;;
  ret buf.

Definition receiveIPPacket (fuel : nat) (Packet : Z) (buf : list Z) : net (list Z) :=
  buf <- lift (
    m <-- ne2he (Packet + 2) 2 buf ;;
    m <-- ne2he (Packet + 4) 2 m ;;
    m <-- ne2he (Packet + 6) 2 m ;;
    m <-- ne2he (Packet + 10) 2 m ;;
    m <-- ne2he (Packet + 12) 4 m ;;
    ne2he (Packet + 16) 4 m) ;;
  dest <- lift (rd_int (Packet + 16) 4 buf) ;;
  s <- get ;;
  if negb (dest =? IPAddr s) && negb (dest =? IP_BROADCAST_ADDRESS) then ret buf
  else
    protocol <- lift (rd_int (Packet + 9) 1 buf) ;;
    IPSrc <- lift (rd_int (Packet + 12) 4 buf) ;;
    dataLength <- lift (rd_int (Packet + 2) 2 buf) ;;
    let size := u16 (dataLength - IP_HEADER_LENGTH) in
    if protocol =? IP_PROTOCOL_TCP then receiveTCPPacket (Packet + 20) IPSrc size buf
    else if protocol =? IP_PROTOCOL_UDP then receiveUDPPacket fuel (Packet + 20) IPSrc size buf
    else ret buf.

Definition receiveFrame (fuel : nat) (frame : list Z) : net unit :=
  type <- lift (v <-- rd_int 12 2 frame ;; swap16 v) ;;
  if type =? FRAME_ARP then receiveARPPacket 14 frame ;;; ret tt
  else if type =? FRAME_IP then receiveIPPacket fuel 14 frame ;;; ret tt
  else ret tt.

(** ** macaddr.c and sys.c: waiting *)

(** A loop that waits for a variable: interrupts bring the frames [arrivals]. *)
Fixpoint wait_until (fuel : nat) (b : NetInfo -> bool) (arrivals : list (list Z)) : net unit :=
  s <- get ;;
  if b s then ret tt
  else match arrivals with [] => no_fuel | f :: arrivals => receiveFrame fuel f ;;; wait_until fuel b arrivals end.

Definition is_cached (i : Z) (s : NetInfo) : bool :=
  match arr_get (Cache s) i with Some e => match c_status e with ARPCACHE_WAIT_REPLY => false | ARPCACHE_CACHED => true end | None => true end.
(** The index of the entry, or [None] for a null pointer.  The branch for a full table comes
    after a read behind the table. *)
Definition getMACAddress (fuel : nat) (IPAddr : Z) (arrivals : list (list Z)) : net (option Z) :=
  s <- get ;;
  match find_index (fun e => c_IPAddr e =? IPAddr) (Cache s) 0 with
  | Some i => ret (Some i)
  | None =>
      i <- find_cache 21 (fun e => c_IPAddr e =? 0) 1 ;;
      set_cache i (fun e => Entry IPAddr (c_MACAddr e) ARPCACHE_WAIT_REPLY) ;;;
      sendARPRequest IPAddr ;;;
      wait_until fuel (is_cached i) arrivals ;;;
      ret None
  end.

(** Up to the address; [mac] is what the network card reports. *)
Definition initNetwork (fuel : nat) (mac : list Z) (arrivals : list (list Z)) : net unit :=
  modify (set_IPAddr 0) ;;; modify (set_gotIPAddr false) ;;; modify (set_MACAddr mac) ;;;
  set_cache 0 (fun e => Entry 0xffffffff (repeat 0xff 6) (c_status e)) ;;;
  ct <- createTCPConnection 0 0 80 ;;
  set_connection ct (set_status TCP_CONT_CLOSED) ;;;
  getIPAddrByDHCP ;;;
  wait_until fuel gotIPAddr arrivals.

End Stack.
End Stack.
