(* ===== verification/MyosSend.v ===== *)
(** * myos: sent packets

    The frames that the send functions give to the network card, byte by byte, and the
    checksums in them. *)
From S2P Require Import Prelude MyosMem MyosNet.
Import Lib Stack.
#[local] Open Scope Z_scope.

(** ** Building a packet *)

Section Build.
Context `{Machine}.

Lemma uninit_split l n m s : (n <= m)%nat -> uninit l m s = uninit l n s ++ map (left_over l s) (seq n (m - n)).
Proof. intros Hn. unfold uninit. rewrite <- map_app. f_equal. replace m with (n + (m - n))%nat at 1 by lia. by rewrite seq_app. Qed.
Lemma uninit_length l n s : length (uninit l n s) = n.
Proof. unfold uninit. by rewrite length_map, length_seq. Qed.
Lemma copy_to_app h rest from size : 0 <= size < 2 ^ 32 -> size <= Z.of_nat (length rest) -> size <= Z.of_nat (length from) ->
  copy_to (length h) from size (h ++ rest) = Done (h ++ take (Z.to_nat size) from ++ drop (Z.to_nat size) rest).
Proof.
  intros Hs Hr Hf. unfold copy_to. rewrite u32_small, drop_app_length, memcpy_copies by lia. cbn. by rewrite take_app_length.
Qed.
(** The words of a sequence of bytes, in the order of the host. *)
Fixpoint word_sum (m : list Z) : Z := match m with a :: b :: m => (a + 256 * b) + word_sum m | _ => 0 end.
Lemma sum_words_app n : forall pre l m, length l = (2 * n)%nat -> sum_words (Z.of_nat (length pre)) n (pre ++ l ++ m) = Done (word_sum l).
Proof.
  induction n as [|n IH]; intros pre l m Hl; [by destruct l|]. destruct l as [|a [|b l]]; cbn in Hl; try lia. cbn [sum_words].
  assert (rd_int (Z.of_nat (length pre)) 2 (pre ++ (a :: b :: l) ++ m) = Done (a + 256 * b)) as ->.
  { unfold rd_int, rd, arr_read. rewrite (proj2 (Z.leb_le 0 (Z.of_nat _))), (proj2 (Z.leb_le (_ + _) _)) by (rewrite ?length_app; cbn; lia).
    change (0 <=? Z.of_nat 2) with true. cbn [andb]. rewrite !Nat2Z.id, drop_app_length. cbn -[Z.add Z.mul]. rewrite take_0. f_equal. cbn [un_le]. lia. }
  cbn [outcome_bind]. pose proof (IH (pre ++ [a; b]) l m ltac:(lia)) as E. rewrite length_app, Nat2Z.inj_add in E. cbn [length] in E.
  rewrite <- app_assoc in E. change ([a; b] ++ l ++ m) with ((a :: b :: l) ++ m) in E. change (Z.of_nat 2) with 2 in E. rewrite E. done.
Qed.
Lemma sum_words_header n l m : length l = (2 * n)%nat -> sum_words 0 n (l ++ m) = Done (word_sum l).
Proof. exact (sum_words_app n [] l m). Qed.
Lemma lift_bind {S A B} (m : outcome A) (k : A -> M S B) s a : m = Done a -> bind (lift m) k s = k a s.
Proof. by intros ->. Qed.
Lemma rd_prefix l m n : Z.of_nat (length l) = n -> rd 0 (Z.to_nat n) (l ++ m) = Done l.
Proof.
  intros <-. rewrite Nat2Z.id. unfold rd, arr_read. rewrite (proj2 (Z.leb_le 0 (Z.of_nat _))), (proj2 (Z.leb_le (0 + _) _)) by (rewrite ?length_app; lia).
  cbn [andb Z.leb Z.compare]. rewrite Nat2Z.id. change (Z.to_nat 0) with 0%nat. by rewrite drop_0, take_app_length.
Qed.
Lemma rd_at pre l post n : length l = n -> rd (Z.of_nat (length pre)) n (pre ++ l ++ post) = Done l.
Proof.
  intros <-. rewrite rd_app_r, Z.sub_diag by lia. rewrite <- (Nat2Z.id (length l)) at 1. apply (rd_prefix l post). lia.
Qed.
Lemma rd_byte pre c post : rd_int (Z.of_nat (length pre)) 1 (pre ++ c :: post) = Done c.
Proof. unfold rd_int. change (c :: post) with ([c] ++ post). rewrite rd_at by done. cbn [outcome_bind un_le]. f_equal. lia. Qed.
End Build.

(** Behind a header and a part of which only the length is known. *)
Section Behind.
Variables (l j : list Z) (n : nat).
Hypothesis j_length : length j = n.
Lemma wr_behind off x m r : Z.of_nat (length l + n) <= off -> wr (off - Z.of_nat (length l + n)) x m = Done r -> wr off x (l ++ j ++ m) = Done (l ++ j ++ r).
Proof. rewrite <- j_length, <- length_app, !app_assoc. apply wr_app_r. Qed.
Lemma he2ne_behind off k m r : Z.of_nat (length l + n) <= off -> he2ne (off - Z.of_nat (length l + n)) k m = Done r -> he2ne off k (l ++ j ++ m) = Done (l ++ j ++ r).
Proof. rewrite <- j_length, <- length_app, !app_assoc. apply he2ne_app_r. Qed.
Lemma setMAC_behind off x m r : Z.of_nat (length l + n) <= off -> setMACAddress (off - Z.of_nat (length l + n)) x m = Done r -> setMACAddress off x (l ++ j ++ m) = Done (l ++ j ++ r).
Proof. rewrite <- j_length, <- length_app, !app_assoc. apply setMAC_app_r. Qed.
Lemma wr_behind_at o off x m r : 0 <= o -> off = Z.of_nat (length l + n) + o -> wr o x m = Done r -> wr off x (l ++ j ++ m) = Done (l ++ j ++ r).
Proof. intros Ho -> E. apply wr_behind; [lia|]. by rewrite Z.add_simpl_l. Qed.
Lemma he2ne_behind_at o off k m r : 0 <= o -> off = Z.of_nat (length l + n) + o -> he2ne o k m = Done r -> he2ne off k (l ++ j ++ m) = Done (l ++ j ++ r).
Proof. intros Ho -> E. apply he2ne_behind; [lia|]. by rewrite Z.add_simpl_l. Qed.
End Behind.

(** The steps on the header of an object, whose bytes are known, and on a part behind it. *)
Lemma obind_step {A B} (m : outcome A) (k : A -> outcome B) a r : m = Done a -> k a = r -> outcome_bind m k = r.
Proof. by intros ->. Qed.
Ltac header_bytes := lazy -[Z.modulo Z.div left_over complement fold_checksum u32 word_sum]; reflexivity.
Ltac header_step :=
  unfold set8, set16, set32;
  first [eapply wr_app; header_bytes | eapply he2ne_app; header_bytes | eapply setMAC_app; header_bytes |
         match goal with Hj : length ?j = _ |- context [_ ++ ?j ++ _] =>
           first [eapply (wr_behind _ _ _ Hj) | eapply (he2ne_behind _ _ _ Hj) | eapply (setMAC_behind _ _ _ Hj)]; [lazy; discriminate | header_bytes] end |
         match goal with |- Done _ = Done _ => reflexivity end].
Ltac build := first [header_step | eapply obind_step; [build | cbn beta]; build].
(** Up to a step of another kind. *)
Ltac build_to := repeat (eapply obind_step; [header_step | cbn beta]).
Ltac build_exact := etransitivity; [build | vm_compute; reflexivity].
Ltac known_bytes t := let t' := eval lazy -[left_over] in t in change t with t'.
(** The copy of the payload behind the header. *)
Ltac copy_payload := eapply obind_step; [match goal with |- copy_to _ _ _ (?h ++ _) = _ => apply (copy_to_app h); rewrite ?length_app; lia end | cbn beta].

Section Send.
Context `{Machine}.
Implicit Type s : NetInfo.

(** Four bytes after the packet are sent, too. *)
Definition frame_tail (size : Z) s : list Z := take 4 (drop (Z.to_nat size) (map (left_over L_Frame s) (seq 14 1000))).
Definition frame (ptr type : Z) (payload : list Z) s : list Z :=
  take 6 (le 8 ptr) ++ MACAddr s ++ be 2 type ++ payload ++ frame_tail (Z.of_nat (length payload)) s.
Lemma six {A} (l : list A) : length l = 6%nat -> exists a b c d e f, l = [a; b; c; d; e; f].
Proof. destruct l as [|a [|b [|c [|d [|e [|f [|]]]]]]]; try done. intros _. by exists a, b, c, d, e, f. Qed.

Lemma sendFrame_ok ptr type payload rest s : length (MACAddr s) = 6%nat -> Z.of_nat (length payload) <= 996 ->
  sendFrame ptr type (payload ++ rest) (Z.of_nat (length payload)) s = Done (tt, set_sent (sent s ++ [frame ptr type payload s]) s).
Proof.
  intros Hm Hp. destruct (six _ Hm) as (a & b & c & d & e & f & Em). unfold sendFrame. cbn [bind get].
  rewrite (uninit_split L_Frame 14 1014) by lia. set (rest' := map (left_over L_Frame s) (seq 14 (1014 - 14))). rewrite Em.
  assert (Hr : length rest' = 1000%nat) by (unfold rest'; by rewrite length_map, length_seq).
  erewrite lift_bind by (build_to; copy_payload; build). unfold sendPacket. rewrite Nat2Z.id, take_app_length.
  rewrite u32_small by (unfold FRAME_HEADER_LENGTH; lia). erewrite lift_bind.
  2:{ match goal with |- rd 0 _ (?h ++ payload ++ ?r) = _ => rewrite (app_assoc h), <- (take_drop 4 r), (app_assoc (h ++ payload)) end.
      apply rd_prefix. rewrite !length_app, length_take, length_drop, Hr. unfold FRAME_HEADER_LENGTH. cbn [length]. lia. }
  unfold frame. rewrite Em. unfold frame_tail. rewrite Nat2Z.id, <- !app_assoc. reflexivity.
Qed.

Definition ip_header (id protocol src dst size checksum : Z) : list Z :=
  [0x45; 0] ++ be 2 (20 + size) ++ be 2 id ++ [0; 0; 0x80; protocol mod 256] ++ le 2 checksum ++ be 4 src ++ be 4 dst.
Definition next_id s : Z := let id := u16 (IP_id s + 1) in if id =? IP_ID_MAX then 0 else id.
Definition ip_checksum (h : list Z) : Z := complement (fold_checksum (u32 (word_sum h))).
(** A packet with its checksum. *)
Definition ip_packet (id protocol src dst : Z) (payload : list Z) : list Z :=
  let h cs := ip_header id protocol src dst (Z.of_nat (length payload)) cs in h (ip_checksum (h 0)) ++ payload.
Lemma sendIPPacket_ok dst protocol payload rest s : length (MACAddr s) = 6%nat -> Z.of_nat (length payload) <= 976 ->
  exists s', s' = set_IP_id (next_id s) s /\
    sendIPPacket dst protocol (payload ++ rest) (Z.of_nat (length payload)) s =
      Done (tt, set_sent (sent s ++ [frame (address_of A_gateway s) FRAME_IP (ip_packet (next_id s) protocol (IPAddr s) dst payload) s']) s').
Proof.
  intros Hm Hp. eexists. split; [reflexivity|]. unfold sendIPPacket. cbn [bind get put]. fold (next_id s).
  rewrite (uninit_split L_IP 20 1020) by lia. set (rest' := map (left_over L_IP s) (seq 20 (1020 - 20))).
  assert (Hr : length rest' = 1000%nat) by (unfold rest'; by rewrite length_map, length_seq).
  set (size := Z.of_nat (length payload)). remember (20 + size) as total eqn:Et. set (id := next_id s). set (src := IPAddr s). clearbody id src.
  erewrite lift_bind by (build_to; copy_payload; build_to; eapply obind_step; [apply sum_words_header; reflexivity | cbn beta]; build).
  rewrite (u32_small (IP_HEADER_LENGTH + size)) by (unfold IP_HEADER_LENGTH; lia). unfold size. rewrite Nat2Z.id, take_app_length, app_assoc.
  match goal with |- context [sendFrame _ _ ((?h ++ payload) ++ _)] =>
    assert (Eh : h ++ payload = ip_packet id protocol src dst payload) by (unfold ip_packet, ip_checksum, ip_header; fold size; rewrite <- !Et; header_bytes); rewrite Eh end.
  replace (IP_HEADER_LENGTH + Z.of_nat (length payload)) with (Z.of_nat (length (ip_packet id protocol src dst payload))) by
    (rewrite <- Eh, length_app; unfold IP_HEADER_LENGTH; cbn [length]; lia).
  rewrite sendFrame_ok; [done | done | rewrite <- Eh, length_app; cbn [length]; lia].
Qed.

(** ** UDP *)

Definition udp_packet (src dst : Z) (payload : list Z) : list Z := be 2 src ++ be 2 dst ++ be 2 (8 + Z.of_nat (length payload)) ++ [0; 0] ++ payload.
(** The state after a packet, and the frame of it. *)
Definition ip_frame (protocol dst : Z) (payload : list Z) s : list Z :=
  frame (address_of A_gateway s) FRAME_IP (ip_packet (next_id s) protocol (IPAddr s) dst payload) (set_IP_id (next_id s) s).
Definition ip_sent (protocol dst : Z) (payload : list Z) s : NetInfo :=
  set_sent (sent s ++ [ip_frame protocol dst payload s]) (set_IP_id (next_id s) s).
Lemma sendIP_sent dst protocol payload rest size s : length (MACAddr s) = 6%nat -> size = Z.of_nat (length payload) -> size <= 976 ->
  sendIPPacket dst protocol (payload ++ rest) size s = Done (tt, ip_sent protocol dst payload s).
Proof. intros Hm -> Hp. destruct (sendIPPacket_ok dst protocol payload rest s Hm Hp) as (s' & -> & E). exact E. Qed.

Lemma sendUDPPacket_ok dst ps pd payload rest size s : length (MACAddr s) = 6%nat -> size = Z.of_nat (length payload) -> size <= 968 ->
  sendUDPPacket dst ps pd (payload ++ rest) size s = Done (tt, ip_sent IP_PROTOCOL_UDP dst (udp_packet ps pd payload) s).
Proof.
  intros Hm Es Hp. unfold sendUDPPacket. cbn [bind get]. rewrite (uninit_split L_UDP 8 1008) by lia. set (rest' := map (left_over L_UDP s) (seq 8 (1008 - 8))).
  assert (Hr : length rest' = 1000%nat) by (unfold rest'; by rewrite length_map, length_seq).
  unfold UDP_HEADER_LENGTH. remember (8 + size) as total eqn:Et. erewrite lift_bind by (build_to; copy_payload; build).
  rewrite Es, Nat2Z.id, take_app_length, app_assoc.
  match goal with |- context [sendIPPacket _ _ ((?h ++ payload) ++ _)] => assert (Eh : h ++ payload = udp_packet ps pd payload) by
    (unfold udp_packet; rewrite <- Es, <- Et; reflexivity); rewrite Eh end.
  apply sendIP_sent; [done | rewrite <- Eh, length_app; cbn [length]; lia | lia].
Qed.

(** ** DHCP *)

Definition junk (l : local) (from n : nat) s : list Z := map (left_over l s) (seq from n).
Lemma junk_length l from n s : length (junk l from n s) = n.
Proof. unfold junk. by rewrite length_map, length_seq. Qed.
Lemma junk_split l from n k s : map (left_over l s) (seq from (n + k)) = junk l from n s ++ junk l (from + n) k s.
Proof. unfold junk. by rewrite <- map_app, seq_app. Qed.
Definition dhcp_packet (type : Z) s : list Z :=
  [1; 1; 6; 0] ++ be 4 0x1234 ++ be 2 1 ++ junk L_DHCP 10 2 s ++ be 4 0 ++ be 4 0 ++ junk L_DHCP 20 4 s ++ be 4 0 ++ MACAddr s ++ junk L_DHCP 34 202 s ++
  be 4 0x63825363 ++ [0x35; 1; type; 0x3d; 7; 1] ++ MACAddr s ++
  (if type =? DHCP_REQUEST then [0x32; 4] ++ be 4 (IPAddr s) ++ [0xff] ++ junk L_DHCP 259 41 s else [0xff] ++ junk L_DHCP 253 47 s).
Lemma sendDHCPPacket_ok type s : length (MACAddr s) = 6%nat -> type = DHCP_DISCOVER \/ type = DHCP_REQUEST ->
  sendDHCPPacket type s = Done (tt, ip_sent IP_PROTOCOL_UDP 0xffffffff (udp_packet 68 67 (dhcp_packet type s)) s).
Proof.
  intros Hm Ht. destruct (six _ Hm) as (a & b & c & d & e & f & Em). unfold sendDHCPPacket. cbn [bind get].
  rewrite (uninit_split L_DHCP 34 300), (junk_split L_DHCP 34 202 64) by lia. remember (junk L_DHCP 34 202 s) as j eqn:Ej.
  assert (Hj : length j = 202%nat) by (rewrite Ej; apply junk_length). rewrite Em. remember (IPAddr s) as ip eqn:Ei.
  rewrite (lift_bind _ _ _ (dhcp_packet type s ++ [])).
  - apply sendUDPPacket_ok; [done | | lia]. unfold dhcp_packet. rewrite <- Ej, Em. rewrite !length_app, !be_length, Hj. by destruct Ht as [-> | ->].
  - unfold dhcp_packet. rewrite app_nil_r, <- Ej, Em, <- Ei. clear - Hj Ht. known_bytes (uninit L_DHCP 34 s). known_bytes (junk L_DHCP (34 + 202) 64 s).
    known_bytes (junk L_DHCP 10 2 s). known_bytes (junk L_DHCP 20 4 s). known_bytes (junk L_DHCP 259 41 s). known_bytes (junk L_DHCP 253 47 s).
    repeat match goal with |- context [left_over L_DHCP s ?n] => generalize (left_over L_DHCP s n); intros ? end. destruct Ht as [-> | ->].
    + change (DHCP_DISCOVER =? DHCP_DISCOVER) with true. change (DHCP_DISCOVER =? DHCP_REQUEST) with false. cbn iota. build_exact.
    + change (DHCP_REQUEST =? DHCP_REQUEST) with true. change (DHCP_REQUEST =? DHCP_DISCOVER) with false. cbn iota. build_exact.
Qed.

(** ** TCP *)

Definition tcp_header (c : TCPConnection) (flags checksum : Z) : list Z :=
  be 2 (portSrc c) ++ be 2 (portDest c) ++ be 4 (seqNum c) ++ be 4 (ackNum c) ++ be 2 (Z.shiftl TCP_HEADER_LENGTH 12 + flags) ++ be 2 (windowSize c) ++
  le 2 checksum ++ [0; 0].
(** The bytes of the pseudo header, and the sum of its words. *)
Definition tcp_pseudo (src dst size : Z) : list Z := be 4 src ++ be 4 dst ++ [0; 6] ++ be 2 size.
(** The last byte of an odd number of bytes is left out. *)
Definition even_part (l : list Z) : list Z := take (2 * (length l / 2)) l.
Definition tcp_checksum (c : TCPConnection) (flags src : Z) (payload : list Z) : Z :=
  complement (fold_checksum (u32 (word_sum (tcp_pseudo src (IPDest c) (20 + Z.of_nat (length payload))) + word_sum (tcp_header c flags 0) + word_sum (even_part payload)))).
Definition tcp_segment (c : TCPConnection) (flags src : Z) (payload : list Z) : list Z :=
  tcp_header c flags (tcp_checksum c flags src payload) ++ payload.

Lemma swap16_ok v : swap16 v = Done ((v / 256) mod 256 + 256 * (v mod 256)).
Proof.
  unfold swap16. eapply obind_step; [rewrite <- (app_nil_r (le 2 v)); eapply he2ne_app; header_bytes|]. cbn [app un_le]. f_equal. lia.
Qed.
Lemma low_bytes v : (v mod 65536) mod 256 = v mod 256 /\ (v mod 65536 / 256) mod 256 = (v / 256) mod 256.
Proof. split; Z.to_euclidean_division_equations; lia. Qed.
Lemma sum_pseudo src dst size : sum_swapped (pseudo_header src dst size) = Done (word_sum (tcp_pseudo src dst size)).
Proof.
  unfold pseudo_header. change 0xffff with (Z.ones 16). rewrite !Z.land_ones, !Z.shiftr_div_pow2 by lia. change (u16 size) with (size mod 65536). change (2 ^ 16) with 65536.
  cbn [sum_swapped]. rewrite !swap16_ok. cbn [outcome_bind]. rewrite !(proj1 (low_bytes _)), !(proj2 (low_bytes _)). f_equal.
  unfold tcp_pseudo, be, le. cbn [rev app word_sum]. rewrite !Z.div_div by lia. change (256 * 256) with 65536. change (256 * 65536) with 16777216. change (65536 * 256) with 16777216.
  change (6 / 256) with 0. change (0 mod 256) with 0. change (6 mod 256) with 6. lia.
Qed.

Lemma even_part_length l : length (even_part l) = (2 * (length l / 2))%nat.
Proof. unfold even_part. rewrite length_take. pose proof (Nat.Div0.div_mod (length l) 2). lia. Qed.
Lemma sum_data h payload rest r : length h = 20%nat ->
  sum_words 20 (Z.to_nat (Z.of_nat (length payload) ÷ 2)) (h ++ take (Z.to_nat (Z.of_nat (length payload))) (payload ++ rest) ++ r) = Done (word_sum (even_part payload)).
Proof.
  intros Hh. rewrite Nat2Z.id, take_app_length, Z.quot_div_nonneg by lia. rewrite <- (take_drop (2 * (length payload / 2)) payload) at 2. rewrite <- app_assoc.
  replace 20 with (Z.of_nat (length h)) by lia. apply sum_words_app. fold (even_part payload). rewrite even_part_length. f_equal. rewrite <- (Nat2Z.id (length payload / 2)), Nat2Z.inj_div. done.
Qed.
(** A step with a value that stays as it is. *)
Lemma at_value (f : Z -> outcome (list Z)) g v : (forall v, f v = Done (g v)) -> f v = Done (g v).
Proof. done. Qed.
(** With a payload, and without. *)
Lemma sendTCPPacket_ok c flags payload rest size s : length (MACAddr s) = 6%nat -> size = 20 + Z.of_nat (length payload) -> size <= 976 ->
  sendTCPPacket c flags size (payload ++ rest) false s = Done (tt, ip_sent IP_PROTOCOL_TCP (IPDest c) (tcp_segment c flags (IPAddr s) payload) s).
Proof.
  intros Hm Es Hp. unfold sendTCPPacket. cbn [bind get]. rewrite (uninit_split L_TCP 20 1320) by lia. set (rest' := map (left_over L_TCP s) (seq 20 (1320 - 20))).
  assert (Hr : length rest' = 1300%nat) by (unfold rest'; by rewrite length_map, length_seq). cbn iota.
  remember (Z.shiftl TCP_HEADER_LENGTH 12 + flags) as info eqn:Ei. replace (size - TCP_HEADER_LENGTH * 4) with (Z.of_nat (length payload)) by (unfold TCP_HEADER_LENGTH; lia).
  remember (portSrc c) as ps eqn:E1. remember (portDest c) as pd eqn:E2. remember (seqNum c) as sq eqn:E3. remember (ackNum c) as ak eqn:E4. remember (windowSize c) as w eqn:E5.
  erewrite lift_bind.
  2:{ build_to. copy_payload. build_to. eapply obind_step; [apply sum_pseudo | cbn beta]. eapply obind_step; [apply sum_words_header; reflexivity | cbn beta].
      eapply obind_step; [by apply sum_data | cbn beta].
      match goal with |- set16 16 ?v ?m = _ => eapply (at_value (fun y => set16 16 y m) _ v); intros y; cbn beta; header_step end. }
  cbn beta. rewrite (u32_small size) by lia. rewrite Nat2Z.id, take_app_length, app_assoc.
  match goal with |- context [complement ?v] => replace (complement v) with (tcp_checksum c flags (IPAddr s) payload) by
    (unfold tcp_checksum, tcp_header; rewrite <- Ei, <- E1, <- E2, <- E3, <- E4, <- E5, <- Es; reflexivity) end.
  match goal with |- context [sendIPPacket _ _ ((?h ++ payload) ++ _)] => assert (Eh : h ++ payload = tcp_segment c flags (IPAddr s) payload) end.
  { unfold tcp_segment. generalize (tcp_checksum c flags (IPAddr s) payload); intros cs. unfold tcp_header. rewrite <- Ei, <- E1, <- E2, <- E3, <- E4, <- E5. reflexivity. }
  rewrite Eh. apply sendIP_sent; [done | rewrite <- Eh, length_app; cbn [length]; lia | lia].
Qed.
Lemma sendTCPHeader_ok c flags s : length (MACAddr s) = 6%nat ->
  sendTCPPacket c flags HEADER_BYTES [] true s = Done (tt, ip_sent IP_PROTOCOL_TCP (IPDest c) (tcp_segment c flags (IPAddr s) []) s).
Proof.
  intros Hm. unfold sendTCPPacket. cbn [bind get]. rewrite (uninit_split L_TCP 20 1320) by lia. set (rest' := map (left_over L_TCP s) (seq 20 (1320 - 20))). cbn iota.
  remember (Z.shiftl TCP_HEADER_LENGTH 12 + flags) as info eqn:Ei.
  remember (portSrc c) as ps eqn:E1. remember (portDest c) as pd eqn:E2. remember (seqNum c) as sq eqn:E3. remember (ackNum c) as ak eqn:E4. remember (windowSize c) as w eqn:E5.
  erewrite lift_bind.
  2:{ build_to. eapply obind_step; [apply sum_pseudo | cbn beta]. eapply obind_step; [apply sum_words_header; reflexivity | cbn beta].
      eapply obind_step; [reflexivity | cbn beta].
      match goal with |- set16 16 ?v ?m = _ => eapply (at_value (fun y => set16 16 y m) _ v); intros y; cbn beta; header_step end. }
  cbn beta.
  match goal with |- context [complement ?v] => replace (complement v) with (tcp_checksum c flags (IPAddr s) []) by
    (unfold tcp_checksum, tcp_header; rewrite <- Ei, <- E1, <- E2, <- E3, <- E4, <- E5; reflexivity) end.
  match goal with |- context [sendIPPacket _ _ (?h ++ _)] => replace h with (tcp_segment c flags (IPAddr s) []) end.
  2:{ unfold tcp_segment. generalize (tcp_checksum c flags (IPAddr s) []); intros cs. unfold tcp_header. rewrite <- Ei, <- E1, <- E2, <- E3, <- E4, <- E5. reflexivity. }
  apply sendIP_sent; [done | | by vm_compute]. unfold tcp_segment, tcp_header. rewrite !length_app, !be_length, le_length. reflexivity.
Qed.
End Send.
