(* ===== verification/MyosChecksum.v ===== *)
(** * myos: checksums

    A receiver adds the words of a header with end-around carry; the sum of a valid one
    is all ones.  The checksum that [sendIPPacket] and [sendTCPPacket] compute is folded
    once, which is not always enough. *)
From S2P Require Import Prelude MyosMem MyosNet MyosSend.
Import Lib Stack.
#[local] Open Scope Z_scope.

(** ** The check of a receiver *)

(** Words in the order of the network; an odd byte is padded. *)
Fixpoint net_words (m : list Z) : list Z := match m with a :: b :: m => 256 * a + b :: net_words m | [a] => [256 * a] | [] => [] end.
Definition ones_add (a b : Z) : Z := let s := a + b in if s <? 65536 then s else s - 65535.
Definition ones_sum (ws : list Z) : Z := fold_left ones_add ws 0.
Definition checksum_ok (m : list Z) : bool := ones_sum (net_words m) =? 0xffff.

Definition sum (ws : list Z) : Z := fold_right Z.add 0 ws.
Lemma ones_sum_spec ws : Forall (fun w => 0 <= w < 65536) ws -> forall a, 0 <= a < 65536 ->
  let r := fold_left ones_add ws a in 0 <= r < 65536 /\ r mod 65535 = (a + sum ws) mod 65535 /\ (r = 0 <-> a + sum ws = 0) /\ 0 <= sum ws.
Proof.
  induction 1 as [|w ws Hw Hws IH]; intros a Ha; cbn [fold_left sum fold_right]; [rewrite Z.add_0_r; lia|]. fold (sum ws).
  assert (Hr : 0 <= ones_add a w < 65536) by (unfold ones_add; destruct (Z.ltb_spec (a + w) 65536); lia).
  destruct (IH _ Hr) as (H1 & H2 & H3 & H4). cbn zeta in *. split; [done|]. rewrite H2, H3. unfold ones_add.
  destruct (Z.ltb_spec (a + w) 65536); [rewrite Z.add_assoc; lia|].
  replace (a + w - 65535 + sum ws) with (a + (w + sum ws) + (-1) * 65535) by lia. rewrite Z_mod_plus_full. lia.
Qed.
Lemma net_words_range m : bytes m -> Forall (fun w => 0 <= w < 65536) (net_words m).
Proof.
  revert m. fix IH 1. intros m Hm. destruct m as [|a [|b m]]; cbn [net_words]; [constructor| |].
  - inversion Hm; subst. constructor; [lia | constructor].
  - inversion Hm as [|? ? Ha Hm']; subst. inversion Hm' as [|? ? Hb Hm'']; subst. constructor; [lia|]. by apply IH.
Qed.
(** The order of the bytes does not matter. *)
Lemma net_words_sum n : forall m, length m = (2 * n)%nat -> sum (net_words m) mod 65535 = (256 * word_sum m) mod 65535.
Proof.
  induction n as [|n IH]; intros m Hm; [by destruct m|]. destruct m as [|a [|b m]]; cbn in Hm; try lia. cbn [net_words sum fold_right word_sum]. fold (sum (net_words m)).
  rewrite Z.add_mod, IH, <- Z.add_mod by lia. replace (256 * (a + 256 * b + word_sum m)) with (256 * a + b + 256 * word_sum m + b * 65535) by lia. by rewrite Z_mod_plus_full.
Qed.
Lemma word_sum_range n : forall m, bytes m -> length m = (2 * n)%nat -> 0 <= word_sum m <= 65535 * Z.of_nat n /\ (word_sum m = 0 <-> sum (net_words m) = 0).
Proof.
  induction n as [|n IH]; intros m Hb Hm; [by destruct m|]. destruct m as [|a [|b m]]; cbn in Hm; try lia. cbn [net_words sum fold_right word_sum]. fold (sum (net_words m)).
  inversion Hb as [|? ? Ha Hb']; subst. inversion Hb' as [|? ? Hb1 Hb'']; subst. destruct (IH m Hb'' ltac:(lia)) as [H1 H2].
  pose proof (ones_sum_spec _ (net_words_range m Hb'') 0 ltac:(lia)) as (_ & _ & _ & Hs). lia.
Qed.
Lemma checksum_ok_sum n m : bytes m -> length m = (2 * n)%nat -> checksum_ok m = true <-> 0 < word_sum m /\ word_sum m mod 65535 = 0.
Proof.
  intros Hb Hm. unfold checksum_ok, ones_sum. rewrite Z.eqb_eq. pose proof (ones_sum_spec _ (net_words_range m Hb) 0 ltac:(lia)) as (H1 & H2 & H3 & H4). cbn zeta in *.
  rewrite Z.add_0_l in *. rewrite (net_words_sum n m Hm) in H2. destruct (word_sum_range n m Hb Hm) as [H5 H6].
  assert (Hinv : word_sum m mod 65535 = 0 <-> (256 * word_sum m) mod 65535 = 0).
  { split; intros E; [by rewrite Z.mul_mod, E by lia|]. assert ((256 * (256 * word_sum m)) mod 65535 = 0) as E' by (by rewrite Z.mul_mod, E by lia).
    replace (256 * (256 * word_sum m)) with (word_sum m + word_sum m * 65535) in E' by lia. by rewrite Z_mod_plus_full in E'. }
  rewrite Hinv, <- H2. split.
  - intros E. rewrite E in *. split; [|done]. lia.
  - intros [Hp E]. assert (fold_left ones_add (net_words m) 0 <> 0) by lia. Z.to_euclidean_division_equations. lia.
Qed.

(** ** The checksum of the code *)

Lemma complement_eq f : 0 <= f < 2 ^ 32 - 1 -> complement f = 65535 - f mod 65536.
Proof.
  intros Hf. unfold complement, Z.lnot. assert (E : u32 (Z.pred (- f)) = 2 ^ 32 - 1 - f).
  { unfold u32. rewrite <- (Z.mod_small (2 ^ 32 - 1 - f) (2 ^ 32)) by lia. rewrite <- (Z_mod_plus_full (Z.pred (- f)) 1). f_equal. lia. }
  rewrite E. rewrite (proj2 (Z.eqb_neq _ _)) by lia. unfold u16. Z.to_euclidean_division_equations. lia.
Qed.
Lemma fold_checksum_eq x : 0 <= x < 2 ^ 32 -> fold_checksum (u32 x) = x mod 65536 + x / 65536.
Proof.
  intros Hx. unfold fold_checksum. rewrite (u32_small x) by lia. change 0xffff with (Z.ones 16). rewrite Z.land_ones, Z.shiftr_div_pow2 by lia. change (2 ^ 16) with 65536.
  rewrite u32_small; [done|]. Z.to_euclidean_division_equations. lia.
Qed.
(** With the checksum [c] of the sum [x], the sum is a multiple of [65535] exactly if the fold did not carry. *)
Lemma complement_exact x : 0 < x < 2 ^ 32 -> let c := complement (fold_checksum (u32 x)) in
  0 <= c < 65536 /\ ((x + c) mod 65535 = 0 <-> x mod 65536 + x / 65536 < 65536).
Proof.
  intros Hx. cbn zeta. rewrite fold_checksum_eq by lia. set (f := x mod 65536 + x / 65536).
  assert (Hf : 0 < f < 131072) by (unfold f; Z.to_euclidean_division_equations; lia). rewrite complement_eq by lia.
  assert (E : x = f + 65535 * (x / 65536)) by (unfold f; Z.to_euclidean_division_equations; lia).
  split; [Z.to_euclidean_division_equations; lia|]. rewrite E at 1. replace (f + 65535 * (x / 65536) + (65535 - f mod 65536)) with (f + (65535 - f mod 65536) + x / 65536 * 65535) by lia.
  rewrite Z_mod_plus_full. Z.to_euclidean_division_equations. lia.
Qed.

Lemma word_sum_app n : forall l m, length l = (2 * n)%nat -> word_sum (l ++ m) = word_sum l + word_sum m.
Proof.
  induction n as [|n IH]; intros l m Hl; [by destruct l|]. destruct l as [|a [|b l]]; cbn in Hl; try lia. cbn [app word_sum]. rewrite IH by lia. lia.
Qed.
Lemma word_sum_nonneg m : bytes m -> 0 <= word_sum m.
Proof.
  revert m. fix IH 1. intros m Hm. destruct m as [|a [|b m]]; cbn [word_sum]; [lia | lia|].
  inversion Hm as [|? ? Ha Hm']; subst. inversion Hm' as [|? ? Hb Hm'']; subst. specialize (IH m Hm''). lia.
Qed.
Lemma word_sum_pos x y m : bytes (x :: y :: m) -> 0 < x -> 0 < word_sum (x :: y :: m).
Proof.
  intros Hm Hx. inversion Hm as [|? ? Ha Hm']; subst. inversion Hm' as [|? ? Hb Hm'']; subst. cbn [word_sum]. pose proof (word_sum_nonneg m Hm''). lia.
Qed.
Lemma word_sum_le2 c : 0 <= c < 65536 -> word_sum (le 2 c) = c.
Proof.
  intros Hc. change (le 2 c) with [c mod 256; (c / 256) mod 256]. cbn [word_sum]. Z.to_euclidean_division_equations. lia.
Qed.
(** A header in two parts around its checksum, with an even length. *)
Lemma checksum_field_exact n k a b c : bytes a -> bytes b -> length a = (2 * n)%nat -> length b = (2 * k)%nat -> Z.of_nat (n + k) < 32768 ->
  0 < word_sum (a ++ [0; 0] ++ b) -> c = complement (fold_checksum (u32 (word_sum (a ++ [0; 0] ++ b)))) ->
  checksum_ok (a ++ le 2 c ++ b) = true <->
  word_sum (a ++ [0; 0] ++ b) mod 65536 + word_sum (a ++ [0; 0] ++ b) / 65536 < 65536.
Proof.
  intros Ha Hb Hla Hlb Hnk Hpos Ec. set (x := word_sum (a ++ [0; 0] ++ b)) in *.
  assert (Ex : x = word_sum a + word_sum b) by (unfold x; rewrite (word_sum_app n), (word_sum_app 1) by done; cbn [word_sum]; lia).
  pose proof (word_sum_range n a Ha Hla) as [Ra _]. pose proof (word_sum_range k b Hb Hlb) as [Rb _].
  destruct (complement_exact x ltac:(lia)) as [Hc Hiff]. cbn zeta in *. rewrite <- Ec in *.
  rewrite (checksum_ok_sum (n + (1 + k))).
  - rewrite (word_sum_app n), (word_sum_app 1), word_sum_le2 by done. rewrite <- Hiff. replace (word_sum a + (c + word_sum b)) with (x + c) by lia. split; [tauto|]. intros; split; [lia | done].
  - apply Forall_app. split; [done|]. apply Forall_app. split; [apply le_bytes | done].
  - rewrite !length_app, le_length. lia.
Qed.

(** ** Packets *)

Section Packets.
Context `{Machine}.
Implicit Type s : NetInfo.

(** Without its checksum. *)
Definition cleared (n : nat) (m : list Z) : list Z := take n m ++ [0; 0] ++ drop (n + 2) m.
Definition no_carry (m : list Z) : Prop := word_sum m mod 65536 + word_sum m / 65536 < 65536.

Lemma ip_frame_header protocol dst payload s : length (MACAddr s) = 6%nat -> exists cs,
  take 20 (drop 14 (ip_frame protocol dst payload s)) = ip_header (next_id s) protocol (IPAddr s) dst (Z.of_nat (length payload)) cs /\
  cs = ip_checksum (ip_header (next_id s) protocol (IPAddr s) dst (Z.of_nat (length payload)) 0).
Proof.
  intros Hm. eexists. split; [|reflexivity]. unfold ip_frame, frame, ip_packet. set (h := ip_header _ _ _ _ _ _).
  assert (Hh : length h = 20%nat) by (unfold h, ip_header; by rewrite !length_app, !be_length, le_length).
  cbn [MACAddr set_IP_id]. rewrite (app_assoc _ (MACAddr s)), (app_assoc _ (be 2 _)).
  rewrite drop_app_length' by (rewrite !length_app, Hm, be_length; reflexivity). rewrite <- app_assoc. by rewrite take_app_length' by done.
Qed.

(** C24: the checksum of a sent IP packet.  The frame that [sendIPPacket] gives to the card
    has a header that a receiver accepts exactly if one fold of the sum of its words is
    enough; the carry of the second fold is lost. *)
Theorem ip_checksum_exact dst protocol payload rest s : length (MACAddr s) = 6%nat -> Z.of_nat (length payload) <= 976 ->
  exists f s', sendIPPacket dst protocol (payload ++ rest) (Z.of_nat (length payload)) s = Done (tt, s') /\ sent s' = sent s ++ [f] /\
    let h := take 20 (drop 14 f) in checksum_ok h = true <-> no_carry (cleared 10 h).
Proof.
  intros Hm Hp. exists (ip_frame protocol dst payload s), (ip_sent protocol dst payload s). split; [by apply sendIP_sent|]. split; [done|].
  destruct (ip_frame_header protocol dst payload s Hm) as (cs & -> & Ecs). cbn zeta.
  set (id := next_id s) in *. set (src := IPAddr s) in *. set (size := Z.of_nat (length payload)) in *.
  set (a := [0x45; 0] ++ be 2 (20 + size) ++ be 2 id ++ [0; 0; 0x80; protocol mod 256]). set (b := be 4 src ++ be 4 dst).
  assert (Eh : forall c, ip_header id protocol src dst size c = a ++ le 2 c ++ b) by (intros c; unfold ip_header, a, b; by rewrite <- !app_assoc).
  assert (La : length a = 10%nat) by (unfold a; by rewrite !length_app, !be_length). assert (Lb : length b = 8%nat) by (unfold b; by rewrite !length_app, !be_length).
  assert (Ba : bytes a).
  { unfold a, bytes. rewrite !Forall_app. pose proof (Z.mod_pos_bound protocol 256). split; [repeat constructor; lia|]. do 2 (split; [apply be_bytes|]). repeat constructor; lia. }
  assert (Bb : bytes b) by (unfold b, bytes; rewrite Forall_app; split; apply be_bytes).
  assert (Ec : cleared 10 (ip_header id protocol src dst size cs) = a ++ [0; 0] ++ b).
  { rewrite Eh. unfold cleared. rewrite <- La at 1. rewrite take_app_length. rewrite drop_app_ge, La by lia. rewrite drop_app_ge by (rewrite le_length; lia). by rewrite le_length. }
  unfold no_carry. rewrite Ec, Eh. apply (checksum_field_exact 5 4); [done | done | done | done | lia | | rewrite Ecs; unfold ip_checksum; by rewrite Eh].
  assert (Hall : bytes (a ++ [0; 0] ++ b)) by (apply Forall_app; split; [exact Ba|]; apply Forall_app; split; [repeat constructor; lia | exact Bb]).
  exact (word_sum_pos _ _ _ Hall ltac:(lia)).
Qed.

(** The same for a TCP segment with an even number of bytes, together with the pseudo
    header; of an odd number the last one is left out of the sum. *)
Lemma tcp_checksum_exact c flags src payload : Nat.Even (length payload) -> Z.of_nat (length payload) < 2 ^ 15 -> bytes payload ->
  let m := tcp_pseudo src (IPDest c) (20 + Z.of_nat (length payload)) ++ tcp_segment c flags src payload in
  checksum_ok m = true <-> no_carry (cleared 28 m).
Proof.
  intros [n Hn] Hl Hb. cbn zeta. set (size := 20 + Z.of_nat (length payload)).
  set (a := tcp_pseudo src (IPDest c) size ++ be 2 (portSrc c) ++ be 2 (portDest c) ++ be 4 (seqNum c) ++ be 4 (ackNum c) ++
    be 2 (Z.shiftl TCP_HEADER_LENGTH 12 + flags) ++ be 2 (windowSize c)).
  assert (Ee : even_part payload = payload) by (unfold even_part; apply take_ge; rewrite Hn, Nat.mul_comm, Nat.div_mul by lia; lia).
  assert (Em : forall cs, tcp_pseudo src (IPDest c) size ++ tcp_header c flags cs ++ payload = a ++ le 2 cs ++ [0; 0] ++ payload) by
    (intros cs; unfold tcp_header, a; by rewrite <- !app_assoc).
  assert (La : length a = 28%nat) by (unfold a, tcp_pseudo; by rewrite !length_app, !be_length).
  assert (Ba : bytes a).
  { unfold a, tcp_pseudo, bytes. rewrite !Forall_app. repeat split; try apply be_bytes. repeat constructor; lia. }
  assert (Bb : bytes ([0; 0] ++ payload)) by (apply Forall_app; split; [repeat constructor; lia | done]).
  unfold tcp_segment. rewrite Em. unfold no_carry, cleared. rewrite <- La at 1 3. rewrite take_app_length. rewrite drop_app_ge, La by lia.
  rewrite drop_app_ge by (rewrite le_length; lia). rewrite le_length. change (28 + 2 - 28 - 2)%nat with 0%nat. rewrite drop_0.
  apply (checksum_field_exact 14 (1 + n)); [done | done | done | rewrite length_app; cbn [length]; lia | lia | |].
  - unfold a, tcp_pseudo. rewrite <- !app_assoc. rewrite (word_sum_app 2), (word_sum_app 2), (word_sum_app 1) by done.
    pose proof (word_sum_nonneg _ (be_bytes 4 src)). pose proof (word_sum_nonneg _ (be_bytes 4 (IPDest c))). cbn [word_sum].
    match goal with |- 0 < _ + (_ + (_ + word_sum ?r)) => enough (0 <= word_sum r) by lia end. apply word_sum_nonneg. unfold bytes. rewrite !Forall_app.
    repeat split; try apply be_bytes; try done; repeat constructor; lia.
  - change (a ++ [0; 0] ++ [0; 0] ++ payload) with (a ++ le 2 0 ++ [0; 0] ++ payload). rewrite <- Em.
    rewrite (word_sum_app 6) by (unfold tcp_pseudo; by rewrite !length_app, !be_length). rewrite (word_sum_app 10) by (unfold tcp_header; by rewrite !length_app, !be_length, le_length).
    unfold tcp_checksum. fold size. rewrite Ee. do 3 f_equal. lia.
Qed.
End Packets.

(** ** Examples *)

(** Nothing is left on the stack. *)
Definition clean_machine : Machine := {| left_over _ _ _ := 0; address_of _ _ := 0xc0000123450 |}.
#[local] Existing Instance clean_machine.
Definition closed_connection : TCPConnection := Connection TCP_CONT_CLOSED 0 0 0 0 0 0 0 0 [].
Definition new_net : NetInfo :=
  Net 0 0 [0x52; 0x54; 0; 0x12; 0x34; 0x56] 0 0 0 false 0 (repeat (Entry 0 (repeat 0 6) ARPCACHE_WAIT_REPLY) 20) (repeat closed_connection 30) 0x300000 [] [] [] (Fs 0 0 0).
Lemma ip_checksum_exact_witness : exists f s', sendIPPacket 0x0a000202 17 [1; 2; 3] 3 new_net = Done (tt, s') /\ sent s' = [f] /\ checksum_ok (take 20 (drop 14 f)) = true.
Proof.
  destruct (ip_checksum_exact 0x0a000202 17 [1; 2; 3] [] new_net) as (f & s' & E & Es & H); [done | done|]. exists f, s'.
  split; [exact E|]. split; [exact Es|]. apply H. vm_compute in E. injection E as <-. injection Es as <-. vm_compute. reflexivity.
Defined.
(** A destination for which the checksum is wrong. *)
Lemma ip_checksum_wrong : exists f s', sendIPPacket 0xffff3bd9 17 [] 0 new_net = Done (tt, s') /\ sent s' = [f] /\ checksum_ok (take 20 (drop 14 f)) = false.
Proof. eexists _, _. split; [vm_compute; reflexivity|]. split; [reflexivity|]. vm_compute. reflexivity. Qed.
(** The destination of a frame is a part of an address, whatever the array there holds. *)
Lemma frame_destination `{Machine} dst protocol payload rest s : length (MACAddr s) = 6%nat -> Z.of_nat (length payload) <= 976 ->
  exists f s', sendIPPacket dst protocol (payload ++ rest) (Z.of_nat (length payload)) s = Done (tt, s') /\ sent s' = sent s ++ [f] /\
    take 6 f = take 6 (le 8 (address_of A_gateway s)).
Proof.
  intros Hm Hp. exists (ip_frame protocol dst payload s), (ip_sent protocol dst payload s). split; [by apply sendIP_sent|]. split; [done|].
  unfold ip_frame, frame. by rewrite take_app_length'.
Qed.
