(* ===== verification/MyosDhcp.v ===== *)
(** * myos: getting an address

    The messages of a DHCP server, as frames, and what [receiveFrame] makes of them:
    through IP and UDP to the options of DHCP, and the answer back to the card. *)
From S2P Require Import Prelude MyosMem MyosNet MyosSend MyosChecksum.
Import Lib Stack.
#[local] Open Scope Z_scope.

(** ** Options *)

Inductive dhcp_option :=
| O_type (t : Z) | O_mask (a : Z) | O_router (a : Z) (more : list Z) | O_dns (a : Z) (more : list Z) | O_pad | O_other (code : Z) (l : list Z).
Definition encode (o : dhcp_option) : list Z :=
  match o with
  | O_type t => [0x35; 1; t]
  | O_mask a => [0x01; 4] ++ be 4 a
  | O_router a more => [0x03; 4 + Z.of_nat (length more)] ++ be 4 a ++ more
  | O_dns a more => [0x06; 4 + Z.of_nat (length more)] ++ be 4 a ++ more
  | O_pad => [0x00]
  | O_other code l => [code; Z.of_nat (length l)] ++ l
  end.
Definition address_ok (a : Z) : Prop := 0 <= a < 2 ^ 32.
(** The length of an option is less than 128: to the code it is a signed number. *)
Definition option_ok (o : dhcp_option) : Prop :=
  match o with
  | O_type t => 1 <= t <= 8
  | O_mask a => address_ok a
  | O_router a more | O_dns a more => address_ok a /\ Z.of_nat (length more) < 124
  | O_pad => True
  | O_other code l => 0 < code < 255 /\ ~ In code [0x35; 0x01; 0x03; 0x06] /\ Z.of_nat (length l) < 128
  end.

(** What the options say, up to the one that ends the conversation. *)
Record lease := Lease { l_mask : Z; l_router : Z; l_dns : Z }.
Definition learn (o : dhcp_option) (l : lease) : lease :=
  match o with
  | O_mask a => Lease a (l_router l) (l_dns l)
  | O_router a _ => Lease (l_mask l) a (l_dns l)
  | O_dns a _ => Lease (l_mask l) (l_router l) a
  | _ => l
  end.
Definition is_type (t : Z) (o : dhcp_option) : bool := match o with O_type t' => t' =? t | _ => false end.
Fixpoint before_ack (os : list dhcp_option) : list dhcp_option :=
  match os with [] => [] | o :: os => if is_type DHCP_ACK o then [] else o :: before_ack os end.
Definition learn_all (os : list dhcp_option) (l : lease) : lease := fold_left (fun l o => learn o l) (before_ack os) l.
Definition acked (os : list dhcp_option) : bool := existsb (is_type DHCP_ACK) os.
Definition offered (os : list dhcp_option) : bool := existsb (is_type DHCP_OFFER) os.

Definition with_lease (l : lease) (s : NetInfo) : NetInfo := set_DNSServerIPAddr (l_dns l) (set_RouterIPAddr (l_router l) (set_subnetMask (l_mask l) s)).
Definition lease_of (s : NetInfo) : lease := Lease (subnetMask s) (RouterIPAddr s) (DNSServerIPAddr s).
Definition after_options (os : list dhcp_option) (s : NetInfo) : NetInfo :=
  let s := with_lease (learn_all os (lease_of s)) s in
  if acked os then set_IPAddr (requestedIPAddr s) (set_gotIPAddr true s) else s.

(** ** Messages *)

(** A frame to [m_dst] that offers or confirms the address [m_addr]; the other fields are
    arbitrary. *)
Record dhcp_message := Message {
  m_eth : list Z; m_ip : list Z; m_sum : list Z; m_src : list Z; m_dst : Z; m_ports : list Z; m_udp : list Z;
  m_fixed : list Z; m_addr : Z; m_fixed2 : list Z; m_options : list dhcp_option; m_tail : list Z
}.
Record message_ok (m : dhcp_message) : Prop := MessageOk {
  mo_eth : length (m_eth m) = 12%nat; mo_ip : length (m_ip m) = 9%nat; mo_sum : length (m_sum m) = 2%nat; mo_src : length (m_src m) = 4%nat;
  mo_dst : address_ok (m_dst m); mo_ports : length (m_ports m) = 2%nat; mo_udp : length (m_udp m) = 4%nat; mo_fixed : length (m_fixed m) = 16%nat;
  mo_addr : address_ok (m_addr m); mo_fixed2 : length (m_fixed2 m) = 220%nat; mo_options : Forall option_ok (m_options m)
}.
Definition header (m : dhcp_message) : list Z :=
  m_eth m ++ be 2 FRAME_IP ++ m_ip m ++ [17] ++ m_sum m ++ m_src m ++ be 4 (m_dst m) ++ m_ports m ++ be 2 68 ++ m_udp m ++ m_fixed m ++ be 4 (m_addr m).
Definition options (m : dhcp_message) : list Z := concat (map encode (m_options m)) ++ [0xff].
Definition message_frame (m : dhcp_message) : list Z := header m ++ m_fixed2 m ++ options m ++ m_tail m.

(** ** Reading options *)

Ltac explode Hl := repeat match type of Hl with length ?l = _ => destruct l as [|? l]; cbn [length] in Hl; [discriminate Hl | apply eq_add_S in Hl] | length ?l = O => destruct l; [clear Hl | discriminate Hl] end.

Section Dhcp.
Context `{Machine}.
Implicit Type s : NetInfo.

Lemma option_byte_at pre b post : 0 <= b < 256 -> option_byte (Z.of_nat (length pre)) (pre ++ b :: post) = Done (s8 b).
Proof. intros Hb. unfold option_byte. by rewrite rd_byte. Qed.
Lemma s8_small b : 0 <= b < 128 -> s8 b = b.
Proof. intros Hb. unfold s8. rewrite Z.mod_small by lia. lia. Qed.
Lemma option_address_at pre c n a more post : address_ok a ->
  option_address (Z.of_nat (length pre)) (pre ++ ([c; n] ++ be 4 a ++ more) ++ post) = Done a.
Proof.
  intros Ha. unfold option_address. replace (pre ++ ([c; n] ++ be 4 a ++ more) ++ post) with ((pre ++ [c; n]) ++ be 4 a ++ (more ++ post)) by (by rewrite <- !app_assoc).
  replace (Z.of_nat (length pre) + 2) with (Z.of_nat (length (pre ++ [c; n]))) by (rewrite length_app; cbn [length]; lia). rewrite rd_at by apply be_length. cbn [outcome_bind].
  eapply obind_step; [unfold ne2he; rewrite <- (app_nil_r (be 4 a)); eapply he2ne_app; header_bytes|]. cbn [app].
  f_equal. change (un_le (le 4 a) = a). rewrite un_le_le. apply Z.mod_small. exact Ha.
Qed.

Lemma byte_at pre k l post x : nth_error l k = Some x -> 0 <= x < 256 -> option_byte (Z.of_nat (length pre) + Z.of_nat k) (pre ++ l ++ post) = Done (s8 x).
Proof.
  intros Hk Hx. destruct (nth_error_split _ _ Hk) as (l1 & l2 & -> & <-).
  replace (pre ++ (l1 ++ x :: l2) ++ post) with ((pre ++ l1) ++ x :: (l2 ++ post)) by (rewrite <- !app_assoc; done).
  replace (Z.of_nat (length pre) + Z.of_nat (length l1)) with (Z.of_nat (length (pre ++ l1))) by (rewrite length_app; lia). by apply option_byte_at.
Qed.

Lemma small_byte pre k l post x : nth_error l k = Some x -> 0 <= x < 128 -> option_byte (Z.of_nat (length pre) + Z.of_nat k) (pre ++ l ++ post) = Done x.
Proof. intros Hk Hx. rewrite (byte_at pre k l post x) by (done || lia). by rewrite s8_small. Qed.
Lemma with_lease_same s : with_lease (lease_of s) s = s.
Proof. by destruct s. Qed.
Lemma skip_ok fuel pre l post n b s : nth_error l 1 = Some n -> 0 <= n < 128 -> Z.of_nat (length l) = 2 + n ->
  bind (lift (option_byte (Z.of_nat (length pre) + 1) (pre ++ l ++ post))) (fun o1 => read_options fuel (Z.of_nat (length pre) + (2 + o1)) b (pre ++ l ++ post)) s =
  read_options fuel (Z.of_nat (length (pre ++ l))) b ((pre ++ l) ++ post) s.
Proof.
  intros Hn Hr Hl. rewrite (lift_bind _ _ _ n); [|exact (small_byte pre 1 l post n Hn Hr)]. rewrite app_assoc, length_app. do 2 f_equal. lia.
Qed.
(** A code that the loop does not know. *)
Lemma other_code code : 0 < code < 255 -> ~ In code [0x35; 0x01; 0x03; 0x06] ->
  (forall k, In k [0x35; 0x01; 0x03; 0x06; 0] -> (s8 code =? k) = false) /\ (u32 (s8 code) =? DHCP_OPTION_END) = false.
Proof.
  intros Hc Hn. split; [|apply Z.eqb_neq; unfold u32, s8, DHCP_OPTION_END; Z.to_euclidean_division_equations; lia].
  intros k Hk. apply Z.eqb_neq. intros E. assert (code = k) by (cbn in Hk; unfold s8 in E; Z.to_euclidean_division_equations; lia). subst k. cbn in Hk, Hn. lia.
Qed.
Lemma read_option fuel pre o post b s : option_ok o -> is_type DHCP_ACK o = false ->
  read_options (S fuel) (Z.of_nat (length pre)) b (pre ++ encode o ++ post) s =
  read_options fuel (Z.of_nat (length (pre ++ encode o))) (is_type DHCP_OFFER o || b) ((pre ++ encode o) ++ post) (with_lease (learn o (lease_of s)) s).
Proof.
  intros Ho Hack. cbn [read_options].
  assert (H0 : forall x, nth_error (encode o) 0 = Some x -> 0 <= x < 256 -> option_byte (Z.of_nat (length pre)) (pre ++ encode o ++ post) = Done (s8 x)).
  { intros x Hx Hr. rewrite <- (byte_at pre 0 (encode o) post x Hx Hr). f_equal. lia. }
  destruct o as [t|a|a more|a more| |code l]; cbn [option_ok is_type learn] in *.
  - rewrite (lift_bind _ _ _ 0x35) by exact (H0 0x35 eq_refl ltac:(lia)). change (0x35 =? DHCP_OPTION_TYPE) with true. cbn iota.
    rewrite (lift_bind _ _ _ t) by exact (small_byte pre 2 (encode (O_type t)) post t eq_refl ltac:(lia)).
    rewrite Hack, with_lease_same. unfold DHCP_OFFER in *. destruct (t =? 2); apply (skip_ok fuel pre [0x35; 1; t] post 1); done || lia.
  - rewrite (lift_bind _ _ _ 0x01) by exact (H0 0x01 eq_refl ltac:(lia)). cbn [Z.eqb Pos.eqb DHCP_OPTION_TYPE DHCP_OPTION_ROUTER_IP_ADDR DHCP_OPTION_DNS_SERVER_IP_ADDR DHCP_OPTION_SUBNETMASK].
    cbn [encode]. rewrite <- (app_nil_r (be 4 a)). rewrite (lift_bind _ _ _ a) by (by apply option_address_at). cbn [bind modify].
    apply (skip_ok fuel pre ([0x01; 4] ++ be 4 a ++ []) post 4); [done | lia|]. rewrite !length_app, be_length. done.
  - destruct Ho as [Ha Hm]. rewrite (lift_bind _ _ _ 0x03) by exact (H0 0x03 eq_refl ltac:(lia)). cbn [Z.eqb Pos.eqb DHCP_OPTION_TYPE DHCP_OPTION_ROUTER_IP_ADDR].
    cbn [encode]. rewrite (lift_bind _ _ _ a) by (by apply option_address_at). cbn [bind modify].
    apply (skip_ok fuel pre ([0x03; _] ++ be 4 a ++ more) post (4 + Z.of_nat (length more))); [done | lia|]. rewrite !length_app, be_length. cbn [length]. lia.
  - destruct Ho as [Ha Hm]. rewrite (lift_bind _ _ _ 0x06) by exact (H0 0x06 eq_refl ltac:(lia)). cbn [Z.eqb Pos.eqb DHCP_OPTION_TYPE DHCP_OPTION_ROUTER_IP_ADDR DHCP_OPTION_DNS_SERVER_IP_ADDR].
    cbn [encode]. rewrite (lift_bind _ _ _ a) by (by apply option_address_at). cbn [bind modify].
    apply (skip_ok fuel pre ([0x06; _] ++ be 4 a ++ more) post (4 + Z.of_nat (length more))); [done | lia|]. rewrite !length_app, be_length. cbn [length]. lia.
  - rewrite (lift_bind _ _ _ 0) by exact (H0 0 eq_refl ltac:(lia)). cbn [Z.eqb Pos.eqb]. rewrite with_lease_same, app_assoc, length_app. cbn [orb]. do 2 f_equal. cbn [length encode]. lia.
  - destruct Ho as (Hc & Hn & Hl). rewrite (lift_bind _ _ _ (s8 code)) by exact (H0 code eq_refl ltac:(lia)).
    destruct (other_code code Hc Hn) as [Hs He]. rewrite !Hs, He by (cbn; tauto). cbn iota. rewrite with_lease_same. apply (skip_ok fuel pre (encode (O_other code l)) post (Z.of_nat (length l))); [done | lia|]. cbn [encode]. rewrite length_app. cbn [length]. lia.
Qed.

Lemma after_options_cons o os s : is_type DHCP_ACK o = false -> after_options (o :: os) s = after_options os (with_lease (learn o (lease_of s)) s).
Proof.
  intros Ho. unfold after_options, learn_all, acked. cbn [before_ack existsb]. rewrite Ho. cbn [orb fold_left].
  replace (lease_of (with_lease (learn o (lease_of s)) s)) with (learn o (lease_of s)) by (by destruct (learn o (lease_of s))). by destruct s.
Qed.
Lemma read_options_ok os : forall pre post fuel b s, Forall option_ok os -> (length os < fuel)%nat ->
  read_options fuel (Z.of_nat (length pre)) b (pre ++ concat (map encode os) ++ [0xff] ++ post) s =
  Done (if acked os then false else offered os || b, after_options os s).
Proof.
  induction os as [|o os IH]; intros pre post fuel b s Hos Hf; destruct fuel as [|fuel]; cbn [length] in Hf; try lia.
  - cbn [map concat app read_options]. rewrite (lift_bind _ _ _ (-1)) by exact (option_byte_at pre 0xff post ltac:(lia)). cbn. by rewrite with_lease_same.
  - inversion Hos as [|? ? Ho Hos']; subst. cbn [map concat acked offered existsb]. rewrite <- app_assoc. destruct (is_type DHCP_ACK o) eqn:Ea.
    + destruct o as [t| | | | |]; try done. cbn [is_type] in Ea. apply Z.eqb_eq in Ea as ->. cbn [read_options].
      rewrite (lift_bind _ _ _ 0x35); [|rewrite <- (Z.add_0_r (Z.of_nat (length pre))); exact (small_byte pre 0 (encode (O_type DHCP_ACK)) _ 0x35 eq_refl ltac:(lia))].
      change (0x35 =? DHCP_OPTION_TYPE) with true. cbn iota.
      rewrite (lift_bind _ _ _ DHCP_ACK) by exact (small_byte pre 2 (encode (O_type DHCP_ACK)) _ DHCP_ACK eq_refl ltac:(unfold DHCP_ACK; lia)). by destruct s.
    + rewrite read_option by done. rewrite IH by (done || lia). rewrite <- after_options_cons by done. cbn [orb]. f_equal. f_equal. unfold acked, offered.
      destruct (existsb (is_type DHCP_ACK) os); [done|]. by destruct (is_type DHCP_OFFER o), (existsb (is_type DHCP_OFFER) os).
Qed.

(** ** From the frame to the options *)

Lemma rd_int_header off n l m r : rd off n l = Done r -> rd_int off n (l ++ m) = Done (un_le r).
Proof. intros E. unfold rd_int. by rewrite (rd_app _ _ _ m _ E). Qed.
Lemma rd_int_value off n l m r v : rd off n l = Done r -> un_le r = v -> rd_int off n (l ++ m) = Done v.
Proof. intros E <-. by apply rd_int_header. Qed.
Lemma un_le_address a : address_ok a -> un_le [a mod 256; (a / 256) mod 256; (a / 256 / 256) mod 256; (a / 256 / 256 / 256) mod 256] = a.
Proof. intros Ha. change (un_le (le 4 a) = a). rewrite un_le_le. by apply Z.mod_small. Qed.
Lemma bind_cong {S A B} (m m' : M S A) (k : A -> M S B) st st' : m st = m' st' -> bind m k st = bind m' k st'.
Proof. intros E. unfold bind. by rewrite E. Qed.
(** Up to the options, whatever they are. *)
Lemma receive_header fuel m raw s : message_ok m -> m_dst m = IPAddr s \/ m_dst m = IP_BROADCAST_ADDRESS -> exists h, length h = 282%nat /\
  receiveFrame fuel (header m ++ m_fixed2 m ++ raw) s =
  ((isOFFERPacket <- read_options fuel 282 false (h ++ raw) ;; (if (isOFFERPacket : bool) then sendDHCPPacket DHCP_REQUEST else ret tt) ;;; ret (h ++ raw)) ;;; ret tt)
    (set_requestedIPAddr (m_addr m) s).
Proof.
  intros [M1 M2 M3 M4 M5 M6 M7 M8 M9 M10 M11] Hdst. unfold header. destruct m as [eth ip sum src dst ports udp fixed addr fixed2 os tail].
  cbn [m_eth m_ip m_sum m_src m_dst m_ports m_udp m_fixed m_addr m_fixed2] in *.
  explode M1. explode M2. explode M3. explode M4. explode M6. explode M7. explode M8. eexists (_ ++ fixed2). split; cycle 1.
  - unfold receiveFrame. rewrite (lift_bind _ _ _ FRAME_IP).
    2:{ eapply obind_step; [eapply rd_int_header; header_bytes | cbn beta]. rewrite swap16_ok. vm_compute. reflexivity. }
    change (FRAME_IP =? FRAME_ARP) with false. change (FRAME_IP =? FRAME_IP) with true. cbn iota. rewrite <- (app_assoc _ fixed2 raw). apply bind_cong.
    unfold receiveIPPacket, ne2he. erewrite lift_bind by build.
    erewrite lift_bind by (eapply rd_int_header; header_bytes). rewrite un_le_address by done. cbn [bind get].
    replace (negb (dst =? IPAddr s) && negb (dst =? IP_BROADCAST_ADDRESS)) with false.
    2:{ destruct Hdst as [<- | ->]; [by rewrite Z.eqb_refl | by rewrite andb_false_r]. }
    rewrite (lift_bind _ _ _ IP_PROTOCOL_UDP) by (eapply rd_int_value; [header_bytes | reflexivity]). do 2 erewrite lift_bind by (eapply rd_int_header; header_bytes).
    change (IP_PROTOCOL_UDP =? IP_PROTOCOL_TCP) with false. change (IP_PROTOCOL_UDP =? IP_PROTOCOL_UDP) with true. cbn iota.
    unfold receiveUDPPacket, ne2he. erewrite lift_bind by build. rewrite (lift_bind _ _ _ 68) by (eapply rd_int_value; [header_bytes | reflexivity]). change (68 =? 68) with true. cbn iota.
    unfold receiveDHCPPacket, ne2he. erewrite lift_bind by build. erewrite lift_bind by (eapply rd_int_header; header_bytes). rewrite un_le_address by done. reflexivity.
  - by rewrite length_app, M10.
Qed.
Lemma receive_message fuel m s s' : message_ok m -> m_dst m = IPAddr s \/ m_dst m = IP_BROADCAST_ADDRESS -> (length (m_options m) < fuel)%nat ->
  (if negb (acked (m_options m)) && offered (m_options m) then sendDHCPPacket DHCP_REQUEST else ret tt)
    (after_options (m_options m) (set_requestedIPAddr (m_addr m) s)) = Done (tt, s') ->
  receiveFrame fuel (message_frame m) s = Done (tt, s').
Proof.
  intros Hm Hd Hf Hend. destruct (receive_header fuel m (options m ++ m_tail m) s Hm Hd) as (h & Hh & E). unfold message_frame. rewrite E. clear E.
  unfold bind, options. rewrite <- app_assoc. change 282 with (Z.of_nat 282). rewrite <- Hh. rewrite read_options_ok by (done || apply (mo_options m Hm)). rewrite orb_false_r.
  replace (if acked (m_options m) then false else offered (m_options m)) with (negb (acked (m_options m)) && offered (m_options m)) by (by destruct (acked (m_options m))).
  by rewrite Hend.
Qed.

(** ** The conversation *)

(** C15: the network stack gets its address.  An offer and then an acknowledgement, in frames
    that a DHCP server sends to the address of the machine or to all, with options shorter
    than 128 bytes, are received, answered and obeyed: the machine has the acknowledged
    address, and the mask, the router and the name server of the last options that gave
    them, in the offer or in the acknowledgement before its message type.  The options that
    stand behind the message type of the acknowledgement, where servers put them, are not
    read.  Between the two the machine has sent one request to the servers on the network,
    which names the address the machine had before, not the one that was offered. *)
Theorem dhcp_acquires fuel offer ack s : length (MACAddr s) = 6%nat -> message_ok offer -> message_ok ack ->
  m_dst offer = IPAddr s \/ m_dst offer = IP_BROADCAST_ADDRESS -> m_dst ack = IPAddr s \/ m_dst ack = IP_BROADCAST_ADDRESS ->
  offered (m_options offer) = true -> acked (m_options offer) = false -> acked (m_options ack) = true ->
  (length (m_options offer) < fuel)%nat -> (length (m_options ack) < fuel)%nat ->
  exists s' s1, (receiveFrame fuel (message_frame offer) ;;; receiveFrame fuel (message_frame ack)) s = Done (tt, s') /\
    gotIPAddr s' = true /\ IPAddr s' = m_addr ack /\
    lease_of s' = learn_all (m_options ack) (learn_all (m_options offer) (lease_of s)) /\
    s1 = after_options (m_options offer) (set_requestedIPAddr (m_addr offer) s) /\
    sent s' = sent s ++ [ip_frame IP_PROTOCOL_UDP 0xffffffff (udp_packet 68 67 (dhcp_packet DHCP_REQUEST s1)) s1].
Proof.
  intros Hm Ho Ha Hdo Hda Hoff Hnack Hack Hfo Hfa. set (s1 := after_options (m_options offer) (set_requestedIPAddr (m_addr offer) s)).
  assert (E1 : s1 = with_lease (learn_all (m_options offer) (lease_of s)) (set_requestedIPAddr (m_addr offer) s)) by (unfold s1, after_options; by rewrite Hnack).
  set (s2 := ip_sent IP_PROTOCOL_UDP 0xffffffff (udp_packet 68 67 (dhcp_packet DHCP_REQUEST s1)) s1).
  assert (R1 : receiveFrame fuel (message_frame offer) s = Done (tt, s2)).
  { apply (receive_message fuel offer s s2); try done. rewrite Hnack, Hoff. cbn [negb andb]. fold s1. apply sendDHCPPacket_ok; [by rewrite E1 | by right]. }
  set (s3 := after_options (m_options ack) (set_requestedIPAddr (m_addr ack) s2)).
  assert (R2 : receiveFrame fuel (message_frame ack) s2 = Done (tt, s3)).
  { apply (receive_message fuel ack s2 s3); try done; [by replace (IPAddr s2) with (IPAddr s) by (unfold s2; by rewrite E1)|]. by rewrite Hack. }
  exists s3, s1. split; [unfold bind; by rewrite R1|]. unfold s3, after_options. rewrite Hack. split; [done|]. split; [done|]. split; [|split; [done|]].
  - replace (lease_of (set_requestedIPAddr (m_addr ack) s2)) with (learn_all (m_options offer) (lease_of s)) by (unfold s2; rewrite E1; by destruct (learn_all (m_options offer) (lease_of s))).
    by destruct (learn_all (m_options ack) _).
  - cbn. f_equal. unfold s2. by rewrite E1.
Qed.

Lemma hanging_option fuel pre code post b s : 0 < code < 255 -> ~ In code [0x35; 0x01; 0x03; 0x06] ->
  read_options fuel (Z.of_nat (length pre)) b (pre ++ [code; 254] ++ post) s = Fuel.
Proof.
  intros Hc Hn. induction fuel as [|fuel IH]; [done|]. cbn [read_options].
  rewrite (lift_bind _ _ _ (s8 code)) by (rewrite <- (byte_at pre 0 [code; 254] post code eq_refl ltac:(lia)); f_equal; lia).
  destruct (other_code code Hc Hn) as [Hs He]. rewrite !Hs, He by (cbn; tauto). cbn iota.
  rewrite (lift_bind _ _ _ (-2)) by exact (byte_at pre 1 [code; 254] post 254 eq_refl ltac:(lia)). by replace (Z.of_nat (length pre) + (2 + -2)) with (Z.of_nat (length pre)) by lia.
Qed.
(** C39: one packet stops the machine.  The length of an option is a signed number, and for
    an unknown option of length 254 the loop over the options stays where it is: the handler
    of the interrupt does not return from this frame, whatever the fuel. *)
Theorem dhcp_option_hangs fuel m code raw s : message_ok m -> m_dst m = IPAddr s \/ m_dst m = IP_BROADCAST_ADDRESS ->
  0 < code < 255 -> ~ In code [0x35; 0x01; 0x03; 0x06] ->
  receiveFrame fuel (header m ++ m_fixed2 m ++ [code; 254] ++ raw) s = Fuel.
Proof.
  intros Hm Hd Hc Hn. destruct (receive_header fuel m ([code; 254] ++ raw) s Hm Hd) as (h & Hh & ->). unfold bind.
  change 282 with (Z.of_nat 282). rewrite <- Hh. by rewrite hanging_option.
Qed.
End Dhcp.

(** ** Examples *)

#[local] Existing Instance clean_machine.
Definition server_message (addr : Z) (os : list dhcp_option) : dhcp_message :=
  Message (repeat 0 12) [0x45; 0; 1; 0x48; 0; 0; 0; 0; 64] [0; 0] [10; 0; 2; 2] IP_BROADCAST_ADDRESS [0; 67] [1; 0x34; 0; 0] (repeat 0 16) addr (repeat 0 220) os [].
Lemma server_message_ok addr os : address_ok addr -> Forall option_ok os -> message_ok (server_message addr os).
Proof. intros Ha Ho. by split. Qed.
Definition offer_options : list dhcp_option := [O_type 2; O_mask 0xffffff00; O_router 0x0a000202 []; O_other 51 [0; 1; 0x51; 0x80]].
Definition ack_options : list dhcp_option := [O_dns 0x0a000203 []; O_pad; O_type 5; O_mask 0xff000000].
Definition usual_ack_options : list dhcp_option := [O_type 5; O_mask 0xffffff00; O_router 0x0a000202 []; O_dns 0x0a000203 []].
(** An acknowledgement with its message type first teaches nothing but the address. *)
Lemma usual_ack_ignored l : learn_all usual_ack_options l = l.
Proof. done. Qed.
Lemma dhcp_acquires_witness : exists s', (receiveFrame 10 (message_frame (server_message 0x0a00020f offer_options)) ;;; receiveFrame 10 (message_frame (server_message 0x0a00020f ack_options))) new_net = Done (tt, s') /\
  gotIPAddr s' = true /\ IPAddr s' = 0x0a00020f /\ lease_of s' = Lease 0xffffff00 0x0a000202 0x0a000203.
Proof.
  destruct (dhcp_acquires 10 (server_message 0x0a00020f offer_options) (server_message 0x0a00020f ack_options) new_net) as (s' & s1 & E & Hg & Hi & Hl & _).
  - reflexivity.
  - apply server_message_ok; [unfold address_ok; lia|]. repeat constructor; unfold address_ok; cbn; lia.
  - apply server_message_ok; [unfold address_ok; lia|]. repeat constructor; unfold address_ok; cbn; lia.
  - by right.
  - by right.
  - reflexivity.
  - reflexivity.
  - reflexivity.
  - cbn. lia.
  - cbn. lia.
  - exists s'. split; [exact E|]. split; [exact Hg|]. split; [exact Hi | exact Hl].
Defined.
Lemma dhcp_option_hangs_witness : receiveFrame 1000 (header (server_message 0 []) ++ m_fixed2 (server_message 0 []) ++ [51; 254] ++ [255]) new_net = Fuel.
Proof.
  apply (dhcp_option_hangs 1000 (server_message 0 []) 51 [255] new_net); [|by right | lia | cbn; lia].
  apply server_message_ok; [unfold address_ok; lia | constructor].
Defined.
