(* ===== verification/MyosDns.v ===== *)
(** * myos: names of the DNS

    The question that [resolveDomainByDNS] builds from a domain name, and the packet it
    sends. *)
From S2P Require Import Prelude MyosMem MyosNet MyosSend MyosChecksum MyosDhcp.
From Stdlib Require String.
Import Lib Stack.
Import String.StringSyntax.
#[local] Open Scope Z_scope.

(** A domain name as a string, and as a question: each label after its length. *)
Fixpoint dotted (labels : list (list Z)) : list Z :=
  match labels with [] => [] | [l] => l | l :: labels => l ++ DOT :: dotted labels end.
Definition encode_name (labels : list (list Z)) : list Z := concat (map (fun l => Z.of_nat (length l) :: l) labels) ++ [0].
Definition label_ok (l : list Z) : Prop := (0 < length l < 64)%nat /\ Forall (fun c => c <> 0 /\ c <> DOT) l.
#[export] Instance label_ok_dec l : Decision (label_ok l).
Proof. unfold label_ok. apply _. Defined.

(** The labels with zeros for dots, behind the byte before the name. *)
Fixpoint cut (labels : list (list Z)) : list Z := match labels with [] => [] | [l] => l | l :: labels => l ++ 0 :: cut labels end.

Lemma cut_labels_label l rest r : Forall (fun c => c <> 0 /\ c <> DOT) l -> cut_labels rest = Done r -> cut_labels (l ++ rest) = Done (fst r, l ++ snd r).
Proof.
  induction 1 as [|c l [Hc Hd] Hl IH]; intros E; cbn [app cut_labels]; [by destruct r|]. rewrite (proj2 (Z.eqb_neq _ _) Hc), (IH E). cbn [outcome_bind].
  by rewrite (proj2 (Z.eqb_neq _ _) Hd).
Qed.
Lemma cut_labels_ok labels junk : Forall label_ok labels -> labels <> [] ->
  cut_labels (dotted labels ++ 0 :: junk) = Done (Z.of_nat (length labels) - 1, cut labels ++ 0 :: junk).
Proof.
  induction 1 as [|l labels [Hl Hc] Hls IH]; [done|]. intros _. destruct labels as [|l' labels].
  - cbn [dotted cut length]. by rewrite (cut_labels_label l (0 :: junk) (0, 0 :: junk)).
  - specialize (IH ltac:(done)). change (dotted (l :: l' :: labels)) with (l ++ DOT :: dotted (l' :: labels)). change (cut (l :: l' :: labels)) with (l ++ 0 :: cut (l' :: labels)).
    rewrite <- !app_assoc. cbn [app]. erewrite cut_labels_label; [|done | cbn [cut_labels]; rewrite IH; reflexivity]. cbn [outcome_bind fst snd].
    change (DOT =? 0) with false. cbn iota. change (DOT =? DOT) with true. cbn [fst snd length]. f_equal. f_equal. lia.
Qed.
Lemma strlen_counts l junk : Forall (fun c => c <> 0) l -> strlen (l ++ 0 :: junk) = Done (Z.of_nat (length l)).
Proof.
  induction 1 as [|c l Hc Hl IH]; [done|]. cbn [app strlen]. rewrite (proj2 (Z.eqb_neq _ _) Hc), IH. cbn [outcome_bind length]. f_equal. lia.
Qed.
Lemma strcpy_ok to l rest : Forall (fun c => c <> 0) l -> (length l < length to)%nat -> strcpy to (l ++ 0 :: rest) = Done (l ++ 0 :: drop (S (length l)) to).
Proof.
  intros Hl. revert to. induction Hl as [|c l Hc Hl IH]; intros to Ht; (destruct to as [|x to]; [cbn in Ht; lia|]); cbn [app strcpy]; [done|].
  rewrite (proj2 (Z.eqb_neq _ _) Hc), IH by (cbn in Ht; lia). done.
Qed.
Lemma skip_label_ok l rest : Forall (fun c => c <> 0) l -> forall fuel pre, (length l < fuel)%nat ->
  skip_label fuel (Z.of_nat (length pre)) (pre ++ l ++ 0 :: rest) = Done (Z.of_nat (length pre) + Z.of_nat (length l)).
Proof.
  induction 1 as [|c l Hc Hl IH]; intros fuel pre Hf; (destruct fuel as [|fuel]; [lia|]); cbn [app skip_label].
  - rewrite rd_byte. cbn [outcome_bind length]. rewrite Z.eqb_refl. f_equal. lia.
  - rewrite rd_byte. cbn [outcome_bind]. rewrite (proj2 (Z.eqb_neq _ _) Hc). pose proof (IH fuel (pre ++ [c]) ltac:(cbn in Hf; lia)) as E.
    rewrite length_app, <- app_assoc in E. cbn [length app] in E. replace (Z.of_nat (length pre + 1)) with (Z.of_nat (length pre) + 1) in E by lia. rewrite E. f_equal. cbn [length]. lia.
Qed.
Lemma put_lengths_ok labels junk : Forall label_ok labels -> labels <> [] -> forall pre y, length (pre ++ y :: cut labels ++ 0 :: junk) = 250%nat ->
  put_lengths (length labels) (Z.of_nat (length pre)) (pre ++ y :: cut labels ++ 0 :: junk) = Done (pre ++ encode_name labels ++ junk).
Proof.
  induction 1 as [|l labels [Hl Hc] Hls IH]; [done|]. intros _ pre y Hlen.
  assert (Hz : Forall (fun c => c <> 0) l) by (eapply Forall_impl; [exact Hc|]; by intros c [? _]).
  assert (Hcut : exists rest, cut (l :: labels) ++ 0 :: junk = l ++ 0 :: rest /\ (labels = [] -> rest = junk) /\ (labels <> [] -> rest = cut labels ++ 0 :: junk)).
  { destruct labels as [|l' labels]; [by exists junk|]. exists (cut (l' :: labels) ++ 0 :: junk). change (cut (l :: l' :: labels)) with (l ++ 0 :: cut (l' :: labels)). by rewrite <- app_assoc. }
  destruct Hcut as (rest & Er & Er1 & Er2). rewrite Er in *. cbn [length put_lengths].
  assert (Hrd : rd (Z.of_nat (length pre) + 1) (Z.to_nat (250 - (Z.of_nat (length pre) + 1))) (pre ++ y :: l ++ 0 :: rest) = Done (l ++ 0 :: rest)).
  { replace (Z.of_nat (length pre) + 1) with (Z.of_nat (length (pre ++ [y]))) by (rewrite length_app; cbn; lia). change (y :: l ++ 0 :: rest) with ([y] ++ l ++ 0 :: rest).
    rewrite app_assoc. set (n := Z.to_nat _). pose proof (rd_at (pre ++ [y]) (l ++ 0 :: rest) [] n) as E. rewrite app_nil_r in E. apply E. unfold n.
    rewrite length_app in Hlen. cbn [length] in Hlen. rewrite (length_app pre). cbn [length]. lia. }
  rewrite Hrd. cbn [outcome_bind]. rewrite strlen_counts by done. cbn [outcome_bind]. unfold set8.
  assert (Hwr : wr (Z.of_nat (length pre)) (le 1 (Z.of_nat (length l))) (pre ++ y :: l ++ 0 :: rest) = Done (pre ++ Z.of_nat (length l) :: l ++ 0 :: rest)).
  { apply wr_app_r; [lia|]. rewrite Z.sub_diag. unfold wr, arr_write. cbn [Z.leb Z.compare andb]. rewrite le_length.
    rewrite (proj2 (Z.leb_le _ _)) by (cbn [length]; lia). change (le 1 (Z.of_nat (length l))) with [Z.of_nat (length l) mod 256]. rewrite Z.mod_small by lia. done. }
  rewrite Hwr. cbn [outcome_bind]. change (Z.of_nat (length l) :: l ++ 0 :: rest) with ((Z.of_nat (length l) :: l) ++ 0 :: rest).
  rewrite skip_label_ok; [|constructor; [lia | done] | rewrite !length_app in Hlen; cbn [length] in Hlen |- *; rewrite length_app in Hlen; lia]. cbn [outcome_bind].
  destruct labels as [|l' labels].
  - rewrite (Er1 eq_refl). cbn [length put_lengths]. unfold encode_name. cbn [map concat]. by rewrite app_nil_r, <- !app_assoc.
  - rewrite (Er2 ltac:(done)). rewrite app_assoc. rewrite <- Nat2Z.inj_add, <- length_app. rewrite IH; [|done|].
    + unfold encode_name. cbn [map concat]. by rewrite <- !app_assoc.
    + rewrite (Er2 ltac:(done)) in Hlen. repeat (rewrite !length_app in *; cbn [length] in *). lia.
Qed.

Section Dns.
Context `{Machine}.

Lemma dotted_chars labels : Forall label_ok labels -> Forall (fun c => c <> 0) (dotted labels).
Proof.
  induction 1 as [|l labels [Hl Hc] Hls IH]; [constructor|]. assert (Forall (fun c => c <> 0) l) by (eapply Forall_impl; [exact Hc|]; by intros c [? _]).
  destruct labels as [|l' labels]; [done|]. apply Forall_app. split; [done|]. constructor; [done | exact IH].
Qed.
Lemma encode_name_length labels : labels <> [] -> length (encode_name labels) = (length (dotted labels) + 2)%nat.
Proof.
  intros Hn. unfold encode_name. rewrite length_app. cbn [length]. induction labels as [|l labels IH]; [done|]. destruct labels as [|l' labels].
  - cbn. rewrite app_nil_r. lia.
  - specialize (IH ltac:(done)). change (dotted (l :: l' :: labels)) with (l ++ DOT :: dotted (l' :: labels)). cbn [map concat] in IH |- *. rewrite !length_app in *. cbn [length] in *. lia.
Qed.
Lemma cut_length labels : length (cut labels) = length (dotted labels).
Proof.
  induction labels as [|l labels IH]; [done|]. destruct labels as [|l' labels]; [done|].
  change (dotted (l :: l' :: labels)) with (l ++ DOT :: dotted (l' :: labels)). change (cut (l :: l' :: labels)) with (l ++ 0 :: cut (l' :: labels)). rewrite !length_app. cbn [length]. by rewrite IH.
Qed.

(** The byte before the name, which is not written, is neither a zero nor a dot. *)
Lemma dns_question_ok labels s : Forall label_ok labels -> labels <> [] -> (length (dotted labels) <= 244)%nat ->
  left_over L_domain s 0 <> 0 -> left_over L_domain s 0 <> DOT -> exists rest,
  dns_question (dotted labels ++ [0]) s = Done (Z.of_nat (length (dotted labels)) + 1, encode_name labels ++ rest).
Proof.
  intros Hl Hn Hlen H0 Hd. exists (drop (S (length (dotted labels))) (junk L_domain 1 249 s)). set (rest := drop _ _).
  assert (Er : length rest = (248 - length (dotted labels))%nat) by (unfold rest; rewrite length_drop, junk_length; lia).
  pose proof (dotted_chars labels Hl) as Hc. unfold dns_question. cbn zeta.
  eapply obind_step; [eapply obind_step; [apply strcpy_ok; [exact Hc | change (drop 1 (uninit L_domain 250 s)) with (junk L_domain 1 249 s); rewrite junk_length; lia]|reflexivity]|]. cbn beta.
  change (take 1 (uninit L_domain 250 s)) with [left_over L_domain s 0]. change (drop 1 (uninit L_domain 250 s)) with (junk L_domain 1 249 s). fold rest. cbn [app].
  eapply obind_step; [exact (strlen_counts (left_over L_domain s 0 :: dotted labels) rest ltac:(by constructor))|]. cbn beta.
  eapply obind_step; [change (left_over L_domain s 0 :: dotted labels ++ 0 :: rest) with ([left_over L_domain s 0] ++ (dotted labels ++ 0 :: rest)); eapply cut_labels_label; [by repeat constructor | by apply cut_labels_ok]|].
  cbn [fst snd app].
  replace (Z.to_nat (Z.of_nat (length labels) - 1 + 1)) with (length labels) by lia.
  eapply obind_step; [apply (put_lengths_ok labels rest Hl Hn [])|].
  - cbn [app length]. rewrite length_app, cut_length. cbn [length]. lia.
  - cbn [app length]. f_equal. f_equal. lia.
Qed.

Lemma junk_app l from n k s : junk l from (n + k) s = junk l from n s ++ junk l (from + n) k s.
Proof. apply junk_split. Qed.

(** ** The packet *)

Definition swapped (l : list Z) : list Z := match l with [a; b; c; d; e; f] => [b; a; d; c; f; e] | _ => l end.
End Dns.

(** ** Examples *)

Definition stale_machine (x : Z) : Machine := {| left_over _ _ _ := x; address_of _ _ := 0xc0000123450 |}.
Definition example_labels : list (list Z) := [text "www"; text "example"; text "jp"].
Lemma example_labels_ok : Forall label_ok example_labels.
Proof. by apply (bool_decide_unpack _); vm_compute. Qed.
(** With a zero on the stack the question is a single length, and with a dot the code counts a
    label behind the name, whose length it takes from bytes that are not written. *)
Definition question (x : Z) : option (list Z) :=
  match @dns_question (stale_machine x) (dotted [text "a"; text "b"] ++ [0]) new_net with Done (n, q) => Some (take (Z.to_nat (n + 1)) q) | _ => None end.
Lemma dns_question_stale : question 0x41 = Some (encode_name [text "a"; text "b"]) /\ question 0 = Some [3] /\ question DOT = None.
Proof. vm_compute. done. Qed.
