(* ===== verification/MyosTcp.v ===== *)
(** * myos: TCP

    Segments of a peer, as frames, and what [receiveFrame] makes of them: the handshake, and
    the transfer of data that [sendDataByTCP] starts and the acknowledgements continue. *)
From S2P Require Import Prelude MyosMem MyosNet MyosSend MyosChecksum MyosDhcp.
Import Lib Stack.
#[local] Open Scope Z_scope.

(** ** Segments *)

(** A frame of a peer at [g_src]; the other fields are arbitrary. *)
Record segment := Segment {
  g_eth : list Z; g_ip : list Z; g_sum : list Z; g_src : Z; g_dst : Z; g_sport : Z; g_dport : Z; g_seq : Z; g_ack : Z;
  g_info : Z; g_window : Z; g_rest : list Z; g_data : list Z
}.
Definition half_ok (v : Z) : Prop := 0 <= v < 2 ^ 16.
Record segment_ok (g : segment) : Prop := SegmentOk {
  go_eth : length (g_eth g) = 12%nat; go_ip : length (g_ip g) = 9%nat; go_sum : length (g_sum g) = 2%nat; go_src : address_ok (g_src g); go_dst : address_ok (g_dst g);
  go_sport : half_ok (g_sport g); go_dport : half_ok (g_dport g); go_seq : address_ok (g_seq g); go_ack : address_ok (g_ack g);
  go_info : half_ok (g_info g); go_window : half_ok (g_window g); go_rest : length (g_rest g) = 4%nat
}.
Definition segment_frame (g : segment) : list Z :=
  (g_eth g ++ be 2 FRAME_IP ++ g_ip g ++ [6] ++ g_sum g ++ be 4 (g_src g) ++ be 4 (g_dst g) ++
   be 2 (g_sport g) ++ be 2 (g_dport g) ++ be 4 (g_seq g) ++ be 4 (g_ack g) ++ be 2 (g_info g) ++ be 2 (g_window g) ++ g_rest g) ++ g_data g.

Section Tcp.
Context `{Machine}.
Implicit Type s : NetInfo.
#[local] Abbreviation net := (M NetInfo).

Lemma un_le_half a : half_ok a -> un_le [a mod 256; (a / 256) mod 256] = a.
Proof. intros Ha. change (un_le (le 2 a) = a). rewrite un_le_le. by apply Z.mod_small. Qed.
Lemma bind_ret_tt {S A} (m : M S unit) (x : A) (st : S) : bind (bind m (fun _ => ret x)) (fun _ => ret tt) st = m st.
Proof. unfold bind. by destruct (m st) as [[[] ?]| | |]. Qed.

Lemma receive_segment fuel g s : segment_ok g -> g_dst g = IPAddr s \/ g_dst g = IP_BROADCAST_ADDRESS ->
  receiveFrame fuel (segment_frame g) s =
  (ct <- getTCPContBySrcPort (g_dport g) ;; tcp_input ct (g_src g) (g_sport g) (g_dport g) (g_seq g) (g_ack g) (g_info g) (g_window g) (Done (g_data g))) s.
Proof.
  intros [G1 G2 G3 G4 G5 G6 G7 G8 G9 G10 G11 G12] Hdst. unfold segment_frame. destruct g as [eth ip sum src dst sport dport sq ak info window rest d].
  cbn [g_eth g_ip g_sum g_src g_dst g_sport g_dport g_seq g_ack g_info g_window g_rest g_data] in *.
  explode G1. explode G2. explode G3. explode G12.
  unfold receiveFrame. rewrite (lift_bind _ _ _ FRAME_IP).
  2:{ eapply obind_step; [eapply rd_int_header; header_bytes | cbn beta]. rewrite swap16_ok. vm_compute. reflexivity. }
  change (FRAME_IP =? FRAME_ARP) with false. change (FRAME_IP =? FRAME_IP) with true. cbn iota.
  etransitivity; [apply bind_cong | apply bind_ret_tt]. unfold receiveIPPacket, ne2he. erewrite lift_bind by build.
  erewrite lift_bind by (eapply rd_int_header; header_bytes). rewrite un_le_address by done. cbn [bind get].
  replace (negb (dst =? IPAddr s) && negb (dst =? IP_BROADCAST_ADDRESS)) with false.
  2:{ destruct Hdst as [<- | ->]; [by rewrite Z.eqb_refl | by rewrite andb_false_r]. }
  rewrite (lift_bind _ _ _ IP_PROTOCOL_TCP) by (eapply rd_int_value; [header_bytes | reflexivity]).
  rewrite (lift_bind _ _ _ src) by (eapply rd_int_value; [header_bytes | by apply un_le_address]). erewrite lift_bind by (eapply rd_int_header; header_bytes).
  change (IP_PROTOCOL_TCP =? IP_PROTOCOL_TCP) with true. cbn iota.
  unfold receiveTCPPacket, ne2he. erewrite lift_bind by build.
  rewrite (lift_bind _ _ _ sport) by (eapply rd_int_value; [header_bytes | by apply un_le_half]).
  rewrite (lift_bind _ _ _ dport) by (eapply rd_int_value; [header_bytes | by apply un_le_half]).
  rewrite (lift_bind _ _ _ sq) by (eapply rd_int_value; [header_bytes | by apply un_le_address]).
  rewrite (lift_bind _ _ _ ak) by (eapply rd_int_value; [header_bytes | by apply un_le_address]).
  rewrite (lift_bind _ _ _ info) by (eapply rd_int_value; [header_bytes | by apply un_le_half]).
  rewrite (lift_bind _ _ _ window) by (eapply rd_int_value; [header_bytes | by apply un_le_half]).
  match goal with |- context [rd (14 + 20 + 20) _ (?h ++ d)] => assert (Er : rd (14 + 20 + 20) (length (h ++ d) - Z.to_nat (14 + 20 + 20)) (h ++ d) = Done d) end.
  { match goal with |- rd _ _ (?h ++ d) = _ => pose proof (rd_at h d [] (length d) eq_refl) as E; rewrite app_nil_r in E end. etransitivity; [|exact E]. f_equal. rewrite length_app. cbn [length]. lia. }
  rewrite Er. unfold bind. destruct (getTCPContBySrcPort dport s) as [[ct s1]| | |]; try done.
Qed.

(** ** Connections *)

Definition with_connection (ct : Z) (c : TCPConnection) s : NetInfo := set_Connections (<[Z.to_nat ct := c]> (Connections s)) s.
Lemma connection_ok ct c s : arr_get (Connections s) ct = Some c -> connection ct s = Done (c, s).
Proof. intros E. unfold connection. cbn [bind get]. by rewrite E. Qed.
Lemma set_connection_ok ct f c s : arr_get (Connections s) ct = Some c -> set_connection ct f s = Done (tt, with_connection ct (f c) s).
Proof.
  intros E. unfold set_connection. cbn [bind get]. rewrite E. cbn [need ret]. destruct (proj1 (arr_get_Some _ _ _) E) as [H1 H2]. apply lookup_lt_Some in H2. unfold arr_set.
  rewrite (proj2 (Z.ltb_ge _ _)), (proj2 (Z.leb_gt _ _)) by lia. done.
Qed.
Lemma with_connection_get ct c c' s : arr_get (Connections s) ct = Some c -> arr_get (Connections (with_connection ct c' s)) ct = Some c'.
Proof.
  intros E. destruct (proj1 (arr_get_Some _ _ _) E) as [H1 H2]. unfold arr_get. rewrite (proj2 (Z.ltb_ge _ _)) by lia. apply list_lookup_insert_eq. by eapply lookup_lt_Some.
Qed.
Lemma with_connection_other ct i c' s : 0 <= ct -> i <> ct -> arr_get (Connections (with_connection ct c' s)) i = arr_get (Connections s) i.
Proof. intros Hc Hi. unfold arr_get. destruct (Z.ltb_spec i 0); [done|]. apply list_lookup_insert_ne. lia. Qed.

(** The first connection with a port, from the second on. *)
Definition first_with (port ct : Z) s : Prop := 1 <= ct < TCP_CONT_MAX /\ forall i, 1 <= i < ct -> exists c, arr_get (Connections s) i = Some c /\ portSrc c <> port.
Lemma find_connection_ok port ct c s : first_with port ct s -> arr_get (Connections s) ct = Some c -> portSrc c = port ->
  forall fuel i, 1 <= i <= ct -> (Z.to_nat (ct - i) < fuel)%nat -> find_connection fuel port i s = Done (ct, s).
Proof.
  intros [Hct Hf] E Ep. induction fuel as [|fuel IH]; intros i Hi Hfuel; [lia|]. cbn [find_connection]. unfold bind. destruct (Z.eq_dec i ct) as [->|].
  - rewrite (connection_ok _ _ _ E), Ep, Z.eqb_refl. done.
  - destruct (Hf i ltac:(lia)) as (c' & E' & Hp). rewrite (connection_ok _ _ _ E'), (proj2 (Z.eqb_neq _ _) Hp), (proj2 (Z.ltb_lt i _)), (proj2 (Z.eqb_neq i _)) by (unfold TCP_CONT_MAX in *; lia).
    cbn [negb andb]. apply IH; lia.
Qed.
Lemma getTCPContBySrcPort_ok port ct c s : first_with port ct s -> arr_get (Connections s) ct = Some c -> portSrc c = port -> getTCPContBySrcPort port s = Done (ct, s).
Proof. intros Hf E Ep. pose proof (proj1 Hf) as Hct. unfold TCP_CONT_MAX in Hct. apply (find_connection_ok port ct c s Hf E Ep); lia. Qed.
Lemma first_with_same port ct s s' : Connections s' = Connections s -> first_with port ct s -> first_with port ct s'.
Proof. unfold first_with. by intros ->. Qed.
Lemma first_with_connection port ct c s : first_with port ct s -> first_with port ct (with_connection ct c s).
Proof. intros [Hct Hf]. split; [done|]. intros i Hi. rewrite with_connection_other by lia. by apply Hf. Qed.

(** ** Data *)

(** What a segment says: its number, its flags and its data. *)
Record piece := Piece { p_number : Z; p_flags : Z; p_data : list Z }.
Definition FIN_ACK : Z := 0x11.
(** The answers to acknowledgements while [rest] is still to be sent with the window [w]. *)
Definition smaller (w x : Z) : Z := if w <? x then w else x.
Fixpoint transfer (rest : list Z) (w : Z) (acks : list segment) : list piece :=
  match acks with
  | [] => []
  | g :: acks =>
      let w := smaller w (g_window g) in
      if Z.of_nat (length rest) <? w then [Piece (g_ack g) FIN_ACK rest]
      else Piece (g_ack g) TCP_CTRLFLAG_ACK (take (Z.to_nat w) rest) :: transfer (drop (Z.to_nat w) rest) w acks
  end.
(** The last acknowledgement is answered with the end of the data. *)
Fixpoint completes (rest : list Z) (w : Z) (acks : list segment) : Prop :=
  match acks with
  | [] => False
  | g :: acks =>
      let w := smaller w (g_window g) in
      if Z.of_nat (length rest) <? w then acks = [] else completes (drop (Z.to_nat w) rest) w acks
  end.

(** The two ends of a connection. *)
Record ends := Ends { e_self : Z; e_port : Z; e_peer : Z; e_peer_port : Z }.
Definition of_ends (e : ends) (c : TCPConnection) : Prop := portSrc c = e_port e /\ IPDest c = e_peer e /\ portDest c = e_peer_port e.
Definition carries (e : ends) (p : piece) (f : list Z) : Prop :=
  exists c s, of_ends e c /\ seqNum c = p_number p /\ f = ip_frame IP_PROTOCOL_TCP (e_peer e) (tcp_segment c (p_flags p) (e_self e) (p_data p)) s.
(** An acknowledgement to this connection. *)
Definition ack_for (e : ends) (g : segment) : Prop :=
  segment_ok g /\ g_dst g = e_self e /\ g_dport g = e_port e /\ Z.land (g_info g) TCP_CTRLFLAG_SYN = 0 /\ Z.land (g_info g) TCP_CTRLFLAG_FIN = 0.

(** [p] bytes of [d] are sent. *)
Record sending (e : ends) (ct : Z) (d : list Z) (w : Z) (p : nat) s : Prop := Sending {
  sn_mac : length (MACAddr s) = 6%nat; sn_ip : IPAddr s = e_self e; sn_first : first_with (e_port e) ct s;
  sn_conn : exists c, arr_get (Connections s) ct = Some c /\ status c = TCP_CONT_SENDING /\ of_ends e c /\ windowSize c = w /\ sendP c = Z.of_nat p /\
    length_ c = Z.of_nat (length d) /\ data c = d
}.
Definition closing (ct : Z) s : Prop := exists c, arr_get (Connections s) ct = Some c /\ status c = TCP_CONT_FIN_WAIT1.
Lemma Connections_sent protocol dst payload s : Connections (ip_sent protocol dst payload s) = Connections s.
Proof. done. Qed.
Lemma ip_sent_sent protocol dst payload s : sent (ip_sent protocol dst payload s) = sent s ++ [ip_frame protocol dst payload s].
Proof. done. Qed.
Lemma rd_drop p (d : list Z) : (p <= length d)%nat -> rd (Z.of_nat p) (length d - p) d = Done (drop p d).
Proof.
  intros Hp. rewrite <- (take_drop p d) at 2. rewrite <- (app_nil_r (drop p d)) at 1. rewrite <- (length_take_le d p Hp) at 1. apply rd_at. apply length_drop.
Qed.
Lemma truthy_0 v : v = 0 -> truthy v = false.
Proof. by intros ->. Qed.

Lemma run_bind {S A B} (m : M S A) (k : A -> M S B) st a st' : m st = Done (a, st') -> bind m k st = k a st'.
Proof. intros E. unfold bind. by rewrite E. Qed.
(** An update of a connection that keeps its ends, and reading it. *)
Lemma update_connection {B} ct f c (k : TCPConnection -> net B) s : arr_get (Connections s) ct = Some c ->
  (set_connection ct f ;;; c <- connection ct ;; k c) s = k (f c) (with_connection ct (f c) s).
Proof.
  intros E. rewrite (run_bind _ _ _ _ _ (set_connection_ok _ f _ _ E)). apply run_bind, connection_ok. by eapply with_connection_get.
Qed.
Lemma tcp_sending_ok e ct d w p seq ack window s : sending e ct d w p s -> (p <= length d)%nat -> Z.of_nat (length d) < 2 ^ 32 -> 0 <= w <= 400 -> 0 <= window ->
  exists s' f, tcp_sending ct seq ack window s = Done (tt, s') /\ sent s' = sent s ++ [f] /\
  let w' := smaller w window in
  if Z.of_nat (length (drop p d)) <? w' then carries e (Piece ack FIN_ACK (drop p d)) f /\ closing ct s'
  else carries e (Piece ack TCP_CTRLFLAG_ACK (take (Z.to_nat w') (drop p d))) f /\ sending e ct d w' (p + Z.to_nat w') s'.
Proof.
  intros [Hm Hip Hfirst (c & Ec & Est & (He1 & He2 & He3) & Ew & Ep & El & Ed)] Hp Hd Hw Hwin. unfold tcp_sending. rewrite (update_connection _ _ _ _ _ Ec).
  set (c1 := set_numbers ack seq window c). set (s1 := with_connection ct c1 s). set (w' := smaller w window).
  assert (Ew' : windowSize c1 = w') by (unfold w', smaller; rewrite <- Ew; done). assert (0 <= w' <= 400) by (unfold w', smaller; destruct (Z.ltb_spec w window); lia).
  assert (Ec1 : arr_get (Connections s1) ct = Some c1) by (by eapply with_connection_get).
  change (sendP c1) with (sendP c). change (data c1) with (data c). change (length_ c1) with (length_ c). rewrite Ep, Ed, El, Nat2Z.id, Ew'.
  rewrite (lift_bind _ _ _ _ (rd_drop p d Hp)). rewrite u32_small by lia. rewrite length_drop. replace (Z.of_nat (length d - p)) with (Z.of_nat (length d) - Z.of_nat p) by lia.
  destruct (Z.ltb_spec (Z.of_nat (length d) - Z.of_nat p) w') as [Hlt|Hge].
  - rewrite (update_connection _ _ _ _ _ Ec1). set (c2 := set_status TCP_CONT_FIN_WAIT1 c1). set (s2 := with_connection ct c2 s1).
    change (length_ c2) with (length_ c). change (sendP c2) with (sendP c). rewrite El, Ep.
    assert (Esz : s32 (u32 (u32 (Z.of_nat (length d) - Z.of_nat p) + HEADER_BYTES)) = 20 + Z.of_nat (length (drop p d))).
    { rewrite length_drop. unfold HEADER_BYTES, TCP_HEADER_LENGTH. rewrite (u32_small (_ - _)), u32_small, s32_small by lia. lia. }
    rewrite Esz. eexists _, _. split.
    { pose proof (sendTCPPacket_ok c2 (Z.lor TCP_CTRLFLAG_ACK TCP_CTRLFLAG_FIN) (drop p d) [] _ s2 Hm eq_refl ltac:(rewrite length_drop; lia)) as E. rewrite app_nil_r in E. exact E. }
    split; [reflexivity|]. split.
    + exists c2, s2. split; [done|]. split; [done|]. change (IPDest c2) with (IPDest c). rewrite He2. change (IPAddr s2) with (IPAddr s). by rewrite Hip.
    + exists c2. split; [|done]. rewrite Connections_sent. by eapply with_connection_get.
  - pose proof (sendTCPPacket_ok c1 TCP_CTRLFLAG_ACK (take (Z.to_nat w') (drop p d)) (drop (Z.to_nat w') (drop p d)) (w' + HEADER_BYTES) s1 Hm
      ltac:(unfold HEADER_BYTES, TCP_HEADER_LENGTH; rewrite length_take, length_drop; lia) ltac:(unfold HEADER_BYTES, TCP_HEADER_LENGTH; lia)) as E. rewrite take_drop in E.
    rewrite (run_bind _ _ _ _ _ E). clear E.
    rewrite (set_connection_ok _ _ c1) by done. eexists _, _. split; [reflexivity|]. split; [reflexivity|]. split.
    + exists c1, s1. split; [done|]. split; [done|]. change (IPDest c1) with (IPDest c). rewrite He2. change (IPAddr s1) with (IPAddr s). by rewrite Hip.
    + split; [done | done | |].
      * apply first_with_connection. apply (first_with_same _ _ s1); [done|]. by apply first_with_connection.
      * eexists. split; [by eapply with_connection_get|]. split; [done|]. split; [done|]. split; [done|]. cbn [set_sendP sendP length_ data]. split; [|done].
        change (sendP c1) with (sendP c). rewrite Ep, Ew', u32_small by lia. lia.
Qed.

(** An acknowledgement, from its frame. *)
Lemma receive_ack fuel e ct d w p g s : sending e ct d w p s -> ack_for e g -> (p <= length d)%nat -> Z.of_nat (length d) < 2 ^ 32 -> 0 <= w <= 400 ->
  exists s' f, receiveFrame fuel (segment_frame g) s = Done (tt, s') /\ sent s' = sent s ++ [f] /\
  let w' := smaller w (g_window g) in
  if Z.of_nat (length (drop p d)) <? w' then carries e (Piece (g_ack g) FIN_ACK (drop p d)) f /\ closing ct s'
  else carries e (Piece (g_ack g) TCP_CTRLFLAG_ACK (take (Z.to_nat w') (drop p d))) f /\ sending e ct d w' (p + Z.to_nat w') s'.
Proof.
  intros Hs (Hg & Hdst & Hport & Hsyn & Hfin) Hp Hd Hw. destruct (sn_conn _ _ _ _ _ _ Hs) as (c & Ec & Est & (He1 & _) & _).
  rewrite receive_segment by (done || left; by rewrite Hdst, (sn_ip _ _ _ _ _ _ Hs)). rewrite Hport.
  rewrite (run_bind _ _ _ _ _ (getTCPContBySrcPort_ok _ _ _ _ (sn_first _ _ _ _ _ _ Hs) Ec He1)). unfold tcp_input. rewrite (truthy_0 _ Hsyn), (truthy_0 _ Hfin). cbn iota.
  rewrite (run_bind _ _ s tt s) by done. rewrite (run_bind _ _ _ _ _ (connection_ok _ _ _ Ec)), Est. apply tcp_sending_ok; try done. apply (go_window g Hg).
Qed.

Fixpoint receive_all (fuel : nat) (frames : list (list Z)) : net unit :=
  match frames with [] => ret tt | f :: frames => receiveFrame fuel f ;;; receive_all fuel frames end.
Lemma transfer_runs fuel e ct d : Z.of_nat (length d) < 2 ^ 32 -> forall acks w p s, sending e ct d w p s -> (p <= length d)%nat -> 0 <= w <= 400 ->
  Forall (ack_for e) acks -> completes (drop p d) w acks ->
  exists s' fs, receive_all fuel (map segment_frame acks) s = Done (tt, s') /\ sent s' = sent s ++ fs /\ Forall2 (carries e) (transfer (drop p d) w acks) fs /\ closing ct s'.
Proof.
  intros Hd. induction acks as [|g acks IH]; intros w p s Hs Hp Hw Ha Hc; [done|]. inversion Ha as [|? ? Hg Ha']; subst.
  destruct (receive_ack fuel e ct d w p g s Hs Hg Hp Hd Hw) as (s1 & f & E & Esent & Hstep). cbn zeta in Hstep. cbn [map receive_all transfer completes] in *.
  rewrite (run_bind _ _ _ _ _ E). set (w' := smaller w (g_window g)) in *. pose proof (go_window g (proj1 Hg)) as [Hwin _].
  assert (0 <= w' <= 400) by (unfold w', smaller; destruct (Z.ltb_spec w (g_window g)); lia). destruct (Z.ltb_spec (Z.of_nat (length (drop p d))) w') as [Hlt|Hge].
  - destruct Hstep as [Hcar Hcl]. subst acks. exists s1, [f]. split; [done|]. split; [done|]. split; [by repeat constructor | done].
  - destruct Hstep as [Hcar Hs']. rewrite length_drop in Hge. rewrite drop_drop in Hc |- *.
    destruct (IH w' (p + Z.to_nat w')%nat s1 Hs' ltac:(lia) ltac:(lia) Ha' Hc) as (s' & fs & E' & Esent' & Hf & Hcl). exists s', (f :: fs). split; [done|].
    split; [by rewrite Esent', Esent, <- app_assoc|]. split; [by constructor | done].
Qed.
Lemma transfer_data acks : forall rest w, completes rest w acks -> concat (map p_data (transfer rest w acks)) = rest.
Proof.
  induction acks as [|g acks IH]; intros rest w Hc; [done|]. cbn [completes transfer] in *. destruct (Z.ltb_spec (Z.of_nat (length rest)) (smaller w (g_window g))) as [Hlt|Hge].
  - cbn. apply app_nil_r.
  - cbn [map concat p_data]. rewrite IH by done. apply take_drop.
Qed.
(** One acknowledgement for each full window, if the peer does not make it smaller. *)
Lemma completes_enough w acks : 0 < w -> Forall (fun g => w <= g_window g) acks -> forall rest, length acks = S (length rest / Z.to_nat w) -> completes rest w acks.
Proof.
  intros Hw Ha. induction Ha as [|g acks Hg Ha IH]; intros rest Hl; [done|]. cbn [completes length] in *.
  assert (smaller w (g_window g) = w) as -> by (unfold smaller; destruct (Z.ltb_spec w (g_window g)); lia). apply eq_add_S in Hl. destruct (Z.ltb_spec (Z.of_nat (length rest)) w) as [Hlt|Hge].
  - rewrite Nat.div_small in Hl by lia. by apply length_zero_iff_nil.
  - apply IH. rewrite Hl, length_drop. replace (length rest) with ((length rest - Z.to_nat w) + 1 * Z.to_nat w)%nat at 1 by lia. rewrite Nat.div_add by lia. lia.
Qed.

(** An established connection. *)
Record established (e : ends) (ct : Z) (c : TCPConnection) s : Prop := Established {
  es_mac : length (MACAddr s) = 6%nat; es_ip : IPAddr s = e_self e; es_first : first_with (e_port e) ct s;
  es_conn : arr_get (Connections s) ct = Some c; es_ends : of_ends e c; es_window : 0 <= windowSize c <= 400
}.
Lemma sendData_starts e ct c d more s : established e ct c s -> 400 <= Z.of_nat (length d) < 2 ^ 32 ->
  exists s' f, sendDataByTCP ct (d ++ more) (Z.of_nat (length d)) s = Done (tt, s') /\ sent s' = sent s ++ [f] /\
    carries e (Piece (seqNum c) TCP_CTRLFLAG_ACK (take 400 d)) f /\ sending e ct d (windowSize c) 400 s'.
Proof.
  intros [Hm Hip Hfirst Ec (He1 & He2 & He3) Hw] Hd. unfold sendDataByTCP. rewrite (run_bind _ _ _ _ _ (connection_ok _ _ _ Ec)).
  rewrite (proj2 (Z.ltb_ge _ _)) by lia. unfold kmalloc. cbn [bind get put ret]. set (s1 := set_kmalloced _ s). rewrite u32_small by lia.
  rewrite (lift_bind _ _ _ d) by (by apply rd_prefix). assert (Ec1 : arr_get (Connections s1) ct = Some c) by done. rewrite (update_connection _ _ _ _ _ Ec1).
  set (c2 := set_sendP 400 _). set (s2 := with_connection ct c2 s1).
  pose proof (sendTCPPacket_ok c2 TCP_CTRLFLAG_ACK (take 400 d) (drop 400 d ++ more) (400 + HEADER_BYTES) s2 Hm
    ltac:(unfold HEADER_BYTES, TCP_HEADER_LENGTH; rewrite length_take; lia) ltac:(unfold HEADER_BYTES, TCP_HEADER_LENGTH; lia)) as E. rewrite app_assoc, take_drop in E.
  eexists _, _. split; [exact E|]. clear E. split; [reflexivity|]. split.
  - exists c2, s2. split; [exact (conj He1 (conj He2 He3))|]. split; [reflexivity|]. change (IPDest c2) with (IPDest c). rewrite He2. change (IPAddr s2) with (IPAddr s). rewrite Hip. reflexivity.
  - split; [exact Hm | exact Hip | |].
    + apply (first_with_same _ _ s2); [reflexivity|]. apply first_with_connection. exact Hfirst.
    + exists c2. split; [rewrite Connections_sent; by eapply with_connection_get|]. split; [reflexivity|]. split; [exact (conj He1 (conj He2 He3))|]. by repeat split.
Qed.

(** The data, from its start to the FIN. *)
Lemma data_transfer fuel e ct c d more acks s : established e ct c s -> 400 <= Z.of_nat (length d) < 2 ^ 32 -> Forall (ack_for e) acks ->
  completes (drop 400 d) (windowSize c) acks ->
  exists s' fs, (sendDataByTCP ct (d ++ more) (Z.of_nat (length d)) ;;; receive_all fuel (map segment_frame acks)) s = Done (tt, s') /\
    sent s' = sent s ++ fs /\ closing ct s' /\
    let pieces := Piece (seqNum c) TCP_CTRLFLAG_ACK (take 400 d) :: transfer (drop 400 d) (windowSize c) acks in
    Forall2 (carries e) pieces fs /\ concat (map p_data pieces) = d.
Proof.
  intros He Hd Ha Hc. destruct (sendData_starts e ct c d more s He Hd) as (s1 & f & E & Esent & Hcar & Hs).
  destruct (transfer_runs fuel e ct d ltac:(lia) acks (windowSize c) 400 s1 Hs ltac:(lia) (es_window _ _ _ _ He) Ha Hc) as (s' & fs & E' & Esent' & Hf & Hcl).
  exists s', (f :: fs). split; [by rewrite (run_bind _ _ _ _ _ E)|]. split; [by rewrite Esent', Esent, <- app_assoc|]. split; [done|]. cbn zeta.
  split; [by constructor|]. cbn [map concat p_data]. rewrite transfer_data by done. apply take_drop.
Qed.

(** A transfer over TCP.  [sendDataByTCP] and then the acknowledgements of the peer, each
    in a frame that [receiveFrame] handles, send the data in pieces: the first of 400 bytes,
    then for each acknowledgement a window of it, with the acknowledged number, the window
    being the smallest one the peer has named; the last piece has the FIN flag, and the
    pieces together are the data. *)
Theorem tcp_transfer fuel e ct c d more acks s : established e ct c s -> 400 <= Z.of_nat (length d) < 2 ^ 32 -> Forall (ack_for e) acks ->
  completes (drop 400 d) (windowSize c) acks ->
  exists s' fs, (sendDataByTCP ct (d ++ more) (Z.of_nat (length d)) ;;; receive_all fuel (map segment_frame acks)) s = Done (tt, s') /\
    sent s' = sent s ++ fs /\ closing ct s' /\
    let pieces := Piece (seqNum c) TCP_CTRLFLAG_ACK (take 400 d) :: transfer (drop 400 d) (windowSize c) acks in
    Forall2 (carries e) pieces fs /\ concat (map p_data pieces) = d.
Proof. apply data_transfer. Qed.

(** Less than a window goes out at once, and the FIN behind it has the number of the data. *)
Lemma sendData_short e ct c d more s : established e ct c s -> Z.of_nat (length d) < windowSize c ->
  exists s' f1 f2, sendDataByTCP ct (d ++ more) (Z.of_nat (length d)) s = Done (tt, s') /\ sent s' = sent s ++ [f1; f2] /\ closing ct s' /\
    carries e (Piece (seqNum c) TCP_CTRLFLAG_ACK d) f1 /\ carries e (Piece (seqNum c) FIN_ACK []) f2.
Proof.
  intros [Hm Hip Hfirst Ec (He1 & He2 & He3) Hw] Hd. unfold sendDataByTCP. rewrite (run_bind _ _ _ _ _ (connection_ok _ _ _ Ec)). rewrite (proj2 (Z.ltb_lt _ _)) by lia.
  rewrite (run_bind _ _ _ _ _ (set_connection_ok _ _ _ _ Ec)). set (c2 := set_sendP 0 _). set (s2 := with_connection ct c2 s).
  assert (Ec2 : arr_get (Connections s2) ct = Some c2) by (by eapply with_connection_get).
  pose proof (sendTCPPacket_ok c2 TCP_CTRLFLAG_ACK d more (s32 (Z.of_nat (length d) + HEADER_BYTES)) s2 Hm
    ltac:(unfold HEADER_BYTES, TCP_HEADER_LENGTH; rewrite s32_small; lia) ltac:(unfold HEADER_BYTES, TCP_HEADER_LENGTH; rewrite s32_small; lia)) as E.
  set (s3 := ip_sent _ _ _ _) in E. assert (E3 : (c <- connection ct ;; sendTCPPacket c TCP_CTRLFLAG_ACK (s32 (Z.of_nat (length d) + HEADER_BYTES)) (d ++ more) false) s2 = Done (tt, s3)).
  { by rewrite (run_bind _ _ _ _ _ (connection_ok _ _ _ Ec2)). }
  assert (Es3 : sent s3 = sent s ++ [ip_frame IP_PROTOCOL_TCP (IPDest c2) (tcp_segment c2 TCP_CTRLFLAG_ACK (IPAddr s2) d) s2]) by reflexivity.
  assert (Ei3 : IPAddr s3 = e_self e) by exact Hip. assert (Ec3 : arr_get (Connections s3) ct = Some c2) by exact Ec2. assert (Hm3 : length (MACAddr s3) = 6%nat) by exact Hm.
  rewrite (run_bind _ _ _ _ _ E3). clear E E3. clearbody s3. rewrite (run_bind _ _ _ _ _ (connection_ok ct c2 s3 Ec3)). rewrite (sendTCPHeader_ok c2) by exact Hm3.
  eexists _, _, _. split; [reflexivity|]. split; [rewrite ip_sent_sent, Es3, <- app_assoc; reflexivity|]. split; [exists c2; split; [exact Ec3 | reflexivity]|].
  assert (Ei2 : IPAddr s2 = e_self e) by exact Hip. assert (Ed2 : IPDest c2 = e_peer e) by exact He2. rewrite Ei2, Ei3, Ed2.
  split; [exists c2, s2 | exists c2, s3]; (split; [exact (conj He1 (conj He2 He3))|]; split; reflexivity).
Qed.

(** ** The handshake *)

Lemma receive_syn fuel e ct c g s : length (MACAddr s) = 6%nat -> IPAddr s = e_self e -> first_with (e_port e) ct s ->
  arr_get (Connections s) ct = Some c -> portSrc c = e_port e -> 0 <= windowSize c <= 400 ->
  segment_ok g -> g_dst g = e_self e -> g_src g = e_peer e -> g_sport g = e_peer_port e -> g_dport g = e_port e -> Z.land (g_info g) TCP_CTRLFLAG_SYN <> 0 ->
  exists s' c' f, receiveFrame fuel (segment_frame g) s = Done (tt, s') /\ sent s' = sent s ++ [f] /\ carries e (Piece 0x1000 0x12 []) f /\
    established e ct c' s' /\ seqNum c' = 0x1000 /\ ackNum c' = u32 (g_seq g + 1) /\ windowSize c' = smaller (windowSize c) (g_window g) /\ status c' = status c.
Proof.
  intros Hm Hip Hfirst Ec Ep Hw Hg Hdst Hsrc Hsport Hport Hsyn. rewrite receive_segment by (done || left; by rewrite Hdst).
  rewrite Hport, (run_bind _ _ _ _ _ (getTCPContBySrcPort_ok _ _ _ _ Hfirst Ec Ep)). unfold tcp_input.
  assert (truthy (Z.land (g_info g) TCP_CTRLFLAG_SYN) = true) as -> by (unfold truthy; by apply negb_true_iff, Z.eqb_neq). unfold tcp_syn.
  rewrite (update_connection _ _ _ _ _ Ec), Hsrc, Hsport. set (c' := set_numbers _ _ _ _). set (s1 := with_connection ct c' s).
  rewrite (sendTCPHeader_ok c' _ s1) by exact Hm. assert (Ei : IPAddr s1 = e_self e) by exact Hip. rewrite Ei. pose proof (go_window g Hg) as [Hwin _].
  eexists _, c', _. split; [reflexivity|]. split; [reflexivity|]. split; [exists c', s1; split; [done|]; split; reflexivity|]. split; [|by repeat split].
  split; [exact Hm | exact Hip | | | done |].
  - apply (first_with_same _ _ s1); [reflexivity|]. by apply first_with_connection.
  - rewrite Connections_sent. by eapply with_connection_get.
  - change (windowSize c') with (smaller (windowSize c) (g_window g)). unfold smaller. destruct (Z.ltb_spec (windowSize c) (g_window g)); lia.
Qed.
End Tcp.

(** ** Examples *)

#[local] Existing Instance clean_machine.
Definition peer_segment (seq ack info : Z) (d : list Z) : segment :=
  Segment (repeat 0 12) [0x45; 0; 0; 40; 0; 1; 0; 0; 64] [0; 0] 0x0a000202 0x0a00020f 5000 80 seq ack info 8192 [0; 0; 0; 0] d.
Definition web_ends : ends := Ends 0x0a00020f 80 0x0a000202 5000.
Definition web_connection : TCPConnection := Connection TCP_CONT_CLOSED 0x0a000202 5000 80 0x1000 0x2001 400 0 0 [].
Definition web_net (files : list Z) (fs : myosFS) : NetInfo :=
  Net 0x0a00020f 0 [2; 0; 0; 0; 0; 1] 0 0 0 true 0 [] (closed_connection :: web_connection :: repeat closed_connection 28) 0 (repeat 0 1000) [] files fs.
Lemma peer_segment_ok seq ack info d : address_ok seq -> address_ok ack -> half_ok info -> segment_ok (peer_segment seq ack info d).
Proof. intros H1 H2 H3. split; try done; unfold address_ok, half_ok; cbn; lia. Qed.
Lemma peer_ack seq ack d : address_ok seq -> address_ok ack -> ack_for web_ends (peer_segment seq ack 0x5010 d).
Proof. intros H1 H2. split; [apply peer_segment_ok; [done | done | unfold half_ok; lia]|]. done. Qed.
Lemma web_established files fs : established web_ends 1 web_connection (web_net files fs).
Proof.
  split; [done | done | | done | done | cbn; lia]. split; [unfold TCP_CONT_MAX; lia | intros i Hi; lia].
Qed.
Definition acks_to (n : nat) : list segment := map (fun i => peer_segment 0x2001 (0x1000 + 400 * Z.of_nat i) 0x5010 []) (seq 1 n).
Lemma acks_to_ok n : (n < 100)%nat -> Forall (ack_for web_ends) (acks_to n).
Proof.
  intros Hn. unfold acks_to. apply Forall_forall. intros g Hg. apply list_elem_of_In, in_map_iff in Hg as (i & <- & Hi). apply in_seq in Hi.
  apply peer_ack; unfold address_ok; lia.
Qed.
Lemma tcp_transfer_witness : exists s' fs, (sendDataByTCP 1 (repeat 7 900 ++ []) 900 ;;; receive_all 0 (map segment_frame (acks_to 2))) (web_net [] (Fs 0 0 0)) = Done (tt, s') /\
  sent s' = fs /\ length fs = 3%nat.
Proof.
  destruct (tcp_transfer 0 web_ends 1 web_connection (repeat 7 900) [] (acks_to 2) (web_net [] (Fs 0 0 0))) as (s' & fs & E & Es & _ & Hp & _).
  - apply web_established.
  - rewrite repeat_length. lia.
  - apply acks_to_ok. lia.
  - apply completes_enough; [done | by repeat constructor | reflexivity].
  - exists s', fs. split; [exact E|]. split; [exact Es|]. rewrite <- (Forall2_length _ _ _ Hp). reflexivity.
Defined.
