(* ===== verification/MyosHttp.v ===== *)
(** * myos: the HTTP server

    A request in a frame, the page that [HTTPServer] puts together from the file system, and
    its way to the peer. *)
From S2P Require Import Prelude MyosMem MyosNet MyosSend MyosChecksum MyosDhcp MyosDns MyosTcp.
From Stdlib Require String.
Import Lib Stack.
Import String.StringSyntax.
#[local] Open Scope Z_scope.

(** ** Strings *)

Lemma strcmp_ok a b x y : Forall (fun c => c <> 0) a -> Forall (fun c => c <> 0) b -> strcmp (a ++ 0 :: x) (b ++ 0 :: y) = Done (if decide (a = b) then 0 else 1).
Proof.
  intros Ha. revert b. induction Ha as [|c a Hc Ha IH]; intros b Hb; destruct Hb as [|c' b Hc' Hb]; cbn [app strcmp].
  - by rewrite decide_True.
  - rewrite (proj2 (Z.eqb_neq 0 c')) by lia. cbn [andb]. by rewrite decide_False.
  - rewrite (proj2 (Z.eqb_neq c 0)) by lia. cbn [andb]. by rewrite decide_False.
  - rewrite (proj2 (Z.eqb_neq c 0)), (proj2 (Z.eqb_neq c' 0)) by lia. cbn [andb negb]. destruct (Z.eqb_spec c c') as [->|Hne]; cbn [andb].
    + rewrite IH by done. f_equal. destruct (decide (a = b)) as [->|Hab]; [by rewrite decide_True|]. rewrite decide_False; [done | congruence].
    + rewrite decide_False; [done | congruence].
Qed.

(** ** Requests *)

Definition word_char (c : Z) : Prop := c <> 0 /\ c <> SPACE /\ c <> CR.
Definition BLANK : list Z := [CR; LF; CR; LF].
Lemma read_word_ok w n : Forall word_char w -> forall pre c rest, c = SPACE \/ c = CR -> (length w <= n)%nat ->
  read_word n (pre ++ w ++ c :: rest) (Z.of_nat (length pre)) = Done (w, Z.of_nat (length pre) + Z.of_nat (length w)).
Proof.
  intros Hw. revert n. induction Hw as [|x w (_ & Hs & Hr) Hw IH]; intros n pre c rest Hc Hn.
  - cbn [app length]. rewrite Z.add_0_r. destruct n as [|n]; cbn [read_word]; unfold char_at; rewrite rd_byte; cbn [outcome_bind]; [done|]. by destruct Hc as [-> | ->].
  - destruct n as [|n]; [cbn in Hn; lia|]. cbn [app read_word]. unfold char_at. rewrite rd_byte. cbn [outcome_bind].
    rewrite (proj2 (Z.eqb_neq _ _) Hs), (proj2 (Z.eqb_neq _ _) Hr). cbn [orb]. pose proof (IH n (pre ++ [x]) c rest Hc ltac:(cbn in Hn; lia)) as E.
    rewrite length_app, <- app_assoc in E. cbn [length app] in E. replace (Z.of_nat (length pre + 1)) with (Z.of_nat (length pre) + 1) in E by lia. rewrite E. cbn [outcome_bind fst snd length].
    do 2 f_equal. lia.
Qed.
Lemma char_at_ok pre k l post x : nth_error l k = Some x -> char_at (pre ++ l ++ post) (Z.of_nat (length pre) + Z.of_nat k) = Done x.
Proof.
  intros Hk. destruct (nth_error_split _ _ Hk) as (l1 & l2 & -> & <-). unfold char_at.
  replace (pre ++ (l1 ++ x :: l2) ++ post) with ((pre ++ l1) ++ x :: (l2 ++ post)) by (rewrite <- !app_assoc; done).
  rewrite <- Nat2Z.inj_add, <- length_app. apply rd_byte.
Qed.
Lemma blank_at_ok pre a b c d post : blank_at (pre ++ [a; b; c; d] ++ post) (Z.of_nat (length pre)) = Done ((a =? CR) && (b =? LF) && (c =? CR) && (d =? LF)).
Proof.
  unfold blank_at. pose proof (char_at_ok pre 0 [a; b; c; d] post a eq_refl) as E0. rewrite Z.add_0_r in E0. rewrite E0. cbn [outcome_bind].
  destruct (a =? CR); [|done]. cbn [negb]. pose proof (char_at_ok pre 1 [a; b; c; d] post b eq_refl) as E1. change (Z.of_nat 1) with 1 in E1. rewrite E1. cbn [outcome_bind].
  destruct (b =? LF); [|done]. cbn [negb]. pose proof (char_at_ok pre 2 [a; b; c; d] post c eq_refl) as E2. change (Z.of_nat 2) with 2 in E2. rewrite E2. cbn [outcome_bind].
  destruct (c =? CR); [|done]. cbn [negb]. pose proof (char_at_ok pre 3 [a; b; c; d] post d eq_refl) as E3. change (Z.of_nat 3) with 3 in E3. rewrite E3. done.
Qed.
(** A blank line not too far from the start is found, or one before it. *)
Lemma find_blank_ok a : forall n pre b, (length a <= n)%nat -> exists i,
  find_blank n (pre ++ a ++ BLANK ++ b) (Z.of_nat (length pre)) = Done i /\ blank_at (pre ++ a ++ BLANK ++ b) i = Done true.
Proof.
  induction a as [|x a IH]; intros n pre b Hn.
  - exists (Z.of_nat (length pre)). assert (Eb : blank_at (pre ++ [] ++ BLANK ++ b) (Z.of_nat (length pre)) = Done true) by exact (blank_at_ok pre CR LF CR LF b).
    split; [|done]. destruct n as [|n]; [done|]. cbn [find_blank]. by rewrite Eb.
  - destruct n as [|n]; [cbn in Hn; lia|]. cbn [find_blank].
    assert (exists y z u post, x :: a ++ BLANK ++ b = [x; y; z; u] ++ post) as (y & z & u & post & Eq) by (destruct a as [|? [|? [|? a]]]; by repeat eexists).
    assert (exists v, blank_at (pre ++ (x :: a) ++ BLANK ++ b) (Z.of_nat (length pre)) = Done v) as [v Ev] by (cbn [app]; cbn [app] in Eq; rewrite Eq; eexists; apply (blank_at_ok pre x y z u post)).
    rewrite Ev. cbn [outcome_bind]. destruct v; [by exists (Z.of_nat (length pre))|]. destruct (IH n (pre ++ [x]) b ltac:(cbn in Hn; lia)) as (i & E & Eb).
    rewrite <- !app_assoc in E, Eb. exists i. rewrite length_app in E. cbn [length app] in E, Eb |- *. replace (Z.of_nat (length pre + 1)) with (Z.of_nat (length pre) + 1) in E by lia. done.
Qed.

(** ** The page *)

Lemma wr_at pre l mid post : length mid = length l -> wr (Z.of_nat (length pre)) l (pre ++ mid ++ post) = Done (pre ++ l ++ post).
Proof.
  intros Hl. apply wr_app_r; [lia|]. rewrite Z.sub_diag. unfold wr, arr_write. rewrite (proj2 (Z.leb_le (0 + _) _)) by (rewrite length_app; lia). cbn [Z.leb Z.compare andb Z.to_nat].
  rewrite take_0, drop_app_length' by lia. done.
Qed.
Lemma wr_start l m : (length l <= length m)%nat -> wr 0 l m = Done (l ++ drop (length l) m).
Proof. intros Hl. rewrite <- (take_drop (length l) m) at 1. apply (wr_at [] l). rewrite length_take. lia. Qed.

Definition request (path version rest : list Z) : list Z := text "GET" ++ SPACE :: path ++ SPACE :: version ++ CR :: rest.
Record request_ok (path version rest : list Z) : Prop := RequestOk {
  ro_path : Forall word_char path; ro_path_length : (length path <= 31)%nat; ro_version : Forall word_char version; ro_version_length : (length version <= 15)%nat;
  ro_blank : exists a b, request path version rest = a ++ BLANK ++ b /\ (length a <= 300)%nat
}.
(** The first file of the file system. *)
Definition first_file (file : list Z) (s : NetInfo) : Prop := exists address,
  rd_int (MetaData (FS s) + 32) 4 (image s) = Done address /\
  rd_int (MetaData (FS s) + 36) 4 (image s) = Done (Z.of_nat (length file)) /\
  rd (fs_data (FS s) + address) (length file) (image s) = Done file.
Definition OK_HEADER : list Z := line "HTTP/1.1 200 OK" ++ line "Server: myos" ++ line "Content-Type: text/html; charset=utf-8" ++ line "Connection: close" ++ line "".
(** The memory at the buffer: the header, two bytes, the file, and what was there before. *)
Definition with_page (file t : list Z) : list Z := OK_HEADER ++ [0] ++ take 1 (drop 93 t) ++ file ++ drop (94 + length file) t.
Definition page (file t : list Z) : list Z := take (length file + 400) (with_page file t).

Section Http.
Context `{Machine}.
Implicit Type s : NetInfo.

Lemma file_field_ok off v filename s : rd_int (MetaData (FS s) + off) 4 (image s) = Done v -> file_field off filename s = Done (v, s).
Proof. intros E. unfold file_field, searchFile. cbn [bind ret get]. replace (MetaData (FS s) + 0 * SIZEOF_METADATA + off) with (MetaData (FS s) + off) by lia. unfold lift. by rewrite E. Qed.
Lemma fileExists_ok filename s : fileExists filename s = Done (true, s).
Proof. done. Qed.
Lemma getFilesize_ok filename file s : first_file file s -> getFilesize filename s = Done (Z.of_nat (length file), s).
Proof. intros (a & _ & En & _). unfold getFilesize. rewrite (run_bind _ _ _ _ _ (fileExists_ok _ _)). by apply file_field_ok. Qed.
Lemma loadFile_ok filename bufsize file pre mid post s : first_file file s -> Z.of_nat (length file) < 2 ^ 32 -> Z.of_nat (length file) <= bufsize ->
  temp s = pre ++ mid ++ post -> length mid = length file ->
  loadFile (Z.of_nat (length pre)) filename bufsize s = Done (true, set_temp (pre ++ file ++ post) s).
Proof.
  intros Hf Hn Hb Et Hl. unfold loadFile. rewrite (run_bind _ _ _ _ _ (fileExists_ok _ _)). cbn [negb]. rewrite (run_bind _ _ _ _ _ (getFilesize_ok _ _ _ Hf)).
  rewrite u32_small, (proj2 (Z.ltb_ge _ _)) by lia. destruct Hf as (a & Ea & En & Ef).
  rewrite (run_bind _ _ _ _ _ (file_field_ok _ _ _ _ Ea)), (run_bind _ _ _ _ _ (file_field_ok _ _ _ _ En)), Nat2Z.id. cbn [bind get].
  rewrite (lift_bind _ _ _ _ Ef), Et. by rewrite (lift_bind _ _ _ _ (wr_at pre file mid post Hl)).
Qed.
Lemma word_char_nonzero l : Forall word_char l -> Forall (fun c => c <> 0) l.
Proof. intros Hl. eapply Forall_impl; [exact Hl|]. by intros c [? _]. Qed.
Lemma path_array path rest : Forall word_char path -> length (path ++ 0 :: rest) = 32%nat -> exists r path' filename,
  strcmp (path ++ 0 :: rest) (text "/" ++ [0]) = Done r /\
  (if r =? 0 then strcpy (path ++ 0 :: rest) (text "/index.html" ++ [0]) else Done (path ++ 0 :: rest)) = Done path' /\ rd 1 31 path' = Done filename.
Proof.
  intros Hp Hl. assert (Hrd : forall p, length p = 32%nat -> exists f, rd 1 31 p = Done f).
  { intros p Hp'. destruct p as [|x p]; [done|]. exists p. pose proof (rd_at [x] p [] 31 ltac:(cbn in Hp'; lia)) as E. by rewrite app_nil_r in E. }
  assert (Hc : strcmp (path ++ 0 :: rest) (text "/" ++ [0]) = Done (if decide (path = text "/") then 0 else 1)) by (apply strcmp_ok; [by apply word_char_nonzero | by repeat constructor]).
  rewrite Hc. destruct (decide (path = text "/")) as [->|Hne].
  - destruct (Hrd (text "/index.html" ++ 0 :: drop 12 (text "/" ++ 0 :: rest))) as [f Ef].
    { rewrite length_app. cbn [length]. rewrite length_drop, Hl. done. }
    eexists 0, _, f. split; [done|]. cbn [Z.eqb]. split; [|exact Ef]. apply strcpy_ok; [by repeat constructor | rewrite Hl; cbn; lia].
  - destruct (Hrd _ Hl) as [f Ef]. by exists 1, (path ++ 0 :: rest), f.
Qed.

Lemma with_page_steps (file t : list Z) : (94 + length file <= length t)%nat -> exists t1 t2, wr 0 (repeat 0 8) t = Done t1 /\ strcpy t1 HTTP_200_HEADER = Done t2 /\
  t2 = (OK_HEADER ++ [0] ++ take 1 (drop 93 t)) ++ take (length file) (drop 94 t) ++ drop (94 + length file) t.
Proof.
  intros Hl. exists (repeat 0 8 ++ drop 8 t), (OK_HEADER ++ 0 :: drop 93 t). split; [|split].
  - apply wr_start. cbn [length repeat]. lia.
  - change HTTP_200_HEADER with (OK_HEADER ++ 0 :: [0]). rewrite strcpy_ok; [|by repeat constructor | rewrite length_app, length_drop; change (length OK_HEADER) with 92%nat; cbn [length repeat]; lia].
    change (S (length OK_HEADER)) with 93%nat. do 3 f_equal. rewrite drop_app_ge by (cbn [length repeat]; lia). by rewrite drop_drop.
  - rewrite <- !app_assoc. cbn [app]. do 2 f_equal. rewrite <- (drop_drop t (length file) 94), take_drop. change 94%nat with (93 + 1)%nat. by rewrite <- (drop_drop t 1 93), take_drop.
Qed.
Lemma request_words path version rest : request_ok path version rest ->
  let r := request path version rest in
  read_word 15 r 0 = Done (text "GET", 3) /\ read_word 31 r 4 = Done (path, 4 + Z.of_nat (length path)) /\
  read_word 15 r (4 + Z.of_nat (length path) + 1) = Done (version, 4 + Z.of_nat (length path) + 1 + Z.of_nat (length version)).
Proof.
  intros [Hp Hpl Hv Hvl _]. cbn zeta. split; [|split].
  - exact (read_word_ok (text "GET") 15 ltac:(repeat constructor; done) [] SPACE (path ++ SPACE :: version ++ CR :: rest) (or_introl eq_refl) ltac:(cbn; lia)).
  - exact (read_word_ok path 31 Hp (text "GET" ++ [SPACE]) SPACE (version ++ CR :: rest) (or_introl eq_refl) Hpl).
  - pose proof (read_word_ok version 15 Hv (text "GET" ++ [SPACE] ++ path ++ [SPACE]) CR rest (or_intror eq_refl) Hvl) as E. unfold request.
    rewrite !length_app in E. cbn [length text] in E. rewrite <- !app_assoc in E. replace (Z.of_nat (3 + (1 + (length path + 1)))) with (4 + Z.of_nat (length path) + 1) in E by lia. exact E.
Qed.
Lemma HTTPServer_get ct path version rest file s : request_ok path version rest -> first_file file s ->
  Z.of_nat (length file) + 400 < 2 ^ 32 -> (length file + 400 <= length (temp s))%nat ->
  HTTPServer ct (request path version rest) s =
  sendDataByTCP ct (with_page file (temp s)) (Z.of_nat (length file + 400)) (set_temp (with_page file (temp s)) s).
Proof.
  intros Hr Hf Hn Ht. destruct (request_words _ _ _ Hr) as (E1 & E2 & E3). destruct Hr as [Hp Hpl _ _ (a & b & Eab & Ha)]. set (r := request path version rest) in *.
  unfold HTTPServer. cbn [bind get]. rewrite (lift_bind _ _ _ _ E1). cbn [fst snd].
  rewrite (lift_bind _ _ _ _ (wr_start (text "GET" ++ [0]) (uninit L_method 16 s) ltac:(rewrite uninit_length; cbn; lia))).
  change (3 + 1) with 4. rewrite (lift_bind _ _ _ _ E2). cbn [fst snd].
  rewrite (lift_bind _ _ _ _ (wr_start (path ++ [0]) (uninit L_path 32 s) ltac:(rewrite uninit_length, length_app; cbn; lia))). rewrite (lift_bind _ _ _ _ E3).
  destruct (find_blank_ok a 300 [] b Ha) as (i & Ei & Eb). cbn [app length] in Ei, Eb. rewrite <- Eab in Ei, Eb. rewrite (lift_bind _ _ _ _ Ei), (lift_bind _ _ _ _ Eb). cbn [negb].
  rewrite <- app_assoc. rewrite (lift_bind _ _ _ 0) by exact (strcmp_ok (text "GET") (text "GET") [] _ ltac:(by repeat constructor) ltac:(by repeat constructor)). cbn [Z.eqb].
  destruct (with_page_steps file (temp s) ltac:(lia)) as (t1 & t2 & Et1 & Et2 & E).
  rewrite (run_bind _ _ s tt (set_temp t1 s)) by (cbn [bind get]; by rewrite (lift_bind _ _ _ _ Et1)).
  rewrite (run_bind _ _ _ tt (set_temp t2 s)) by (unfold temp_strcpy; cbn [bind get]; change (temp (set_temp t1 s)) with t1; by rewrite (lift_bind _ _ _ _ Et2)).
  destruct (path_array path (drop (length (path ++ [0])) (uninit L_path 32 s)) Hp) as (c & path' & filename & Ec & Ep & Ef).
  { rewrite length_app. cbn [length]. rewrite length_drop, uninit_length, length_app. cbn [length]. lia. }
  rewrite <- app_assoc. cbn [app]. rewrite (lift_bind _ _ _ _ Ec), (lift_bind _ _ _ _ Ep), (lift_bind _ _ _ _ Ef).
  change (sizeof HTTP_200_HEADER) with 94. change (u64 (8 - 94)) with (2 ^ 64 - 86).
  assert (Hpre : length (OK_HEADER ++ [0] ++ take 1 (drop 93 (temp s))) = 94%nat).
  { rewrite !length_app, length_take, length_drop. change (length OK_HEADER) with 92%nat. cbn [length]. lia. }
  assert (Hload : loadFile 94 filename (2 ^ 64 - 86) (set_temp t2 s) = Done (true, set_temp (with_page file (temp s)) s)).
  { pose proof (loadFile_ok filename (2 ^ 64 - 86) file _ (take (length file) (drop 94 (temp s))) (drop (94 + length file) (temp s)) (set_temp t2 s) Hf ltac:(lia) ltac:(lia) E) as El.
    rewrite Hpre in El. change (Z.of_nat 94) with 94 in El. rewrite El by (rewrite length_take, length_drop; lia). unfold with_page. rewrite <- !app_assoc. reflexivity. }
  rewrite (run_bind _ _ _ _ _ Hload). cbn iota. set (s3 := set_temp (with_page file (temp s)) s). assert (Hf3 : first_file file s3) by exact Hf.
  rewrite (run_bind _ _ s3 (u32 (Z.of_nat (length file))) s3) by (by rewrite (run_bind _ _ _ _ _ (getFilesize_ok filename file s3 Hf3))). cbn [bind get].
  rewrite (u32_small (Z.of_nat (length file))), u32_small by lia. rewrite Nat2Z.inj_add. reflexivity.
Qed.

(** ** From the frame of the request to the last frame of the page *)

Lemma page_length file t : (length file + 400 <= length t)%nat -> length (page file t) = (length file + 400)%nat.
Proof.
  intros Ht. unfold page, with_page. rewrite length_take, !length_app, length_take, !length_drop. change (length OK_HEADER) with 92%nat. cbn [length]. lia.
Qed.
Lemma receive_request fuel e ct c g s : established e ct c s -> status c <> TCP_CONT_SENDING -> ack_for e g ->
  let c1 := set_numbers (g_ack g) (u32 (g_seq g + 1)) (g_window g) (set_status TCP_CONT_ACK_WAIT c) in
  receiveFrame fuel (segment_frame g) s = HTTPServer ct (g_data g) (with_connection ct c1 s) /\ established e ct c1 (with_connection ct c1 s).
Proof.
  intros [Hm Hip Hfirst Ec He Hw] Hst (Hg & Hdst & Hport & Hsyn & Hfin). pose proof (proj1 He) as He1. cbn zeta. split.
  - rewrite receive_segment by (done || left; by rewrite Hdst). rewrite Hport, (run_bind _ _ _ _ _ (getTCPContBySrcPort_ok _ _ _ _ Hfirst Ec He1)).
    unfold tcp_input. rewrite (truthy_0 _ Hsyn), (truthy_0 _ Hfin). cbn iota. rewrite (run_bind _ _ s tt s) by done. rewrite (run_bind _ _ _ _ _ (connection_ok _ _ _ Ec)).
    destruct (status c); try done; rewrite (run_bind _ _ _ _ _ (set_connection_ok _ _ _ _ Ec)); by rewrite (lift_bind _ _ _ (g_data g)).
  - split; [exact Hm | exact Hip | by apply first_with_connection | by eapply with_connection_get | exact He|]. pose proof (go_window g Hg) as [Hwin _].
    cbn [windowSize set_numbers set_status]. destruct (Z.ltb_spec (windowSize c) (g_window g)); lia.
Qed.
Lemma established_temp e ct c t s : established e ct c s -> established e ct c (set_temp t s).
Proof. intros [Hm Hip Hfirst Ec He Hw]. by split. Qed.

End Http.

(** ** Examples *)

#[local] Existing Instance clean_machine.
(** One file, "hello". *)
Definition hello_image : list Z := repeat 0 32 ++ le 4 0 ++ le 4 5 ++ text "hello".
Definition hello_net : NetInfo := web_net hello_image (Fs 0 0 40).
Definition get_rest : list Z := [LF] ++ line "Host: myos" ++ [CR; LF].
Definition get_segment : segment := peer_segment 0x2001 0x1001 0x5018 (request (text "/nothing") (text "HTTP/1.1") get_rest).
Lemma get_request_ok : request_ok (text "/nothing") (text "HTTP/1.1") get_rest.
Proof.
  split; [by repeat constructor | cbn; lia | by repeat constructor | cbn; lia|].
  exists (text "GET /nothing HTTP/1.1" ++ [CR; LF] ++ text "Host: myos"), []. split; [reflexivity | cbn; lia].
Qed.
Lemma hello_file : first_file (text "hello") hello_net.
Proof. exists 0. split; [reflexivity|]. split; reflexivity. Qed.
