(* ===== verification/MyosInit.v ===== *)
(** * myos: the tables of the network stack

    The start of the network, and the loops over the tables of connections and of addresses,
    some of which read behind their table; the packets of ICMP. *)
From S2P Require Import Prelude MyosMem MyosNet MyosSend MyosChecksum MyosDhcp MyosDns MyosTcp.
Import Lib Stack.
#[local] Open Scope Z_scope.

Section Tables.
Context `{Machine}.
Implicit Type s : NetInfo.

(** ** Connections *)

Lemma connection_outside ct s : Z.of_nat (length (Connections s)) <= ct -> connection ct s = Undef.
Proof. intros Hc. unfold connection. cbn [bind get]. unfold arr_get. rewrite (proj2 (Z.ltb_ge _ _)), lookup_ge_None_2 by lia. done. Qed.
Lemma find_free_outside : forall fuel i s, 1 <= i <= TCP_CONT_MAX -> (Z.to_nat (TCP_CONT_MAX - i) < fuel)%nat -> length (Connections s) = 30%nat ->
  (forall j, 1 <= j < TCP_CONT_MAX -> exists c, arr_get (Connections s) j = Some c /\ portSrc c = 0) -> find_free fuel i s = Undef.
Proof.
  induction fuel as [|fuel IH]; intros i s Hi Hf Hl Hfree; [lia|]. cbn [find_free]. destruct (Z.eq_dec i TCP_CONT_MAX) as [->|].
  - unfold bind. rewrite connection_outside; [done|]. rewrite Hl. done.
  - destruct (Hfree i ltac:(lia)) as (c & Ec & Ep). rewrite (run_bind _ _ _ _ _ (connection_ok _ _ _ Ec)), Ep, (proj2 (Z.ltb_lt _ _)) by lia. cbn [Z.eqb andb].
    rewrite (run_bind _ _ _ _ _ (set_connection_ok _ _ _ _ Ec)). apply IH; [lia | lia | |].
    + cbn. by rewrite length_insert.
    + intros j Hj. destruct (Z.eq_dec j i) as [->|]; [eexists; split; [by eapply with_connection_get | done]|]. rewrite with_connection_other by lia. by apply Hfree.
Qed.
Lemma set_cache_first f s : Cache s <> [] -> exists cs, set_cache 0 f s = Done (tt, set_Cache cs s).
Proof. intros Hc. destruct (Cache s) as [|e es] eqn:Ec; [done|]. exists (f e :: es). unfold set_cache. cbn [bind get]. rewrite Ec. done. Qed.
(** The network stack does not start within the rules of C.  The loop that looks for a
    free connection goes on while the connections are free, and has the first assignment as
    its body: with the empty table of a machine that starts, [initNetwork] reads and writes
    behind the table before it asks for an address. *)
Theorem init_leaves_table fuel mac arrivals s : length (Connections s) = 30%nat -> Cache s <> [] ->
  (forall j, 1 <= j < TCP_CONT_MAX -> exists c, arr_get (Connections s) j = Some c /\ portSrc c = 0) -> initNetwork fuel mac arrivals s = Undef.
Proof.
  intros Hl Hc Hfree. unfold initNetwork. cbn [bind modify]. set (s1 := set_MACAddr _ _). assert (Hc1 : Cache s1 <> []) by exact Hc.
  destruct (set_cache_first (fun e => Entry 0xffffffff (repeat 0xff 6) (c_status e)) s1 Hc1) as (cs & E). rewrite (run_bind _ _ _ _ _ E).
  unfold createTCPConnection, bind. rewrite find_free_outside; [done | done | unfold TCP_CONT_MAX; lia | exact Hl | exact Hfree].
Qed.

Lemma find_connection_outside port : forall fuel i s, 1 <= i <= TCP_CONT_MAX -> (Z.to_nat (TCP_CONT_MAX - i) < fuel)%nat -> length (Connections s) = 30%nat ->
  (forall j, 1 <= j < TCP_CONT_MAX -> exists c, arr_get (Connections s) j = Some c /\ portSrc c <> port) -> find_connection fuel port i s = Undef.
Proof.
  induction fuel as [|fuel IH]; intros i s Hi Hf Hl Hother; [lia|]. cbn [find_connection]. destruct (Z.eq_dec i TCP_CONT_MAX) as [->|].
  - unfold bind. rewrite connection_outside; [done|]. by rewrite Hl.
  - destruct (Hother i ltac:(lia)) as (c & Ec & Ep). rewrite (run_bind _ _ _ _ _ (connection_ok _ _ _ Ec)), (proj2 (Z.eqb_neq _ _) Ep), (proj2 (Z.ltb_lt _ _)), (proj2 (Z.eqb_neq i _)) by lia.
    cbn [negb andb]. apply IH; done || lia.
Qed.
(** A segment to a port without a connection. *)
Lemma unknown_port_outside fuel g s : segment_ok g -> g_dst g = IPAddr s -> length (Connections s) = 30%nat ->
  (forall j, 1 <= j < TCP_CONT_MAX -> exists c, arr_get (Connections s) j = Some c /\ portSrc c <> g_dport g) -> receiveFrame fuel (segment_frame g) s = Undef.
Proof.
  intros Hg Hd Hl Hother. rewrite receive_segment by (done || by left). unfold bind, getTCPContBySrcPort. rewrite find_connection_outside; [done | done | unfold TCP_CONT_MAX; lia | done | done].
Qed.

(** ** ARP *)

(** 46 bytes of a packet of 28. *)
Lemma sendFrame_short ptr type packet size s : length (MACAddr s) = 6%nat -> Z.of_nat (length packet) < size <= 1000 -> sendFrame ptr type packet size s = Undef.
Proof.
  intros Hm Hs. destruct (six _ Hm) as (a & b & c & d & e & f & Em). unfold sendFrame. cbn [bind get]. rewrite Em. rewrite (uninit_split L_Frame 14 1014) by lia.
  set (rest := map (left_over L_Frame s) (seq 14 (1014 - 14))). assert (Hr : length rest = 1000%nat) by (unfold rest; by rewrite length_map, length_seq). unfold bind.
  match goal with |- match lift ?m s with _ => _ end = _ => assert (E : m = Undef); [|unfold lift; by rewrite E] end.
  build_to. unfold copy_to. match goal with |- context [drop 14 (?h ++ rest)] => change (drop 14 (h ++ rest)) with rest end. rewrite u32_small by lia.
  assert (Hm0 : forall n to from, (length from < n)%nat -> memcpy to from n = Undef).
  { clear. induction n as [|n IH]; intros to from Hl; [lia|]. destruct to, from; try done. cbn [memcpy]. rewrite IH; [done | cbn in Hl; lia]. }
  by rewrite Hm0 by lia.
Qed.
Lemma sendARPRequest_outside to s : length (MACAddr s) = 6%nat -> sendARPRequest to s = Undef.
Proof.
  intros Hm. destruct (six _ Hm) as (a & b & c & d & e & f & Em). unfold sendARPRequest, arp_convert. cbn [bind get]. rewrite Em. rewrite <- (app_nil_r (uninit L_ARP 28 s)).
  remember (IPAddr s) as ip eqn:Ei. erewrite lift_bind by (build_to; header_step). apply sendFrame_short; [by rewrite Em|]. unfold ARP_PACKET_SIZE. cbn [length app]. lia.
Qed.

(** ** ICMP *)

Lemma echo_packet_ok type s : type = 8 \/ type = 0 -> exists sum, echo_packet type s = Done ([type; 0] ++ sum ++ [0x12; 0x21; 0; 1; 0x12; 0x34; 0xab; 0xcd]) /\
  checksum_ok ([type; 0] ++ sum ++ [0x12; 0x21; 0; 1; 0x12; 0x34; 0xab; 0xcd]) = true.
Proof. intros [-> | ->]; eexists [_; _]; (split; [lazy; reflexivity | vm_compute; reflexivity]). Qed.
End Tables.

(** ** Examples *)

#[local] Existing Instance clean_machine.
Lemma init_leaves_table_witness : initNetwork 10 [0x52; 0x54; 0; 0x12; 0x34; 0x56] [] new_net = Undef.
Proof.
  apply (init_leaves_table 10 [0x52; 0x54; 0; 0x12; 0x34; 0x56] [] new_net); [reflexivity | discriminate|].
  intros j Hj. exists closed_connection. split; [|reflexivity]. apply arr_get_Some. split; [lia|]. change (replicate 30 closed_connection !! Z.to_nat j = Some closed_connection). apply lookup_replicate_2. unfold TCP_CONT_MAX in Hj. lia.
Defined.
